(* ===== verification/_CoqProject ===== *)
-Q . S2P
Prelude.v
RustStr.v
Externals.v
Delegation.v
Json.v
Canonical.v
CanonicalNumber.v
CanonicalInjective.v
Serialized.v
Evidence.v
OperatorCommon.v
StrictDigest.v
Registry.v
Approval.v
Agent.v
AgentRun.v
ExecutionStore.v
OperatorEnvironment.v
AgentRunStore.v
Engine.v
EngineProofs.v
EngineTotal.v
AgentModel.v
AgentRuntime.v
AgentRecording.v
AgentRuntimeProofs.v
AgentRuntimeCalm.v
AgentRuntimeLife.v
AgentRuntimeBudget.v
AgentRuntimeSample.v
Benchmark.v
Workflow.v
WorkflowProofs.v
Durable.v
AuditChain.v
OperatorAuth.v
OperatorAuthProofs.v
OperatorAuthFailure.v
OperatorSample.v
Custody.v
Base64.v
RuntimeStore.v
ReplayStore.v
RuntimeOps.v
RuntimeCommitOp.v
OperatorCommand.v
CommandStore.v
Base64Decode.v
RuntimeProofs.v
OperatorAuthAudit.v
OperatorAuthSample.v
RuntimeWp.v
RuntimeLeases.v
RuntimeLedger.v
RuntimeResults.v
ControlStore.v
CommandProofs.v
FinishedRuns.v
GovernedEngine.v
RuntimeSample.v
CommandSample.v
