(* ===== verification/Prelude.v ===== *)
(** * Proof Platform: a verification of the governed execution kernel

    Proof Platform executes named operations for humans, agents and services, and
    records signed evidence of what it executed.  This library models the kernel crate
    [crates/proof-kernel], the durable store of its operator lifecycle
    ([crates/proof-storage/src/sqlite/operator_store.rs]), the authentication of its
    operators ([crates/proof-operator-auth]), the runtime that drives agents
    ([crates/proof-agent-runtime]) and one domain crate ([crates/proof-workflow]) as
    executable definitions, and proves what they promise.

    ** The program and its model

    A caller asks the execution engine to run an operation of the registry.  On the
    direct path the engine checks who may run it (governance, a signed human approval, a
    chain of delegation grants), makes keyed calls run at most once through a replay
    store, calls the handler of the operation, and signs a proof over canonical digests
    of input and output.  The agent runtime asks a model what to do next, executes the
    tools it asks for with the engine, waits for the approval of human-only ones, and
    keeps durable runs, steps, checkpoints and events, from which it resumes after a
    crash.  On the governed path an executor first claims a lease of a run,
    reserves budget and begins a dispatch in the operator store; the engine runs the
    handler once under the permit of that dispatch and prepares a result; the store
    commits the result, or forfeits the reservation.  A human operator opens a session
    by signing a challenge, and sends commands in it: decide an approval, cancel or
    resume a run, revoke the session.  Every transition of the store appends an event to
    an audit chain.

    - [Prelude]: results with a panic outcome, stateful calls, machine integers,
      ordered maps, stable sorting.  [RustStr]: the string operations of the source.
      [Externals]: third-party code (BLAKE3, Ed25519, [serde_json] text, [uuid],
      [chrono]) as a class of operations, with a class of the documented laws that the
      theorems rely on, and a concrete instance that satisfies them.
    - [Json], [Canonical], [CanonicalNumber], [CanonicalInjective], [Serialized]:
      [canonical.rs], the JSON values it works on and the derived serializers.
    - [Delegation]: [delegation.rs].  [Evidence]: [identity.rs], [evidence.rs].
      [Registry]: [registry.rs].  [Approval]: [approval.rs].
      [OperatorCommon]: [operator/common.rs].
    - [Agent]: [agent.rs].  [AgentRun], [AgentRunStore]: [agent_run.rs].
    - [ExecutionStore]: [executor/context.rs], [executor/error.rs],
      [executor/store.rs].  [Engine], [EngineProofs], [EngineTotal]: the direct path of
      [executor/engine.rs].  [Benchmark]: [benchmark.rs].
    - [AgentModel]: the records of [model.rs] and [runtime.rs] of
      [crates/proof-agent-runtime] with their wire forms.  [AgentRuntime]: [start] and
      [resume] of its [runtime.rs], with everything they call.  [AgentRecording]: this
      runtime over the recording stores of [Agent], [AgentRunStore] and [Approval], where
      any operation may fail before or after its effect.  [AgentRuntimeProofs],
      [AgentRuntimeCalm], [AgentRuntimeLife], [AgentRuntimeBudget]: the theorems on it.
      [AgentRuntimeSample]: an agent whose tool needs an approval, computed with and
      without crashes.
    - [Workflow], [WorkflowProofs]: [crates/proof-workflow], behind the engine's handler
      interface.
    - [StrictDigest], [Durable], [AuditChain]: the records of [operator/durable.rs], how they
      are hashed, and the audit chain.  [Custody]: [operator/prepared.rs], the objects
      that hold the tokens of a lease and of a dispatch.  [OperatorSample]: concrete
      externals on which operator records compute.
    - [OperatorEnvironment]: [operator/environment.rs], clock, entropy and identifiers.
      [OperatorAuth], [OperatorAuthProofs], [OperatorAuthFailure], [OperatorAuthAudit],
      [OperatorAuthSample]: the challenges and sessions of [crates/proof-operator-auth].
    - [RuntimeStore], [ReplayStore], [Base64], [RuntimeOps], [RuntimeCommitOp]: the
      tables of [operator_store.rs] and the nine operations of [OperatorRuntimeStore],
      with the replay rows of [sqlite/replay.rs] and the requests and results of
      [operator/store.rs].
    - [OperatorCommand], [CommandStore], [Base64Decode]: the commands and receipts of
      [operator/durable.rs], and the other operations of [operator_store.rs] that write:
      commands, authority events, registration of runs.
    - [GovernedEngine]: the governed path of [executor/engine.rs], which takes its permit
      from [Custody] and gives its result to [RuntimeCommitOp].
    - [RuntimeProofs], [RuntimeWp], [RuntimeLeases], [RuntimeLedger], [RuntimeResults]:
      the theorems on the runtime operations.  [ControlStore], [CommandProofs],
      [FinishedRuns]: the theorems on all operations that write.  [RuntimeSample],
      [CommandSample]: a run from its lease to a committed result, and commands on it,
      computed.

    Definitions keep the names of the source, with the type in front where Rust has it
    in the path ([Proof::sign] is [Proof_sign]).  A method that can fail returns a
    [result]; a method on [&mut self] or on a store behind a mutex is a [call], a
    function from the state to a result and the state it leaves behind, also when it
    fails.  A trait that the engine calls ([ExecutionStore], [OperationHandler],
    [OperatorControlEnvironment]) is a record of operations over an abstract state; what
    the engine needs from a replay store is the class [ReplayStore], which the recording
    store is shown to satisfy.  Code inside an SQL transaction is a call on the tables,
    which [transaction] rolls back when it fails.  Fresh identifiers, keys, the current
    time and elapsed time are arguments or come from the environment.

    ** What is proved

    - Authority: a handler runs only for a registered operation that its caller may
      execute ([execute_requires_authority]); accepted delegation chains are exactly the
      connected, current, covered ones and, without patterns that end in two stars,
      attenuate authority
      ([validate_chain_spec], [validate_chain_attenuates], [pattern_is_covered_exact]);
      an approval authorises one call and one decision belongs to one request
      ([approval_authorises_one_call], [decision_binds_request],
      [approval_flow_accepted]).  Two theorems show where the code grants more than its
      documentation says ([double_star_escalates], [delegation_scope_not_narrowed]).
    - Replay: at most one execution per key, exact replays, refusal after an ambiguous
      failure ([execute_at_most_once], [execute_exact_replay],
      [execute_ambiguous_refused]), and the store state machine behind them
      ([replay_terminal_forever], [replay_claim_exclusive]).
    - Evidence: canonical JSON is injective up to the integral floats it identifies
      ([canonicalize_injective], [canonical_number_float]), digests bind kind and value
      up to hash collisions ([digest_binds], [control_digest_binds]), signatures bind
      every field ([signing_payload_binds], [Proof_sign_verifies], [execute_evidence]),
      and the wire forms are read back ([Proof_wire_roundtrip],
      [ContentDigest_wire_exact], [digest_texts_exact], [decode_base64url_exact]).
    - Registry, capabilities, benchmarks: search finds exactly the loaded entries
      ([Registry_find_exact], [Registry_new_order], [Registry_new_duplicates]); the
      binary search of a capability set decides membership
      ([CapabilitySet_contains_exact]); [verify_benchmark_verdict].
    - Runs: invariants of every run and step the methods can produce
      ([run_reachable_invariant], [step_reachable_invariant],
      [step_binding_immutable]), and of every sequence of store operations: no lost
      update, one step per approval request, one contiguous chain of checkpoints, one
      run per live start ([run_revisions_linear], [approval_binding_stable],
      [checkpoints_contiguous], [append_race], [live_start_once]).
    - Agents: whatever its surroundings answer, a call of the agent runtime asks only for
      what the definition of the agent permits, within its limits
      ([agent_calls_confined]), and ends ([agent_calls_return]); over any history of calls
      and crashes no tool step is executed twice ([tool_steps_executed_once]) and the
      model-call budget of a run is never exceeded ([model_calls_bounded]).  The stored
      state is read back ([AgentRuntimeState_roundtrip]).  One theorem shows a limit that
      is accepted and makes the runtime panic ([long_duration_panics]).
    - Workflows: the handlers implement a counter of approved steps
      ([workflow_refines], [workflow_in_order]); which runs complete and that every run
      can be driven to its end ([workflow_completed_runs], [workflow_finishes]).
    - Governed execution: one effect per permit and per token ([governed_effect_once]),
      what a returned result is evidence of ([governed_result_sound]), that the store's
      decision on its binding depends on time and currency only
      ([governed_result_accepted]), and that custody is linear
      ([dispatch_custody_linear], [lease_authority_bound], [from_report_sealed]).
    - The operator store, for every sequence of runtime operations: it implements an
      abstract budget ledger ([runtime_refines_ledger], with [can_reserve_exact] and
      [BudgetReservation_states] for single records), a superseded lease is refused for
      ever ([superseded_authority_refused]), the audit events form one tamper-evident
      chain ([audit_chain_maintained], [audit_chain_binds], [profile_mask_exact]), and a
      replayed result is backed by its whole record ([verified_replay_sound]).  Four
      theorems show where the code falls short of its intent: an expired lease cannot be
      reclaimed and blocks its run ([reclaim_always_refused], [expired_lease_stuck]), one
      dispatch result fails its own validator ([begin_dispatch_results]), and a result
      that waits for an approval cannot be committed ([approval_never_committed]).
    - Operator commands, for every interleaving of runtime operations, authority events,
      registrations and commands: the invariants of the store hold
      ([control_invariants]), a command has one receipt and a repeated key is replayed
      or refused ([command_exactly_once]), it needs the session and the capabilities of
      the enrolled human and leaves a proof and an event ([command_authorized]), and a
      run that succeeded or was cancelled stays so ([finished_run_final]).  One theorem
      shows that no approval can be decided ([approval_decision_refused]).
    - Operator sessions: a session needs a signed attestation of a challenge
      ([session_needs_attestation]), authorizes its token only, within its lifetime and
      capabilities ([session_authorizes], [token_text_exact]), is in the audit chain of
      the operator store ([sessions_audited]), and failures close it
      ([auth_fails_closed]).
    - Totality: [execute_no_panic] shows that no [expect] of the engine's direct path can
      fail when store and handlers return; every definition is a total function.

    ** Choices and limits

    - Strings are byte strings in UTF-8.  A [Uuid] is its 128-bit number, an instant a
      number in chronological order.  Unsigned counters are natural numbers with their
      width written out; [+=] wraps, as in a release build, [checked_add] does not.
      A float is its shortest decimal, which is what canonical JSON is made from.
    - A [BTreeMap] keyed by ids is a finite map listed in key order; a [HashMap] whose
      order shows is an association list, with a theorem that the order does not matter
      ([live_start_order_irrelevant]).
    - Three functions need fuel, and the length of their argument is enough: the binary
      search of a capability set, which halves a list, [trim_prefixes] of [Workflow],
      which shortens a string, and [fill_blocks] of [OperatorEnvironment], which fills at
      least a byte per turn ([recording_fill_terminates] shows that it never runs out).
      A fourth, the loop over model turns ([drive_loop]), gets one turn more than the
      agent may make model calls, and [agent_calls_return] shows that it never runs out.
    - The agent runtime has no lock of its own: one [start] or [resume] runs at a time in
      the theorems on histories, and a process that stops is one whose store operations
      fail from there on.  What the runtime asks of the model and of the engine is in a log
      that no modelled code reads.
    - Each store operation is one atomic step, because the source holds its locks or its
      transaction for the whole operation; theorems on stores quantify over all sequences
      of operations.  A poisoned mutex is modelled where a callback of the caller runs under
      the lock ([OperatorAuth]); elsewhere no modelled code panics while it holds one.
    - A row of the operator store is the record its JSON column holds; the other columns
      are written from that record by the same statement.
    - Collisions of BLAKE3 are not assumed away: theorems that need them absent have in
      their conclusion the alternative that the two messages the code hashed are different
      and have the same hash ([collides]).
    - Not modelled in the kernel: log output; [derive_key]; provisioning, read scopes,
      pages, cursors and the evidence view of an approval, which only reads use
      ([operator/durable.rs], [operator/store.rs]); loading the catalog from files and
      the recording operator store for tests ([operator/catalog.rs],
      [operator/store.rs]).
    - Not modelled in storage: failures of SQLite itself; provisioning and paged reads of
      [operator_store.rs]; the stand-alone methods of [sqlite/replay.rs]; the other
      tables and the content-addressed files, which are SQL and file I/O behind
      interfaces of the kernel.
    - Not modelled in the agent runtime: prepared live runs, a second path of [runtime.rs]
      with its own readiness, setup and seal records (the claim of their start is, in
      [AgentRunStore]); the HTTP client of the model provider ([openai.rs]); the operator
      adapters ([operator.rs]); the scoring of recorded traces ([trace_eval.rs]).
    - Not modelled elsewhere: the content, commerce and analytics crates, operator
      control, and the transports, which call the kernel or implement its interfaces. *)

From Stdlib Require Export Ascii.
From stdpp Require Export base option list gmap strings pretty sorting.
From stdpp Require Import options.

#[global] Arguments String.append : simpl nomatch.

(** ** Results

    A Rust [Result<A, E>], with a third outcome for the calls that the source
    leaves to [expect], [unwrap] or slice indexing: a model that can panic says
    so, and the theorems show where it cannot. *)

Inductive result (E A : Type) : Type :=
| Ok (a : A)
| Err (e : E)
| Panic.

Arguments Ok {E A} a.
Arguments Err {E A} e.
Arguments Panic {E A}.

#[export] Instance result_eq_dec `{EqDecision E, EqDecision A} :
  EqDecision (result E A).
Proof. solve_decision. Defined.

Declare Scope rust_scope.
Delimit Scope rust_scope with rust.

(** [let? x := c in k] is the [?] operator; [bail e when b ; k] is an early
    [return Err(e)] under the condition [b]. *)

Definition rbind {E A B} (c : result E A) (k : A → result E B) : result E B :=
  match c with
  | Ok a => k a
  | Err e => Err e
  | Panic => Panic
  end.

Definition map_err {E F A} (f : E → F) (c : result E A) : result F A :=
  match c with
  | Ok a => Ok a
  | Err e => Err (f e)
  | Panic => Panic
  end.

Definition ok_or {E A} (o : option A) (e : E) : result E A :=
  match o with
  | Some a => Ok a
  | None => Err e
  end.

Definition expect {E A} (o : option A) : result E A :=
  match o with
  | Some a => Ok a
  | None => Panic
  end.

Definition is_ok {E A} (c : result E A) : bool :=
  match c with Ok _ => true | _ => false end.

Notation "'let?' x ':=' c 'in' k" := (rbind c (fun x => k))
  (at level 10, x pattern, c at level 200, k at level 200,
   format "'[v' 'let?'  x  ':='  c  'in' '/' k ']'") : rust_scope.
Notation "'bail' e 'when' b ';' k" := (if b then Err e else k)
  (at level 10, e at level 200, b at level 200, k at level 200,
   format "'[v' 'bail'  e  'when'  b ';' '/' k ']'") : rust_scope.
Open Scope rust_scope.

(** ** Stateful calls

    A method that takes [&self] and changes what [self] holds: it returns a
    result and the state it leaves, also when it fails. *)

Definition call (S E A : Type) : Type := S → result E A * S.

Definition ret {S E A} (a : A) : call S E A := λ s, (Ok a, s).
Definition throw {S E A} (e : E) : call S E A := λ s, (Err e, s).
Definition lift {S E A} (c : result E A) : call S E A := λ s, (c, s).

Definition cbind {S E A B} (c : call S E A) (k : A → call S E B) : call S E B := λ s,
  match c s with
  | (Ok a, s') => k a s'
  | (Err e, s') => (Err e, s')
  | (Panic, s') => (Panic, s')
  end.

Definition call_map_err {S E F A} (f : E → F) (c : call S E A) : call S F A := λ s,
  (map_err f (c s).1, (c s).2).

(** The result of a call as a value, for code that inspects an error. *)
Definition attempt {S E F A} (c : call S E A) : call S F (result E A) := λ s,
  (Ok (c s).1, (c s).2).

Notation "'let!' x ':=' c 'in' k" := (cbind c (fun x => k))
  (at level 10, x pattern, c at level 200, k at level 200,
   format "'[v' 'let!'  x  ':='  c  'in' '/' k ']'") : rust_scope.
Notation "'stop' e 'when' b ';' k" := (if b then throw e else k)
  (at level 10, e at level 200, b at level 200, k at level 200,
   format "'[v' 'stop'  e  'when'  b ';' '/' k ']'") : rust_scope.

(** ** Lemmas on results *)

Lemma rbind_Ok {E A B} (c : result E A) (k : A → result E B) b :
  rbind c k = Ok b ↔ ∃ a, c = Ok a ∧ k a = Ok b.
Proof. destruct c; simpl; naive_solver. Qed.

Lemma rbind_Err {E A B} (c : result E A) (k : A → result E B) e :
  rbind c k = Err e ↔ c = Err e ∨ ∃ a, c = Ok a ∧ k a = Err e.
Proof. destruct c; simpl; naive_solver. Qed.

Lemma map_err_Ok {E F A} (f : E → F) (c : result E A) a :
  map_err f c = Ok a ↔ c = Ok a.
Proof. destruct c; simpl; naive_solver. Qed.

Lemma ok_or_Ok {E A} (o : option A) (e : E) a :
  ok_or o e = Ok a ↔ o = Some a.
Proof. destruct o; simpl; naive_solver. Qed.

Lemma expect_Ok {E A} (o : option A) a :
  @expect E A o = Ok a ↔ o = Some a.
Proof. destruct o; simpl; naive_solver. Qed.

Lemma bail_Ok {E A} (b : bool) (e : E) (k : result E A) a :
  (if b then Err e else k) = Ok a ↔ b = false ∧ k = Ok a.
Proof. destruct b; naive_solver. Qed.

Lemma is_ok_true {E A} (c : result E A) : is_ok c = true ↔ ∃ a, c = Ok a.
Proof. destruct c; naive_solver. Qed.

Lemma bail_not_Panic {E A} (b : bool) (e : E) (k : result E A) :
  k ≠ Panic → (if b then Err e else k) ≠ Panic.
Proof. by destruct b. Qed.

Lemma rbind_not_Panic {E A B} (c : result E A) (k : A → result E B) :
  c ≠ Panic → (∀ a, c = Ok a → k a ≠ Panic) → rbind c k ≠ Panic.
Proof. destruct c; simpl; auto. Qed.

Lemma ok_or_not_Panic {E A} (o : option A) (e : E) : ok_or o e ≠ Panic.
Proof. by destruct o. Qed.

Lemma map_err_not_Panic {E F A} (f : E → F) (c : result E A) :
  c ≠ Panic → map_err f c ≠ Panic.
Proof. by destruct c. Qed.

Create HintDb rust discriminated.
#[export] Hint Resolve bail_not_Panic rbind_not_Panic ok_or_not_Panic
  map_err_not_Panic : rust.
#[export] Hint Extern 0 (Ok _ ≠ Panic) => discriminate : rust.
#[export] Hint Extern 0 (Err _ ≠ Panic) => discriminate : rust.

(** A run of guards, [?]s and early returns that ended in [Ok] is turned into
    the facts that each guard passed. *)

Ltac res_step :=
  match goal with
  | H : rbind _ _ = Ok _ |- _ => apply rbind_Ok in H as (? & ? & ?)
  | H : map_err _ _ = Ok _ |- _ => apply map_err_Ok in H
  | H : ok_or _ _ = Ok _ |- _ => apply ok_or_Ok in H
  | H : expect _ = Ok _ |- _ => apply expect_Ok in H
  | H : (if _ then Err _ else _) = Ok _ |- _ => apply bail_Ok in H as [? H]
  | H : orb _ _ = false |- _ => apply orb_false_iff in H as [? ?]
  | H : andb _ _ = true |- _ => apply andb_true_iff in H as [? ?]
  | H : negb _ = false |- _ => apply negb_false_iff in H
  | H : negb _ = true |- _ => apply negb_true_iff in H
  | H : bool_decide _ = true |- _ => apply bool_decide_eq_true in H
  | H : bool_decide _ = false |- _ => apply bool_decide_eq_false in H
  | H : Ok _ = Ok _ |- _ => injection H as H
  | H : Some _ = Some _ |- _ => injection H as H
  | H : Err _ = Ok _ |- _ => discriminate H
  | H : Panic = Ok _ |- _ => discriminate H
  | x : unit |- _ => destruct x
  end.

Ltac res_inv := repeat (res_step; cbv beta zeta in *; try subst).

(** The same for calls: a call that ended in [Ok] ran through all its steps. *)

Lemma cbind_Ok {S E A B} (c : call S E A) (k : A → call S E B) s b s' :
  cbind c k s = (Ok b, s') ↔ ∃ a s1, c s = (Ok a, s1) ∧ k a s1 = (Ok b, s').
Proof. unfold cbind. destruct (c s) as [[] ?]; naive_solver. Qed.

Lemma lift_Ok {S E A} (c : result E A) (s : S) a s' :
  lift c s = (Ok a, s') ↔ c = Ok a ∧ s' = s.
Proof. unfold lift. naive_solver. Qed.

Lemma stop_Ok {S E A} (b : bool) (e : E) (k : call S E A) s a s' :
  (if b then throw e else k) s = (Ok a, s') ↔ b = false ∧ k s = (Ok a, s').
Proof. destruct b; unfold throw; naive_solver. Qed.

Lemma call_map_err_Ok {S E F A} (f : E → F) (c : call S E A) s a s' :
  call_map_err f c s = (Ok a, s') ↔ c s = (Ok a, s').
Proof. unfold call_map_err. destruct (c s) as [[] ?]; simpl; naive_solver. Qed.

Ltac call_step :=
  match goal with
  | H : cbind _ _ _ = (Ok _, _) |- _ => apply cbind_Ok in H as (? & ? & ? & ?)
  | H : lift _ _ = (Ok _, _) |- _ => apply lift_Ok in H as [? ?]
  | H : call_map_err _ _ _ = (Ok _, _) |- _ => apply call_map_err_Ok in H
  | H : (if _ then throw _ else _) _ = (Ok _, _) |- _ => apply stop_Ok in H as [? H]
  | H : ret _ _ = (Ok _, _) |- _ => unfold ret in H; injection H as H
  | H : attempt _ _ = (Ok _, _) |- _ => unfold attempt in H; injection H as H
  | H : throw _ _ = (Ok _, _) |- _ => unfold throw in H; discriminate H
  | H : (Err _, _) = (Ok _, _) |- _ => discriminate H
  | H : (Panic, _) = (Ok _, _) |- _ => discriminate H
  end.

Ltac call_inv := repeat ((call_step || res_step); cbv beta zeta in *; try subst).

(** ** Machine integers *)

Definition u16_max : N := 65535%N.
Definition u32_max : N := 4294967295%N.
Definition u64_max : N := 18446744073709551615%N.

(** [checked_add] on an unsigned type whose largest value is [max]. *)
Definition checked_add (max a b : N) : option N :=
  if bool_decide (a + b ≤ max)%N then Some (a + b)%N else None.

(** [+] in a release build: it wraps at [max + 1]. *)
Definition wrapping_add (max a b : N) : N := ((a + b) mod (max + 1))%N.

Definition checked_sub (a b : N) : option N :=
  if bool_decide (b ≤ a)%N then Some (a - b)%N else None.

Lemma checked_add_Some max a b c :
  checked_add max a b = Some c ↔ c = (a + b)%N ∧ (a + b ≤ max)%N.
Proof. unfold checked_add. case_bool_decide; naive_solver. Qed.

Lemma wrapping_add_small max a b :
  (a + b ≤ max)%N → wrapping_add max a b = (a + b)%N.
Proof. intros H. unfold wrapping_add. apply N.mod_small. lia. Qed.

Lemma wrapping_add_le max a b : (wrapping_add max a b ≤ max)%N.
Proof.
  unfold wrapping_add.
  assert ((a + b) mod (max + 1) < max + 1)%N by (apply N.mod_lt; lia). lia.
Qed.

(** ** Ordered maps

    A [BTreeMap] with numeric keys is a [gmap]; its [values()] come in key
    order. *)

Definition key_le {A} (x y : N * A) : Prop := (x.1 ≤ y.1)%N.

#[export] Instance key_le_dec {A} : RelDecision (@key_le A).
Proof. intros x y. unfold key_le. apply _. Defined.

Definition btree_values {A} (m : gmap N A) : list A :=
  map snd (merge_sort key_le (map_to_list m)).

Lemma btree_values_elem {A} (m : gmap N A) a :
  a ∈ btree_values m ↔ ∃ k, m !! k = Some a.
Proof.
  unfold btree_values. rewrite list_elem_of_fmap.
  setoid_rewrite merge_sort_Permutation. split.
  - intros ([k b] & -> & Hin%elem_of_map_to_list). eauto.
  - intros [k Hk]. exists (k, a). by rewrite elem_of_map_to_list.
Qed.

Lemma btree_values_NoDup {A B} (m : gmap N A) (f : A → B) :
  (∀ k1 k2 a1 a2, m !! k1 = Some a1 → m !! k2 = Some a2 → f a1 = f a2 → k1 = k2) →
  NoDup (f <$> btree_values m).
Proof.
  intros Hinj. unfold btree_values.
  replace (map snd _) with ((merge_sort key_le (map_to_list m)).*2) by done.
  rewrite <- list_fmap_compose.
  apply NoDup_fmap_2_strong; [|by rewrite merge_sort_Permutation; apply NoDup_map_to_list].
  intros [k1 a1] [k2 a2]. rewrite !merge_sort_Permutation, !elem_of_map_to_list. simpl.
  intros H1 H2 Hf. destruct (Hinj k1 k2 a1 a2); congruence.
Qed.

(** Strictly increasing numbers without a gap, from [a] on. *)
Lemma sorted_no_gap (l : list N) (a : nat) :
  StronglySorted N.lt l → (∀ x, x ∈ l → N.of_nat a ≤ x)%N →
  (∀ x n, x ∈ l → (N.of_nat a ≤ n < x)%N → n ∈ l) →
  l = N.of_nat <$> seq a (length l).
Proof.
  intros Hs. revert a. induction Hs as [|x l Hs IH Hx]; intros a Hle Hgap; [done|].
  rewrite Forall_forall in Hx. simpl.
  assert (x = N.of_nat a) as ->.
  { assert (N.of_nat a ≤ x)%N by (apply Hle; left).
    destruct (N.eq_dec x (N.of_nat a)) as [|Hne]; [done|].
    assert (N.of_nat a ∈ x :: l) as [Heq|Hin]%elem_of_cons
      by (apply (Hgap x); [left|lia]); [by subst|]. apply Hx in Hin. lia. }
  f_equal. apply IH.
  - intros y Hy. apply Hx in Hy. lia.
  - intros y n Hy Hn. assert (n ∈ N.of_nat a :: l) as [->|Hin]%elem_of_cons; [|lia|done].
    apply (Hgap y); [by right|lia].
Qed.

(** [sort_by_key] with a key of two numbers, compared lexicographically; the sort
    is stable. *)

Definition lex2_le (x y : Z * Z) : Prop := (x.1 < y.1 ∨ (x.1 = y.1 ∧ x.2 <= y.2))%Z.

Definition by_key2 {A} (key : A → Z * Z) (a b : A) : Prop := lex2_le (key a) (key b).

#[export] Instance by_key2_dec {A} (key : A → Z * Z) : RelDecision (by_key2 key).
Proof. intros a b. unfold by_key2, lex2_le. apply _. Defined.

(** The later elements are sorted first, so that [a] goes before its equals. *)
Fixpoint insert_by_key2 {A} (key : A → Z * Z) (a : A) (l : list A) : list A :=
  match l with
  | [] => [a]
  | b :: l' => if decide (by_key2 key a b) then a :: b :: l' else b :: insert_by_key2 key a l'
  end.

Definition sort_by_key2 {A} (key : A → Z * Z) (l : list A) : list A :=
  foldr (insert_by_key2 key) [] l.

Lemma insert_by_key2_perm {A} (key : A → Z * Z) a l : insert_by_key2 key a l ≡ₚ a :: l.
Proof.
  induction l as [|b l IH]; simpl; [done|]. case_decide; [done|]. rewrite IH. constructor.
Qed.

Lemma sort_by_key2_perm {A} (key : A → Z * Z) l : sort_by_key2 key l ≡ₚ l.
Proof. induction l as [|a l IH]; simpl; [done|]. by rewrite insert_by_key2_perm, IH. Qed.

Lemma sort_by_key2_elem {A} (key : A → Z * Z) l a : a ∈ sort_by_key2 key l ↔ a ∈ l.
Proof. by rewrite sort_by_key2_perm. Qed.

Lemma insert_by_key2_sorted {A} (key : A → Z * Z) a l :
  StronglySorted (by_key2 key) l → StronglySorted (by_key2 key) (insert_by_key2 key a l).
Proof.
  induction 1 as [|b l Hs IH Hb]; simpl; [repeat constructor|].
  case_decide as Hab.
  - constructor; [by constructor|]. constructor; [done|].
    eapply Forall_impl; [exact Hb|]. intros c. unfold by_key2, lex2_le in *. lia.
  - constructor; [done|]. rewrite insert_by_key2_perm. constructor; [|done].
    unfold by_key2, lex2_le in *. lia.
Qed.

Lemma sort_by_key2_sorted {A} (key : A → Z * Z) l :
  StronglySorted (by_key2 key) (sort_by_key2 key l).
Proof. induction l; simpl; [constructor|by apply insert_by_key2_sorted]. Qed.
