(* ===== verification/RustStr.v ===== *)
(** * Rust string slices

    A Rust [str] is a UTF-8 byte sequence; it is modelled by the byte strings
    of the library, one [ascii] per byte.  The operations are the ones of
    [str] that the kernel calls: [starts_with], [strip_prefix],
    [strip_suffix], [ends_with], [split], [trim().is_empty()], the byte tests
    [is_ascii_digit] and [is_ascii_lowercase], and the byte-wise order that
    [sort] uses. *)

From S2P Require Import Prelude.
From stdpp Require Import options.

(** ** Byte classes *)

Definition byte_in (lo hi : ascii) (c : ascii) : bool :=
  (N_of_ascii lo <=? N_of_ascii c)%N && (N_of_ascii c <=? N_of_ascii hi)%N.

Definition is_ascii_digit (c : ascii) : bool := byte_in "0" "9" c.
Definition is_ascii_lowercase (c : ascii) : bool := byte_in "a" "z" c.
Definition is_ascii_uppercase (c : ascii) : bool := byte_in "A" "Z" c.
Definition is_lower_hex (c : ascii) : bool :=
  is_ascii_digit c || byte_in "a" "f" c.

Fixpoint all_bytes (p : ascii → bool) (s : string) : bool :=
  match s with
  | EmptyString => true
  | String c s' => p c && all_bytes p s'
  end.

Definition str_is_empty (s : string) : bool :=
  match s with EmptyString => true | _ => false end.

(** ** Prefixes and suffixes *)

Fixpoint starts_with (p s : string) : bool :=
  match p, s with
  | EmptyString, _ => true
  | String c p', String d s' => bool_decide (c = d) && starts_with p' s'
  | _, _ => false
  end.

Fixpoint strip_prefix (p s : string) : option string :=
  match p, s with
  | EmptyString, _ => Some s
  | String c p', String d s' => if decide (c = d) then strip_prefix p' s' else None
  | _, _ => None
  end.

(** [s.strip_suffix(c)] for a one-byte [c]. *)
Fixpoint strip_suffix (c : ascii) (s : string) : option string :=
  match s with
  | EmptyString => None
  | String d EmptyString => if decide (c = d) then Some EmptyString else None
  | String d s' => String d <$> strip_suffix c s'
  end.

Fixpoint ends_with (p s : string) : bool :=
  bool_decide (s = p) ||
  match s with
  | EmptyString => false
  | String _ s' => ends_with p s'
  end.

(** [s.trim_end_matches(c)] and [s.trim_start_matches(c)]. *)
Fixpoint trim_end_matches (c : ascii) (s : string) : string :=
  match s with
  | EmptyString => EmptyString
  | String d s' =>
      match trim_end_matches c s' with
      | EmptyString => if decide (c = d) then EmptyString else String d EmptyString
      | t => String d t
      end
  end.

Fixpoint trim_start_matches (c : ascii) (s : string) : string :=
  match s with
  | EmptyString => EmptyString
  | String d s' => if decide (c = d) then trim_start_matches c s' else s
  end.

(** [s.split(c)]: the fields between separators; never the empty list. *)
Fixpoint split_on (c : ascii) (s : string) : list string :=
  match s with
  | EmptyString => [EmptyString]
  | String d s' =>
      if decide (c = d) then EmptyString :: split_on c s'
      else match split_on c s' with
           | f :: fs => String d f :: fs
           | [] => [String d EmptyString]
           end
  end.

(** [s.split_once(c)]. *)
Fixpoint split_once (c : ascii) (s : string) : option (string * string) :=
  match s with
  | EmptyString => None
  | String d s' =>
      if decide (c = d) then Some (EmptyString, s')
      else match split_once c s' with
           | Some (a, b) => Some (String d a, b)
           | None => None
           end
  end.

Definition contains_byte (c : ascii) (s : string) : bool :=
  negb (all_bytes (λ d, negb (bool_decide (c = d))) s).

(** ** Blank strings

    [s.trim().is_empty()] holds when every character of [s] has the Unicode
    property [White_Space]: the ASCII blanks, U+0085, U+00A0, U+1680, U+2000 to
    U+200A, U+2028, U+2029, U+202F, U+205F and U+3000, here by their UTF-8
    encodings. *)

Definition byte_is (n : N) (c : ascii) : bool := (N_of_ascii c =? n)%N.

Definition ascii_white (c : ascii) : bool :=
  ((9 <=? N_of_ascii c)%N && (N_of_ascii c <=? 13)%N) || byte_is 32 c.

Definition white2 (a b : ascii) : bool :=
  byte_is 194 a && (byte_is 133 b || byte_is 160 b).

Definition white3 (a b c : ascii) : bool :=
  (byte_is 225 a && byte_is 154 b && byte_is 128 c)
  || (byte_is 226 a && byte_is 128 b
      && (((128 <=? N_of_ascii c)%N && (N_of_ascii c <=? 138)%N)
          || byte_is 168 c || byte_is 169 c || byte_is 175 c))
  || (byte_is 226 a && byte_is 129 b && byte_is 159 c)
  || (byte_is 227 a && byte_is 128 b && byte_is 128 c).

Fixpoint is_blank (s : string) : bool :=
  match s with
  | EmptyString => true
  | String a s1 =>
      if ascii_white a then is_blank s1
      else match s1 with
           | EmptyString => false
           | String b s2 =>
               if white2 a b then is_blank s2
               else match s2 with
                    | EmptyString => false
                    | String c s3 => if white3 a b c then is_blank s3 else false
                    end
           end
  end.

(** ** Lemmas *)

Lemma starts_with_spec p s : starts_with p s = true ↔ ∃ t, s = p +:+ t.
Proof.
  revert s. induction p as [|c p IH]; intros s; simpl.
  - split; [|done]. intros _. by exists s.
  - destruct s as [|d s]; [naive_solver|].
    rewrite andb_true_iff, IH, bool_decide_eq_true. split.
    + intros [-> [t ->]]. by exists t.
    + intros [t [= -> ->]]. eauto.
Qed.

Lemma starts_with_app p t : starts_with p (p +:+ t) = true.
Proof. apply starts_with_spec. eauto. Qed.

Lemma strip_prefix_Some p s t : strip_prefix p s = Some t ↔ s = p +:+ t.
Proof.
  revert s. induction p as [|c p IH]; intros s; simpl.
  - split; [by intros [= ->]|]. by intros ->.
  - destruct s as [|d s]; [split; [done|intros H; discriminate H]|].
    case_decide as Hd.
    + subst d. rewrite IH. split; [by intros ->|by intros [= ->]].
    + split; [done|]. by intros [= ].
Qed.

Lemma str_app_assoc (a b c : string) : (a +:+ b) +:+ c = a +:+ b +:+ c.
Proof. induction a as [|x a IH]; simpl; [done|]. by rewrite IH. Qed.

Lemma str_app_nil_r (a : string) : a +:+ EmptyString = a.
Proof. induction a as [|x a IH]; [done|]. simpl. by rewrite IH. Qed.

Lemma strip_suffix_Some c s p :
  strip_suffix c s = Some p ↔ s = p +:+ String c EmptyString.
Proof.
  revert p. induction s as [|d s IH]; intros p.
  - split; [done|]. by destruct p.
  - destruct s as [|e s].
    + simpl. case_decide as Hd; split.
      * by intros [= <-]; subst.
      * destruct p as [|x p]; [done|]. intros [= -> H]. by destruct p.
      * done.
      * destruct p as [|x p]; [by intros [= ->]|]. intros [= -> H]. by destruct p.
    + change (strip_suffix c (String d (String e s)))
        with (String d <$> strip_suffix c (String e s)).
      rewrite fmap_Some. split.
      * intros (q & Hq & ->). apply IH in Hq. by rewrite Hq.
      * destruct p as [|x p]; [done|]. intros [= -> H].
        exists p. split; [by apply IH|done].
Qed.

Lemma starts_with_trans p q s :
  starts_with p q = true → starts_with q s = true → starts_with p s = true.
Proof.
  rewrite !starts_with_spec. intros [t ->] [u ->].
  exists (t +:+ u). by rewrite str_app_assoc.
Qed.

Lemma starts_with_app_l p q s :
  starts_with (p +:+ q) s = true → starts_with p s = true.
Proof. intros H. eapply starts_with_trans; [|exact H]. apply starts_with_app. Qed.

Lemma all_bytes_app p a b :
  all_bytes p (a +:+ b) = all_bytes p a && all_bytes p b.
Proof.
  induction a as [|x a IH]; [done|]. simpl. by rewrite IH, andb_assoc.
Qed.
