(* ===== verification/Externals.v ===== *)
(** * What the kernel takes from third-party crates

    The BLAKE3 hash, Ed25519 signatures, the [uuid] and [chrono] text formats
    and the two [serde_json] entry points that the kernel calls are not part
    of the repository.  They are the operations of the class [Externals];
    every definition that uses one takes the class as an argument.  The class
    [ExternalsLaws] names the documented facts that some theorems rely on.
    [Sample] is a concrete instance with its laws proved, on which the
    witnesses of the theorems compute. *)

From S2P Require Import Prelude RustStr.
From stdpp Require Import options.

(** A [Uuid] is a 128-bit number, ordered as its big-endian bytes are.  A
    [DateTime<Utc>] is an instant, ordered chronologically. *)
Notation Uuid := N (only parsing).
Notation DateTime := Z (only parsing).
Notation PrincipalId := N (only parsing).

(** A finite [f64], by the digits of its shortest round-trip decimal: the value
    of [F64 neg d ds e] is [± d.ds * 10^e] with [1 <= d <= 9], and [ds] does not
    end in [0].  The two zeros, which [==] does not distinguish, are
    [F64Zero]. *)
Inductive f64 : Type :=
| F64Zero
| F64 (neg : bool) (lead : N) (frac : list N) (exponent : Z).

#[export] Instance f64_eq_dec : EqDecision f64.
Proof. solve_decision. Defined.

Class Externals : Type := {
  (** [blake3::Hasher]: the digest of the concatenated updates *)
  blake3 : string → string;
  (** [ed25519_dalek]: [verifying_key], [sign] and [verify] *)
  ed25519_public : string → string;
  ed25519_sign : string → string → string;
  ed25519_verify : string → string → string → bool;
  (** [serde_json::to_string] on a string *)
  json_string : string → string;
  (** [serde_json::from_str::<Value>] on a number text, then [as_f64] *)
  json_parse_f64 : string → option f64;
  (** [Uuid]: hyphenated text, [parse_str], version number and variant *)
  uuid_to_string : Uuid → string;
  uuid_parse_str : string → option Uuid;
  uuid_version_num : Uuid → N;
  uuid_variant_rfc4122 : Uuid → bool;
  (** [DateTime<Utc>]: the RFC 3339 text that [serde] writes and reads *)
  utc_to_rfc3339 : DateTime → string;
  utc_parse_rfc3339 : string → option DateTime;
  (** [Timelike::nanosecond]: at least 10^9 inside a leap second *)
  utc_nanosecond : DateTime → N;
}.

Definition quote : ascii := "034".

Class ExternalsLaws `{Externals} : Prop := {
  blake3_length m : String.length (blake3 m) = 32;
  ed25519_sign_length sk m : String.length (ed25519_sign sk m) = 64;
  ed25519_sign_verify sk m :
    ed25519_verify (ed25519_public sk) m (ed25519_sign sk m) = true;
  (** a JSON string literal starts with a quote and its end is determined *)
  json_string_quote s : ∃ t, json_string s = String quote t;
  json_string_prefix s1 s2 t1 t2 :
    json_string s1 +:+ t1 = json_string s2 +:+ t2 → s1 = s2 ∧ t1 = t2;
  uuid_parse_to_string u : uuid_parse_str (uuid_to_string u) = Some u;
  utc_parse_to_rfc3339 t : utc_parse_rfc3339 (utc_to_rfc3339 t) = Some t;
}.

Lemma uuid_to_string_inj `{ExternalsLaws} u v :
  uuid_to_string u = uuid_to_string v → u = v.
Proof.
  intros E. apply (inj Some).
  by rewrite <- (uuid_parse_to_string u), <- (uuid_parse_to_string v), E.
Qed.

Lemma utc_to_rfc3339_inj `{ExternalsLaws} t u :
  utc_to_rfc3339 t = utc_to_rfc3339 u → t = u.
Proof.
  intros E. apply (inj Some).
  by rewrite <- (utc_parse_to_rfc3339 t), <- (utc_parse_to_rfc3339 u), E.
Qed.

(** ** A concrete instance *)

Module Sample.

Definition backslash : ascii := "092".

Definition special (c : ascii) : bool :=
  bool_decide (c = quote) || bool_decide (c = backslash).

Fixpoint escape (s : string) : string :=
  match s with
  | EmptyString => String quote EmptyString
  | String c s' =>
      if special c
      then String backslash (String c (escape s'))
      else String c (escape s')
  end.

Fixpoint pos_bits (p : positive) : string :=
  match p with
  | xH => EmptyString
  | xO p => String "0" (pos_bits p)
  | xI p => String "1" (pos_bits p)
  end.

Fixpoint bits_pos (s : string) : option positive :=
  match s with
  | EmptyString => Some xH
  | String c s' =>
      if decide (c = "0"%char) then xO <$> bits_pos s'
      else if decide (c = "1"%char) then xI <$> bits_pos s'
      else None
  end.

Definition z_text (z : Z) : string :=
  match z with
  | Z0 => "z"
  | Zpos p => String "p" (pos_bits p)
  | Zneg p => String "n" (pos_bits p)
  end.

Definition z_parse (s : string) : option Z :=
  match s with
  | String c s' =>
      if decide (c = "z"%char) then Some 0%Z
      else if decide (c = "p"%char) then Zpos <$> bits_pos s'
      else if decide (c = "n"%char) then Zneg <$> bits_pos s'
      else None
  | EmptyString => None
  end.

Fixpoint take_pad (n : nat) (s : string) : string :=
  match n with
  | O => EmptyString
  | S n' => match s with
            | EmptyString => String "000" (take_pad n' s)
            | String c s' => String c (take_pad n' s')
            end
  end.

Definition sign (sk m : string) : string := take_pad 64 (String.rev m +:+ sk).

#[export] Instance sample : Externals := {
  blake3 m := take_pad 32 (String.rev m);
  ed25519_public sk := sk;
  ed25519_sign := sign;
  ed25519_verify pk m s := bool_decide (s = sign pk m);
  json_string s := String quote (escape s);
  json_parse_f64 s := None;
  uuid_to_string u := z_text (Z.of_N u);
  uuid_parse_str s := Z.to_N <$> z_parse s;
  uuid_version_num u := 7%N;
  uuid_variant_rfc4122 u := true;
  utc_to_rfc3339 := z_text;
  utc_parse_rfc3339 := z_parse;
  utc_nanosecond t := 0%N;
}.

Lemma take_pad_length n s : String.length (take_pad n s) = n.
Proof. revert s. induction n as [|n IH]; intros [|c s]; simpl; auto. Qed.

Lemma bits_pos_bits p : bits_pos (pos_bits p) = Some p.
Proof. induction p as [p IH|p IH|]; simpl; rewrite ?IH; done. Qed.

Lemma z_parse_text z : z_parse (z_text z) = Some z.
Proof. destruct z; simpl; by rewrite ?bits_pos_bits. Qed.

Lemma escape_prefix s1 s2 t1 t2 :
  escape s1 +:+ t1 = escape s2 +:+ t2 → s1 = s2 ∧ t1 = t2.
Proof.
  revert s2. induction s1 as [|c s1 IH]; intros [|d s2]; simpl.
  - intros [= ->]. done.
  - destruct (special d) eqn:Hd; simpl; [discriminate|].
    intros E. injection E as E _. by rewrite <- E in Hd.
  - destruct (special c) eqn:Hc; simpl; [discriminate|].
    intros E. injection E as E _. by rewrite E in Hc.
  - destruct (special c) eqn:Hc, (special d) eqn:Hd; simpl; intros E.
    + injection E as -> E. apply IH in E as [-> ->]. done.
    + injection E as E _. by rewrite <- E in Hd.
    + injection E as E _. by rewrite E in Hc.
    + injection E as -> E. apply IH in E as [-> ->]. done.
Qed.

#[global] Arguments take_pad : simpl never.

#[export] Instance sample_laws : ExternalsLaws.
Proof.
  split; simpl.
  - intros m. apply take_pad_length.
  - intros sk m. apply take_pad_length.
  - intros sk m. by apply bool_decide_eq_true.
  - eauto.
  - intros s1 s2 t1 t2 [= E]. by apply escape_prefix.
  - intros u. rewrite z_parse_text. simpl. by rewrite N2Z.id.
  - apply z_parse_text.
Qed.

End Sample.
