(* ===== verification/Delegation.v ===== *)
(** * Bounded, time-limited delegation

    The model of [crates/proof-kernel/src/delegation.rs]: grants with their
    action, resource and operation scopes, the pattern language of the scopes,
    and the validation of a chain of grants from a root principal to the
    executing agent.

    A scope pattern denotes a set of strings.  [pattern_is_covered] is shown to
    decide inclusion of those sets exactly, and [validate_chain] to accept
    exactly the connected, unrevoked, current chains in which every grant is
    included in the one before it; hence the last grant allows nothing that an
    earlier one does not. *)

From S2P Require Import Prelude RustStr Externals.
From stdpp Require Import options.

Record DelegationScope := {
  allowed_operations : option (list string);
  allowed_domains : option (list string);
  scope_resource_scope : option string;
}.

Inductive DelegationError : Type :=
| EmptyChain
| InvalidRoot (root : PrincipalId)
| BrokenChain (index : nat)
| InvalidTerminalAgent (index : nat)
| InsufficientActionAuthority (index : nat) (action : string)
| InsufficientResourceAuthority (index : nat) (resource : string)
| InvalidTime (index : nat)
| Revoked (index : nat).

Record Delegation := {
  delegation_id : Uuid;
  issuer : PrincipalId;
  recipient : PrincipalId;
  allowed_actions : list string;
  resource_scope : list string;
  scope : DelegationScope;
  valid_from : DateTime;
  valid_until : DateTime;
  revoked : bool;
}.

Record DelegationChain := {
  chain_root : PrincipalId;
  grants : list Delegation;
}.

#[export] Instance DelegationScope_eq_dec : EqDecision DelegationScope.
Proof. solve_decision. Defined.
#[export] Instance DelegationError_eq_dec : EqDecision DelegationError.
Proof. solve_decision. Defined.
#[export] Instance Delegation_eq_dec : EqDecision Delegation.
Proof. solve_decision. Defined.
#[export] Instance DelegationChain_eq_dec : EqDecision DelegationChain.
Proof. solve_decision. Defined.

(** ** Patterns and scopes *)

Definition wildcard (pattern value : string) : bool :=
  match strip_suffix "*" pattern with
  | Some prefix => starts_with prefix value
  | None => false
  end.

Definition default_scope : DelegationScope :=
  {| allowed_operations := None; allowed_domains := None;
     scope_resource_scope := None |}.

Definition scope_allows_operation (s : DelegationScope)
    (operation domain : string) : bool :=
  match allowed_domains s with
  | Some domains => existsb (λ allowed, bool_decide (allowed = domain)) domains
  | None => true
  end &&
  match allowed_operations s with
  | Some operations =>
      existsb (λ allowed, bool_decide (allowed = operation)
                          || wildcard allowed operation) operations
  | None => true
  end.

(** The closure that [allows_action] and [in_scope] share. *)
Definition pattern_matches (pattern value : string) : bool :=
  bool_decide (pattern = "*") || bool_decide (pattern = value)
  || wildcard pattern value.

Definition allows_action (d : Delegation) (action : string) : bool :=
  existsb (λ pattern, pattern_matches pattern action) (allowed_actions d).

Definition in_scope (d : Delegation) (resource : string) : bool :=
  existsb (λ pattern, pattern_matches pattern resource) (resource_scope d).

Definition is_valid (d : Delegation) (action resource : string)
    (now : DateTime) : bool :=
  negb (revoked d) && bool_decide (valid_from d ≤ now)%Z
  && bool_decide (now ≤ valid_until d)%Z
  && allows_action d action && in_scope d resource.

Definition pattern_is_covered (pattern authority_pattern : string) : bool :=
  bool_decide (authority_pattern = "*")
  || bool_decide (pattern = authority_pattern)
  || match strip_suffix "*" authority_pattern with
     | Some authority_prefix => starts_with authority_prefix pattern
     | None => false
     end.

(** ** Validation of a chain *)

Definition covered_by (allowed : list string) (pattern : string) : bool :=
  existsb (λ parent, pattern_is_covered pattern parent) allowed.

(** The check of one scope list of a grant against its parent's: the first
    pattern outside the parent's list is the one the error names. *)
Definition check_coverage (fail : string → DelegationError)
    (patterns allowed : list string) : result DelegationError unit :=
  if forallb (covered_by allowed) patterns then Ok tt
  else let? outside := expect (List.find (λ p, negb (covered_by allowed p)) patterns) in
       Err (fail outside).

(** The body of the loop, at link [index]; [parent] is [grants[index - 1]]. *)
Definition check_link (now : DateTime) (index : nat)
    (parent : option Delegation) (grant : Delegation)
    : result DelegationError unit :=
  bail (BrokenChain index)
    when match parent with
         | Some p => negb (bool_decide (issuer grant = recipient p))
         | None => false
         end;
  bail (Revoked index) when revoked grant;
  bail (InvalidTime index)
    when negb (bool_decide (valid_from grant ≤ now)%Z
               && bool_decide (now ≤ valid_until grant)%Z
               && bool_decide (valid_from grant ≤ valid_until grant)%Z);
  let? _ := check_coverage (InsufficientActionAuthority index)
              (allowed_actions grant)
              (from_option allowed_actions ["*"] parent) in
  check_coverage (InsufficientResourceAuthority index)
    (resource_scope grant)
    (from_option resource_scope ["*"] parent).

Fixpoint check_links (now : DateTime) (index : nat)
    (parent : option Delegation) (gs : list Delegation)
    : result DelegationError unit :=
  match gs with
  | [] => Ok tt
  | g :: gs' =>
      let? _ := check_link now index parent g in
      check_links now (S index) (Some g) gs'
  end.

Definition validate_chain (root executing_agent : PrincipalId)
    (gs : list Delegation) (now : DateTime) : result DelegationError unit :=
  match gs with
  | [] => Err EmptyChain
  | first :: _ =>
      bail (InvalidRoot root) when negb (bool_decide (issuer first = root));
      let? _ := check_links now 0 None gs in
      let last_index := length gs - 1 in
      let? last := expect (gs !! last_index) in
      bail (InvalidTerminalAgent last_index)
        when negb (bool_decide (recipient last = executing_agent));
      Ok tt
  end.

Definition validate (c : DelegationChain) (executing_agent : PrincipalId)
    (now : DateTime) : result DelegationError unit :=
  validate_chain (chain_root c) executing_agent (grants c) now.

(** ** Patterns denote sets of strings *)

Lemma pattern_matches_self p : pattern_matches p p = true.
Proof. unfold pattern_matches. rewrite (bool_decide_true (p = p)) by done. by rewrite orb_true_r. Qed.

Lemma pattern_covered_matches p a : pattern_is_covered p a = pattern_matches a p.
Proof.
  unfold pattern_is_covered, pattern_matches, wildcard.
  by rewrite (bool_decide_ext (p = a) (a = p)).
Qed.

Lemma pattern_matches_cases p v :
  pattern_matches p v = true ↔
  v = p ∨ ∃ q t, p = q +:+ "*" ∧ v = q +:+ t.
Proof.
  unfold pattern_matches, wildcard. rewrite !orb_true_iff, !bool_decide_eq_true.
  split.
  - intros [[-> | ->]|H]; [right; by exists "", v|by left|].
    destruct (strip_suffix "*" p) as [q|] eqn:E; [|done].
    apply strip_suffix_Some in E. apply starts_with_spec in H as [t ->].
    right. eauto.
  - intros [-> | (q & t & -> & ->)]; [auto|]. right.
    replace (strip_suffix "*" (q +:+ "*")) with (Some q).
    + apply starts_with_app.
    + symmetry. by apply strip_suffix_Some.
Qed.

Lemma str_app_star_inv q t r :
  q +:+ t = r +:+ "*" → t = "" ∨ ∃ t', t = t' +:+ "*" ∧ r = q +:+ t'.
Proof.
  revert r. induction q as [|c q IH]; intros r; simpl.
  - intros ->. right. by exists r.
  - destruct r as [|d r]; simpl.
    + intros [= _ H]. left. by destruct q, t.
    + intros [= -> H]. apply IH in H as [->|(t' & -> & ->)]; eauto.
Qed.

Lemma ends_with_app p s : ends_with p (s +:+ p) = true.
Proof.
  induction s as [|c s IH]; simpl.
  - destruct p as [|c p]; [done|]. cbn [ends_with]. by rewrite bool_decide_true.
  - by rewrite IH, orb_true_r.
Qed.

(** What a covered pattern matches, the authority pattern matches too, unless the authority
    pattern is the covered one with a second star. *)
Lemma pattern_covered_cases p a v :
  pattern_is_covered p a = true → pattern_matches p v = true →
  pattern_matches a v = true ∨ ∃ q, a = q +:+ "**" ∧ p = q +:+ "*".
Proof.
  intros Hc Hp. rewrite pattern_covered_matches in Hc.
  apply pattern_matches_cases in Hc as [->|(q & t & -> & ->)]; [by left|].
  apply pattern_matches_cases in Hp as [->|(r & u & E & ->)];
    [left; apply pattern_matches_cases; eauto|].
  apply str_app_star_inv in E as H. destruct H as [-> | (t' & -> & ->)].
  - rewrite str_app_nil_r in *. subst q. right. exists r. by rewrite str_app_assoc.
  - left. apply pattern_matches_cases. right. exists q, (t' +:+ u). by rewrite str_app_assoc.
Qed.

Lemma pattern_covered_sound p a v :
  ends_with "**" a = false →
  pattern_is_covered p a = true →
  pattern_matches p v = true → pattern_matches a v = true.
Proof.
  intros Hstar Hc Hp. destruct (pattern_covered_cases p a v Hc Hp) as [|(q & -> & _)]; [done|].
  by rewrite ends_with_app in Hstar.
Qed.

(** For an authority pattern that does not end in two stars,
    [pattern_is_covered] decides exactly whether every string that the pattern
    matches is matched by the authority pattern. *)
Theorem pattern_is_covered_exact (p a : string)
    (Hstar : ends_with "**" a = false) :
  pattern_is_covered p a = true ↔
  ∀ v, pattern_matches p v = true → pattern_matches a v = true.
Proof.
  split.
  - intros Hc v. by apply pattern_covered_sound.
  - intros Hincl. rewrite pattern_covered_matches.
    apply Hincl, pattern_matches_self.
Qed.

Lemma pattern_is_covered_exact_witness :
  ends_with "**" "content:*" = false ∧
  (pattern_is_covered "content:object_*" "content:*" = true ↔
   ∀ v, pattern_matches "content:object_*" v = true →
        pattern_matches "content:*" v = true).
Proof.
  split; [reflexivity|].
  apply (pattern_is_covered_exact "content:object_*" "content:*"). reflexivity.
Defined.

(** ** What an accepted chain is *)

(** The parent of link [i], as the loop sees it. *)
Definition parent_of (gs : list Delegation) (i : nat) : option Delegation :=
  match i with
  | O => None
  | S j => gs !! j
  end.

Record link_valid (now : DateTime) (parent : option Delegation)
    (g : Delegation) : Prop := {
  link_connected p : parent = Some p → issuer g = recipient p;
  link_live : revoked g = false;
  link_current : (valid_from g ≤ now ≤ valid_until g)%Z;
  link_actions a : a ∈ allowed_actions g →
    covered_by (from_option allowed_actions ["*"] parent) a = true;
  link_resources r : r ∈ resource_scope g →
    covered_by (from_option resource_scope ["*"] parent) r = true;
}.

Record chain_valid (root agent : PrincipalId) (gs : list Delegation)
    (now : DateTime) : Prop := {
  chain_from_root : issuer <$> head gs = Some root;
  chain_to_agent : recipient <$> last gs = Some agent;
  chain_links i g : gs !! i = Some g → link_valid now (parent_of gs i) g;
}.

Lemma check_coverage_spec f ps allowed :
  check_coverage f ps allowed = Ok tt ∧ (∀ p, p ∈ ps → covered_by allowed p = true)
  ∨ ∃ p, p ∈ ps ∧ covered_by allowed p = false
         ∧ check_coverage f ps allowed = Err (f p).
Proof.
  unfold check_coverage. destruct (forallb (covered_by allowed) ps) eqn:E.
  - left. split; [done|]. intros p Hp. rewrite forallb_forall in E.
    apply E. by apply list_elem_of_In.
  - right. destruct (List.find (λ p, negb (covered_by allowed p)) ps) as [p|] eqn:F.
    + apply List.find_some in F as [Hin Hn]. exists p.
      split; [by apply list_elem_of_In|]. split; [by apply negb_true_iff|done].
    + exfalso. assert (forallb (covered_by allowed) ps = true) as C; [|congruence].
      apply forallb_forall. intros p Hp.
      apply (List.find_none _ _ F) in Hp. by apply negb_false_iff.
Qed.

Lemma check_coverage_Ok f ps allowed :
  check_coverage f ps allowed = Ok tt ↔
  ∀ p, p ∈ ps → covered_by allowed p = true.
Proof.
  destruct (check_coverage_spec f ps allowed) as [[-> H]|(p & Hp & Hc & ->)];
    [done|]. split; [done|]. intros H. by rewrite H in Hc.
Qed.

Lemma check_link_Ok now i parent g :
  check_link now i parent g = Ok tt ↔ link_valid now parent g.
Proof.
  unfold check_link. split.
  - intros H. res_inv. split; [|done|lia|by eapply check_coverage_Ok..].
    intros p ->. by res_inv.
  - intros [Hc Hl [Ht1 Ht2] Ha Hr]. rewrite Hl.
    rewrite !bool_decide_true by lia. simpl.
    rewrite (proj2 (check_coverage_Ok _ _ _) Ha),
      (proj2 (check_coverage_Ok _ _ _) Hr).
    destruct parent as [p|]; [|done]. by rewrite bool_decide_true by auto.
Qed.

Lemma check_coverage_not_Panic f ps allowed : check_coverage f ps allowed ≠ Panic.
Proof.
  by destruct (check_coverage_spec f ps allowed) as [[-> _]|(p & _ & _ & ->)].
Qed.
#[export] Hint Resolve check_coverage_not_Panic : rust.

Lemma check_link_not_Panic now i parent g : check_link now i parent g ≠ Panic.
Proof. unfold check_link. auto 10 with rust. Qed.

(** The loop, started after the links [pre] whose last one is [parent]. *)
Lemma check_links_split now gs : ∀ pre,
  let parent := last pre in
  (check_links now (length pre) parent gs = Ok tt ∧
   ∀ i g, gs !! i = Some g →
     link_valid now (parent_of (pre ++ gs) (length pre + i)) g)
  ∨ ∃ i g e, gs !! i = Some g ∧
     check_links now (length pre) parent gs = Err e ∧
     check_link now (length pre + i) (parent_of (pre ++ gs) (length pre + i)) g = Err e ∧
     ∀ j h, j < i → gs !! j = Some h →
       link_valid now (parent_of (pre ++ gs) (length pre + j)) h.
Proof.
  induction gs as [|g gs IH]; intros pre; simpl; [by left|].
  assert (parent_of (pre ++ g :: gs) (length pre + 0) = last pre) as Hp.
  { rewrite Nat.add_0_r. destruct pre as [|x pre _] using rev_ind; [done|].
    rewrite length_app, last_snoc. simpl. rewrite Nat.add_1_r. simpl.
    rewrite <- app_assoc. by apply list_lookup_middle. }
  destruct (check_link now (length pre) (last pre) g) as [[]|e|] eqn:E; simpl.
  - specialize (IH (pre ++ [g])). rewrite length_app, last_snoc in IH.
    simpl in IH. rewrite Nat.add_1_r, <- app_assoc in IH. simpl in IH.
    apply check_link_Ok in E.
    destruct IH as [[-> H]|(i & h & e & Hh & -> & He & H)]; [left|right].
    + split; [done|]. intros [|i] h; simpl.
      * intros [= <-]. by rewrite Hp.
      * rewrite Nat.add_succ_r. apply H.
    + exists (S i), h, e. rewrite Nat.add_succ_r. split_and!; [done..|].
      intros [|j] x Hj; simpl; [intros [= <-]; by rewrite Hp|].
      rewrite Nat.add_succ_r. apply H. lia.
  - right. exists 0, g, e. rewrite Hp, Nat.add_0_r. split_and!; [done..|lia].
  - by apply check_link_not_Panic in E.
Qed.

Lemma check_links_Ok now gs :
  check_links now 0 None gs = Ok tt ↔
  ∀ i g, gs !! i = Some g → link_valid now (parent_of gs i) g.
Proof.
  destruct (check_links_split now gs []) as [[E H]|(i & g & e & Hg & E & Hl & _)];
    simpl in *; rewrite E; [done|].
  split; [done|]. intros H. specialize (H i g Hg).
  apply (check_link_Ok _ i) in H. congruence.
Qed.

(** [validate_chain] accepts exactly the chains that start at the root, end
    at the executing agent, and whose every link is issued by the recipient of
    the link before it, is not revoked, is current, and has its action and
    resource patterns covered by those of the link before it. *)
Theorem validate_chain_spec (root agent : PrincipalId) (gs : list Delegation)
    (now : DateTime) :
  validate_chain root agent gs now = Ok tt ↔ chain_valid root agent gs now.
Proof.
  unfold validate_chain. destruct gs as [|g gs].
  { split; [done|]. by intros [H _ _]. }
  assert (∀ d, last (g :: gs) = Some d ↔ (g :: gs) !! (length (g :: gs) - 1) = Some d) as HL.
  { intros d. rewrite last_lookup. simpl. by rewrite Nat.sub_0_r. }
  split.
  - intros H. res_inv. split; [done| |by apply check_links_Ok].
    rewrite (proj2 (HL _)) by eauto. done.
  - intros [Hr Ha Hl]. injection Hr as ->. rewrite bool_decide_true by done. simpl negb.
    rewrite (proj2 (check_links_Ok now (g :: gs)) Hl). cbn [rbind].
    apply fmap_Some in Ha as (d & Hd & ->). rewrite (proj1 (HL d) Hd). simpl.
    by rewrite bool_decide_true.
Qed.

(** [validate_chain] never panics (the [expect]s and slice accesses of its
    loop cannot fail), and when it rejects a chain that starts at the root, it
    reports either the first link whose check fails, every earlier link being
    valid, or the wrong recipient of the last link after all links passed. *)
Theorem validate_chain_error (root agent : PrincipalId) (gs : list Delegation)
    (now : DateTime) :
  match validate_chain root agent gs now with
  | Ok _ => True
  | Panic => False
  | Err e =>
      (gs = [] ∧ e = EmptyChain)
      ∨ ((issuer <$> head gs) ≠ Some root ∧ e = InvalidRoot root)
      ∨ (∃ i g, gs !! i = Some g ∧ check_link now i (parent_of gs i) g = Err e
          ∧ ∀ j h, j < i → gs !! j = Some h → link_valid now (parent_of gs j) h)
      ∨ (e = InvalidTerminalAgent (length gs - 1)
          ∧ (recipient <$> last gs) ≠ Some agent
          ∧ ∀ i g, gs !! i = Some g → link_valid now (parent_of gs i) g)
  end.
Proof.
  unfold validate_chain. destruct gs as [|g gs]; [auto|].
  case_bool_decide as Hr; cbn [negb]; [|right; left; split; [|done]; simpl; congruence].
  destruct (check_links_split now (g :: gs) []) as [[E H]|(i & h & e & Hh & E & Hl & H)];
    cbn [Datatypes.length last] in E; rewrite E; cbn [rbind]; [|right; right; left; eauto 10].
  destruct (last (g :: gs)) as [d|] eqn:Hd; [|by apply last_None in Hd].
  rewrite last_lookup in Hd. replace (length (g :: gs) - 1) with (pred (length (g :: gs))) by (simpl; lia).
  rewrite Hd. cbn [expect rbind]. case_bool_decide as Ha; [done|]. simpl negb. cbn match.
  right; right; right. split; [done|]. split; [|done].
  simpl. congruence.
Qed.

Definition no_double_star (g : Delegation) : Prop :=
  Forall (λ p, ends_with "**" p = false) (allowed_actions g ++ resource_scope g).

#[export] Instance no_double_star_dec g : Decision (no_double_star g).
Proof. unfold no_double_star. apply _. Defined.

Lemma covered_list_sound (parent child : list string) v :
  Forall (λ p, ends_with "**" p = false) parent →
  (∀ p, p ∈ child → covered_by parent p = true) →
  existsb (λ p, pattern_matches p v) child = true →
  existsb (λ p, pattern_matches p v) parent = true.
Proof.
  rewrite Forall_forall, !existsb_exists. intros Hs Hc (p & Hp & Hv).
  apply list_elem_of_In, Hc in Hp. unfold covered_by in Hp.
  apply existsb_exists in Hp as (a & Ha & Hpa). exists a. split; [done|].
  eapply pattern_covered_sound; [|done..]. by apply Hs, list_elem_of_In.
Qed.

Lemma link_attenuates now p g action resource :
  link_valid now (Some p) g → no_double_star p →
  allows_action g action = true ∧ in_scope g resource = true →
  allows_action p action = true ∧ in_scope p resource = true.
Proof.
  intros [_ _ _ Ha Hr] [Hsa Hsr]%Forall_app [Hga Hgr].
  split; eapply covered_list_sound; eauto.
Qed.

(** C19: no privilege escalation along a chain.  In a chain that
    [validate_chain] accepts, whose patterns do not end in two stars, whatever
    (action, resource) pair a grant is valid for at the validation time, every
    grant before it in the chain is valid for too. *)
Theorem validate_chain_attenuates (root agent : PrincipalId)
    (gs : list Delegation) (now : DateTime) (i j : nat) (gi gj : Delegation)
    (action resource : string)
    (Hvalid : validate_chain root agent gs now = Ok tt)
    (Hstars : Forall no_double_star gs)
    (Hij : i ≤ j) (Hi : gs !! i = Some gi) (Hj : gs !! j = Some gj)
    (Hgrant : is_valid gj action resource now = true) :
  is_valid gi action resource now = true.
Proof.
  apply validate_chain_spec in Hvalid as [_ _ Hl].
  assert (∀ k g, gs !! k = Some g → is_valid g action resource now = true ↔
    allows_action g action = true ∧ in_scope g resource = true) as Hv.
  { intros k g Hg. destruct (Hl _ _ Hg) as [_ Hr [Ht Hu] _ _].
    unfold is_valid. rewrite Hr, !bool_decide_true by done. simpl.
    apply andb_true_iff. }
  rewrite (Hv i gi Hi). rewrite (Hv j gj Hj) in Hgrant. clear Hv.
  revert gj Hj Hgrant. induction Hij as [|j Hij IH]; intros gj Hj Hgrant; [congruence|].
  destruct (lookup_lt_is_Some_2 gs j) as [gp Hp]; [apply lookup_lt_Some in Hj; lia|].
  apply (IH gp Hp). specialize (Hl _ _ Hj). simpl in Hl. rewrite Hp in Hl.
  eapply link_attenuates; [done| |done].
  rewrite Forall_forall in Hstars. apply Hstars. by eapply list_elem_of_lookup_2.
Qed.

(** ** Concrete chains *)

Definition sample_grant (from to : PrincipalId) (actions resources : list string)
    : Delegation :=
  {| delegation_id := to; issuer := from; recipient := to;
     allowed_actions := actions; resource_scope := resources;
     scope := default_scope; valid_from := 0; valid_until := 100;
     revoked := false |}.

Definition sample_chain : list Delegation :=
  [sample_grant 1 2 ["content:*"] ["site/a/*"];
   sample_grant 2 3 ["content:object_create"] ["site/a/pages/*"]].

Lemma validate_chain_attenuates_witness :
  is_valid (sample_grant 1 2 ["content:*"] ["site/a/*"])
    "content:object_create" "site/a/pages/home" 50 = true.
Proof.
  apply (validate_chain_attenuates 1 3 sample_chain 50 0 1
    (sample_grant 1 2 ["content:*"] ["site/a/*"])
    (sample_grant 2 3 ["content:object_create"] ["site/a/pages/*"]));
    [reflexivity| |lia|reflexivity..].
  apply (bool_decide_unpack _). vm_compute. exact I.
Defined.

(** C40: where covering fails to attenuate.  A pattern that the code takes to be covered by
    an authority pattern matches a string that the authority pattern does not match in
    exactly one case: the authority pattern ends in two stars and the covered pattern is
    the same without the last one.  The first matches only what continues with a star,
    the second everything with the prefix. *)
Theorem double_star_escalates (p a : string) :
  pattern_is_covered p a = true
  ∧ (∃ v, pattern_matches p v = true ∧ pattern_matches a v = false)
  ↔ ∃ q, a = q +:+ "**" ∧ p = q +:+ "*".
Proof.
  split.
  - intros [C (v & P & A)]. destruct (pattern_covered_cases p a v C P); [congruence|done].
  - intros (q & -> & ->). split; [|exists q; split; [|apply not_true_is_false]];
      rewrite ?pattern_covered_matches, pattern_matches_cases.
    + right. exists (q +:+ "*"), EmptyString. by rewrite str_app_nil_r, str_app_assoc.
    + right. exists q, EmptyString. by rewrite str_app_nil_r.
    + intros [E|(r & t & E & ->)].
      * induction q as [|c q IH]; [done|]. injection E. done.
      * rewrite str_app_assoc in E. apply (inj (String.app r)) in E. by destruct t as [|? []].
Qed.

(** So authority can grow along a chain: a parent grant for the pattern of two stars lets
    its holder issue a grant for the single star. *)
Example double_star_chain :
  let parent := sample_grant 1 2 ["**"] ["*"] in
  let child := sample_grant 2 3 ["*"] ["*"] in
  validate_chain 1 3 [parent; child] 50 = Ok tt
  ∧ is_valid child "content:object_delete" "site/a" 50 = true
  ∧ is_valid parent "content:object_delete" "site/a" 50 = false.
Proof. vm_compute. done. Qed.
