(* ===== verification/Json.v ===== *)
(** * JSON values

    The model of [serde_json::Value] as the kernel uses it: numbers with their
    three internal forms, and objects as the sorted association lists that a
    [BTreeMap<String, Value>] is (the workspace does not enable
    [preserve_order]). *)

From S2P Require Import Prelude RustStr Externals.
From stdpp Require Import options.

Inductive number : Type :=
| PosInt (n : N)
| NegInt (z : Z)
| Float (f : f64).

Inductive json : Type :=
| JNull
| JBool (b : bool)
| JNumber (n : number)
| JString (s : string)
| JArray (items : list json)
| JObject (fields : list (string * json)).

#[export] Instance number_eq_dec : EqDecision number.
Proof. solve_decision. Defined.

(** ** Objects *)

Fixpoint obj_get {A} (k : string) (m : list (string * A)) : option A :=
  match m with
  | [] => None
  | (k', v) :: m' => if decide (k = k') then Some v else obj_get k m'
  end.

(** [BTreeMap::insert]: the keys stay strictly increasing, an old value for the
    key is replaced. *)
Fixpoint obj_insert {A} (k : string) (v : A) (m : list (string * A))
    : list (string * A) :=
  match m with
  | [] => [(k, v)]
  | (k', v') :: m' =>
      if decide (k = k') then (k, v) :: m'
      else if decide (String.le k k') then (k, v) :: m
      else (k', v') :: obj_insert k v m'
  end.

Fixpoint obj_remove {A} (k : string) (m : list (string * A)) : list (string * A) :=
  match m with
  | [] => []
  | (k', v) :: m' => if decide (k = k') then m' else (k', v) :: obj_remove k m'
  end.

(** The [json!] macro and the derived [Serialize] insert field by field. *)
Definition json_object (fields : list (string * json)) : json :=
  JObject (fold_left (λ m f, obj_insert f.1 f.2 m) fields []).

(** A field with [skip_serializing_if = "Option::is_none"]. *)
Definition opt_field (k : string) (v : option json) : list (string * json) :=
  match v with
  | Some v => [(k, v)]
  | None => []
  end.

(** [Value::get], [as_str], [as_object], [as_array]. *)
Definition value_get (k : string) (v : json) : option json :=
  match v with
  | JObject m => obj_get k m
  | _ => None
  end.

Definition as_str (v : json) : option string :=
  match v with
  | JString s => Some s
  | _ => None
  end.

Definition as_object (v : json) : option (list (string * json)) :=
  match v with
  | JObject m => Some m
  | _ => None
  end.

(** ** Well-formed values *)

Definition digit_ok (d : N) : bool := (d <? 10)%N.

Definition f64_wf (f : f64) : bool :=
  match f with
  | F64Zero => true
  | F64 _ d ds _ =>
      (1 <=? d)%N && digit_ok d && forallb digit_ok ds
      && match last ds with Some d' => (1 <=? d')%N | None => true end
  end.

Definition number_wf (n : number) : bool :=
  match n with
  | PosInt n => (n <=? u64_max)%N
  | NegInt z => (-9223372036854775808 <=? z)%Z && (z <? 0)%Z
  | Float f => f64_wf f
  end.

Fixpoint keys_sorted (l : list string) : bool :=
  match l with
  | k :: ((k' :: _) as l') =>
      bool_decide (String.le k k') && negb (bool_decide (k = k')) && keys_sorted l'
  | _ => true
  end.

Fixpoint json_wf (v : json) : bool :=
  match v with
  | JNumber n => number_wf n
  | JArray items => forallb json_wf items
  | JObject m =>
      keys_sorted (map fst m) && forallb (λ kv, let '(_, v) := kv in json_wf v) m
  | _ => true
  end.

(** ** Induction and decidable equality *)

Section json_induction.
Context (P : json → Prop).
Hypothesis Hnull : P JNull.
Hypothesis Hbool : ∀ b, P (JBool b).
Hypothesis Hnumber : ∀ n, P (JNumber n).
Hypothesis Hstring : ∀ s, P (JString s).
Hypothesis Harray : ∀ items, Forall P items → P (JArray items).
Hypothesis Hobject : ∀ m, Forall (λ kv, P kv.2) m → P (JObject m).

Fixpoint json_ind' (v : json) : P v :=
  match v with
  | JNull => Hnull
  | JBool b => Hbool b
  | JNumber n => Hnumber n
  | JString s => Hstring s
  | JArray items =>
      Harray items
        ((fix go l : Forall P l :=
            match l with
            | [] => @List.Forall_nil _ _
            | x :: l' => @List.Forall_cons _ _ x l' (json_ind' x) (go l')
            end) items)
  | JObject m =>
      Hobject m
        ((fix go l : Forall (λ kv, P kv.2) l :=
            match l with
            | [] => @List.Forall_nil _ _
            | (k, x) :: l' => @List.Forall_cons _ _ (k, x) l' (json_ind' x) (go l')
            end) m)
  end.
End json_induction.

Fixpoint json_eqb (v w : json) : bool :=
  match v, w with
  | JNull, JNull => true
  | JBool b, JBool c => Bool.eqb b c
  | JNumber n, JNumber m => bool_decide (n = m)
  | JString s, JString t => bool_decide (s = t)
  | JArray l, JArray k =>
      (fix go l k :=
         match l, k with
         | [], [] => true
         | x :: l', y :: k' => json_eqb x y && go l' k'
         | _, _ => false
         end) l k
  | JObject l, JObject k =>
      (fix go l k :=
         match l, k with
         | [], [] => true
         | (a, x) :: l', (b, y) :: k' =>
             bool_decide (a = b) && json_eqb x y && go l' k'
         | _, _ => false
         end) l k
  | _, _ => false
  end.

Lemma json_eqb_eq v w : json_eqb v w = true ↔ v = w.
Proof.
  revert w. induction v as [|b|n|s|l IH|l IH] using json_ind'; intros w;
    destruct w as [|c|m|t|k|k]; simpl; try (split; discriminate); try done.
  - rewrite Bool.eqb_true_iff. split; congruence.
  - rewrite bool_decide_eq_true. split; congruence.
  - rewrite bool_decide_eq_true. split; congruence.
  - transitivity (l = k); [|split; congruence]. revert k.
    induction IH as [|x l Hx _ IHl]; intros [|y k]; try (split; discriminate); try done.
    rewrite andb_true_iff, Hx, IHl. split; [intros [-> ->]; done|intros [= -> ->]; done].
  - transitivity (l = k); [|split; congruence]. revert k.
    induction IH as [|[a x] l Hx _ IHl]; intros [|[b y] k];
      try (split; discriminate); try done.
    simpl in Hx. rewrite !andb_true_iff, bool_decide_eq_true, Hx, IHl.
    split; [intros [[-> ->] ->]; done|intros [= -> -> ->]; done].
Qed.

#[export] Instance json_eq_dec : EqDecision json.
Proof.
  intros v w. destruct (json_eqb v w) eqn:E.
  - left. by apply json_eqb_eq.
  - right. intros H. apply json_eqb_eq in H. congruence.
Defined.
