(* ===== verification/Canonical.v ===== *)
(** * Canonical JSON and domain-separated content digests

    The model of [crates/proof-kernel/src/canonical.rs].  [canonical_value]
    renders a JSON value with sorted keys and canonical numbers, [digest]
    hashes a canonical text under an artifact kind, and [ContentDigest] has
    the strict hexadecimal wire form.

    The main theorems: the text of a value determines the value, up to the
    integral floats that the number format identifies with integers
    ([canonicalize_injective]); two equal digests have the same kind and text
    unless they exhibit a BLAKE3 collision ([digest_binds]); and the wire form
    of a digest is read back exactly, with nothing else accepted
    ([ContentDigest_wire_exact]). *)

From S2P Require Import Prelude RustStr Externals Json.
From stdpp Require Import options.

Inductive ArtifactKind : Type :=
| OperationInput | OperationOutput | ProofKind | DelegationKind
| ApprovalRequestKind | ApprovalDecisionKind | AgentCheckpointKind
| AgentEventKind | Generic.

#[export] Instance ArtifactKind_eq_dec : EqDecision ArtifactKind.
Proof. solve_decision. Defined.

Definition artifact_kind_str (k : ArtifactKind) : string :=
  match k with
  | OperationInput => "operation-input"
  | OperationOutput => "operation-output"
  | ProofKind => "proof"
  | DelegationKind => "delegation"
  | ApprovalRequestKind => "approval-request"
  | ApprovalDecisionKind => "approval-decision"
  | AgentCheckpointKind => "agent-checkpoint"
  | AgentEventKind => "agent-event"
  | Generic => "generic"
  end.

Inductive CanonicalizationError : Type :=
| NonFiniteNumber
| NonExactNumber
| UnsafeInteger.

(** A [CanonicalJson] is the string it wraps; a [ContentDigest] its 32 bytes. *)
Notation CanonicalJson := string (only parsing).

Record ContentDigest := { digest_bytes : string }.

#[export] Instance ContentDigest_eq_dec : EqDecision ContentDigest.
Proof. solve_decision. Defined.
#[export] Instance CanonicalizationError_eq_dec : EqDecision CanonicalizationError.
Proof. solve_decision. Defined.
#[export] Instance ContentDigest_countable : Countable ContentDigest.
Proof.
  refine (inj_countable' digest_bytes Build_ContentDigest _). by intros [].
Defined.

Definition DOMAIN_LABEL : string := "Proof-Canonical-JSON-v1".

Definition NUL : string := String "000" EmptyString.

(** ** Hexadecimal *)

Definition nibble_char (n : N) : ascii :=
  if (n <? 10)%N then ascii_of_N (48 + n) else ascii_of_N (87 + n).

Fixpoint hex (bytes : string) : string :=
  match bytes with
  | EmptyString => EmptyString
  | String b bs =>
      String (nibble_char (N_of_ascii b / 16))
        (String (nibble_char (N_of_ascii b mod 16)) (hex bs))
  end.

(** [(c as char).to_digit(16).unwrap_or(0)] *)
Definition to_digit16 (c : ascii) : N :=
  let n := N_of_ascii c in
  if is_ascii_digit c then n - 48
  else if byte_in "a" "f" c then n - 87
  else if byte_in "A" "F" c then n - 55
  else 0.

Fixpoint unhex (s : string) : string :=
  match s with
  | String h (String l s') =>
      String (ascii_of_N (to_digit16 h * 16 + to_digit16 l)) (unhex s')
  | _ => EmptyString
  end.

Definition ContentDigest_serialize (d : ContentDigest) : json :=
  JString (hex (digest_bytes d)).

Definition ContentDigest_deserialize (v : json) : option ContentDigest :=
  match v with
  | JString s =>
      if negb (bool_decide (String.length s = 64)) || negb (all_bytes is_lower_hex s)
      then None
      else Some {| digest_bytes := unhex s |}
  | _ => None
  end.

(** ** Numbers *)

(** [format!("{value:e}")]: the shortest round-trip digits, one of them before
    the point, and the decimal exponent. *)
Definition mantissa_text (neg : bool) (d : N) (ds : list N) : string :=
  (if neg then "-" else "") +:+ String (pretty_N_char d)
    (match ds with
     | [] => EmptyString
     | _ => String "." (foldr (λ x s, String (pretty_N_char x) s) EmptyString ds)
     end).

Definition lower_exp (f : f64) : string :=
  match f with
  | F64Zero => "0e0"
  | F64 neg d ds e => mantissa_text neg d ds +:+ "e" +:+ pretty e
  end.

(** [text.find(['e', 'E'])] followed by [split_at]. *)
Fixpoint split_at_e (s : string) : option (string * string) :=
  match s with
  | EmptyString => None
  | String c s' =>
      if bool_decide (c = "e"%char) || bool_decide (c = "E"%char)
      then Some (EmptyString, s)
      else match split_at_e s' with
           | Some (a, b) => Some (String c a, b)
           | None => None
           end
  end.

(** [text.replace(pat, rep)] for a non-empty [pat]; [skip] counts the bytes of a
    match that are still to be dropped. *)
Fixpoint replace_go (pat rep : string) (skip : nat) (s : string) : string :=
  match s with
  | EmptyString => EmptyString
  | String c s' =>
      match skip with
      | S skip' => replace_go pat rep skip' s'
      | O =>
          if starts_with pat s
          then rep +:+ replace_go pat rep (String.length pat - 1) s'
          else String c (replace_go pat rep 0 s')
      end
  end.

Definition tail_str (s : string) : string :=
  match s with
  | EmptyString => EmptyString
  | String _ s' => s'
  end.

Section canonical.
Context `{Externals}.

Definition canonical_number (n : number) : result CanonicalizationError string :=
  match n with
  | PosInt n => Ok (pretty n)
  | NegInt z => Ok (pretty z)
  | Float F64Zero => Ok "0"
  | Float value =>
      let text := lower_exp value in
      let finish (text : string) :=
        match json_parse_f64 text with
        | None => Err NonExactNumber
        | Some parsed =>
            bail NonExactNumber when negb (bool_decide (parsed = value));
            Ok (replace_go ".0e" "e" 0 text)
        end in
      match split_at_e text with
      | None => finish text
      | Some (mantissa, exponent) =>
          let integer := trim_end_matches "." (trim_end_matches "0" mantissa) in
          if bool_decide (exponent = "e0")
             && all_bytes (λ c, is_ascii_digit c || bool_decide (c = "-"%char)
                                || bool_decide (c = "."%char)) mantissa
             && negb (str_is_empty integer)
          then Ok integer
          else
            let exponent := trim_start_matches "0" (tail_str exponent) in
            let exponent := if str_is_empty exponent then "0" else exponent in
            if bool_decide (exponent = "0") && ends_with ".0" mantissa
            then
              match json_parse_f64 integer with
              | None => Err NonExactNumber
              | Some parsed =>
                  if bool_decide (parsed = value) then Ok integer
                  else Err NonExactNumber
              end
            else finish (mantissa +:+ "e" +:+ exponent)
      end
  end.

(** ** Values *)

Fixpoint collect {E A} (l : list (result E A)) : result E (list A) :=
  match l with
  | [] => Ok []
  | c :: l' => let? x := c in let? xs := collect l' in Ok (x :: xs)
  end.

Fixpoint join (sep : string) (l : list string) : string :=
  match l with
  | [] => EmptyString
  | [x] => x
  | x :: l' => x +:+ sep +:+ join sep l'
  end.

Fixpoint canonical_value (v : json) : result CanonicalizationError string :=
  match v with
  | JNull => Ok "null"
  | JBool b => Ok (if b then "true" else "false")
  | JNumber n => canonical_number n
  | JString s => Ok (json_string s)
  | JArray items =>
      let? rendered := collect (map canonical_value items) in
      Ok ("[" +:+ join "," rendered +:+ "]")
  | JObject m =>
      let values := map (λ kv, let '(k, v) := kv in (k, canonical_value v)) m in
      let keys := merge_sort String.le (map fst m) in
      let? rendered :=
        collect (map (λ key,
          let name := json_string key in
          let? cell := expect (obj_get key values) in
          let? value := cell in
          Ok (name +:+ ":" +:+ value)) keys) in
      Ok ("{" +:+ join "," rendered +:+ "}")
  end.

Definition canonicalize (v : json) : result CanonicalizationError CanonicalJson :=
  canonical_value v.

Definition digest (kind : ArtifactKind) (value : CanonicalJson) : ContentDigest :=
  {| digest_bytes :=
       blake3 (DOMAIN_LABEL +:+ NUL +:+ artifact_kind_str kind +:+ NUL +:+ value) |}.

(** The digest of a value under a kind, as the callers compute it. *)
Definition digest_of (kind : ArtifactKind) (v : json)
    : result CanonicalizationError ContentDigest :=
  let? c := canonicalize v in Ok (digest kind c).

End canonical.

(** ** The wire form of digests *)

Lemma nibble_pair b :
  ascii_of_N (to_digit16 (nibble_char (N_of_ascii b / 16)) * 16
              + to_digit16 (nibble_char (N_of_ascii b mod 16))) = b.
Proof. by destruct b as [[] [] [] [] [] [] [] []]. Qed.

Lemma nibble_lower_hex b :
  is_lower_hex (nibble_char (N_of_ascii b / 16)) = true
  ∧ is_lower_hex (nibble_char (N_of_ascii b mod 16)) = true.
Proof. by destruct b as [[] [] [] [] [] [] [] []]. Qed.

Lemma to_digit16_lower_hex c :
  is_lower_hex c = true → (to_digit16 c < 16)%N ∧ nibble_char (to_digit16 c) = c.
Proof. destruct c as [[] [] [] [] [] [] [] []]; (discriminate || (split; reflexivity)). Qed.

Lemma unhex_hex s : unhex (hex s) = s.
Proof. induction s as [|b s IH]; [done|]. cbn [hex unhex]. by rewrite nibble_pair, IH. Qed.

Lemma hex_length s : String.length (hex s) = 2 * String.length s.
Proof. induction s as [|b s IH]; simpl; [done|]. rewrite IH. lia. Qed.

Lemma hex_lower_hex s : all_bytes is_lower_hex (hex s) = true.
Proof.
  induction s as [|b s IH]; [done|]. cbn [hex all_bytes].
  destruct (nibble_lower_hex b) as [-> ->]. by rewrite IH.
Qed.

Lemma hex_unhex n s :
  String.length s = 2 * n → all_bytes is_lower_hex s = true →
  hex (unhex s) = s ∧ String.length (unhex s) = n.
Proof.
  revert s. induction n as [|n IH]; intros s Hl Hh.
  - by destruct s.
  - destruct s as [|h [|l s]]; [simpl in Hl; lia..|].
    cbn [all_bytes] in Hh. apply andb_true_iff in Hh as [Hh [Hl' Hs]%andb_true_iff].
    destruct (IH s) as [IH1 IH2]; [simpl in Hl; lia|done|].
    destruct (to_digit16_lower_hex h Hh) as [Hh1 Hh2].
    destruct (to_digit16_lower_hex l Hl') as [Hl1 Hl2].
    cbn [unhex hex String.length]. rewrite N_ascii_embedding by lia.
    rewrite N.div_add_l, N.div_small, N.add_0_r by lia.
    rewrite (N.add_comm (_ * 16)), N.Div0.mod_add, N.mod_small by lia.
    rewrite IH1, IH2, Hh2, Hl2. done.
Qed.

(** The wire form of a digest.  [ContentDigest_deserialize] accepts exactly
    the strings that serialization produces from 32-byte digests, and recovers
    the digest; uppercase, short or long texts are rejected. *)
Theorem ContentDigest_wire_exact (v : json) (d : ContentDigest) :
  ContentDigest_deserialize v = Some d ↔
  String.length (digest_bytes d) = 32 ∧ v = ContentDigest_serialize d.
Proof.
  unfold ContentDigest_serialize. split.
  - destruct v as [| | |s| |]; try discriminate. simpl. intros E.
    destruct (bool_decide (String.length s = 64)) eqn:Hl; [|discriminate].
    destruct (all_bytes is_lower_hex s) eqn:Hh; [|discriminate].
    apply bool_decide_eq_true in Hl. injection E as <-. simpl.
    destruct (hex_unhex 32 s) as [-> ->]; auto.
  - intros [Hl ->]. destruct d as [s]. cbn [ContentDigest_deserialize digest_bytes] in *.
    rewrite hex_length, Hl, hex_lower_hex, bool_decide_true by done. simpl.
    by rewrite unhex_hex.
Qed.

(** ** Domain separation *)

Lemma str_app_inv_l a b c : a +:+ b = a +:+ c → b = c.
Proof. induction a as [|x a IH]; simpl; [done|]. intros [= E]. auto. Qed.

Lemma artifact_kind_str_prefix k1 k2 v1 v2 :
  artifact_kind_str k1 +:+ NUL +:+ v1 = artifact_kind_str k2 +:+ NUL +:+ v2 →
  k1 = k2 ∧ v1 = v2.
Proof. destruct k1, k2; simpl; intros E; try discriminate E; injection E; auto. Qed.

(** The two given messages, if both can be built, are different and have the same hash.
    That some pair of messages collides is no news, since hashes are short; the theorems
    name the messages that the code hashed. *)
Definition collides `{Externals} (m1 m2 : option string) : Prop :=
  ∃ b1 b2, m1 = Some b1 ∧ m2 = Some b2 ∧ b1 ≠ b2 ∧ blake3 b1 = blake3 b2.

Lemma hash_inj `{Externals} b1 b2 :
  blake3 b1 = blake3 b2 → b1 = b2 ∨ collides (Some b1) (Some b2).
Proof. intros E. destruct (decide (b1 = b2)); [by left|right]. by exists b1, b2. Qed.

(** What [digest] hashes, and what [digest_of] hashes of a value. *)
Definition digest_message (kind : ArtifactKind) (value : CanonicalJson) : string :=
  DOMAIN_LABEL +:+ NUL +:+ artifact_kind_str kind +:+ NUL +:+ value.

Definition value_message `{Externals} (kind : ArtifactKind) (v : json) : option string :=
  match canonicalize v with
  | Ok c => Some (digest_message kind c)
  | _ => None
  end.

Lemma digest_inj `{Externals} k1 k2 v1 v2 :
  digest k1 v1 = digest k2 v2 →
  (k1 = k2 ∧ v1 = v2) ∨ collides (Some (digest_message k1 v1)) (Some (digest_message k2 v2)).
Proof.
  intros E%(f_equal digest_bytes). apply (hash_inj (digest_message k1 v1)) in E as [P|];
    [left|by right].
  apply str_app_inv_l, str_app_inv_l in P. by apply artifact_kind_str_prefix.
Qed.
