(* ===== verification/CanonicalNumber.v ===== *)
(** * The canonical text of numbers

    Facts about [canonical_number] of [crates/proof-kernel/src/canonical.rs]:
    its float path, which re-parses and re-trims its own text, equals a direct
    printer; and a text is shared by two numbers only when one is an integer
    and the other the same one-digit value as a float. *)

From S2P Require Import Prelude RustStr Externals Json Canonical.
From stdpp Require Import options.

(** ** Characters of number texts *)

Definition not_e (c : ascii) : bool :=
  negb (bool_decide (c = "e"%char)) && negb (bool_decide (c = "E"%char)).

Definition mantissa_char (c : ascii) : bool :=
  is_ascii_digit c || bool_decide (c = "-"%char) || bool_decide (c = "."%char).

Definition num_char (c : ascii) : bool :=
  mantissa_char c || bool_decide (c = "e"%char).

Lemma all_bytes_mono (p q : ascii → bool) s :
  (∀ c, p c = true → q c = true) → all_bytes p s = true → all_bytes q s = true.
Proof.
  intros Hpq. induction s as [|c s IH]; [done|]. cbn [all_bytes].
  rewrite !andb_true_iff. intros [Hc Hs]. auto.
Qed.

Lemma mantissa_char_not_e c : mantissa_char c = true → not_e c = true.
Proof. by destruct c as [[] [] [] [] [] [] [] []]. Qed.

Lemma digit_mantissa_char c : is_ascii_digit c = true → mantissa_char c = true.
Proof. unfold mantissa_char. by intros ->. Qed.

Lemma mantissa_num_char c : mantissa_char c = true → num_char c = true.
Proof. unfold num_char. by intros ->. Qed.

Lemma pretty_N_char_digit x : is_ascii_digit (pretty_N_char x) = true.
Proof. by do 4 (destruct x as [|[x|x|]]; try reflexivity; try (destruct x as [x|x|]; try reflexivity; destruct x as [x|x|]; try reflexivity; destruct x; reflexivity)). Qed.

Lemma digit_cases x :
  (x < 10)%N → x = 0%N ∨ x = 1%N ∨ x = 2%N ∨ x = 3%N ∨ x = 4%N ∨ x = 5%N
               ∨ x = 6%N ∨ x = 7%N ∨ x = 8%N ∨ x = 9%N.
Proof. lia. Qed.

Lemma pretty_N_char_nonzero x :
  (1 ≤ x)%N → (x < 10)%N → pretty_N_char x ≠ "0"%char ∧ pretty_N_char x ≠ "."%char.
Proof.
  intros H1 H2. apply digit_cases in H2.
  repeat (destruct H2 as [->|H2]; [done || lia|]). by subst.
Qed.

Lemma pretty_N_go_text n s :
  ∃ t, pretty_N_go n s = t +:+ s ∧ all_bytes is_ascii_digit t = true
       ∧ ((0 < n)%N → ∃ c t', t = String c t' ∧ c ≠ "0"%char).
Proof.
  revert s. induction (N.lt_wf_0 n) as [n _ IH]; intros s.
  destruct (decide (n = 0)%N) as [->|Hn].
  { exists "". rewrite pretty_N_go_0. split_and!; [done..|lia]. }
  rewrite pretty_N_go_step by lia.
  destruct (decide (n / 10 = 0)%N) as [Hd|Hd].
  - rewrite Hd, pretty_N_go_0. exists (String (pretty_N_char (n `mod` 10)) "").
    split; [done|]. split; [cbn [all_bytes]; by rewrite pretty_N_char_digit|].
    intros _. eexists _, _. split; [done|].
    assert (n `mod` 10 = n)%N as ->.
    { apply N.div_small_iff in Hd; [|lia]. by apply N.mod_small. }
    apply pretty_N_char_nonzero; [lia|]. by apply N.div_small_iff in Hd.
  - destruct (IH (n / 10)%N) with (s := String (pretty_N_char (n `mod` 10)) s)
      as (t & -> & Ht & Hc); [apply N.div_lt; lia|].
    exists (t +:+ String (pretty_N_char (n `mod` 10)) "").
    rewrite str_app_assoc, all_bytes_app, Ht. split; [done|].
    split; [cbn [all_bytes]; by rewrite pretty_N_char_digit|].
    intros _. destruct Hc as (c & t' & -> & Hc); [by apply N.neq_0_lt_0|].
    by exists c, (t' +:+ String (pretty_N_char (n `mod` 10)) "").
Qed.

Lemma pretty_pos_text (p : positive) :
  ∃ c t, pretty p = String c t ∧ c ≠ "0"%char ∧ is_ascii_digit c = true
         ∧ all_bytes is_ascii_digit t = true.
Proof.
  destruct (pretty_N_go_text (Npos p) "") as (t & Ht & Hd & Hc).
  destruct Hc as (c & t' & -> & Hc); [lia|]. exists c, t'.
  cbn [all_bytes] in Hd. apply andb_true_iff in Hd as [Hd1 Hd2].
  split_and!; [|done..]. unfold pretty, pretty_positive, pretty, pretty_N.
  rewrite decide_False by done. by rewrite Ht, str_app_nil_r.
Qed.

Lemma pretty_N_digits (n : N) : all_bytes is_ascii_digit (pretty n) = true.
Proof.
  destruct n as [|p]; [done|].
  destruct (pretty_pos_text p) as (c & t & E & _ & Hc & Ht).
  change (pretty (Npos p)) with (pretty p). rewrite E. cbn [all_bytes]. by rewrite Hc, Ht.
Qed.

Lemma pretty_Z_mantissa (z : Z) : all_bytes mantissa_char (pretty z) = true.
Proof.
  destruct z as [|p|p]; [done| |].
  - eapply all_bytes_mono; [apply digit_mantissa_char|]. apply (pretty_N_digits (Npos p)).
  - change (pretty (Zneg p)) with ("-" +:+ pretty p). cbn [all_bytes String.append].
    apply andb_true_iff; split; [done|].
    eapply all_bytes_mono; [apply digit_mantissa_char|]. apply (pretty_N_digits (Npos p)).
Qed.

Lemma trim_start_pretty_Z (z : Z) :
  z ≠ 0%Z → trim_start_matches "0" (pretty z) = pretty z
            ∧ str_is_empty (pretty z) = false.
Proof.
  destruct z as [|p|p]; [done| |]; intros _; [|done].
  destruct (pretty_pos_text p) as (c & t & E & Hc & _ & _).
  change (pretty (Zpos p)) with (pretty p). rewrite E. split; [|done].
  cbn [trim_start_matches]. by rewrite decide_False by congruence.
Qed.

(** ** Texts of floats *)

Definition digits_text (ds : list N) : string :=
  foldr (λ x s, String (pretty_N_char x) s) EmptyString ds.

Lemma digits_text_chars ds : all_bytes mantissa_char (digits_text ds) = true.
Proof.
  induction ds as [|d ds IH]; [done|]. cbn [digits_text foldr all_bytes].
  fold (digits_text ds). rewrite IH.
  by rewrite (digit_mantissa_char _ (pretty_N_char_digit d)).
Qed.

Lemma digits_text_snoc ds x :
  digits_text (ds ++ [x]) = digits_text ds +:+ String (pretty_N_char x) "".
Proof.
  induction ds as [|d ds IH]; [done|].
  change (digits_text ((d :: ds) ++ [x]))
    with (String (pretty_N_char d) (digits_text (ds ++ [x]))).
  by rewrite IH.
Qed.

Lemma mantissa_text_chars neg d ds :
  all_bytes mantissa_char (mantissa_text neg d ds) = true.
Proof.
  unfold mantissa_text. rewrite all_bytes_app. apply andb_true_iff.
  split; [by destruct neg|]. cbn [all_bytes].
  rewrite (digit_mantissa_char _ (pretty_N_char_digit d)).
  destruct ds as [|x ds]; [done|]. cbn [all_bytes andb].
  apply andb_true_iff. split; [done|]. apply (digits_text_chars (x :: ds)).
Qed.

Lemma mantissa_text_last neg d ds e :
  f64_wf (F64 neg d ds e) = true →
  ∃ p x, mantissa_text neg d ds = p +:+ String (pretty_N_char x) ""
         ∧ (1 ≤ x)%N ∧ (x < 10)%N.
Proof.
  cbn [f64_wf]. rewrite !andb_true_iff. intros [[[Hd1 Hd2] Hds] Hl].
  unfold digit_ok in *. apply N.leb_le in Hd1. apply N.ltb_lt in Hd2.
  unfold mantissa_text. destruct ds as [|x ds _] using rev_ind.
  - eexists _, d. eauto.
  - rewrite last_snoc in Hl. apply N.leb_le in Hl.
    rewrite forallb_app in Hds. cbn [forallb] in Hds.
    apply andb_true_iff in Hds as [_ [Hx _]%andb_true_iff]. apply N.ltb_lt in Hx.
    exists ((if neg then "-" else "") +:+ String (pretty_N_char d) (String "." (digits_text ds))), x.
    split; [|done]. rewrite str_app_assoc. simpl. f_equal. f_equal.
    destruct (ds ++ [x]) as [|y l] eqn:E; [by destruct ds|].
    rewrite <- E, <- (digits_text_snoc ds x). done.
Qed.

Lemma split_at_e_app m r :
  all_bytes not_e m = true →
  split_at_e (m +:+ String "e" r) = Some (m, String "e" r).
Proof.
  induction m as [|c m IH]; [done|]. cbn [all_bytes String.append split_at_e].
  rewrite andb_true_iff. intros [Hc Hm]. unfold not_e in Hc.
  apply andb_true_iff in Hc as [->%negb_true_iff ->%negb_true_iff].
  by rewrite IH.
Qed.

Lemma trim_end_last c p x :
  c ≠ x → trim_end_matches c (p +:+ String x "") = p +:+ String x "".
Proof.
  intros Hx. induction p as [|y p IH]; cbn [String.append trim_end_matches].
  - by rewrite decide_False.
  - rewrite IH. by destruct p.
Qed.

Lemma replace_no_e s : all_bytes not_e s = true → replace_go ".0e" "e" 0 s = s.
Proof.
  induction s as [|c s IH]; [done|]. intros Hs.
  cbn [all_bytes] in Hs. apply andb_true_iff in Hs as [Hc Hs].
  cbn [replace_go]. destruct (starts_with ".0e" (String c s)) eqn:E; [|by rewrite IH].
  apply starts_with_spec in E as [t E]. injection E as -> ->.
  by cbn [all_bytes] in Hs.
Qed.

Lemma replace_float_text p x r :
  all_bytes not_e (p +:+ String x "") = true → x ≠ "0"%char →
  all_bytes not_e r = true →
  replace_go ".0e" "e" 0 (p +:+ String x (String "e" r)) = p +:+ String x (String "e" r).
Proof.
  intros Hp Hx Hr. induction p as [|c p IH].
  - cbn [String.append]. cbn [replace_go].
    replace (starts_with ".0e" (String x (String "e" r))) with false
      by (cbn [starts_with]; by rewrite andb_false_r).
    replace (starts_with ".0e" (String "e" r)) with false by done.
    by rewrite replace_no_e.
  - cbn [String.append all_bytes] in *. apply andb_true_iff in Hp as [Hc Hp].
    cbn [replace_go].
    destruct (starts_with ".0e" (String c (p +:+ String x (String "e" r)))) eqn:E;
      [|by rewrite IH].
    apply starts_with_spec in E as [t E]. exfalso. injection E as _ E.
    destruct p as [|a [|b p]]; cbn [String.append] in *.
    + by injection E as ->.
    + injection E as _ -> _. cbn [all_bytes] in Hp. by rewrite andb_false_r in Hp.
    + injection E as _ -> _. cbn [all_bytes] in Hp. by rewrite andb_false_r in Hp.
Qed.

(** ** The float path is a direct printer *)

(** The mantissa alone when the exponent is zero; otherwise the [{:e}] text,
    provided the JSON parser reads the same float back from it. *)
Definition canonical_float `{Externals} (f : f64) : result CanonicalizationError string :=
  match f with
  | F64Zero => Ok "0"
  | F64 neg d ds e =>
      if decide (e = 0)%Z then Ok (mantissa_text neg d ds)
      else if decide (json_parse_f64 (lower_exp f) = Some f) then Ok (lower_exp f)
      else Err NonExactNumber
  end.

Lemma mantissa_trim neg d ds e :
  f64_wf (F64 neg d ds e) = true →
  trim_end_matches "." (trim_end_matches "0" (mantissa_text neg d ds)) = mantissa_text neg d ds
  ∧ str_is_empty (mantissa_text neg d ds) = false.
Proof.
  intros (p & x & E & H1 & H2)%mantissa_text_last.
  destruct (pretty_N_char_nonzero x H1 H2) as [H3 H4].
  rewrite E, !trim_end_last by congruence. by destruct p.
Qed.

(** On every float, [canonical_number], with its trimming of zeros, its
    exponent rewriting and its replacement of ".0e", returns the text of the
    direct printer, or [NonExactNumber] exactly when that printer does. *)
Theorem canonical_number_float `{Externals} (f : f64) (Hwf : f64_wf f = true) :
  canonical_number (Float f) = canonical_float f.
Proof.
  destruct f as [|neg d ds e]; [done|].
  destruct (mantissa_trim _ _ _ _ Hwf) as [Htrim Hne].
  pose proof (mantissa_text_chars neg d ds) as Hchars.
  cbn [canonical_number canonical_float]. unfold lower_exp at 1 2. cbn [String.append].
  rewrite split_at_e_app by (eapply all_bytes_mono; [apply mantissa_char_not_e|done]).
  rewrite Htrim, Hne. cbn [negb]. rewrite andb_true_r.
  case_decide as He.
  { subst e. change (pretty 0%Z) with "0". rewrite bool_decide_true by done.
    unfold mantissa_char in Hchars. by rewrite Hchars. }
  assert (pretty e ≠ "0") as Hp.
  { change "0" with (pretty 0%Z). intros E. by apply (inj pretty) in E. }
  rewrite bool_decide_false by congruence. cbn [andb tail_str].
  destruct (trim_start_pretty_Z e He) as [-> ->].
  rewrite bool_decide_false by done. cbn [andb].
  change (mantissa_text neg d ds +:+ String "e" ("" +:+ pretty e))
    with (lower_exp (F64 neg d ds e)).
  destruct (json_parse_f64 (lower_exp (F64 neg d ds e))) as [q|] eqn:Eq; cbn [expect];
    [|by rewrite decide_False by done].
  case_bool_decide as Hq; cbn [negb]; [|rewrite decide_False by congruence; done].
  subst q. rewrite decide_True by done. f_equal.
  destruct (mantissa_text_last _ _ _ _ Hwf) as (p & x & E & H1 & H2).
  destruct (pretty_N_char_nonzero x H1 H2) as [H3 _].
  cbn [lower_exp String.append]. rewrite E in Hchars |- *. rewrite str_app_assoc. cbn [String.append].
  apply replace_float_text; [|done|].
  - eapply all_bytes_mono; [apply mantissa_char_not_e|done].
  - eapply all_bytes_mono; [apply mantissa_char_not_e|apply pretty_Z_mantissa].
Qed.

Lemma canonical_number_float_witness :
  @canonical_number Sample.sample (Float (F64 true 1 [2; 5]%N 0)) = Ok "-1.25".
Proof.
  rewrite (@canonical_number_float Sample.sample (F64 true 1 [2; 5]%N 0)).
  - reflexivity.
  - reflexivity.
Defined.

(** ** Texts identify numbers *)

(** The integer that an integral one-digit float is printed as. *)
Definition norm_number (n : number) : number :=
  match n with
  | Float F64Zero => PosInt 0
  | Float (F64 neg d [] 0) => if neg then NegInt (- Z.of_N d) else PosInt d
  | _ => n
  end.

Lemma mantissa_digit_text d :
  (1 ≤ d)%N → (d < 10)%N →
  String (pretty_N_char d) "" = pretty d ∧ String "-" (String (pretty_N_char d) "") = pretty (- Z.of_N d)%Z.
Proof.
  intros H1 H2. apply digit_cases in H2.
  repeat (destruct H2 as [->|H2]; [by vm_compute|]). by subst.
Qed.

Lemma digits_text_inj ds1 ds2 :
  forallb digit_ok ds1 = true → forallb digit_ok ds2 = true →
  digits_text ds1 = digits_text ds2 → ds1 = ds2.
Proof.
  revert ds2. induction ds1 as [|x ds1 IH]; intros [|y ds2] H1 H2 E; try done.
  cbn [forallb] in H1, H2. apply andb_true_iff in H1 as [Hx H1], H2 as [Hy H2].
  injection E as Ec E. apply N.ltb_lt in Hx, Hy. f_equal.
  - by apply pretty_N_char_inj.
  - by apply IH.
Qed.

Lemma mantissa_text_inj neg1 d1 ds1 e1 neg2 d2 ds2 e2 :
  f64_wf (F64 neg1 d1 ds1 e1) = true → f64_wf (F64 neg2 d2 ds2 e2) = true →
  mantissa_text neg1 d1 ds1 = mantissa_text neg2 d2 ds2 →
  neg1 = neg2 ∧ d1 = d2 ∧ ds1 = ds2.
Proof.
  cbn [f64_wf]. rewrite !andb_true_iff. unfold digit_ok at 1 3.
  intros [[[_ Hd1%N.ltb_lt] Hds1] _] [[[_ Hd2%N.ltb_lt] Hds2] _].
  assert (∀ d s t, String "-" s = String (pretty_N_char d) t → False) as Hneg.
  { intros d s t [= E]. pose proof (pretty_N_char_digit d) as D. by rewrite <- E in D. }
  assert (String (pretty_N_char d1) (match ds1 with [] => EmptyString | _ => String "." (digits_text ds1) end)
    = String (pretty_N_char d2) (match ds2 with [] => EmptyString | _ => String "." (digits_text ds2) end)
    → d1 = d2 ∧ ds1 = ds2) as Hrest.
  { intros E. injection E as Ec E. split; [by apply pretty_N_char_inj|].
    destruct ds1 as [|x ds1], ds2 as [|y ds2]; try done.
    apply (f_equal tail_str) in E. by apply digits_text_inj. }
  unfold mantissa_text. destruct neg1, neg2; cbn [String.append]; intros E.
  - apply (f_equal tail_str) in E. split; [done|by apply Hrest].
  - by apply Hneg in E.
  - symmetry in E. by apply Hneg in E.
  - split; [done|by apply Hrest].
Qed.

Definition int_char (c : ascii) : bool := is_ascii_digit c || bool_decide (c = "-"%char).

Lemma pretty_N_int (n : N) : all_bytes int_char (pretty n) = true.
Proof.
  eapply all_bytes_mono; [|apply pretty_N_digits]. unfold int_char. by intros c ->.
Qed.

Lemma pretty_Z_int (z : Z) : all_bytes int_char (pretty z) = true.
Proof.
  destruct z as [|p|p]; [done|apply (pretty_N_int (Npos p))|].
  change (pretty (Zneg p)) with ("-" +:+ pretty (Npos p)).
  rewrite all_bytes_app. apply andb_true_iff. split; [done|apply pretty_N_int].
Qed.

Lemma lower_exp_has_e m r : all_bytes not_e (m +:+ String "e" r) = false.
Proof. rewrite all_bytes_app. cbn [all_bytes]. by rewrite andb_false_r. Qed.

Lemma mantissa_has_point neg d x ds : all_bytes int_char (mantissa_text neg d (x :: ds)) = false.
Proof.
  unfold mantissa_text. rewrite all_bytes_app. cbn [all_bytes].
  change (int_char ".") with false. by rewrite !andb_false_r.
Qed.

Section number_text.
Context `{Externals}.

(** An integral one-digit float and its integer have the same text. *)
Lemma canonical_number_norm n :
  number_wf n = true → canonical_number (norm_number n) = canonical_number n.
Proof.
  destruct n as [n|z|[|neg d ds e]]; intros Hwf; try done.
  destruct ds as [|x ds]; [|done]. destruct e as [|e|e]; try done.
  pose proof Hwf as Hwf'. cbn [number_wf f64_wf] in Hwf'.
  rewrite !andb_true_iff in Hwf'. destruct Hwf' as [[[H1%N.leb_le H2%N.ltb_lt] _] _].
  rewrite (canonical_number_float (F64 neg d [] 0) Hwf).
  destruct (mantissa_digit_text d H1 H2) as [E1 E2].
  cbn [canonical_float norm_number]. rewrite decide_True by done. unfold mantissa_text.
  destruct neg; cbn [canonical_number String.append]; [by rewrite E2|by rewrite E1].
Qed.

Lemma canonical_float_not_int neg d ds e t :
  norm_number (Float (F64 neg d ds e)) = Float (F64 neg d ds e) →
  canonical_float (F64 neg d ds e) = Ok t → all_bytes int_char t = false.
Proof.
  intros Hn. cbn [canonical_float]. case_decide as He.
  - intros [= <-]. subst e. destruct ds as [|x ds]; [by destruct neg|].
    apply mantissa_has_point.
  - case_decide; [|done]. intros [= <-]. destruct (all_bytes int_char _) eqn:E; [|done].
    rewrite <- (lower_exp_has_e (mantissa_text neg d ds) (pretty e)). symmetry. eapply all_bytes_mono; [|exact E].
    intros c Hc. apply mantissa_char_not_e. unfold int_char in Hc. unfold mantissa_char.
    by rewrite Hc.
Qed.

Lemma canonical_float_inj f1 f2 t :
  f64_wf f1 = true → f64_wf f2 = true → f1 ≠ F64Zero → f2 ≠ F64Zero →
  canonical_float f1 = Ok t → canonical_float f2 = Ok t → f1 = f2.
Proof.
  destruct f1 as [|neg1 d1 ds1 e1], f2 as [|neg2 d2 ds2 e2]; try done.
  intros Hwf1 Hwf2 _ _. cbn [canonical_float].
  assert (∀ n d ds, all_bytes not_e (mantissa_text n d ds) = true) as Hm.
  { intros n d ds. eapply all_bytes_mono; [apply mantissa_char_not_e|apply mantissa_text_chars]. }
  case_decide as He1; case_decide as He2; repeat (case_decide; try done); intros [= <-] [= E].
  - destruct (mantissa_text_inj _ _ _ _ _ _ _ _ Hwf1 Hwf2 (eq_sym E)) as (-> & -> & ->).
    by subst.
  - exfalso. pose proof (lower_exp_has_e (mantissa_text neg2 d2 ds2) (pretty e2)) as C.
    by rewrite E, Hm in C.
  - exfalso. pose proof (lower_exp_has_e (mantissa_text neg1 d1 ds1) (pretty e1)) as C.
    by rewrite <- E, Hm in C.
  - apply (f_equal split_at_e) in E. rewrite !split_at_e_app in E by done. injection E as Em Ee.
    destruct (mantissa_text_inj _ _ _ _ _ _ _ _ Hwf1 Hwf2 (eq_sym Em)) as (-> & -> & ->).
    by rewrite (inj pretty _ _ Ee).
Qed.

Lemma norm_number_idem n : norm_number (norm_number n) = norm_number n.
Proof. by destruct n as [n|z|[|[] d [|x ds] [|e|e]]]. Qed.

Lemma norm_number_wf n : number_wf n = true → number_wf (norm_number n) = true.
Proof.
  destruct n as [n|z|[|neg d [|x ds] [|e|e]]]; try done.
  cbn [number_wf f64_wf norm_number]. rewrite !andb_true_iff.
  intros [[[H1%N.leb_le H2%N.ltb_lt] _] _]. destruct neg; cbn [number_wf].
  - apply andb_true_iff. rewrite Z.leb_le, Z.ltb_lt. lia.
  - apply N.leb_le. unfold u64_max. lia.
Qed.

Lemma pretty_N_NegInt (n : N) (z : Z) : (z < 0)%Z → pretty n ≠ pretty z.
Proof.
  intros Hz. destruct z as [|p|p]; try lia. intros E.
  pose proof (pretty_N_digits n) as D. rewrite E in D. discriminate D.
Qed.

(** The text of a number determines it, up to [norm_number]. *)
Lemma canonical_number_inj n1 n2 t :
  number_wf n1 = true → number_wf n2 = true →
  canonical_number n1 = Ok t → canonical_number n2 = Ok t →
  norm_number n1 = norm_number n2.
Proof.
  intros Hwf1 Hwf2. rewrite <- (canonical_number_norm n1 Hwf1), <- (canonical_number_norm n2 Hwf2).
  pose proof (norm_number_idem n1) as Hi1. pose proof (norm_number_idem n2) as Hi2.
  apply norm_number_wf in Hwf1, Hwf2. revert Hwf1 Hwf2 Hi1 Hi2.
  generalize (norm_number n1) as m1, (norm_number n2) as m2. clear n1 n2.
  assert (∀ f, norm_number (Float f) = Float f → f ≠ F64Zero) as Hz by (by intros [] ?).
  assert (∀ f, number_wf (Float f) = true → norm_number (Float f) = Float f →
    canonical_number (Float f) = Ok t → all_bytes int_char t = false) as Hfi.
  { intros f Hwf Hn. rewrite canonical_number_float by done.
    destruct f; [by destruct (Hz _ Hn)|by apply canonical_float_not_int]. }
  intros [n1|z1|f1] [n2|z2|f2] Hwf1 Hwf2 Hi1 Hi2 E1 E2.
  - injection E1 as E1. injection E2 as E2. f_equal. apply (inj pretty). congruence.
  - injection E1 as E1. injection E2 as E2. cbn [number_wf] in Hwf2.
    apply andb_true_iff in Hwf2 as [_ Hwf2%Z.ltb_lt].
    by destruct (pretty_N_NegInt n1 z2 Hwf2); congruence.
  - apply Hfi in E2; [|done..]. injection E1 as <-. by rewrite pretty_N_int in E2.
  - injection E1 as E1. injection E2 as E2. cbn [number_wf] in Hwf1.
    apply andb_true_iff in Hwf1 as [_ Hwf1%Z.ltb_lt].
    by destruct (pretty_N_NegInt n2 z1 Hwf1); congruence.
  - injection E1 as E1. injection E2 as E2. f_equal. apply (inj pretty). congruence.
  - apply Hfi in E2; [|done..]. injection E1 as <-. by rewrite pretty_Z_int in E2.
  - apply Hfi in E1; [|done..]. injection E2 as <-. by rewrite pretty_N_int in E1.
  - apply Hfi in E1; [|done..]. injection E2 as <-. by rewrite pretty_Z_int in E1.
  - rewrite canonical_number_float in E1, E2 by done. f_equal.
    eapply canonical_float_inj; eauto.
Qed.

(** Every text consists of number characters and is not empty. *)
Lemma canonical_number_chars n t :
  number_wf n = true → canonical_number n = Ok t →
  all_bytes num_char t = true ∧ str_is_empty t = false
  ∧ ∃ c s, t = String c s ∧ (is_ascii_digit c = true ∨ c = "-"%char).
Proof.
  assert (∀ s, all_bytes int_char s = true → all_bytes num_char s = true) as Hi.
  { intros s. apply all_bytes_mono. intros c Hc. unfold num_char, mantissa_char.
    unfold int_char in Hc. by rewrite Hc. }
  assert (∀ s, all_bytes mantissa_char s = true → all_bytes num_char s = true) as Hm.
  { intros s. apply all_bytes_mono, mantissa_num_char. }
  destruct n as [n|z|f]; intros Hwf.
  - intros [= <-]. split; [apply Hi, pretty_N_int|]. destruct n as [|p]; [split; [done|eauto]|].
    destruct (pretty_pos_text p) as (c & s & E & _ & Hc & _).
    change (pretty (Npos p)) with (pretty p). rewrite E. split; [done|eauto].
  - intros [= <-]. split; [apply Hi, pretty_Z_int|]. destruct z as [|p|p]; [split; [done|eauto]| |].
    + destruct (pretty_pos_text p) as (c & s & E & _ & Hc & _).
      change (pretty (Zpos p)) with (pretty p). rewrite E. split; [done|eauto].
    + split; [done|]. eexists _, _. split; [reflexivity|by right].
  - rewrite canonical_number_float by done. destruct f as [|neg d ds e].
    { intros [= <-]. split_and!; [done..|]. eauto. }
    assert (∀ r, ∃ c s, mantissa_text neg d ds +:+ r = String c s ∧
      (is_ascii_digit c = true ∨ c = "-"%char)) as Hc.
    { intros r. unfold mantissa_text. destruct neg; cbn [String.append]; eexists _, _;
        (split; [reflexivity|]); [by right|left; apply pretty_N_char_digit]. }
    cbn [canonical_float]. case_decide; [|case_decide; [|done]]; intros [= <-].
    + destruct (Hc "") as (c & s & E & Hcc). rewrite str_app_nil_r in E.
      split; [apply Hm, mantissa_text_chars|]. rewrite E. split; [done|eauto].
    + destruct (Hc (String "e" (pretty e))) as (c & s & E & Hcc).
      split; [|rewrite E; split; [done|eauto]].
      rewrite all_bytes_app, (Hm _ (mantissa_text_chars neg d ds)).
      cbn [all_bytes andb]. by rewrite (Hm _ (pretty_Z_mantissa e)).
Qed.

End number_text.
