(* ===== verification/CanonicalInjective.v ===== *)
(** * Canonical JSON determines the value

    [canonical_value] of [crates/proof-kernel/src/canonical.rs] is injective on
    well-formed values up to [norm_value], which replaces an integral one-digit
    float by its integer.  The proof reads texts from the left: a rendered
    value followed by a delimiter determines where the value ends. *)

From S2P Require Import Prelude RustStr Externals Json Canonical CanonicalNumber.
From stdpp Require Import options.

Fixpoint norm_value (v : json) : json :=
  match v with
  | JNumber n => JNumber (norm_number n)
  | JArray items => JArray (map norm_value items)
  | JObject m => JObject (map (λ kv, let '(k, v) := kv in (k, norm_value v)) m)
  | _ => v
  end.

(** ** Reading from the left *)

(** What may follow a rendered value: nothing, or a byte that no number text
    contains. *)
Definition delim (r : string) : bool :=
  match r with
  | EmptyString => true
  | String c _ => negb (num_char c)
  end.

(** The kind of value that a first byte announces. *)
Definition kind_of_char (c : ascii) : nat :=
  if bool_decide (c = "n"%char) then 0
  else if bool_decide (c = "t"%char) || bool_decide (c = "f"%char) then 1
  else if is_ascii_digit c || bool_decide (c = "-"%char) then 2
  else if bool_decide (c = quote) then 3
  else if bool_decide (c = "["%char) then 4
  else if bool_decide (c = "{"%char) then 5
  else 6.

Definition kind_of_json (v : json) : nat :=
  match v with
  | JNull => 0 | JBool _ => 1 | JNumber _ => 2
  | JString _ => 3 | JArray _ => 4 | JObject _ => 5
  end.

Lemma span_unique p s1 s2 r1 r2 :
  all_bytes p s1 = true → all_bytes p s2 = true →
  match r1 with EmptyString => True | String c _ => p c = false end →
  match r2 with EmptyString => True | String c _ => p c = false end →
  s1 +:+ r1 = s2 +:+ r2 → s1 = s2 ∧ r1 = r2.
Proof.
  revert s2. induction s1 as [|c s1 IH]; intros [|d s2]; cbn [all_bytes String.append].
  - done.
  - intros _ [Hd _]%andb_true_iff Hr1 _ ->. congruence.
  - intros [Hc _]%andb_true_iff _ _ Hr2 <-. congruence.
  - intros [Hc H1]%andb_true_iff [Hd H2]%andb_true_iff Hr1 Hr2 [= -> E].
    apply IH in E as [-> ->]; auto.
Qed.

Lemma delim_spec r :
  delim r = true → match r with EmptyString => True | String c _ => num_char c = false end.
Proof. destruct r; [done|]. apply negb_true_iff. Qed.

(** ** Separated lists *)

Fixpoint sep_tail (l : list string) : string :=
  match l with
  | [] => EmptyString
  | x :: l' => String "," (x +:+ sep_tail l')
  end.

Lemma join_cons x l : join "," (x :: l) = x +:+ sep_tail l.
Proof.
  revert x. induction l as [|y l IH]; intros x; cbn [sep_tail].
  - cbn [join]. by rewrite str_app_nil_r.
  - change (join "," (x :: y :: l)) with (x +:+ String "," (join "," (y :: l))).
    by rewrite IH.
Qed.

Section separated.
Context {A : Type} (render : A → result CanonicalizationError string).
Context (same : A → A → Prop) (close : ascii) (P : A → Prop).
Hypothesis Hclose : num_char close = false.
Hypothesis Hcomma : close ≠ ","%char.

Definition reads_back (a : A) : Prop := ∀ b s1 s2 r1 r2,
  P a → P b → render a = Ok s1 → render b = Ok s2 →
  delim r1 = true → delim r2 = true →
  s1 +:+ r1 = s2 +:+ r2 → same a b ∧ r1 = r2.

Hypothesis Hhead : ∀ a s, P a → render a = Ok s → ∃ c t, s = String c t ∧ c ≠ close.

Lemma sep_tail_delim l r : delim (sep_tail l +:+ String close r) = true.
Proof using Hclose. destruct l; cbn; [|done]. by rewrite Hclose. Qed.

Lemma sep_tail_unique l1 l2 xs1 xs2 r1 r2 :
  Forall reads_back l1 → Forall P l1 → Forall P l2 →
  collect (map render l1) = Ok xs1 → collect (map render l2) = Ok xs2 →
  sep_tail xs1 +:+ String close r1 = sep_tail xs2 +:+ String close r2 →
  Forall2 same l1 l2 ∧ r1 = r2.
Proof using All.
  intros HR. revert l2 xs1 xs2.
  induction HR as [|a l1 Ha HR IH]; intros l2 xs1 xs2 HP1 HP2 E1 E2 E.
  - injection E1 as <-. destruct l2 as [|b l2].
    + injection E2 as <-. injection E as ->. done.
    + cbn [map collect] in E2. res_inv. injection E as Ec _. done.
  - cbn [map collect] in E1. res_inv. destruct l2 as [|b l2].
    + injection E2 as <-. injection E as Ec _. by destruct Hcomma.
    + cbn [map collect] in E2. res_inv.
      cbn [sep_tail String.append] in E. injection E as E.
      rewrite !str_app_assoc in E. apply Forall_cons in HP1 as [HPa HP1], HP2 as [HPb HP2].
      eapply (Ha b) in E; [|eauto using sep_tail_delim..].
      destruct E as [Hab E]. eapply IH in E; [|eauto..].
      destruct E as [HF ->]. auto.
Qed.

Lemma join_unique l1 l2 xs1 xs2 r1 r2 :
  Forall reads_back l1 → Forall P l1 → Forall P l2 →
  collect (map render l1) = Ok xs1 → collect (map render l2) = Ok xs2 →
  join "," xs1 +:+ String close r1 = join "," xs2 +:+ String close r2 →
  Forall2 same l1 l2 ∧ r1 = r2.
Proof using All.
  intros HR HP1 HP2 E1 E2 E.
  destruct l1 as [|a l1], l2 as [|b l2]; cbn [map collect] in E1, E2.
  - injection E1 as <-. injection E2 as <-. injection E as ->. done.
  - res_inv. apply Forall_cons in HP2 as [HPb _].
    destruct (Hhead b x HPb) as (c & t & -> & Hc); [done|]. rewrite join_cons in E.
    injection E as Ec _. congruence.
  - res_inv. apply Forall_cons in HP1 as [HPa _].
    destruct (Hhead a x HPa) as (c & t & -> & Hc); [done|]. rewrite join_cons in E.
    injection E as Ec _. congruence.
  - res_inv. rewrite !join_cons, !str_app_assoc in E.
    apply Forall_cons in HR as [Ha HR], HP1 as [HPa HP1], HP2 as [HPb HP2].
    eapply (Ha b) in E; [|eauto using sep_tail_delim..].
    destruct E as [Hab E]. eapply sep_tail_unique in E; [|eauto..].
    destruct E as [HF ->]. auto.
Qed.
End separated.

(** ** Objects with sorted keys *)

Definition key_lt (k k' : string) : Prop := String.le k k' ∧ k ≠ k'.

#[local] Instance key_lt_trans : Transitive key_lt.
Proof.
  intros a b c [H1 H2] [H3 H4]. split; [by etrans|].
  intros ->. apply H2. by apply (anti_symm String.le).
Qed.

Lemma keys_sorted_lt l : keys_sorted l = true → StronglySorted key_lt l.
Proof.
  intros Hl. apply Sorted_StronglySorted; [apply _|].
  induction l as [|k [|k' l] IH]; [constructor|repeat constructor|].
  cbn [keys_sorted] in Hl. rewrite !andb_true_iff in Hl. destruct Hl as [[Hle Hne] Hl].
  apply bool_decide_eq_true in Hle. apply negb_true_iff, bool_decide_eq_false in Hne.
  constructor; [by apply IH|]. constructor. by split.
Qed.

Lemma keys_sorted_NoDup l : keys_sorted l = true → NoDup l.
Proof.
  intros Hl%keys_sorted_lt. induction Hl as [|k l _ IH Hk]; constructor; [|done].
  intros Hin. rewrite Forall_forall in Hk. by destruct (Hk k Hin).
Qed.

Lemma merge_sort_sorted l : keys_sorted l = true → merge_sort String.le l = l.
Proof.
  intros Hl. apply (StronglySorted_unique String.le).
  - apply Sorted_StronglySorted; [apply _|]. apply Sorted_merge_sort. apply _.
  - eapply keys_sorted_lt in Hl. clear -Hl.
    induction Hl as [|k l _ IH Hk]; constructor; [done|].
    eapply Forall_impl; [exact Hk|]. by intros ? [].
  - apply merge_sort_Permutation.
Qed.

Lemma obj_get_map {A B} (f : A → B) k m :
  obj_get k (map (λ kv, let '(k, v) := kv in (k, f v)) m) = f <$> obj_get k m.
Proof. induction m as [|[k' v] m IH]; [done|]. cbn [map obj_get]. by case_decide. Qed.

Lemma obj_get_In {A} k (v : A) m :
  NoDup (map fst m) → In (k, v) m → obj_get k m = Some v.
Proof.
  induction m as [|[k' v'] m IH]; [done|]. cbn [map fst obj_get].
  rewrite NoDup_cons. intros [Hk Hm] [[= -> ->]|Hin]; [by rewrite decide_True|].
  rewrite decide_False; [by apply IH|]. intros ->. apply Hk.
  apply list_elem_of_In, (in_map fst _ _ Hin).
Qed.

Section value_text.
Context `{HE : Externals}.

Definition render_field (kv : string * json) : result CanonicalizationError string :=
  let? value := canonical_value kv.2 in Ok (json_string kv.1 +:+ ":" +:+ value).

(** On an object whose keys are sorted, sorting the keys and indexing the
    object by them visits the fields in order. *)
Lemma canonical_object m :
  keys_sorted (map fst m) = true →
  canonical_value (JObject m) =
  let? rendered := collect (map render_field m) in
  Ok ("{" +:+ join "," rendered +:+ "}").
Proof.
  intros Hs. cbn [canonical_value]. rewrite merge_sort_sorted by done. f_equal. f_equal.
  rewrite map_map. apply map_ext_in. intros [k v] Hin. cbn [fst].
  rewrite (obj_get_map canonical_value k m).
  rewrite (obj_get_In k v m) by eauto using keys_sorted_NoDup. done.
Qed.

Lemma canonical_head v s `{!ExternalsLaws} :
  json_wf v = true → canonical_value v = Ok s →
  ∃ c t, s = String c t ∧ kind_of_char c = kind_of_json v.
Proof.
  destruct v as [|[]|n|x|l|m]; intros Hwf E.
  - injection E as <-. by eexists _, _.
  - injection E as <-. by eexists _, _.
  - injection E as <-. by eexists _, _.
  - destruct (canonical_number_chars n s Hwf E) as (_ & _ & c & t & -> & Hc).
    exists c, t. split; [done|]. destruct Hc as [Hc| ->]; [|done].
    by destruct c as [[] [] [] [] [] [] [] []].
  - injection E as <-. destruct (json_string_quote x) as [t ->]. by eexists _, _.
  - cbn [canonical_value] in E. res_inv. by eexists _, _.
  - cbn [canonical_value] in E. res_inv. by eexists _, _.
Qed.

Lemma map_norm_Forall2 {A} (f : A → A) l1 l2 :
  Forall2 (λ a b, f a = f b) l1 l2 → map f l1 = map f l2.
Proof. induction 1 as [|a b l1 l2 H1 _ IH]; cbn [map]; congruence. Qed.

Definition same_field (a b : string * json) : Prop :=
  a.1 = b.1 ∧ norm_value a.2 = norm_value b.2.

Lemma object_wf m :
  json_wf (JObject m) = true →
  keys_sorted (map fst m) = true ∧ Forall (λ kv, json_wf kv.2 = true) m.
Proof.
  cbn [json_wf]. rewrite andb_true_iff. intros [Hs Hf]. split; [done|].
  apply Forall_forall. intros [k v] Hin%list_elem_of_In.
  rewrite forallb_forall in Hf. apply (Hf _ Hin).
Qed.

Lemma field_head kv s `{!ExternalsLaws} :
  render_field kv = Ok s → ∃ c t, s = String c t ∧ c ≠ "}"%char.
Proof.
  unfold render_field. intros E. res_inv.
  destruct (json_string_quote kv.1) as [t ->]. by eexists _, _.
Qed.

Lemma item_head v s `{!ExternalsLaws} :
  json_wf v = true → canonical_value v = Ok s → ∃ c t, s = String c t ∧ c ≠ "]"%char.
Proof.
  intros Hwf E. destruct (canonical_head v s Hwf E) as (c & t & -> & Hk).
  exists c, t. split; [done|]. intros ->. by destruct v.
Qed.

(** The reading lemma: a rendered value, followed by a delimiter, determines
    the value and where it ends. *)
Lemma canonical_reads_back `{HL : !ExternalsLaws} v :
  reads_back canonical_value (λ a b, norm_value a = norm_value b)
    (λ a, json_wf a = true) v.
Proof.
  induction v as [|b|n|x|l IH|m IH] using json_ind';
    intros w s1 s2 r1 r2 Hw1 Hw2 E1 E2 Hr1 Hr2 E;
    assert (kind_of_json w = kind_of_json _) as Hk
      by (destruct (canonical_head _ _ Hw1 E1) as (c1 & t1 & -> & <-);
          destruct (canonical_head _ _ Hw2 E2) as (c2 & t2 & -> & <-);
          injection E as -> _; reflexivity);
    destruct w as [|b2|n2|x2|l2|m2]; try discriminate Hk; clear Hk.
  - injection E1 as <-. injection E2 as <-. injection E as ->. done.
  - injection E1 as <-. injection E2 as <-.
    destruct b, b2; try discriminate E; injection E as ->; done.
  - cbn [canonical_value] in E1, E2.
    destruct (canonical_number_chars n s1 Hw1 E1) as (H1 & _).
    destruct (canonical_number_chars n2 s2 Hw2 E2) as (H2 & _).
    apply (span_unique num_char) in E as [-> ->]; [|done|done|by apply delim_spec..].
    cbn [norm_value]. by rewrite (canonical_number_inj n n2 s2).
  - injection E1 as <-. injection E2 as <-. apply json_string_prefix in E as [-> ->]. done.
  - cbn [canonical_value] in E1, E2. res_inv. cbn [String.append] in E. injection E as E.
    rewrite !str_app_assoc in E. cbn [String.append] in E.
    edestruct (join_unique canonical_value (λ a b, norm_value a = norm_value b) "]"
      (λ a, json_wf a = true)) as [HF ->];
      [done|done|by intros ? ?; apply item_head|exact IH| | |eassumption..|exact E|].
    + apply Forall_forall. intros v Hv%list_elem_of_In.
      by apply (proj1 (forallb_forall _ _) Hw1).
    + apply Forall_forall. intros v Hv%list_elem_of_In.
      by apply (proj1 (forallb_forall _ _) Hw2).
    + cbn [norm_value]. by rewrite (map_norm_Forall2 _ _ _ HF).
  - apply object_wf in Hw1 as [Hs1 Hf1], Hw2 as [Hs2 Hf2].
    rewrite canonical_object in E1, E2 by done. res_inv.
    cbn [String.append] in E. injection E as E.
    rewrite !str_app_assoc in E. cbn [String.append] in E.
    edestruct (join_unique render_field same_field "}" (λ kv, json_wf kv.2 = true))
      as [HF ->]; [done|done| | |exact Hf1|exact Hf2|eassumption..|exact E|].
    + intros kv s _. by apply field_head.
    + clear -IH HL. apply Forall_forall. intros [k v] Hin. rewrite Forall_forall in IH.
      specialize (IH _ Hin). intros [k2 v2] s1 s2 r1 r2 Hv Hv2 E1 E2 Hr1 Hr2 E.
      unfold render_field in E1, E2. res_inv. rewrite !str_app_assoc in E.
      apply json_string_prefix in E as [Hk E]. cbn [fst] in Hk. subst k2.
      cbn [String.append] in E. injection E as E.
      by destruct (IH v2 x0 x r1 r2 Hv Hv2 H1 H Hr1 Hr2 E) as [Hn ->].
    + split; [|done]. cbn [norm_value]. f_equal. clear -HF.
      induction HF as [|[] [] l1 l2 [H1 H2] _ IH]; cbn [map] in *; [done|].
      simpl in H1, H2. by subst; rewrite H2, IH.
Qed.

(** C23: canonical JSON determines the value.  Two well-formed values with the
    same canonical text are equal after replacing integral one-digit floats by
    integers; in particular no two different objects, strings, arrays or key
    sets share a text. *)
Theorem canonicalize_injective `{!ExternalsLaws} (v w : json) (s : CanonicalJson)
    (Hv : json_wf v = true) (Hw : json_wf w = true)
    (Ev : canonicalize v = Ok s) (Ew : canonicalize w = Ok s) :
  norm_value v = norm_value w.
Proof. eapply (canonical_reads_back v w s s "" ""); done. Qed.

End value_text.

(** The hypotheses hold together: an integer and the float that stands for it
    have one text. *)
Lemma canonicalize_injective_witness :
  norm_value (JArray [JNumber (PosInt 3); JString "a"])
  = norm_value (JArray [JNumber (Float (F64 false 3 [] 0)); JString "a"]).
Proof.
  apply (@canonicalize_injective Sample.sample Sample.sample_laws _ _
    (String "[" (String "3" (String "," (String quote (String "a"
      (String quote "]")))))));
    vm_compute; reflexivity.
Defined.
