(* ===== verification/Serialized.v ===== *)
(** * Serialized records

    What [serde] derives for the records that the kernel signs, hashes and
    stores.  [json_object] inserts the fields into a map, so the order of the
    declaration does not matter ([field_get_json_object]); a record without
    floats always has a canonical text ([canonicalize_exact]) and the text
    determines the value ([canonicalize_exact_inj]).  [Serialize] is the class
    of the serializable types, [canonicalize_serialized] the function of
    [crates/proof-kernel/src/canonical.rs] that they are signed through. *)

From S2P Require Import Prelude RustStr Externals Json Canonical CanonicalNumber.
From S2P Require Import CanonicalInjective.
From stdpp Require Import options.

Class Serialize (A : Type) := to_value : A → json.

(** [serde_json::to_value] cannot fail on the types that are instances here:
    they have string keys and no numbers but integers. *)
Definition canonicalize_serialized `{Externals} {A} `{Serialize A} (value : A)
    : result CanonicalizationError CanonicalJson :=
  canonicalize (to_value value).

(** ** Values without floats *)

Definition is_exact_number (n : number) : bool :=
  match n with Float _ => false | _ => number_wf n end.

Fixpoint exact_value (v : json) : bool :=
  match v with
  | JNumber n => is_exact_number n
  | JArray items => forallb exact_value items
  | JObject m =>
      keys_sorted (map fst m) && forallb (λ kv, let '(_, v) := kv in exact_value v) m
  | _ => true
  end.

Lemma exact_object m :
  exact_value (JObject m) = true ↔
  keys_sorted (map fst m) = true ∧ Forall (λ kv, exact_value kv.2 = true) m.
Proof.
  cbn [exact_value]. rewrite andb_true_iff, Forall_forall, forallb_forall.
  split; (intros [Hs Hf]; split; [done|]).
  - intros [k v] Hin%list_elem_of_In. apply (Hf _ Hin).
  - intros [k v] Hin. apply (Hf (k, v)). by apply list_elem_of_In.
Qed.

Lemma exact_array l :
  exact_value (JArray l) = true ↔ Forall (λ v, exact_value v = true) l.
Proof.
  cbn [exact_value]. rewrite Forall_forall, forallb_forall.
  by setoid_rewrite list_elem_of_In.
Qed.

Lemma exact_wf v : exact_value v = true → json_wf v = true.
Proof.
  induction v as [| |n| |l IH|m IH] using json_ind'; try done.
  - by destruct n.
  - rewrite exact_array. intros Hl. cbn [json_wf]. apply forallb_forall.
    intros v Hin%list_elem_of_In. rewrite Forall_forall in IH, Hl. auto.
  - rewrite exact_object. intros [Hs Hl]. cbn [json_wf]. rewrite Hs. simpl.
    apply forallb_forall. intros [k v] Hin%list_elem_of_In.
    rewrite Forall_forall in IH, Hl. apply (IH (k, v)); [done|]. apply (Hl (k, v)). done.
Qed.

Lemma exact_norm v : exact_value v = true → norm_value v = v.
Proof.
  induction v as [| |n| |l IH|m IH] using json_ind'; try done.
  - by destruct n.
  - rewrite exact_array. intros Hl. cbn [norm_value]. f_equal.
    induction IH as [|v l Hv _ IH]; cbn [map]; [done|].
    apply Forall_cons in Hl as [Hx Hl]. by rewrite Hv, IH.
  - rewrite exact_object. intros [_ Hl]. cbn [norm_value]. f_equal.
    induction IH as [|[k v] m Hv _ IH]; cbn [map]; [done|].
    apply Forall_cons in Hl as [Hx Hl]. cbn [snd] in Hv, Hx. by rewrite Hv, IH.
Qed.

Lemma collect_total {E A B} (f : A → result E B) l :
  Forall (λ a, ∃ b, f a = Ok b) l → ∃ bs, collect (map f l) = Ok bs.
Proof.
  induction 1 as [|a l [b Hb] _ [bs IH]]; cbn [map collect]; [by eexists|].
  rewrite Hb, IH. by eexists.
Qed.

Lemma canonicalize_exact `{Externals} v :
  exact_value v = true → ∃ s, canonicalize v = Ok s.
Proof.
  unfold canonicalize.
  induction v as [| |n| |l IH|m IH] using json_ind'; try by (intros; eexists).
  - destruct n; try discriminate; intros; by eexists.
  - rewrite exact_array. intros Hl. cbn [canonical_value].
    destruct (collect_total canonical_value l) as [bs ->]; [|by eexists].
    eapply Forall_impl; [apply Forall_and; exact (conj IH Hl)|]. naive_solver.
  - rewrite exact_object. intros [Hs Hl]. rewrite canonical_object by done.
    destruct (collect_total render_field m) as [bs ->]; [|by eexists].
    eapply Forall_impl; [apply Forall_and; exact (conj IH Hl)|].
    intros kv [Hi He]. destruct (Hi He) as [s Hv]. unfold render_field.
    rewrite Hv. by eexists.
Qed.

Lemma canonicalize_exact_inj `{ExternalsLaws} v w s :
  exact_value v = true → exact_value w = true →
  canonicalize v = Ok s → canonicalize w = Ok s → v = w.
Proof.
  intros Hv Hw Ev Ew. rewrite <- (exact_norm v), <- (exact_norm w) by done.
  apply (canonical_reads_back v w s s EmptyString EmptyString);
    auto using exact_wf.
Qed.

(** ** Objects built field by field *)

(** The last field with the given key. *)
Fixpoint field_get (k : string) (fields : list (string * json)) : option json :=
  match fields with
  | [] => None
  | (k', v) :: fields' =>
      match field_get k fields' with
      | Some w => Some w
      | None => if String.eqb k k' then Some v else None
      end
  end.

Lemma obj_get_insert {A} k k' (v : A) m :
  obj_get k (obj_insert k' v m) = if decide (k = k') then Some v else obj_get k m.
Proof.
  induction m as [|[k2 v2] m IH]; cbn [obj_insert obj_get]; [done|].
  repeat case_decide; cbn [obj_get]; repeat case_decide; simplify_eq; try done.
  all: rewrite ?IH; repeat case_decide; done.
Qed.

Lemma obj_get_fold k fields m :
  obj_get k (fold_left (λ m f, obj_insert f.1 f.2 m) fields m) =
  match field_get k fields with Some w => Some w | None => obj_get k m end.
Proof.
  revert m. induction fields as [|[k' v] fields IH]; intros m; cbn [fold_left field_get];
    [done|].
  rewrite IH, obj_get_insert. cbn [fst snd]. destruct (field_get k fields); [done|].
  case_decide as E; [subst; by rewrite String.eqb_refl|].
  apply String.eqb_neq in E. by rewrite E.
Qed.

Lemma field_get_json_object k fields :
  value_get k (json_object fields) = field_get k fields.
Proof.
  unfold json_object. cbn [value_get]. rewrite obj_get_fold. by destruct (field_get _ _).
Qed.

Lemma field_get_app k f1 f2 :
  field_get k (f1 ++ f2) =
  match field_get k f2 with Some w => Some w | None => field_get k f1 end.
Proof.
  induction f1 as [|[k' v] f1 IH]; simpl; [by destruct (field_get k f2)|].
  rewrite IH. by destruct (field_get k f2).
Qed.

Lemma field_get_opt k k' o :
  field_get k (opt_field k' o) = if String.eqb k k' then o else None.
Proof. destruct o; simpl; by destruct (String.eqb k k'). Qed.

Lemma json_object_fields f1 f2 k :
  json_object f1 = json_object f2 → field_get k f1 = field_get k f2.
Proof. intros E. by rewrite <- !field_get_json_object, E. Qed.

Lemma keys_insert_hd {A} k0 k (v : A) m :
  key_lt k0 k → keys_sorted (k0 :: map fst m) = true →
  keys_sorted (map fst (obj_insert k v m)) = true →
  keys_sorted (k0 :: map fst (obj_insert k v m)) = true.
Proof.
  intros [Hle Hne] H0 Hs. destruct m as [|[k1 v1] m]; cbn [obj_insert] in *.
  - cbn [map fst keys_sorted]. by rewrite bool_decide_true, bool_decide_false.
  - repeat case_decide; subst; cbn [map fst] in *; cbn [keys_sorted] in *;
      apply andb_true_iff; (split; [|done]).
    + by rewrite bool_decide_true, bool_decide_false.
    + by rewrite bool_decide_true, bool_decide_false.
    + by apply andb_true_iff in H0 as [H0 _].
Qed.

Lemma keys_sorted_insert {A} k (v : A) m :
  keys_sorted (map fst m) = true → keys_sorted (map fst (obj_insert k v m)) = true.
Proof.
  induction m as [|[k' v'] m IH]; cbn [obj_insert map fst]; [done|]. intros Hs.
  case_decide as Ek; [by subst|]. case_decide as El.
  - cbn [map fst keys_sorted]. rewrite bool_decide_true, bool_decide_false by done. exact Hs.
  - apply keys_insert_hd; [|done|].
    + split; [|done]. by destruct (total String.le k k').
    + apply IH. destruct (map fst m); [done|]. cbn [keys_sorted] in Hs.
      by apply andb_true_iff in Hs as [_ Hs].
Qed.

Lemma insert_Forall {A} (P : A → Prop) k v m :
  P v → Forall (λ kv, P kv.2) m → Forall (λ kv, P kv.2) (obj_insert k v m).
Proof.
  intros Hv. induction 1 as [|[k' v'] m Hk Hm IH]; cbn [obj_insert]; [by repeat constructor|].
  repeat case_decide; repeat constructor; auto.
Qed.

Lemma exact_json_object fields :
  Forall (λ kv, exact_value kv.2 = true) fields → exact_value (json_object fields) = true.
Proof.
  intros Hf. unfold json_object. apply exact_object.
  assert (∀ m, keys_sorted (map fst m) = true → Forall (λ kv, exact_value kv.2 = true) m →
    let r := fold_left (λ m f, obj_insert f.1 f.2 m) fields m in
    keys_sorted (map fst r) = true ∧ Forall (λ kv, exact_value kv.2 = true) r) as G;
    [|by apply G].
  induction Hf as [|f fields Hv _ IH]; intros m Hs Hm; cbn [fold_left]; [done|].
  apply IH; [by apply keys_sorted_insert|].
  by apply (insert_Forall (λ v, exact_value v = true)).
Qed.

Lemma exact_opt_field k o :
  (∀ v, o = Some v → exact_value v = true) →
  Forall (λ kv, exact_value kv.2 = true) (opt_field k o).
Proof. destruct o; simpl; intros; repeat constructor; auto. Qed.

Lemma option_eta {A} (o : option A) :
  match o with Some w => Some w | None => None end = o.
Proof. by destruct o. Qed.

#[export] Hint Rewrite field_get_app field_get_opt @option_eta : fields.

(** Evaluates the lookups of literal keys in a list of fields. *)
Tactic Notation "field_simpl" "in" hyp(F) :=
  autorewrite with fields in F; cbn [field_get String.eqb Ascii.eqb Bool.eqb] in F;
  autorewrite with fields in F.
Ltac field_simpl :=
  autorewrite with fields; cbn [field_get String.eqb Ascii.eqb Bool.eqb];
  autorewrite with fields.

(** From an equation between two serialized records, the equation of the fields
    with the key [k]; [inj_simpl] removes the injective writers from it. *)
Ltac field_eq E k :=
  let F := fresh "F" in
  pose proof (json_object_fields _ _ k E) as F; field_simpl in F.

Ltac field_inj :=
  repeat match goal with
  | F : Some _ = Some _ |- _ => apply (inj Some) in F
  | F : ?f _ = ?f _ |- _ => apply (inj f) in F
  | F : JString _ = JString _ |- _ => injection F as F
  end.

(** ** Digests of values *)

Lemma digest_of_norm `{ExternalsLaws} k1 k2 v w d :
  json_wf v = true → json_wf w = true →
  digest_of k1 v = Ok d → digest_of k2 w = Ok d →
  (k1 = k2 ∧ norm_value v = norm_value w)
  ∨ collides (value_message k1 v) (value_message k2 w).
Proof.
  unfold digest_of, value_message. intros Hv Hw (s & Es & Ed)%rbind_Ok (t & Et & E)%rbind_Ok.
  rewrite Es, Et. destruct (digest_inj k1 k2 s t) as [[-> ->]|]; [congruence|left|by right].
  split; [done|]. eapply (canonical_reads_back v w _ _ EmptyString EmptyString); done.
Qed.

(** A digest binds the artifact kind and the value.  Two well-formed values
    with equal digests were hashed under the same kind and are the same value up
    to integral one-digit floats, or else the byte strings that were hashed for them are
    different and have the same BLAKE3 hash. *)
Theorem digest_binds `{ExternalsLaws} (k1 k2 : ArtifactKind) (v w : json)
    (d : ContentDigest) (Hv : json_wf v = true) (Hw : json_wf w = true)
    (Ev : digest_of k1 v = Ok d) (Ew : digest_of k2 w = Ok d) :
  (k1 = k2 ∧ norm_value v = norm_value w)
  ∨ collides (value_message k1 v) (value_message k2 w).
Proof. by eapply digest_of_norm. Qed.

Lemma digest_binds_witness :
  let v := JObject [("a", JNumber (PosInt 1))] in
  (ProofKind = ProofKind ∧ norm_value v = norm_value v)
  ∨ @collides Sample.sample (@value_message Sample.sample ProofKind v)
      (@value_message Sample.sample ProofKind v).
Proof.
  apply (@digest_binds Sample.sample Sample.sample_laws ProofKind ProofKind _ _
    (match @digest_of Sample.sample ProofKind (JObject [("a", JNumber (PosInt 1))]) with
     | Ok d => d | _ => {| digest_bytes := EmptyString |} end));
    vm_compute; reflexivity.
Defined.
