(* ===== verification/Evidence.v ===== *)
(** * Identities and signed evidence

    The model of [crates/proof-kernel/src/identity.rs] (principals, key pairs,
    signing and verifying) and [crates/proof-kernel/src/evidence.rs] (the proof
    envelope: its body, its signature, its digest and its JSON form).

    The main theorems: the bytes that are signed determine every field of the
    body ([signing_payload_binds]); signing succeeds exactly for the actor's
    own key and the result verifies under it ([Proof_sign_verifies]); and a
    proof is read back from the JSON it is written as ([Proof_wire_roundtrip]). *)

From S2P Require Import Prelude RustStr Externals Json Canonical Serialized.
From stdpp Require Import options.

(** ** Identities *)

Inductive PrincipalKind : Type := Human | Agent | Service.

#[export] Instance PrincipalKind_eq_dec : EqDecision PrincipalKind.
Proof. solve_decision. Defined.

Record Principal := {
  pr_id : PrincipalId;
  pr_kind : PrincipalKind;
  pr_public_key : string;
  pr_created_at : DateTime;
}.

Record Keypair := {
  kp_principal_id : PrincipalId;
  kp_kind : PrincipalKind;
  kp_created_at : DateTime;
  kp_signing_key : string;
}.

Inductive IdentityError : Type := InvalidEd25519Signature.

(** [Uuid::now_v7], [Utc::now] and the random key are arguments. *)
Definition generate_keypair_for (kind : PrincipalKind) (now_v7 : Uuid)
    (now : DateTime) (random : string) : Keypair :=
  {| kp_principal_id := now_v7; kp_kind := kind; kp_created_at := now;
     kp_signing_key := random |}.

Section identity.
Context `{Externals}.

Definition principal_from_keypair (keypair : Keypair) : Principal :=
  {| pr_id := kp_principal_id keypair;
     pr_kind := kp_kind keypair;
     pr_public_key := ed25519_public (kp_signing_key keypair);
     pr_created_at := kp_created_at keypair |}.

Definition sign (keypair : Keypair) (message : string) : string :=
  ed25519_sign (kp_signing_key keypair) message.

Definition verify (public_key message signature : string) : result IdentityError () :=
  if ed25519_verify public_key message signature
  then Ok () else Err InvalidEd25519Signature.

End identity.

(** ** The proof envelope *)

Record ProofBody := {
  pb_id : Uuid;
  pb_actor : PrincipalId;
  pb_delegation_id : option Uuid;
  pb_operation : string;
  pb_input_digest : ContentDigest;
  pb_output_digest : ContentDigest;
  pb_timestamp : DateTime;
  pb_expires_at : option DateTime;
}.

Record Proof_ := {
  body : ProofBody;
  signature : string;
}.

Inductive ProofError : Type := InvalidSignature | ActorMismatch | Canonicalization.

#[export] Instance ProofBody_eq_dec : EqDecision ProofBody.
Proof. solve_decision. Defined.
#[export] Instance Proof_eq_dec : EqDecision Proof_.
Proof. solve_decision. Defined.
#[export] Instance ProofError_eq_dec : EqDecision ProofError.
Proof. solve_decision. Defined.

Definition is_expired (p : Proof_) (now : DateTime) : bool :=
  match pb_expires_at (body p) with
  | Some expires_at => bool_decide (expires_at <= now)%Z
  | None => false
  end.

Definition zero_signature : string := String.string_of_list_ascii (replicate 64 "000"%char).

Definition Proof_new (id : Uuid) (actor : PrincipalId) (delegation_id : option Uuid)
    (operation : string) (input_digest output_digest : ContentDigest)
    (timestamp : DateTime) : Proof_ :=
  {| body :=
       {| pb_id := id; pb_actor := actor; pb_delegation_id := delegation_id;
          pb_operation := operation; pb_input_digest := input_digest;
          pb_output_digest := output_digest; pb_timestamp := timestamp;
          pb_expires_at := None |};
     signature := zero_signature |}.

(** ** JSON forms *)

(** A [Vec<u8>] is an array of numbers. *)
Definition bytes_value (s : string) : json :=
  JArray (map (λ c, JNumber (PosInt (N_of_ascii c))) (String.list_ascii_of_string s)).

Definition u8_of_value (v : json) : option ascii :=
  match v with
  | JNumber (PosInt n) => if (n <=? 255)%N then Some (ascii_of_N n) else None
  | _ => None
  end.

Definition bytes_of_value (v : json) : option string :=
  match v with
  | JArray items => String.string_of_list_ascii <$> mapM u8_of_value items
  | _ => None
  end.

(** A field of type [Option<T>]: absent and [null] both give [None]. *)
Definition opt_of_value {A} (read : json → option A) (o : option json)
    : option (option A) :=
  match o with
  | None | Some JNull => Some None
  | Some v => Some <$> read v
  end.

Section evidence.
Context `{Externals}.

Definition uuid_value (u : Uuid) : json := JString (uuid_to_string u).
Definition utc_value (t : DateTime) : json := JString (utc_to_rfc3339 t).
Definition uuid_of_value (v : json) : option Uuid := as_str v ≫= uuid_parse_str.
Definition utc_of_value (v : json) : option DateTime := as_str v ≫= utc_parse_rfc3339.

#[export] Instance ProofBody_serialize : Serialize ProofBody := λ b,
  json_object
    ([("id", uuid_value (pb_id b)); ("actor", uuid_value (pb_actor b))]
     ++ opt_field "delegation_id" (uuid_value <$> pb_delegation_id b)
     ++ [("operation", JString (pb_operation b));
         ("input_digest", ContentDigest_serialize (pb_input_digest b));
         ("output_digest", ContentDigest_serialize (pb_output_digest b));
         ("timestamp", utc_value (pb_timestamp b))]
     ++ opt_field "expires_at" (utc_value <$> pb_expires_at b)).

(** The derived reader: an object, or an array with the fields in order. *)
Definition ProofBody_read (id actor : option json) (delegation_id : option json)
    (operation input_digest output_digest timestamp : option json)
    (expires_at : option json) : option ProofBody :=
  i ← id ≫= uuid_of_value;
  a ← actor ≫= uuid_of_value;
  d ← opt_of_value uuid_of_value delegation_id;
  o ← operation ≫= as_str;
  n ← input_digest ≫= ContentDigest_deserialize;
  u ← output_digest ≫= ContentDigest_deserialize;
  t ← timestamp ≫= utc_of_value;
  e ← opt_of_value utc_of_value expires_at;
  Some {| pb_id := i; pb_actor := a; pb_delegation_id := d; pb_operation := o;
          pb_input_digest := n; pb_output_digest := u; pb_timestamp := t;
          pb_expires_at := e |}.

Definition ProofBody_deserialize (v : json) : option ProofBody :=
  match v with
  | JObject _ =>
      let f k := value_get k v in
      ProofBody_read (f "id") (f "actor") (f "delegation_id") (f "operation")
        (f "input_digest") (f "output_digest") (f "timestamp") (f "expires_at")
  | JArray [i; a; d; o; n; u; t] =>
      ProofBody_read (Some i) (Some a) (Some d) (Some o) (Some n) (Some u) (Some t) None
  | JArray [i; a; d; o; n; u; t; e] =>
      ProofBody_read (Some i) (Some a) (Some d) (Some o) (Some n) (Some u) (Some t) (Some e)
  | _ => None
  end.

#[export] Instance Proof_serialize : Serialize Proof_ := λ p,
  json_object [("body", to_value (body p)); ("signature", bytes_value (signature p))].

Definition Proof_read (b s : json) : option Proof_ :=
  bd ← ProofBody_deserialize b;
  sg ← bytes_of_value s;
  if bool_decide (String.length sg = 64) then Some {| body := bd; signature := sg |}
  else None.

Definition Proof_deserialize (v : json) : option Proof_ :=
  match v with
  | JObject _ =>
      b ← value_get "body" v; s ← value_get "signature" v; Proof_read b s
  | JArray [b; s] => Proof_read b s
  | _ => None
  end.

(** ** Signing and verifying *)

Definition signing_payload (p : Proof_) : result ProofError string :=
  map_err (λ _, Canonicalization) (canonicalize_serialized (body p)).

Definition Proof_sign (p : Proof_) (keypair : Keypair) : result ProofError Proof_ :=
  bail ActorMismatch when negb (bool_decide (kp_principal_id keypair = pb_actor (body p)));
  let? payload := signing_payload p in
  Ok {| body := body p; signature := sign keypair payload |}.

Definition Proof_verify (p : Proof_) (public_key : string) : result ProofError () :=
  let? payload := signing_payload p in
  map_err (λ _, InvalidSignature) (verify public_key payload (signature p)).

Definition proof_digest (p : Proof_) : result ProofError ContentDigest :=
  let? canonical := map_err (λ _, Canonicalization) (canonicalize_serialized p) in
  Ok (digest ProofKind canonical).

End evidence.

(** ** Lemmas *)

Section evidence_lemmas.
Context `{HL : ExternalsLaws}.

#[export] Instance uuid_value_inj : Inj (=) (=) uuid_value.
Proof using HL. intros u v [= E]. by apply uuid_to_string_inj. Qed.

#[export] Instance utc_value_inj : Inj (=) (=) utc_value.
Proof using HL. intros u v [= E]. by apply utc_to_rfc3339_inj. Qed.

#[export] Instance ContentDigest_serialize_inj : Inj (=) (=) ContentDigest_serialize.
Proof.
  intros [d] [e] [= E]. f_equal. by rewrite <- (unhex_hex d), <- (unhex_hex e), E.
Qed.

Lemma ProofBody_exact (b : ProofBody) : exact_value (to_value b) = true.
Proof.
  apply exact_json_object. repeat (apply Forall_app; split);
    repeat constructor; apply exact_opt_field; intros v;
    [destruct (pb_delegation_id b)|destruct (pb_expires_at b)]; naive_solver.
Qed.

Lemma ProofBody_to_value_inj (b c : ProofBody) : to_value b = to_value c → b = c.
Proof using HL.
  intros E. unfold to_value, ProofBody_serialize in E.
  field_eq E "id". field_eq E "actor". field_eq E "delegation_id".
  field_eq E "operation". field_eq E "input_digest". field_eq E "output_digest".
  field_eq E "timestamp". field_eq E "expires_at". clear E.
  field_inj. destruct b, c; simpl in *; congruence.
Qed.

Lemma signing_payload_total (p : Proof_) : ∃ s, signing_payload p = Ok s.
Proof.
  unfold signing_payload, canonicalize_serialized.
  destruct (canonicalize_exact (to_value (body p)) (ProofBody_exact _)) as [s ->].
  by eexists.
Qed.

(** C25: a signature binds the whole body.  Two proofs whose signing payloads are
    the same bytes have equal bodies: id, actor, grant, operation, both digests,
    time and expiry. *)
Theorem signing_payload_binds (p q : Proof_) (s : string)
    (Ep : signing_payload p = Ok s) (Eq : signing_payload q = Ok s) :
  body p = body q.
Proof using HL.
  unfold signing_payload, canonicalize_serialized in *. res_inv.
  apply ProofBody_to_value_inj. eapply canonicalize_exact_inj; eauto using ProofBody_exact.
Qed.

(** Signing.  [Proof_sign] fails exactly when the key pair is not the
    actor's, with [ActorMismatch]; otherwise the body is unchanged and the
    signature verifies under the key pair's public key. *)
Theorem Proof_sign_verifies (p : Proof_) (keypair : Keypair) :
  match Proof_sign p keypair with
  | Ok q => kp_principal_id keypair = pb_actor (body p)
            ∧ body q = body p
            ∧ Proof_verify q (pr_public_key (principal_from_keypair keypair)) = Ok ()
  | Err e => e = ActorMismatch ∧ kp_principal_id keypair ≠ pb_actor (body p)
  | Panic => False
  end.
Proof using HL.
  unfold Proof_sign. case_bool_decide as Ha; simpl; [|done].
  destruct (signing_payload_total p) as [s E]. rewrite E. simpl.
  split_and!; [done..|]. unfold Proof_verify, verify, sign.
  replace (signing_payload _) with (signing_payload p) by done. rewrite E. simpl.
  by rewrite ed25519_sign_verify.
Qed.

(** ** Reading back *)

Lemma bytes_roundtrip s : bytes_of_value (bytes_value s) = Some s.
Proof.
  unfold bytes_of_value, bytes_value.
  assert (∀ l, mapM u8_of_value (map (λ c, JNumber (PosInt (N_of_ascii c))) l) = Some l)
    as ->.
  { induction l as [|c l IH]; simpl; [done|].
    pose proof (N_ascii_bounded c). rewrite (proj2 (N.leb_le _ _)) by lia.
    simpl. rewrite IH. simpl. by rewrite ascii_N_embedding. }
  simpl. by rewrite String.string_of_list_ascii_of_string.
Qed.

Lemma uuid_read u : uuid_of_value (uuid_value u) = Some u.
Proof using HL. simpl. apply uuid_parse_to_string. Qed.

Lemma utc_read t : utc_of_value (utc_value t) = Some t.
Proof using HL. simpl. apply utc_parse_to_rfc3339. Qed.

Lemma opt_read {A} (w : A → json) r (o : option A) :
  (∀ a, r (w a) = Some a) → (∀ a, w a ≠ JNull) → opt_of_value r (w <$> o) = Some o.
Proof.
  intros Hr Hn. destruct o as [a|]; simpl; [|done]. specialize (Hr a).
  destruct (w a) eqn:E; [by destruct (Hn a)|..]; by rewrite Hr.
Qed.

Lemma digest_read d :
  String.length (digest_bytes d) = 32 →
  ContentDigest_deserialize (ContentDigest_serialize d) = Some d.
Proof.
  destruct d as [b]. cbn [digest_bytes]. intros Hb. unfold ContentDigest_serialize.
  cbn [ContentDigest_deserialize digest_bytes].
  rewrite hex_length, Hb, hex_lower_hex, bool_decide_true by done. simpl.
  by rewrite unhex_hex.
Qed.

Lemma ProofBody_roundtrip b :
  String.length (digest_bytes (pb_input_digest b)) = 32 →
  String.length (digest_bytes (pb_output_digest b)) = 32 →
  ProofBody_deserialize (to_value b) = Some b.
Proof using HL.
  intros Hi Ho. unfold to_value, ProofBody_serialize.
  set (fs := _ ++ _). unfold ProofBody_deserialize, json_object at 1.
  change (JObject _) with (json_object fs). cbv zeta.
  rewrite !field_get_json_object. unfold fs. field_simpl.
  unfold ProofBody_read. cbn [mbind option_bind].
  rewrite !uuid_read. cbn [mbind option_bind].
  rewrite (opt_read uuid_value), (opt_read utc_value) by auto using uuid_read, utc_read.
  rewrite !digest_read, utc_read by done. by destruct b.
Qed.

(** The JSON form of a proof.  A proof with 32-byte digests and a 64-byte
    signature is read back from the value it is serialized as. *)
Theorem Proof_wire_roundtrip (p : Proof_)
    (Hi : String.length (digest_bytes (pb_input_digest (body p))) = 32)
    (Ho : String.length (digest_bytes (pb_output_digest (body p))) = 32)
    (Hs : String.length (signature p) = 64) :
  Proof_deserialize (to_value p) = Some p.
Proof using HL.
  unfold to_value, Proof_serialize. set (fs := [_; _]).
  unfold Proof_deserialize, json_object at 1. change (JObject _) with (json_object fs).
  rewrite !field_get_json_object. unfold fs. field_simpl.
  cbn [mbind option_bind]. unfold Proof_read. rewrite ProofBody_roundtrip by done.
  cbn [mbind option_bind]. rewrite bytes_roundtrip. cbn [mbind option_bind].
  rewrite bool_decide_true by done. by destruct p.
Qed.

End evidence_lemmas.

(** ** Witnesses *)

Definition sample_key : Keypair := generate_keypair_for Agent 7 1000 "secret".

Definition sample_digest (c : ascii) : ContentDigest :=
  {| digest_bytes := String.string_of_list_ascii (replicate 32 c) |}.

Definition sample_proof : Proof_ :=
  Proof_new 1 7 (Some 3%N) "object.create" (sample_digest "a") (sample_digest "b") 2000.

Definition sample_resigned : Proof_ :=
  {| body := body sample_proof; signature := "another signature" |}.

Definition sample_payload : string :=
  match @signing_payload Sample.sample sample_proof with
  | Ok s => s
  | _ => EmptyString
  end.

Lemma signing_payload_binds_witness : body sample_proof = body sample_resigned.
Proof.
  apply (@signing_payload_binds Sample.sample Sample.sample_laws sample_proof
    sample_resigned sample_payload); vm_compute; reflexivity.
Defined.

Lemma Proof_sign_verifies_witness :
  is_ok (@Proof_sign Sample.sample sample_proof sample_key) = true
  ∧ match @Proof_sign Sample.sample sample_proof sample_key with
    | Ok q => kp_principal_id sample_key = pb_actor (body sample_proof)
              ∧ body q = body sample_proof
              ∧ @Proof_verify Sample.sample q
                  (pr_public_key (@principal_from_keypair Sample.sample sample_key)) = Ok ()
    | Err e => e = ActorMismatch
               ∧ kp_principal_id sample_key ≠ pb_actor (body sample_proof)
    | Panic => False
    end.
Proof.
  split; [vm_compute; reflexivity|].
  exact (@Proof_sign_verifies Sample.sample Sample.sample_laws sample_proof sample_key).
Defined.

Lemma Proof_wire_roundtrip_witness :
  @Proof_deserialize Sample.sample (@to_value _ (@Proof_serialize Sample.sample) sample_proof)
  = Some sample_proof.
Proof.
  apply (@Proof_wire_roundtrip Sample.sample Sample.sample_laws sample_proof);
    reflexivity.
Defined.
