(* ===== verification/OperatorCommon.v ===== *)
(** * Wire types of the operator contracts

    The model of [crates/proof-kernel/src/operator/common.rs]: the strict
    readers of identifiers, times and integers, the names of operations,
    versions, adapters and models, the two digest types with their algorithm
    prefixes, capability sets and budget amounts.

    The main theorems: the digest texts are read back exactly and cannot be
    confused with each other ([ControlDigest_parse_exact],
    [digest_texts_disjoint]); the strict UUID reader accepts one text per
    identifier ([strict_uuid_v7_exact]); operation names are exactly those of
    the grammar [domain.action] ([valid_operation_name_grammar]); capability
    sets are canonical, and the binary search in them decides membership
    ([CapabilitySet_contains_exact]). *)

From S2P Require Import Prelude RustStr Externals Json Canonical Serialized Evidence.
From stdpp Require Import options.

Definition MAX_SAFE_INTEGER : N := 9007199254740991%N.

Section wire.
Context `{Externals}.

Definition uuid_is_v7 (value : Uuid) : bool :=
  (uuid_version_num value =? 7)%N && uuid_variant_rfc4122 value.

(** ** Strict identifiers *)

Definition strict_uuid_v7_serialize (value : Uuid) : option json :=
  if uuid_is_v7 value then Some (JString (uuid_to_string value)) else None.

(** The checks that follow [String::deserialize], shared by the plain and the
    optional reader. *)
Definition strict_uuid_v7_text (wire : string) : option Uuid :=
  value ← uuid_parse_str wire;
  if negb (bool_decide (String.length wire = 36))
     || negb (all_bytes (λ c, negb (is_ascii_uppercase c)) wire)
     || negb (bool_decide (uuid_to_string value = wire))
     || negb (uuid_is_v7 value)
  then None else Some value.

Definition strict_uuid_v7_deserialize (v : json) : option Uuid :=
  as_str v ≫= strict_uuid_v7_text.

Definition strict_optional_uuid_v7_serialize (value : option Uuid) : option json :=
  match value with
  | Some value => strict_uuid_v7_serialize value
  | None => Some JNull
  end.

Definition strict_optional_uuid_v7_deserialize (v : json) : option (option Uuid) :=
  match v with
  | JNull => Some None
  | _ => wire ← as_str v; Some <$> strict_uuid_v7_text wire
  end.

Definition strict_principal_id_serialize (value : PrincipalId) : option json :=
  strict_uuid_v7_serialize value.
Definition strict_principal_id_deserialize (v : json) : option PrincipalId :=
  strict_uuid_v7_deserialize v.

(** ** Strict times *)

Definition byte_at (s : string) (i : nat) : option ascii := String.get i s.

Fixpoint all_digits_except (skip : list nat) (i : nat) (s : string) : bool :=
  match s with
  | EmptyString => true
  | String c s' =>
      (existsb (Nat.eqb i) skip || is_ascii_digit c) && all_digits_except skip (S i) s'
  end.

(** [&value[17..19] > "59"], on two digits: the first is above ['5']. *)
Definition seconds_above_59 (s : string) : bool :=
  match byte_at s 17 with
  | Some c => (N_of_ascii "5" <? N_of_ascii c)%N
  | None => false
  end.

Definition valid_wire (value : string) : bool :=
  let len := String.length value in
  let has i c := bool_decide (byte_at value i = Some c) in
  (20 <=? len)
  && has 4 "-"%char && has 7 "-"%char && has 10 "T"%char && has 13 ":"%char && has 16 ":"%char
  && has (len - 1) "Z"%char
  && all_digits_except [4; 7; 10; 13; 16] 0 (String.substring 0 19 value)
  && negb (seconds_above_59 value)
  && ((len =? 20)
      || ((22 <=? len) && (len <=? 30) && has 19 "."%char
          && all_bytes is_ascii_digit (String.substring 20 (len - 21) value))).

Definition strict_utc_serialize (value : DateTime) : option json :=
  if (1000000000 <=? utc_nanosecond value)%N then None
  else let wire := utc_to_rfc3339 value in
       if valid_wire wire then Some (JString wire) else None.

Definition strict_utc_text (wire : string) : option DateTime :=
  if valid_wire wire then
    value ← utc_parse_rfc3339 wire;
    if (1000000000 <=? utc_nanosecond value)%N then None else Some value
  else None.

Definition strict_utc_deserialize (v : json) : option DateTime :=
  as_str v ≫= strict_utc_text.

Definition strict_optional_utc_serialize (value : option DateTime) : option json :=
  match value with
  | Some value => strict_utc_serialize value
  | None => Some JNull
  end.

Definition strict_optional_utc_deserialize (v : json) : option (option DateTime) :=
  match v with
  | JNull => Some None
  | _ => wire ← as_str v; Some <$> strict_utc_text wire
  end.

End wire.

(** ** Strict integers *)

Definition strict_safe_integer_serialize (value : N) : option json :=
  if (MAX_SAFE_INTEGER <? value)%N then None else Some (JNumber (PosInt value)).

(** [u64::deserialize] accepts the non-negative integers only. *)
Definition u64_of_value (v : json) : option N :=
  match v with
  | JNumber (PosInt n) => Some n
  | _ => None
  end.

Definition strict_safe_integer_deserialize (v : json) : option N :=
  value ← u64_of_value v;
  if (MAX_SAFE_INTEGER <? value)%N then None else Some value.

Definition strict_optional_safe_integer_serialize (value : option N) : option json :=
  match value with
  | Some value => strict_safe_integer_serialize value
  | None => Some JNull
  end.

Definition strict_optional_safe_integer_deserialize (v : json) : option (option N) :=
  match v with
  | JNull => Some None
  | _ => Some <$> strict_safe_integer_deserialize v
  end.

(** ** Names *)

Definition first_byte (p : ascii → bool) (s : string) : bool :=
  match s with
  | EmptyString => false
  | String c _ => p c
  end.

Definition is_lower_ident_byte (c : ascii) : bool :=
  is_ascii_lowercase c || is_ascii_digit c || bool_decide (c = "_"%char).

Definition valid_lower_identifier (value : string) : bool :=
  first_byte is_ascii_lowercase value && all_bytes is_lower_ident_byte value.

Definition valid_operation_name (value : string) : bool :=
  (String.length value <=? 128)
  && match split_once "." value with
     | Some (domain, action) =>
         negb (str_is_empty domain) && negb (str_is_empty action)
         && negb (contains_byte "." action)
         && valid_lower_identifier domain && valid_lower_identifier action
     | None => false
     end.

Definition valid_operation_version (value : string) : bool :=
  match strip_prefix "v" value with
  | None => false
  | Some digits =>
      (String.length value <=? 16) && negb (str_is_empty digits)
      && negb (starts_with "0" digits) && all_bytes is_ascii_digit digits
  end.

Definition valid_adapter_name (value : string) : bool :=
  let len := String.length value in
  (2 <=? len) && (len <=? 64) && first_byte is_ascii_lowercase value
  && all_bytes (λ c, is_ascii_lowercase c || is_ascii_digit c
                     || bool_decide (c = "_"%char) || bool_decide (c = "-"%char)) value.

Definition valid_model_name (value : string) : bool :=
  let len := String.length value in
  (1 <=? len) && (len <=? 128)
  && all_bytes (λ c, is_ascii_lowercase c || is_ascii_uppercase c || is_ascii_digit c
                     || existsb (λ d, bool_decide (c = d))
                          ["."%char; "_"%char; ":"%char; "/"%char; "-"%char]) value.

(** ** Digests *)

Record ControlDigest := { control_bytes : string }.
Record ArtifactDigest := { artifact_bytes : string }.

#[export] Instance ControlDigest_eq_dec : EqDecision ControlDigest.
Proof. solve_decision. Defined.
#[export] Instance ArtifactDigest_eq_dec : EqDecision ArtifactDigest.
Proof. solve_decision. Defined.
#[export] Instance ControlDigest_countable : Countable ControlDigest.
Proof. refine (inj_countable' control_bytes Build_ControlDigest _). by intros []. Defined.

Inductive DigestParseError_t : Type := DigestParseError.

Definition nibble (value : ascii) : result DigestParseError_t N :=
  if is_ascii_digit value then Ok (N_of_ascii value - 48)%N
  else if byte_in "a" "f" value then Ok (N_of_ascii value - 97 + 10)%N
  else Err DigestParseError.

(** [chunks_exact(2)]: a last odd byte is not visited. *)
Fixpoint parse_pairs (value : string) : result DigestParseError_t string :=
  match value with
  | String h (String l rest) =>
      let? hi := nibble h in
      let? lo := nibble l in
      let? bytes := parse_pairs rest in
      Ok (String (ascii_of_N (N.lor (N.shiftl hi 4) lo)) bytes)
  | _ => Ok EmptyString
  end.

Definition parse_hex32 (value : string) : result DigestParseError_t string :=
  bail DigestParseError
    when negb (bool_decide (String.length value = 64)) || negb (all_bytes is_lower_hex value);
  parse_pairs value.

Definition DIGITS : string := "0123456789abcdef".

(** [DIGITS[i]] with [i < 16]. *)
Definition digit_at (i : N) : ascii :=
  match String.get (N.to_nat i) DIGITS with Some c => c | None => "0"%char end.

Fixpoint control_hex (bytes : string) : string :=
  match bytes with
  | EmptyString => EmptyString
  | String b bs =>
      String (digit_at (N.shiftr (N_of_ascii b) 4))
        (String (digit_at (N.land (N_of_ascii b) 15)) (control_hex bs))
  end.

Definition ControlDigest_encoded (d : ControlDigest) : string :=
  "blake3-256:" +:+ control_hex (control_bytes d).

Definition ControlDigest_from_str (value : string) : result DigestParseError_t ControlDigest :=
  let? hex := ok_or (strip_prefix "blake3-256:" value) DigestParseError in
  let? bytes := parse_hex32 hex in
  Ok {| control_bytes := bytes |}.

Definition ArtifactDigest_encoded (d : ArtifactDigest) : string :=
  "sha256:" +:+ control_hex (artifact_bytes d).

Definition ArtifactDigest_from_str (value : string) : result DigestParseError_t ArtifactDigest :=
  let? hex := ok_or (strip_prefix "sha256:" value) DigestParseError in
  let? bytes := parse_hex32 hex in
  Ok {| artifact_bytes := bytes |}.

Definition control_digest `{Externals} (domain_label payload : string) : ControlDigest :=
  {| control_bytes := blake3 (domain_label +:+ NUL +:+ payload) |}.

Definition control_digest_serialized `{Externals} {A} `{Serialize A} (domain_label : string)
    (value : A) : result CanonicalizationError ControlDigest :=
  let? canonical := canonicalize_serialized value in
  Ok (control_digest domain_label canonical).

(** ** Capabilities *)

Inductive Capability : Type :=
| ApprovalDecide | ApprovalRead | AuditRead | RunCancel | RunRead | RunResume.

#[export] Instance Capability_eq_dec : EqDecision Capability.
Proof. solve_decision. Defined.

Definition Capability_ALL : list Capability :=
  [ApprovalDecide; ApprovalRead; AuditRead; RunCancel; RunRead; RunResume].

(** The derived [Ord]: the order of declaration. *)
Definition capability_rank (c : Capability) : nat :=
  match c with
  | ApprovalDecide => 0 | ApprovalRead => 1 | AuditRead => 2
  | RunCancel => 3 | RunRead => 4 | RunResume => 5
  end.

Inductive CapabilitySetError : Type := InvalidLength | NonCanonical.

Record CapabilitySet := { capabilities : list Capability }.

#[export] Instance CapabilitySet_eq_dec : EqDecision CapabilitySet.
Proof. solve_decision. Defined.

Fixpoint windows_increasing (values : list Capability) : bool :=
  match values with
  | a :: ((b :: _) as rest) =>
      negb (capability_rank b <=? capability_rank a) && windows_increasing rest
  | _ => true
  end.

Definition CapabilitySet_new (values : list Capability)
    : result CapabilitySetError CapabilitySet :=
  bail InvalidLength
    when bool_decide (values = []) || (length Capability_ALL <? length values);
  bail NonCanonical when negb (windows_increasing values);
  Ok {| capabilities := values |}.

(** [slice::binary_search]: halve the window [base .. base + size] until one
    candidate is left.  [fuel] bounds the halvings; the length is enough. *)
Fixpoint bsearch (fuel base size : nat) (values : list Capability) (c : Capability) : nat :=
  match fuel with
  | O => base
  | S fuel' =>
      if size <=? 1 then base
      else
        let half := size / 2 in
        let mid := base + half in
        let base' := match values !! mid with
                     | Some m => if capability_rank c <? capability_rank m then base else mid
                     | None => base
                     end in
        bsearch fuel' base' (size - half) values c
  end.

Definition CapabilitySet_contains (s : CapabilitySet) (c : Capability) : bool :=
  let values := capabilities s in
  match values with
  | [] => false
  | _ => bool_decide (values !! bsearch (length values) 0 (length values) values c = Some c)
  end.

(** ** Budgets *)

Record BudgetAmounts := {
  steps : N;
  tokens : N;
  duration_ms : N;
  cost_microusd : N;
  tool_dispatches : N;
}.

#[export] Instance BudgetAmounts_eq_dec : EqDecision BudgetAmounts.
Proof. solve_decision. Defined.

Definition BudgetAmounts_default : BudgetAmounts :=
  {| steps := 0; tokens := 0; duration_ms := 0; cost_microusd := 0; tool_dispatches := 0 |}.

Definition is_safe (b : BudgetAmounts) : bool :=
  forallb (λ value, (value <=? MAX_SAFE_INTEGER)%N)
    [steps b; tokens b; duration_ms b; cost_microusd b; tool_dispatches b].

Definition fits_within (b ceiling : BudgetAmounts) : bool :=
  (steps b <=? steps ceiling)%N && (tokens b <=? tokens ceiling)%N
  && (duration_ms b <=? duration_ms ceiling)%N
  && (cost_microusd b <=? cost_microusd ceiling)%N
  && (tool_dispatches b <=? tool_dispatches ceiling)%N.

(** ** Digest texts *)

Lemma control_hex_hex s : control_hex s = hex s.
Proof.
  induction s as [|b s IH]; cbn [control_hex hex]; [done|]. rewrite IH.
  by destruct b as [[] [] [] [] [] [] [] []].
Qed.

Lemma nibble_lower c : is_lower_hex c = true → nibble c = Ok (to_digit16 c).
Proof.
  destruct c as [[] [] [] [] [] [] [] []]; (discriminate || (intros _; reflexivity)).
Qed.

Lemma lor_nibbles hi lo :
  (hi < 16)%N → (lo < 16)%N → N.lor (N.shiftl hi 4) lo = (hi * 16 + lo)%N.
Proof.
  intros Hh Hl.
  assert (∀ n, (n < 16)%N → n ∈ (N.of_nat <$> seq 0 16)) as C.
  { intros n Hn. apply list_elem_of_fmap. exists (N.to_nat n). rewrite elem_of_seq. lia. }
  apply C in Hh, Hl. clear C.
  repeat (apply elem_of_cons in Hh as [->|Hh]); [..|by apply elem_of_nil in Hh];
    repeat (apply elem_of_cons in Hl as [->|Hl]); try reflexivity; by apply elem_of_nil in Hl.
Qed.

Lemma parse_pairs_unhex n s :
  String.length s = 2 * n → all_bytes is_lower_hex s = true → parse_pairs s = Ok (unhex s).
Proof.
  revert s. induction n as [|n IH]; intros s Hl Hh; [by destruct s|].
  destruct s as [|h [|l s]]; [simpl in Hl; lia..|].
  cbn [all_bytes] in Hh. apply andb_true_iff in Hh as [Hh [Hl' Hs]%andb_true_iff].
  cbn [parse_pairs unhex]. rewrite (nibble_lower h), (nibble_lower l) by done. cbn [rbind].
  rewrite (IH s) by (done || (simpl in Hl; lia)). cbn [rbind].
  by rewrite lor_nibbles by (by apply to_digit16_lower_hex).
Qed.

(** [parse_hex32] inverts the hexadecimal form of 32 bytes and accepts nothing
    else. *)
Lemma parse_hex32_exact s b :
  parse_hex32 s = Ok b ↔ String.length b = 32 ∧ s = control_hex b.
Proof.
  rewrite control_hex_hex. unfold parse_hex32. split.
  - intros [[Hl%negb_false_iff Hh%negb_false_iff]%orb_false_iff E]%bail_Ok.
    apply bool_decide_eq_true in Hl. rewrite (parse_pairs_unhex 32) in E by done.
    injection E as <-. destruct (hex_unhex 32 s) as [-> ->]; auto.
  - intros [Hb ->]. rewrite hex_length, Hb, hex_lower_hex, bool_decide_true by done.
    simpl. rewrite (parse_pairs_unhex 32), unhex_hex; [done| |apply hex_lower_hex].
    by rewrite hex_length, Hb.
Qed.

(** Digest texts.  A text is read as a [ControlDigest] exactly if it is the
    encoding of that digest with 32 bytes, the same for [ArtifactDigest]; and no
    text is read as both. *)
Theorem digest_texts_exact (s : string) :
  (∀ d, ControlDigest_from_str s = Ok d ↔
        String.length (control_bytes d) = 32 ∧ s = ControlDigest_encoded d)
  ∧ (∀ d, ArtifactDigest_from_str s = Ok d ↔
          String.length (artifact_bytes d) = 32 ∧ s = ArtifactDigest_encoded d)
  ∧ (is_ok (ControlDigest_from_str s) && is_ok (ArtifactDigest_from_str s) = false).
Proof.
  unfold ControlDigest_from_str, ArtifactDigest_from_str. split_and!.
  - intros [b]. rewrite rbind_Ok. setoid_rewrite ok_or_Ok. setoid_rewrite strip_prefix_Some.
    setoid_rewrite rbind_Ok. setoid_rewrite parse_hex32_exact. split.
    + by intros (? & -> & b' & [? ->] & [= ->]).
    + intros [? ->]. eexists. split; [done|]. by exists b.
  - intros [b]. rewrite rbind_Ok. setoid_rewrite ok_or_Ok. setoid_rewrite strip_prefix_Some.
    setoid_rewrite rbind_Ok. setoid_rewrite parse_hex32_exact. split.
    + by intros (? & -> & b' & [? ->] & [= ->]).
    + intros [? ->]. eexists. split; [done|]. by exists b.
  - destruct s as [|c s]; [done|]. cbn [strip_prefix].
    destruct (decide ("b"%char = c)) as [<-|]; [|done].
    rewrite (decide_False (P := "s"%char = "b"%char)) by done. by rewrite andb_false_r.
Qed.

(** ** Domain separation of control digests *)

Lemma nul_split l1 l2 p1 p2 :
  contains_byte "000" l1 = false → contains_byte "000" l2 = false →
  l1 +:+ NUL +:+ p1 = l2 +:+ NUL +:+ p2 → l1 = l2 ∧ p1 = p2.
Proof.
  unfold contains_byte. rewrite !negb_false_iff.
  revert l2. induction l1 as [|c l1 IH]; intros [|d l2]; cbn [all_bytes];
    rewrite ?andb_true_iff, ?negb_true_iff, ?bool_decide_eq_false; intros H1 H2 E.
  - by injection E.
  - exfalso. injection E as E _. by destruct H2.
  - exfalso. injection E as E _. by destruct H1.
  - injection E as -> E. destruct (IH l2) as [-> ->]; intuition.
Qed.

(** Control digests are separated by their labels.  For labels without a
    NUL byte, equal control digests have the same label and payload, or the two messages
    that were hashed collide. *)
Theorem control_digest_binds `{Externals} (l1 l2 p1 p2 : string)
    (H1 : contains_byte "000" l1 = false) (H2 : contains_byte "000" l2 = false)
    (E : control_digest l1 p1 = control_digest l2 p2) :
  (l1 = l2 ∧ p1 = p2) ∨ collides (Some (l1 +:+ NUL +:+ p1)) (Some (l2 +:+ NUL +:+ p2)).
Proof.
  apply (f_equal control_bytes), (hash_inj (l1 +:+ NUL +:+ p1)) in E as [P|];
    [left; by apply nul_split|by right].
Qed.

Lemma control_digest_binds_witness :
  let label := "Proof-Operator-Dispatch-Call-v1" in
  (label = label ∧ "{}" = "{}")
  ∨ @collides Sample.sample (Some (label +:+ NUL +:+ "{}")) (Some (label +:+ NUL +:+ "{}")).
Proof.
  apply (@control_digest_binds Sample.sample "Proof-Operator-Dispatch-Call-v1"
    "Proof-Operator-Dispatch-Call-v1" "{}" "{}"); reflexivity.
Defined.

(** ** Names *)

Lemma split_once_Some c s a b :
  split_once c s = Some (a, b) ↔ s = a +:+ String c b ∧ contains_byte c a = false.
Proof.
  unfold contains_byte. rewrite negb_false_iff. split.
  - revert a b. induction s as [|d s IH]; intros a b; cbn [split_once]; [done|].
    case_decide as Hd; [subst d; by intros [= <- <-]|].
    destruct (split_once c s) as [[a' b']|]; [|done]. intros [= <- <-].
    destruct (IH a' b' eq_refl) as [-> Ha]. cbn [all_bytes].
    by rewrite bool_decide_false.
  - intros [-> Ha]. induction a as [|d a IH]; cbn [String.append split_once].
    + by rewrite decide_True.
    + cbn [all_bytes] in Ha. apply andb_true_iff in Ha as [Hd Ha].
      apply negb_true_iff, bool_decide_eq_false in Hd.
      by rewrite decide_False, IH.
Qed.

Lemma ident_no_dot s : valid_lower_identifier s = true → contains_byte "." s = false.
Proof.
  unfold valid_lower_identifier, contains_byte. intros [_ H]%andb_true_iff.
  apply negb_false_iff. induction s as [|c s IH]; cbn [all_bytes] in *; [done|].
  apply andb_true_iff in H as [Hc H]. rewrite IH by done. rewrite andb_true_r.
  apply negb_true_iff, bool_decide_eq_false. by intros <-.
Qed.

(** The grammar of operation names.  A name is valid exactly if it is at most
    128 bytes long and consists of two lower-case identifiers with one dot between
    them. *)
Theorem valid_operation_name_grammar (s : string) :
  valid_operation_name s = true ↔
  String.length s ≤ 128 ∧
  ∃ domain action, s = domain +:+ "." +:+ action
    ∧ valid_lower_identifier domain = true ∧ valid_lower_identifier action = true.
Proof.
  unfold valid_operation_name. rewrite andb_true_iff, Nat.leb_le. split.
  - intros [Hl H]. split; [done|].
    destruct (split_once "." s) as [[d a]|] eqn:E; [|done].
    apply split_once_Some in E as [-> _]. rewrite !andb_true_iff in H.
    exists d, a. naive_solver.
  - intros (Hl & d & a & -> & Hd & Ha). split; [done|].
    rewrite (proj2 (split_once_Some "." _ d a)) by eauto using ident_no_dot.
    rewrite (ident_no_dot a), Hd, Ha by done.
    by destruct d, a.
Qed.

(** ** Capability sets *)

Lemma windows_increasing_cons a l :
  windows_increasing (a :: l) = true →
  windows_increasing l = true ∧ ∀ b, b ∈ l → capability_rank a < capability_rank b.
Proof.
  revert a. induction l as [|x l IH]; intros a Hl.
  { split; [done|]. intros b Hb. by apply elem_of_nil in Hb. }
  cbn [windows_increasing] in Hl. apply andb_true_iff in Hl as [Hx Hl].
  apply negb_true_iff, Nat.leb_gt in Hx. split; [exact Hl|].
  intros b [->|Hb]%elem_of_cons; [done|]. apply IH in Hl as [_ Hl]. specialize (Hl b Hb). lia.
Qed.

Lemma increasing_lookup l i j a b :
  windows_increasing l = true → l !! i = Some a → l !! j = Some b → i < j →
  capability_rank a < capability_rank b.
Proof.
  revert i j. induction l as [|x l IH]; intros i j Hl Hi Hj Hij; [done|].
  apply windows_increasing_cons in Hl as [Hl Hx]. destruct j as [|j]; [lia|].
  destruct i as [|i]; simpl in *.
  - injection Hi as ->. apply Hx. by eapply list_elem_of_lookup_2.
  - eapply IH; eauto. lia.
Qed.

(** The search keeps every position of [c] inside the window. *)
Lemma bsearch_found fuel base size l c p :
  windows_increasing l = true → l !! p = Some c → size ≤ S fuel →
  base ≤ p < base + size → base + size ≤ length l → bsearch fuel base size l c = p.
Proof.
  intros Hl Hp. revert base size.
  induction fuel as [|fuel IH]; intros base size Hf Hb Hs; cbn [bsearch]; [lia|].
  destruct (Nat.leb_spec size 1); [lia|].
  assert (0 < size / 2 < size) as Hh.
  { split; [apply Nat.div_str_pos; lia|apply Nat.div_lt; lia]. }
  destruct (lookup_lt_is_Some_2 l (base + size / 2)) as [m Hm]; [lia|]. rewrite Hm.
  destruct (Nat.ltb_spec (capability_rank c) (capability_rank m)) as [Hlt|Hge].
  - apply IH; [lia| |lia]. split; [lia|].
    assert (size / 2 ≤ size - size / 2).
    { pose proof (Nat.div_mod_eq size 2). pose proof (Nat.mod_upper_bound size 2). lia. }
    destruct (decide (p < base + size / 2)) as [|Hn]; [lia|]. exfalso.
    destruct (decide (p = base + size / 2)) as [->|]; [rewrite Hp in Hm; simplify_eq; lia|].
    pose proof (increasing_lookup l (base + size / 2) p m c Hl Hm Hp). lia.
  - apply IH; [lia| |lia]. split; [|lia].
    destruct (decide (p < base + size / 2)) as [Hn|]; [|lia]. exfalso.
    pose proof (increasing_lookup l p (base + size / 2) c m Hl Hp Hm). lia.
Qed.

(** Capability sets.  A list is accepted exactly if it is strictly increasing
    in the declared order and has one to six members, and the binary search of
    [contains] decides membership in an accepted set. *)
Theorem CapabilitySet_contains_exact (values : list Capability) :
  match CapabilitySet_new values with
  | Ok s => values ≠ [] ∧ StronglySorted (λ a b, capability_rank a < capability_rank b) values
            ∧ ∀ c, CapabilitySet_contains s c = true ↔ c ∈ values
  | Err InvalidLength => values = [] ∨ 6 < length values
  | Err NonCanonical => ∃ i a b, values !! i = Some a ∧ values !! S i = Some b
                          ∧ capability_rank b ≤ capability_rank a
  | Panic => False
  end.
Proof.
  unfold CapabilitySet_new. destruct (_ || _) eqn:Hlen.
  { apply orb_true_iff in Hlen as [H|H]; [left; by apply bool_decide_eq_true in H|right].
    by apply Nat.ltb_lt in H. }
  destruct (windows_increasing values) eqn:Hw; simpl.
  - apply orb_false_iff in Hlen as [Hne _]. apply bool_decide_eq_false in Hne.
    split_and!; [done| |].
    + clear Hne. induction values as [|a l IH]; constructor.
      * apply IH. by apply windows_increasing_cons in Hw as [].
      * apply windows_increasing_cons in Hw as [_ Hw]. by apply Forall_forall.
    + intros c. unfold CapabilitySet_contains. cbn [capabilities].
      destruct values as [|a l] eqn:El; [done|]. rewrite <- El in *.
      rewrite bool_decide_eq_true. split.
      * apply list_elem_of_lookup_2.
      * intros [p Hp]%list_elem_of_lookup. pose proof (lookup_lt_Some _ _ _ Hp).
        rewrite (bsearch_found _ _ _ _ _ p); auto; lia.
  - clear Hlen. induction values as [|a [|b l] IH]; [done..|].
    cbn [windows_increasing] in Hw. apply andb_false_iff in Hw as [Hw|Hw].
    + apply negb_false_iff, Nat.leb_le in Hw. by exists 0, a, b.
    + destruct (IH Hw) as (i & x & y & H1 & H2 & H3). by exists (S i), x, y.
Qed.

(** The strict identifier reader accepts only what the strict writer writes. *)
Lemma strict_uuid_v7_canonical `{Externals} v u :
  strict_uuid_v7_deserialize v = Some u → strict_uuid_v7_serialize u = Some v.
Proof.
  unfold strict_uuid_v7_deserialize, strict_uuid_v7_serialize, strict_uuid_v7_text.
  destruct v; simpl; try done. intros (w & _ & E)%bind_Some.
  destruct (_ || _ || _ || _) eqn:Hc; [done|]. injection E as ->.
  rewrite !orb_false_iff, !negb_false_iff in Hc. destruct Hc as [[[_ _] Ht] ->].
  apply bool_decide_eq_true in Ht. by rewrite Ht.
Qed.
