(* ===== verification/StrictDigest.v ===== *)
(** * Records hashed without one field

    The operator control plane stores records whose digest covers every field but
    the digest itself.  [strict_object] is the object that [serde_json::to_value]
    builds from a record; a strict field that cannot be written (an identifier that
    is not version 7, an integer above 2^53 - 1, a time without an RFC 3339 form)
    makes the whole record unwritable, so objects are optional values.
    [digest_without_field] is the function of [operator/durable.rs] with that name.

    [digest_without_field_binds] is the lemma on which tamper evidence rests: two
    records with the same digest have the same fields, apart from the removed one,
    or the messages that were hashed for them collide. *)

From S2P Require Import Prelude RustStr Externals Json Canonical CanonicalInjective Serialized.
From S2P Require Import Evidence OperatorCommon.
From stdpp Require Import options.

Definition is_some {A} (o : option A) : bool :=
  match o with Some _ => true | None => false end.
Definition is_none {A} (o : option A) : bool := negb (is_some o).
Definition is_some_and {A} (o : option A) (p : A → bool) : bool :=
  match o with Some a => p a | None => false end.
Definition is_err {E A} (c : result E A) : bool :=
  match c with Err _ => true | _ => false end.

Definition Duration_seconds (n : Z) : Z := n * 1000000000.

(** ** Strict objects *)

(** [serde_json::to_value] on a record: the first field that cannot be written
    fails. *)
Fixpoint strict_fields (fields : list (string * option json))
    : option (list (string * json)) :=
  match fields with
  | [] => Some []
  | (k, v) :: fields' =>
      v ← v;
      rest ← strict_fields fields';
      Some ((k, v) :: rest)
  end.

Definition strict_object (fields : list (string * option json)) : option json :=
  json_object <$> strict_fields fields.

(** An absent value is written as [null]. *)
Definition nullable {A} (f : A → option json) (o : option A) : option json :=
  match o with Some a => f a | None => Some JNull end.

(** [as_object_mut()?.remove(field)] *)
Definition remove_field (field : string) (v : json) : option json :=
  match v with
  | JObject m => Some (JObject (obj_remove field m))
  | _ => None
  end.

Definition text (s : string) : option json := Some (JString s).

Section digests.
Context `{Externals}.

Definition control_value (d : ControlDigest) : option json :=
  text (ControlDigest_encoded d).
Definition content_value (d : ContentDigest) : option json :=
  Some (ContentDigest_serialize d).
Definition artifact_value (d : ArtifactDigest) : option json :=
  text (ArtifactDigest_encoded d).

(** [control_digest_serialized(domain, &value).ok()] *)
Definition control_digest_value (domain : string) (v : option json) : option ControlDigest :=
  v ← v;
  match canonicalize v with
  | Ok canonical => Some (control_digest domain canonical)
  | _ => None
  end.

Definition digest_without_field (domain : string) (v : option json) (field : string)
    : option ControlDigest :=
  v ← v;
  control_digest_value domain (remove_field field v).

End digests.

(** ** Presence of optional fields *)

Lemma is_some_true {A} (o : option A) : is_some o = true ↔ ∃ a, o = Some a.
Proof. destruct o; naive_solver. Qed.
Lemma is_none_true {A} (o : option A) : is_none o = true ↔ o = None.
Proof. destruct o; naive_solver. Qed.
Lemma is_some_and_false {A} (o : option A) p :
  is_some_and o p = false ↔ ∀ a, o = Some a → p a = false.
Proof. destruct o; naive_solver. Qed.

(** Presence tests to equations. *)
Ltac presence :=
  repeat match goal with
  | P : is_some _ = true |- _ => apply is_some_true in P as [? P]
  | P : is_none _ = true |- _ => apply is_none_true in P
  | P : is_some_and ?o _ = false, Q : ?o = Some _ |- _ =>
      rewrite Q in P; cbn [is_some_and] in P; res_inv
  | P : (_ <? _)%Z = false |- _ => apply Z.ltb_ge in P
  | P : ?o = Some _, Q : ?o = Some _ |- _ => rewrite P in Q; injection Q as Q; subst
  | P : ?o = None, Q : ?o = Some _ |- _ => congruence
  end.


(** ** Equal digests, equal fields *)

(** The last field with the given key. *)
Fixpoint strict_get (k : string) (fields : list (string * option json)) : option json :=
  match fields with
  | [] => None
  | (k', v) :: fields' =>
      match strict_get k fields' with
      | Some w => Some w
      | None => if String.eqb k k' then v else None
      end
  end.

Definition exact_fields (fields : list (string * option json)) : Prop :=
  Forall (λ kv, ∀ v, kv.2 = Some v → exact_value v = true) fields.

Definition written (fields : list (string * option json)) : Prop :=
  Forall (λ kv, is_Some kv.2) fields.

Lemma strict_fields_Some fs fields :
  strict_fields fs = Some fields →
  written fs ∧ (∀ k, strict_get k fs = field_get k fields)
  ∧ (exact_fields fs → Forall (λ kv, exact_value kv.2 = true) fields).
Proof.
  revert fields. induction fs as [|[k [v|]] fs IH]; intros fields E; cbn in E;
    [injection E as <-; repeat split; constructor| |done].
  destruct (strict_fields fs) as [rest|] eqn:R; cbn in E; [|done]. injection E as <-.
  destruct (IH rest eq_refl) as (W & G & X). split_and!.
  - constructor; [by eexists|done].
  - intros k'. cbn. by rewrite G.
  - intros [Hv Hf]%Forall_cons. constructor; [by apply Hv|by apply X].
Qed.

Lemma obj_get_remove {A} k k' (m : list (string * A)) :
  k ≠ k' → obj_get k (obj_remove k' m) = obj_get k m.
Proof.
  intros N. induction m as [|[k1 v] m IH]; [done|]. cbn [obj_remove].
  case_decide as E; cbn [obj_get].
  - subst. by rewrite decide_False.
  - by rewrite IH.
Qed.

Lemma elem_of_remove {A} k kv (m : list (string * A)) : kv ∈ obj_remove k m → kv ∈ m.
Proof.
  induction m as [|[k1 v] m IH]; [done|]. cbn [obj_remove]. case_decide; [set_solver|].
  rewrite !elem_of_cons. intuition.
Qed.

Lemma remove_sorted {A} k (m : list (string * A)) :
  keys_sorted (map fst m) = true → keys_sorted (map fst (obj_remove k m)) = true.
Proof.
  induction m as [|[k1 v1] m IH]; [done|]. cbn [obj_remove map fst]. intros Hs.
  assert (keys_sorted (map fst m) = true) as Hm.
  { destruct (map fst m); [done|]. cbn [keys_sorted] in Hs. by res_inv. }
  case_decide; [done|]. cbn [map fst]. specialize (IH Hm).
  destruct m as [|[k2 v2] m]; [done|]. cbn [obj_remove] in *. case_decide.
  - subst. cbn [map fst] in *. destruct m as [|[k3 v3] m]; [done|].
    apply keys_sorted_lt in Hs. cbn [map fst keys_sorted] in *.
    apply StronglySorted_inv in Hs as [_ Hlt]. rewrite !Forall_cons in Hlt.
    destruct Hlt as (_ & [Hle Hne] & _).
    rewrite bool_decide_true, bool_decide_false by done. cbn. by res_inv.
  - cbn [map fst] in *. cbn [keys_sorted] in *. res_inv.
    rewrite bool_decide_true, bool_decide_false by done. done.
Qed.

Lemma exact_remove k m :
  exact_value (JObject m) = true → exact_value (JObject (obj_remove k m)) = true.
Proof.
  rewrite !exact_object. intros [Hs Hf]. split; [by apply remove_sorted|].
  rewrite Forall_forall in *. intros kv Hin. apply Hf. by eapply elem_of_remove.
Qed.

(** What [control_digest_value] and [digest_without_field] hash. *)
Definition control_message `{Externals} (domain : string) (v : option json) : option string :=
  v ← v;
  match canonicalize v with
  | Ok canonical => Some (domain +:+ NUL +:+ canonical)
  | _ => None
  end.

Definition message_without_field `{Externals} (domain : string) (v : option json)
    (field : string) : option string :=
  v ← v;
  control_message domain (remove_field field v).

Section binding.
Context `{ExternalsLaws}.

Lemma control_digest_value_inj domain v w d :
  (∀ x, v = Some x → exact_value x = true) → (∀ x, w = Some x → exact_value x = true) →
  control_digest_value domain v = Some d → control_digest_value domain w = Some d →
  v = w ∨ collides (control_message domain v) (control_message domain w).
Proof using All.
  unfold control_digest_value, control_message. destruct v as [v|], w as [w|]; try done. cbn [mbind option_bind].
  intros Xv Xw. destruct (canonicalize v) as [s| |] eqn:Es; try done.
  destruct (canonicalize w) as [t| |] eqn:Et; try done. intros [= <-] [= E].
  symmetry in E. apply hash_inj in E as [P|]; [left|by right].
  apply (inj (String.app _)) in P. injection P as ->. f_equal.
  eapply canonicalize_exact_inj; eauto.
Qed.

(** Two records hashed without the field [field] under one label. *)
Lemma digest_without_field_binds domain fs1 fs2 field d :
  exact_fields fs1 → exact_fields fs2 →
  digest_without_field domain (strict_object fs1) field = Some d →
  digest_without_field domain (strict_object fs2) field = Some d →
  (written fs1 ∧ ∀ k, k ≠ field → strict_get k fs1 = strict_get k fs2)
  ∨ collides (message_without_field domain (strict_object fs1) field)
      (message_without_field domain (strict_object fs2) field).
Proof using All.
  unfold digest_without_field, message_without_field, strict_object. intros X1 X2.
  destruct (strict_fields fs1) as [f1|] eqn:E1; [|done].
  destruct (strict_fields fs2) as [f2|] eqn:E2; [|done].
  cbn [fmap option_fmap option_map mbind option_bind].
  apply strict_fields_Some in E1 as (W & G1 & V1). apply strict_fields_Some in E2 as (_ & G2 & V2).
  specialize (V1 X1). specialize (V2 X2).
  apply exact_json_object in V1, V2. unfold json_object in *. cbn [remove_field].
  intros D1 D2. edestruct control_digest_value_inj as [E|]; [| |exact D1|exact D2| |by right].
  - intros x [= <-]. by apply exact_remove.
  - intros x [= <-]. by apply exact_remove.
  - left. split; [done|]. intros k Hk. injection E as E.
    rewrite G1, G2, <- !field_get_json_object. unfold json_object. cbn [value_get].
    by rewrite <- (obj_get_remove k field), E, obj_get_remove.
Qed.

End binding.

(** ** Writers *)

(** A field writer is faithful: what it writes determines the value, contains no
    floats, and is not [null]. *)
Class Faithful {A} (w : A → option json) : Prop := {
  faithful_inj a b : is_Some (w a) → w a = w b → a = b;
  faithful_exact a v : w a = Some v → exact_value v = true;
  faithful_not_null a : w a ≠ Some JNull;
}.

(** The same for a writer of an optional value, which writes [null]. *)
Class FaithfulField {A} (w : A → option json) : Prop := {
  field_faithful a b : is_Some (w a) → w a = w b → a = b;
  field_exact a v : w a = Some v → exact_value v = true;
}.

#[export] Instance Faithful_field {A} (w : A → option json) : Faithful w → FaithfulField w.
Proof. intros F. split; [apply (faithful_inj (w := w))|apply (faithful_exact (w := w))]. Qed.

#[export] Instance nullable_faithful {A} (w : A → option json) :
  Faithful w → FaithfulField (nullable w).
Proof.
  intros F. split.
  - intros [a|] [b|] S E; cbn in *; try done.
    + f_equal. by eapply faithful_inj.
    + by apply faithful_not_null in E.
    + symmetry in E. by apply faithful_not_null in E.
  - intros [a|] v E; cbn in E; [by eapply faithful_exact|by injection E as <-].
Qed.

#[export] Instance text_faithful {A} (f : A → string) :
  Inj (=) (=) f → Faithful (λ a, text (f a)).
Proof. intros I. split; unfold text; [|by intros ?? [= <-]|done]. intros a b _ [= E]. by apply I. Qed.

#[export] Instance string_faithful : Faithful text.
Proof. apply (text_faithful (λ s, s)). by intros ??. Qed.

#[export] Instance safe_faithful : Faithful strict_safe_integer_serialize.
Proof.
  unfold strict_safe_integer_serialize. split.
  - intros a b. destruct (_ <? a)%N; [by intros [? ?]|]. destruct (_ <? b)%N; [done|].
    by intros _ [= ->].
  - intros a v. destruct (_ <? a)%N eqn:L; [done|]. intros [= <-]. cbn.
    apply N.ltb_ge in L. apply N.leb_le. unfold MAX_SAFE_INTEGER in L. unfold u64_max. lia.
  - intros a. by destruct (_ <? a)%N.
Qed.

#[export] Instance opt_safe_faithful : FaithfulField strict_optional_safe_integer_serialize.
Proof. exact (nullable_faithful strict_safe_integer_serialize safe_faithful). Qed.

Section writers.
Context `{HL : ExternalsLaws}.

#[export] Instance control_faithful : Faithful control_value.
Proof.
  apply (text_faithful ControlDigest_encoded). intros [a] [b] E.
  unfold ControlDigest_encoded in E. apply (inj (String.app _)) in E. f_equal.
  cbn [control_bytes] in E. rewrite !control_hex_hex in E.
  by rewrite <- (unhex_hex a), <- (unhex_hex b), E.
Qed.

#[export] Instance content_faithful : Faithful content_value.
Proof.
  unfold content_value. split; [|by intros ?? [= <-]|done].
  intros a b _ [= E]. by apply (inj ContentDigest_serialize); unfold ContentDigest_serialize; f_equal.
Qed.

#[export] Instance uuid_faithful : Faithful strict_uuid_v7_serialize.
Proof using HL.
  unfold strict_uuid_v7_serialize. split.
  - intros a b. destruct (uuid_is_v7 a); [|by intros [? ?]]. destruct (uuid_is_v7 b); [|done].
    intros _ [= E]. by apply uuid_to_string_inj.
  - intros a v. destruct (uuid_is_v7 a); [|done]. by intros [= <-].
  - intros a. by destruct (uuid_is_v7 a).
Qed.

#[export] Instance principal_id_faithful : Faithful strict_principal_id_serialize.
Proof using HL. exact uuid_faithful. Qed.

#[export] Instance opt_uuid_faithful : FaithfulField strict_optional_uuid_v7_serialize.
Proof using HL. exact (nullable_faithful strict_uuid_v7_serialize uuid_faithful). Qed.

#[export] Instance utc_faithful : Faithful strict_utc_serialize.
Proof using HL.
  unfold strict_utc_serialize. split.
  - intros a b. destruct (_ <=? _)%N; [by intros [? ?]|]. destruct (valid_wire _); [|by intros [? ?]].
    destruct (_ <=? utc_nanosecond b)%N; [done|]. destruct (valid_wire (utc_to_rfc3339 b)); [|done].
    intros _ [= E]. by apply utc_to_rfc3339_inj.
  - intros a v. destruct (_ <=? _)%N; [done|]. destruct (valid_wire _); [|done]. by intros [= <-].
  - intros a. destruct (_ <=? _)%N; [done|]. by destruct (valid_wire _).
Qed.

#[export] Instance opt_utc_faithful : FaithfulField strict_optional_utc_serialize.
Proof using HL. exact (nullable_faithful strict_utc_serialize utc_faithful). Qed.

End writers.

(** ** Records *)

Lemma strict_object_inj fs1 fs2 :
  is_Some (strict_object fs1) → strict_object fs1 = strict_object fs2 →
  written fs1 ∧ ∀ k, strict_get k fs1 = strict_get k fs2.
Proof.
  unfold strict_object. destruct (strict_fields fs1) as [f1|] eqn:E1; [|by intros [? ?]].
  destruct (strict_fields fs2) as [f2|] eqn:E2; [|done]. intros _ E.
  cbn in E. injection E as E.
  apply strict_fields_Some in E1 as (W & G1 & _). apply strict_fields_Some in E2 as (_ & G2 & _).
  split; [done|]. intros k. rewrite G1, G2. apply json_object_fields. unfold json_object.
  by rewrite E.
Qed.

Lemma strict_object_exact fs v :
  exact_fields fs → strict_object fs = Some v → exact_value v = true.
Proof.
  unfold strict_object. destruct (strict_fields fs) as [f|] eqn:E; [|done]. intros X [= <-].
  apply strict_fields_Some in E as (_ & _ & V). apply exact_json_object. by apply V.
Qed.

(** Proves [exact_fields] of a literal list of faithful writers. *)
Ltac exact_fields_tac :=
  unfold exact_fields;
  repeat match goal with |- Forall _ (_ :: _) => apply Forall_cons_2 end;
  [cbn [snd]; intros ?;
   match goal with |- ?w _ = Some _ → _ => apply (field_exact (w := w)) end..
  |apply Forall_nil_2].

(** From [W : written fields] and [G], the equality of the fields with equal keys,
    the equation between the values of the field [k]. *)
Ltac written_inv W :=
  unfold written in W;
  repeat match type of W with
  | Forall _ (_ :: _) => let W1 := fresh W in apply Forall_cons in W as [W1 W]; cbn [snd] in W1
  end; clear W.

Ltac strict_field G k :=
  let F := fresh "F" in
  lazymatch type of G with
  | ∀ _, _ ≠ _ → _ => assert (F := G k ltac:(discriminate))
  | _ => assert (F := G k)
  end;
  cbn [strict_get String.eqb Ascii.eqb Bool.eqb] in F; rewrite ?option_eta in F;
  match type of F with ?w _ = ?w _ => apply (field_faithful (w := w)) in F; [|assumption] end.
