(* ===== verification/Registry.v ===== *)
(** * The operation registry

    The model of [crates/proof-kernel/src/registry.rs]: entries are sorted by
    domain, operation and version, indexed by (operation, version), and loaded
    from the JSON files of a directory tree.

    The main theorems: [find] returns exactly the entry loaded under the key
    ([Registry_find_exact]); a registry is refused exactly when a key occurs
    twice ([Registry_new_duplicates]); the registry does not depend on the
    order in which the directory is read ([Registry_new_order]); and a loaded
    tree contributes its entry files and nothing else ([visit_entry_files]). *)

From S2P Require Import Prelude RustStr Externals Canonical.
From stdpp Require Import options.

Inductive Governance : Type := AgentExecutable | HumanOnly.
Inductive VersionStatus : Type := Active | Deprecated | Sunset.

#[export] Instance Governance_eq_dec : EqDecision Governance.
Proof. solve_decision. Defined.
#[export] Instance VersionStatus_eq_dec : EqDecision VersionStatus.
Proof. solve_decision. Defined.

(** [chrono::NaiveDate] as a day number *)
Notation NaiveDate := Z (only parsing).

Record RegistryEntry := {
  re_operation : string;
  re_domain : string;
  re_version : string;
  re_action : string;
  re_description : string;
  re_input_schema : string;
  re_output_schema : string;
  re_required_authority : string;
  re_governance : Governance;
  re_idempotency : string;
  re_consequence : string;
  re_evidence_contract : string;
  re_benchmark : option string;
  re_status : VersionStatus;
  re_deprecated_since : option NaiveDate;
  re_replacement_operation : option string;
}.

#[export] Instance RegistryEntry_eq_dec : EqDecision RegistryEntry.
Proof. solve_decision. Defined.

Inductive RegistryError : Type :=
| DirectoryMissing (path : string)
| InvalidJson (path source : string)
| Duplicate (operation version : string).

Record Registry := {
  entries : list RegistryEntry;
  index : gmap (string * string) nat;
}.

(** The comparison of [(domain, operation, version)]: lexicographic. *)
Definition entry_le (l r : RegistryEntry) : Prop :=
  if decide (re_domain l = re_domain r) then
    if decide (re_operation l = re_operation r) then
      String.le (re_version l) (re_version r)
    else String.le (re_operation l) (re_operation r)
  else String.le (re_domain l) (re_domain r).

#[export] Instance entry_le_dec : RelDecision entry_le.
Proof. intros l r. unfold entry_le. repeat case_decide; apply _. Defined.

Definition entry_key (e : RegistryEntry) : string * string :=
  (re_operation e, re_version e).

(** The loop of [Registry::new] over the enumerated entries. *)
Fixpoint build_index (position : nat) (es : list RegistryEntry)
    (index : gmap (string * string) nat)
    : result RegistryError (gmap (string * string) nat) :=
  match es with
  | [] => Ok index
  | entry :: es' =>
      bail Duplicate (re_operation entry) (re_version entry)
        when bool_decide (is_Some (index !! entry_key entry));
      build_index (S position) es' (<[entry_key entry := position]> index)
  end.

Definition Registry_new (es : list RegistryEntry) : result RegistryError Registry :=
  let es := merge_sort entry_le es in
  let? index := build_index 0 es ∅ in
  Ok {| entries := es; index := index |}.

(** [self.entries[position]]: the positions of the index are in range, see
    [Registry_find_exact]. *)
Definition find (r : Registry) (operation version : string) : option RegistryEntry :=
  position ← index r !! (operation, version); entries r !! position.

Definition active_operations (r : Registry) : list RegistryEntry :=
  filter (λ entry, re_status entry = Active) (entries r).

(** ** Loading a directory tree *)

(** A directory as [read_dir] lists it.  A file name that is not UTF-8 is
    [None]. *)
Inductive node : Type :=
| File (contents : string)
| Dir (items : list (option string * node)).

Definition is_registry_entry_file (file_name : option string) : bool :=
  match file_name with
  | None => false
  | Some file_name =>
      ends_with ".json" file_name
      && negb (ends_with ".input.json" file_name)
      && negb (ends_with ".output.json" file_name)
  end.

Section loading.
(** [serde_json::from_str::<RegistryEntry>], and the text of a path *)
Context (from_str : string → result string RegistryEntry).
Context (display : list (option string) → string).

Definition read_entry (path : list (option string)) (contents : string)
    : result RegistryError RegistryEntry :=
  map_err (InvalidJson (display path)) (from_str contents).

Fixpoint visit (path : list (option string)) (n : node) (es : list RegistryEntry)
    : result RegistryError (list RegistryEntry) :=
  match n with
  | File _ => Ok es
  | Dir items =>
      (fix loop (items : list (option string * node)) (es : list RegistryEntry) :=
         match items with
         | [] => Ok es
         | (name, item) :: items' =>
             let path' := path ++ [name] in
             let? es := match item with
                        | Dir _ => visit path' item es
                        | File contents =>
                            if is_registry_entry_file name then
                              let? entry := read_entry path' contents in
                              Ok (es ++ [entry])
                            else Ok es
                        end in
             loop items' es
         end) items es
  end.

Definition load_from_directory (path : list (option string)) (directory : option node)
    : result RegistryError Registry :=
  match directory with
  | None => Err (DirectoryMissing (display path))
  | Some d => let? es := visit path d [] in Registry_new es
  end.

(** The entry files of a tree, in reading order. *)
Fixpoint entry_files (path : list (option string)) (n : node)
    : list (list (option string) * string) :=
  match n with
  | File _ => []
  | Dir items =>
      flat_map (λ ni, let '(name, item) := ni in
        match item with
        | Dir _ => entry_files (path ++ [name]) item
        | File contents =>
            if is_registry_entry_file name then [(path ++ [name], contents)] else []
        end) items
  end.

End loading.

(** ** The order on entries *)

#[export] Instance entry_le_total : Total entry_le.
Proof.
  intros l r. unfold entry_le.
  destruct (decide (re_domain l = re_domain r)) as [E|E].
  - rewrite E. rewrite (decide_True (P := re_domain r = re_domain r)) by done.
    destruct (decide (re_operation l = re_operation r)) as [F|F].
    + rewrite F. rewrite (decide_True (P := re_operation r = re_operation r)) by done.
      apply (total String.le).
    + rewrite decide_False by congruence. apply (total String.le).
  - rewrite decide_False by congruence. apply (total String.le).
Qed.

(** One level of the lexicographic order. *)
Lemma lex_trans (a1 a2 a3 : string) (P12 P23 P13 : Prop) :
  (P12 → P23 → P13) →
  (if decide (a1 = a2) then P12 else String.le a1 a2) →
  (if decide (a2 = a3) then P23 else String.le a2 a3) →
  (if decide (a1 = a3) then P13 else String.le a1 a3).
Proof.
  intros HP H12 H23.
  destruct (decide (a1 = a2)) as [->|N12], (decide (a2 = a3)) as [->|N23].
  - auto.
  - done.
  - by rewrite decide_False.
  - rewrite decide_False; [by etrans|]. intros ->. by apply N12, (anti_symm String.le).
Qed.

#[export] Instance entry_le_trans : Transitive entry_le.
Proof.
  intros x y z. unfold entry_le. apply lex_trans, lex_trans. apply transitivity.
Qed.

Lemma entry_le_antisymm l r :
  entry_le l r → entry_le r l → entry_key l = entry_key r.
Proof.
  unfold entry_le, entry_key. intros H1 H2.
  destruct (decide (re_domain l = re_domain r)) as [E|E].
  - rewrite decide_True in H2 by done.
    destruct (decide (re_operation l = re_operation r)) as [F|F].
    + rewrite decide_True in H2 by done. f_equal; [done|]. by apply (anti_symm String.le).
    + rewrite decide_False in H2 by congruence. by destruct F; apply (anti_symm String.le).
  - rewrite decide_False in H2 by congruence. by destruct E; apply (anti_symm String.le).
Qed.

(** ** The index *)

Lemma build_index_not_Panic p es m : build_index p es m ≠ Panic.
Proof. revert p m. induction es; intros; simpl; auto with rust. Qed.

(** A finished index maps the key of each entry to its position. *)
Lemma build_index_lookup p es m r k i :
  build_index p es m = Ok r →
  r !! k = Some i ↔
  m !! k = Some i ∨ ∃ j e, es !! j = Some e ∧ i = p + j ∧ entry_key e = k.
Proof.
  revert p m. induction es as [|e es IH]; intros p m E; cbn [build_index] in E; res_inv.
  - split; [auto|]. intros [?|(j & e & Hj & _)]; [done|]. by rewrite lookup_nil in Hj.
  - rewrite (IH _ _ E). split.
    + intros [Hm|(j & e' & Hj & -> & <-)].
      * apply lookup_insert_Some in Hm as [[<- <-]|[_ Hm]]; [|by left].
        right. exists 0, e. split_and!; [done|lia|done].
      * right. exists (S j), e'. split_and!; [done|lia|done].
    + intros [Hm|(j & e' & Hj & -> & <-)].
      * left. rewrite lookup_insert_ne; [done|]. intros <-. eauto.
      * destruct j as [|j].
        -- injection Hj as ->. left. rewrite Nat.add_0_r. apply lookup_insert_eq.
        -- right. exists j, e'. split_and!; [done|lia|done].
Qed.

(** The index is refused exactly when a key repeats, and the error names it. *)
Lemma build_index_spec p es m :
  match build_index p es m with
  | Ok _ => NoDup (map entry_key es) ∧ ∀ e, e ∈ es → m !! entry_key e = None
  | Err (Duplicate operation version) =>
      ∃ l1 e l2, es = l1 ++ e :: l2 ∧ entry_key e = (operation, version)
        ∧ (is_Some (m !! entry_key e) ∨ entry_key e ∈ map entry_key l1)
  | _ => False
  end.
Proof.
  revert p m. induction es as [|e es IH]; intros p m; cbn [build_index].
  { split; [constructor|]. intros e He. by apply elem_of_nil in He. }
  case_bool_decide as Hm.
  { exists [], e, es. auto. }
  specialize (IH (S p) (<[entry_key e := p]> m)).
  destruct (build_index _ _ _) as [r|[| |op v]|] eqn:E; try done.
  - destruct IH as [Hnd Hfresh]. cbn [map]. rewrite NoDup_cons. split_and!.
    + intros (e' & He' & Hin)%list_elem_of_fmap. apply Hfresh in Hin.
      rewrite He', lookup_insert_eq in Hin. done.
    + done.
    + intros e' [->|Hin]%elem_of_cons; [by apply eq_None_not_Some|].
      apply Hfresh in Hin. by apply lookup_insert_None in Hin as [].
  - destruct IH as (l1 & e' & l2 & -> & Hk & Hd). exists (e :: l1), e', l2.
    split_and!; [done..|]. cbn [map]. rewrite elem_of_cons. destruct Hd as [[i Hi]|Hd]; [|auto].
    apply lookup_insert_Some in Hi as [[-> _]|[_ Hi]]; [auto|left; eauto].
Qed.

Lemma Registry_new_Ok es r :
  Registry_new es = Ok r →
  entries r = merge_sort entry_le es ∧ build_index 0 (entries r) ∅ = Ok (index r).
Proof. unfold Registry_new. intros E. res_inv. done. Qed.

Lemma NoDup_key_unique es e e' :
  NoDup (map entry_key es) → e ∈ es → e' ∈ es → entry_key e = entry_key e' → e = e'.
Proof.
  induction es as [|x es IH]; intros Hnd He He' Hk; [by apply elem_of_nil in He|].
  cbn [map] in Hnd. apply NoDup_cons in Hnd as [Hx Hnd].
  apply elem_of_cons in He as [->|He], He' as [->|He']; auto.
  - destruct Hx. rewrite Hk. by apply list_elem_of_fmap_2.
  - destruct Hx. rewrite <- Hk. by apply list_elem_of_fmap_2.
Qed.

(** Lookup.  In a registry that was built from [es], every position of the
    index is in range, and [find] returns an entry exactly if the entry was
    loaded and has that operation and version. *)
Theorem Registry_find_exact (es : list RegistryEntry) (r : Registry)
    (E : Registry_new es = Ok r) :
  (∀ k i, index r !! k = Some i → i < length (entries r))
  ∧ ∀ operation version entry,
      find r operation version = Some entry ↔
      entry ∈ es ∧ re_operation entry = operation ∧ re_version entry = version.
Proof.
  apply Registry_new_Ok in E as [Hes Hix].
  pose proof (build_index_lookup 0 (entries r) ∅ (index r)) as L.
  split.
  - intros k i Hk. apply (L k i Hix) in Hk as [Hk|(j & e & Hj & -> & _)];
      [by rewrite lookup_empty in Hk|]. by apply lookup_lt_Some in Hj.
  - intros op v entry. unfold find.
    rewrite bind_Some. setoid_rewrite (L (op, v) _ Hix). split.
    + intros (i & [Hk|(j & e & Hj & -> & [= <- <-])] & Hi); [by rewrite lookup_empty in Hk|].
      simpl in Hi. simplify_eq. split; [|done].
      rewrite <- (merge_sort_Permutation entry_le es), <- Hes.
      by eapply list_elem_of_lookup_2.
    + intros (Hin & <- & <-).
      rewrite <- (merge_sort_Permutation entry_le es), <- Hes in Hin.
      apply list_elem_of_lookup in Hin as [i Hi]. exists i. split; [|done].
      right. exists i, entry. done.
Qed.

(** Duplicates.  Building a registry succeeds exactly if no two entries
    share operation and version; the error names a key that repeats. *)
Theorem Registry_new_duplicates (es : list RegistryEntry) :
  match Registry_new es with
  | Ok _ => NoDup (map entry_key es)
  | Err (Duplicate operation version) =>
      ∃ e e' rest, es ≡ₚ e :: e' :: rest
        ∧ entry_key e = (operation, version) ∧ entry_key e' = (operation, version)
  | _ => False
  end.
Proof.
  unfold Registry_new. pose proof (build_index_spec 0 (merge_sort entry_le es) ∅) as S.
  pose proof (merge_sort_Permutation entry_le es) as P.
  destruct (build_index _ _ _) as [r|[| |op v]|]; simpl; try done.
  - destruct S as [S _]. by rewrite P in S.
  - destruct S as (l1 & e & l2 & Hes & Hk & [[i Hi]|Hd]); [by rewrite lookup_empty in Hi|].
    apply list_elem_of_fmap in Hd as (e' & He' & (k1 & k2 & ->)%list_elem_of_split).
    exists e, e', (k1 ++ k2 ++ l2). split_and!; [|done|by rewrite <- He', Hk].
    rewrite <- P, Hes. solve_Permutation.
Qed.

(** Loading order.  Entries read in another order give the same registry. *)
Theorem Registry_new_order (es es' : list RegistryEntry) (r : Registry)
    (P : es ≡ₚ es') (E : Registry_new es = Ok r) :
  Registry_new es' = Ok r.
Proof.
  enough (merge_sort entry_le es = merge_sort entry_le es') as M.
  { by unfold Registry_new in *; rewrite <- M. }
  pose proof (Registry_new_Ok es r E) as [Hes Hix].
  pose proof (build_index_spec 0 (entries r) ∅) as S. rewrite Hix in S. destruct S as [Hnd _].
  rewrite Hes, (merge_sort_Permutation entry_le es) in Hnd.
  apply (StronglySorted_unique_strong entry_le).
  - intros x y Hx Hy Hxy Hyx. rewrite merge_sort_Permutation in Hx, Hy.
    rewrite <- P in Hy. eapply NoDup_key_unique; eauto using entry_le_antisymm.
  - apply StronglySorted_merge_sort; apply _.
  - apply StronglySorted_merge_sort; apply _.
  - by rewrite !merge_sort_Permutation.
Qed.

(** ** Reading the tree *)

Section node_induction.
Context (P : node → Prop).
Hypothesis Hfile : ∀ contents, P (File contents).
Hypothesis Hdir : ∀ items, Forall (λ ni, P ni.2) items → P (Dir items).

Fixpoint node_ind' (n : node) : P n :=
  match n with
  | File contents => Hfile contents
  | Dir items =>
      Hdir items
        ((fix go l : Forall (λ ni, P ni.2) l :=
            match l with
            | [] => @List.Forall_nil _ _
            | (k, x) :: l' => @List.Forall_cons _ _ (k, x) l' (node_ind' x) (go l')
            end) items)
  end.
End node_induction.

Lemma collect_app {E A} (l1 l2 : list (result E A)) :
  collect (l1 ++ l2) =
  let? x := collect l1 in let? y := collect l2 in Ok (x ++ y).
Proof.
  induction l1 as [|c l1 IH]; cbn [app collect rbind]; [by destruct (collect l2)|].
  rewrite IH. destruct c; [|done..]. simpl. destruct (collect l1); [|done..]. simpl.
  by destruct (collect l2).
Qed.

(** What a directory contributes.  Visiting a tree reads its entry files at
    every depth, in reading order, stops at the first that does not parse, and
    appends the entries to those already read; schema files ([.input.json],
    [.output.json]) and other files are never read. *)
Theorem visit_entry_files (from_str : string → result string RegistryEntry)
    (display : list (option string) → string) (path : list (option string))
    (n : node) (es : list RegistryEntry) :
  visit from_str display path n es =
  let? l := collect (map (λ pc, read_entry from_str display pc.1 pc.2)
                       (entry_files path n)) in
  Ok (es ++ l).
Proof.
  revert path es. induction n as [contents|items IH] using node_ind'; intros path es.
  { simpl. by rewrite app_nil_r. }
  cbn [visit entry_files]. revert es. induction IH as [|[name item] items Hi _ IHl];
    intros es; cbn [flat_map].
  { simpl. by rewrite app_nil_r. }
  rewrite map_app, collect_app. cbn [snd] in Hi. destruct item as [contents|its].
  - destruct (is_registry_entry_file name); cbn [map collect rbind fst snd].
    + destruct (read_entry _ _ _ _); [|done..]. simpl. rewrite IHl.
      destruct (collect _); [|done..]. simpl. by rewrite <- app_assoc.
    + rewrite IHl. by destruct (collect _).
  - rewrite Hi. destruct (collect (map _ (entry_files _ (Dir its)))) as [l| |]; [|done..].
    simpl. rewrite IHl. destruct (collect _); [|done..]. simpl. by rewrite <- app_assoc.
Qed.

(** ** Witnesses *)

Definition sample_entry (operation version : string) (governance : Governance)
    (status : VersionStatus) : RegistryEntry :=
  {| re_operation := operation; re_domain := "content"; re_version := version;
     re_action := "content:" +:+ operation; re_description := "sample";
     re_input_schema := "in.json"; re_output_schema := "out.json";
     re_required_authority := "delegation-grant"; re_governance := governance;
     re_idempotency := "required-uuidv7"; re_consequence := "content-mutation";
     re_evidence_contract := "operation-effect-v1"; re_benchmark := None;
     re_status := status; re_deprecated_since := None;
     re_replacement_operation := None |}.

Definition sample_create : RegistryEntry :=
  sample_entry "object.create" "v1" AgentExecutable Active.
Definition sample_delete : RegistryEntry :=
  sample_entry "object.delete" "v1" HumanOnly Active.
Definition sample_retired : RegistryEntry :=
  sample_entry "object.create" "v0" AgentExecutable Sunset.

Definition registry_of (es : list RegistryEntry) : Registry :=
  match Registry_new es with
  | Ok r => r
  | _ => {| entries := []; index := ∅ |}
  end.

Definition sample_registry : Registry :=
  registry_of [sample_delete; sample_create; sample_retired].

Lemma Registry_find_exact_witness :
  (∀ k i, index sample_registry !! k = Some i → i < length (entries sample_registry))
  ∧ ∀ operation version entry,
      find sample_registry operation version = Some entry ↔
      entry ∈ [sample_delete; sample_create; sample_retired]
      ∧ re_operation entry = operation ∧ re_version entry = version.
Proof. apply Registry_find_exact. vm_compute. reflexivity. Defined.

Lemma Registry_new_order_witness :
  Registry_new [sample_create; sample_retired; sample_delete] = Ok sample_registry.
Proof.
  apply (Registry_new_order [sample_delete; sample_create; sample_retired]).
  - solve_Permutation.
  - vm_compute. reflexivity.
Defined.
