(* ===== verification/Approval.v ===== *)
(** * Signed human approvals

    The model of [crates/proof-kernel/src/approval.rs]: an agent signs a request
    for one call, a human signs a decision on that request, and a grant is
    checked against the call before it is executed.  [RecordingApprovalStore]
    is the store that the tests and the embedded runtime use.

    The main theorems: a grant authorises one call only
    ([approval_authorises_one_call]); a decision belongs to one signed request
    ([decision_binds_request]); the honest flow is accepted
    ([approval_flow_accepted]); and stored records are never overwritten
    ([approval_store_immutable]). *)

From S2P Require Import Prelude RustStr Externals Json Canonical CanonicalInjective.
From S2P Require Import Serialized Evidence.
From stdpp Require Import options.

Inductive ApprovalOutcome : Type := Approved | Denied.

Record ApprovalRequest := {
  ar_id : Uuid;
  ar_operation : string;
  ar_version : string;
  ar_input_digest : ContentDigest;
  ar_requested_by : PrincipalId;
  ar_requested_at : DateTime;
  ar_expires_at : DateTime;
}.

Record SignedApprovalRequest := {
  sr_body : ApprovalRequest;
  sr_signature : string;
}.

Record ApprovalDecision := {
  ad_id : Uuid;
  ad_request_id : Uuid;
  ad_request_digest : ContentDigest;
  ad_outcome : ApprovalOutcome;
  ad_decided_by : PrincipalId;
  ad_decided_at : DateTime;
  ad_reason : option string;
}.

Record SignedApprovalDecision := {
  sd_body : ApprovalDecision;
  sd_signature : string;
}.

Record ApprovalGrant := {
  ag_request : SignedApprovalRequest;
  ag_decision : SignedApprovalDecision;
  ag_approver : Principal;
}.

Record ApprovalExecution := {
  ae_request_id : Uuid;
  ae_executed_at : DateTime;
  ae_output : json;
  ae_proof : Proof_;
}.

#[export] Instance ApprovalOutcome_eq_dec : EqDecision ApprovalOutcome.
Proof. solve_decision. Defined.
#[export] Instance ApprovalRequest_eq_dec : EqDecision ApprovalRequest.
Proof. solve_decision. Defined.
#[export] Instance SignedApprovalRequest_eq_dec : EqDecision SignedApprovalRequest.
Proof. solve_decision. Defined.
#[export] Instance ApprovalDecision_eq_dec : EqDecision ApprovalDecision.
Proof. solve_decision. Defined.
#[export] Instance SignedApprovalDecision_eq_dec : EqDecision SignedApprovalDecision.
Proof. solve_decision. Defined.
#[export] Instance ApprovalExecution_eq_dec : EqDecision ApprovalExecution.
Proof. solve_decision. Defined.

Module ApprovalError.
Inductive t : Type :=
| EmptyOperation | EmptyVersion | InvalidWindow | RequesterMustBeAgent
| RequesterMismatch | ApproverMustBeHuman | ApproverMismatch | InvalidSignature
| Canonicalization | RequestMismatch | Denied | Expired | DecisionOutOfWindow
| OperationMismatch | VersionMismatch | InputMismatch | ActorMismatch
| UntrustedApprover.

#[global] Instance t_eq_dec : EqDecision t.
Proof. solve_decision. Defined.
End ApprovalError.

Section approval.
Context `{Externals}.

#[export] Instance ApprovalRequest_serialize : Serialize ApprovalRequest := λ r,
  json_object
    [("id", uuid_value (ar_id r)); ("operation", JString (ar_operation r));
     ("version", JString (ar_version r));
     ("input_digest", ContentDigest_serialize (ar_input_digest r));
     ("requested_by", uuid_value (ar_requested_by r));
     ("requested_at", utc_value (ar_requested_at r));
     ("expires_at", utc_value (ar_expires_at r))].

#[export] Instance SignedApprovalRequest_serialize : Serialize SignedApprovalRequest := λ r,
  json_object [("body", to_value (sr_body r)); ("signature", bytes_value (sr_signature r))].

Definition outcome_value (o : ApprovalOutcome) : json :=
  JString (match o with Approved => "approved" | Denied => "denied" end).

#[export] Instance ApprovalDecision_serialize : Serialize ApprovalDecision := λ d,
  json_object
    ([("id", uuid_value (ad_id d)); ("request_id", uuid_value (ad_request_id d));
      ("request_digest", ContentDigest_serialize (ad_request_digest d));
      ("outcome", outcome_value (ad_outcome d));
      ("decided_by", uuid_value (ad_decided_by d));
      ("decided_at", utc_value (ad_decided_at d))]
     ++ opt_field "reason" (JString <$> ad_reason d)).

#[export] Instance SignedApprovalDecision_serialize : Serialize SignedApprovalDecision := λ d,
  json_object [("body", to_value (sd_body d)); ("signature", bytes_value (sd_signature d))].

Definition canonical_payload {A} `{Serialize A} (value : A)
    : result ApprovalError.t string :=
  map_err (λ _, ApprovalError.Canonicalization) (canonicalize_serialized value).

Definition verify_bytes (public_key payload signature : string)
    : result ApprovalError.t () :=
  bail ApprovalError.InvalidSignature
    when negb (bool_decide (String.length signature = 64));
  map_err (λ _, ApprovalError.InvalidSignature) (verify public_key payload signature).

Definition same_principal (left right : Principal) : bool :=
  bool_decide (pr_id left = pr_id right)
  && bool_decide (pr_kind left = pr_kind right)
  && bool_decide (pr_public_key left = pr_public_key right).

Definition input_digest_of (input : json) : result ApprovalError.t ContentDigest :=
  let? canonical := map_err (λ _, ApprovalError.Canonicalization) (canonicalize input) in
  Ok (digest OperationInput canonical).

(** [Uuid::now_v7()] is the argument [now_v7]. *)
Definition SignedApprovalRequest_create (operation version : string) (input : json)
    (requested_at expires_at : DateTime) (requester : Keypair) (now_v7 : Uuid)
    : result ApprovalError.t SignedApprovalRequest :=
  bail ApprovalError.EmptyOperation when is_blank operation;
  bail ApprovalError.EmptyVersion when is_blank version;
  bail ApprovalError.InvalidWindow when bool_decide (expires_at <= requested_at)%Z;
  bail ApprovalError.RequesterMustBeAgent
    when negb (bool_decide (kp_kind requester = Agent));
  let? input_digest := input_digest_of input in
  let body :=
    {| ar_id := now_v7; ar_operation := operation; ar_version := version;
       ar_input_digest := input_digest; ar_requested_by := kp_principal_id requester;
       ar_requested_at := requested_at; ar_expires_at := expires_at |} in
  let? payload := canonical_payload body in
  Ok {| sr_body := body; sr_signature := sign requester payload |}.

Definition SignedApprovalRequest_verify (r : SignedApprovalRequest) (requester : Principal)
    : result ApprovalError.t () :=
  bail ApprovalError.RequesterMustBeAgent
    when negb (bool_decide (pr_kind requester = Agent));
  bail ApprovalError.RequesterMismatch
    when negb (bool_decide (pr_id requester = ar_requested_by (sr_body r)));
  let? payload := canonical_payload (sr_body r) in
  verify_bytes (pr_public_key requester) payload (sr_signature r).

Definition verify_for_call (r : SignedApprovalRequest) (requester : Principal)
    (operation version : string) (input : json) (actor : PrincipalId) (now : DateTime)
    : result ApprovalError.t () :=
  let? _ := SignedApprovalRequest_verify r requester in
  bail ApprovalError.Expired when bool_decide (ar_expires_at (sr_body r) < now)%Z;
  bail ApprovalError.ActorMismatch
    when negb (bool_decide (actor = pr_id requester))
         || negb (bool_decide (actor = ar_requested_by (sr_body r)));
  bail ApprovalError.OperationMismatch
    when negb (bool_decide (operation = ar_operation (sr_body r)));
  bail ApprovalError.VersionMismatch
    when negb (bool_decide (version = ar_version (sr_body r)));
  let? input_digest := input_digest_of input in
  bail ApprovalError.InputMismatch
    when negb (bool_decide (input_digest = ar_input_digest (sr_body r)));
  Ok ().

Definition SignedApprovalRequest_digest (r : SignedApprovalRequest)
    : result ApprovalError.t ContentDigest :=
  let? canonical := canonical_payload r in Ok (digest ApprovalRequestKind canonical).

Definition SignedApprovalDecision_create (request : SignedApprovalRequest)
    (outcome : ApprovalOutcome) (reason : option string) (decided_at : DateTime)
    (approver : Keypair) (now_v7 : Uuid) : result ApprovalError.t SignedApprovalDecision :=
  bail ApprovalError.ApproverMustBeHuman
    when negb (bool_decide (kp_kind approver = Human));
  bail ApprovalError.DecisionOutOfWindow
    when bool_decide (decided_at < ar_requested_at (sr_body request))%Z
         || bool_decide (ar_expires_at (sr_body request) < decided_at)%Z;
  let? request_digest := SignedApprovalRequest_digest request in
  let body :=
    {| ad_id := now_v7; ad_request_id := ar_id (sr_body request);
       ad_request_digest := request_digest; ad_outcome := outcome;
       ad_decided_by := kp_principal_id approver; ad_decided_at := decided_at;
       ad_reason := match reason with
                    | Some r => if is_blank r then None else Some r
                    | None => None
                    end |} in
  let? payload := canonical_payload body in
  Ok {| sd_body := body; sd_signature := sign approver payload |}.

Definition SignedApprovalDecision_verify (d : SignedApprovalDecision) (approver : Principal)
    : result ApprovalError.t () :=
  bail ApprovalError.ApproverMustBeHuman
    when negb (bool_decide (pr_kind approver = Human));
  bail ApprovalError.ApproverMismatch
    when negb (bool_decide (pr_id approver = ad_decided_by (sd_body d)));
  let? payload := canonical_payload (sd_body d) in
  verify_bytes (pr_public_key approver) payload (sd_signature d).

Definition SignedApprovalDecision_digest (d : SignedApprovalDecision)
    : result ApprovalError.t ContentDigest :=
  let? canonical := canonical_payload d in Ok (digest ApprovalDecisionKind canonical).

(** The digest of the request is computed only if the ids agree ([||]). *)
Definition verify_decision (g : ApprovalGrant) (requester trusted_approver : Principal)
    : result ApprovalError.t () :=
  bail ApprovalError.UntrustedApprover
    when negb (same_principal (ag_approver g) trusted_approver);
  let? _ := SignedApprovalRequest_verify (ag_request g) requester in
  let? _ := SignedApprovalDecision_verify (ag_decision g) (ag_approver g) in
  let request := sr_body (ag_request g) in
  let decision := sd_body (ag_decision g) in
  bail ApprovalError.RequestMismatch
    when negb (bool_decide (ad_request_id decision = ar_id request));
  let? request_digest := SignedApprovalRequest_digest (ag_request g) in
  bail ApprovalError.RequestMismatch
    when negb (bool_decide (ad_request_digest decision = request_digest));
  bail ApprovalError.DecisionOutOfWindow
    when bool_decide (ad_decided_at decision < ar_requested_at request)%Z
         || bool_decide (ar_expires_at request < ad_decided_at decision)%Z;
  Ok ().

Definition verify_for_execution (g : ApprovalGrant) (requester : Keypair)
    (trusted_approver : Principal) (operation version : string) (input : json)
    (actor : PrincipalId) (now : DateTime) : result ApprovalError.t () :=
  let requester_principal := principal_from_keypair requester in
  let? _ := verify_decision g requester_principal trusted_approver in
  bail ApprovalError.Denied
    when negb (bool_decide (ad_outcome (sd_body (ag_decision g)) = Approved));
  verify_for_call (ag_request g) requester_principal operation version input actor now.

End approval.

(** ** The recording store *)

Record RecordingApprovalStore := {
  ras_requests : gmap N SignedApprovalRequest;
  ras_decisions : gmap N SignedApprovalDecision;
  ras_executions : gmap N ApprovalExecution;
  ras_approvers : gmap N Principal;
}.

Definition RecordingApprovalStore_default : RecordingApprovalStore :=
  {| ras_requests := ∅; ras_decisions := ∅; ras_executions := ∅; ras_approvers := ∅ |}.

Section store.
Context `{Externals}.

(** The mutexes are never poisoned: no code panics while it holds one. *)
Definition save_once {T} `{EqDecision T} (records : gmap N T) (key : Uuid) (value : T)
    (record_name : string) : result string () * gmap N T :=
  match records !! key with
  | Some existing =>
      if bool_decide (existing = value) then (Ok (), records)
      else (Err ("conflicting " +:+ record_name +:+ ": " +:+ uuid_to_string key), records)
  | None => (Ok (), <[key := value]> records)
  end.

Definition trust_approver (approver : Principal) : call RecordingApprovalStore string () :=
  λ s, (Ok (), {| ras_requests := ras_requests s; ras_decisions := ras_decisions s;
                  ras_executions := ras_executions s;
                  ras_approvers := <[pr_id approver := approver]> (ras_approvers s) |}).

Definition save_approval_request (request : SignedApprovalRequest)
    : call RecordingApprovalStore string () := λ s,
  let '(r, m) := save_once (ras_requests s) (ar_id (sr_body request)) request
                   "approval request" in
  (r, {| ras_requests := m; ras_decisions := ras_decisions s;
         ras_executions := ras_executions s; ras_approvers := ras_approvers s |}).

Definition load_approval_request (request_id : Uuid)
    : call RecordingApprovalStore string (option SignedApprovalRequest) := λ s,
  (Ok (ras_requests s !! request_id), s).

Definition list_approval_requests
    : call RecordingApprovalStore string (list SignedApprovalRequest) := λ s,
  (Ok (btree_values (ras_requests s)), s).

Definition save_approval_decision (decision : SignedApprovalDecision)
    : call RecordingApprovalStore string () := λ s,
  let '(r, m) := save_once (ras_decisions s) (ad_request_id (sd_body decision)) decision
                   "approval decision" in
  (r, {| ras_requests := ras_requests s; ras_decisions := m;
         ras_executions := ras_executions s; ras_approvers := ras_approvers s |}).

Definition load_approval_decision (request_id : Uuid)
    : call RecordingApprovalStore string (option SignedApprovalDecision) := λ s,
  (Ok (ras_decisions s !! request_id), s).

Definition save_approval_execution (execution : ApprovalExecution)
    : call RecordingApprovalStore string () := λ s,
  let '(r, m) := save_once (ras_executions s) (ae_request_id execution) execution
                   "approval execution" in
  (r, {| ras_requests := ras_requests s; ras_decisions := ras_decisions s;
         ras_executions := m; ras_approvers := ras_approvers s |}).

Definition load_approval_execution (request_id : Uuid)
    : call RecordingApprovalStore string (option ApprovalExecution) := λ s,
  (Ok (ras_executions s !! request_id), s).

Definition load_trusted_approver (approver : PrincipalId)
    : call RecordingApprovalStore string (option Principal) := λ s,
  (Ok (ras_approvers s !! approver), s).

End store.

(** ** Lemmas on the signed values *)

Section approval_lemmas.
Context `{HL : ExternalsLaws}.

Lemma bytes_value_exact s : exact_value (bytes_value s) = true.
Proof.
  unfold bytes_value. apply exact_array, Forall_map, Forall_forall. intros c _. simpl.
  pose proof (N_ascii_bounded c). apply N.leb_le. unfold u64_max. lia.
Qed.

#[export] Instance bytes_value_inj : Inj (=) (=) bytes_value.
Proof.
  intros s t E. apply (inj Some). by rewrite <- (bytes_roundtrip s), <- (bytes_roundtrip t), E.
Qed.

Lemma ApprovalRequest_exact (r : ApprovalRequest) : exact_value (to_value r) = true.
Proof. apply exact_json_object. repeat constructor. Qed.

Lemma SignedApprovalRequest_exact (r : SignedApprovalRequest) :
  exact_value (to_value r) = true.
Proof.
  apply exact_json_object. constructor; [apply ApprovalRequest_exact|].
  constructor; [apply bytes_value_exact|constructor].
Qed.

Lemma ApprovalDecision_exact (d : ApprovalDecision) : exact_value (to_value d) = true.
Proof.
  apply exact_json_object. apply Forall_app. split; [repeat constructor|].
  apply exact_opt_field. destruct (ad_reason d); naive_solver.
Qed.

#[export] Instance ApprovalRequest_to_value_inj :
  Inj (=) (=) (to_value (A := ApprovalRequest)).
Proof using HL.
  intros r q E. unfold to_value, ApprovalRequest_serialize in E.
  field_eq E "id". field_eq E "operation". field_eq E "version".
  field_eq E "input_digest". field_eq E "requested_by". field_eq E "requested_at".
  field_eq E "expires_at". clear E. field_inj. destruct r, q; simpl in *; congruence.
Qed.

Lemma SignedApprovalRequest_to_value_inj (r q : SignedApprovalRequest) :
  to_value r = to_value q → r = q.
Proof using HL.
  intros E. unfold to_value, SignedApprovalRequest_serialize in E.
  field_eq E "body". field_eq E "signature". clear E.
  field_inj.
  destruct r, q; simpl in *; congruence.
Qed.

Lemma canonical_payload_total {A} `{Serialize A} (a : A) :
  exact_value (to_value a) = true → ∃ s, canonical_payload a = Ok s.
Proof.
  intros Ha. unfold canonical_payload, canonicalize_serialized.
  destruct (canonicalize_exact _ Ha) as [s ->]. by eexists.
Qed.

(** The digest of a signed request determines the request. *)
Lemma request_digest_inj r q d :
  SignedApprovalRequest_digest r = Ok d → SignedApprovalRequest_digest q = Ok d →
  r = q ∨ collides (value_message ApprovalRequestKind (to_value r))
            (value_message ApprovalRequestKind (to_value q)).
Proof using HL.
  unfold SignedApprovalRequest_digest, canonical_payload, canonicalize_serialized, value_message.
  intros (s & Es%map_err_Ok & Ed)%rbind_Ok (t & Et%map_err_Ok & E)%rbind_Ok. rewrite Es, Et.
  destruct (digest_inj ApprovalRequestKind ApprovalRequestKind s t) as [[_ ->]|];
    [congruence|left|by right].
  apply SignedApprovalRequest_to_value_inj.
  eapply canonicalize_exact_inj; eauto using SignedApprovalRequest_exact.
Qed.

Lemma input_digest_inj v w d :
  json_wf v = true → json_wf w = true →
  input_digest_of v = Ok d → input_digest_of w = Ok d →
  norm_value v = norm_value w
  ∨ collides (value_message OperationInput v) (value_message OperationInput w).
Proof using HL.
  unfold input_digest_of. intros Hv Hw (s & Es%map_err_Ok & Ed)%rbind_Ok
    (t & Et%map_err_Ok & E)%rbind_Ok.
  destruct (digest_of_norm OperationInput OperationInput v w d) as [[_ ?]|?]; auto.
  - unfold digest_of. rewrite Es. simpl. congruence.
  - unfold digest_of. rewrite Et. simpl. congruence.
Qed.

(** A signature made over a payload passes [verify_bytes]. *)
Lemma verify_bytes_sign kp payload :
  verify_bytes (pr_public_key (principal_from_keypair kp)) payload (sign kp payload) = Ok ().
Proof using HL.
  unfold verify_bytes, verify, sign. simpl.
  rewrite bool_decide_true by apply ed25519_sign_length. simpl.
  by rewrite ed25519_sign_verify.
Qed.

(** What an accepted grant establishes. *)
Lemma verify_for_execution_inv g kp trusted op v input actor now :
  verify_for_execution g kp trusted op v input actor now = Ok () →
  same_principal (ag_approver g) trusted = true
  ∧ ad_outcome (sd_body (ag_decision g)) = Approved
  ∧ SignedApprovalRequest_digest (ag_request g) = Ok (ad_request_digest (sd_body (ag_decision g)))
  ∧ op = ar_operation (sr_body (ag_request g))
  ∧ v = ar_version (sr_body (ag_request g))
  ∧ input_digest_of input = Ok (ar_input_digest (sr_body (ag_request g)))
  ∧ actor = ar_requested_by (sr_body (ag_request g))
  ∧ actor = kp_principal_id kp
  ∧ (now <= ar_expires_at (sr_body (ag_request g)))%Z.
Proof.
  unfold verify_for_execution, verify_decision, verify_for_call. intros E. res_inv.
  split_and!; auto; [congruence..|lia].
Qed.

(** C26: a grant authorises one call.  If the same grant is accepted for two
    executions, both name the same operation, version and actor and the same
    input, up to integral one-digit floats, unless the canonical texts of these two
    inputs are different and have the same hash; and neither is later than the request's
    expiry. *)
Theorem approval_authorises_one_call (g : ApprovalGrant) (kp1 kp2 : Keypair)
    (trusted1 trusted2 : Principal) (op1 op2 v1 v2 : string) (input1 input2 : json)
    (actor1 actor2 : PrincipalId) (now1 now2 : DateTime)
    (Hw1 : json_wf input1 = true) (Hw2 : json_wf input2 = true)
    (E1 : verify_for_execution g kp1 trusted1 op1 v1 input1 actor1 now1 = Ok ())
    (E2 : verify_for_execution g kp2 trusted2 op2 v2 input2 actor2 now2 = Ok ()) :
  op1 = op2 ∧ v1 = v2 ∧ actor1 = actor2
  ∧ (norm_value input1 = norm_value input2
     ∨ collides (value_message OperationInput input1) (value_message OperationInput input2))
  ∧ (now1 <= ar_expires_at (sr_body (ag_request g)))%Z
  ∧ (now2 <= ar_expires_at (sr_body (ag_request g)))%Z.
Proof using HL.
  apply verify_for_execution_inv in E1 as (_ & _ & _ & -> & -> & D1 & -> & _ & T1).
  apply verify_for_execution_inv in E2 as (_ & _ & _ & -> & -> & D2 & -> & _ & T2).
  split_and!; eauto using input_digest_inj.
Qed.

(** A decision belongs to one request.  Two accepted grants that carry the
    same human decision carry the same signed request, or their requests have
    different canonical texts with the same hash. *)
Theorem decision_binds_request (g1 g2 : ApprovalGrant)
    (requester1 requester2 trusted1 trusted2 : Principal)
    (Hd : ag_decision g1 = ag_decision g2)
    (E1 : verify_decision g1 requester1 trusted1 = Ok ())
    (E2 : verify_decision g2 requester2 trusted2 = Ok ()) :
  ag_request g1 = ag_request g2
  ∨ collides (value_message ApprovalRequestKind (to_value (ag_request g1)))
      (value_message ApprovalRequestKind (to_value (ag_request g2))).
Proof using HL.
  unfold verify_decision in *. res_inv.
  eapply request_digest_inj; [|eassumption]. congruence.
Qed.

(** A created request verifies, and says what it was created for. *)
Lemma request_create_verify op v input t0 t1 agent id r :
  SignedApprovalRequest_create op v input t0 t1 agent id = Ok r →
  SignedApprovalRequest_verify r (principal_from_keypair agent) = Ok ()
  ∧ ar_operation (sr_body r) = op ∧ ar_version (sr_body r) = v
  ∧ input_digest_of input = Ok (ar_input_digest (sr_body r))
  ∧ ar_requested_by (sr_body r) = kp_principal_id agent
  ∧ ar_expires_at (sr_body r) = t1.
Proof using HL.
  unfold SignedApprovalRequest_create, SignedApprovalRequest_verify. intros E. res_inv.
  split_and!; try done. cbn [sr_body sr_signature ar_requested_by].
  rewrite !bool_decide_true by done. cbn [negb].
  match goal with E : canonical_payload _ = Ok _ |- _ => rewrite E end.
  apply verify_bytes_sign.
Qed.

(** The same for a created decision. *)
Lemma decision_create_verify r outcome reason td human id d :
  SignedApprovalDecision_create r outcome reason td human id = Ok d →
  SignedApprovalDecision_verify d (principal_from_keypair human) = Ok ()
  ∧ ad_request_id (sd_body d) = ar_id (sr_body r)
  ∧ SignedApprovalRequest_digest r = Ok (ad_request_digest (sd_body d))
  ∧ ad_outcome (sd_body d) = outcome
  ∧ (ar_requested_at (sr_body r) <= ad_decided_at (sd_body d))%Z
  ∧ (ad_decided_at (sd_body d) <= ar_expires_at (sr_body r))%Z.
Proof using HL.
  unfold SignedApprovalDecision_create, SignedApprovalDecision_verify. intros E. res_inv.
  split_and!; try done; cbn [sd_body ad_decided_at]; [|lia..].
  cbn [sd_body sd_signature ad_decided_by]. rewrite !bool_decide_true by done. cbn [negb].
  match goal with E : canonical_payload _ = Ok _ |- _ => rewrite E end.
  apply verify_bytes_sign.
Qed.

(** The honest flow.  A request that an agent created and a decision that a
    human created on it are accepted for that call until the request expires,
    when the outcome is an approval; a denial is reported as [Denied]. *)
Theorem approval_flow_accepted (op v : string) (input : json) (t0 t1 td now : DateTime)
    (agent human : Keypair) (id1 id2 : Uuid) (r : SignedApprovalRequest)
    (outcome : ApprovalOutcome) (reason : option string) (d : SignedApprovalDecision)
    (Er : SignedApprovalRequest_create op v input t0 t1 agent id1 = Ok r)
    (Ed : SignedApprovalDecision_create r outcome reason td human id2 = Ok d)
    (Hnow : (now <= t1)%Z) :
  verify_for_execution
    {| ag_request := r; ag_decision := d; ag_approver := principal_from_keypair human |}
    agent (principal_from_keypair human) op v input (kp_principal_id agent) now
  = match outcome with Approved => Ok () | Denied => Err ApprovalError.Denied end.
Proof using HL.
  apply request_create_verify in Er as (Vr & <- & <- & Di & Hby & <-).
  apply decision_create_verify in Ed as (Vd & Hid & Dr & <- & Hlo & Hhi).
  unfold verify_for_execution, verify_decision, verify_for_call, same_principal.
  cbn [ag_request ag_decision ag_approver]. rewrite Vr, Vd, Dr, Hid. cbn [rbind].
  rewrite !bool_decide_true by done. cbn [andb negb].
  rewrite !(bool_decide_false (_ < _)%Z) by lia. cbn [orb].
  destruct (ad_outcome (sd_body d)); [|by rewrite bool_decide_false].
  rewrite bool_decide_true by done. cbn [negb]. rewrite Di, Hby. cbn [rbind].
  rewrite !bool_decide_true by done. done.
Qed.

(** ** The store never overwrites *)

Inductive approval_op : Type :=
| SaveRequest (r : SignedApprovalRequest)
| SaveDecision (d : SignedApprovalDecision)
| SaveExecution (e : ApprovalExecution)
| TrustApprover (p : Principal).

Definition approval_run (o : approval_op) (s : RecordingApprovalStore)
    : RecordingApprovalStore :=
  match o with
  | SaveRequest r => (save_approval_request r s).2
  | SaveDecision d => (save_approval_decision d s).2
  | SaveExecution e => (save_approval_execution e s).2
  | TrustApprover p => (trust_approver p s).2
  end.

Lemma save_once_spec {T} `{EqDecision T} (m : gmap N T) k v name r m' :
  save_once m k v name = (r, m') →
  m ⊆ m' ∧ (is_ok r = true ↔ m' !! k = Some v).
Proof.
  unfold save_once. destruct (m !! k) as [w|] eqn:E.
  - case_bool_decide; intros [= <- <-]; simpl; split; try done; naive_solver.
  - intros [= <- <-]. split; [by apply insert_subseteq|]. by rewrite lookup_insert_eq.
Qed.

Lemma approval_run_mono o s :
  ras_requests s ⊆ ras_requests (approval_run o s)
  ∧ ras_decisions s ⊆ ras_decisions (approval_run o s)
  ∧ ras_executions s ⊆ ras_executions (approval_run o s).
Proof.
  destruct o; unfold approval_run, save_approval_request, save_approval_decision,
    save_approval_execution, trust_approver; try done;
    destruct (save_once _ _ _ _) as [r' m'] eqn:E; apply save_once_spec in E as [E _]; done.
Qed.

(** Stored approvals are immutable.  A decision that was accepted by the
    store is the one that is loaded for its request after any further sequence
    of store operations; a different decision on the request is refused. *)
Theorem approval_store_immutable (s s1 : RecordingApprovalStore)
    (d : SignedApprovalDecision) (ops : list approval_op)
    (E : save_approval_decision d s = (Ok (), s1)) :
  let s2 := fold_left (λ s o, approval_run o s) ops s1 in
  (load_approval_decision (ad_request_id (sd_body d)) s2).1 = Ok (Some d)
  ∧ ∀ d', ad_request_id (sd_body d') = ad_request_id (sd_body d) → d' ≠ d →
      (save_approval_decision d' s2).2 = s2
      ∧ is_ok (save_approval_decision d' s2).1 = false.
Proof.
  intros s2.
  assert (ras_decisions s2 !! ad_request_id (sd_body d) = Some d) as L.
  { assert (ras_decisions s1 ⊆ ras_decisions s2) as Hsub.
    { unfold s2. clear E s2. revert s1. induction ops as [|o ops IH]; intros s1; simpl; [done|].
      etrans; [apply (approval_run_mono o s1)|apply IH]. }
    eapply lookup_weaken; [|exact Hsub]. unfold save_approval_decision in E.
    destruct (save_once _ _ _ _) as [r' m'] eqn:S. injection E as -> <-.
    apply save_once_spec in S as [_ S]. by apply S. }
  split; [by unfold load_approval_decision; rewrite L|].
  intros d' Hid Hne. unfold save_approval_decision, save_once. rewrite Hid, L.
  rewrite bool_decide_false by done. simpl. split; [by destruct s2|done].
Qed.

End approval_lemmas.

(** ** Witnesses *)

Definition sample_human : Keypair := generate_keypair_for Human 8 900 "human-secret".

Definition sample_input : json := JObject [("title", JString "T")].

Definition sample_request : SignedApprovalRequest :=
  match @SignedApprovalRequest_create Sample.sample "object.delete" "v1" sample_input
          1000 2000 sample_key 21 with
  | Ok r => r
  | _ => {| sr_body := {| ar_id := 0; ar_operation := EmptyString;
              ar_version := EmptyString; ar_input_digest := sample_digest "0";
              ar_requested_by := 0; ar_requested_at := 0; ar_expires_at := 0 |};
            sr_signature := EmptyString |}
  end.

Definition sample_decision : SignedApprovalDecision :=
  match @SignedApprovalDecision_create Sample.sample sample_request Approved
          (Some "checked") 1500 sample_human 22 with
  | Ok d => d
  | _ => {| sd_body := {| ad_id := 0; ad_request_id := 0;
              ad_request_digest := sample_digest "0"; ad_outcome := Denied;
              ad_decided_by := 0; ad_decided_at := 0; ad_reason := None |};
            sd_signature := EmptyString |}
  end.

Definition sample_grant : ApprovalGrant :=
  {| ag_request := sample_request; ag_decision := sample_decision;
     ag_approver := @principal_from_keypair Sample.sample sample_human |}.

Lemma approval_authorises_one_call_witness :
  (norm_value sample_input = norm_value sample_input
   ∨ @collides Sample.sample (@value_message Sample.sample OperationInput sample_input)
       (@value_message Sample.sample OperationInput sample_input))
  ∧ (1600 <= ar_expires_at (sr_body (ag_request sample_grant)))%Z.
Proof.
  destruct (@approval_authorises_one_call Sample.sample Sample.sample_laws sample_grant
    sample_key sample_key (ag_approver sample_grant) (ag_approver sample_grant)
    "object.delete" "object.delete" "v1" "v1" sample_input sample_input 7 7 1600 1700)
    as (_ & _ & _ & H1 & H2 & _); [vm_compute; reflexivity..|].
  exact (conj H1 H2).
Defined.

Lemma decision_binds_request_witness :
  let message := @value_message Sample.sample ApprovalRequestKind
    (@to_value _ (@SignedApprovalRequest_serialize Sample.sample) (ag_request sample_grant)) in
  ag_request sample_grant = ag_request sample_grant ∨ @collides Sample.sample message message.
Proof.
  apply (@decision_binds_request Sample.sample Sample.sample_laws sample_grant sample_grant
    (@principal_from_keypair Sample.sample sample_key)
    (@principal_from_keypair Sample.sample sample_key)
    (ag_approver sample_grant) (ag_approver sample_grant));
    vm_compute; reflexivity.
Defined.

Lemma approval_flow_accepted_witness :
  @verify_for_execution Sample.sample sample_grant sample_key
    (@principal_from_keypair Sample.sample sample_human)
    "object.delete" "v1" sample_input 7 1600 = Ok ().
Proof.
  apply (@approval_flow_accepted Sample.sample Sample.sample_laws "object.delete" "v1"
    sample_input 1000 2000 1500 1600 sample_key sample_human 21 22 sample_request
    Approved (Some "checked") sample_decision).
  - vm_compute. reflexivity.
  - vm_compute. reflexivity.
  - lia.
Defined.

Definition sample_approval_store : RecordingApprovalStore :=
  (@save_approval_decision Sample.sample sample_decision RecordingApprovalStore_default).2.

Lemma approval_store_immutable_witness :
  (load_approval_decision 21
    (fold_left (λ s o, @approval_run Sample.sample o s)
       [SaveRequest sample_request] sample_approval_store)).1 = Ok (Some sample_decision).
Proof.
  apply (@approval_store_immutable Sample.sample RecordingApprovalStore_default
    sample_approval_store sample_decision [SaveRequest sample_request]).
  vm_compute. reflexivity.
Defined.
