(* ===== verification/Agent.v ===== *)
(** * Agent definitions and run events

    The model of [crates/proof-kernel/src/agent.rs]: the tools, limits and
    definition of an agent, the events of a run, and the in-memory store of
    both.

    The main theorem, [AgentDefinition_new_exact], says exactly which
    definitions are accepted. *)

From S2P Require Import Prelude RustStr Externals Json Canonical.
From S2P Require Import Serialized Evidence Approval.
From stdpp Require Import options.

Record AgentTool := {
  tool_operation : string;
  tool_version : string;
}.

Record AgentLimits := {
  max_steps : N;
  max_model_calls : N;
  max_total_tokens : N;
  max_duration_seconds : N;
  max_output_tokens_per_call : N;
  max_cost_microusd : option N;
}.

Definition AgentLimits_default : AgentLimits :=
  {| max_steps := 16; max_model_calls := 24; max_total_tokens := 100000;
     max_duration_seconds := 900; max_output_tokens_per_call := 4096;
     max_cost_microusd := None |}.

Record AgentDefinition := {
  agent_id : Uuid;
  agent_name : string;
  agent_instructions : string;
  agent_provider : string;
  agent_model : string;
  agent_tools : list AgentTool;
  agent_limits : AgentLimits;
  agent_created_at : DateTime;
}.

Module EventKind.
Inductive t : Type :=
| Started | ModelRequested | ModelResponded | ToolRequested | ToolSucceeded | ToolFailed
| ApprovalRequired | ApprovalResumed | Completed | Failed | BudgetExceeded.

#[global] Instance t_eq_dec : EqDecision t.
Proof. solve_decision. Defined.
End EventKind.

Record AgentRunEvent := {
  ev_id : Uuid;
  ev_run_id : Uuid;
  ev_sequence : N;
  ev_kind : EventKind.t;
  ev_data : json;
  ev_data_digest : ContentDigest;
  ev_created_at : DateTime;
}.

#[export] Instance AgentTool_eq_dec : EqDecision AgentTool.
Proof. solve_decision. Defined.
#[export] Instance AgentLimits_eq_dec : EqDecision AgentLimits.
Proof. solve_decision. Defined.
#[export] Instance AgentDefinition_eq_dec : EqDecision AgentDefinition.
Proof. solve_decision. Defined.
#[export] Instance AgentRunEvent_eq_dec : EqDecision AgentRunEvent.
Proof. solve_decision. Defined.

Module AgentDefinitionError.
Inductive t : Type :=
| EmptyName | EmptyInstructions | EmptyProvider | EmptyModel | NoTools
| InvalidOperation (operation : string)
| InvalidVersion (version : string)
| DuplicateTool (operation version : string)
| InvalidLimits | InvalidEventData.
End AgentDefinitionError.

(** [operation.split('.')]: at least two parts, none empty. *)
Definition valid_operation (operation : string) : bool :=
  match split_on "." operation with
  | first :: second :: rest =>
      negb (str_is_empty first) && negb (str_is_empty second)
      && forallb (λ part, negb (str_is_empty part)) rest
  | _ => false
  end.

Definition valid_version (version : string) : bool :=
  match strip_prefix "v" version with
  | Some number => negb (str_is_empty number) && all_bytes is_ascii_digit number
  | None => false
  end.

Definition AgentTool_new (operation version : string)
    : result AgentDefinitionError.t AgentTool :=
  bail AgentDefinitionError.InvalidOperation operation when negb (valid_operation operation);
  bail AgentDefinitionError.InvalidVersion version when negb (valid_version version);
  Ok {| tool_operation := operation; tool_version := version |}.

Definition AgentTool_key (t : AgentTool) : string :=
  tool_operation t +:+ "::" +:+ tool_version t.

Definition AgentLimits_validate (l : AgentLimits) : result AgentDefinitionError.t () :=
  bail AgentDefinitionError.InvalidLimits
    when (max_steps l =? 0)%N || (max_model_calls l =? 0)%N || (max_total_tokens l =? 0)%N
         || (max_duration_seconds l =? 0)%N || (max_output_tokens_per_call l =? 0)%N
         || bool_decide (max_cost_microusd l = Some 0%N);
  Ok ().

(** The loop over the tools, with the set of those already seen. *)
Fixpoint check_tools (unique : list (string * string)) (tools : list AgentTool)
    : result AgentDefinitionError.t () :=
  match tools with
  | [] => Ok ()
  | tool :: tools' =>
      bail AgentDefinitionError.InvalidOperation (tool_operation tool)
        when negb (valid_operation (tool_operation tool));
      bail AgentDefinitionError.InvalidVersion (tool_version tool)
        when negb (valid_version (tool_version tool));
      bail AgentDefinitionError.DuplicateTool (tool_operation tool) (tool_version tool)
        when bool_decide ((tool_operation tool, tool_version tool) ∈ unique);
      check_tools ((tool_operation tool, tool_version tool) :: unique) tools'
  end.

Definition AgentDefinition_new (name instructions provider model : string)
    (tools : list AgentTool) (limits : AgentLimits) (created_at : DateTime) (now_v7 : Uuid)
    : result AgentDefinitionError.t AgentDefinition :=
  bail AgentDefinitionError.EmptyName when is_blank name;
  bail AgentDefinitionError.EmptyInstructions when is_blank instructions;
  bail AgentDefinitionError.EmptyProvider when is_blank provider;
  bail AgentDefinitionError.EmptyModel when is_blank model;
  bail AgentDefinitionError.NoTools when bool_decide (tools = []);
  let? _ := check_tools [] tools in
  let? _ := AgentLimits_validate limits in
  Ok {| agent_id := now_v7; agent_name := name; agent_instructions := instructions;
        agent_provider := provider; agent_model := model; agent_tools := tools;
        agent_limits := limits; agent_created_at := created_at |}.

Definition AgentRunEvent_create `{Externals} (run_id : Uuid) (sequence : N)
    (kind : EventKind.t) (data : json) (created_at : DateTime) (now_v7 : Uuid)
    : result AgentDefinitionError.t AgentRunEvent :=
  let? canonical := map_err (λ _, AgentDefinitionError.InvalidEventData) (canonicalize data) in
  Ok {| ev_id := now_v7; ev_run_id := run_id; ev_sequence := sequence; ev_kind := kind;
        ev_data := data; ev_data_digest := digest AgentEventKind canonical;
        ev_created_at := created_at |}.

(** ** The recording store of definitions and events *)

Record RecordingAgentStore := {
  ra_definitions : gmap N AgentDefinition;
  ra_events : gmap N AgentRunEvent;
}.

Section store.
Context `{Externals}.

Definition same_name_elsewhere (agent : AgentDefinition) (m : gmap N AgentDefinition) : bool :=
  existsb (λ existing, bool_decide (agent_name existing = agent_name agent)
                       && negb (bool_decide (agent_id existing = agent_id agent)))
    (btree_values m).

Definition sequence_taken (event : AgentRunEvent) (m : gmap N AgentRunEvent) : bool :=
  existsb (λ existing, bool_decide (ev_run_id existing = ev_run_id event)
                       && bool_decide (ev_sequence existing = ev_sequence event)
                       && negb (bool_decide (ev_id existing = ev_id event)))
    (btree_values m).

Definition save_agent_definition (agent : AgentDefinition)
    : call RecordingAgentStore string () := λ s,
  if same_name_elsewhere agent (ra_definitions s)
  then (Err ("agent name already exists: " +:+ agent_name agent), s)
  else let '(r, m) := save_once (ra_definitions s) (agent_id agent) agent
                        "agent definition" in
       (r, {| ra_definitions := m; ra_events := ra_events s |}).

Definition load_agent_definition (id : Uuid)
    : call RecordingAgentStore string (option AgentDefinition) := λ s,
  (Ok (ra_definitions s !! id), s).

Definition list_agent_definitions
    : call RecordingAgentStore string (list AgentDefinition) := λ s,
  (Ok (sort_by_key2 (λ a, (agent_created_at a, Z.of_N (agent_id a)))
         (btree_values (ra_definitions s))), s).

Definition save_agent_run_event (event : AgentRunEvent)
    : call RecordingAgentStore string () := λ s,
  if sequence_taken event (ra_events s)
  then (Err ("agent run event sequence " +:+ pretty (ev_sequence event)
             +:+ " already exists for run " +:+ uuid_to_string (ev_run_id event)), s)
  else let '(r, m) := save_once (ra_events s) (ev_id event) event "agent run event" in
       (r, {| ra_definitions := ra_definitions s; ra_events := m |}).

Definition list_agent_run_events (run_id : Uuid)
    : call RecordingAgentStore string (list AgentRunEvent) := λ s,
  (Ok (sort_by_key2 (λ e, (Z.of_N (ev_sequence e), 0%Z))
         (filter (λ e, ev_run_id e = run_id) (btree_values (ra_events s)))), s).

End store.

(** ** Which definitions are accepted *)

(** Every limit is positive. *)
Definition limits_positive (l : AgentLimits) : Prop :=
  (0 < max_steps l)%N ∧ (0 < max_model_calls l)%N ∧ (0 < max_total_tokens l)%N
  ∧ (0 < max_duration_seconds l)%N ∧ (0 < max_output_tokens_per_call l)%N
  ∧ max_cost_microusd l ≠ Some 0%N.

Lemma AgentLimits_validate_Ok l : AgentLimits_validate l = Ok () ↔ limits_positive l.
Proof.
  unfold AgentLimits_validate, limits_positive. rewrite bail_Ok.
  rewrite !orb_false_iff, !N.eqb_neq, bool_decide_eq_false, !N.neq_0_lt_0. intuition.
Qed.

Lemma check_tools_Ok unique tools :
  check_tools unique tools = Ok () ↔
  Forall (λ t, valid_operation (tool_operation t) = true
               ∧ valid_version (tool_version t) = true) tools
  ∧ NoDup tools
  ∧ ∀ t, t ∈ tools → (tool_operation t, tool_version t) ∉ unique.
Proof.
  revert unique. induction tools as [|t tools IH]; intros unique; cbn [check_tools].
  { split; [|done]. intros _. split_and!; [constructor..|]. by intros t Ht%elem_of_nil. }
  rewrite !bail_Ok, !negb_false_iff, bool_decide_eq_false, IH, Forall_cons, NoDup_cons.
  setoid_rewrite elem_of_cons. split.
  - intros (Ho & Hv & Hn & HF & HD & HN). split_and!; auto.
    + intros Hin. apply (HN t Hin). by left.
    + intros t' [->|Hin]; [done|]. intros Hu. apply (HN t' Hin). by right.
  - intros ([[Ho Hv] HF] & [Hnt HD] & HN). split_and!; auto.
    intros t' Hin [E|Hu]; [|by apply (HN t'); auto].
    destruct t, t'. simpl in E. by simplify_eq.
Qed.

(** Agent definitions.  A definition is accepted exactly if its texts are not
    blank, it has tools, each with a well-formed operation and version and none
    twice, and every limit is positive; and then it holds exactly what was given. *)
Theorem AgentDefinition_new_exact (name instructions provider model : string)
    (tools : list AgentTool) (limits : AgentLimits) (created_at : DateTime) (id : Uuid)
    (d : AgentDefinition) :
  AgentDefinition_new name instructions provider model tools limits created_at id = Ok d ↔
  is_blank name = false ∧ is_blank instructions = false ∧ is_blank provider = false
  ∧ is_blank model = false ∧ tools ≠ [] ∧ NoDup tools
  ∧ Forall (λ t, AgentTool_new (tool_operation t) (tool_version t) = Ok t) tools
  ∧ limits_positive limits
  ∧ d = {| agent_id := id; agent_name := name; agent_instructions := instructions;
           agent_provider := provider; agent_model := model; agent_tools := tools;
           agent_limits := limits; agent_created_at := created_at |}.
Proof.
  assert (∀ t, AgentTool_new (tool_operation t) (tool_version t) = Ok t ↔
    valid_operation (tool_operation t) = true ∧ valid_version (tool_version t) = true) as T.
  { intros [o v]. unfold AgentTool_new. simpl. rewrite !bail_Ok, !negb_false_iff.
    naive_solver. }
  unfold AgentDefinition_new. rewrite !bail_Ok, bool_decide_eq_false.
  rewrite rbind_Ok. setoid_rewrite rbind_Ok.
  rewrite (Forall_iff _ _ _ T). split.
  - intros (? & ? & ? & ? & ? & [] & (HF & HD & _)%check_tools_Ok & [] &
      HL%AgentLimits_validate_Ok & [= <-]). auto 10.
  - intros (? & ? & ? & ? & ? & HD & HF & HL & ->). split_and!; auto.
    exists (). split.
    { apply check_tools_Ok. split_and!; auto. intros t _ Hin. by apply elem_of_nil in Hin. }
    exists (). split; [by apply AgentLimits_validate_Ok|done].
Qed.
