(* ===== verification/AgentRun.v ===== *)
(** * Agent runs, steps, checkpoints and evaluations

    The model of the data types and state machines of
    [crates/proof-kernel/src/agent_run.rs].  A method on [&mut self] is a [call]
    on the record, so that what a failed call leaves behind is visible.

    The main theorems are about every record that the methods can produce:
    [run_reachable_invariant] and [run_final] for runs; for steps
    [step_reachable_invariant], with the binding between a succeeded step and its
    proof, and [step_binding_immutable]. *)

From S2P Require Import Prelude RustStr Externals Json Canonical.
From S2P Require Import Serialized Evidence OperatorCommon Approval Agent.
From stdpp Require Import options.

Definition LIVE_RUN_START_CLAIM_SCHEMA : string := "proof-live-run-start-claim/v1".

Inductive AgentRunMode : Type := OneShot | Session.

Module RunStatus.
Inductive t : Type := Queued | Running | WaitingForInput | Succeeded | Failed | Cancelled.

#[global] Instance t_eq_dec : EqDecision t.
Proof. solve_decision. Defined.

Definition is_terminal (s : t) : bool :=
  match s with Succeeded | Failed | Cancelled => true | _ => false end.

(** [{:?}] *)
Definition debug (s : t) : string :=
  match s with
  | Queued => "Queued" | Running => "Running" | WaitingForInput => "WaitingForInput"
  | Succeeded => "Succeeded" | Failed => "Failed" | Cancelled => "Cancelled"
  end.
End RunStatus.

Module StepStatus.
Inductive t : Type := Pending | Running | WaitingForApproval | Succeeded | Failed | Cancelled.

#[global] Instance t_eq_dec : EqDecision t.
Proof. solve_decision. Defined.

Definition is_terminal (s : t) : bool :=
  match s with Succeeded | Failed | Cancelled => true | _ => false end.

Definition debug (s : t) : string :=
  match s with
  | Pending => "Pending" | Running => "Running" | WaitingForApproval => "WaitingForApproval"
  | Succeeded => "Succeeded" | Failed => "Failed" | Cancelled => "Cancelled"
  end.
End StepStatus.

Record AgentRun := {
  run_id : Uuid;
  run_actor : PrincipalId;
  run_agent_id : option Uuid;
  run_mode : AgentRunMode;
  run_goal : string;
  run_status : RunStatus.t;
  run_retry_count : N;
  run_revision : N;
  run_created_at : DateTime;
  run_updated_at : DateTime;
  run_completed_at : option DateTime;
}.

Record AgentRunStep := {
  step_id : Uuid;
  step_run_id : Uuid;
  step_ordinal : N;
  step_attempt : N;
  step_retry_of : option Uuid;
  step_operation : string;
  step_version : string;
  step_input_digest : ContentDigest;
  step_status : StepStatus.t;
  step_approval_request_id : option Uuid;
  step_output : option json;
  step_proof : option Proof_;
  step_error : option string;
  step_revision : N;
  step_created_at : DateTime;
  step_updated_at : DateTime;
  step_started_at : option DateTime;
  step_completed_at : option DateTime;
}.

Record AgentCheckpoint := {
  cp_id : Uuid;
  cp_run_id : Uuid;
  cp_sequence : N;
  cp_state : json;
  cp_state_digest : ContentDigest;
  cp_created_at : DateTime;
}.

Record AgentCheckpointTail := {
  tail_checkpoint_id : Uuid;
  tail_sequence : N;
  tail_state_digest : ContentDigest;
}.

Definition tail_of (c : AgentCheckpoint) : AgentCheckpointTail :=
  {| tail_checkpoint_id := cp_id c; tail_sequence := cp_sequence c;
     tail_state_digest := cp_state_digest c |}.

Inductive AgentEvaluationOutcome : Type := EvaluationPassed | EvaluationFailed.

Record AgentRunEvaluation := {
  eval_id : Uuid;
  eval_run_id : Uuid;
  eval_evaluator : string;
  eval_outcome : AgentEvaluationOutcome;
  eval_score_bps : option N;
  eval_metrics : json;
  eval_summary : option string;
  eval_created_at : DateTime;
}.

Record LiveRunStartClaim := {
  lc_schema : string;
  lc_readiness_binding_digest : ContentDigest;
  lc_setup_digest : ContentDigest;
}.

#[export] Instance AgentRunMode_eq_dec : EqDecision AgentRunMode.
Proof. solve_decision. Defined.
#[export] Instance AgentRun_eq_dec : EqDecision AgentRun.
Proof. solve_decision. Defined.
#[export] Instance AgentRunStep_eq_dec : EqDecision AgentRunStep.
Proof. solve_decision. Defined.
#[export] Instance AgentCheckpoint_eq_dec : EqDecision AgentCheckpoint.
Proof. solve_decision. Defined.
#[export] Instance AgentCheckpointTail_eq_dec : EqDecision AgentCheckpointTail.
Proof. solve_decision. Defined.
#[export] Instance AgentEvaluationOutcome_eq_dec : EqDecision AgentEvaluationOutcome.
Proof. solve_decision. Defined.
#[export] Instance AgentRunEvaluation_eq_dec : EqDecision AgentRunEvaluation.
Proof. solve_decision. Defined.
#[export] Instance LiveRunStartClaim_eq_dec : EqDecision LiveRunStartClaim.
Proof. solve_decision. Defined.

Module AgentRunError.
Inductive t : Type :=
| EmptyGoal | EmptyOperation | EmptyVersion
| InvalidRunTransition (from to : RunStatus.t)
| InvalidStepTransition (from to : StepStatus.t)
| RetryOverflow | ProofMismatch | ApprovalBindingImmutable | InvalidInput
| InvalidCheckpoint | RunNotTerminal | EmptyEvaluator | InvalidScore | InvalidMetrics
| InvalidLiveStartClaim.

Definition to_string (e : t) : string :=
  match e with
  | EmptyGoal => "agent run goal must not be empty"
  | EmptyOperation => "agent run operation must not be empty"
  | EmptyVersion => "agent run version must not be empty"
  | InvalidRunTransition from to =>
      "invalid agent run transition from " +:+ RunStatus.debug from +:+ " to "
      +:+ RunStatus.debug to
  | InvalidStepTransition from to =>
      "invalid agent run step transition from " +:+ StepStatus.debug from +:+ " to "
      +:+ StepStatus.debug to
  | RetryOverflow => "agent run retry count overflow"
  | ProofMismatch => "agent run step proof does not match its operation, input, or output"
  | ApprovalBindingImmutable =>
      "agent run step approval request binding is immutable once assigned"
  | InvalidInput => "agent run step input could not be canonicalized"
  | InvalidCheckpoint => "agent checkpoint state could not be canonicalized"
  | RunNotTerminal => "agent evaluation requires a terminal run"
  | EmptyEvaluator => "agent evaluation evaluator must not be empty"
  | InvalidScore => "agent evaluation score must be between 0 and 10000 basis points"
  | InvalidMetrics => "agent evaluation metrics could not be canonicalized"
  | InvalidLiveStartClaim => "live run start claim or initial evidence bundle is invalid"
  end.
End AgentRunError.

(** ** Runs *)

Definition AgentRun_create (actor : PrincipalId) (agent_id : option Uuid)
    (mode : AgentRunMode) (goal : string) (created_at : DateTime) (now_v7 : Uuid)
    : result AgentRunError.t AgentRun :=
  bail AgentRunError.EmptyGoal when is_blank goal;
  Ok {| run_id := now_v7; run_actor := actor; run_agent_id := agent_id; run_mode := mode;
        run_goal := goal; run_status := RunStatus.Queued; run_retry_count := 0;
        run_revision := 0; run_created_at := created_at; run_updated_at := created_at;
        run_completed_at := None |}.

Definition AgentRun_new actor mode goal created_at now_v7 : result AgentRunError.t AgentRun :=
  AgentRun_create actor None mode goal created_at now_v7.
Definition AgentRun_new_for_agent actor agent_id mode goal created_at now_v7
    : result AgentRunError.t AgentRun :=
  AgentRun_create actor (Some agent_id) mode goal created_at now_v7.

Definition run_transition_valid (from to : RunStatus.t) : bool :=
  match from, to with
  | RunStatus.Queued, RunStatus.Running
  | RunStatus.Queued, RunStatus.Cancelled
  | RunStatus.Running, RunStatus.WaitingForInput
  | RunStatus.Running, RunStatus.Succeeded
  | RunStatus.Running, RunStatus.Failed
  | RunStatus.Running, RunStatus.Cancelled
  | RunStatus.WaitingForInput, RunStatus.Running
  | RunStatus.WaitingForInput, RunStatus.Failed
  | RunStatus.WaitingForInput, RunStatus.Cancelled
  | RunStatus.Failed, RunStatus.Running
  | RunStatus.Failed, RunStatus.Cancelled => true
  | _, _ => false
  end.

(** [self.revision += 1] wraps in a release build. *)
Definition run_transition (next : RunStatus.t) (now : DateTime)
    : call AgentRun AgentRunError.t () := λ r,
  if negb (run_transition_valid (run_status r) next)
  then (Err (AgentRunError.InvalidRunTransition (run_status r) next), r)
  else (Ok (),
    {| run_id := run_id r; run_actor := run_actor r; run_agent_id := run_agent_id r;
       run_mode := run_mode r; run_goal := run_goal r; run_status := next;
       run_retry_count := run_retry_count r;
       run_revision := wrapping_add u64_max (run_revision r) 1;
       run_created_at := run_created_at r; run_updated_at := now;
       run_completed_at := if RunStatus.is_terminal next then Some now else None |}).

Definition run_start (now : DateTime) := run_transition RunStatus.Running now.
Definition run_wait_for_input (now : DateTime) := run_transition RunStatus.WaitingForInput now.
Definition run_succeed (now : DateTime) := run_transition RunStatus.Succeeded now.
Definition run_fail (now : DateTime) := run_transition RunStatus.Failed now.
Definition run_cancel (now : DateTime) := run_transition RunStatus.Cancelled now.

Definition set_retry_count (n : N) (r : AgentRun) : AgentRun :=
  {| run_id := run_id r; run_actor := run_actor r; run_agent_id := run_agent_id r;
     run_mode := run_mode r; run_goal := run_goal r; run_status := run_status r;
     run_retry_count := n; run_revision := run_revision r;
     run_created_at := run_created_at r; run_updated_at := run_updated_at r;
     run_completed_at := run_completed_at r |}.

Definition run_resume (now : DateTime) : call AgentRun AgentRunError.t () := λ r,
  if bool_decide (run_status r = RunStatus.Failed) then
    match checked_add u32_max (run_retry_count r) 1 with
    | None => (Err AgentRunError.RetryOverflow, r)
    | Some n => run_transition RunStatus.Running now (set_retry_count n r)
    end
  else run_transition RunStatus.Running now r.

(** ** Steps *)

Section steps.
Context `{Externals}.

Definition AgentRunStep_new (run_id : Uuid) (ordinal : N) (operation version : string)
    (input : json) (created_at : DateTime) (now_v7 : Uuid)
    : result AgentRunError.t AgentRunStep :=
  bail AgentRunError.EmptyOperation when is_blank operation;
  bail AgentRunError.EmptyVersion when is_blank version;
  let? canonical := map_err (λ _, AgentRunError.InvalidInput) (canonicalize input) in
  Ok {| step_id := now_v7; step_run_id := run_id; step_ordinal := ordinal;
        step_attempt := 1; step_retry_of := None; step_operation := operation;
        step_version := version; step_input_digest := digest OperationInput canonical;
        step_status := StepStatus.Pending; step_approval_request_id := None;
        step_output := None; step_proof := None; step_error := None; step_revision := 0;
        step_created_at := created_at; step_updated_at := created_at;
        step_started_at := None; step_completed_at := None |}.

Definition step_transition_valid (from to : StepStatus.t) : bool :=
  match from, to with
  | StepStatus.Pending, StepStatus.Running
  | StepStatus.Pending, StepStatus.Cancelled
  | StepStatus.Running, StepStatus.WaitingForApproval
  | StepStatus.Running, StepStatus.Succeeded
  | StepStatus.Running, StepStatus.Failed
  | StepStatus.Running, StepStatus.Cancelled
  | StepStatus.WaitingForApproval, StepStatus.Running
  | StepStatus.WaitingForApproval, StepStatus.Failed
  | StepStatus.WaitingForApproval, StepStatus.Cancelled => true
  | _, _ => false
  end.

Definition step_transition (next : StepStatus.t) (now : DateTime)
    : call AgentRunStep AgentRunError.t () := λ s,
  if negb (step_transition_valid (step_status s) next)
  then (Err (AgentRunError.InvalidStepTransition (step_status s) next), s)
  else (Ok (),
    {| step_id := step_id s; step_run_id := step_run_id s; step_ordinal := step_ordinal s;
       step_attempt := step_attempt s; step_retry_of := step_retry_of s;
       step_operation := step_operation s; step_version := step_version s;
       step_input_digest := step_input_digest s; step_status := next;
       step_approval_request_id := step_approval_request_id s;
       step_output := step_output s; step_proof := step_proof s;
       step_error := step_error s;
       step_revision := wrapping_add u64_max (step_revision s) 1;
       step_created_at := step_created_at s; step_updated_at := now;
       step_started_at := step_started_at s;
       step_completed_at := if StepStatus.is_terminal next then Some now else None |}).

(** The fields that a method assigns after its transition. *)
Definition step_assign (approval : option Uuid) (output : option json)
    (proof : option Proof_) (error : option string) (started_at : option DateTime)
    : call AgentRunStep AgentRunError.t () := λ s,
  (Ok (),
   {| step_id := step_id s; step_run_id := step_run_id s; step_ordinal := step_ordinal s;
      step_attempt := step_attempt s; step_retry_of := step_retry_of s;
      step_operation := step_operation s; step_version := step_version s;
      step_input_digest := step_input_digest s; step_status := step_status s;
      step_approval_request_id := approval; step_output := output; step_proof := proof;
      step_error := error; step_revision := step_revision s;
      step_created_at := step_created_at s; step_updated_at := step_updated_at s;
      step_started_at := started_at; step_completed_at := step_completed_at s |}).

Definition step_start (now : DateTime) : call AgentRunStep AgentRunError.t () := λ s,
  (let! _ := step_transition StepStatus.Running now in
   step_assign (step_approval_request_id s) (step_output s) (step_proof s) (step_error s)
     (match step_started_at s with Some t => Some t | None => Some now end)) s.

Definition step_wait_for_approval (approval_request_id : Uuid) (now : DateTime)
    : call AgentRunStep AgentRunError.t () := λ s,
  if match step_approval_request_id s with
     | Some existing => negb (bool_decide (existing = approval_request_id))
     | None => false
     end
  then (Err AgentRunError.ApprovalBindingImmutable, s)
  else (let! _ := step_transition StepStatus.WaitingForApproval now in
        step_assign (Some approval_request_id) (step_output s) (step_proof s) (step_error s)
          (step_started_at s)) s.

Definition step_resume_from_approval (now : DateTime)
    : call AgentRunStep AgentRunError.t () :=
  step_transition StepStatus.Running now.

Definition step_succeed (output : json) (proof : Proof_) (now : DateTime)
    : call AgentRunStep AgentRunError.t () := λ s,
  (let! canonical := lift (map_err (λ _, AgentRunError.ProofMismatch) (canonicalize output)) in
   stop AgentRunError.ProofMismatch
     when negb (bool_decide (pb_operation (body proof)
                             = step_operation s +:+ "::" +:+ step_version s))
          || negb (bool_decide (pb_input_digest (body proof) = step_input_digest s))
          || negb (bool_decide (pb_output_digest (body proof)
                                = digest OperationOutput canonical));
   let! _ := step_transition StepStatus.Succeeded now in
   step_assign (step_approval_request_id s) (Some output) (Some proof) None
     (step_started_at s)) s.

Definition step_fail (error : string) (now : DateTime)
    : call AgentRunStep AgentRunError.t () := λ s,
  (let! _ := step_transition StepStatus.Failed now in
   step_assign (step_approval_request_id s) (step_output s) (step_proof s) (Some error)
     (step_started_at s)) s.

Definition step_cancel (now : DateTime) : call AgentRunStep AgentRunError.t () :=
  step_transition StepStatus.Cancelled now.

Definition step_retry (s : AgentRunStep) (created_at : DateTime) (now_v7 : Uuid)
    : result AgentRunError.t AgentRunStep :=
  bail AgentRunError.InvalidStepTransition (step_status s) StepStatus.Pending
    when match step_status s with
         | StepStatus.Failed | StepStatus.Cancelled => false
         | _ => true
         end;
  let? attempt := ok_or (checked_add u32_max (step_attempt s) 1)
                    AgentRunError.RetryOverflow in
  Ok {| step_id := now_v7; step_run_id := step_run_id s; step_ordinal := step_ordinal s;
        step_attempt := attempt; step_retry_of := Some (step_id s);
        step_operation := step_operation s; step_version := step_version s;
        step_input_digest := step_input_digest s; step_status := StepStatus.Pending;
        step_approval_request_id := None; step_output := None; step_proof := None;
        step_error := None; step_revision := 0; step_created_at := created_at;
        step_updated_at := created_at; step_started_at := None;
        step_completed_at := None |}.

(** ** Checkpoints and evaluations *)

Definition AgentCheckpoint_create (run_id : Uuid) (sequence : N) (state : json)
    (created_at : DateTime) (now_v7 : Uuid) : result AgentRunError.t AgentCheckpoint :=
  let? canonical := map_err (λ _, AgentRunError.InvalidCheckpoint) (canonicalize state) in
  Ok {| cp_id := now_v7; cp_run_id := run_id; cp_sequence := sequence; cp_state := state;
        cp_state_digest := digest AgentCheckpointKind canonical;
        cp_created_at := created_at |}.

Definition AgentRunEvaluation_create (run : AgentRun) (evaluator : string)
    (outcome : AgentEvaluationOutcome) (score_bps : option N) (metrics : json)
    (summary : option string) (created_at : DateTime) (now_v7 : Uuid)
    : result AgentRunError.t AgentRunEvaluation :=
  bail AgentRunError.RunNotTerminal when negb (RunStatus.is_terminal (run_status run));
  bail AgentRunError.EmptyEvaluator when is_blank evaluator;
  bail AgentRunError.InvalidScore
    when match score_bps with Some score => (10000 <? score)%N | None => false end;
  let? _ := map_err (λ _, AgentRunError.InvalidMetrics) (canonicalize metrics) in
  Ok {| eval_id := now_v7; eval_run_id := run_id run; eval_evaluator := evaluator;
        eval_outcome := outcome; eval_score_bps := score_bps; eval_metrics := metrics;
        eval_summary := match summary with
                        | Some s => if is_blank s then None else Some s
                        | None => None
                        end;
        eval_created_at := created_at |}.

(** ** Live-start claims *)

Definition zero_digest : ContentDigest :=
  {| digest_bytes := String.string_of_list_ascii (replicate 32 "000"%char) |}.

Definition LiveRunStartClaim_create (readiness_binding_digest setup_digest : ContentDigest)
    : result AgentRunError.t LiveRunStartClaim :=
  bail AgentRunError.InvalidLiveStartClaim
    when bool_decide (readiness_binding_digest = zero_digest)
         || bool_decide (setup_digest = zero_digest);
  Ok {| lc_schema := LIVE_RUN_START_CLAIM_SCHEMA;
        lc_readiness_binding_digest := readiness_binding_digest;
        lc_setup_digest := setup_digest |}.

Definition is_v7_opt (o : option Uuid) : bool :=
  match o with Some id => uuid_is_v7 id | None => false end.

(** The first guard: the claim, the run, the checkpoint and the event on their own. *)
Definition initial_bundle_shape (c : LiveRunStartClaim) (run : AgentRun)
    (checkpoint : AgentCheckpoint) (started_event : AgentRunEvent) : bool :=
  bool_decide (lc_schema c = LIVE_RUN_START_CLAIM_SCHEMA)
  && negb (bool_decide (lc_readiness_binding_digest c = zero_digest))
  && negb (bool_decide (lc_setup_digest c = zero_digest))
  && uuid_is_v7 (run_id run) && is_v7_opt (run_agent_id run)
  && bool_decide (run_mode run = Session)
  && bool_decide (run_status run = RunStatus.Running)
  && (run_retry_count run =? 0)%N && (run_revision run =? 1)%N
  && bool_decide (run_created_at run = run_updated_at run)
  && bool_decide (run_completed_at run = None)
  && uuid_is_v7 (cp_id checkpoint) && bool_decide (cp_run_id checkpoint = run_id run)
  && (cp_sequence checkpoint =? 0)%N
  && bool_decide (run_created_at run <= cp_created_at checkpoint)%Z
  && uuid_is_v7 (ev_id started_event)
  && bool_decide (ev_run_id started_event = run_id run)
  && (ev_sequence started_event =? 0)%N
  && bool_decide (ev_kind started_event = EventKind.Started)
  && bool_decide (cp_created_at checkpoint <= ev_created_at started_event)%Z.

(** The runtime envelope inside the checkpoint state. *)
Definition runtime_matches (runtime : list (string * json)) (run : AgentRun) : bool :=
  bool_decide ((obj_get "schema" runtime ≫= as_str) = Some "proof-agent-runtime-state/v2")
  && bool_decide ((obj_get "run_id" runtime ≫= uuid_of_value) = Some (run_id run))
  && bool_decide ((obj_get "agent_id" runtime ≫= uuid_of_value) = run_agent_id run)
  && bool_decide ((obj_get "started_at" runtime ≫= utc_of_value)
                  = Some (run_created_at run))
  && is_v7_opt (obj_get "process_epoch_id" runtime ≫= uuid_of_value).

Definition or_null (o : option json) : json := default JNull o.

Definition expected_started_data (runtime : list (string * json)) : json :=
  json_object
    [("live", JBool true); ("schema", or_null (obj_get "schema" runtime));
     ("process_epoch_id", or_null (obj_get "process_epoch_id" runtime));
     ("policy_binding", or_null (obj_get "policy_binding" runtime));
     ("authority", or_null (obj_get "authority" runtime))].

Definition validate_initial_bundle (c : LiveRunStartClaim) (run : AgentRun)
    (checkpoint : AgentCheckpoint) (started_event : AgentRunEvent)
    : result AgentRunError.t () :=
  let invalid := AgentRunError.InvalidLiveStartClaim in
  bail invalid when negb (initial_bundle_shape c run checkpoint started_event);
  let? envelope := ok_or (as_object (cp_state checkpoint)) invalid in
  bail invalid
    when negb (bool_decide (length envelope = 2))
         || negb (bool_decide ((obj_get "kind" envelope ≫= as_str) = Some "agent_runtime_v2"));
  let? runtime := ok_or (obj_get "runtime" envelope ≫= as_object) invalid in
  bail invalid when negb (runtime_matches runtime run);
  let? checkpoint_canonical := map_err (λ _, invalid) (canonicalize (cp_state checkpoint)) in
  bail invalid
    when negb (bool_decide (cp_state_digest checkpoint
                            = digest AgentCheckpointKind checkpoint_canonical));
  let? event_canonical := map_err (λ _, invalid) (canonicalize (ev_data started_event)) in
  bail invalid
    when negb (bool_decide (ev_data started_event = expected_started_data runtime))
         || negb (bool_decide (ev_data_digest started_event
                               = digest AgentEventKind event_canonical));
  Ok ().

End steps.

(** ** Histories of runs *)

Inductive run_call : Type :=
| RunStart | RunWaitForInput | RunResume | RunSucceed | RunFail | RunCancel.

Definition run_apply (c : run_call) (now : DateTime) : call AgentRun AgentRunError.t () :=
  match c with
  | RunStart => run_start now
  | RunWaitForInput => run_wait_for_input now
  | RunResume => run_resume now
  | RunSucceed => run_succeed now
  | RunFail => run_fail now
  | RunCancel => run_cancel now
  end.

(** [run_history r n r']: the calls of some sequence were made on [r], [n] of them
    succeeded, and the record is now [r']. *)
Inductive run_history (r : AgentRun) : N → AgentRun → Prop :=
| run_begin : run_history r 0 r
| run_succeeds n r1 c now r2 :
    run_history r n r1 → run_apply c now r1 = (Ok (), r2) → run_history r (n + 1) r2
| run_fails n r1 c now e r2 :
    run_history r n r1 → run_apply c now r1 = (Err e, r2) → run_history r n r2.

(** The status that a successful call sets. *)
Definition run_target (c : run_call) : RunStatus.t :=
  match c with
  | RunStart | RunResume => RunStatus.Running
  | RunWaitForInput => RunStatus.WaitingForInput
  | RunSucceed => RunStatus.Succeeded
  | RunFail => RunStatus.Failed
  | RunCancel => RunStatus.Cancelled
  end.

(** The record after a transition. *)
Definition run_moved (next : RunStatus.t) (now : DateTime) (retries : N) (r : AgentRun)
    : AgentRun :=
  {| run_id := run_id r; run_actor := run_actor r; run_agent_id := run_agent_id r;
     run_mode := run_mode r; run_goal := run_goal r; run_status := next;
     run_retry_count := retries;
     run_revision := wrapping_add u64_max (run_revision r) 1;
     run_created_at := run_created_at r; run_updated_at := now;
     run_completed_at := if RunStatus.is_terminal next then Some now else None |}.

Lemma run_transition_cases next now r :
  run_transition next now r =
  if run_transition_valid (run_status r) next
  then (Ok (), run_moved next now (run_retry_count r) r)
  else (Err (AgentRunError.InvalidRunTransition (run_status r) next), r).
Proof. unfold run_transition. by destruct (run_transition_valid _ _). Qed.

(** What one call does: nothing when it fails; the transition when it succeeds,
    with one more retry if a failed run is resumed. *)
Lemma run_apply_spec c now r :
  (∃ e, run_apply c now r = (Err e, r))
  ∨ run_transition_valid (run_status r) (run_target c) = true
    ∧ ∃ retries, run_apply c now r = (Ok (), run_moved (run_target c) now retries r)
      ∧ (retries = run_retry_count r
         ∨ c = RunResume ∧ run_status r = RunStatus.Failed
           ∧ retries = (run_retry_count r + 1)%N ∧ (retries <= u32_max)%N).
Proof.
  assert (run_apply c now r = run_transition (run_target c) now r
          ∨ c = RunResume ∧ run_status r = RunStatus.Failed) as [->|[-> Hf]].
  { destruct c; simpl; auto. unfold run_resume. case_bool_decide; auto. }
  - rewrite run_transition_cases.
    destruct (run_transition_valid _ _); [right|left; by eexists].
    split; [done|]. exists (run_retry_count r). split; [done|by left].
  - simpl. unfold run_resume. rewrite bool_decide_true by done. rewrite Hf.
    unfold checked_add. case_bool_decide as Hc; [|left; by eexists].
    right. split; [done|]. exists (run_retry_count r + 1)%N.
    rewrite run_transition_cases. simpl. rewrite Hf. split; [done|]. right. done.
Qed.

(** The life of a run.  After any sequence of calls on a new run, [n] of them
    successful: who runs what and since when is unchanged; the revision is [n]
    modulo 2^64; the run has a completion time exactly in a terminal status, and
    then it is the time of the last change; and there are at most as many retries
    as successful calls. *)
Theorem run_reachable_invariant (actor : PrincipalId) (agent : option Uuid)
    (mode : AgentRunMode) (goal : string) (t0 : DateTime) (id : Uuid) (r0 : AgentRun)
    (n : N) (r : AgentRun)
    (Hnew : AgentRun_create actor agent mode goal t0 id = Ok r0)
    (Hhist : run_history r0 n r) :
  run_id r = id ∧ run_actor r = actor ∧ run_agent_id r = agent ∧ run_mode r = mode
  ∧ run_goal r = goal ∧ run_created_at r = t0
  ∧ run_revision r = (n mod (u64_max + 1))%N
  ∧ run_completed_at r
    = (if RunStatus.is_terminal (run_status r) then Some (run_updated_at r) else None)
  ∧ (run_retry_count r <= n)%N ∧ (run_retry_count r <= u32_max)%N.
Proof.
  unfold AgentRun_create in Hnew. res_inv.
  induction Hhist as [|n r1 c now r2 _ IH E|n r1 c now e r2 _ IH E].
  - simpl. split_and!; done.
  - destruct IH as (? & ? & ? & ? & ? & ? & Hrev & Hc & Hn & Hm).
    destruct (run_apply_spec c now r1) as [[e E']|(_ & retries & E' & Hr)]; [congruence|].
    rewrite E' in E. injection E as <-. simpl. split_and!; try done.
    + rewrite Hrev. unfold wrapping_add. by rewrite N.Div0.add_mod_idemp_l.
    + destruct Hr as [->|(_ & _ & -> & _)]; lia.
    + destruct Hr as [->|(_ & _ & -> & ?)]; lia.
  - destruct (run_apply_spec c now r1) as [[e' E']|(_ & retries & E' & _)]; [|congruence].
    rewrite E' in E. by injection E as _ <-.
Qed.

Lemma run_reachable_invariant_witness :
  let r0 := {| run_id := 9; run_actor := 7; run_agent_id := None; run_mode := Session;
               run_goal := "ship"; run_status := RunStatus.Queued; run_retry_count := 0;
               run_revision := 0; run_created_at := 10; run_updated_at := 10;
               run_completed_at := None |} in
  let r := (run_resume 13 (run_fail 12 (run_start 11 r0).2).2).2 in
  run_revision r = (3 mod (u64_max + 1))%N ∧ (run_retry_count r <= 3)%N
  ∧ run_retry_count r = 1%N.
Proof.
  intros r0 r. 
  destruct (run_reachable_invariant 7 None Session "ship" 10 9 r0 3 r)
    as (_ & _ & _ & _ & _ & _ & H1 & _ & H2 & _).
  - reflexivity.
  - apply (run_succeeds r0 2 (run_fail 12 (run_start 11 r0).2).2 RunResume 13); [|reflexivity].
    apply (run_succeeds r0 1 (run_start 11 r0).2 RunFail 12); [|reflexivity].
    apply (run_succeeds r0 0 r0 RunStart 11); [constructor|reflexivity].
  - split; [exact H1|]. split; [exact H2|reflexivity].
Defined.

(** Finished runs stay finished.  A run that succeeded or was cancelled is not
    changed by any sequence of calls, all of which fail; and a failing call never
    changes a run. *)
Theorem run_final (r r' : AgentRun) (n : N)
    (Hdone : run_status r = RunStatus.Succeeded ∨ run_status r = RunStatus.Cancelled)
    (Hhist : run_history r n r') :
  r' = r ∧ n = 0%N.
Proof.
  induction Hhist as [|n r1 c now r2 _ [-> ->] E|n r1 c now e r2 _ [-> ->] E]; [done|..].
  - exfalso. destruct (run_apply_spec c now r) as [[e E']|(V & _)]; [congruence|].
    destruct Hdone as [H|H]; rewrite H in V; by destruct c.
  - destruct (run_apply_spec c now r) as [[e' E']|(_ & retries & E' & _)]; [|congruence].
    rewrite E' in E. by injection E as _ <-.
Qed.

Lemma run_final_witness :
  let r := {| run_id := 9; run_actor := 7; run_agent_id := None; run_mode := Session;
              run_goal := "ship"; run_status := RunStatus.Succeeded; run_retry_count := 0;
              run_revision := 2; run_created_at := 10; run_updated_at := 12;
              run_completed_at := Some 12%Z |} in
  (run_cancel 13 r).2 = r ∧ 0%N = 0%N.
Proof.
  intros r. apply (run_final r (run_cancel 13 r).2 0).
  - left. reflexivity.
  - eapply (run_fails r 0 r RunCancel 13); [constructor|reflexivity].
Defined.

(** A failed run can be restarted without counting a retry.  [start] accepts a
    failed run and leaves [retry_count] as it was, while [resume] counts one. *)
Theorem restart_uncounted (r : AgentRun) (now : DateTime)
    (Hfailed : run_status r = RunStatus.Failed) (Hroom : (run_retry_count r < u32_max)%N) :
  (run_start now r).1 = Ok () ∧ (run_resume now r).1 = Ok ()
  ∧ run_status (run_start now r).2 = RunStatus.Running
  ∧ run_retry_count (run_start now r).2 = run_retry_count r
  ∧ run_retry_count (run_resume now r).2 = (run_retry_count r + 1)%N.
Proof.
  unfold run_start, run_resume. rewrite bool_decide_true by done.
  unfold checked_add. rewrite bool_decide_true by lia.
  rewrite !run_transition_cases. simpl. rewrite Hfailed. done.
Qed.

Lemma restart_uncounted_witness :
  let r := {| run_id := 9; run_actor := 7; run_agent_id := None; run_mode := Session;
              run_goal := "ship"; run_status := RunStatus.Failed; run_retry_count := 0;
              run_revision := 2; run_created_at := 10; run_updated_at := 12;
              run_completed_at := Some 12%Z |} in
  run_retry_count (run_start 13 r).2 = 0%N ∧ run_retry_count (run_resume 13 r).2 = 1%N.
Proof.
  intros r. destruct (restart_uncounted r 13) as (_ & _ & _ & H1 & H2).
  - reflexivity.
  - reflexivity.
  - exact (conj H1 H2).
Defined.

(** ** Histories of steps *)

Section step_histories.
Context `{Externals}.

Inductive step_call : Type :=
| StepStart
| StepWaitForApproval (approval_request_id : Uuid)
| StepResumeFromApproval
| StepSucceed (output : json) (proof : Proof_)
| StepFail (error : string)
| StepCancel.

Definition step_apply (c : step_call) (now : DateTime)
    : call AgentRunStep AgentRunError.t () :=
  match c with
  | StepStart => step_start now
  | StepWaitForApproval id => step_wait_for_approval id now
  | StepResumeFromApproval => step_resume_from_approval now
  | StepSucceed output proof => step_succeed output proof now
  | StepFail error => step_fail error now
  | StepCancel => step_cancel now
  end.

Definition step_target (c : step_call) : StepStatus.t :=
  match c with
  | StepStart | StepResumeFromApproval => StepStatus.Running
  | StepWaitForApproval _ => StepStatus.WaitingForApproval
  | StepSucceed _ _ => StepStatus.Succeeded
  | StepFail _ => StepStatus.Failed
  | StepCancel => StepStatus.Cancelled
  end.

(** [output] and [proof] answer the call that the step records. *)
Definition step_proved (s : AgentRunStep) (output : json) (proof : Proof_) : Prop :=
  pb_operation (body proof) = step_operation s +:+ "::" +:+ step_version s
  ∧ pb_input_digest (body proof) = step_input_digest s
  ∧ ∃ canonical, canonicalize output = Ok canonical
      ∧ pb_output_digest (body proof) = digest OperationOutput canonical.

Definition step_allows (c : step_call) (s : AgentRunStep) : Prop :=
  match c with
  | StepWaitForApproval id => ∀ a, step_approval_request_id s = Some a → a = id
  | StepSucceed output proof => step_proved s output proof
  | _ => True
  end.

(** The record after a successful call. *)
Definition step_moved (c : step_call) (now : DateTime) (s : AgentRunStep) : AgentRunStep :=
  {| step_id := step_id s; step_run_id := step_run_id s; step_ordinal := step_ordinal s;
     step_attempt := step_attempt s; step_retry_of := step_retry_of s;
     step_operation := step_operation s; step_version := step_version s;
     step_input_digest := step_input_digest s; step_status := step_target c;
     step_approval_request_id :=
       match c with StepWaitForApproval id => Some id | _ => step_approval_request_id s end;
     step_output := match c with StepSucceed o _ => Some o | _ => step_output s end;
     step_proof := match c with StepSucceed _ p => Some p | _ => step_proof s end;
     step_error := match c with
                   | StepSucceed _ _ => None
                   | StepFail e => Some e
                   | _ => step_error s
                   end;
     step_revision := wrapping_add u64_max (step_revision s) 1;
     step_created_at := step_created_at s; step_updated_at := now;
     step_started_at :=
       match c, step_started_at s with StepStart, None => Some now | _, t => t end;
     step_completed_at :=
       if StepStatus.is_terminal (step_target c) then Some now else None |}.

(** What one call does: nothing unless it succeeds. *)
Lemma step_apply_spec c now s :
  (step_apply c now s).1 ≠ Ok () ∧ (step_apply c now s).2 = s
  ∨ step_transition_valid (step_status s) (step_target c) = true ∧ step_allows c s
    ∧ step_apply c now s = (Ok (), step_moved c now s).
Proof.
  destruct c as [|id| |output proof|error|]; simpl;
    unfold step_start, step_wait_for_approval, step_resume_from_approval, step_succeed,
      step_fail, step_cancel, step_transition, cbind, lift, throw, step_proved.
  1, 3, 5, 6: destruct (step_transition_valid _ _); [right|left; done];
    split; [done|]; split; [done|]; unfold step_moved; simpl;
    by destruct (step_started_at s).
  - destruct (step_approval_request_id s) as [a|] eqn:Ha.
    + case_bool_decide; [subst a|left; done].
      destruct (step_transition_valid _ _); [right|left; done].
      split; [done|]. split; [by intros a [= ->]|]. done.
    + destruct (step_transition_valid _ _); [right|left; done]. done.
  - destruct (canonicalize output) as [canonical|e|] eqn:Hcan; [|left; done..].
    simpl. destruct (bool_decide _) eqn:H1; [|left; done].
    destruct (bool_decide (pb_input_digest _ = _)) eqn:H2; [|left; done].
    destruct (bool_decide (pb_output_digest _ = _)) eqn:H3; [|left; done].
    rewrite !bool_decide_eq_true in H1, H2, H3. simpl.
    destruct (step_transition_valid _ _); [right|left; done].
    split; [done|]. split; [|done]. eauto.
Qed.

(** The steps that the methods can produce for one position of a run: a new step,
    what a call leaves behind, and a retry. *)
Inductive reachable_step (run : Uuid) (ordinal : N) (operation version : string)
    (input : json) : AgentRunStep → Prop :=
| reachable_new t id s :
    AgentRunStep_new run ordinal operation version input t id = Ok s →
    reachable_step run ordinal operation version input s
| reachable_call c now s :
    reachable_step run ordinal operation version input s →
    reachable_step run ordinal operation version input (step_apply c now s).2
| reachable_retry t id s s' :
    reachable_step run ordinal operation version input s →
    step_retry s t id = Ok s' →
    reachable_step run ordinal operation version input s'.

(** What a step says about itself is consistent: it has an output and a proof exactly
    when it succeeded, and they answer the recorded call; an error exactly when it
    failed; a bound approval request while it waits for one; no start time while it is
    pending; a completion time exactly when it is terminal. *)
Definition step_wf (s : AgentRunStep) : Prop :=
  match step_status s with
  | StepStatus.Succeeded =>
      ∃ output proof, step_output s = Some output ∧ step_proof s = Some proof
        ∧ step_proved s output proof
  | _ => step_output s = None ∧ step_proof s = None
  end
  ∧ (is_Some (step_error s) ↔ step_status s = StepStatus.Failed)
  ∧ (step_status s = StepStatus.WaitingForApproval → is_Some (step_approval_request_id s))
  ∧ (step_status s = StepStatus.Pending → step_started_at s = None)
  ∧ step_completed_at s
    = (if StepStatus.is_terminal (step_status s) then Some (step_updated_at s) else None).

(** The first step of a position is attempt 1; a retry names the step it retries. *)
Definition attempt_wf (s : AgentRunStep) : Prop :=
  (1 <= step_attempt s <= u32_max)%N
  ∧ (step_retry_of s = None ↔ step_attempt s = 1%N).

Lemma step_wf_pending s :
  step_status s = StepStatus.Pending → step_output s = None → step_proof s = None →
  step_error s = None → step_approval_request_id s = None → step_started_at s = None →
  step_completed_at s = None → step_wf s.
Proof.
  intros H1 H2 H3 H4 H5 H6 H7. unfold step_wf. rewrite H1, H2, H3, H4, H5, H6, H7. simpl.
  split_and!; done.
Qed.

Lemma step_moved_wf c now s :
  step_transition_valid (step_status s) (step_target c) = true → step_allows c s →
  step_wf s → step_wf (step_moved c now s).
Proof.
  intros Hv Ha (H1 & H2 & H3 & H4 & H5). unfold step_wf, step_moved, step_proved.
  destruct c as [|id| |output proof|error|]; simpl in *;
    destruct (step_status s) eqn:Hs; try done;
    destruct (step_error s) as [e|] eqn:He; simpl in *;
    try (exfalso; assert (is_Some (Some e)) as Hi by done; apply H2 in Hi; done).
  all: split_and!; try done; naive_solver.
Qed.

(** The life of a step.  Every step the methods can produce keeps the run,
    position, operation, version and input digest it was created with, is consistent
    with itself ([step_wf]: in particular it carries an output and a proof exactly when
    it succeeded, and that proof names the operation and version, the digest of the
    input and the digest of the output), and has a well-formed attempt number. *)
Theorem step_reachable_invariant (run : Uuid) (ordinal : N) (operation version : string)
    (input : json) (s : AgentRunStep)
    (Hreach : reachable_step run ordinal operation version input s) :
  step_run_id s = run ∧ step_ordinal s = ordinal ∧ step_operation s = operation
  ∧ step_version s = version
  ∧ (∃ canonical, canonicalize input = Ok canonical
       ∧ step_input_digest s = digest OperationInput canonical)
  ∧ step_wf s ∧ attempt_wf s.
Proof.
  induction Hreach as [t id s E|c now s _ IH|t id s s' _ IH E].
  - unfold AgentRunStep_new in E. res_inv. simpl. split_and!; try done.
    + unfold map_err in *. destruct (canonicalize input); [|done..]. eexists. split; [done|].
      congruence.
    + by apply step_wf_pending.
  - destruct (step_apply_spec c now s) as [[_ ->]|(Hv & Ha & ->)]; [done|].
    destruct IH as (? & ? & ? & ? & ? & Hwf & Hat). simpl. split_and!; try done.
    by apply step_moved_wf.
  - destruct IH as (? & ? & ? & ? & ? & _ & Hat & _). unfold step_retry in E.
    destruct (step_status s); try done;
    unfold ok_or in E; destruct (checked_add _ _ _) as [n|] eqn:En; try done;
    apply checked_add_Some in En as [-> Hle]; injection E as <-; split_and!; try done;
      try by apply step_wf_pending.
    all: unfold attempt_wf; simpl; split; [lia|]; split; [done|lia].
Qed.

(** What a call cannot change.  No sequence of calls changes the approval request a
    step is bound to, and none changes a terminal step. *)
Theorem step_binding_immutable (calls : list (step_call * DateTime)) (s : AgentRunStep) :
  let s' := foldl (λ s '(c, now), (step_apply c now s).2) s calls in
  (∀ a, step_approval_request_id s = Some a → step_approval_request_id s' = Some a)
  ∧ (StepStatus.is_terminal (step_status s) = true → s' = s).
Proof.
  revert s. induction calls as [|[c now] calls IH]; intros s; [done|]. simpl.
  destruct (step_apply_spec c now s) as [[_ ->]|(Hv & Ha & ->)]; [apply IH|].
  simpl. split.
  - intros a Hs. apply IH. destruct c; simpl in *; try done. by rewrite (Ha a).
  - intros Ht. exfalso. by destruct (step_status s).
Qed.

End step_histories.

(** A step can run without a start time: [resume_from_approval] also takes a pending
    step, which was never started and waits for nothing, to running. *)
Lemma resume_accepts_pending (s : AgentRunStep) (now : DateTime) :
  step_status s = StepStatus.Pending →
  (step_resume_from_approval now s).1 = Ok ()
  ∧ step_status (step_resume_from_approval now s).2 = StepStatus.Running
  ∧ step_started_at (step_resume_from_approval now s).2 = step_started_at s.
Proof. intros Hs. unfold step_resume_from_approval, step_transition. by rewrite Hs. Qed.

(** ** Witnesses *)

Definition sample_step : AgentRunStep :=
  match @AgentRunStep_new Sample.sample 9 0 "object.create" "v1" JNull 10 31 with
  | Ok s => s
  | _ => {| step_id := 0; step_run_id := 0; step_ordinal := 0; step_attempt := 0;
            step_retry_of := None; step_operation := EmptyString;
            step_version := EmptyString; step_input_digest := zero_digest;
            step_status := StepStatus.Failed; step_approval_request_id := None;
            step_output := None; step_proof := None; step_error := None;
            step_revision := 0; step_created_at := 0; step_updated_at := 0;
            step_started_at := None; step_completed_at := None |}
  end.

Definition sample_step_proof : Proof_ :=
  {| body := {| pb_id := 32; pb_actor := 7; pb_delegation_id := None;
                pb_operation := "object.create::v1";
                pb_input_digest := step_input_digest sample_step;
                pb_output_digest :=
                  match @digest_of Sample.sample OperationOutput (JBool true) with
                  | Ok d => d | _ => zero_digest
                  end;
                pb_timestamp := 12; pb_expires_at := None |};
     signature := EmptyString |}.

Definition sample_done_step : AgentRunStep :=
  (@step_apply Sample.sample (StepSucceed (JBool true) sample_step_proof) 12
     (@step_apply Sample.sample StepStart 11 sample_step).2).2.

Lemma step_reachable_invariant_witness :
  step_status sample_done_step = StepStatus.Succeeded
  ∧ @step_wf Sample.sample sample_done_step ∧ attempt_wf sample_done_step.
Proof.
  split; [vm_compute; reflexivity|].
  destruct (@step_reachable_invariant Sample.sample 9 0 "object.create" "v1" JNull
    sample_done_step) as (_ & _ & _ & _ & _ & H1 & H2).
  - apply reachable_call, reachable_call, (reachable_new _ _ _ _ _ 10 31).
    vm_compute. reflexivity.
  - exact (conj H1 H2).
Defined.
