(* ===== verification/ExecutionStore.v ===== *)
(** * Execution contexts, errors and the execution store

    The model of [crates/proof-kernel/src/executor/context.rs], [error.rs] and
    [store.rs].  The trait [ExecutionStore] is a record of operations on a
    state; what the engine relies on in a store that supports exact replay is
    the class [ReplayStore], the abstract state machine of a replay key
    (absent, claimed, completed, failed).  [RecordingStore] is the in-memory
    store of the kernel, and [recording_replay_store] shows that it implements
    the abstract machine.

    The main theorems: a completed key answers every later claim with the exact
    stored outcome ([replay_completed_forever]), and a failed key is never
    completed ([replay_failed_forever]). *)

From S2P Require Import Prelude RustStr Externals Delegation Json Canonical Serialized.
From S2P Require Import Evidence Approval.
From stdpp Require Import options.

(** ** Contexts *)

Record ExecutionContext := {
  ctx_actor : PrincipalId;
  ctx_principal_kind : option PrincipalKind;
  ctx_delegation_id : option Uuid;
  ctx_delegation_chain : option DelegationChain;
  ctx_workspace_path : string;
  ctx_timestamp : DateTime;
}.

#[export] Instance ExecutionContext_eq_dec : EqDecision ExecutionContext.
Proof. solve_decision. Defined.

Record AuditFilter := {
  af_operation : option string;
  af_actor : option PrincipalId;
  af_since : option DateTime;
  af_limit : nat;
  af_offset : nat;
}.

Definition AuditFilter_new : AuditFilter :=
  {| af_operation := None; af_actor := None; af_since := None; af_limit := 20;
     af_offset := 0 |}.

Definition clamp_limit (f : AuditFilter) : AuditFilter :=
  {| af_operation := af_operation f; af_actor := af_actor f; af_since := af_since f;
     af_limit := Nat.min (Nat.max (af_limit f) 1) 100; af_offset := af_offset f |}.

(** ** Errors and their texts *)

Module IdempotencyError.
Inductive t : Type :=
| MissingKey | InvalidUuidV7 | Conflict | InProgress | Indeterminate | StorageRequired.

#[global] Instance t_eq_dec : EqDecision t.
Proof. solve_decision. Defined.

Definition to_string (e : t) : string :=
  match e with
  | MissingKey => "idempotency_key is required"
  | InvalidUuidV7 => "idempotency_key must be a UUIDv7 string"
  | Conflict => "idempotency key is already bound to different input"
  | InProgress => "idempotency key is currently being executed; retry later"
  | Indeterminate =>
      "idempotency key has an indeterminate prior execution and requires reconciliation"
  | StorageRequired => "durable exact-replay storage is required for this operation"
  end.
End IdempotencyError.

Definition ApprovalError_to_string (e : ApprovalError.t) : string :=
  match e with
  | ApprovalError.EmptyOperation => "approval operation must not be empty"
  | ApprovalError.EmptyVersion => "approval version must not be empty"
  | ApprovalError.InvalidWindow => "approval expiration must be after its request time"
  | ApprovalError.RequesterMustBeAgent => "approval requester must use an agent identity"
  | ApprovalError.RequesterMismatch =>
      "approval requester does not match the signing identity"
  | ApprovalError.ApproverMustBeHuman => "approval decision must use a human identity"
  | ApprovalError.ApproverMismatch => "approval decision does not match the signing identity"
  | ApprovalError.InvalidSignature => "approval signature is invalid"
  | ApprovalError.Canonicalization => "approval payload could not be canonicalized"
  | ApprovalError.RequestMismatch => "approval request does not match the decision"
  | ApprovalError.Denied => "approval request was denied"
  | ApprovalError.Expired => "approval request has expired"
  | ApprovalError.DecisionOutOfWindow =>
      "approval decision falls outside the request validity window"
  | ApprovalError.OperationMismatch =>
      "approval operation does not match the requested execution"
  | ApprovalError.VersionMismatch =>
      "approval version does not match the requested execution"
  | ApprovalError.InputMismatch => "approval input does not match the requested execution"
  | ApprovalError.ActorMismatch => "approval actor does not match the requesting agent"
  | ApprovalError.UntrustedApprover =>
      "approval was signed by an untrusted human principal"
  end.

Definition CanonicalizationError_to_string (e : CanonicalizationError) : string :=
  match e with
  | NonFiniteNumber => "non-finite JSON number"
  | NonExactNumber => "number cannot be represented exactly in canonical JSON"
  | UnsafeInteger => "integer exceeds the canonical JSON safe range"
  end.

Definition ProofError_to_string (e : ProofError) : string :=
  match e with
  | InvalidSignature => "invalid proof signature"
  | ActorMismatch => "proof actor does not match signing key"
  | Canonicalization => "canonicalization failed"
  end.

Definition DelegationError_to_string `{Externals} (e : DelegationError) : string :=
  match e with
  | EmptyChain => "delegation chain cannot be empty"
  | InvalidRoot root =>
      "delegation chain does not start at root principal " +:+ uuid_to_string root
  | BrokenChain index => "delegation links are not connected at link " +:+ pretty index
  | InvalidTerminalAgent index =>
      "delegation recipient at link " +:+ pretty index +:+ " is not the executing agent"
  | InsufficientActionAuthority index action =>
      "grantor at link " +:+ pretty index +:+ " cannot delegate " +:+ action
  | InsufficientResourceAuthority index resource =>
      "grantor at link " +:+ pretty index +:+ " cannot delegate resource " +:+ resource
  | InvalidTime index =>
      "delegation at link " +:+ pretty index +:+ " is not valid at the requested time"
  | Revoked index => "delegation at link " +:+ pretty index +:+ " is revoked"
  end.

Module ExecutionError.
Inductive t : Type :=
| OperationNotFound (operation version : string)
| NoHandler (operation : string)
| HumanOnly
| Approval (e : ApprovalError.t)
| Sunset
| Delegation (e : DelegationError)
| ScopeViolation
| HandlerFailed (reason : string)
| EvidenceFailed (reason : string)
| BenchmarkExpired (benchmark proof_id : string)
| Idempotency (e : IdempotencyError.t)
| StorageFailed (reason : string).

#[global] Instance t_eq_dec : EqDecision t.
Proof. solve_decision. Defined.

Definition to_string `{Externals} (e : t) : string :=
  match e with
  | OperationNotFound operation version =>
      "operation not found: " +:+ operation +:+ " " +:+ version
  | NoHandler operation => "no handler registered for: " +:+ operation
  | HumanOnly => "operation is human-only, agents cannot execute"
  | Approval e => "approval invalid: " +:+ ApprovalError_to_string e
  | Sunset => "operation is sunset and cannot be executed"
  | Delegation e => "delegation chain invalid: " +:+ DelegationError_to_string e
  | ScopeViolation => "operation is outside the delegation scope"
  | HandlerFailed reason => "handler execution failed: " +:+ reason
  | EvidenceFailed reason => "evidence generation failed: " +:+ reason
  | BenchmarkExpired benchmark proof_id =>
      "benchmark proof expired: benchmark=" +:+ benchmark +:+ " proof=" +:+ proof_id
  | Idempotency e => "idempotency failed: " +:+ IdempotencyError.to_string e
  | StorageFailed reason => "storage failed: " +:+ reason
  end.

Lemma to_string_nonempty `{Externals} e : str_is_empty (to_string e) = false.
Proof. by destruct e. Qed.
End ExecutionError.

(** ** Replay claims *)

Inductive IdempotencyPolicy : Type := NoReplay | RequiredUuidV7ExactReplay.

Record ExecutionReplayKey := {
  rk_operation : string;
  rk_version : string;
  rk_idempotency_key : Uuid;
}.

#[export] Instance ExecutionReplayKey_eq_dec : EqDecision ExecutionReplayKey.
Proof. solve_decision. Defined.
#[export] Instance ExecutionReplayKey_countable : Countable ExecutionReplayKey.
Proof.
  refine (inj_countable'
    (λ k, (rk_operation k, rk_version k, rk_idempotency_key k))
    (λ t, {| rk_operation := t.1.1; rk_version := t.1.2; rk_idempotency_key := t.2 |}) _).
  by intros [].
Defined.

Record ExecutionReplayClaim := {
  rc_key : ExecutionReplayKey;
  rc_input_digest : ContentDigest;
  rc_claim_token : Uuid;
  rc_claimed_by : PrincipalId;
  rc_claimed_at : DateTime;
}.

#[export] Instance ExecutionReplayClaim_eq_dec : EqDecision ExecutionReplayClaim.
Proof. solve_decision. Defined.

Record ExecutionOutcome := {
  eo_output : json;
  eo_proof : Proof_;
}.

#[export] Instance ExecutionOutcome_eq_dec : EqDecision ExecutionOutcome.
Proof. solve_decision. Defined.

Module ClaimResult.
Inductive t : Type :=
| Acquired
| Completed (outcome : ExecutionOutcome)
| Conflict
| InProgress
| Failed
| Unsupported.
End ClaimResult.

(** ** The store trait *)

Record ExecutionStore (S : Type) := {
  load_delegation : Uuid → call S string (option Delegation);
  save_proof : Proof_ → call S string ();
  latest_proof_for_operation : string → string → call S string (option Proof_);
  save_execution_context : ExecutionContext → call S string string;
  claim_execution_replay : ExecutionReplayClaim → call S string ClaimResult.t;
  complete_execution_replay :
    ExecutionReplayClaim → ExecutionContext → ExecutionOutcome → call S string ();
  fail_execution_replay :
    ExecutionReplayClaim → DateTime → string → call S string ();
}.

Arguments load_delegation {S}.
Arguments save_proof {S}.
Arguments latest_proof_for_operation {S}.
Arguments save_execution_context {S}.
Arguments claim_execution_replay {S}.
Arguments complete_execution_replay {S}.
Arguments fail_execution_replay {S}.

(** The provided methods of the trait: a store that only saves proofs and
    contexts. *)
Definition legacy_store {S} (save_proof : Proof_ → call S string ())
    (save_context : ExecutionContext → call S string string) : ExecutionStore S :=
  {| load_delegation := λ _, ret None;
     save_proof := save_proof;
     latest_proof_for_operation := λ _ _, ret None;
     save_execution_context := save_context;
     claim_execution_replay := λ _, ret ClaimResult.Unsupported;
     complete_execution_replay := λ _ _ _,
       throw "execution replay is not supported by this store";
     fail_execution_replay := λ _ _ _,
       throw "execution replay is not supported by this store" |}.

(** ** The recording store *)

Inductive RecordingReplayState : Type :=
| Claimed
| Completed (context : ExecutionContext) (outcome : ExecutionOutcome)
| Failed (failed_at : DateTime) (failure : string).

Record RecordingReplay := {
  rr_claim : ExecutionReplayClaim;
  rr_state : RecordingReplayState;
}.

Record RecordingStore := {
  rs_proofs : list Proof_;
  rs_contexts : list ExecutionContext;
  rs_delegations : list Delegation;
  rs_replays : gmap ExecutionReplayKey RecordingReplay;
}.

Definition RecordingStore_default : RecordingStore :=
  {| rs_proofs := []; rs_contexts := []; rs_delegations := []; rs_replays := ∅ |}.

Definition set_replay (k : ExecutionReplayKey) (r : RecordingReplay) (s : RecordingStore)
    : RecordingStore :=
  {| rs_proofs := rs_proofs s; rs_contexts := rs_contexts s;
     rs_delegations := rs_delegations s; rs_replays := <[k := r]> (rs_replays s) |}.

Definition execution_contexts_equal (left right : ExecutionContext) : bool :=
  bool_decide (ctx_actor left = ctx_actor right)
  && bool_decide (ctx_principal_kind left = ctx_principal_kind right)
  && bool_decide (ctx_delegation_id left = ctx_delegation_id right)
  && bool_decide (ctx_delegation_chain left = ctx_delegation_chain right)
  && bool_decide (ctx_workspace_path left = ctx_workspace_path right)
  && bool_decide (ctx_timestamp left = ctx_timestamp right).

(** [max_by_key]: the last of the proofs with the greatest timestamp. *)
Fixpoint max_by_timestamp (best : option Proof_) (l : list Proof_) : option Proof_ :=
  match l with
  | [] => best
  | p :: l' =>
      max_by_timestamp
        (match best with
         | Some b => if bool_decide (pb_timestamp (body p) < pb_timestamp (body b))%Z
                     then best else Some p
         | None => Some p
         end) l'
  end.

Section recording.
Context `{Externals}.

Definition validate_replay_completion (claim : ExecutionReplayClaim)
    (context : ExecutionContext) (outcome : ExecutionOutcome) : result string () :=
  let proof := body (eo_proof outcome) in
  let expected_operation :=
    rk_operation (rc_key claim) +:+ "::" +:+ rk_version (rc_key claim) in
  bail "execution replay proof operation does not match the claim"
    when negb (bool_decide (pb_operation proof = expected_operation));
  bail "execution replay proof input digest does not match the claim"
    when negb (bool_decide (pb_input_digest proof = rc_input_digest claim));
  bail "execution replay proof actor does not match the claim"
    when negb (bool_decide (pb_actor proof = rc_claimed_by claim))
         || negb (bool_decide (pb_actor proof = ctx_actor context));
  bail "execution replay proof context does not match"
    when negb (bool_decide (pb_delegation_id proof = ctx_delegation_id context))
         || negb (bool_decide (pb_timestamp proof = ctx_timestamp context));
  let? output := map_err (λ _, "execution replay output could not be canonicalized")
                   (canonicalize (eo_output outcome)) in
  bail "execution replay proof output digest does not match the output"
    when negb (bool_decide (pb_output_digest proof = digest OperationOutput output));
  Ok ().

Definition recording_claim (claim : ExecutionReplayClaim)
    : call RecordingStore string ClaimResult.t := λ s,
  match rs_replays s !! rc_key claim with
  | None =>
      (Ok ClaimResult.Acquired,
       set_replay (rc_key claim) {| rr_claim := claim; rr_state := Claimed |} s)
  | Some replay =>
      if negb (bool_decide (rc_input_digest (rr_claim replay) = rc_input_digest claim))
      then (Ok ClaimResult.Conflict, s)
      else (Ok match rr_state replay with
               | Claimed => ClaimResult.InProgress
               | Completed _ outcome => ClaimResult.Completed outcome
               | Failed _ _ => ClaimResult.Failed
               end, s)
  end.

(** The checks that completing and failing share: the claim exists and is the
    one that was acquired. *)
Definition acquired_replay (claim : ExecutionReplayClaim) (s : RecordingStore)
    : result string RecordingReplay :=
  let? replay := ok_or (rs_replays s !! rc_key claim)
                   "execution replay claim does not exist" in
  bail "execution replay input digest conflicts with the claim"
    when negb (bool_decide (rc_input_digest (rr_claim replay) = rc_input_digest claim));
  bail "execution replay claim token does not match"
    when negb (bool_decide (rc_claim_token (rr_claim replay) = rc_claim_token claim));
  Ok replay.

Definition recording_complete (claim : ExecutionReplayClaim) (context : ExecutionContext)
    (outcome : ExecutionOutcome) : call RecordingStore string () :=
  let! _ := lift (validate_replay_completion claim context outcome) in
  λ s, match acquired_replay claim s with
  | Ok replay =>
      match rr_state replay with
      | Claimed =>
          (Ok (),
           {| rs_proofs := rs_proofs s ++ [eo_proof outcome];
              rs_contexts := rs_contexts s ++ [context];
              rs_delegations := rs_delegations s;
              rs_replays := <[rc_key claim :=
                {| rr_claim := rr_claim replay; rr_state := Completed context outcome |}]>
                (rs_replays s) |})
      | Completed stored_context stored_outcome =>
          if execution_contexts_equal stored_context context
             && bool_decide (stored_outcome = outcome)
          then (Ok (), s)
          else (Err "execution replay is already completed differently", s)
      | Failed _ _ => (Err "failed execution replay cannot be completed", s)
      end
  | Err e => (Err e, s)
  | Panic => (Panic, s)
  end.

Definition recording_fail (claim : ExecutionReplayClaim) (failed_at : DateTime)
    (failure : string) : call RecordingStore string () :=
  stop "execution replay failure must not be empty" when str_is_empty failure;
  λ s, match acquired_replay claim s with
  | Ok replay =>
      match rr_state replay with
      | Claimed =>
          (Ok (), set_replay (rc_key claim)
             {| rr_claim := rr_claim replay; rr_state := Failed failed_at failure |} s)
      | Failed stored_at stored_failure =>
          if bool_decide (stored_at = failed_at) && bool_decide (stored_failure = failure)
          then (Ok (), s)
          else (Err "execution replay is already failed differently", s)
      | Completed _ _ => (Err "completed execution replay cannot be failed", s)
      end
  | Err e => (Err e, s)
  | Panic => (Panic, s)
  end.

(** The identifier that [save_execution_context] draws is [now_v7]. *)
Definition recording_store (now_v7 : Uuid) : ExecutionStore RecordingStore :=
  {| load_delegation := λ id s,
       (Ok (List.find (λ d, bool_decide (delegation_id d = id)) (rs_delegations s)), s);
     save_proof := λ p s,
       (Ok (), {| rs_proofs := rs_proofs s ++ [p]; rs_contexts := rs_contexts s;
                  rs_delegations := rs_delegations s; rs_replays := rs_replays s |});
     latest_proof_for_operation := λ operation version s,
       (Ok (max_by_timestamp None
              (filter (λ p, pb_operation (body p) = operation +:+ "::" +:+ version)
                 (rs_proofs s))), s);
     save_execution_context := λ c s,
       (Ok (uuid_to_string now_v7),
        {| rs_proofs := rs_proofs s; rs_contexts := rs_contexts s ++ [c];
           rs_delegations := rs_delegations s; rs_replays := rs_replays s |});
     claim_execution_replay := recording_claim;
     complete_execution_replay := recording_complete;
     fail_execution_replay := recording_fail |}.

End recording.

(** ** The abstract replay machine

    What the engine relies on: every operation of the store changes the replay
    records only as this machine does.  A call that reports an error changes
    none. *)

Definition abstract_claim (m : gmap ExecutionReplayKey RecordingReplay)
    (claim : ExecutionReplayClaim)
    : ClaimResult.t * gmap ExecutionReplayKey RecordingReplay :=
  match m !! rc_key claim with
  | None => (ClaimResult.Acquired,
             <[rc_key claim := {| rr_claim := claim; rr_state := Claimed |}]> m)
  | Some replay =>
      if decide (rc_input_digest (rr_claim replay) = rc_input_digest claim)
      then (match rr_state replay with
            | Claimed => ClaimResult.InProgress
            | Completed _ outcome => ClaimResult.Completed outcome
            | Failed _ _ => ClaimResult.Failed
            end, m)
      else (ClaimResult.Conflict, m)
  end.

(** [settles m claim state m']: the holder of [claim] moved its record from
    claimed to [state], or repeated the call that did. *)
Definition settles (m : gmap ExecutionReplayKey RecordingReplay)
    (claim : ExecutionReplayClaim) (state : RecordingReplayState)
    (m' : gmap ExecutionReplayKey RecordingReplay) : Prop :=
  ∃ replay, m !! rc_key claim = Some replay
    ∧ rc_input_digest (rr_claim replay) = rc_input_digest claim
    ∧ rc_claim_token (rr_claim replay) = rc_claim_token claim
    ∧ ((rr_state replay = Claimed
        ∧ m' = <[rc_key claim := {| rr_claim := rr_claim replay; rr_state := state |}]> m)
       ∨ (rr_state replay = state ∧ m' = m)).

Class ReplayStore {S} (st : ExecutionStore S) := {
  view : S → gmap ExecutionReplayKey RecordingReplay;
  view_load_delegation id s : view (load_delegation st id s).2 = view s;
  view_save_proof p s : view (save_proof st p s).2 = view s;
  view_latest_proof o v s : view (latest_proof_for_operation st o v s).2 = view s;
  view_save_context c s : view (save_execution_context st c s).2 = view s;
  view_claim c s :
    match claim_execution_replay st c s with
    | (Ok r, s') => (r, view s') = abstract_claim (view s) c
    | (_, s') => view s' = view s
    end;
  view_complete c ctx o s :
    match complete_execution_replay st c ctx o s with
    | (Ok (), s') => settles (view s) c (Completed ctx o) (view s')
    | (_, s') => view s' = view s
    end;
  view_fail c at_ msg s :
    match fail_execution_replay st c at_ msg s with
    | (Ok (), s') => settles (view s) c (Failed at_ msg) (view s')
    | (_, s') => view s' = view s
    end;
}.

(** One call of any method by any caller. *)
Inductive store_step {S} (st : ExecutionStore S) (s : S) : S → Prop :=
| step_load_delegation id : store_step st s (load_delegation st id s).2
| step_save_proof p : store_step st s (save_proof st p s).2
| step_latest_proof o v : store_step st s (latest_proof_for_operation st o v s).2
| step_save_context c : store_step st s (save_execution_context st c s).2
| step_claim c : store_step st s (claim_execution_replay st c s).2
| step_complete c ctx o : store_step st s (complete_execution_replay st c ctx o s).2
| step_fail c at_ msg : store_step st s (fail_execution_replay st c at_ msg s).2.

(** *** The recording store implements it *)

Lemma execution_contexts_equal_eq l r : execution_contexts_equal l r = true ↔ l = r.
Proof.
  unfold execution_contexts_equal. rewrite !andb_true_iff, !bool_decide_eq_true.
  destruct l, r; simpl. naive_solver.
Qed.

Lemma acquired_replay_Ok claim s replay :
  acquired_replay claim s = Ok replay →
  rs_replays s !! rc_key claim = Some replay
  ∧ rc_input_digest (rr_claim replay) = rc_input_digest claim
  ∧ rc_claim_token (rr_claim replay) = rc_claim_token claim.
Proof. unfold acquired_replay. intros E. res_inv. done. Qed.

Lemma recording_complete_settles `{Externals} c ctx o s :
  match recording_complete c ctx o s with
  | (Ok (), s') => settles (rs_replays s) c (Completed ctx o) (rs_replays s')
  | (_, s') => rs_replays s' = rs_replays s
  end.
Proof.
  unfold recording_complete, cbind, lift.
  destruct (validate_replay_completion c ctx o) as [[]| |]; [|done..].
  destruct (acquired_replay c s) as [replay| |] eqn:E; [|done..].
  apply acquired_replay_Ok in E as (Hk & Hd & Ht).
  destruct (rr_state replay) as [|ctx' o'|] eqn:Hs; [| |done].
  - exists replay. split_and!; auto.
  - destruct (execution_contexts_equal ctx' ctx && bool_decide (o' = o)) eqn:Heq; [|done].
    apply andb_true_iff in Heq as [->%execution_contexts_equal_eq ->%bool_decide_eq_true].
    exists replay. split_and!; auto.
Qed.

Lemma recording_fail_settles c at_ msg s :
  match recording_fail c at_ msg s with
  | (Ok (), s') => settles (rs_replays s) c (Failed at_ msg) (rs_replays s')
  | (_, s') => rs_replays s' = rs_replays s
  end.
Proof.
  unfold recording_fail. destruct (str_is_empty msg); [done|].
  destruct (acquired_replay c s) as [replay| |] eqn:E; [|done..].
  apply acquired_replay_Ok in E as (Hk & Hd & Ht).
  destruct (rr_state replay) as [| |at' msg'] eqn:Hs; [|done|].
  - exists replay. split_and!; auto.
  - destruct (bool_decide (at' = at_) && bool_decide (msg' = msg)) eqn:Heq; [|done].
    apply andb_true_iff in Heq as [->%bool_decide_eq_true ->%bool_decide_eq_true].
    exists replay. split_and!; auto.
Qed.

Lemma recording_claim_abstract c s :
  match recording_claim c s with
  | (Ok r, s') => (r, rs_replays s') = abstract_claim (rs_replays s) c
  | (_, s') => rs_replays s' = rs_replays s
  end.
Proof.
  unfold recording_claim, abstract_claim.
  destruct (rs_replays s !! rc_key c) as [replay|]; [|done].
  destruct (decide _) as [E|E]; [rewrite bool_decide_true by done|rewrite bool_decide_false by done];
    done.
Qed.

#[export] Instance recording_replay_store `{Externals} now_v7 :
  ReplayStore (recording_store now_v7).
Proof.
  refine (Build_ReplayStore _ (recording_store now_v7) rs_replays _ _ _ _
    recording_claim_abstract recording_complete_settles recording_fail_settles);
    reflexivity.
Defined.

(** ** What holds of every replay store *)

Section replay_store.
Context {S : Type} (st : ExecutionStore S) `{RS : !ReplayStore st}.

Lemma settles_lookup m claim state m' k replay :
  settles m claim state m' → m !! k = Some replay →
  ∃ replay', m' !! k = Some replay' ∧ rr_claim replay' = rr_claim replay
    ∧ (rr_state replay ≠ Claimed → replay' = replay).
Proof.
  intros (r & Hr & _ & _ & [[Hs ->]|[_ ->]]) Hk; [|eauto].
  destruct (decide (k = rc_key claim)) as [->|Hne].
  - rewrite lookup_insert_eq. simplify_eq. eexists. split; [done|]. split; [done|]. by intros [].
  - rewrite lookup_insert_ne by done. eauto.
Qed.

Lemma abstract_claim_lookup m c r m' k replay :
  (r, m') = abstract_claim m c → m !! k = Some replay → m' !! k = Some replay.
Proof.
  unfold abstract_claim. intros E Hk.
  destruct (m !! rc_key c) as [rp|] eqn:Hc.
  - case_decide; by injection E as _ ->.
  - injection E as _ ->. rewrite lookup_insert_ne; [done|]. by intros <-; rewrite Hc in Hk.
Qed.

(** A step keeps every record: its claim always, and the record itself once it
    is completed or failed. *)
Lemma store_step_keeps s s' k replay :
  store_step st s s' → view s !! k = Some replay →
  ∃ replay', view s' !! k = Some replay' ∧ rr_claim replay' = rr_claim replay
    ∧ (rr_state replay ≠ Claimed → replay' = replay).
Proof.
  intros [id|p|o v|c|c|c ctx o|c at_ msg] Hk.
  - rewrite view_load_delegation. eauto.
  - rewrite view_save_proof. eauto.
  - rewrite view_latest_proof. eauto.
  - rewrite view_save_context. eauto.
  - pose proof (view_claim c s) as V.
    destruct (claim_execution_replay st c s) as [[r| |] s1]; simpl in *;
      [|rewrite V; eauto..]. eauto using abstract_claim_lookup.
  - pose proof (view_complete c ctx o s) as V.
    destruct (complete_execution_replay st c ctx o s) as [[[]| |] s1]; simpl in *;
      [|rewrite V; eauto..]. eauto using settles_lookup.
  - pose proof (view_fail c at_ msg s) as V.
    destruct (fail_execution_replay st c at_ msg s) as [[[]| |] s1]; simpl in *;
      [|rewrite V; eauto..]. eauto using settles_lookup.
Qed.

Lemma store_steps_keep s s' k replay :
  rtc (store_step st) s s' → view s !! k = Some replay →
  ∃ replay', view s' !! k = Some replay' ∧ rr_claim replay' = rr_claim replay
    ∧ (rr_state replay ≠ Claimed → replay' = replay).
Proof.
  intros Hs. revert replay. induction Hs as [s|s s1 s2 H1 _ IH]; intros replay Hk; [eauto|].
  destruct (store_step_keeps _ _ _ _ H1 Hk) as (r1 & Hr1 & Hc1 & Hs1).
  destruct (IH _ Hr1) as (r2 & Hr2 & Hc2 & Hs2). exists r2. split_and!; [done|congruence|].
  intros Hn. specialize (Hs1 Hn). subst r1. auto.
Qed.

(** Replay records are final.  In every store that implements the abstract
    machine, once a key was completed or failed, any later claim of it that the
    store answers is answered [Conflict] for another input, and for the same
    input with exactly the stored outcome, or [Failed]; whatever calls were made
    in between. *)
Theorem replay_terminal_forever (s s' : S) (claim : ExecutionReplayClaim)
    (replay : RecordingReplay) (r : ClaimResult.t)
    (Hk : view s !! rc_key claim = Some replay)
    (Hterm : rr_state replay ≠ Claimed)
    (Hsteps : rtc (store_step st) s s')
    (Hr : (claim_execution_replay st claim s').1 = Ok r) :
  r = if decide (rc_input_digest (rr_claim replay) = rc_input_digest claim)
      then match rr_state replay with
           | Completed _ outcome => ClaimResult.Completed outcome
           | _ => ClaimResult.Failed
           end
      else ClaimResult.Conflict.
Proof.
  destruct (store_steps_keep _ _ _ _ Hsteps Hk) as (r' & Hr' & _ & Heq).
  rewrite (Heq Hterm) in Hr'. pose proof (view_claim claim s') as V.
  destruct (claim_execution_replay st claim s') as [res s2]. simpl in Hr. subst res.
  unfold abstract_claim in V. rewrite Hr' in V. clear Hsteps.
  destruct (decide _); [|congruence]. destruct (rr_state replay); congruence.
Qed.

(** A claim is exclusive.  While a key is held under one claim token, no
    other token can complete or fail it, whatever calls are made in between. *)
Theorem replay_claim_exclusive (s s' : S) (claim other : ExecutionReplayClaim)
    (ctx : ExecutionContext) (outcome : ExecutionOutcome) (at_ : DateTime) (msg : string)
    (Hk : ∃ state, view s !! rc_key claim = Some {| rr_claim := claim; rr_state := state |})
    (Hother : rc_key other = rc_key claim)
    (Htoken : rc_claim_token other ≠ rc_claim_token claim)
    (Hsteps : rtc (store_step st) s s') :
  is_ok (complete_execution_replay st other ctx outcome s').1 = false
  ∧ is_ok (fail_execution_replay st other at_ msg s').1 = false
  ∧ ∃ state, view s' !! rc_key claim = Some {| rr_claim := claim; rr_state := state |}.
Proof.
  destruct Hk as [state Hk].
  destruct (store_steps_keep _ _ _ _ Hsteps Hk) as ([c' st'] & Hr' & Hc & _).
  simpl in Hc. subst c'.
  assert (∀ x m', ¬ settles (view s') other x m') as Hno.
  { intros x m' (rp & Hrp & _ & Ht & _). rewrite Hother in Hrp. by simplify_eq. }
  split_and!; [..|eauto].
  - pose proof (view_complete other ctx outcome s') as V.
    destruct (complete_execution_replay st other ctx outcome s') as [[[]| |] s2]; [|done..].
    by apply Hno in V.
  - pose proof (view_fail other at_ msg s') as V.
    destruct (fail_execution_replay st other at_ msg s') as [[[]| |] s2]; [|done..].
    by apply Hno in V.
Qed.

End replay_store.

(** ** Witnesses *)

Definition sample_context : ExecutionContext :=
  {| ctx_actor := 7; ctx_principal_kind := Some Agent; ctx_delegation_id := None;
     ctx_delegation_chain := None; ctx_workspace_path := "/tmp"; ctx_timestamp := 2000 |}.

Definition sample_claim : ExecutionReplayClaim :=
  {| rc_key := {| rk_operation := "object.create"; rk_version := "v1";
                  rk_idempotency_key := 5 |};
     rc_input_digest := sample_digest "a"; rc_claim_token := 31; rc_claimed_by := 7;
     rc_claimed_at := 2000 |}.

Definition sample_other_claim : ExecutionReplayClaim :=
  {| rc_key := rc_key sample_claim; rc_input_digest := sample_digest "a";
     rc_claim_token := 32; rc_claimed_by := 9; rc_claimed_at := 2001 |}.

Definition sample_outcome : ExecutionOutcome :=
  {| eo_output := JNull; eo_proof := sample_proof |}.

Definition sample_replay_store (state : RecordingReplayState) : RecordingStore :=
  set_replay (rc_key sample_claim) {| rr_claim := sample_claim; rr_state := state |}
    RecordingStore_default.

Lemma replay_terminal_forever_witness :
  let s := sample_replay_store (Completed sample_context sample_outcome) in
  (claim_execution_replay (@recording_store Sample.sample 40) sample_other_claim s).1
    = Ok (ClaimResult.Completed sample_outcome)
  ∧ ClaimResult.Completed sample_outcome
    = ClaimResult.Completed sample_outcome.
Proof.
  split; [reflexivity|].
  apply (replay_terminal_forever (@recording_store Sample.sample 40)
    (RS := @recording_replay_store Sample.sample 40)
    (sample_replay_store (Completed sample_context sample_outcome))
    (@save_proof _ (@recording_store Sample.sample 40) sample_proof
       (sample_replay_store (Completed sample_context sample_outcome))).2
    sample_other_claim
    {| rr_claim := sample_claim; rr_state := Completed sample_context sample_outcome |}
    (ClaimResult.Completed sample_outcome)).
  - reflexivity.
  - discriminate.
  - apply rtc_once, step_save_proof.
  - reflexivity.
Defined.

Lemma replay_claim_exclusive_witness :
  let s := sample_replay_store Claimed in
  is_ok (fail_execution_replay (@recording_store Sample.sample 40) sample_other_claim
           2002 "timeout" s).1 = false.
Proof.
  apply (replay_claim_exclusive (@recording_store Sample.sample 40)
    (RS := @recording_replay_store Sample.sample 40)
    (sample_replay_store Claimed) (sample_replay_store Claimed) sample_claim
    sample_other_claim sample_context sample_outcome 2002 "timeout").
  - exists Claimed. reflexivity.
  - reflexivity.
  - discriminate.
  - apply rtc_refl.
Defined.
