(* ===== verification/OperatorEnvironment.v ===== *)
(** * The operator environment

    The model of [crates/proof-kernel/src/operator/environment.rs]: the clocks, random
    bytes and identifiers that operator code takes from outside, as a record of calls on
    a state of their own, and the deterministic [RecordingOperatorControlEnvironment]
    that the tests of the other crates run on.

    [EnvironmentLaws] is what a client may rely on: a filled buffer has the requested
    length.  The recording environment satisfies it ([recording_laws]), because its loop
    over hash blocks ends with a full buffer ([fill_blocks_full]). *)

From S2P Require Import Prelude RustStr Externals.
From stdpp Require Import options.

Inductive OperatorRandomPurpose : Type :=
| ChallengeNonce | SessionToken_ | CursorKey | LeaseToken_ | DispatchToken_ | UuidEntropy.

Inductive OperatorEnvironmentError : Type := ClockUnavailable | EntropyUnavailable.

(** The derived [Display]. *)
Definition environment_error_text (e : OperatorEnvironmentError) : string :=
  match e with
  | ClockUnavailable => "clock unavailable"
  | EntropyUnavailable => "entropy unavailable"
  end.

(** [fill_random(purpose, output)] returns the bytes it writes to [output]; its second
    argument is the length of [output]. *)
Record OperatorControlEnvironment (C : Type) := {
  env_trusted_utc_now : call C OperatorEnvironmentError DateTime;
  env_monotonic_millis : call C OperatorEnvironmentError N;
  env_fill_random : OperatorRandomPurpose → nat → call C OperatorEnvironmentError string;
  env_new_uuid_v7 : call C OperatorEnvironmentError Uuid;
}.

Arguments env_trusted_utc_now {C}.
Arguments env_monotonic_millis {C}.
Arguments env_fill_random {C}.
Arguments env_new_uuid_v7 {C}.

Class EnvironmentLaws {C} (environment : OperatorControlEnvironment C) : Prop := {
  env_fill_length purpose n c bytes c' :
    env_fill_random environment purpose n c = (Ok bytes, c') → String.length bytes = n;
}.

(** ** The recording environment *)

Definition purpose_byte (p : OperatorRandomPurpose) : ascii :=
  match p with
  | ChallengeNonce => "000" | SessionToken_ => "001" | CursorKey => "002"
  | LeaseToken_ => "003" | DispatchToken_ => "004" | UuidEntropy => "005"
  end.

(** The [n] low bytes of a number, the highest first. *)
Fixpoint be_bytes (n : nat) (value : N) : string :=
  match n with
  | O => EmptyString
  | S n' => be_bytes n' (value / 256) +:+ String (ascii_of_N (value mod 256)) EmptyString
  end.

(** [Uuid::from_bytes] *)
Fixpoint from_be_bytes (acc : N) (s : string) : N :=
  match s with
  | EmptyString => acc
  | String c s' => from_be_bytes (256 * acc + N_of_ascii c) s'
  end.

(** [bytes[i] = (bytes[i] & mask) | bits] *)
Fixpoint set_bits (i : nat) (mask bits : N) (s : string) : string :=
  match s, i with
  | EmptyString, _ => EmptyString
  | String c s', O => String (ascii_of_N (N.lor (N.land (N_of_ascii c) mask) bits)) s'
  | String c s', S i' => String c (set_bits i' mask bits s')
  end.

Record RecordingState := {
  rc_utc : DateTime;
  rc_monotonic : N;
  rc_stream : N;
  rc_calls : list OperatorRandomPurpose;
}.

Section recording.
Context (sha256 : string → string) (seed : string).

Notation recording := (call RecordingState OperatorEnvironmentError).

Definition recording_new (utc : DateTime) : RecordingState :=
  {| rc_utc := utc; rc_monotonic := 0; rc_stream := 0; rc_calls := [] |}.

Definition set_utc (utc : DateTime) (s : RecordingState) : RecordingState :=
  {| rc_utc := utc; rc_monotonic := rc_monotonic s; rc_stream := rc_stream s;
     rc_calls := rc_calls s |}.

Definition advance_monotonic (millis : N) : recording () := λ s,
  match checked_add u64_max (rc_monotonic s) millis with
  | Some monotonic =>
      (Ok (), {| rc_utc := rc_utc s; rc_monotonic := monotonic; rc_stream := rc_stream s;
                 rc_calls := rc_calls s |})
  | None => (Err ClockUnavailable, s)
  end.

(** One block of the loop: the hash of seed, purpose and stream position. *)
Definition next_block (purpose : OperatorRandomPurpose) : recording string := λ s,
  let block := sha256 ("Proof-Operator-Recording-Entropy-v1" +:+ String "000" EmptyString
                       +:+ seed +:+ String (purpose_byte purpose) EmptyString
                       +:+ be_bytes 8 (rc_stream s)) in
  match checked_add u64_max (rc_stream s) 1 with
  | Some stream =>
      (Ok block, {| rc_utc := rc_utc s; rc_monotonic := rc_monotonic s; rc_stream := stream;
                    rc_calls := rc_calls s |})
  | None => (Err EntropyUnavailable, s)
  end.

(** [while offset < output.len()]: each block fills a part of what is left, at least one
    byte, so the number of bytes bounds the iterations. *)
Fixpoint fill_blocks (fuel remaining : nat) (purpose : OperatorRandomPurpose)
    : recording string :=
  match remaining, fuel with
  | O, _ => ret EmptyString
  | _, O => λ s, (Panic, s)
  | _, S fuel' =>
      let! block := next_block purpose in
      let count := remaining `min` String.length block in
      let! rest := fill_blocks fuel' (remaining - count) purpose in
      ret (String.substring 0 count block +:+ rest)
  end.

Definition recording_fill_random (purpose : OperatorRandomPurpose) (n : nat)
    : recording string := λ s,
  fill_blocks n n purpose
    {| rc_utc := rc_utc s; rc_monotonic := rc_monotonic s; rc_stream := rc_stream s;
       rc_calls := rc_calls s ++ [purpose] |}.

Definition recording_new_uuid_v7 : recording Uuid :=
  let! now := (λ s, (Ok (rc_utc s), s)) in
  let millis := (now / 1000000)%Z in
  stop ClockUnavailable when (millis <? 0)%Z;
  let! entropy := recording_fill_random UuidEntropy 10 in
  let bytes := be_bytes 6 (Z.to_N millis mod 2 ^ 64) +:+ entropy in
  ret (from_be_bytes 0 (set_bits 8 63 128 (set_bits 6 15 112 bytes))).

Definition RecordingOperatorControlEnvironment : OperatorControlEnvironment RecordingState :=
  {| env_trusted_utc_now := λ s, (Ok (rc_utc s), s);
     env_monotonic_millis := λ s, (Ok (rc_monotonic s), s);
     env_fill_random := recording_fill_random;
     env_new_uuid_v7 := recording_new_uuid_v7 |}.

(** ** The loop fills the buffer *)

Hypothesis sha256_length : ∀ m, String.length (sha256 m) = 32.

Lemma substring_length n s : n ≤ String.length s → String.length (String.substring 0 n s) = n.
Proof.
  revert s. induction n as [|n IH]; intros [|c s] L; cbn in *; try lia.
  by rewrite IH by lia.
Qed.

Lemma length_app s t : String.length (s +:+ t) = String.length s + String.length t.
Proof. induction s as [|c s IH]; cbn; [done|]. by rewrite IH. Qed.

(** The outcome of the loop: a full buffer and one position of the stream per block, or
    the end of the stream. *)
Lemma fill_blocks_full purpose fuel n s :
  n ≤ fuel →
  let blocks := N.of_nat ((n + 31) / 32) in
  match fill_blocks fuel n purpose s with
  | (Ok bytes, s') => String.length bytes = n ∧ rc_stream s' = (rc_stream s + blocks)%N
                      ∧ rc_utc s' = rc_utc s ∧ rc_calls s' = rc_calls s
                      ∧ (rc_stream s ≤ u64_max → rc_stream s' ≤ u64_max)%N
  | (Err e, _) => e = EntropyUnavailable ∧ (u64_max < rc_stream s + blocks)%N
  | (Panic, _) => False
  end.
Proof using sha256_length.
  cbv zeta. revert n s. induction fuel as [|fuel IH]; intros [|n] s F; cbn [fill_blocks]; try lia.
  1-2: cbn; split_and!; try done; lia.
  unfold cbind, next_block.
  destruct (checked_add u64_max (rc_stream s) 1) as [stream|] eqn:A; cycle 1.
  { split; [done|]. assert (1 ≤ (S n + 31) / 32) by (apply Nat.div_le_lower_bound; lia).
    unfold checked_add in A. case_bool_decide; [done|]. lia. }
  apply checked_add_Some in A as [-> A]. rewrite sha256_length.
  set (count := S n `min` 32).
  assert (C : (S n + 31) / 32 = S ((S n - count + 31) / 32)).
  { unfold count. destruct (Nat.le_ge_cases (S n) 32) as [L|L].
    - rewrite Nat.min_l by done. replace (S n - S n + 31) with 31 by lia.
      change (31 / 32) with 0. symmetry. apply (Nat.div_unique _ _ 1 (S n - 1)); lia.
    - rewrite Nat.min_r by done. replace (S n + 31) with (S n - 32 + 31 + 1 * 32) by lia.
      rewrite Nat.div_add by lia. lia. }
  match goal with |- context [fill_blocks fuel _ _ ?s'] => specialize (IH (S n - count) s') end.
  cbn [rc_stream] in IH. rewrite C, Nat2N.inj_succ.
  destruct (fill_blocks _ _ _ _) as [[rest|e|] s']; cbn [ret].
  - destruct IH as (L & -> & U & K & M); [lia|]. split_and!; [|lia|done..|intros _; by apply M].
    rewrite length_app, substring_length, L by (rewrite sha256_length; lia). lia.
  - destruct IH as [-> L]; [lia|]. split; [done|lia].
  - apply IH. lia.
Qed.

#[export] Instance recording_laws : EnvironmentLaws RecordingOperatorControlEnvironment.
Proof using sha256_length.
  split. intros purpose n s bytes s'. cbn. unfold recording_fill_random. intros E.
  match type of E with fill_blocks _ _ _ ?s0 = _ =>
    pose proof (fill_blocks_full purpose n n s0 (le_n n)) as F end.
  cbv zeta in F. rewrite E in F. apply F.
Qed.

(** Filling a buffer terminates.  Each turn of the loop takes one block of 32 bytes,
    so that the bound on the turns, the length of the buffer, is never reached: the call
    returns a full buffer after as many positions of the stream as the buffer has
    blocks, and records its purpose, or, if the 64-bit position would overflow, the
    error. *)
Theorem recording_fill_terminates (purpose : OperatorRandomPurpose) (n : nat)
    (s : RecordingState) (W : (rc_stream s ≤ u64_max)%N) :
  let blocks := N.of_nat ((n + 31) / 32) in
  if (rc_stream s + blocks <=? u64_max)%N
  then ∃ bytes s', recording_fill_random purpose n s = (Ok bytes, s')
       ∧ String.length bytes = n ∧ rc_stream s' = (rc_stream s + blocks)%N
       ∧ rc_calls s' = rc_calls s ++ [purpose]
  else (recording_fill_random purpose n s).1 = Err EntropyUnavailable.
Proof using sha256_length.
  intros blocks. unfold recording_fill_random.
  match goal with |- context [fill_blocks n n purpose ?s0] =>
    pose proof (fill_blocks_full purpose n n s0 (le_n n)) as F end.
  cbv zeta in F. cbn [rc_stream rc_calls rc_utc] in F. fold blocks in F.
  destruct (fill_blocks _ _ _ _) as [[bytes|e|] s'].
  - destruct F as (L & E & _ & K & M). rewrite (proj2 (N.leb_le _ _)) by (rewrite <- E; auto).
    by exists bytes, s'.
  - destruct F as [-> L]. by rewrite (proj2 (N.leb_gt _ _)) by done.
  - done.
Qed.

(** ** The layout of an identifier *)

Lemma be_bytes_length n value : String.length (be_bytes n value) = n.
Proof. revert value. induction n as [|n IH]; intros v; cbn; [done|]. rewrite length_app, IH. cbn. lia. Qed.

Lemma from_be_bytes_app acc s t : from_be_bytes acc (s +:+ t) = from_be_bytes (from_be_bytes acc s) t.
Proof. revert acc. induction s as [|c s IH]; intros acc; cbn; [done|apply IH]. Qed.

Lemma from_be_bytes_be n value : from_be_bytes 0 (be_bytes n value) = (value mod 256 ^ N.of_nat n)%N.
Proof.
  revert value. induction n as [|n IH]; intros v; [by rewrite N.mod_1_r|].
  cbn [be_bytes]. rewrite from_be_bytes_app, IH. cbn [from_be_bytes].
  rewrite N_ascii_embedding by (by apply N.mod_lt).
  rewrite Nat2N.inj_succ, N.pow_succ_r', (N.Div0.mod_mul_r v 256). lia.
Qed.

Lemma set_bits_app i mask bits s t :
  set_bits (String.length s + i) mask bits (s +:+ t) = s +:+ set_bits i mask bits t.
Proof. induction s as [|c s IH]; [done|]. cbn. by rewrite IH. Qed.

(** The byte with the version, and the byte with the variant. *)
Lemma version_byte (c : ascii) :
  N_of_ascii (ascii_of_N (N.lor (N.land (N_of_ascii c) 15) 112)) = (112 + N_of_ascii c mod 16)%N.
Proof. by destruct c as [[] [] [] [] [] [] [] []]. Qed.
Lemma variant_byte (c : ascii) :
  N_of_ascii (ascii_of_N (N.lor (N.land (N_of_ascii c) 63) 128)) = (128 + N_of_ascii c mod 64)%N.
Proof. by destruct c as [[] [] [] [] [] [] [] []]. Qed.

Lemma from_be_bytes_bound s acc :
  ∃ r, from_be_bytes acc s = (acc * 256 ^ N.of_nat (String.length s) + r)%N
       ∧ (r < 256 ^ N.of_nat (String.length s))%N.
Proof.
  revert acc. induction s as [|c s IH]; intros acc; cbn [from_be_bytes String.length].
  - exists 0%N. cbn. lia.
  - destruct (IH (256 * acc + N_of_ascii c)%N) as (r & -> & L).
    exists (N_of_ascii c * 256 ^ N.of_nat (String.length s) + r)%N.
    rewrite Nat2N.inj_succ, N.pow_succ_r'.
    assert (N_of_ascii c < 256)%N by by destruct c as [[] [] [] [] [] [] [] []].
    set (p := (256 ^ N.of_nat (String.length s))%N) in *. nia.
Qed.

(** A new identifier has the layout of version 7: 48 bits of milliseconds, the version,
    12 bits, the variant and 62 bits. *)
Lemma recording_uuid_layout s id s' :
  recording_new_uuid_v7 s = (Ok id, s') →
  ∃ a b, (a < 2 ^ 12)%N ∧ (b < 2 ^ 62)%N ∧ (0 <= rc_utc s / 1000000)%Z
    ∧ id = (((Z.to_N (rc_utc s / 1000000) mod 2 ^ 64) mod 2 ^ 48) * 2 ^ 80
            + 7 * 2 ^ 76 + a * 2 ^ 64 + 2 * 2 ^ 62 + b)%N.
Proof using sha256_length.
  unfold recording_new_uuid_v7, recording_fill_random, cbind at 1.
  destruct (rc_utc s / 1000000 <? 0)%Z eqn:Z0; [discriminate|]. apply Z.ltb_ge in Z0.
  unfold cbind.
  match goal with |- context [fill_blocks 10 10 UuidEntropy ?s0] =>
    pose proof (fill_blocks_full UuidEntropy 10 10 s0 (le_n 10)) as F;
    destruct (fill_blocks 10 10 UuidEntropy s0) as [[e|e|] s1]; [|discriminate..] end.
  destruct F as (L & _). unfold ret. intros E.
  match type of E with (Ok ?x, _) = _ => assert (id = x) as -> by congruence end. clear E.
  set (t := (Z.to_N (rc_utc s / 1000000) mod 2 ^ 64)%N).
  pose proof (be_bytes_length 6 t) as L6.
  assert (set_bits 8 63 128 (set_bits 6 15 112 (be_bytes 6 t +:+ e))
          = be_bytes 6 t +:+ set_bits 2 63 128 (set_bits 0 15 112 e)) as ->.
  { rewrite <- (set_bits_app 2), <- (set_bits_app 0), L6. done. }
  rewrite from_be_bytes_app, from_be_bytes_be. change (256 ^ N.of_nat 6)%N with (2 ^ 48)%N.
  destruct e as [|c0 [|c1 [|c2 e]]]; try discriminate L.
  cbn [set_bits from_be_bytes]. rewrite version_byte, variant_byte.
  match goal with |- context [from_be_bytes ?acc e] =>
    destruct (from_be_bytes_bound e acc) as (r & -> & Lr) end.
  injection L as L. rewrite L in *. change (256 ^ N.of_nat 7)%N with 72057594037927936%N in *.
  exists ((N_of_ascii c0 mod 16) * 256 + N_of_ascii c1)%N,
    ((N_of_ascii c2 mod 64) * 72057594037927936 + r)%N.
  assert (N_of_ascii c1 < 256)%N by by destruct c1 as [[] [] [] [] [] [] [] []].
  assert (N_of_ascii c0 mod 16 < 16)%N by by apply N.mod_lt.
  assert (N_of_ascii c2 mod 64 < 64)%N by by apply N.mod_lt.
  change (2 ^ 12)%N with 4096%N. change (2 ^ 62)%N with 4611686018427387904%N.
  change (2 ^ 80)%N with (65536 * 256 * 72057594037927936)%N.
  change (2 ^ 76)%N with (4096 * 256 * 72057594037927936)%N.
  change (2 ^ 64)%N with (256 * 72057594037927936)%N.
  split_and!; try lia.
Qed.

End recording.
