(* ===== verification/AgentRunStore.v ===== *)
(** * The in-memory store of agent runs

    The model of [RecordingAgentRunStore] in [crates/proof-kernel/src/agent_run.rs]:
    runs and steps saved by revision, checkpoints appended to the tail of a run,
    evaluations, definitions and events saved once, and the claim that starts a live
    run at most once.

    The main theorems are about every sequence of operations on a store:
    [run_revisions_linear] (no lost update), [approval_binding_stable] (one step for an
    approval request), [checkpoints_contiguous] and [append_race] (one chain of
    checkpoints) and [live_start_once] (one run for a claim). *)

From S2P Require Import Prelude RustStr Externals Json Canonical.
From S2P Require Import Serialized Evidence OperatorCommon Approval Agent AgentRun.
From S2P Require Import ExecutionStore.
From stdpp Require Import options.

#[local] Arguments validate_initial_bundle : simpl never.

Record RecordingLiveRunStartClaim := {
  rc_claim : LiveRunStartClaim;
  rc_initial_run : AgentRun;
  rc_checkpoint_id : Uuid;
  rc_event_id : Uuid;
}.

(** The [HashMap] of claims is an association list: its order, which the program does
    not control, is the order of the iteration ([live_start_order_irrelevant]). *)
Record RecordingAgentRunStore := {
  rs_runs : gmap N AgentRun;
  rs_steps : gmap N AgentRunStep;
  rs_checkpoints : gmap N AgentCheckpoint;
  rs_evaluations : gmap N AgentRunEvaluation;
  rs_definitions : gmap N AgentDefinition;
  rs_events : gmap N AgentRunEvent;
  rs_claims : list (ContentDigest * RecordingLiveRunStartClaim);
}.

Definition RecordingAgentRunStore_default : RecordingAgentRunStore :=
  {| rs_runs := ∅; rs_steps := ∅; rs_checkpoints := ∅; rs_evaluations := ∅;
     rs_definitions := ∅; rs_events := ∅; rs_claims := [] |}.

Definition set_runs (m : gmap N AgentRun) (s : RecordingAgentRunStore) :=
  {| rs_runs := m; rs_steps := rs_steps s; rs_checkpoints := rs_checkpoints s;
     rs_evaluations := rs_evaluations s; rs_definitions := rs_definitions s;
     rs_events := rs_events s; rs_claims := rs_claims s |}.
Definition set_steps (m : gmap N AgentRunStep) (s : RecordingAgentRunStore) :=
  {| rs_runs := rs_runs s; rs_steps := m; rs_checkpoints := rs_checkpoints s;
     rs_evaluations := rs_evaluations s; rs_definitions := rs_definitions s;
     rs_events := rs_events s; rs_claims := rs_claims s |}.
Definition set_checkpoints (m : gmap N AgentCheckpoint) (s : RecordingAgentRunStore) :=
  {| rs_runs := rs_runs s; rs_steps := rs_steps s; rs_checkpoints := m;
     rs_evaluations := rs_evaluations s; rs_definitions := rs_definitions s;
     rs_events := rs_events s; rs_claims := rs_claims s |}.
Definition set_evaluations (m : gmap N AgentRunEvaluation) (s : RecordingAgentRunStore) :=
  {| rs_runs := rs_runs s; rs_steps := rs_steps s; rs_checkpoints := rs_checkpoints s;
     rs_evaluations := m; rs_definitions := rs_definitions s;
     rs_events := rs_events s; rs_claims := rs_claims s |}.
Definition set_definitions (m : gmap N AgentDefinition) (s : RecordingAgentRunStore) :=
  {| rs_runs := rs_runs s; rs_steps := rs_steps s; rs_checkpoints := rs_checkpoints s;
     rs_evaluations := rs_evaluations s; rs_definitions := m;
     rs_events := rs_events s; rs_claims := rs_claims s |}.
Definition set_events (m : gmap N AgentRunEvent) (s : RecordingAgentRunStore) :=
  {| rs_runs := rs_runs s; rs_steps := rs_steps s; rs_checkpoints := rs_checkpoints s;
     rs_evaluations := rs_evaluations s; rs_definitions := rs_definitions s;
     rs_events := m; rs_claims := rs_claims s |}.

Inductive AgentCheckpointAppendResult : Type := Appended | Stale | AppendUnsupported.

Inductive LiveRunStartClaimResult : Type :=
| Acquired
| Existing (run_id : Uuid)
| Conflict
| ClaimUnsupported.

(** ** Saving by revision, saving once *)

Section store.
Context `{Externals}.

Definition save_versioned_locked {T} `{EqDecision T} (records : gmap N T) (id : Uuid)
    (revision : N) (value : T) (stored_revision : T → N) : result string () * gmap N T :=
  match records !! id with
  | Some existing =>
      if bool_decide (existing = value) then (Ok (), records)
      else if bool_decide (checked_add u64_max (stored_revision existing) 1 = Some revision)
      then (Ok (), <[id := value]> records)
      else (Err ("stale agent run revision: stored " +:+ pretty (stored_revision existing)
                 +:+ ", supplied " +:+ pretty revision), records)
  | None =>
      if (revision =? 0)%N then (Ok (), <[id := value]> records)
      else (Err ("new agent run record " +:+ uuid_to_string id
                 +:+ " must start at revision 0"), records)
  end.

(** The same code as [save_once] of the approval store. *)
Definition save_once_locked {T} `{EqDecision T} (records : gmap N T) (id : Uuid) (value : T)
    (name : string) : result string () * gmap N T :=
  save_once records id value name.

Definition load_record {T} (records : gmap N T) (id : Uuid) : result string (option T) :=
  Ok (records !! id).

(** ** Runs and steps *)

Definition save_agent_run (run : AgentRun) : call RecordingAgentRunStore string () := λ s,
  let '(r, m) := save_versioned_locked (rs_runs s) (run_id run) (run_revision run) run
                   run_revision in
  (r, set_runs m s).

Definition load_agent_run (id : Uuid)
    : call RecordingAgentRunStore string (option AgentRun) := λ s,
  (load_record (rs_runs s) id, s).

Definition list_agent_runs : call RecordingAgentRunStore string (list AgentRun) := λ s,
  (Ok (sort_by_key2 (λ r, (run_created_at r, Z.of_N (run_id r)))
         (btree_values (rs_runs s))), s).

Definition binding_changes (step existing : AgentRunStep) : bool :=
  bool_decide (is_Some (step_approval_request_id existing))
  && negb (bool_decide (step_approval_request_id existing = step_approval_request_id step)).

Definition bound_elsewhere (step : AgentRunStep) (approval_request_id : Uuid)
    (steps : gmap N AgentRunStep) : option AgentRunStep :=
  List.find (λ existing, negb (bool_decide (step_id existing = step_id step))
               && bool_decide (step_approval_request_id existing = Some approval_request_id))
    (btree_values steps).

Definition save_agent_run_step (step : AgentRunStep)
    : call RecordingAgentRunStore string () := λ s,
  if match rs_steps s !! step_id step with
     | Some existing => binding_changes step existing
     | None => false
     end
  then (Err ("agent run step " +:+ uuid_to_string (step_id step)
             +:+ " approval binding is immutable once assigned"), s)
  else match step_approval_request_id step ≫=
               λ a, (λ existing, (a, existing)) <$> bound_elsewhere step a (rs_steps s) with
       | Some (a, existing) =>
           (Err ("approval request " +:+ uuid_to_string a
                 +:+ " is already bound to agent run step "
                 +:+ uuid_to_string (step_id existing)), s)
       | None =>
           let '(r, m) := save_versioned_locked (rs_steps s) (step_id step)
                            (step_revision step) step step_revision in
           (r, set_steps m s)
       end.

Definition load_agent_run_step (id : Uuid)
    : call RecordingAgentRunStore string (option AgentRunStep) := λ s,
  (load_record (rs_steps s) id, s).

Definition list_agent_run_steps (run_id : Uuid)
    : call RecordingAgentRunStore string (list AgentRunStep) := λ s,
  (Ok (sort_by_key2 (λ t, (Z.of_N (step_ordinal t), Z.of_N (step_attempt t)))
         (filter (λ t, step_run_id t = run_id) (btree_values (rs_steps s)))), s).

Definition find_agent_run_step_by_approval (approval_request_id : Uuid)
    : call RecordingAgentRunStore string (option AgentRunStep) := λ s,
  match filter (λ t, step_approval_request_id t = Some approval_request_id)
          (btree_values (rs_steps s)) with
  | [] => (Ok None, s)
  | [matched] => (Ok (Some matched), s)
  | _ => (Err ("approval request " +:+ uuid_to_string approval_request_id
               +:+ " is bound to multiple agent run steps"), s)
  end.

(** ** Checkpoints *)

Definition validate_agent_checkpoint_integrity (checkpoint : AgentCheckpoint)
    (description : string) : result string () :=
  let? canonical := map_err (λ e, description +:+ " state is not canonicalizable: "
                                  +:+ CanonicalizationError_to_string e)
                      (canonicalize (cp_state checkpoint)) in
  bail description +:+ " state digest does not match its state"
    when negb (bool_decide (cp_state_digest checkpoint
                            = digest AgentCheckpointKind canonical));
  Ok ().

Definition run_checkpoints (run_id : Uuid) (m : gmap N AgentCheckpoint)
    : list AgentCheckpoint :=
  filter (λ c, cp_run_id c = run_id) (btree_values m).

(** [max_by_key(|existing| existing.sequence)]: the last of the largest. *)
Definition max_by_sequence (l : list AgentCheckpoint) : option AgentCheckpoint :=
  foldl (λ best c, match best with
                   | Some b => if (cp_sequence b <=? cp_sequence c)%N then Some c else Some b
                   | None => Some c
                   end) None l.

Definition validate_opt (o : option AgentCheckpoint) (description : string)
    : result string () :=
  match o with
  | Some c => validate_agent_checkpoint_integrity c description
  | None => Ok ()
  end.

(** The sequence that follows the expected tail. *)
Definition expected_sequence (expected_tail : option AgentCheckpointTail) : result string N :=
  match expected_tail with
  | Some tail =>
      ok_or (checked_add u32_max (tail_sequence tail) 1)
        "new agent checkpoint sequence cannot follow the maximum expected tail sequence"
  | None => Ok 0%N
  end.

Definition predecessor_of (checkpoint : AgentCheckpoint) (m : gmap N AgentCheckpoint)
    : option AgentCheckpoint :=
  if (cp_sequence checkpoint =? 0)%N then None
  else List.find (λ existing, bool_decide (cp_run_id existing = cp_run_id checkpoint)
                    && (cp_sequence existing =? cp_sequence checkpoint - 1)%N)
         (btree_values m).

Definition foreign_tail (expected_tail : option AgentCheckpointTail)
    (checkpoint : AgentCheckpoint) (m : gmap N AgentCheckpoint)
    : option (AgentCheckpointTail * AgentCheckpoint) :=
  tail ← expected_tail;
  predecessor ← m !! tail_checkpoint_id tail;
  if bool_decide (cp_run_id predecessor = cp_run_id checkpoint) then None
  else Some (tail, predecessor).

(** What the append answers, and whether it inserts the checkpoint. *)
Definition append_decision (expected_tail : option AgentCheckpointTail)
    (checkpoint : AgentCheckpoint) (m : gmap N AgentCheckpoint)
    : result string (AgentCheckpointAppendResult * bool) :=
  let? _ := validate_agent_checkpoint_integrity checkpoint "new agent checkpoint" in
  let? next := expected_sequence expected_tail in
  bail "new agent checkpoint sequence " +:+ pretty (cp_sequence checkpoint)
       +:+ " does not follow expected sequence " +:+ pretty next
    when negb (cp_sequence checkpoint =? next)%N;
  bail "agent checkpoint " +:+ uuid_to_string (cp_id checkpoint)
       +:+ " conflicts with an existing immutable checkpoint"
    when match m !! cp_id checkpoint with
         | Some existing => negb (bool_decide (existing = checkpoint))
         | None => false
         end;
  match foreign_tail expected_tail checkpoint m with
  | Some (tail, predecessor) =>
      Err ("expected agent checkpoint tail " +:+ uuid_to_string (tail_checkpoint_id tail)
           +:+ " belongs to run " +:+ uuid_to_string (cp_run_id predecessor)
           +:+ ", not " +:+ uuid_to_string (cp_run_id checkpoint))
  | None =>
      let current := max_by_sequence (run_checkpoints (cp_run_id checkpoint) m) in
      let? _ := validate_opt current "stored current agent checkpoint" in
      let current_tail := tail_of <$> current in
      if bool_decide (current_tail = Some (tail_of checkpoint)) then
        let predecessor := predecessor_of checkpoint m in
        let? _ := validate_opt predecessor "stored predecessor agent checkpoint" in
        bail "agent checkpoint " +:+ uuid_to_string (cp_id checkpoint)
             +:+ " has a conflicting immutable envelope"
          when negb (bool_decide (current = Some checkpoint));
        Ok (if bool_decide (tail_of <$> predecessor = expected_tail) then Appended else Stale,
            false)
      else if negb (bool_decide (current_tail = expected_tail)) then Ok (Stale, false)
      else
        bail "agent checkpoint sequence " +:+ pretty (cp_sequence checkpoint)
             +:+ " conflicts within run " +:+ uuid_to_string (cp_run_id checkpoint)
          when existsb (λ existing, bool_decide (cp_run_id existing = cp_run_id checkpoint)
                          && (cp_sequence existing =? cp_sequence checkpoint)%N)
                 (btree_values m);
        Ok (Appended, true)
  end.

Definition append_agent_checkpoint (expected_tail : option AgentCheckpointTail)
    (checkpoint : AgentCheckpoint)
    : call RecordingAgentRunStore string AgentCheckpointAppendResult := λ s,
  match append_decision expected_tail checkpoint (rs_checkpoints s) with
  | Ok (answer, true) =>
      (Ok answer, set_checkpoints (<[cp_id checkpoint := checkpoint]> (rs_checkpoints s)) s)
  | Ok (answer, false) => (Ok answer, s)
  | Err e => (Err e, s)
  | Panic => (Panic, s)
  end.

Definition save_agent_checkpoint (checkpoint : AgentCheckpoint)
    : call RecordingAgentRunStore string () := λ s,
  if existsb (λ existing, bool_decide (cp_run_id existing = cp_run_id checkpoint)
                && (cp_sequence existing =? cp_sequence checkpoint)%N
                && negb (bool_decide (cp_id existing = cp_id checkpoint)))
       (btree_values (rs_checkpoints s))
  then (Err ("agent checkpoint sequence " +:+ pretty (cp_sequence checkpoint)
             +:+ " already exists for run " +:+ uuid_to_string (cp_run_id checkpoint)), s)
  else let '(r, m) := save_once_locked (rs_checkpoints s) (cp_id checkpoint) checkpoint
                        "agent checkpoint" in
       (r, set_checkpoints m s).

Definition list_agent_checkpoints (run_id : Uuid)
    : call RecordingAgentRunStore string (list AgentCheckpoint) := λ s,
  (Ok (sort_by_key2 (λ c, (Z.of_N (cp_sequence c), 0%Z))
         (run_checkpoints run_id (rs_checkpoints s))), s).

(** ** Evaluations, definitions and events *)

Definition save_agent_run_evaluation (evaluation : AgentRunEvaluation)
    : call RecordingAgentRunStore string () := λ s,
  let '(r, m) := save_once_locked (rs_evaluations s) (eval_id evaluation) evaluation
                   "agent run evaluation" in
  (r, set_evaluations m s).

Definition list_agent_run_evaluations (run_id : Uuid)
    : call RecordingAgentRunStore string (list AgentRunEvaluation) := λ s,
  (Ok (sort_by_key2 (λ e, (eval_created_at e, Z.of_N (eval_id e)))
         (filter (λ e, eval_run_id e = run_id) (btree_values (rs_evaluations s)))), s).

(** The [AgentStore] operations of the run store. *)
Definition rs_save_agent_definition (agent : AgentDefinition)
    : call RecordingAgentRunStore string () := λ s,
  if same_name_elsewhere agent (rs_definitions s)
  then (Err ("agent name already exists: " +:+ agent_name agent), s)
  else let '(r, m) := save_once_locked (rs_definitions s) (agent_id agent) agent
                        "agent definition" in
       (r, set_definitions m s).

Definition rs_load_agent_definition (id : Uuid)
    : call RecordingAgentRunStore string (option AgentDefinition) := λ s,
  (load_record (rs_definitions s) id, s).

Definition rs_list_agent_definitions
    : call RecordingAgentRunStore string (list AgentDefinition) := λ s,
  (Ok (sort_by_key2 (λ a, (agent_created_at a, Z.of_N (agent_id a)))
         (btree_values (rs_definitions s))), s).

Definition rs_save_agent_run_event (event : AgentRunEvent)
    : call RecordingAgentRunStore string () := λ s,
  if sequence_taken event (rs_events s)
  then (Err ("agent run event sequence " +:+ pretty (ev_sequence event)
             +:+ " already exists for run " +:+ uuid_to_string (ev_run_id event)), s)
  else let '(r, m) := save_once_locked (rs_events s) (ev_id event) event
                        "agent run event" in
       (r, set_events m s).

Definition rs_list_agent_run_events (run_id : Uuid)
    : call RecordingAgentRunStore string (list AgentRunEvent) := λ s,
  (Ok (sort_by_key2 (λ e, (Z.of_N (ev_sequence e), 0%Z))
         (filter (λ e, ev_run_id e = run_id) (btree_values (rs_events s)))), s).

(** ** The live-start claim *)

Definition claim_overlaps (claim : LiveRunStartClaim) (existing : RecordingLiveRunStartClaim)
    : bool :=
  bool_decide (lc_readiness_binding_digest (rc_claim existing)
               = lc_readiness_binding_digest claim)
  || bool_decide (lc_setup_digest (rc_claim existing) = lc_setup_digest claim).

Definition validate_progressed_claim_run (initial current : AgentRun) : result string () :=
  bail "claimed live run identity or history drifted"
    when negb (bool_decide (run_id current = run_id initial))
         || negb (bool_decide (run_actor current = run_actor initial))
         || negb (bool_decide (run_agent_id current = run_agent_id initial))
         || negb (bool_decide (run_mode current = run_mode initial))
         || negb (bool_decide (run_goal current = run_goal initial))
         || negb (bool_decide (run_created_at current = run_created_at initial))
         || (run_revision current <? run_revision initial)%N
         || (run_updated_at current <? run_updated_at initial)%Z;
  Ok ().

(** The answer to an exact replay of a claim: the evidence is still there, and the run
    has only progressed. *)
Definition replay_claim (existing : RecordingLiveRunStartClaim) (s : RecordingAgentRunStore)
    : result string LiveRunStartClaimResult :=
  let? current_run := ok_or (rs_runs s !! run_id (rc_initial_run existing))
                        "claimed live run is missing" in
  let? checkpoint := ok_or (rs_checkpoints s !! rc_checkpoint_id existing)
                       "claimed live start checkpoint is missing" in
  let? event := ok_or (rs_events s !! rc_event_id existing)
                  "claimed live start event is missing" in
  let? _ := map_err AgentRunError.to_string
              (validate_initial_bundle (rc_claim existing) (rc_initial_run existing)
                 checkpoint event) in
  let? _ := validate_progressed_claim_run (rc_initial_run existing) current_run in
  Ok (Existing (run_id (rc_initial_run existing))).

Definition evidence_conflicts (initial_run : AgentRun) (initial_checkpoint : AgentCheckpoint)
    (started_event : AgentRunEvent) (s : RecordingAgentRunStore) : bool :=
  bool_decide (is_Some (rs_runs s !! run_id initial_run))
  || bool_decide (is_Some (rs_checkpoints s !! cp_id initial_checkpoint))
  || existsb (λ c, bool_decide (cp_run_id c = run_id initial_run) && (cp_sequence c =? 0)%N)
       (btree_values (rs_checkpoints s))
  || bool_decide (is_Some (rs_events s !! ev_id started_event))
  || existsb (λ e, bool_decide (ev_run_id e = run_id initial_run) && (ev_sequence e =? 0)%N)
       (btree_values (rs_events s)).

Fixpoint claims_insert (k : ContentDigest) (v : RecordingLiveRunStartClaim)
    (l : list (ContentDigest * RecordingLiveRunStartClaim)) :=
  match l with
  | [] => [(k, v)]
  | (k', v') :: l' =>
      if bool_decide (k' = k) then (k, v) :: l' else (k', v') :: claims_insert k v l'
  end.

(** The four insertions. *)
Definition acquire_claim (claim : LiveRunStartClaim) (initial_run : AgentRun)
    (initial_checkpoint : AgentCheckpoint) (started_event : AgentRunEvent)
    (s : RecordingAgentRunStore) : RecordingAgentRunStore :=
  {| rs_runs := <[run_id initial_run := initial_run]> (rs_runs s);
     rs_steps := rs_steps s;
     rs_checkpoints := <[cp_id initial_checkpoint := initial_checkpoint]> (rs_checkpoints s);
     rs_evaluations := rs_evaluations s; rs_definitions := rs_definitions s;
     rs_events := <[ev_id started_event := started_event]> (rs_events s);
     rs_claims :=
       claims_insert (lc_readiness_binding_digest claim)
         {| rc_claim := claim; rc_initial_run := initial_run;
            rc_checkpoint_id := cp_id initial_checkpoint;
            rc_event_id := ev_id started_event |} (rs_claims s) |}.

Definition claim_live_run_start (claim : LiveRunStartClaim) (initial_run : AgentRun)
    (initial_checkpoint : AgentCheckpoint) (started_event : AgentRunEvent)
    : call RecordingAgentRunStore string LiveRunStartClaimResult := λ s,
  (let! _ := lift (map_err AgentRunError.to_string
                (validate_initial_bundle claim initial_run initial_checkpoint
                   started_event)) in
   match List.find (claim_overlaps claim) (rs_claims s).*2 with
   | Some existing =>
       if negb (bool_decide (rc_claim existing = claim)) then ret Conflict
       else lift (replay_claim existing s)
   | None =>
       stop "live start initial evidence conflicts with existing rows"
         when evidence_conflicts initial_run initial_checkpoint started_event s;
       λ s, (Ok Acquired, acquire_claim claim initial_run initial_checkpoint started_event s)
   end) s.

(** ** Sequences of operations *)

Inductive store_op : Type :=
| OpClaim (claim : LiveRunStartClaim) (run : AgentRun) (checkpoint : AgentCheckpoint)
    (event : AgentRunEvent)
| OpSaveRun (run : AgentRun)
| OpSaveStep (step : AgentRunStep)
| OpAppendCheckpoint (tail : option AgentCheckpointTail) (checkpoint : AgentCheckpoint)
| OpSaveCheckpoint (checkpoint : AgentCheckpoint)
| OpSaveEvaluation (evaluation : AgentRunEvaluation)
| OpSaveDefinition (agent : AgentDefinition)
| OpSaveEvent (event : AgentRunEvent).

(** The store after an operation, whatever it answers; the other operations only read. *)
Definition store_apply (o : store_op) (s : RecordingAgentRunStore) : RecordingAgentRunStore :=
  match o with
  | OpClaim claim run checkpoint event => (claim_live_run_start claim run checkpoint event s).2
  | OpSaveRun run => (save_agent_run run s).2
  | OpSaveStep step => (save_agent_run_step step s).2
  | OpAppendCheckpoint tail checkpoint => (append_agent_checkpoint tail checkpoint s).2
  | OpSaveCheckpoint checkpoint => (save_agent_checkpoint checkpoint s).2
  | OpSaveEvaluation evaluation => (save_agent_run_evaluation evaluation s).2
  | OpSaveDefinition agent => (rs_save_agent_definition agent s).2
  | OpSaveEvent event => (rs_save_agent_run_event event s).2
  end.

Definition store_run (ops : list store_op) (s : RecordingAgentRunStore)
    : RecordingAgentRunStore :=
  foldl (λ s o, store_apply o s) s ops.

(** An invariant of the operations holds after every sequence of them. *)
Lemma store_run_invariant (P : RecordingAgentRunStore → Prop) ops s :
  (∀ o s, P s → P (store_apply o s)) → P s → P (store_run ops s).
Proof.
  intros Hstep. revert s. induction ops as [|o ops IH]; intros s HP; simpl; [done|].
  apply IH. by apply Hstep.
Qed.

(** ** What one operation changes *)

Lemma save_versioned_spec {T} `{EqDecision T} (m : gmap N T) id revision v f r m' :
  save_versioned_locked m id revision v f = (r, m') →
  (r = Ok () ∧ m' = m ∧ m !! id = Some v)
  ∨ (r = Ok () ∧ m' = <[id := v]> m
     ∧ match m !! id with Some e => revision = (f e + 1)%N | None => revision = 0%N end)
  ∨ (is_ok r = false ∧ m' = m ∧ m !! id ≠ Some v).
Proof.
  unfold save_versioned_locked. destruct (m !! id) as [e|] eqn:E.
  - case_bool_decide; [|case_bool_decide as Hc]; intros [= <- <-]; simplify_eq.
    + by left.
    + right. left. by apply checked_add_Some in Hc as [-> _].
    + right. right. by split_and!; [..|congruence].
  - destruct (N.eqb_spec revision 0); intros [= <- <-]; [right; left|right; right]; done.
Qed.

Lemma claim_spec c run cp ev s :
  (∃ x, claim_live_run_start c run cp ev s = (x, s) ∧ x ≠ Ok Acquired)
  ∨ (validate_initial_bundle c run cp ev = Ok ()
     ∧ List.find (claim_overlaps c) (rs_claims s).*2 = None
     ∧ evidence_conflicts run cp ev s = false
     ∧ claim_live_run_start c run cp ev s = (Ok Acquired, acquire_claim c run cp ev s)).
Proof.
  unfold claim_live_run_start, cbind, lift, map_err.
  destruct (validate_initial_bundle c run cp ev) as [[]|e|]; [|left; by eexists..].
  destruct (List.find _ _) as [x|] eqn:Hf.
  - left. case_bool_decide; simpl; [|by eexists]. unfold lift. eexists. split; [done|].
    unfold replay_claim, rbind, ok_or, map_err.
    repeat (match goal with |- context [match ?x with _ => _ end] => destruct x end; try done).
  - destruct (evidence_conflicts run cp ev s); [left; by eexists|by right].
Qed.

Lemma existsb_false_elem {A} (f : A → bool) l :
  existsb f l = false ↔ ∀ x, x ∈ l → f x = false.
Proof.
  induction l as [|y l IH]; simpl; [by split; [intros _ x ?%elem_of_nil|]|].
  rewrite orb_false_iff, IH. setoid_rewrite elem_of_cons. naive_solver.
Qed.

Lemma find_none_elem {A} (f : A → bool) l :
  List.find f l = None ↔ ∀ x, x ∈ l → f x = false.
Proof.
  induction l as [|y l IH]; simpl; [by split; [intros _ x ?%elem_of_nil|]|].
  setoid_rewrite elem_of_cons. destruct (f y) eqn:E; [|naive_solver].
  split; [done|]. intros Hall. specialize (Hall y). intuition congruence.
Qed.

Lemma find_some_elem {A} (f : A → bool) l x :
  List.find f l = Some x → x ∈ l ∧ f x = true.
Proof.
  intros [Hin Hf]%List.find_some. split; [by apply list_elem_of_In|done].
Qed.

Lemma max_by_sequence_spec l :
  match max_by_sequence l with
  | Some c => c ∈ l ∧ ∀ c', c' ∈ l → (cp_sequence c' <= cp_sequence c)%N
  | None => l = []
  end.
Proof.
  unfold max_by_sequence. induction l as [|x l IH] using rev_ind; [done|].
  rewrite foldl_app. simpl. destruct (foldl _ _ l) as [b|].
  - destruct IH as [Hin Hmax].
    destruct (N.leb_spec (cp_sequence b) (cp_sequence x)); (split; [set_solver|]);
      intros c [Hc|Hc]%elem_of_app; try apply list_elem_of_singleton in Hc as ->;
      try (apply Hmax in Hc); lia.
  - subst l. split; [set_solver|]. intros c Hc%list_elem_of_singleton. subst. lia.
Qed.

Lemma run_checkpoints_elem run m c :
  c ∈ run_checkpoints run m ↔ cp_run_id c = run ∧ ∃ k, m !! k = Some c.
Proof. unfold run_checkpoints. by rewrite list_elem_of_filter, btree_values_elem. Qed.

Lemma sequence_free_elem cp (m : gmap N AgentCheckpoint) :
  existsb (λ c, bool_decide (cp_run_id c = cp_run_id cp)
                && (cp_sequence c =? cp_sequence cp)%N) (btree_values m) = false →
  ∀ k c, m !! k = Some c → cp_run_id c = cp_run_id cp → cp_sequence c ≠ cp_sequence cp.
Proof.
  rewrite existsb_false_elem. intros Hall k c Hk Hrun Hseq.
  specialize (Hall c). rewrite btree_values_elem, bool_decide_true, Hseq, N.eqb_refl in Hall
    by done. by discriminate Hall; eauto.
Qed.

(** When an append inserts the checkpoint. *)
Lemma append_inserts tail cp m x :
  append_decision tail cp m = Ok (x, true) →
  x = Appended
  ∧ validate_agent_checkpoint_integrity cp "new agent checkpoint" = Ok ()
  ∧ expected_sequence tail = Ok (cp_sequence cp)
  ∧ tail = tail_of <$> max_by_sequence (run_checkpoints (cp_run_id cp) m)
  ∧ m !! cp_id cp = None
  ∧ ∀ k c, m !! k = Some c → cp_run_id c = cp_run_id cp → cp_sequence c ≠ cp_sequence cp.
Proof.
  unfold append_decision. intros ([] & Hval & E)%rbind_Ok.
  apply rbind_Ok in E as (next & Hnext & E).
  destruct (N.eqb_spec (cp_sequence cp) next) as [<-|]; [simpl in E|done].
  destruct (match m !! cp_id cp with Some _ => _ | None => _ end) eqn:Hid; [done|].
  destruct (foreign_tail tail cp m) as [[t p]|]; [done|].
  apply rbind_Ok in E as ([] & _ & E).
  case_bool_decide as Hcand; [exfalso|].
  { apply rbind_Ok in E as ([] & _ & E). by destruct (negb _). }
  case_bool_decide as Hcur; [simpl in E|done].
  destruct (existsb _ _) eqn:Hfree; [done|]. injection E as <-.
  pose proof (sequence_free_elem cp m Hfree) as Hall. split_and!; try done.
  destruct (m !! cp_id cp) as [c|] eqn:Hc; [|done]. exfalso.
  apply negb_false_iff, bool_decide_eq_true in Hid. subst c. by apply (Hall _ _ Hc).
Qed.

(** ** Invariants *)

(** Keys are the ids of the records, an approval request is bound to one step, a
    sequence of a run to one checkpoint, claims do not overlap, and the evidence of a
    claim is in the store. *)
Record store_wf (s : RecordingAgentRunStore) : Prop := {
  wf_steps : ∀ k t, rs_steps s !! k = Some t → step_id t = k;
  wf_approvals : ∀ k1 k2 t1 t2 a,
    rs_steps s !! k1 = Some t1 → rs_steps s !! k2 = Some t2 →
    step_approval_request_id t1 = Some a → step_approval_request_id t2 = Some a → k1 = k2;
  wf_checkpoints : ∀ k c, rs_checkpoints s !! k = Some c → cp_id c = k;
  wf_sequences : ∀ k1 k2 c1 c2,
    rs_checkpoints s !! k1 = Some c1 → rs_checkpoints s !! k2 = Some c2 →
    cp_run_id c1 = cp_run_id c2 → cp_sequence c1 = cp_sequence c2 → k1 = k2;
  wf_claims : ∀ k1 k2 x1 x2,
    (k1, x1) ∈ rs_claims s → (k2, x2) ∈ rs_claims s →
    claim_overlaps (rc_claim x1) x2 = true → x1 = x2;
  wf_claim_keys : ∀ k x,
    (k, x) ∈ rs_claims s → k = lc_readiness_binding_digest (rc_claim x);
  wf_evidence : ∀ k x, (k, x) ∈ rs_claims s →
    is_Some (rs_runs s !! run_id (rc_initial_run x))
    ∧ ∃ cp ev, rs_checkpoints s !! rc_checkpoint_id x = Some cp
        ∧ rs_events s !! rc_event_id x = Some ev
        ∧ validate_initial_bundle (rc_claim x) (rc_initial_run x) cp ev = Ok ();
}.

(** Records only move forward. *)
Definition run_le (r r' : AgentRun) : Prop :=
  r' = r ∨ (run_revision r < run_revision r')%N.

Record step_le (t t' : AgentRunStep) : Prop := {
  step_le_revision : t' = t ∨ (step_revision t < step_revision t')%N;
  step_le_binding : ∀ a, step_approval_request_id t = Some a →
    step_approval_request_id t' = Some a;
}.

Definition map_le {A} (R : relation A) (m m' : gmap N A) : Prop :=
  ∀ k a, m !! k = Some a → ∃ a', m' !! k = Some a' ∧ R a a'.

Record store_le (s s' : RecordingAgentRunStore) : Prop := {
  le_runs : map_le run_le (rs_runs s) (rs_runs s');
  le_steps : map_le step_le (rs_steps s) (rs_steps s');
  le_checkpoints : rs_checkpoints s ⊆ rs_checkpoints s';
  le_evaluations : rs_evaluations s ⊆ rs_evaluations s';
  le_definitions : rs_definitions s ⊆ rs_definitions s';
  le_events : rs_events s ⊆ rs_events s';
  le_claims : rs_claims s ⊆ rs_claims s';
}.

#[local] Instance run_le_preorder : PreOrder run_le.
Proof.
  unfold run_le. split; [by left|].
  intros x y z [->|H1] [->|H2]; auto; right; lia.
Qed.

#[local] Instance step_le_preorder : PreOrder step_le.
Proof.
  split; [by intros r; constructor; [left|]|].
  intros x y z [[->|H1] B1] [[->|H2] B2]; constructor; auto; right; lia.
Qed.

#[local] Instance map_le_preorder {A} (R : relation A) `{!PreOrder R} : PreOrder (map_le R).
Proof.
  split; [by intros m k a Hk; exists a|].
  intros m1 m2 m3 H12 H23 k a1 (a2 & H2 & R1)%H12. apply H23 in H2 as (a3 & H3 & R2).
  exists a3. split; [done|by etrans].
Qed.

#[local] Instance store_le_preorder : PreOrder store_le.
Proof.
  split; [by intros s; constructor|].
  intros s1 s2 s3 [] []; constructor; by etrans.
Qed.

Lemma map_le_insert {A} (R : relation A) `{!PreOrder R} (m : gmap N A) k v :
  (∀ a, m !! k = Some a → R a v) → map_le R m (<[k := v]> m).
Proof.
  intros HR j a Hj. destruct (decide (k = j)) as [<-|Hne].
  - exists v. rewrite lookup_insert_eq. auto.
  - exists a. by rewrite lookup_insert_ne.
Qed.

Lemma claims_insert_new k v l :
  (∀ x, (k, x) ∉ l) → claims_insert k v l = l ++ [(k, v)].
Proof.
  induction l as [|[k' v'] l IH]; intros Hk; simpl; [done|].
  rewrite bool_decide_false; [|by intros ->; apply (Hk v'); left].
  f_equal. apply IH. intros x Hx. apply (Hk x). by right.
Qed.

(** The claims after one is acquired. *)
Lemma acquire_claims c run cp ev s :
  store_wf s → List.find (claim_overlaps c) (rs_claims s).*2 = None →
  rs_claims (acquire_claim c run cp ev s)
  = rs_claims s ++ [(lc_readiness_binding_digest c,
                     {| rc_claim := c; rc_initial_run := run; rc_checkpoint_id := cp_id cp;
                        rc_event_id := ev_id ev |})].
Proof.
  intros Hwf Hf. apply claims_insert_new. intros x Hx.
  rewrite find_none_elem in Hf. specialize (Hf x).
  rewrite list_elem_of_fmap in Hf. pose proof (wf_claim_keys s Hwf _ _ Hx) as Hk.
  unfold claim_overlaps in Hf. rewrite bool_decide_true in Hf by done.
  discriminate Hf. by exists (lc_readiness_binding_digest c, x).
Qed.

(** ** The changes that an operation can make *)

Definition sequence_free (cp : AgentCheckpoint) (m : gmap N AgentCheckpoint) : Prop :=
  ∀ k c, m !! k = Some c → cp_run_id c = cp_run_id cp → cp_sequence c ≠ cp_sequence cp.

(** [store_change o s s']: the operation [o] takes the store from [s] to [s'], and what
    it has checked. *)
Inductive store_change (o : store_op) (s : RecordingAgentRunStore)
    : RecordingAgentRunStore → Prop :=
| change_none : store_change o s s
| change_run run :
    (∀ r, rs_runs s !! run_id run = Some r → run_revision run = (run_revision r + 1)%N) →
    store_change o s (set_runs (<[run_id run := run]> (rs_runs s)) s)
| change_step t :
    (∀ t0, rs_steps s !! step_id t = Some t0 →
       step_revision t = (step_revision t0 + 1)%N
       ∧ ∀ a, step_approval_request_id t0 = Some a → step_approval_request_id t = Some a) →
    (∀ k t0 a, rs_steps s !! k = Some t0 → step_id t0 ≠ step_id t →
       step_approval_request_id t = Some a → step_approval_request_id t0 ≠ Some a) →
    store_change o s (set_steps (<[step_id t := t]> (rs_steps s)) s)
| change_checkpoint cp :
    rs_checkpoints s !! cp_id cp = None → sequence_free cp (rs_checkpoints s) →
    (o = OpSaveCheckpoint cp
     ∨ ∃ tail, o = OpAppendCheckpoint tail cp
         ∧ append_decision tail cp (rs_checkpoints s) = Ok (Appended, true)) →
    store_change o s (set_checkpoints (<[cp_id cp := cp]> (rs_checkpoints s)) s)
| change_evaluation e :
    rs_evaluations s !! eval_id e = None →
    store_change o s (set_evaluations (<[eval_id e := e]> (rs_evaluations s)) s)
| change_definition d :
    rs_definitions s !! agent_id d = None →
    store_change o s (set_definitions (<[agent_id d := d]> (rs_definitions s)) s)
| change_event e :
    rs_events s !! ev_id e = None →
    store_change o s (set_events (<[ev_id e := e]> (rs_events s)) s)
| change_claim c run cp ev :
    validate_initial_bundle c run cp ev = Ok () →
    List.find (claim_overlaps c) (rs_claims s).*2 = None →
    rs_runs s !! run_id run = None → rs_checkpoints s !! cp_id cp = None →
    sequence_free cp (rs_checkpoints s) → rs_events s !! ev_id ev = None →
    store_change o s (acquire_claim c run cp ev s).

(** Saving once either changes nothing or adds a record under a new key. *)
Lemma save_once_cases {T} `{EqDecision T} (m : gmap N T) k v name r m' :
  save_once_locked m k v name = (r, m') → m' = m ∨ m !! k = None ∧ m' = <[k := v]> m.
Proof.
  unfold save_once_locked, save_once. destruct (m !! k) as [e|].
  - case_bool_decide; intros [= <- <-]; by left.
  - intros [= <- <-]. by right.
Qed.

Lemma set_same s :
  set_runs (rs_runs s) s = s ∧ set_steps (rs_steps s) s = s
  ∧ set_checkpoints (rs_checkpoints s) s = s ∧ set_evaluations (rs_evaluations s) s = s
  ∧ set_definitions (rs_definitions s) s = s ∧ set_events (rs_events s) s = s.
Proof. by destruct s. Qed.

Ltac same_store s :=
  let H1 := fresh in let H2 := fresh in let H3 := fresh in
  let H4 := fresh in let H5 := fresh in let H6 := fresh in
  destruct (set_same s) as (H1 & H2 & H3 & H4 & H5 & H6);
  simpl; rewrite ?H1, ?H2, ?H3, ?H4, ?H5, ?H6; apply change_none.

Lemma save_run_change run s : store_change (OpSaveRun run) s (save_agent_run run s).2.
Proof.
  unfold save_agent_run. destruct (save_versioned_locked _ _ _ _ _) as [r m] eqn:E.
  apply save_versioned_spec in E as [(_ & -> & _)|[(_ & -> & E)|(_ & -> & _)]];
    [same_store s| |same_store s].
  apply change_run. intros r0 Hr. by rewrite Hr in E.
Qed.

Lemma save_step_change t s : store_change (OpSaveStep t) s (save_agent_run_step t s).2.
Proof.
  unfold save_agent_run_step.
  destruct (match rs_steps s !! step_id t with Some _ => _ | None => _ end) eqn:Hb;
    [apply change_none|].
  destruct (step_approval_request_id t ≫= _) as [[a x]|] eqn:Hf; [apply change_none|].
  destruct (save_versioned_locked _ _ _ _ _) as [r m] eqn:E.
  apply save_versioned_spec in E as [(_ & -> & _)|[(_ & -> & E)|(_ & -> & _)]];
    [same_store s| |same_store s].
  apply change_step.
  - intros t0 Ht. rewrite Ht in E, Hb. split; [done|]. intros a Ha.
    unfold binding_changes in Hb. rewrite Ha in Hb.
    rewrite bool_decide_true in Hb by done. simpl in Hb.
    by apply negb_false_iff, bool_decide_eq_true in Hb.
  - intros k t0 a Hk Hne Ha Ht. rewrite Ha in Hf. simpl in Hf.
    apply fmap_None in Hf. unfold bound_elsewhere in Hf. rewrite find_none_elem in Hf.
    specialize (Hf t0). rewrite bool_decide_false, bool_decide_true in Hf by done.
    discriminate Hf. apply btree_values_elem. eauto.
Qed.

Lemma append_change tail cp s :
  store_change (OpAppendCheckpoint tail cp) s (append_agent_checkpoint tail cp s).2.
Proof.
  unfold append_agent_checkpoint.
  destruct (append_decision tail cp (rs_checkpoints s)) as [[x []]|e|] eqn:E;
    try apply change_none.
  pose proof (append_inserts _ _ _ _ E) as (-> & _ & _ & _ & Hid & Hfree).
  apply change_checkpoint; [done..|]. right. eauto.
Qed.

Lemma save_checkpoint_change cp s :
  store_wf s → store_change (OpSaveCheckpoint cp) s (save_agent_checkpoint cp s).2.
Proof.
  intros Hwf. unfold save_agent_checkpoint.
  destruct (existsb _ _) eqn:Hfree; [apply change_none|].
  destruct (save_once_locked _ _ _ _) as [r m] eqn:E.
  apply save_once_cases in E as [->|[Hid ->]]; [same_store s|].
  apply change_checkpoint; [done| |by left].
  intros k c Hk Hrun Hseq. rewrite existsb_false_elem in Hfree. specialize (Hfree c).
  assert (cp_id c ≠ cp_id cp) by (pose proof (wf_checkpoints s Hwf k c Hk); congruence).
  rewrite bool_decide_true, Hseq, N.eqb_refl, bool_decide_false in Hfree by done.
  discriminate Hfree. apply btree_values_elem. eauto.
Qed.

(** A valid bundle is about one run, whose first checkpoint and event it has. *)
Lemma bundle_shape c run cp ev :
  validate_initial_bundle c run cp ev = Ok () →
  cp_run_id cp = run_id run ∧ cp_sequence cp = 0%N ∧ run_revision run = 1%N.
Proof.
  unfold validate_initial_bundle. destruct (initial_bundle_shape c run cp ev) eqn:E; [|done].
  intros _. unfold initial_bundle_shape in E.
  rewrite !andb_true_iff, !N.eqb_eq, !bool_decide_eq_true in E. tauto.
Qed.

Lemma claim_change c run cp ev s :
  store_change (OpClaim c run cp ev) s (claim_live_run_start c run cp ev s).2.
Proof.
  destruct (claim_spec c run cp ev s) as [(x & -> & _)|(Hv & Hf & Hc & ->)];
    [apply change_none|].
  unfold evidence_conflicts in Hc.
  rewrite !orb_false_iff, !bool_decide_eq_false in Hc.
  destruct Hc as ((((H1 & H2) & H3) & H4) & _).
  destruct (bundle_shape _ _ _ _ Hv) as (Hrun & Hseq & _).
  apply change_claim; try done; try by apply eq_None_not_Some.
  rewrite <- Hrun, <- Hseq in H3. exact (sequence_free_elem cp _ H3).
Qed.

Lemma store_apply_change o s : store_wf s → store_change o s (store_apply o s).
Proof.
  intros Hwf. destruct o; cbn [store_apply].
  - apply claim_change.
  - apply save_run_change.
  - apply save_step_change.
  - apply append_change.
  - by apply save_checkpoint_change.
  - unfold save_agent_run_evaluation. destruct (save_once_locked _ _ _ _) as [r m] eqn:E.
    apply save_once_cases in E as [->|[Hid ->]]; [same_store s|by apply change_evaluation].
  - unfold rs_save_agent_definition. destruct (same_name_elsewhere _ _); [apply change_none|].
    destruct (save_once_locked _ _ _ _) as [r m] eqn:E.
    apply save_once_cases in E as [->|[Hid ->]]; [same_store s|by apply change_definition].
  - unfold rs_save_agent_run_event. destruct (sequence_taken _ _); [apply change_none|].
    destruct (save_once_locked _ _ _ _) as [r m] eqn:E.
    apply save_once_cases in E as [->|[Hid ->]]; [same_store s|by apply change_event].
Qed.

Lemma store_change_le o s s' : store_wf s → store_change o s s' → store_le s s'.
Proof.
  intros Hwf Hch. destruct Hch as [|run Hr|t Ht _|cp Hn _ _|e Hn|d Hn|e Hn|c run cp ev Hv Hf H1 H2 _ H3];
    [done|constructor; simpl; try done..].
  - apply map_le_insert; [apply _|]. intros r E. right. rewrite (Hr r E). lia.
  - apply map_le_insert; [apply _|]. intros t0 E. destruct (Ht t0 E) as [Hrev Hb].
    constructor; [right; lia|done].
  - by apply insert_subseteq.
  - by apply insert_subseteq.
  - by apply insert_subseteq.
  - by apply insert_subseteq.
  - apply map_le_insert; [apply _|]. intros r E. congruence.
  - by apply insert_subseteq.
  - by apply insert_subseteq.
  - pose proof (acquire_claims c run cp ev s Hwf Hf) as Hc. simpl in Hc. rewrite Hc.
    set_solver.
Qed.

Definition evidence_present (s : RecordingAgentRunStore) (x : RecordingLiveRunStartClaim)
    : Prop :=
  is_Some (rs_runs s !! run_id (rc_initial_run x))
  ∧ ∃ cp ev, rs_checkpoints s !! rc_checkpoint_id x = Some cp
      ∧ rs_events s !! rc_event_id x = Some ev
      ∧ validate_initial_bundle (rc_claim x) (rc_initial_run x) cp ev = Ok ().

Lemma evidence_le s s' x : store_le s s' → evidence_present s x → evidence_present s' x.
Proof.
  intros [Hr _ Hc _ _ He _] ([r Er] & cp & ev & Ecp & Eev & Hv). split.
  - destruct (Hr _ _ Er) as (r' & -> & _). done.
  - exists cp, ev. split_and!; [by eapply lookup_weaken..|done].
Qed.

Lemma step_insert_wf (m : gmap N AgentRunStep) t :
  (∀ k t, m !! k = Some t → step_id t = k) →
  (∀ k1 k2 t1 t2 a, m !! k1 = Some t1 → m !! k2 = Some t2 →
     step_approval_request_id t1 = Some a → step_approval_request_id t2 = Some a → k1 = k2) →
  (∀ k t0 a, m !! k = Some t0 → step_id t0 ≠ step_id t →
     step_approval_request_id t = Some a → step_approval_request_id t0 ≠ Some a) →
  let m' := <[step_id t := t]> m in
  (∀ k t, m' !! k = Some t → step_id t = k)
  ∧ (∀ k1 k2 t1 t2 a, m' !! k1 = Some t1 → m' !! k2 = Some t2 →
     step_approval_request_id t1 = Some a → step_approval_request_id t2 = Some a → k1 = k2).
Proof.
  intros Hid Hun Hnew m'. split.
  - intros k t' [[<- <-]|[Hne Hk]]%lookup_insert_Some; [done|by apply Hid].
  - intros k1 k2 t1 t2 a [[<- <-]|[Hne1 H1]]%lookup_insert_Some
      [[<- <-]|[Hne2 H2]]%lookup_insert_Some A1 A2; [done|exfalso..|by eapply Hun].
    + apply (Hnew k2 t2 a); [done|by rewrite (Hid _ _ H2)|done..].
    + apply (Hnew k1 t1 a); [done|by rewrite (Hid _ _ H1)|done..].
Qed.

Lemma checkpoint_insert_wf (m : gmap N AgentCheckpoint) cp :
  (∀ k c, m !! k = Some c → cp_id c = k) →
  (∀ k1 k2 c1 c2, m !! k1 = Some c1 → m !! k2 = Some c2 →
     cp_run_id c1 = cp_run_id c2 → cp_sequence c1 = cp_sequence c2 → k1 = k2) →
  sequence_free cp m →
  let m' := <[cp_id cp := cp]> m in
  (∀ k c, m' !! k = Some c → cp_id c = k)
  ∧ (∀ k1 k2 c1 c2, m' !! k1 = Some c1 → m' !! k2 = Some c2 →
       cp_run_id c1 = cp_run_id c2 → cp_sequence c1 = cp_sequence c2 → k1 = k2).
Proof.
  intros Hid Hun Hfree m'. split.
  - intros k c [[<- <-]|[Hne Hk]]%lookup_insert_Some; [done|by apply Hid].
  - intros k1 k2 c1 c2 [[<- <-]|[Hne1 H1]]%lookup_insert_Some
      [[<- <-]|[Hne2 H2]]%lookup_insert_Some R Q; [done|exfalso..|by eapply Hun].
    + by apply (Hfree k2 c2).
    + by apply (Hfree k1 c1).
Qed.

Lemma overlaps_sym x y : claim_overlaps (rc_claim x) y = claim_overlaps (rc_claim y) x.
Proof.
  unfold claim_overlaps. f_equal; apply bool_decide_ext; split; congruence.
Qed.

Lemma acquire_wf c run cp ev s :
  store_wf s → validate_initial_bundle c run cp ev = Ok () →
  List.find (claim_overlaps c) (rs_claims s).*2 = None →
  sequence_free cp (rs_checkpoints s) → store_le s (acquire_claim c run cp ev s) →
  store_wf (acquire_claim c run cp ev s).
Proof.
  intros Hwf Hv Hf Hfree Hle. pose proof (acquire_claims c run cp ev s Hwf Hf) as Hc.
  destruct (checkpoint_insert_wf (rs_checkpoints s) cp) as [K U];
    [apply Hwf..|done|].
  rewrite find_none_elem in Hf.
  assert (∀ k x, (k, x) ∈ rs_claims s → claim_overlaps c x = false) as Hno.
  { intros k x Hx. apply Hf, list_elem_of_fmap. by exists (k, x). }
  constructor; try rewrite Hc; try done; try apply Hwf.
  - intros k1 k2 x1 x2 [H1|H1%list_elem_of_singleton]%elem_of_app
      [H2|H2%list_elem_of_singleton]%elem_of_app Ho.
    + by apply (wf_claims s Hwf k1 k2).
    + injection H2 as -> ->. rewrite overlaps_sym in Ho. simpl in Ho.
      by rewrite (Hno k1 x1 H1) in Ho.
    + injection H1 as -> ->. simpl in Ho. by rewrite (Hno k2 x2 H2) in Ho.
    + congruence.
  - intros k x [Hx|Hx%list_elem_of_singleton]%elem_of_app; [by apply Hwf|].
    by injection Hx as -> ->.
  - intros k x [Hx|Hx%list_elem_of_singleton]%elem_of_app.
    + apply (evidence_le s); [done|]. by apply (wf_evidence s Hwf k).
    + injection Hx as -> ->. simpl. rewrite !lookup_insert_eq. eauto 10.
Qed.

Lemma store_change_wf o s s' : store_wf s → store_change o s s' → store_wf s'.
Proof.
  intros Hwf Hch. pose proof (store_change_le o s s' Hwf Hch) as Hle.
  destruct Hch as [|run Hr|t Ht Hb|cp Hn Hfree _|e Hn|d Hn|e Hn|c run cp ev Hv Hf H1 H2 Hfree H3];
    [done|..|by apply acquire_wf].
  all: constructor; try (intros k x Hx; apply (evidence_le s); [exact Hle|];
                         exact (wf_evidence s Hwf k x Hx)).
  all: try apply Hwf.
  - eapply step_insert_wf; [apply Hwf..|done].
  - eapply step_insert_wf; [apply Hwf..|done].
  - eapply checkpoint_insert_wf; [apply Hwf..|done].
  - eapply checkpoint_insert_wf; [apply Hwf..|done].
Qed.

Lemma store_default_wf : store_wf RecordingAgentRunStore_default.
Proof. constructor; simpl; try done; set_solver. Qed.

Lemma store_run_wf ops s : store_wf s → store_wf (store_run ops s).
Proof.
  apply store_run_invariant. intros o s' Hwf.
  by eapply store_change_wf, store_apply_change.
Qed.

Lemma store_run_le ops s : store_wf s → store_le s (store_run ops s).
Proof.
  revert s. induction ops as [|o ops IH]; intros s Hwf; [done|]. simpl.
  pose proof (store_apply_change o s Hwf) as Hch. etrans.
  - by eapply store_change_le.
  - apply IH. by eapply store_change_wf.
Qed.

(** ** What every sequence of operations guarantees *)

Lemma store_reachable_wf ops : store_wf (store_run ops RecordingAgentRunStore_default).
Proof. apply store_run_wf, store_default_wf. Qed.

(** No update of a run is lost.  A run that is in the store stays there, and is
    replaced only by larger revisions.  A writer that has read one revision and saves
    the next one, whatever was done in between, succeeds only if what it has read is
    still the stored run, or its own write already is. *)
Theorem run_revisions_linear (ops1 ops2 : list store_op) (id : Uuid) (r1 : AgentRun)
    (Hload : (load_agent_run id (store_run ops1 RecordingAgentRunStore_default)).1
             = Ok (Some r1)) :
  let s2 := store_run ops2 (store_run ops1 RecordingAgentRunStore_default) in
  ∃ r2, (load_agent_run id s2).1 = Ok (Some r2)
    ∧ (r2 = r1 ∨ (run_revision r1 < run_revision r2)%N)
    ∧ ∀ r, run_id r = id → run_revision r = (run_revision r1 + 1)%N →
        (save_agent_run r s2).1 = Ok () → r2 = r1 ∨ r2 = r.
Proof.
  set (s1 := store_run ops1 _) in *. intros s2.
  pose proof (store_run_le ops2 s1 (store_reachable_wf ops1)) as Hle.
  unfold load_agent_run, load_record in *. simpl in *. injection Hload as Hr1.
  destruct (le_runs _ _ Hle _ _ Hr1) as (r2 & Hr2 & Hor). fold s2 in Hr2.
  exists r2. split; [by rewrite Hr2|]. split; [exact Hor|].
  intros r Hid Hrev Hsave. unfold save_agent_run in Hsave. rewrite Hid in Hsave.
  destruct (save_versioned_locked _ _ _ _ _) as [x m] eqn:E. simpl in Hsave. subst x.
  apply save_versioned_spec in E as [(_ & _ & E)|[(_ & _ & E)|(E & _)]]; [..|done].
  - right. congruence.
  - rewrite Hr2 in E. destruct Hor as [->|Hlt]; [by left|lia].
Qed.

Lemma find_by_approval_spec s b :
  store_wf s →
  (∃ k t, rs_steps s !! k = Some t ∧ step_approval_request_id t = Some b
     ∧ find_agent_run_step_by_approval b s = (Ok (Some t), s))
  ∨ ((∀ k t, rs_steps s !! k = Some t → step_approval_request_id t ≠ Some b)
     ∧ find_agent_run_step_by_approval b s = (Ok None, s)).
Proof.
  intros Hwf. unfold find_agent_run_step_by_approval.
  set (P := λ t, step_approval_request_id t = Some b).
  assert (∀ t, t ∈ filter P (btree_values (rs_steps s)) ↔
            P t ∧ ∃ k, rs_steps s !! k = Some t) as Hin.
  { intros t. by rewrite list_elem_of_filter, btree_values_elem. }
  assert (NoDup (step_id <$> filter P (btree_values (rs_steps s)))) as Hnd.
  { eapply sublist_NoDup; [|apply fmap_sublist, sublist_filter].
    apply btree_values_NoDup. intros k1 k2 t1 t2 H1 H2 E.
    pose proof (wf_steps s Hwf _ _ H1). pose proof (wf_steps s Hwf _ _ H2). congruence. }
  destruct (filter P _) as [|t [|t' l]].
  - right. split; [|done]. intros k t Hk HP. assert (t ∈ []) as H0%elem_of_nil; [|done].
    apply Hin. eauto.
  - left. destruct (Hin t) as [[HP [k Hk]] _]; [left|]. by exists k, t.
  - exfalso. destruct (Hin t) as [[HP [k Hk]] _]; [left|].
    destruct (Hin t') as [[HP' [k' Hk']] _]; [right; left|].
    assert (k = k') as <- by exact (wf_approvals s Hwf _ _ _ _ b Hk Hk' HP HP').
    simplify_eq. simpl in Hnd. apply NoDup_cons in Hnd as [Hnd _]. apply Hnd. left.
Qed.

(** An approval request leads to one step, for ever.  Once a step is bound to an
    approval request, looking the request up finds the current revision of that step
    after any further operations; and the lookup never finds two steps. *)
Theorem approval_binding_stable (ops1 ops2 : list store_op) (id : Uuid) (t : AgentRunStep)
    (a : Uuid)
    (Hload : (load_agent_run_step id (store_run ops1 RecordingAgentRunStore_default)).1
             = Ok (Some t))
    (Hbound : step_approval_request_id t = Some a) :
  let s2 := store_run ops2 (store_run ops1 RecordingAgentRunStore_default) in
  ∃ t', (load_agent_run_step id s2).1 = Ok (Some t') ∧ step_id t' = step_id t
    ∧ (find_agent_run_step_by_approval a s2).1 = Ok (Some t')
    ∧ ∀ b, is_ok (find_agent_run_step_by_approval b s2).1 = true.
Proof.
  set (s1 := store_run ops1 _) in *. intros s2.
  assert (store_wf s2) as Hwf by apply store_run_wf, store_reachable_wf.
  pose proof (store_run_le ops2 s1 (store_reachable_wf ops1)) as Hle. fold s2 in Hle.
  unfold load_agent_run_step, load_record in *. simpl in *. injection Hload as Ht.
  destruct (le_steps _ _ Hle _ _ Ht) as (t' & Ht' & _ & Hb). exists t'.
  split; [by rewrite Ht'|]. split.
  { pose proof (wf_steps _ Hwf _ _ Ht'). pose proof (wf_steps _ (store_reachable_wf ops1) _ _ Ht).
    congruence. }
  split; [|intros b; by destruct (find_by_approval_spec s2 b Hwf)
                        as [(k & t0 & _ & _ & ->)|[_ ->]]].
  destruct (find_by_approval_spec s2 a Hwf) as [(k & t0 & Hk & Ha & ->)|[Hno _]].
  - assert (k = id) as -> by exact (wf_approvals s2 Hwf _ _ _ _ a Hk Ht' Ha (Hb a Hbound)).
    simpl. congruence.
  - exfalso. exact (Hno _ _ Ht' (Hb a Hbound)).
Qed.

(** ** The chain of checkpoints of a run *)

(** The recorded digest is that of the state. *)
Definition checkpoint_intact (c : AgentCheckpoint) : Prop :=
  digest_of AgentCheckpointKind (cp_state c) = Ok (cp_state_digest c).

Lemma integrity_intact c description :
  validate_agent_checkpoint_integrity c description = Ok () ↔ checkpoint_intact c.
Proof.
  unfold validate_agent_checkpoint_integrity, checkpoint_intact, digest_of, map_err.
  destruct (canonicalize (cp_state c)) as [x|e|]; simpl; [|done..].
  case_bool_decide as Hd; simpl; split; intros E; try done; congruence.
Qed.

Lemma bundle_intact c run cp ev :
  validate_initial_bundle c run cp ev = Ok () → checkpoint_intact cp.
Proof.
  unfold validate_initial_bundle, checkpoint_intact, digest_of. intros E.
  destruct (initial_bundle_shape c run cp ev); [simpl in E|done].
  apply rbind_Ok in E as (envelope & _ & E).
  destruct (_ || _); [done|]. apply rbind_Ok in E as (runtime & _ & E).
  destruct (runtime_matches runtime run); [simpl in E|done].
  apply rbind_Ok in E as (canonical & Hcan & E). unfold map_err in Hcan.
  destruct (canonicalize (cp_state cp)) as [x|e|]; [|done..]. injection Hcan as ->.
  case_bool_decide as Hd; [|done]. simpl. by rewrite Hd.
Qed.

Definition chain_wf (m : gmap N AgentCheckpoint) : Prop :=
  ∀ k c, m !! k = Some c →
    checkpoint_intact c
    ∧ ∀ n, (n < cp_sequence c)%N →
        ∃ k' c', m !! k' = Some c' ∧ cp_run_id c' = cp_run_id c ∧ cp_sequence c' = n.

Lemma chain_insert m cp :
  chain_wf m → m !! cp_id cp = None → checkpoint_intact cp →
  (∀ n, (n < cp_sequence cp)%N →
     ∃ k' c', m !! k' = Some c' ∧ cp_run_id c' = cp_run_id cp ∧ cp_sequence c' = n) →
  chain_wf (<[cp_id cp := cp]> m).
Proof.
  intros Hm Hnew Hint Hbelow k c Hk.
  assert (checkpoint_intact c ∧ ∀ n, (n < cp_sequence c)%N →
    ∃ k' c', m !! k' = Some c' ∧ cp_run_id c' = cp_run_id c ∧ cp_sequence c' = n) as [Hi Hc].
  { apply lookup_insert_Some in Hk as [[<- <-]|[_ Hk]]; [done|by eapply Hm]. }
  split; [done|]. intros n Hn. destruct (Hc n Hn) as (k' & c' & Hk' & ? & ?).
  exists k', c'. rewrite lookup_insert_ne by congruence. done.
Qed.

(** Every checkpoint below an appended one is there: its predecessor is the largest. *)
Lemma append_below tail cp m :
  chain_wf m → append_decision tail cp m = Ok (Appended, true) →
  ∀ n, (n < cp_sequence cp)%N →
    ∃ k' c', m !! k' = Some c' ∧ cp_run_id c' = cp_run_id cp ∧ cp_sequence c' = n.
Proof.
  intros Hm (_ & _ & Hseq & Htail & _)%append_inserts n Hn.
  pose proof (max_by_sequence_spec (run_checkpoints (cp_run_id cp) m)) as Hmax.
  destruct (max_by_sequence _) as [c|]; simpl in Htail; subst tail; simpl in Hseq.
  - destruct Hmax as [[Hrun [k Hk]]%run_checkpoints_elem _]. unfold ok_or in Hseq.
    destruct (checked_add _ _ _) as [z|] eqn:Hz; [|done].
    apply checked_add_Some in Hz as [-> _]. injection Hseq as Hseq.
    destruct (N.eq_dec n (cp_sequence c)) as [->|Hne]; [eauto|].
    destruct (Hm k c Hk) as [_ Hlow]. destruct (Hlow n) as (k' & c' & ? & ? & ?); [lia|].
    exists k', c'. split_and!; congruence.
  - injection Hseq as Hseq. lia.
Qed.

Definition not_direct_save (o : store_op) : bool :=
  match o with OpSaveCheckpoint _ => false | _ => true end.

Lemma store_change_chain o s s' :
  not_direct_save o = true → chain_wf (rs_checkpoints s) → store_change o s s' →
  chain_wf (rs_checkpoints s').
Proof.
  intros Ho Hm Hch.
  destruct Hch as [|run Hr|t Ht Hb|cp Hn Hfree [->|(tail & -> & E)]|e Hn|d Hn|e Hn
                  |c run cp ev Hv Hf H1 H2 Hfree H3]; try done; simpl; apply chain_insert; try done.
  - pose proof (append_inserts _ _ _ _ E) as (_ & Hi & _). by apply integrity_intact in Hi.
  - by eapply append_below.
  - by eapply bundle_intact.
  - destruct (bundle_shape _ _ _ _ Hv) as (_ & -> & _). lia.
Qed.

Lemma store_run_chain ops s :
  forallb not_direct_save ops = true → store_wf s → chain_wf (rs_checkpoints s) →
  chain_wf (rs_checkpoints (store_run ops s)).
Proof.
  revert s. induction ops as [|o ops IH]; intros s Hops Hwf Hm; [done|].
  simpl in Hops. apply andb_true_iff in Hops as [Ho Hops]. simpl.
  pose proof (store_apply_change o s Hwf) as Hch.
  apply IH; [done|by eapply store_change_wf|by eapply store_change_chain].
Qed.

Lemma checkpoints_strict s run :
  store_wf s →
  StronglySorted N.lt (cp_sequence <$>
    sort_by_key2 (λ c, (Z.of_N (cp_sequence c), 0%Z))
      (run_checkpoints run (rs_checkpoints s))).
Proof.
  intros Hwf. set (l := run_checkpoints run (rs_checkpoints s)).
  assert (NoDup (cp_sequence <$> l)) as Hnd.
  { apply NoDup_fmap_2_strong.
    - intros c1 c2 [R1 [k1 H1]]%run_checkpoints_elem [R2 [k2 H2]]%run_checkpoints_elem E.
      assert (k1 = k2) as <-; [|congruence].
      apply (wf_sequences s Hwf k1 k2 c1 c2 H1 H2); congruence.
    - apply NoDup_filter, (NoDup_fmap_1 cp_id), btree_values_NoDup.
      intros k1 k2 c1 c2 H1 H2 E. apply (wf_checkpoints s Hwf) in H1, H2. congruence. }
  rewrite <- (sort_by_key2_perm (λ c, (Z.of_N (cp_sequence c), 0%Z))) in Hnd.
  pose proof (sort_by_key2_sorted (λ c, (Z.of_N (cp_sequence c), 0%Z)) l) as Hs.
  induction Hs as [|c l' Hs IH Hc]; simpl in *; [constructor|].
  apply NoDup_cons in Hnd as [Hni Hnd]. constructor; [by apply IH|].
  rewrite Forall_forall in Hc. apply Forall_forall. intros n (c' & -> & Hc')%list_elem_of_fmap.
  specialize (Hc c' Hc'). unfold by_key2, lex2_le in Hc. simpl in Hc.
  assert (cp_sequence c ≠ cp_sequence c'); [|lia].
  intros E. apply Hni, list_elem_of_fmap. eauto.
Qed.

(** Checkpoints form one chain.  However appends, live starts and the other
    operations are interleaved (direct saves of checkpoints apart), listing the
    checkpoints of a run gives the sequences 0, 1, 2, ... without gap or repetition,
    each with the digest of its state. *)
Theorem checkpoints_contiguous (ops : list store_op) (run : Uuid)
    (Hops : forallb not_direct_save ops = true) :
  ∃ l, (list_agent_checkpoints run (store_run ops RecordingAgentRunStore_default)).1 = Ok l
    ∧ cp_sequence <$> l = N.of_nat <$> seq 0 (length l)
    ∧ Forall checkpoint_intact l.
Proof.
  set (s := store_run ops _). eexists. split; [done|].
  assert (chain_wf (rs_checkpoints s)) as Hch.
  { apply store_run_chain; [done|apply store_default_wf|]. by intros k c Hk. }
  set (l := sort_by_key2 _ _).
  assert (∀ c, c ∈ l ↔ cp_run_id c = run ∧ ∃ k, rs_checkpoints s !! k = Some c) as Hin.
  { intros c. unfold l. by rewrite sort_by_key2_elem, run_checkpoints_elem. }
  split.
  - replace (length l) with (length (cp_sequence <$> l)) by apply length_fmap.
    apply sorted_no_gap; [apply checkpoints_strict, store_reachable_wf|lia|].
    intros x n (c & -> & [Hrun [k Hk]]%Hin)%list_elem_of_fmap Hn.
    destruct (Hch k c Hk) as [_ Hlow]. destruct (Hlow n) as (k' & c' & Hk' & Hr & <-); [lia|].
    apply list_elem_of_fmap. exists c'. split; [done|]. apply Hin. split; [congruence|eauto].
  - apply Forall_forall. intros c [_ [k Hk]]%Hin. by apply (Hch k c).
Qed.

Lemma append_decision_sequence tail cp m x :
  append_decision tail cp m = Ok x → expected_sequence tail = Ok (cp_sequence cp).
Proof.
  unfold append_decision. intros ([] & _ & (next & Hnext & E)%rbind_Ok)%rbind_Ok.
  destruct (N.eqb_spec (cp_sequence cp) next) as [<-|]; [done|done].
Qed.

(** An exact retry of an append is answered as the append was. *)
Lemma append_retry_stored tail cp m :
  append_decision tail cp m = Ok (Appended, false) → ∃ k, m !! k = Some cp.
Proof.
  unfold append_decision. intros ([] & _ & (next & _ & E)%rbind_Ok)%rbind_Ok.
  destruct (negb (cp_sequence cp =? next)%N); [done|].
  destruct (match m !! cp_id cp with Some _ => _ | None => _ end); [done|].
  destruct (foreign_tail tail cp m) as [[t p]|]; [done|].
  apply rbind_Ok in E as ([] & _ & E). case_bool_decide.
  - apply rbind_Ok in E as ([] & _ & E). case_bool_decide as Hcur; [|done].
    pose proof (max_by_sequence_spec (run_checkpoints (cp_run_id cp) m)) as Hmax.
    rewrite Hcur in Hmax. destruct Hmax as [[_ Hk]%run_checkpoints_elem _]. done.
  - case_bool_decide; [|done]. simpl in E. by destruct (existsb _ _).
Qed.

Lemma append_Appended tail cp s s' :
  append_agent_checkpoint tail cp s = (Ok Appended, s') →
  expected_sequence tail = Ok (cp_sequence cp)
  ∧ (∃ k, rs_checkpoints s' !! k = Some cp)
  ∧ (s' = s ∧ (∃ k, rs_checkpoints s !! k = Some cp)
     ∨ sequence_free cp (rs_checkpoints s)).
Proof.
  unfold append_agent_checkpoint.
  destruct (append_decision tail cp (rs_checkpoints s)) as [[x []]|e|] eqn:E; [..|done|done];
    intros [= -> <-]; (split; [by eapply append_decision_sequence|]).
  - split; [exists (cp_id cp); apply lookup_insert_eq|right].
    by apply append_inserts in E as (_ & _ & _ & _ & _ & Hfree).
  - apply append_retry_stored in E. auto.
Qed.

(** One append wins.  Once a checkpoint is appended after a tail of a run, no other
    checkpoint of that run is ever appended after the same tail, whatever is done in
    between; and the store is left as it was. *)
Theorem append_race (ops1 ops2 : list store_op) (tail : option AgentCheckpointTail)
    (c1 c2 : AgentCheckpoint) (s1 : RecordingAgentRunStore)
    (Hfirst : append_agent_checkpoint tail c1 (store_run ops1 RecordingAgentRunStore_default)
              = (Ok Appended, s1))
    (Hrun : cp_run_id c2 = cp_run_id c1) (Hne : c2 ≠ c1) :
  let s2 := store_run ops2 s1 in
  (append_agent_checkpoint tail c2 s2).1 ≠ Ok Appended
  ∧ (append_agent_checkpoint tail c2 s2).2 = s2.
Proof.
  intros s2. set (s0 := store_run ops1 _) in *.
  assert (s1 = store_apply (OpAppendCheckpoint tail c1) s0) as Hs1
    by (cbn [store_apply]; by rewrite Hfirst).
  assert (store_wf s1) as Hwf1.
  { rewrite Hs1. eapply store_change_wf; [apply store_reachable_wf|].
    apply store_apply_change, store_reachable_wf. }
  pose proof (append_Appended _ _ _ _ Hfirst) as (Hq1 & [k1 Hk1] & _).
  pose proof (lookup_weaken _ _ _ _ Hk1 (le_checkpoints _ _ (store_run_le ops2 s1 Hwf1))) as Hk.
  fold s2 in Hk.
  assert (∀ s', append_agent_checkpoint tail c2 s2 ≠ (Ok Appended, s')) as Hno.
  { intros s' (Hq2 & _ & [[_ [k2 Hk2]]|Hfree])%append_Appended.
    - apply Hne. assert (k2 = k1) as ->; [|congruence].
      apply (wf_sequences s2 (store_run_wf ops2 s1 Hwf1) _ _ _ _ Hk2 Hk); congruence.
    - apply (Hfree _ _ Hk); congruence. }
  unfold append_agent_checkpoint in *.
  destruct (append_decision tail c2 (rs_checkpoints s2)) as [[x []]|e|] eqn:E; try done.
  - exfalso. apply append_inserts in E as [-> _]. by eapply Hno.
  - split; [|done]. simpl. intros [= ->]. by eapply Hno.
Qed.

(** ** The live-start claim *)

Lemma overlaps_self x : claim_overlaps (rc_claim x) x = true.
Proof. unfold claim_overlaps. by rewrite bool_decide_true. Qed.

Lemma claim_values_elem s x : x ∈ (rs_claims s).*2 ↔ ∃ k, (k, x) ∈ rs_claims s.
Proof.
  rewrite list_elem_of_fmap. split; [intros ([k y] & -> & Hy); eauto|].
  intros [k Hk]. by exists (k, x).
Qed.

(** A recorded claim is found by every claim that overlaps it; only an equal one is
    answered with its run. *)
Lemma claim_found s k x c run cp ev :
  store_wf s → (k, x) ∈ rs_claims s → claim_overlaps c x = true →
  validate_initial_bundle c run cp ev = Ok () →
  claim_live_run_start c run cp ev s
  = (if bool_decide (rc_claim x = c) then replay_claim x s else Ok Conflict, s).
Proof.
  intros Hwf Hx Ho Hv. unfold claim_live_run_start, cbind, lift, map_err. rewrite Hv.
  destruct (List.find _ _) as [y|] eqn:Hf.
  - apply find_some_elem in Hf as [[ky Hy]%claim_values_elem Hoy].
    case_bool_decide as Hyc; simpl.
    + subst c. assert (y = x) as -> by exact (wf_claims s Hwf _ _ _ _ Hy Hx Ho).
      by rewrite bool_decide_true.
    + case_bool_decide as Hxc; [|done]. subst c. exfalso. apply Hyc.
      by rewrite (wf_claims s Hwf _ _ _ _ Hx Hy Hoy).
  - exfalso. rewrite find_none_elem in Hf. rewrite (Hf x) in Ho; [done|].
    apply claim_values_elem. eauto.
Qed.

Lemma replay_claim_present s x :
  evidence_present s x →
  ∃ current, rs_runs s !! run_id (rc_initial_run x) = Some current
    ∧ replay_claim x s
      = (let? _ := validate_progressed_claim_run (rc_initial_run x) current in
         Ok (Existing (run_id (rc_initial_run x)))).
Proof.
  intros ([r Er] & cp & ev & Ecp & Eev & Hv). exists r. split; [done|].
  unfold replay_claim. rewrite Er, Ecp, Eev. cbn [ok_or rbind]. by rewrite Hv.
Qed.

(** C36: a live start happens at most once.  After a claim is acquired, whatever is done
    in between, a later valid claim with the same readiness binding or the same setup
    changes nothing.  If it is a different claim it is a conflict; if it is the same
    claim, the answer is the run that acquired it, unless the identity of the stored run
    has drifted, which is an error. *)
Theorem live_start_once (ops1 ops2 : list store_op) (c c' : LiveRunStartClaim)
    (run run' : AgentRun) (cp cp' : AgentCheckpoint) (ev ev' : AgentRunEvent)
    (s1 : RecordingAgentRunStore)
    (Hfirst : claim_live_run_start c run cp ev (store_run ops1 RecordingAgentRunStore_default)
              = (Ok Acquired, s1))
    (Hsame : lc_readiness_binding_digest c = lc_readiness_binding_digest c'
             ∨ lc_setup_digest c = lc_setup_digest c')
    (Hvalid : validate_initial_bundle c' run' cp' ev' = Ok ()) :
  let s2 := store_run ops2 s1 in
  ∃ current, (load_agent_run (run_id run) s2).1 = Ok (Some current)
    ∧ claim_live_run_start c' run' cp' ev' s2
      = (if bool_decide (c = c')
         then let? _ := validate_progressed_claim_run run current in
              Ok (Existing (run_id run))
         else Ok Conflict, s2).
Proof.
  intros s2. set (s0 := store_run ops1 _) in *.
  assert (store_wf s0) as Hwf0 by apply store_reachable_wf.
  assert (s1 = store_apply (OpClaim c run cp ev) s0) as Hs1
    by (cbn [store_apply]; by rewrite Hfirst).
  assert (store_wf s1) as Hwf1
    by (rewrite Hs1; by eapply store_change_wf, store_apply_change).
  assert (store_wf s2) as Hwf2 by by apply store_run_wf.
  destruct (claim_spec c run cp ev s0) as [(x & E & Hx)|(_ & Hf & _ & E)]; [congruence|].
  rewrite E in Hfirst. injection Hfirst as <-.
  set (x := {| rc_claim := c; rc_initial_run := run; rc_checkpoint_id := cp_id cp;
               rc_event_id := ev_id ev |}).
  assert ((lc_readiness_binding_digest c, x) ∈ rs_claims s2) as Hin.
  { apply (le_claims _ _ (store_run_le ops2 _ Hwf1)).
    rewrite (acquire_claims c run cp ev s0 Hwf0 Hf). apply elem_of_app. right. left. }
  destruct (replay_claim_present s2 x) as (current & Hcur & Hrep);
    [by apply (wf_evidence s2 Hwf2 _ _ Hin)|].
  exists current. split; [unfold load_agent_run, load_record; by rewrite <- Hcur|].
  rewrite (claim_found s2 _ x c' run' cp' ev' Hwf2 Hin); [|unfold claim_overlaps|done].
  - rewrite Hrep. reflexivity.
  - apply orb_true_iff. rewrite !bool_decide_eq_true. done.
Qed.

(** The order in which the claims are kept does not matter.  A [HashMap] may list
    them in any order; the answer to a claim is the same. *)
Theorem live_start_order_irrelevant (ops : list store_op) (c : LiveRunStartClaim)
    (run : AgentRun) (cp : AgentCheckpoint) (ev : AgentRunEvent)
    (claims : list (ContentDigest * RecordingLiveRunStartClaim)) :
  let s := store_run ops RecordingAgentRunStore_default in
  claims ≡ₚ rs_claims s →
  (claim_live_run_start c run cp ev
     {| rs_runs := rs_runs s; rs_steps := rs_steps s; rs_checkpoints := rs_checkpoints s;
        rs_evaluations := rs_evaluations s; rs_definitions := rs_definitions s;
        rs_events := rs_events s; rs_claims := claims |}).1
  = (claim_live_run_start c run cp ev s).1.
Proof.
  intros s Hperm. set (s' := {| rs_runs := rs_runs s |}).
  assert (store_wf s) as Hwf by apply store_reachable_wf.
  assert (store_wf s') as Hwf'.
  { destruct Hwf. constructor; simpl; try done; setoid_rewrite Hperm; done. }
  destruct (validate_initial_bundle c run cp ev) as [[]|e|] eqn:Hv;
    [|unfold claim_live_run_start, cbind, lift; by rewrite Hv..].
  destruct (List.find (claim_overlaps c) (rs_claims s).*2) as [x|] eqn:Hf.
  - apply find_some_elem in Hf as [[k Hx]%claim_values_elem Ho].
    rewrite (claim_found s k x), (claim_found s' k x); try done.
    change (rs_claims s') with claims. by rewrite Hperm.
  - assert (List.find (claim_overlaps c) (rs_claims s').*2 = None) as Hf'.
    { rewrite find_none_elem in Hf |- *. intros x.
      change (rs_claims s') with claims. rewrite Hperm. apply Hf. }
    unfold claim_live_run_start, cbind, lift. rewrite Hv, Hf, Hf'. cbn [map_err].
    change (evidence_conflicts run cp ev s') with (evidence_conflicts run cp ev s).
    by destruct (evidence_conflicts run cp ev s).
Qed.

End store.

(** ** Witnesses *)

Module SampleBundle.
#[local] Existing Instance Sample.sample.

(** Version 7 ids; [b] numbers the bundle. *)
Definition id (b n : N) : Uuid := (0x70008000000000000000 + 16 * b + n)%N.

Definition runtime (b : N) : list (string * json) :=
  [("agent_id", uuid_value (id b 2)); ("process_epoch_id", uuid_value (id b 3));
   ("run_id", uuid_value (id b 1)); ("schema", JString "proof-agent-runtime-state/v2");
   ("started_at", utc_value 100)].

Definition state (b : N) : json :=
  JObject [("kind", JString "agent_runtime_v2"); ("runtime", JObject (runtime b))].

Definition digest_or_zero (k : ArtifactKind) (v : json) : ContentDigest :=
  match digest_of k v with Ok d => d | _ => zero_digest end.

Definition claim (b : N) : LiveRunStartClaim :=
  {| lc_schema := LIVE_RUN_START_CLAIM_SCHEMA;
     lc_readiness_binding_digest := sample_digest (ascii_of_N (97 + b));
     lc_setup_digest := sample_digest (ascii_of_N (65 + b)) |}.

(** The readiness binding of [claim 0] for another setup. *)
Definition other_claim : LiveRunStartClaim :=
  {| lc_schema := LIVE_RUN_START_CLAIM_SCHEMA;
     lc_readiness_binding_digest := sample_digest "a"; lc_setup_digest := sample_digest "z" |}.

Definition run (b : N) : AgentRun :=
  {| run_id := id b 1; run_actor := 7; run_agent_id := Some (id b 2); run_mode := Session;
     run_goal := "ship"; run_status := RunStatus.Running; run_retry_count := 0;
     run_revision := 1; run_created_at := 100; run_updated_at := 100;
     run_completed_at := None |}.

Definition checkpoint (b n seq : N) : AgentCheckpoint :=
  {| cp_id := id b n; cp_run_id := id b 1; cp_sequence := seq; cp_state := state b;
     cp_state_digest := digest_or_zero AgentCheckpointKind (state b); cp_created_at := 100 |}.

Definition event (b : N) : AgentRunEvent :=
  {| ev_id := id b 5; ev_run_id := id b 1; ev_sequence := 0; ev_kind := EventKind.Started;
     ev_data := expected_started_data (runtime b);
     ev_data_digest := digest_or_zero AgentEventKind (expected_started_data (runtime b));
     ev_created_at := 100 |}.

Definition start (b : N) : store_op :=
  OpClaim (claim b) (run b) (checkpoint b 4 0) (event b).

Definition started : RecordingAgentRunStore :=
  store_run [start 0] RecordingAgentRunStore_default.
End SampleBundle.

Lemma run_revisions_linear_witness :
  let next := (run_wait_for_input 110 (SampleBundle.run 0)).2 in
  let s2 := @store_run Sample.sample [OpSaveRun next] SampleBundle.started in
  ∃ r2, (load_agent_run (SampleBundle.id 0 1) s2).1 = Ok (Some r2)
    ∧ (r2 = (SampleBundle.run 0) ∨ (1 < run_revision r2)%N).
Proof.
  destruct (@run_revisions_linear Sample.sample [SampleBundle.start 0]
    [OpSaveRun (run_wait_for_input 110 (SampleBundle.run 0)).2] (SampleBundle.id 0 1)
    (SampleBundle.run 0)) as (r2 & H1 & H2 & _).
  - vm_compute. reflexivity.
  - exact (ex_intro _ r2 (conj H1 H2)).
Defined.

(** A step that is saved, started, bound to the approval request 41 and resumed. *)
Definition sample_step_history : list AgentRunStep :=
  let t1 := (step_start 11 sample_step).2 in
  let t2 := (step_wait_for_approval 41 12 t1).2 in
  [sample_step; t1; t2; (step_resume_from_approval 13 t2).2].

Definition sample_bound_step : AgentRunStep :=
  (step_wait_for_approval 41 12 (step_start 11 sample_step).2).2.

Lemma approval_binding_stable_witness :
  let s2 := @store_run Sample.sample (OpSaveStep <$> sample_step_history)
              RecordingAgentRunStore_default in
  ∃ t', (@find_agent_run_step_by_approval Sample.sample 41 s2).1 = Ok (Some t') ∧ step_id t' = 31%N.
Proof.
  destruct (@approval_binding_stable Sample.sample (OpSaveStep <$> take 3 sample_step_history)
    (OpSaveStep <$> drop 3 sample_step_history) 31 sample_bound_step 41)
    as (t' & _ & H1 & H2 & _).
  - vm_compute. reflexivity.
  - vm_compute. reflexivity.
  - exists t'. split; [exact H2|exact H1].
Defined.

Definition sample_append (n : N) : store_op :=
  OpAppendCheckpoint (Some (tail_of (SampleBundle.checkpoint 0 4 0)))
    (SampleBundle.checkpoint 0 n 1).

Lemma checkpoints_contiguous_witness :
  let s := @store_run Sample.sample [SampleBundle.start 0; sample_append 6]
             RecordingAgentRunStore_default in
  ∃ l, (list_agent_checkpoints (SampleBundle.id 0 1) s).1 = Ok l
    ∧ cp_sequence <$> l = N.of_nat <$> seq 0 (length l)
    ∧ Forall (@checkpoint_intact Sample.sample) l.
Proof. by apply (@checkpoints_contiguous Sample.sample [SampleBundle.start 0; sample_append 6]).
Defined.

Lemma append_race_witness :
  let tail := Some (tail_of (SampleBundle.checkpoint 0 4 0)) in
  let s1 := (@append_agent_checkpoint Sample.sample tail (SampleBundle.checkpoint 0 6 1)
               SampleBundle.started).2 in
  (@append_agent_checkpoint Sample.sample tail (SampleBundle.checkpoint 0 7 1) s1).1
    ≠ Ok Appended
  ∧ (@append_agent_checkpoint Sample.sample tail (SampleBundle.checkpoint 0 7 1) s1).2 = s1.
Proof.
  intros tail s1.
  apply (@append_race Sample.sample [SampleBundle.start 0] [] tail
    (SampleBundle.checkpoint 0 6 1) (SampleBundle.checkpoint 0 7 1) s1).
  - vm_compute. reflexivity.
  - reflexivity.
  - intros E. apply (f_equal cp_id) in E. vm_compute in E. discriminate E.
Defined.

Lemma live_start_once_witness :
  ∃ current, (load_agent_run (SampleBundle.id 0 1) SampleBundle.started).1 = Ok (Some current)
    ∧ @claim_live_run_start Sample.sample SampleBundle.other_claim (SampleBundle.run 0)
        (SampleBundle.checkpoint 0 4 0) (SampleBundle.event 0) SampleBundle.started
      = (if bool_decide ((SampleBundle.claim 0) = SampleBundle.other_claim)
         then let? _ := validate_progressed_claim_run (SampleBundle.run 0) current in
              Ok (Existing (SampleBundle.id 0 1))
         else Ok Conflict, SampleBundle.started).
Proof.
  apply (@live_start_once Sample.sample [] [] (SampleBundle.claim 0) SampleBundle.other_claim
    (SampleBundle.run 0) (SampleBundle.run 0) (SampleBundle.checkpoint 0 4 0)
    (SampleBundle.checkpoint 0 4 0) (SampleBundle.event 0) (SampleBundle.event 0)
    SampleBundle.started).
  - vm_compute. reflexivity.
  - left. reflexivity.
  - vm_compute. reflexivity.
Defined.

Lemma live_start_order_irrelevant_witness :
  let s := @store_run Sample.sample [SampleBundle.start 0; SampleBundle.start 1]
             RecordingAgentRunStore_default in
  (@claim_live_run_start Sample.sample (SampleBundle.claim 1) (SampleBundle.run 1)
     (SampleBundle.checkpoint 1 4 0) (SampleBundle.event 1)
     {| rs_runs := rs_runs s; rs_steps := rs_steps s; rs_checkpoints := rs_checkpoints s;
        rs_evaluations := rs_evaluations s; rs_definitions := rs_definitions s;
        rs_events := rs_events s; rs_claims := reverse (rs_claims s) |}).1
  = (@claim_live_run_start Sample.sample (SampleBundle.claim 1) (SampleBundle.run 1)
     (SampleBundle.checkpoint 1 4 0) (SampleBundle.event 1) s).1
  ∧ length (rs_claims s) = 2.
Proof.
  intros s. split; [|vm_compute; reflexivity].
  apply (@live_start_order_irrelevant Sample.sample
    [SampleBundle.start 0; SampleBundle.start 1]).
  apply reverse_Permutation.
Defined.
