(* ===== verification/Engine.v ===== *)
(** * The execution engine

    The model of [crates/proof-kernel/src/executor/engine.rs]: the direct
    execution path that the four public entry points share.  The state is the
    store's state and the world that handlers act on; handlers and stores are
    records of operations, as they are trait objects in the code.  Identifiers
    that the code draws with [Uuid::now_v7()] are arguments.

    The stages of [execute_inner] are [authorize], [acquire_replay],
    [check_benchmark], [run_handler] and [persist]; each returns early as the
    code does. *)

From S2P Require Import Prelude RustStr Externals Delegation Json Canonical.
From S2P Require Import CanonicalInjective Serialized Evidence OperatorCommon Registry.
From S2P Require Import Approval ExecutionStore.
From stdpp Require Import options.

Record OperationHandler (W : Type) := {
  h_operation : string;
  h_idempotency_policy_for : string → IdempotencyPolicy;
  h_execute_versioned : string → json → ExecutionContext → call W ExecutionError.t json;
}.

Arguments h_operation {W}.
Arguments h_idempotency_policy_for {W}.
Arguments h_execute_versioned {W}.

Record ExecutionEngine (S W : Type) := {
  e_registry : Registry;
  e_handlers : gmap string (OperationHandler W);
  e_storage : option (ExecutionStore S);
  e_keypair : Keypair;
}.

Arguments e_registry {S W}.
Arguments e_handlers {S W}.
Arguments e_storage {S W}.
Arguments e_keypair {S W}.

Record InternalExecutionOutcome := {
  io_output : json;
  io_proof : option Proof_;
}.

(** The identifiers that one execution draws. *)
Record FreshIds := {
  fresh_claim_token : Uuid;
  fresh_proof_id : Uuid;
}.

Section construction.
Context {S W : Type}.

Definition new_with_keypair (registry : Registry) (keypair : Keypair) : ExecutionEngine S W :=
  {| e_registry := registry; e_handlers := ∅; e_storage := None; e_keypair := keypair |}.

Definition with_storage (storage : ExecutionStore S) (e : ExecutionEngine S W)
    : ExecutionEngine S W :=
  {| e_registry := e_registry e; e_handlers := e_handlers e; e_storage := Some storage;
     e_keypair := e_keypair e |}.

Definition register_handler (h : OperationHandler W) (e : ExecutionEngine S W)
    : ExecutionEngine S W :=
  {| e_registry := e_registry e; e_handlers := <[h_operation h := h]> (e_handlers e);
     e_storage := e_storage e; e_keypair := e_keypair e |}.

(** Calls on the store and on the world, as calls on both. *)
Definition on_store {E A} (c : call S E A) : call (S * W) E A := λ sw,
  let '(r, s') := c sw.1 in (r, (s', sw.2)).

Definition on_world {E A} (c : call W E A) : call (S * W) E A := λ sw,
  let '(r, w') := c sw.2 in (r, (sw.1, w')).

End construction.

(** [Iterator::position]. *)
Fixpoint position {A} (p : A → bool) (l : list A) : option nat :=
  match l with
  | [] => None
  | x :: l' => if p x then Some 0 else Datatypes.S <$> position p l'
  end.

Section engine.
Context {S W : Type} `{Externals}.
Implicit Types (e : ExecutionEngine S W) (context : ExecutionContext).

Definition create_proof (actor : PrincipalId) (delegation_id : option Uuid)
    (operation : string) (input output : json) (timestamp : DateTime)
    (keypair : Keypair) (now_v7 : Uuid) : result ProofError Proof_ :=
  let? input_canonical := map_err (λ _, Canonicalization) (canonicalize input) in
  let? output_canonical := map_err (λ _, Canonicalization) (canonicalize output) in
  let input_digest := digest OperationInput input_canonical in
  let output_digest := digest OperationOutput output_canonical in
  Proof_sign (Proof_new now_v7 actor delegation_id operation input_digest output_digest
                timestamp) keypair.

Definition create_operation_proof e (operation version : string) (input output : json)
    context (now_v7 : Uuid) : result ProofError Proof_ :=
  let proof_operation := operation +:+ "::" +:+ version in
  create_proof (ctx_actor context) (ctx_delegation_id context) proof_operation input output
    (ctx_timestamp context) (e_keypair e) now_v7.

Definition is_agent_executable e (operation version : string)
    : result ExecutionError.t bool :=
  let? entry := ok_or (find (e_registry e) operation version)
                  (ExecutionError.OperationNotFound operation version) in
  Ok (bool_decide (re_governance entry = AgentExecutable)).

(** ** Authorization *)

Definition enforce_delegation e (operation domain : string) context
    : call (S * W) ExecutionError.t () :=
  let empty := ExecutionError.Delegation EmptyChain in
  let! id := lift (expect (ctx_delegation_id context)) in
  let! chain := lift (ok_or (ctx_delegation_chain context) empty) in
  let! _ := lift (map_err ExecutionError.Delegation
                    (validate chain (ctx_actor context) (ctx_timestamp context))) in
  let has_id (grant : Delegation) := bool_decide (delegation_id grant = id) in
  let! delegation :=
    match e_storage e with
    | Some storage =>
        let! loaded := on_store (call_map_err ExecutionError.StorageFailed
                                   (load_delegation storage id)) in
        let! delegation := lift (ok_or loaded empty) in
        let! chain_index := lift (ok_or (position has_id (grants chain)) empty) in
        let! grant := lift (expect (grants chain !! chain_index)) in
        stop empty when negb (bool_decide (grant = delegation));
        stop (ExecutionError.Delegation (InvalidTerminalAgent chain_index))
          when negb (bool_decide (recipient delegation = ctx_actor context));
        ret delegation
    | None => lift (ok_or (List.find has_id (grants chain)) empty)
    end in
  stop ExecutionError.ScopeViolation
    when negb (scope_allows_operation (scope delegation) operation domain);
  ret ().

(** The human-only gate. *)
Definition check_governance e (entry : RegistryEntry) (operation version : string)
    (input : json) context (approval : option (ApprovalGrant * Principal))
    : result ExecutionError.t () :=
  if bool_decide (re_governance entry = HumanOnly)
     && negb (bool_decide (ctx_principal_kind context = Some Human))
  then match approval with
       | None => Err ExecutionError.HumanOnly
       | Some (approval, trusted_approver) =>
           map_err ExecutionError.Approval
             (verify_for_execution approval (e_keypair e) trusted_approver operation
                version input (ctx_actor context) (ctx_timestamp context))
       end
  else Ok ().

(** The checks before a handler is looked up: registry, governance, lifecycle,
    delegation. *)
Definition authorize e (operation version : string) (input : json) context
    (approval : option (ApprovalGrant * Principal))
    : call (S * W) ExecutionError.t RegistryEntry :=
  let! entry := lift (ok_or (find (e_registry e) operation version)
                        (ExecutionError.OperationNotFound operation version)) in
  let! _ := lift (check_governance e entry operation version input context approval) in
  stop ExecutionError.Sunset when bool_decide (re_status entry = Sunset);
  let! _ :=
    match ctx_delegation_id context with
    | Some _ => enforce_delegation e operation (re_domain entry) context
    | None =>
        match ctx_delegation_chain context with
        | Some chain =>
            lift (map_err ExecutionError.Delegation
                    (validate chain (ctx_actor context) (ctx_timestamp context)))
        | None => ret ()
        end
    end in
  ret entry.

(** ** Exact replay *)

Definition execution_replay_claim (operation version : string) (input : json) context
    (claim_token : Uuid) : result ExecutionError.t ExecutionReplayClaim :=
  let idem x := ExecutionError.Idempotency x in
  let? field := ok_or (value_get "idempotency_key" input) (idem IdempotencyError.MissingKey) in
  let? text := ok_or (as_str field) (idem IdempotencyError.InvalidUuidV7) in
  let? key := ok_or (uuid_parse_str text) (idem IdempotencyError.InvalidUuidV7) in
  bail idem IdempotencyError.InvalidUuidV7 when negb (uuid_is_v7 key);
  let? canonical :=
    map_err (λ x, ExecutionError.EvidenceFailed (CanonicalizationError_to_string x))
      (canonicalize input) in
  Ok {| rc_key := {| rk_operation := operation; rk_version := version;
                     rk_idempotency_key := key |};
        rc_input_digest := digest OperationInput canonical;
        rc_claim_token := claim_token;
        rc_claimed_by := ctx_actor context;
        rc_claimed_at := ctx_timestamp context |}.

Definition validate_replayed_outcome (claim : ExecutionReplayClaim)
    (outcome : ExecutionOutcome) : result ExecutionError.t () :=
  let proof := body (eo_proof outcome) in
  let expected_operation :=
    rk_operation (rc_key claim) +:+ "::" +:+ rk_version (rc_key claim) in
  bail ExecutionError.StorageFailed "stored replay proof operation does not match the claim"
    when negb (bool_decide (pb_operation proof = expected_operation));
  bail ExecutionError.StorageFailed
         "stored replay proof input digest does not match the claim"
    when negb (bool_decide (pb_input_digest proof = rc_input_digest claim));
  let? output :=
    map_err (λ _, ExecutionError.StorageFailed
                    "stored replay output could not be canonicalized")
      (canonicalize (eo_output outcome)) in
  bail ExecutionError.StorageFailed
         "stored replay proof output digest does not match the output"
    when negb (bool_decide (pb_output_digest proof = digest OperationOutput output));
  Ok ().

(** The claim before mutation: the stored outcome of a completed key, or the
    claim that this execution acquired, if its handler asks for one. *)
Definition acquire_replay e (handler : OperationHandler W) (operation version : string)
    (input : json) context (claim_token : Uuid)
    : call (S * W) ExecutionError.t (ExecutionOutcome + option ExecutionReplayClaim) :=
  match h_idempotency_policy_for handler version with
  | NoReplay => ret (inr None)
  | RequiredUuidV7ExactReplay =>
      let! claim := lift (execution_replay_claim operation version input context claim_token) in
      let! storage := lift (ok_or (e_storage e)
                              (ExecutionError.Idempotency IdempotencyError.StorageRequired)) in
      let! answer := on_store (call_map_err ExecutionError.StorageFailed
                                 (claim_execution_replay storage claim)) in
      match answer with
      | ClaimResult.Acquired => ret (inr (Some claim))
      | ClaimResult.Completed outcome =>
          let! _ := lift (validate_replayed_outcome claim outcome) in
          ret (inl outcome)
      | ClaimResult.Conflict =>
          throw (ExecutionError.Idempotency IdempotencyError.Conflict)
      | ClaimResult.InProgress =>
          throw (ExecutionError.Idempotency IdempotencyError.InProgress)
      | ClaimResult.Failed =>
          throw (ExecutionError.Idempotency IdempotencyError.Indeterminate)
      | ClaimResult.Unsupported =>
          throw (ExecutionError.Idempotency IdempotencyError.StorageRequired)
      end
  end.

(** [return Err(self.fail_acquired_claim(claim, failed_at, error))]. *)
Definition fail_acquired_claim {A} e (claim : option ExecutionReplayClaim)
    (failed_at : DateTime) (error : ExecutionError.t) : call (S * W) ExecutionError.t A :=
  match claim with
  | None => throw error
  | Some claim =>
      let! storage := lift (expect (e_storage e)) in
      let! recorded := attempt (on_store (fail_execution_replay storage claim failed_at
                                            (ExecutionError.to_string error))) in
      match recorded with
      | Ok _ => throw error
      | Err failure =>
          throw (ExecutionError.StorageFailed
                   ("failed to record indeterminate execution after "
                    +:+ ExecutionError.to_string error +:+ ": " +:+ failure))
      | Panic => lift Panic
      end
  end.

(** ** Dispatch *)

Definition check_benchmark e (entry : RegistryEntry) (operation version : string) context
    (claim : option ExecutionReplayClaim) : call (S * W) ExecutionError.t () :=
  match re_benchmark entry, e_storage e with
  | Some benchmark_id, Some storage =>
      let! latest := attempt (on_store (latest_proof_for_operation storage operation version)) in
      match latest with
      | Err error =>
          fail_acquired_claim e claim (ctx_timestamp context)
            (ExecutionError.StorageFailed error)
      | Panic => lift Panic
      | Ok (Some proof) =>
          if is_expired proof (ctx_timestamp context)
          then fail_acquired_claim e claim (ctx_timestamp context)
                 (ExecutionError.BenchmarkExpired benchmark_id
                    (uuid_to_string (pb_id (body proof))))
          else ret ()
      | Ok None => ret ()
      end
  | _, _ => ret ()
  end.

(** The handler runs, then its proof is made when anything needs one. *)
Definition run_handler e (handler : OperationHandler W) (operation version : string)
    (input : json) context (claim : option ExecutionReplayClaim)
    (evidence_required : bool) (proof_id : Uuid)
    : call (S * W) ExecutionError.t InternalExecutionOutcome :=
  let! ran := attempt (on_world (h_execute_versioned handler version input context)) in
  match ran with
  | Err error => fail_acquired_claim e claim (ctx_timestamp context) error
  | Panic => lift Panic
  | Ok output =>
      if evidence_required || bool_decide (is_Some (e_storage e)) || bool_decide (is_Some claim)
      then
        match create_operation_proof e operation version input output context proof_id with
        | Ok proof => ret {| io_output := output; io_proof := Some proof |}
        | Err error =>
            fail_acquired_claim e claim (ctx_timestamp context)
              (ExecutionError.EvidenceFailed (ProofError_to_string error))
        | Panic => lift Panic
        end
      else ret {| io_output := output; io_proof := None |}
  end.

Definition persist e context (claim : option ExecutionReplayClaim)
    (outcome : InternalExecutionOutcome) : call (S * W) ExecutionError.t () :=
  match claim with
  | Some claim =>
      let! proof := lift (expect (io_proof outcome)) in
      let! storage := lift (expect (e_storage e)) in
      on_store (call_map_err ExecutionError.StorageFailed
        (complete_execution_replay storage claim context
           {| eo_output := io_output outcome; eo_proof := proof |}))
  | None =>
      match e_storage e with
      | Some storage =>
          let! _ := on_store (call_map_err ExecutionError.StorageFailed
                                (save_execution_context storage context)) in
          let! proof := lift (expect (io_proof outcome)) in
          on_store (call_map_err ExecutionError.StorageFailed (save_proof storage proof))
      | None => ret ()
      end
  end.

Definition execute_inner e (operation version : string) (input : json) context
    (approval : option (ApprovalGrant * Principal)) (evidence_required : bool)
    (ids : FreshIds) : call (S * W) ExecutionError.t InternalExecutionOutcome :=
  let! entry := authorize e operation version input context approval in
  let! handler := lift (ok_or (e_handlers e !! operation)
                          (ExecutionError.NoHandler operation)) in
  let! acquired := acquire_replay e handler operation version input context
                     (fresh_claim_token ids) in
  match acquired with
  | inl outcome =>
      ret {| io_output := eo_output outcome; io_proof := Some (eo_proof outcome) |}
  | inr claim =>
      let! _ := check_benchmark e entry operation version context claim in
      let! outcome := run_handler e handler operation version input context claim
                        evidence_required (fresh_proof_id ids) in
      let! _ := persist e context claim outcome in
      ret outcome
  end.

(** ** Entry points *)

Definition execute_operation := execute_inner.

Definition execute e operation version input context ids
    : call (S * W) ExecutionError.t json :=
  let! outcome := execute_operation e operation version input context None false ids in
  ret (io_output outcome).

Definition evidenced (outcome : InternalExecutionOutcome)
    : call (S * W) ExecutionError.t ExecutionOutcome :=
  let! proof := lift (expect (io_proof outcome)) in
  ret {| eo_output := io_output outcome; eo_proof := proof |}.

Definition execute_evidenced e operation version input context ids
    : call (S * W) ExecutionError.t ExecutionOutcome :=
  let! outcome := execute_operation e operation version input context None true ids in
  evidenced outcome.

Definition execute_with_approval e operation version input context
    (approval : ApprovalGrant) (trusted_approver : Principal) ids
    : call (S * W) ExecutionError.t json :=
  let! outcome := execute_operation e operation version input context
                    (Some (approval, trusted_approver)) false ids in
  ret (io_output outcome).

Definition execute_with_approval_evidenced e operation version input context
    (approval : ApprovalGrant) (trusted_approver : Principal) ids
    : call (S * W) ExecutionError.t ExecutionOutcome :=
  let! outcome := execute_operation e operation version input context
                    (Some (approval, trusted_approver)) true ids in
  evidenced outcome.

End engine.
