(* ===== verification/EngineProofs.v ===== *)
(** * What the execution engine guarantees

    Theorems about [execute_inner] of [crates/proof-kernel/src/executor/engine.rs]
    as modelled in [Engine]: nothing runs without authority, the evidence that
    is returned binds the call, and an exact-replay key is used at most once. *)

From S2P Require Import Prelude RustStr Externals Delegation Json Canonical.
From S2P Require Import CanonicalNumber CanonicalInjective Serialized Evidence.
From S2P Require Import OperatorCommon Registry Approval ExecutionStore Engine.
From stdpp Require Import options.

(** ** Frames

    [keeps_world c]: the call leaves the world that handlers act on alone.
    [via st c]: the call changes the store only through the methods of [st]. *)

Create HintDb frame discriminated.

Section frames.
Context {S W : Type}.

Definition keeps_world {E A} (c : call (S * W) E A) : Prop := ∀ sw, (c sw).2.2 = sw.2.

Definition via (st : ExecutionStore S) {E A} (c : call (S * W) E A) : Prop :=
  ∀ sw, rtc (store_step st) sw.1 (c sw).2.1.

Lemma keeps_world_bind {E A B} (c : call (S * W) E A) (k : A → call (S * W) E B) :
  keeps_world c → (∀ a, keeps_world (k a)) → keeps_world (cbind c k).
Proof.
  intros Hc Hk sw. unfold cbind. specialize (Hc sw).
  destruct (c sw) as [[a| |] sw']; simpl in *; [by rewrite Hk|done..].
Qed.

Lemma via_bind st {E A B} (c : call (S * W) E A) (k : A → call (S * W) E B) :
  via st c → (∀ a, via st (k a)) → via st (cbind c k).
Proof.
  intros Hc Hk sw. unfold cbind. specialize (Hc sw).
  destruct (c sw) as [[a| |] sw']; simpl in *; [|done..]. etrans; [done|apply Hk].
Qed.

Lemma keeps_world_lift {E A} (c : result E A) : keeps_world (lift c).
Proof. done. Qed.
Lemma keeps_world_ret {E A} (a : A) : keeps_world (ret (E := E) a).
Proof. done. Qed.
Lemma keeps_world_throw {E A} (e : E) : keeps_world (throw (A := A) e).
Proof. done. Qed.
Lemma keeps_world_attempt {E F A} (c : call (S * W) E A) :
  keeps_world c → keeps_world (attempt (F := F) c).
Proof. intros Hc sw. apply (Hc sw). Qed.
Lemma keeps_world_on_store {E A} (c : call S E A) : keeps_world (on_store c).
Proof. intros sw. unfold on_store. by destruct (c sw.1). Qed.
Lemma keeps_world_stop {E A} (b : bool) (e : E) (k : call (S * W) E A) :
  keeps_world k → keeps_world (if b then throw e else k).
Proof. by destruct b. Qed.

Lemma via_lift st {E A} (c : result E A) : via st (lift c).
Proof. by intros sw. Qed.
Lemma via_bind_lift st {E A B} (c : result E A) (k : A → call (S * W) E B) :
  (∀ a, c = Ok a → via st (k a)) → via st (cbind (lift c) k).
Proof. intros Hk sw. unfold cbind, lift. destruct c; [by apply Hk|done..]. Qed.
Lemma via_ret st {E A} (a : A) : via st (ret (E := E) a).
Proof. by intros sw. Qed.
Lemma via_throw st {E A} (e : E) : via st (throw (A := A) e).
Proof. by intros sw. Qed.
Lemma via_attempt st {E F A} (c : call (S * W) E A) : via st c → via st (attempt (F := F) c).
Proof. intros Hc sw. apply (Hc sw). Qed.
Lemma via_stop st {E A} (b : bool) (e : E) (k : call (S * W) E A) :
  via st k → via st (if b then throw e else k).
Proof. destruct b; [|done]. intros _. apply via_throw. Qed.
Lemma via_on_world st {E A} (c : call W E A) : via st (on_world c).
Proof. intros sw. unfold on_world. by destruct (c sw.2). Qed.
Lemma via_on_store st {E A} (c : call S E A) :
  (∀ s, rtc (store_step st) s (c s).2) → via st (on_store c).
Proof. intros Hc sw. unfold on_store. specialize (Hc sw.1). by destruct (c sw.1). Qed.
Lemma call_map_err_state {E F A} (f : E → F) (c : call S E A) s :
  (call_map_err f c s).2 = (c s).2.
Proof. done. Qed.

End frames.

#[export] Hint Resolve keeps_world_bind keeps_world_lift keeps_world_ret keeps_world_throw
  keeps_world_attempt keeps_world_on_store keeps_world_stop : frame.
#[export] Hint Resolve via_bind_lift | 0 : frame.
#[export] Hint Extern 0 (via _ _) =>
  match goal with
  | E : ok_or (Some _) _ = Ok _ |- _ => injection E as <-
  | E : expect (Some _) = Ok _ |- _ => injection E as <-
  end : frame.
#[export] Hint Resolve via_bind via_lift via_ret via_throw via_attempt via_stop
  via_on_world via_on_store : frame.
#[export] Hint Extern 2 (rtc (store_step _) _ _) =>
  rewrite ?call_map_err_state; apply rtc_once; constructor : frame.
#[export] Hint Extern 1 (keeps_world (match ?x with _ => _ end)) => destruct x : frame.
#[export] Hint Extern 1 (via _ (match ?x with _ => _ end)) => destruct x : frame.

Ltac frame := intros; auto 20 with frame.

Section engine_frames.
Context {S W : Type} `{Externals} (e : ExecutionEngine S W).

Lemma enforce_delegation_world op dom ctx : keeps_world (enforce_delegation e op dom ctx).
Proof. unfold enforce_delegation. frame. Qed.
Hint Resolve enforce_delegation_world : frame.

Lemma authorize_world op v input ctx ap : keeps_world (authorize e op v input ctx ap).
Proof. unfold authorize. frame. Qed.

Lemma acquire_world h op v input ctx tok : keeps_world (acquire_replay e h op v input ctx tok).
Proof. unfold acquire_replay. frame. Qed.

Lemma fail_claim_world {A} c t x : keeps_world (fail_acquired_claim (A := A) e c t x).
Proof. unfold fail_acquired_claim. frame. Qed.
Hint Resolve fail_claim_world : frame.

Lemma check_benchmark_world en op v ctx c : keeps_world (check_benchmark e en op v ctx c).
Proof. unfold check_benchmark. frame. Qed.

Lemma persist_world ctx c o : keeps_world (persist e ctx c o).
Proof. unfold persist. frame. Qed.

Context (st : ExecutionStore S) (Hst : e_storage e = Some st).

Lemma enforce_delegation_via op dom ctx : via st (enforce_delegation e op dom ctx).
Proof using Hst. unfold enforce_delegation. rewrite Hst. frame. Qed.
Hint Resolve enforce_delegation_via : frame.

Lemma authorize_via op v input ctx ap : via st (authorize e op v input ctx ap).
Proof using Hst. unfold authorize. frame. Qed.

Lemma acquire_via h op v input ctx tok : via st (acquire_replay e h op v input ctx tok).
Proof using Hst. unfold acquire_replay. rewrite Hst. frame. Qed.

Lemma fail_claim_via {A} c t x : via st (fail_acquired_claim (A := A) e c t x).
Proof using Hst. unfold fail_acquired_claim. rewrite Hst. frame. Qed.
Hint Resolve fail_claim_via : frame.

Lemma check_benchmark_via en op v ctx c : via st (check_benchmark e en op v ctx c).
Proof using Hst. unfold check_benchmark. rewrite Hst. frame. Qed.

Lemma run_handler_via h op v input ctx c ev id :
  via st (run_handler e h op v input ctx c ev id).
Proof using Hst. unfold run_handler. frame. Qed.

Lemma persist_via ctx c o : via st (persist e ctx c o).
Proof using Hst. unfold persist. rewrite Hst. frame. Qed.

End engine_frames.

(** ** Authority *)

Section authority.
Context {S W : Type} `{Externals}.
Implicit Types (e : ExecutionEngine S W) (context : ExecutionContext).

(** The grant that a context names: it is in the chain, it covers the operation,
    and when there is a store it is the stored grant and names the actor. *)
Definition grant_covers e context (s : S) (operation domain : string) (id : Uuid) : Prop :=
  ∃ chain grant, ctx_delegation_chain context = Some chain ∧ grant ∈ grants chain
    ∧ delegation_id grant = id
    ∧ scope_allows_operation (scope grant) operation domain = true
    ∧ ∀ st, e_storage e = Some st →
        (load_delegation st id s).1 = Ok (Some grant)
        ∧ recipient grant = ctx_actor context.

(** What must hold for a call to be dispatched. *)
Record authorized e (operation version : string) (input : json) context
    (approval : option (ApprovalGrant * Principal)) (s : S) (entry : RegistryEntry) : Prop := {
  auth_entry : find (e_registry e) operation version = Some entry;
  auth_status : re_status entry ≠ Sunset;
  auth_human :
    re_governance entry = HumanOnly →
    ctx_principal_kind context = Some Human
    ∨ ∃ grant trusted, approval = Some (grant, trusted)
        ∧ verify_for_execution grant (e_keypair e) trusted operation version input
            (ctx_actor context) (ctx_timestamp context) = Ok ();
  auth_chain chain :
    ctx_delegation_chain context = Some chain →
    validate chain (ctx_actor context) (ctx_timestamp context) = Ok ();
  auth_grant id :
    ctx_delegation_id context = Some id →
    grant_covers e context s operation (re_domain entry) id;
}.

Lemma position_Some {A} (p : A → bool) l i :
  position p l = Some i → ∃ x, l !! i = Some x ∧ p x = true.
Proof.
  revert i. induction l as [|x l IH]; intros i; simpl; [done|].
  destruct (p x) eqn:Hp; [intros [= <-]; eauto|].
  intros (j & Hj & ->)%fmap_Some. apply IH in Hj. done.
Qed.

Lemma find_Some {A} (p : A → bool) l x : List.find p l = Some x → x ∈ l ∧ p x = true.
Proof. intros [Hin Hp]%List.find_some. split; [by apply list_elem_of_In|done]. Qed.

Lemma on_store_Ok {E A} (c : call S E A) (sw : S * W) a sw' :
  on_store c sw = (Ok a, sw') ↔ c sw.1 = (Ok a, sw'.1) ∧ sw'.2 = sw.2.
Proof. unfold on_store. destruct (c sw.1), sw'. simpl. naive_solver. Qed.

Lemma enforce_delegation_Ok e op dom ctx sw sw' :
  enforce_delegation e op dom ctx sw = (Ok (), sw') →
  ∃ id chain, ctx_delegation_id ctx = Some id ∧ ctx_delegation_chain ctx = Some chain
    ∧ validate chain (ctx_actor ctx) (ctx_timestamp ctx) = Ok ()
    ∧ grant_covers e ctx sw.1 op dom id.
Proof.
  unfold enforce_delegation. intros E. call_inv.
  match goal with E : ctx_delegation_id ctx = Some ?i |- _ => rename i into id end.
  match goal with E : ctx_delegation_chain ctx = Some ?c |- _ => rename c into chain end.
  exists id, chain. split_and!; [done..|]. unfold grant_covers.
  destruct (e_storage e) as [st|]; call_inv.
  - match goal with E : on_store _ _ = (Ok _, _) |- _ => apply on_store_Ok in E as [E _] end.
    call_inv.
    match goal with E : position _ _ = Some _ |- _ =>
      apply position_Some in E as (g & Hg & Hid) end.
    simplify_eq/=. res_inv. exists chain, g. split_and!; auto.
    + by eapply list_elem_of_lookup_2.
    + intros st' [= <-]. split; [|congruence].
      match goal with E : load_delegation _ _ _ = _ |- _ => by rewrite E end.
  - match goal with E : List.find _ _ = Some _ |- _ => apply find_Some in E as [? ?] end.
    res_inv. eexists chain, _. split_and!; eauto. by intros st [=].
Qed.

Lemma authorize_Ok e op v input ctx ap sw entry sw' :
  authorize e op v input ctx ap sw = (Ok entry, sw') →
  authorized e op v input ctx ap sw.1 entry.
Proof.
  unfold authorize. intros E. call_inv.
  match goal with E : check_governance _ _ _ _ _ _ _ = Ok _ |- _ => rename E into Hg end.
  match goal with E : (match ctx_delegation_id ctx with _ => _ end) _ = _ |- _ =>
    rename E into Hd end.
  split; [done|done| | |].
  - intros Hh. unfold check_governance in Hg. rewrite bool_decide_true in Hg by done.
    simpl in Hg. case_bool_decide; simpl in Hg; [by left|right].
    destruct ap as [[g t]|]; [|done]. res_inv. eauto.
  - intros chain Hc. rewrite Hc in Hd. destruct (ctx_delegation_id ctx) eqn:Hi.
    + apply enforce_delegation_Ok in Hd as (? & ? & _ & Hc' & Hv & _). by simplify_eq.
    + call_inv. done.
  - intros id Hi. rewrite Hi in Hd.
    apply enforce_delegation_Ok in Hd as (? & ? & Hi' & _ & _ & Hg'). by simplify_eq.
Qed.

(** C17: nothing runs without authority.  If an execution changed the world that
    handlers act on, or returned a result, then the operation is registered and
    not sunset, a human-only operation was executed by a human or under a verified
    approval of exactly this call, a supplied delegation chain is valid for the
    actor at that time, and a named grant is in the chain (and in the store, for
    the actor) and covers the operation. *)
Theorem execute_requires_authority e (operation version : string) (input : json) context
    (approval : option (ApprovalGrant * Principal)) (evidence_required : bool)
    (ids : FreshIds) (sw sw' : S * W) (r : result ExecutionError.t InternalExecutionOutcome)
    (E : execute_inner e operation version input context approval evidence_required ids sw
         = (r, sw'))
    (Hran : sw'.2 ≠ sw.2 ∨ is_ok r = true) :
  ∃ entry, authorized e operation version input context approval sw.1 entry.
Proof.
  unfold execute_inner in E.
  destruct (authorize e operation version input context approval sw) as [[entry|x|] s1] eqn:A.
  - exists entry. by eapply authorize_Ok.
  - exfalso. pose proof (authorize_world e operation version input context approval sw) as Hw.
    unfold cbind in E. rewrite A in E, Hw. injection E as <- <-. by destruct Hran.
  - exfalso. pose proof (authorize_world e operation version input context approval sw) as Hw.
    unfold cbind in E. rewrite A in E, Hw. injection E as <- <-. by destruct Hran.
Qed.

End authority.

(** ** Evidence *)

Section evidence.
Context {S W : Type} `{HL : ExternalsLaws}.
Implicit Types (e : ExecutionEngine S W) (context : ExecutionContext).

(** What a proof says about a call. *)
Definition proof_binds (p : Proof_) (operation version : string) (input output : json)
    : Prop :=
  pb_operation (body p) = operation +:+ "::" +:+ version
  ∧ digest_of OperationInput input = Ok (pb_input_digest (body p))
  ∧ digest_of OperationOutput output = Ok (pb_output_digest (body p)).

(** A proof that this engine made for this call. *)
Definition proof_minted e context (p : Proof_) : Prop :=
  pb_actor (body p) = ctx_actor context
  ∧ pb_delegation_id (body p) = ctx_delegation_id context
  ∧ pb_timestamp (body p) = ctx_timestamp context
  ∧ ctx_actor context = kp_principal_id (e_keypair e)
  ∧ Proof_verify p (pr_public_key (principal_from_keypair (e_keypair e))) = Ok ().

Lemma Proof_sign_Ok (p q : Proof_) kp :
  Proof_sign p kp = Ok q →
  body q = body p ∧ kp_principal_id kp = pb_actor (body p)
  ∧ Proof_verify q (pr_public_key (principal_from_keypair kp)) = Ok ().
Proof using HL.
  unfold Proof_sign. intros E. res_inv. split_and!; [done..|].
  unfold Proof_verify. cbn [body signature].
  match goal with E : signing_payload p = Ok ?s |- _ =>
    change (signing_payload {| body := body p; signature := sign kp s |})
      with (signing_payload p); rewrite E end.
  cbn [rbind]. unfold verify, sign. simpl. by rewrite ed25519_sign_verify.
Qed.

Lemma digest_of_Ok k v s : canonicalize v = Ok s → digest_of k v = Ok (digest k s).
Proof. intros E. unfold digest_of. by rewrite E. Qed.

Lemma create_operation_proof_Ok e op v input output ctx id p :
  create_operation_proof e op v input output ctx id = Ok p →
  proof_binds p op v input output ∧ proof_minted e ctx p ∧ pb_id (body p) = id.
Proof using HL.
  unfold create_operation_proof, create_proof. intros E. res_inv.
  match goal with E : Proof_sign _ _ = Ok _ |- _ =>
    apply Proof_sign_Ok in E as (Hb & Ha & Hv) end.
  unfold proof_binds, proof_minted. rewrite Hb. simpl in *.
  split_and!; auto using digest_of_Ok.
Qed.

Lemma fail_claim_not_Ok {A} e c t x sw a sw' :
  fail_acquired_claim (A := A) e c t x sw ≠ (Ok a, sw').
Proof.
  unfold fail_acquired_claim. intros E. destruct c as [c|]; [|done]. call_inv.
  match goal with E : (match ?r with _ => _ end) _ = (Ok _, _) |- _ => by destruct r end.
Qed.

Lemma run_handler_Ok e h op v input ctx claim ev id sw o sw' :
  run_handler e h op v input ctx claim ev id sw = (Ok o, sw') →
  (io_proof o = None ∧ ev = false ∧ e_storage e = None ∧ claim = None)
  ∨ ∃ p, io_proof o = Some p
      ∧ create_operation_proof e op v input (io_output o) ctx id = Ok p.
Proof.
  unfold run_handler. intros E. call_inv.
  match goal with E : (match ?r with _ => _ end) _ = _ |- _ => destruct r as [output| |] end.
  - destruct (_ || _ || _) eqn:Hn.
    + right. destruct (create_operation_proof _ _ _ _ _ _ _) as [p| |] eqn:Hp.
      * call_inv. by exists p.
      * by apply fail_claim_not_Ok in H1.
      * done.
    + left. call_inv. simpl. split_and!; auto.
      * destruct (e_storage e); [|done]. naive_solver.
      * destruct claim; [|done]. naive_solver.
  - by apply fail_claim_not_Ok in H1.
  - done.
Qed.

Lemma acquire_replay_Ok e h op v input ctx tok sw acq sw' :
  acquire_replay e h op v input ctx tok sw = (Ok acq, sw') →
  (h_idempotency_policy_for h v = NoReplay ∧ acq = inr None)
  ∨ (h_idempotency_policy_for h v = RequiredUuidV7ExactReplay
     ∧ ∃ claim st, execution_replay_claim op v input ctx tok = Ok claim
       ∧ e_storage e = Some st
       ∧ ((acq = inr (Some claim)
           ∧ claim_execution_replay st claim sw.1 = (Ok ClaimResult.Acquired, sw'.1))
          ∨ ∃ outcome, acq = inl outcome
              ∧ validate_replayed_outcome claim outcome = Ok ()
              ∧ claim_execution_replay st claim sw.1
                = (Ok (ClaimResult.Completed outcome), sw'.1))).
Proof.
  unfold acquire_replay. destruct (h_idempotency_policy_for h v); intros E; call_inv; [auto|].
  right. split; [done|].
  match goal with E : on_store _ _ = (Ok _, _) |- _ => apply on_store_Ok in E as [E Hw] end.
  call_inv. eexists _, _. split_and!; [done..|].
  match goal with E : (match ?r with _ => _ end) _ = _ |- _ => destruct r end;
    call_inv; try done; eauto 10.
Qed.

Lemma replay_claim_Ok op v input ctx tok claim :
  execution_replay_claim op v input ctx tok = Ok claim →
  rk_operation (rc_key claim) = op ∧ rk_version (rc_key claim) = v
  ∧ rc_claim_token claim = tok
  ∧ digest_of OperationInput input = Ok (rc_input_digest claim).
Proof.
  unfold execution_replay_claim. intros E. res_inv. simpl. auto using digest_of_Ok.
Qed.

Lemma validate_replayed_Ok claim outcome :
  validate_replayed_outcome claim outcome = Ok () ↔
  pb_operation (body (eo_proof outcome))
    = rk_operation (rc_key claim) +:+ "::" +:+ rk_version (rc_key claim)
  ∧ pb_input_digest (body (eo_proof outcome)) = rc_input_digest claim
  ∧ digest_of OperationOutput (eo_output outcome)
    = Ok (pb_output_digest (body (eo_proof outcome))).
Proof.
  unfold validate_replayed_outcome, digest_of. split.
  - intros E. res_inv. split_and!; auto.
    match goal with E : canonicalize _ = Ok _ |- _ => rewrite E end. simpl. congruence.
  - intros (-> & -> & (s & -> & [= <-])%rbind_Ok). simpl.
    rewrite !bool_decide_true by done. done.
Qed.

(** The store answered the claim of this call with a completed outcome. *)
Definition answered_with e (operation version : string) (input : json) context
    (approval : option (ApprovalGrant * Principal)) (ids : FreshIds) (sw : S * W)
    (outcome : ExecutionOutcome) : Prop :=
  ∃ h claim st entry sw1 s,
    e_handlers e !! operation = Some h
    ∧ h_idempotency_policy_for h version = RequiredUuidV7ExactReplay
    ∧ execution_replay_claim operation version input context (fresh_claim_token ids) = Ok claim
    ∧ e_storage e = Some st
    ∧ authorize e operation version input context approval sw = (Ok entry, sw1)
    ∧ claim_execution_replay st claim sw1.1 = (Ok (ClaimResult.Completed outcome), s).

(** C22: evidence.  Every proof that an execution returns names the operation and
    version and carries the digests of exactly the input that was given and the
    output that is returned.  The proof was made for this call, names the actor, grant
    and time of the context and verifies under the engine's key, unless the handler
    replays and the replay store answered the claim of this call with exactly this
    output and proof, as of an earlier execution. *)
Theorem execute_evidence e (operation version : string) (input : json) context
    (approval : option (ApprovalGrant * Principal)) (evidence_required : bool)
    (ids : FreshIds) (sw sw' : S * W) (o : InternalExecutionOutcome) (p : Proof_)
    (E : execute_inner e operation version input context approval evidence_required ids sw
         = (Ok o, sw'))
    (Hp : io_proof o = Some p) :
  proof_binds p operation version input (io_output o)
  ∧ (proof_minted e context p
     ∨ answered_with e operation version input context approval ids sw
         {| eo_output := io_output o; eo_proof := p |}).
Proof using HL.
  unfold execute_inner in E. call_inv.
  match goal with E : e_handlers e !! operation = Some ?x |- _ => rename x into h end.
  match goal with E : acquire_replay _ _ _ _ _ _ _ _ = _ |- _ =>
    apply acquire_replay_Ok in E as
      [[Hpol ->]|(Hpol & claim & st & Hc & Hst & [[-> _]|(out & -> & Hv & Ha)])] end.
  1-2: call_inv; match goal with E : run_handler _ _ _ _ _ _ _ _ _ _ = _ |- _ =>
         apply run_handler_Ok in E as [(Hn & _)|(p' & Hp' & Hmk)] end; [congruence|];
       simplify_eq; apply create_operation_proof_Ok in Hmk as (Hb & Hm & _); auto.
  call_inv. simpl in *. simplify_eq.
  destruct (replay_claim_Ok _ _ _ _ _ _ Hc) as (Ho & Hve & _ & Hd).
  apply validate_replayed_Ok in Hv as (V1 & V2 & V3). split.
  - unfold proof_binds. rewrite V1, V2, Ho, Hve. auto.
  - right. destruct out. eexists _, _, _, _, _, _. eauto 10.
Qed.

End evidence.

(** ** Exact replay *)

Section replay.
Context {S W : Type} `{HL : ExternalsLaws} (st : ExecutionStore S) `{RS : !ReplayStore st}.
Context (e : ExecutionEngine S W) (Hst : e_storage e = Some st).
Context (op v : string) (h : OperationHandler W) (Hh : e_handlers e !! op = Some h).
Context (Hpol : h_idempotency_policy_for h v = RequiredUuidV7ExactReplay).
Implicit Types (ctx : ExecutionContext) (sw : S * W).

(** The stages after the claim. *)
Definition dispatch (entry : RegistryEntry) (input : json) ctx
    (claim : option ExecutionReplayClaim) (ev : bool) (id : Uuid)
    : call (S * W) ExecutionError.t InternalExecutionOutcome :=
  let! _ := check_benchmark e entry op v ctx claim in
  let! outcome := run_handler e h op v input ctx claim ev id in
  let! _ := persist e ctx claim outcome in
  ret outcome.

Lemma dispatch_via entry input ctx claim ev id : via st (dispatch entry input ctx claim ev id).
Proof using Hst.
  unfold dispatch.
  apply via_bind; [by apply check_benchmark_via|]. intros _.
  apply via_bind; [by apply run_handler_via|]. intros o.
  apply via_bind; [by apply persist_via|]. intros _. apply via_ret.
Qed.

(** An execution, by the outcome of its claim. *)
Lemma execute_cases input ctx ap ev ids sw r sw' :
  execute_inner e op v input ctx ap ev ids sw = (r, sw') →
  (sw'.2 = sw.2 ∧ is_ok r = false)
  ∨ ∃ entry sw1 claim sw2,
      authorize e op v input ctx ap sw = (Ok entry, sw1)
      ∧ execution_replay_claim op v input ctx (fresh_claim_token ids) = Ok claim
      ∧ ((claim_execution_replay st claim sw1.1 = (Ok ClaimResult.Acquired, sw2.1)
          ∧ sw2.2 = sw.2
          ∧ dispatch entry input ctx (Some claim) ev (fresh_proof_id ids) sw2 = (r, sw'))
         ∨ ∃ outcome,
             claim_execution_replay st claim sw1.1
               = (Ok (ClaimResult.Completed outcome), sw'.1)
             ∧ sw'.2 = sw.2 ∧ validate_replayed_outcome claim outcome = Ok ()
             ∧ r = Ok {| io_output := eo_output outcome;
                         io_proof := Some (eo_proof outcome) |}).
Proof using Hh Hpol Hst.
  unfold execute_inner. intros E.
  pose proof (authorize_world e op v input ctx ap sw) as Wa.
  destruct (authorize e op v input ctx ap sw) as [ra sw1] eqn:A. simpl in Wa.
  unfold cbind at 1 in E. rewrite A in E.
  destruct ra as [entry| |]; [|injection E as <- <-; by left..].
  unfold cbind at 1, lift at 1 in E. rewrite Hh in E. cbn [ok_or] in E.
  pose proof (acquire_world e h op v input ctx (fresh_claim_token ids) sw1) as Wq.
  destruct (acquire_replay e h op v input ctx (fresh_claim_token ids) sw1) as [rq sw2] eqn:Q.
  unfold cbind at 1 in E. rewrite Q in E. simpl in Wq.
  destruct rq as [acq| |]; [|injection E as <- <-; left; split; [congruence|done]..].
  apply acquire_replay_Ok in Q as
    [[Hn _]|(_ & claim & st' & Hc & Hst' & Hq)]; [congruence|].
  rewrite Hst in Hst'. injection Hst' as <-.
  right. exists entry, sw1, claim.
  destruct Hq as [[-> Hq]|(out & -> & Hv & Hq)].
  - exists sw2. split_and!; [done..|]. left. split_and!; [done|congruence|exact E].
  - injection E as <- <-. exists sw2. split_and!; [done..|]. right. exists out.
    split_and!; [done|congruence|done|done].
Qed.

Lemma claim_acquired c s s' :
  claim_execution_replay st c s = (Ok ClaimResult.Acquired, s') →
  view s !! rc_key c = None
  ∧ view s' !! rc_key c = Some {| rr_claim := c; rr_state := Claimed |}.
Proof.
  intros E. pose proof (view_claim c s) as V. rewrite E in V. unfold abstract_claim in V.
  destruct (view s !! rc_key c) as [rp|].
  - destruct (decide _); [|done]. by destruct (rr_state rp).
  - injection V as ->. split; [done|]. apply lookup_insert_eq.
Qed.

Lemma claim_completed c s out s' :
  claim_execution_replay st c s = (Ok (ClaimResult.Completed out), s') →
  ∃ rp ctx', view s !! rc_key c = Some rp ∧ view s' = view s
    ∧ rc_input_digest (rr_claim rp) = rc_input_digest c ∧ rr_state rp = Completed ctx' out.
Proof.
  intros E. pose proof (view_claim c s) as V. rewrite E in V. unfold abstract_claim in V.
  destruct (view s !! rc_key c) as [rp|]; [|done].
  destruct (decide _); [|done]. destruct (rr_state rp) eqn:Hs; try done.
  injection V as -> ->. eauto 10.
Qed.

Lemma replay_claim_key input1 ctx1 tok1 c1 input2 ctx2 tok2 c2 :
  value_get "idempotency_key" input1 = value_get "idempotency_key" input2 →
  execution_replay_claim op v input1 ctx1 tok1 = Ok c1 →
  execution_replay_claim op v input2 ctx2 tok2 = Ok c2 → rc_key c1 = rc_key c2.
Proof.
  unfold execution_replay_claim. intros Hv E1 E2. res_inv. simpl. f_equal. congruence.
Qed.

(** An execution that ran the handler leaves the key bound to its claim. *)
Lemma execute_ran input ctx ap ev ids sw r sw' :
  execute_inner e op v input ctx ap ev ids sw = (r, sw') → sw'.2 ≠ sw.2 →
  ∃ claim rp, execution_replay_claim op v input ctx (fresh_claim_token ids) = Ok claim
    ∧ view sw'.1 !! rc_key claim = Some rp ∧ rr_claim rp = claim.
Proof using Hh Hpol Hst.
  intros E Hw. apply execute_cases in E as
    [[? _]|(en & sw1 & c & sw2 & _ & Hc & [(Hq & _ & Hd)|(out & _ & ? & _)])];
    [congruence| |congruence].
  apply claim_acquired in Hq as [_ Hq].
  pose proof (dispatch_via en input ctx (Some c) ev (fresh_proof_id ids) sw2) as Hvia.
  rewrite Hd in Hvia. simpl in Hvia.
  destruct (store_steps_keep st _ _ _ _ Hvia Hq) as (rp & Hrp & Hcl & _). eauto.
Qed.

(** C1: at most once.  If an execution under an idempotency key ran its handler,
    then no execution of the same operation and version with that key runs a
    handler again: with any other input, by any caller, and after any calls of
    the store and any changes of the world in between. *)
Theorem execute_at_most_once input1 ctx1 ap1 ev1 ids1 (sw1 sw1' : S * W) r1
    input2 ctx2 ap2 ev2 ids2 (sw2 sw2' : S * W) r2
    (E1 : execute_inner e op v input1 ctx1 ap1 ev1 ids1 sw1 = (r1, sw1'))
    (Hran : sw1'.2 ≠ sw1.2)
    (Hsteps : rtc (store_step st) sw1'.1 sw2.1)
    (Hkey : value_get "idempotency_key" input1 = value_get "idempotency_key" input2)
    (E2 : execute_inner e op v input2 ctx2 ap2 ev2 ids2 sw2 = (r2, sw2')) :
  sw2'.2 = sw2.2.
Proof using Hh Hpol Hst RS.
  destruct (execute_ran _ _ _ _ _ _ _ _ E1 Hran) as (c1 & rp & Hc1 & Hrp & _).
  apply execute_cases in E2 as
    [[? _]|(en & sw3 & c2 & sw4 & Ha & Hc2 & [(Hq & _ & _)|(out & _ & ? & _)])]; [done| |done].
  exfalso. rewrite (replay_claim_key _ _ _ _ _ _ _ _ Hkey Hc1 Hc2) in Hrp.
  pose proof (authorize_via e st Hst op v input2 ctx2 ap2 sw2) as Hvia.
  rewrite Ha in Hvia. simpl in Hvia.
  assert (rtc (store_step st) sw1'.1 sw3.1) as Hall by (etrans; eauto).
  destruct (store_steps_keep st _ _ _ _ Hall Hrp) as (rp' & Hrp' & _).
  apply claim_acquired in Hq as [Hq _]. congruence.
Qed.

(** *** The original result is returned again *)

Lemma norm_value_get k x y :
  norm_value x = norm_value y →
  norm_value <$> value_get k x = norm_value <$> value_get k y.
Proof.
  assert (∀ z, value_get k (norm_value z) = norm_value <$> value_get k z) as G.
  { intros [| | | | |m]; try done. apply (obj_get_map norm_value k m). }
  intros E. by rewrite <- !G, E.
Qed.

Lemma norm_as_str x s : as_str x = Some s ↔ norm_value x = JString s.
Proof. destruct x; simpl; naive_solver. Qed.

(** Inputs with one canonical text claim the same key with the same digest. *)
Lemma replay_claim_canonical input1 ctx1 tok1 c1 input2 ctx2 tok2 :
  json_wf input1 = true → json_wf input2 = true →
  canonicalize input1 = canonicalize input2 →
  execution_replay_claim op v input1 ctx1 tok1 = Ok c1 →
  ∃ c2, execution_replay_claim op v input2 ctx2 tok2 = Ok c2
    ∧ rc_key c2 = rc_key c1 ∧ rc_input_digest c2 = rc_input_digest c1.
Proof using HL.
  intros W1 W2 Hcan. unfold execution_replay_claim. intros E. res_inv.
  match goal with E : canonicalize input1 = Ok ?s |- _ =>
    pose proof (canonical_reads_back input1 input2 s s EmptyString EmptyString W1 W2 E
      ltac:(unfold canonicalize in *; congruence) eq_refl eq_refl eq_refl) as [Hn _];
    rewrite E in Hcan; rename E into C1 end.
  match goal with E : value_get _ input1 = Some ?f |- _ =>
    pose proof (norm_value_get "idempotency_key" _ _ Hn) as Hg; rewrite E in Hg end.
  match goal with E : as_str _ = Some _ |- _ => apply norm_as_str in E; rename E into Ha end.
  simpl in Hg. rewrite Ha in Hg. symmetry in Hg. apply fmap_Some in Hg as (f2 & -> & Hf2).
  symmetry in Hf2. apply norm_as_str in Hf2. simpl. rewrite Hf2. simpl.
  match goal with E : uuid_parse_str _ = Some _ |- _ => rewrite E end. simpl.
  match goal with E : uuid_is_v7 _ = true |- _ => rewrite E end. simpl.
  rewrite <- Hcan. simpl. eauto.
Qed.

Lemma settles_state m c state m' :
  settles m c state m' →
  ∃ rp, m' !! rc_key c = Some rp ∧ rc_input_digest (rr_claim rp) = rc_input_digest c
    ∧ rr_state rp = state.
Proof.
  intros (rp & Hrp & Hd & _ & [[_ ->]|[Hs ->]]); [|eauto].
  rewrite lookup_insert_eq. eauto.
Qed.

(** A successful execution leaves the key completed with its result. *)
Lemma execute_completed input ctx ap ev ids sw o sw' :
  execute_inner e op v input ctx ap ev ids sw = (Ok o, sw') →
  ∃ claim rp ctx' p,
    execution_replay_claim op v input ctx (fresh_claim_token ids) = Ok claim
    ∧ view sw'.1 !! rc_key claim = Some rp
    ∧ rc_input_digest (rr_claim rp) = rc_input_digest claim
    ∧ io_proof o = Some p
    ∧ rr_state rp = Completed ctx' {| eo_output := io_output o; eo_proof := p |}
    ∧ validate_replayed_outcome claim {| eo_output := io_output o; eo_proof := p |} = Ok ().
Proof using HL Hh Hpol Hst.
  intros E. apply execute_cases in E as
    [[_ ?]|(en & sw1 & c & sw2 & _ & Hc & [(Hq & _ & Hd)|(out & Hq & _ & Hv & Hr)])];
    [done| |].
  - unfold dispatch in Hd. call_inv.
    match goal with E : run_handler _ _ _ _ _ _ _ _ _ _ = _ |- _ =>
      apply run_handler_Ok in E as [(_ & _ & _ & [=])|(p & Hp & Hmk)] end.
    match goal with E : persist _ _ _ _ _ = _ |- _ => unfold persist in E end.
    call_inv.
    match goal with E : e_storage e = Some ?x |- _ =>
      tryif constr_eq x st then fail else assert (x = st) as -> by congruence end.
    simplify_eq.
    match goal with E : on_store _ _ = (Ok _, _) |- _ => apply on_store_Ok in E as [E _] end.
    call_inv.
    match goal with P : complete_execution_replay st _ _ _ ?s = _ |- _ =>
      pose proof (view_complete c ctx {| eo_output := io_output o; eo_proof := p |} s) as V;
      rewrite P in V end.
    apply settles_state in V as (rp & Hrp & Hdig & Hs).
    apply create_operation_proof_Ok in Hmk as ((B1 & B2 & B3) & _ & _).
    pose proof (replay_claim_Ok _ _ _ _ _ _ Hc) as (Ho & Hve & _ & Hdi).
    exists c, rp, ctx, p. split_and!; [done..|]. apply validate_replayed_Ok.
    cbn [eo_proof eo_output]. split_and!; [by rewrite Ho, Hve|congruence|done].
  - injection Hr as ->. apply claim_completed in Hq as (rp & ctx' & Hrp & Hview & Hdig & Hs).
    exists c, rp, ctx', (eo_proof out). rewrite Hview. destruct out; simpl in *. auto 10.
Qed.

(** C16: exact replay.  After an execution that returned a result, an authorised
    execution of the same operation and version with the same canonical input
    returns that output and that proof and runs nothing, whenever the store
    answers its claim; whatever calls of the store were made in between. *)
Theorem execute_exact_replay input1 ctx1 ap1 ev1 ids1 (sw1 sw1' : S * W) o
    input2 ctx2 ap2 ev2 ids2 (sw2 sw2' : S * W) entry
    (Hw1 : json_wf input1 = true) (Hw2 : json_wf input2 = true)
    (E1 : execute_inner e op v input1 ctx1 ap1 ev1 ids1 sw1 = (Ok o, sw1'))
    (Hsteps : rtc (store_step st) sw1'.1 sw2.1)
    (Hcanonical : canonicalize input1 = canonicalize input2)
    (Hauth : authorize e op v input2 ctx2 ap2 sw2 = (Ok entry, sw2'))
    (Hanswers : ∀ c, is_ok (claim_execution_replay st c sw2'.1).1 = true) :
  ∃ sw3, execute_inner e op v input2 ctx2 ap2 ev2 ids2 sw2 = (Ok o, sw3) ∧ sw3.2 = sw2.2.
Proof using HL Hh Hpol Hst RS.
  apply execute_completed in E1 as (c1 & rp & ctx' & p & Hc1 & Hrp & Hdig & Hp & Hs & Hv).
  destruct (replay_claim_canonical _ _ _ _ input2 ctx2 (fresh_claim_token ids2)
    Hw1 Hw2 Hcanonical Hc1) as (c2 & Hc2 & Hk & Hd).
  pose proof (authorize_via e st Hst op v input2 ctx2 ap2 sw2) as Hvia.
  pose proof (authorize_world e op v input2 ctx2 ap2 sw2) as Hwa.
  rewrite Hauth in Hvia, Hwa. simpl in Hvia, Hwa.
  assert (rtc (store_step st) sw1'.1 sw2'.1) as Hall by (etrans; eauto).
  destruct (store_steps_keep st _ _ _ _ Hall Hrp) as (rp' & Hrp' & _ & Heq).
  rewrite Heq in Hrp' by congruence.
  pose proof (Hanswers c2) as Ha. pose proof (view_claim c2 sw2'.1) as V.
  destruct (claim_execution_replay st c2 sw2'.1) as [[x| |] s3] eqn:Hq; [|done..].
  unfold abstract_claim in V. rewrite Hk, Hrp', decide_True, Hs in V by congruence.
  injection V as -> V. exists (s3, sw2.2). split; [|done].
  unfold execute_inner. unfold cbind at 1. rewrite Hauth.
  unfold cbind at 1, lift at 1. rewrite Hh. cbn [ok_or].
  unfold cbind at 1. unfold acquire_replay. rewrite Hpol, Hc2, Hst.
  unfold cbind at 1, lift at 1. unfold cbind at 1, lift at 1. cbn [ok_or].
  unfold cbind at 1, on_store, call_map_err. rewrite Hq. cbn [fst snd map_err].
  assert (validate_replayed_outcome c2 {| eo_output := io_output o; eo_proof := p |} = Ok ())
    as ->.
  { apply validate_replayed_Ok in Hv. apply validate_replayed_Ok. by rewrite Hk, Hd. }
  unfold cbind, lift, ret. rewrite Hwa. destruct o; simpl in *. by rewrite Hp.
Qed.

(** *** An ambiguous attempt is not repeated *)

(** The record of [c] is still claimed, or failed. *)
Definition unsettled (c : ExecutionReplayClaim) (s : S) : Prop :=
  ∃ rp, view s !! rc_key c = Some rp ∧ rr_claim rp = c
    ∧ (rr_state rp = Claimed ∨ ∃ t m, rr_state rp = Failed t m).

(** Authorization reads the store and leaves the replay records alone. *)
Definition keeps_view {E A} (c : call (S * W) E A) : Prop :=
  ∀ sw, view (c sw).2.1 = view sw.1.

Lemma keeps_view_bind {E A B} (c : call (S * W) E A) (k : A → call (S * W) E B) :
  keeps_view c → (∀ a, keeps_view (k a)) → keeps_view (cbind c k).
Proof.
  intros Hc Hk sw. unfold cbind. specialize (Hc sw).
  destruct (c sw) as [[a| |] sw']; simpl in *; [by rewrite Hk|done..].
Qed.

Lemma keeps_view_stop {E A} (b : bool) (x : E) (k : call (S * W) E A) :
  keeps_view k → keeps_view (if b then throw x else k).
Proof. by destruct b. Qed.

Lemma keeps_view_load {E} (f : string → E) id :
  keeps_view (on_store (call_map_err f (load_delegation st id))).
Proof.
  intros sw. unfold on_store, call_map_err. pose proof (view_load_delegation id sw.1) as V.
  by destruct (load_delegation st id sw.1).
Qed.

Lemma authorize_view input ctx ap : keeps_view (authorize e op v input ctx ap).
Proof using Hst.
  unfold authorize, enforce_delegation. rewrite Hst.
  repeat first [apply keeps_view_bind; [|intros ?] | apply keeps_view_stop
               | apply keeps_view_load | done
               | match goal with |- keeps_view (match ?x with _ => _ end) => destruct x end].
Qed.

Lemma check_benchmark_view entry ctx c sw sw' :
  check_benchmark e entry op v ctx c sw = (Ok (), sw') → view sw'.1 = view sw.1.
Proof using Hst.
  unfold check_benchmark. rewrite Hst. destruct (re_benchmark entry); [|by intros [= <-]].
  unfold cbind, attempt, on_store. pose proof (view_latest_proof op v sw.1) as V.
  destruct (latest_proof_for_operation st op v sw.1) as [r s1]. simpl in V. cbn [fst snd].
  destruct r as [[p|]| |]; [destruct (is_expired p _)|..]; intros E;
    try (by apply fail_claim_not_Ok in E); unfold ret, lift in E; by simplify_eq.
Qed.

Lemma fail_claim_unsettled {A} c t x sw :
  view sw.1 !! rc_key c = Some {| rr_claim := c; rr_state := Claimed |} →
  unsettled c (fail_acquired_claim (A := A) e (Some c) t x sw).2.1.
Proof using Hst.
  intros Hc. unfold fail_acquired_claim. rewrite Hst. unfold cbind, lift, attempt, on_store.
  cbn [expect]. pose proof (view_fail c t (ExecutionError.to_string x) sw.1) as V.
  destruct (fail_execution_replay st c t (ExecutionError.to_string x) sw.1) as [[[]| |] s1];
    change (unsettled c s1);
    [|exists {| rr_claim := c; rr_state := Claimed |}; rewrite V; auto..].
  destruct V as (rp & Hrp & _ & _ & V). rewrite Hc in Hrp. injection Hrp as <-.
  destruct V as [[_ V]|[[=] _]]. unfold unsettled. rewrite V, lookup_insert_eq. eauto 10.
Qed.

Lemma run_handler_unsettled input ctx c ev id sw r sw' :
  view sw.1 !! rc_key c = Some {| rr_claim := c; rr_state := Claimed |} →
  run_handler e h op v input ctx (Some c) ev id sw = (r, sw') →
  if is_ok r then view sw'.1 = view sw.1 else unsettled c sw'.1.
Proof using Hst.
  intros Hc. unfold run_handler, cbind, attempt, on_world.
  destruct (h_execute_versioned h v input ctx sw.2) as [out w1]. cbn [fst snd].
  assert (view (sw.1, w1).1 !! rc_key c = Some {| rr_claim := c; rr_state := Claimed |})
    as Hc' by done.
  pose proof (λ x, fail_claim_unsettled (A := InternalExecutionOutcome) c
    (ctx_timestamp ctx) x _ Hc') as F.
  assert (unsettled c (sw.1, w1).1) as U by (exists {| rr_claim := c; rr_state := Claimed |}; auto).
  destruct out as [output|x|].
  - destruct (_ || _ || _); [|by intros [= <- <-]].
    destruct (create_operation_proof _ _ _ _ _ _ _) as [p|x|]; intros E.
    + by injection E as <- <-.
    + specialize (F (ExecutionError.EvidenceFailed (ProofError_to_string x))).
      rewrite E in F. destruct r; [by apply fail_claim_not_Ok in E|done..].
    + by injection E as <- <-.
  - intros E. specialize (F x). rewrite E in F.
    destruct r; [by apply fail_claim_not_Ok in E|done..].
  - by intros [= <- <-].
Qed.

Lemma persist_unsettled ctx c o sw r sw' :
  view sw.1 !! rc_key c = Some {| rr_claim := c; rr_state := Claimed |} →
  persist e ctx (Some c) o sw = (r, sw') → is_ok r = false → unsettled c sw'.1.
Proof using Hst.
  intros Hc. unfold persist. rewrite Hst. unfold cbind, lift.
  assert (unsettled c sw.1) as U by (exists {| rr_claim := c; rr_state := Claimed |}; auto).
  destruct (io_proof o) as [p|]; cbn [expect]; [|by intros [= <- <-]].
  unfold on_store, call_map_err.
  pose proof (view_complete c ctx {| eo_output := io_output o; eo_proof := p |} sw.1) as V.
  destruct (complete_execution_replay st c ctx _ sw.1) as [[[]| |] s1]; cbn [fst snd map_err];
    intros [= <- <-]; [done|intros _..];
    exists {| rr_claim := c; rr_state := Claimed |}; cbn [fst]; rewrite V; auto.
Qed.

(** An execution that ran the handler and failed leaves the key unsettled. *)
Lemma execute_ran_failed input ctx ap ev ids sw r sw' :
  execute_inner e op v input ctx ap ev ids sw = (r, sw') → sw'.2 ≠ sw.2 → is_ok r = false →
  ∃ claim, execution_replay_claim op v input ctx (fresh_claim_token ids) = Ok claim
    ∧ unsettled claim sw'.1.
Proof using Hh Hpol Hst.
  intros E Hw Hr. apply execute_cases in E as
    [[? _]|(en & sw1 & c & sw2 & _ & Hc & [(Hq & Hw2 & Hd)|(out & _ & ? & _)])];
    [congruence| |congruence].
  exists c. split; [done|]. apply claim_acquired in Hq as [_ Hq].
  unfold dispatch, cbind in Hd.
  pose proof (check_benchmark_world e en op v ctx (Some c) sw2) as Wb.
  destruct (check_benchmark e en op v ctx (Some c) sw2) as [[[]| |] sw3] eqn:B;
    [|injection Hd as <- <-; simpl in Wb; congruence..].
  apply check_benchmark_view in B. rewrite <- B in Hq.
  destruct (run_handler e h op v input ctx (Some c) ev (fresh_proof_id ids) sw3)
    as [ro sw4] eqn:R.
  pose proof (run_handler_unsettled _ _ _ _ _ _ _ _ Hq R) as U.
  destruct ro as [o| |]; [|by injection Hd as <- <-..]. cbn [is_ok] in U.
  rewrite <- U in Hq. destruct (persist e ctx (Some c) o sw4) as [rp sw5] eqn:P.
  apply (persist_unsettled _ _ _ _ _ _ Hq) in P as P'; [|by destruct rp; [injection Hd as <- <-|..]].
  destruct rp; by injection Hd as <- <-.
Qed.

(** C34: ambiguity fails closed.  Take a handler that requires exact replays under a key, and
    an engine over a replay store.  If an execution ran the handler but returned an
    error, then the next execution with the same canonical input, when it is authorised
    and the store answers its claim, is refused as in progress or indeterminate and runs
    nothing. *)
Theorem execute_ambiguous_refused input1 ctx1 ap1 ev1 ids1 (sw1 sw1' : S * W) r1
    input2 ctx2 ap2 ev2 ids2 (sw2 sw2' : S * W) entry
    (Hw1 : json_wf input1 = true) (Hw2 : json_wf input2 = true)
    (E1 : execute_inner e op v input1 ctx1 ap1 ev1 ids1 sw1 = (r1, sw1'))
    (Hran : sw1'.2 ≠ sw1.2) (Hfailed : is_ok r1 = false)
    (Hnext : sw2.1 = sw1'.1)
    (Hcanonical : canonicalize input1 = canonicalize input2)
    (Hauth : authorize e op v input2 ctx2 ap2 sw2 = (Ok entry, sw2'))
    (Hanswers : ∀ c, is_ok (claim_execution_replay st c sw2'.1).1 = true) :
  ∃ sw3 x, execute_inner e op v input2 ctx2 ap2 ev2 ids2 sw2
             = (Err (ExecutionError.Idempotency x), sw3)
    ∧ sw3.2 = sw2.2
    ∧ (x = IdempotencyError.InProgress ∨ x = IdempotencyError.Indeterminate).
Proof using HL Hh Hpol Hst RS.
  apply execute_ran_failed in E1 as (c1 & Hc1 & rp & Hrp & Hcl & Hs); [|done..].
  destruct (replay_claim_canonical _ _ _ _ input2 ctx2 (fresh_claim_token ids2)
    Hw1 Hw2 Hcanonical Hc1) as (c2 & Hc2 & Hk & Hd).
  pose proof (authorize_view input2 ctx2 ap2 sw2) as Hva.
  pose proof (authorize_world e op v input2 ctx2 ap2 sw2) as Hwa.
  rewrite Hauth in Hva, Hwa. simpl in Hva, Hwa. rewrite Hnext in Hva. rewrite <- Hva in Hrp.
  pose proof (Hanswers c2) as Ha. pose proof (view_claim c2 sw2'.1) as V.
  destruct (claim_execution_replay st c2 sw2'.1) as [[y| |] s3] eqn:Hq; [|done..].
  unfold abstract_claim in V. rewrite Hk, Hrp, decide_True in V by congruence.
  unfold execute_inner. unfold cbind at 1. rewrite Hauth.
  unfold cbind at 1, lift at 1. rewrite Hh. cbn [ok_or].
  unfold cbind at 1. unfold acquire_replay. rewrite Hpol, Hc2, Hst.
  unfold cbind at 1, lift at 1. unfold cbind at 1, lift at 1. cbn [ok_or].
  unfold cbind at 1, on_store, call_map_err. rewrite Hq. cbn [fst snd map_err].
  destruct Hs as [Hs|(t & m & Hs)]; rewrite Hs in V; injection V as -> _;
    eexists (s3, sw2.2), _; rewrite <- Hwa; eauto.
Qed.

End replay.

(** ** Witnesses

    A handler that counts its calls in the world, an engine with the recording
    store, and an input that carries an idempotency key. *)

Definition counting_handler (operation : string) (policy : IdempotencyPolicy)
    (fails : bool) : OperationHandler N :=
  {| h_operation := operation;
     h_idempotency_policy_for := λ _, policy;
     h_execute_versioned := λ _ input _ w,
       (if fails then Err (ExecutionError.HandlerFailed "disk full") else Ok JNull,
        (w + 1)%N) |}.

Definition sample_engine (policy : IdempotencyPolicy) (fails : bool)
    : ExecutionEngine RecordingStore N :=
  register_handler (counting_handler "object.create" policy fails)
    (with_storage (@recording_store Sample.sample 40)
       (new_with_keypair sample_registry sample_key)).

Definition keyed_input : json :=
  JObject [("idempotency_key", JString "p01"); ("title", JString "T")].

Definition sample_ids : FreshIds := {| fresh_claim_token := 50; fresh_proof_id := 51 |}.
Definition retry_ids : FreshIds := {| fresh_claim_token := 52; fresh_proof_id := 53 |}.

Definition sample_run (policy : IdempotencyPolicy) (fails : bool) (ids : FreshIds)
    (sw : RecordingStore * N)
    : result ExecutionError.t InternalExecutionOutcome * (RecordingStore * N) :=
  @execute_inner _ _ Sample.sample (sample_engine policy fails) "object.create" "v1"
    keyed_input sample_context None true ids sw.

Lemma recording_claim_answers c s : is_ok (recording_claim c s).1 = true.
Proof. unfold recording_claim. destruct (_ !! _); [destruct (negb _)|]; reflexivity. Qed.

Definition start : RecordingStore * N := (RecordingStore_default, 0%N).

Definition outcome_of (r : result ExecutionError.t InternalExecutionOutcome)
    : InternalExecutionOutcome :=
  match r with
  | Ok o => o
  | _ => {| io_output := JNull; io_proof := None |}
  end.

Lemma execute_requires_authority_witness :
  ∃ entry, @authorized _ _ Sample.sample (sample_engine NoReplay false) "object.create" "v1"
    keyed_input sample_context None RecordingStore_default entry.
Proof.
  apply (@execute_requires_authority _ _ Sample.sample (sample_engine NoReplay false)
    "object.create" "v1" keyed_input sample_context None true sample_ids start
    (sample_run NoReplay false sample_ids start).2
    (sample_run NoReplay false sample_ids start).1).
  - vm_compute. reflexivity.
  - left. vm_compute. discriminate.
Defined.

Lemma execute_evidence_witness :
  ∃ p, io_proof (outcome_of (sample_run RequiredUuidV7ExactReplay false sample_ids start).1)
       = Some p
    ∧ @proof_binds Sample.sample p "object.create" "v1" keyed_input JNull
    ∧ (@proof_minted _ _ Sample.sample (sample_engine RequiredUuidV7ExactReplay false)
         sample_context p
       ∨ @answered_with _ _ Sample.sample (sample_engine RequiredUuidV7ExactReplay false)
           "object.create" "v1" keyed_input sample_context None sample_ids start
           {| eo_output := JNull; eo_proof := p |}).
Proof.
  destruct (io_proof (outcome_of (sample_run RequiredUuidV7ExactReplay false sample_ids start).1))
    as [p|] eqn:Hp; [|vm_compute in Hp; discriminate Hp].
  exists p. split; [reflexivity|].
  apply (@execute_evidence _ _ Sample.sample Sample.sample_laws
    (sample_engine RequiredUuidV7ExactReplay false) "object.create" "v1" keyed_input
    sample_context None true sample_ids start
    (sample_run RequiredUuidV7ExactReplay false sample_ids start).2
    (outcome_of (sample_run RequiredUuidV7ExactReplay false sample_ids start).1) p).
  - vm_compute. reflexivity.
  - exact Hp.
Defined.

Lemma execute_at_most_once_witness :
  (sample_run RequiredUuidV7ExactReplay false sample_ids start).2.2 = 1%N
  ∧ (sample_run RequiredUuidV7ExactReplay false retry_ids
       (sample_run RequiredUuidV7ExactReplay false sample_ids start).2).2.2
    = (sample_run RequiredUuidV7ExactReplay false sample_ids start).2.2.
Proof.
  split; [vm_compute; reflexivity|].
  apply (@execute_at_most_once _ _ Sample.sample (@recording_store Sample.sample 40)
    (@recording_replay_store Sample.sample 40)
    (sample_engine RequiredUuidV7ExactReplay false) eq_refl "object.create" "v1"
    (counting_handler "object.create" RequiredUuidV7ExactReplay false) eq_refl eq_refl
    keyed_input sample_context None true sample_ids start
    (sample_run RequiredUuidV7ExactReplay false sample_ids start).2
    (sample_run RequiredUuidV7ExactReplay false sample_ids start).1
    keyed_input sample_context None true retry_ids
    (sample_run RequiredUuidV7ExactReplay false sample_ids start).2
    (sample_run RequiredUuidV7ExactReplay false retry_ids
       (sample_run RequiredUuidV7ExactReplay false sample_ids start).2).2
    (sample_run RequiredUuidV7ExactReplay false retry_ids
       (sample_run RequiredUuidV7ExactReplay false sample_ids start).2).1).
  - vm_compute. reflexivity.
  - vm_compute. discriminate.
  - apply rtc_refl.
  - reflexivity.
  - vm_compute. reflexivity.
Defined.

Lemma execute_exact_replay_witness :
  ∃ sw3, sample_run RequiredUuidV7ExactReplay false retry_ids
           (sample_run RequiredUuidV7ExactReplay false sample_ids start).2
         = (Ok (outcome_of (sample_run RequiredUuidV7ExactReplay false sample_ids start).1), sw3)
    ∧ sw3.2 = (sample_run RequiredUuidV7ExactReplay false sample_ids start).2.2.
Proof.
  apply (@execute_exact_replay _ _ Sample.sample Sample.sample_laws
    (@recording_store Sample.sample 40) (@recording_replay_store Sample.sample 40)
    (sample_engine RequiredUuidV7ExactReplay false) eq_refl "object.create" "v1"
    (counting_handler "object.create" RequiredUuidV7ExactReplay false) eq_refl eq_refl
    keyed_input sample_context None true sample_ids start
    (sample_run RequiredUuidV7ExactReplay false sample_ids start).2
    (outcome_of (sample_run RequiredUuidV7ExactReplay false sample_ids start).1)
    keyed_input sample_context None true retry_ids
    (sample_run RequiredUuidV7ExactReplay false sample_ids start).2
    (sample_run RequiredUuidV7ExactReplay false sample_ids start).2 sample_create).
  - reflexivity.
  - reflexivity.
  - vm_compute. reflexivity.
  - apply rtc_refl.
  - reflexivity.
  - vm_compute. reflexivity.
  - intros c. exact (recording_claim_answers c _).
Defined.

Lemma execute_ambiguous_refused_witness :
  ∃ sw3 x, sample_run RequiredUuidV7ExactReplay true retry_ids
             (sample_run RequiredUuidV7ExactReplay true sample_ids start).2
           = (Err (ExecutionError.Idempotency x), sw3)
    ∧ sw3.2 = (sample_run RequiredUuidV7ExactReplay true sample_ids start).2.2
    ∧ (x = IdempotencyError.InProgress ∨ x = IdempotencyError.Indeterminate).
Proof.
  apply (@execute_ambiguous_refused _ _ Sample.sample Sample.sample_laws
    (@recording_store Sample.sample 40) (@recording_replay_store Sample.sample 40)
    (sample_engine RequiredUuidV7ExactReplay true) eq_refl "object.create" "v1"
    (counting_handler "object.create" RequiredUuidV7ExactReplay true) eq_refl eq_refl
    keyed_input sample_context None true sample_ids start
    (sample_run RequiredUuidV7ExactReplay true sample_ids start).2
    (sample_run RequiredUuidV7ExactReplay true sample_ids start).1
    keyed_input sample_context None true retry_ids
    (sample_run RequiredUuidV7ExactReplay true sample_ids start).2
    (sample_run RequiredUuidV7ExactReplay true sample_ids start).2 sample_create).
  - reflexivity.
  - reflexivity.
  - vm_compute. reflexivity.
  - vm_compute. discriminate.
  - vm_compute. reflexivity.
  - reflexivity.
  - reflexivity.
  - vm_compute. reflexivity.
  - intros c. exact (recording_claim_answers c _).
Defined.
