(* ===== verification/EngineTotal.v ===== *)
(** * The engine never panics, and what it does not check

    [crates/proof-kernel/src/executor/engine.rs] calls [expect] where it relies
    on an earlier check; [execute_no_panic] shows that none of these calls can
    fail.  [delegation_scope_not_narrowed] records what the validation of a
    delegation chain leaves open. *)

From S2P Require Import Prelude RustStr Externals Delegation Json Canonical.
From S2P Require Import CanonicalNumber CanonicalInjective Serialized Evidence.
From S2P Require Import OperatorCommon Registry Approval ExecutionStore Engine.
From S2P Require Import EngineProofs.
From stdpp Require Import options.

(** ** No panic

    The code calls [expect] on the delegation id, on the stored proof and on the
    storage; none of them can fail. *)

Create HintDb total discriminated.

Definition total_call {S E A} (c : call S E A) : Prop := ∀ s, (c s).1 ≠ Panic.

Lemma total_bind {S E A B} (c : call S E A) (k : A → call S E B) :
  total_call c → (∀ s a s', c s = (Ok a, s') → total_call (k a)) → total_call (cbind c k).
Proof.
  intros Hc Hk s. unfold cbind. specialize (Hc s).
  destruct (c s) as [[a| |] s'] eqn:Q; [by eapply Hk|done..].
Qed.

Lemma total_lift {S E A} (c : result E A) : c ≠ Panic → total_call (S := S) (lift c).
Proof. by intros Hc s. Qed.
Lemma total_ret {S E A} (a : A) : total_call (S := S) (E := E) (ret a).
Proof. by intros s. Qed.
Lemma total_throw {S E A} (x : E) : total_call (S := S) (A := A) (throw x).
Proof. by intros s. Qed.
Lemma total_stop {S E A} (b : bool) (x : E) (k : call S E A) :
  (b = false → total_call k) → total_call (if b then throw x else k).
Proof. destruct b; [intros _; apply total_throw|auto]. Qed.
Lemma total_attempt {S E F A} (c : call S E A) : total_call (attempt (F := F) c).
Proof. by intros s. Qed.
Lemma total_on_store {S W E F A} (f : E → F) (c : call S E A) :
  total_call c → total_call (on_store (W := W) (call_map_err f c)).
Proof.
  intros Hc s. unfold on_store, call_map_err. specialize (Hc s.1).
  by destruct (c s.1) as [[] ?].
Qed.

#[export] Hint Resolve total_bind total_lift total_ret total_throw total_stop
  total_attempt total_on_store : total.
#[export] Hint Extern 3 (_ ≠ Panic) => auto with rust : total.

Lemma canonical_value_not_Panic `{Externals} x : canonical_value x ≠ Panic.
Proof.
  assert (∀ E A (l : list (result E A)), Forall (λ c, c ≠ Panic) l → collect l ≠ Panic) as C.
  { intros E A l. induction 1; cbn [collect]; auto with rust. }
  induction x as [| |n| |l IH|m IH] using json_ind'; cbn [canonical_value]; try done.
  - unfold canonical_number. destruct n as [| |[|neg d ds ex]]; try done.
    repeat first [done | apply bail_not_Panic
      | match goal with |- context [match ?y with _ => _ end] => destruct y end].
  - apply rbind_not_Panic; [|done]. apply C. by apply Forall_map.
  - apply rbind_not_Panic; [|done]. apply C. apply Forall_map, Forall_forall.
    intros k Hk. rewrite merge_sort_Permutation in Hk.
    rewrite (obj_get_map canonical_value k m).
    assert (∃ y, obj_get k m = Some y ∧ canonical_value y ≠ Panic) as (y & -> & Hy).
    { clear -IH Hk. induction IH as [|[k' y] m Hy _ IHm]; cbn [map obj_get fst] in *;
        [by apply elem_of_nil in Hk|].
      case_decide; [eauto|]. apply elem_of_cons in Hk as [->|Hk]; [done|auto]. }
    simpl. auto with rust.
Qed.

Lemma check_links_not_Panic now i parent gs : check_links now i parent gs ≠ Panic.
Proof.
  revert i parent. induction gs as [|g gs IH]; intros i parent; simpl; [done|].
  apply rbind_not_Panic; [apply check_link_not_Panic|auto].
Qed.

Lemma validate_not_Panic chain actor now : validate chain actor now ≠ Panic.
Proof.
  unfold validate, validate_chain. destruct (grants chain) as [|g gs]; [done|].
  apply bail_not_Panic, rbind_not_Panic; [apply check_links_not_Panic|]. intros _ _.
  destruct (lookup_lt_is_Some_2 (g :: gs) (length (g :: gs) - 1)) as [x ->]; [simpl; lia|].
  simpl. auto with rust.
Qed.

Lemma canonicalize_not_Panic `{Externals} x : canonicalize x ≠ Panic.
Proof. apply canonical_value_not_Panic. Qed.
#[export] Hint Resolve validate_not_Panic canonicalize_not_Panic : rust.

Lemma payload_not_Panic `{Externals} {A} `{Serialize A} (a : A) : canonical_payload a ≠ Panic.
Proof. unfold canonical_payload, canonicalize_serialized. auto with rust. Qed.
#[export] Hint Resolve payload_not_Panic : rust.

Lemma verify_bytes_not_Panic `{Externals} k p s : verify_bytes k p s ≠ Panic.
Proof. unfold verify_bytes, verify. destruct (ed25519_verify k p s); auto with rust. Qed.
#[export] Hint Resolve verify_bytes_not_Panic : rust.

Lemma verify_for_execution_not_Panic `{Externals} g kp t op v input actor now :
  verify_for_execution g kp t op v input actor now ≠ Panic.
Proof.
  unfold verify_for_execution, verify_decision, verify_for_call, SignedApprovalRequest_verify,
    SignedApprovalDecision_verify, SignedApprovalRequest_digest, input_digest_of.
  auto 30 with rust.
Qed.

Lemma create_operation_proof_not_Panic `{Externals} {S W} (e : ExecutionEngine S W)
    op v input output ctx id :
  create_operation_proof e op v input output ctx id ≠ Panic.
Proof.
  unfold create_operation_proof, create_proof, Proof_sign, signing_payload,
    canonicalize_serialized. auto 10 with rust.
Qed.

(** A store whose methods return. *)
Record total_store {S} (st : ExecutionStore S) : Prop := {
  total_load id : total_call (load_delegation st id);
  total_save p : total_call (save_proof st p);
  total_latest o v : total_call (latest_proof_for_operation st o v);
  total_context c : total_call (save_execution_context st c);
  total_claim c : total_call (claim_execution_replay st c);
  total_complete c ctx o : total_call (complete_execution_replay st c ctx o);
  total_fail c t m : total_call (fail_execution_replay st c t m);
}.

Section no_panic.
Context {S W : Type} `{Externals} (e : ExecutionEngine S W).
Hypothesis Hstore : ∀ st, e_storage e = Some st → total_store st.
Hypothesis Hhandlers : ∀ op h v input ctx,
  e_handlers e !! op = Some h → total_call (h_execute_versioned h v input ctx).

Lemma total_ok_or {A E F} (o : option A) (x : E) :
  total_call (S := F) (lift (ok_or o x)).
Proof. apply total_lift, ok_or_not_Panic. Qed.
Hint Resolve total_ok_or : total.

Lemma enforce_delegation_total op dom ctx :
  is_Some (ctx_delegation_id ctx) → total_call (enforce_delegation e op dom ctx).
Proof using Hstore.
  intros [id Hid]. unfold enforce_delegation. rewrite Hid.
  apply total_bind; [by apply total_lift|]. intros _ ? _ [=  <- _].
  apply total_bind; [auto with total|]. intros _ chain _ _.
  apply total_bind; [apply total_lift; auto with rust|]. intros _ _ _ _.
  apply total_bind; [|auto with total].
  destruct (e_storage e) as [st|] eqn:Hst in |- *; [|auto with total].
  apply total_bind; [apply total_on_store, total_load; auto|]. intros _ loaded _ _.
  apply total_bind; [auto with total|]. intros _ d _ _.
  apply total_bind; [auto with total|]. intros sx i sy Hi. call_inv.
  match goal with E : position _ _ = Some _ |- _ =>
    apply position_Some in E as (g & -> & _) end.
  apply total_bind; [by apply total_lift|]. auto with total.
Qed.

Lemma authorize_total op v input ctx ap : total_call (authorize e op v input ctx ap).
Proof using Hstore.
  unfold authorize. apply total_bind; [auto with total|]. intros _ entry _ _.
  apply total_bind.
  { apply total_lift. unfold check_governance.
    destruct (_ && _); [|done]. destruct ap as [[g t]|]; [|done].
    apply map_err_not_Panic, verify_for_execution_not_Panic. }
  intros _ _ _ _. apply total_stop. intros _.
  apply total_bind; [|auto with total].
  destruct (ctx_delegation_id ctx) eqn:Hi; [apply enforce_delegation_total; by rewrite Hi|].
  destruct (ctx_delegation_chain ctx); [apply total_lift; auto with rust|apply total_ret].
Qed.

Lemma acquire_total h op v input ctx tok : total_call (acquire_replay e h op v input ctx tok).
Proof using Hstore.
  unfold acquire_replay. destruct (h_idempotency_policy_for h v); [apply total_ret|].
  apply total_bind.
  { apply total_lift. unfold execution_replay_claim. auto 20 with rust. }
  intros _ c _ _. apply total_bind; [auto with total|]. intros sx st sy Hst. call_inv.
  apply total_bind; [apply total_on_store, total_claim; auto|]. intros _ r _ _.
  destruct r; auto with total. apply total_bind; [|auto with total].
  apply total_lift. unfold validate_replayed_outcome. auto 20 with rust.
Qed.

Lemma fail_claim_total {A} c t x :
  (is_Some c → is_Some (e_storage e)) → total_call (fail_acquired_claim (A := A) e c t x).
Proof using Hstore.
  intros Hc. unfold fail_acquired_claim. destruct c as [c|]; [|apply total_throw].
  destruct Hc as [st Hst]; [by eexists|]. rewrite Hst.
  apply total_bind; [by apply total_lift|]. intros sx st' sy Hst'. call_inv.
  intros s. unfold cbind, attempt, on_store.
  pose proof (total_fail _ (Hstore _ Hst) c t (ExecutionError.to_string x) s.1) as F.
  by destruct (fail_execution_replay _ _ _ _ _) as [[] ?].
Qed.

Lemma check_benchmark_total entry op v ctx c :
  (is_Some c → is_Some (e_storage e)) → total_call (check_benchmark e entry op v ctx c).
Proof using Hstore.
  intros Hc. unfold check_benchmark. destruct (re_benchmark entry) as [b|]; [|apply total_ret].
  destruct (e_storage e) as [st|] eqn:Hst in |- *; [|apply total_ret].
  intros s. unfold cbind, attempt, on_store.
  pose proof (total_latest _ (Hstore _ Hst) op v s.1) as L.
  destruct (latest_proof_for_operation st op v s.1) as [[[p|]|x|] s1]; cbn [fst snd] in *;
    try done; [destruct (is_expired p _); [|done]|]; by apply fail_claim_total.
Qed.

Lemma run_handler_total h op v input ctx c ev id :
  e_handlers e !! op = Some h → (is_Some c → is_Some (e_storage e)) →
  total_call (run_handler e h op v input ctx c ev id).
Proof using Hstore Hhandlers.
  intros Hh Hc s. unfold run_handler, cbind, attempt, on_world.
  pose proof (Hhandlers op h v input ctx Hh s.2) as R.
  destruct (h_execute_versioned h v input ctx s.2) as [[out|x|] w1]; cbn [fst snd] in *;
    [|by apply fail_claim_total|done].
  destruct (_ || _ || _); [|done].
  pose proof (create_operation_proof_not_Panic e op v input out ctx id) as P.
  destruct (create_operation_proof _ _ _ _ _ _ _); [done| |done]. by apply fail_claim_total.
Qed.

Lemma persist_total ctx c o :
  (is_Some c → is_Some (e_storage e)) → (is_Some (e_storage e) → is_Some (io_proof o)) →
  total_call (persist e ctx c o).
Proof using Hstore.
  intros Hc Hp. unfold persist. destruct c as [c|].
  - destruct Hc as [st Hst]; [by eexists|]. rewrite Hst in *.
    destruct Hp as [p ->]; [by eexists|].
    apply total_bind; [by apply total_lift|]. intros s1 p' s2 E1. call_inv.
    apply total_bind; [by apply total_lift|]. intros s3 st' s4 E2. call_inv.
    apply total_on_store, total_complete, Hstore. done.
  - destruct (e_storage e) as [st|] eqn:Hst in |- *; [|apply total_ret].
    destruct Hp as [p ->]; [by eexists|].
    apply total_bind; [apply total_on_store, total_context; auto|]. intros _ _ _ _.
    apply total_bind; [by apply total_lift|]. intros s1 p' s2 E1. call_inv.
    apply total_on_store, total_save; auto.
Qed.

Lemma execute_inner_total op v input ctx ap ev ids :
  total_call (execute_inner e op v input ctx ap ev ids).
Proof using Hstore Hhandlers.
  unfold execute_inner. apply total_bind; [apply authorize_total|]. intros _ entry _ _.
  apply total_bind; [auto with total|]. intros s1 h s2 Hh. call_inv.
  apply total_bind; [apply acquire_total|]. intros s3 acq s4 Hq.
  assert (∀ c, acq = inr c → is_Some c → is_Some (e_storage e)) as Hc.
  { intros c ->. apply acquire_replay_Ok in Hq as
      [[_ [= ->]]|(_ & claim & st & _ & Hst & _)]; [by intros []|by rewrite Hst]. }
  destruct acq as [out|c]; [apply total_ret|]. specialize (Hc c eq_refl).
  apply total_bind; [by apply check_benchmark_total|]. intros _ _ _ _.
  apply total_bind; [by apply run_handler_total|]. intros s5 o s6 Ho.
  apply total_bind; [|auto with total]. apply persist_total; [done|].
  apply run_handler_Ok in Ho as [(_ & _ & -> & _)|(p & -> & _)]; [by intros []|by eexists].
Qed.

Lemma evidenced_total op v input ctx ap ids :
  total_call (let! o := execute_operation e op v input ctx ap true ids in evidenced o).
Proof using Hstore Hhandlers.
  unfold execute_operation. apply total_bind; [apply execute_inner_total|]. intros s o s' Ho.
  assert (is_Some (io_proof o)) as [p Hp].
  { unfold execute_inner in Ho. call_inv.
    match goal with E : (match ?a with _ => _ end) _ = _ |- _ => destruct a as [out|c] end;
      call_inv; [by eexists|].
    match goal with E : run_handler _ _ _ _ _ _ _ _ _ _ = _ |- _ =>
      apply run_handler_Ok in E as [(_ & [=] & _)|(p & -> & _)] end. by eexists. }
  unfold evidenced. rewrite Hp. apply total_bind; [by apply total_lift|]. auto with total.
Qed.

(** No panic.  When the methods of the store and the handlers return, every
    execution returns a result or an error: the [expect]s of the engine are never
    reached with an absent value, and evidenced execution always has a proof. *)
Theorem execute_no_panic op v input ctx ap ev ids (sw : S * W) :
  (execute_inner e op v input ctx ap ev ids sw).1 ≠ Panic
  ∧ (execute_evidenced e op v input ctx ids sw).1 ≠ Panic.
Proof using Hstore Hhandlers.
  split; [apply execute_inner_total|]. apply evidenced_total.
Qed.

End no_panic.

Lemma recording_store_total `{Externals} now_v7 : total_store (recording_store now_v7).
Proof.
  split; intros; intros s; try done.
  - unfold claim_execution_replay. simpl. unfold recording_claim.
    destruct (_ !! _); [destruct (negb _)|]; done.
  - simpl. unfold recording_complete, cbind, lift.
    assert (validate_replay_completion c ctx o ≠ Panic) as V
      by (unfold validate_replay_completion; auto 20 with rust).
    destruct (validate_replay_completion c ctx o); [|done..].
    assert (acquired_replay c s ≠ Panic) as A by (unfold acquired_replay; auto 10 with rust).
    destruct (acquired_replay c s) as [rp| |]; [|done..].
    destruct (rr_state rp); try done. by destruct (_ && _).
  - simpl. unfold recording_fail. destruct (str_is_empty m); [done|].
    assert (acquired_replay c s ≠ Panic) as A by (unfold acquired_replay; auto 10 with rust).
    destruct (acquired_replay c s) as [rp| |]; [|done..].
    destruct (rr_state rp); try done. by destruct (_ && _).
Qed.

Lemma execute_no_panic_witness :
  (sample_run RequiredUuidV7ExactReplay true sample_ids start).1 ≠ Panic.
Proof.
  apply (@execute_no_panic _ _ Sample.sample (sample_engine RequiredUuidV7ExactReplay true)).
  - intros st [= <-]. apply recording_store_total.
  - intros op h v input ctx Hh.
    change (<["object.create" := counting_handler "object.create"
      RequiredUuidV7ExactReplay true]> (∅ : gmap string (OperationHandler N)) !! op
      = Some h) in Hh.
    apply lookup_insert_Some in Hh as [[_ <-]|[_ Hh]]; [|by rewrite lookup_empty in Hh].
    intros w. discriminate.
Defined.

(** ** What chain validation leaves open *)

(** The parent grant covers [object.read] only; the child grant has no operation
    scope at all, and allows the action [content:read] only. *)
Definition reader_grant : Delegation :=
  {| delegation_id := 61; issuer := 1; recipient := 2; allowed_actions := ["content:*"];
     resource_scope := ["*"];
     scope := {| allowed_operations := Some ["object.read"]; allowed_domains := None;
                 scope_resource_scope := None |};
     valid_from := 0; valid_until := 9000; revoked := false |}.

Definition widened_grant : Delegation :=
  {| delegation_id := 62; issuer := 2; recipient := 7; allowed_actions := ["content:read"];
     resource_scope := ["*"]; scope := default_scope;
     valid_from := 0; valid_until := 9000; revoked := false |}.

Definition widened_context : ExecutionContext :=
  {| ctx_actor := 7; ctx_principal_kind := Some Agent; ctx_delegation_id := Some 62%N;
     ctx_delegation_chain :=
       Some {| chain_root := 1; grants := [reader_grant; widened_grant] |};
     ctx_workspace_path := "/tmp"; ctx_timestamp := 2000 |}.

Definition widened_store : RecordingStore :=
  {| rs_proofs := []; rs_contexts := []; rs_delegations := [reader_grant; widened_grant];
     rs_replays := ∅ |}.

(** A child grant can widen the operation scope.  The operation scope of
    the parent grant excludes [object.create], and the allowed actions of the child
    grant do not cover the action of that operation, yet the engine dispatches it for
    the holder of the child grant: operation scopes are not compared along the chain,
    and the registry action is not compared with [allowed_actions]. *)
Theorem delegation_scope_not_narrowed :
  find sample_registry "object.create" "v1" = Some sample_create
  ∧ scope_allows_operation (scope reader_grant) "object.create" "content" = false
  ∧ allows_action widened_grant (re_action sample_create) = false
  ∧ (let run := @execute_inner _ _ Sample.sample (sample_engine NoReplay false)
       "object.create" "v1" keyed_input widened_context None true sample_ids
       (widened_store, 0%N) in
     is_ok run.1 = true ∧ run.2.2 = 1%N).
Proof. vm_compute. auto. Qed.
