(* ===== verification/AgentModel.v ===== *)
(** * Model turns and the state of the agent runtime

    The model of [crates/proof-agent-runtime/src/model.rs] (what a model provider is
    asked and answers) and of the records at the top of [runtime.rs]: the pending tool
    call, the state that a checkpoint holds, and the data of the events of a run.  Each
    record has the reader that [serde] derives for it.

    [AgentRuntimeState_roundtrip] says that a checkpoint gives back the state it was made
    from. *)

From S2P Require Import Prelude RustStr Externals Json Canonical Serialized.
From S2P Require Import Evidence OperatorCommon StrictDigest Approval Agent AgentRun.
From stdpp Require Import options.

(** ** Derived readers *)

(** [u32::deserialize] *)
Definition u32_of_value (v : json) : option N :=
  n ← u64_of_value v; if (n <=? u32_max)%N then Some n else None.

Fixpoint index_of (k : string) (names : list string) : option nat :=
  match names with
  | [] => None
  | name :: names' => if decide (k = name) then Some 0 else S <$> index_of k names'
  end.

(** The fields of a struct: by name in an object, by position in an array, where only
    fields with a default, the last ones, can be left out. *)
Definition struct_fields (names : list string) (required : nat) (v : json)
    : option (string → option json) :=
  match v with
  | JObject m => Some (λ k, obj_get k m)
  | JArray l =>
      if (required <=? length l) && (length l <=? length names)
      then Some (λ k, index_of k names ≫= (l !!.)) else None
  | _ => None
  end.

(** [deny_unknown_fields] *)
Definition strict_struct_fields (names : list string) (required : nat) (v : json)
    : option (string → option json) :=
  match v with
  | JObject m =>
      if forallb (λ kv, bool_decide (kv.1 ∈ names)) m then struct_fields names required v
      else None
  | _ => struct_fields names required v
  end.

(** A variant of an enum with [tag = "type"], and what follows the tag. *)
Definition tagged (v : json) : option (string * json) :=
  match v with
  | JObject m => tag ← obj_get "type" m ≫= as_str; Some (tag, JObject (obj_remove "type" m))
  | JArray (tag :: rest) => tag ← as_str tag; Some (tag, JArray rest)
  | _ => None
  end.

(** A unit variant: its name, or an object with its name alone. *)
Definition unit_variant (v : json) : option string :=
  match v with
  | JString s => Some s
  | JObject [(k, JNull)] => Some k
  | _ => None
  end.

Definition nat_value (n : N) : json := JNumber (PosInt n).
Definition opt_value {A} (w : A → json) (o : option A) : json :=
  match o with Some a => w a | None => JNull end.

(** ** Model turns *)

Record AgentFunctionTool := {
  ft_name : string;
  ft_description : string;
  ft_parameters : json;
  ft_operation : string;
  ft_version : string;
}.

Inductive ModelInput : Type :=
| Goal (text : string)
| ToolOutput (call_id : string) (output : json).

Record ModelTurnRequest := {
  mr_model : string;
  mr_instructions : string;
  mr_input : ModelInput;
  mr_previous_response_id : option string;
  mr_tools : list AgentFunctionTool;
  mr_max_output_tokens : N;
}.

Record ModelUsage := {
  us_input_tokens : N;
  us_output_tokens : N;
  us_total_tokens : N;
  us_cost_microusd : option N;
}.

Inductive ModelDecision : Type :=
| ToolCall (call_id name : string) (arguments : json)
| Finish (output : string).

Record ModelTurn := {
  mt_response_id : string;
  mt_returned_model : option string;
  mt_response_body_digest : option ContentDigest;
  mt_decision : ModelDecision;
  mt_usage : ModelUsage;
}.

Module ModelGatewayError.
Inductive t : Type :=
| Request (s : string)
| InvalidResponse (s : string)
| CertifiedNoBytes (s : string)
| Explicit429 (s : string)
| Terminal (s : string)
| Ambiguous (s : string).

Definition to_string (e : t) : string :=
  match e with
  | Request s => "model provider rejected the request: " +:+ s
  | InvalidResponse s => "model provider returned an invalid response: " +:+ s
  | CertifiedNoBytes s => "model provider failed before request bytes were sent: " +:+ s
  | Explicit429 s => "model provider explicitly rejected the request as retryable: " +:+ s
  | Terminal s => "model provider rejected the request terminally: " +:+ s
  | Ambiguous s => "model provider outcome is ambiguous: " +:+ s
  end.
End ModelGatewayError.

#[export] Instance AgentFunctionTool_eq_dec : EqDecision AgentFunctionTool.
Proof. solve_decision. Defined.
#[export] Instance ModelInput_eq_dec : EqDecision ModelInput.
Proof. solve_decision. Defined.
#[export] Instance ModelTurnRequest_eq_dec : EqDecision ModelTurnRequest.
Proof. solve_decision. Defined.
#[export] Instance ModelUsage_eq_dec : EqDecision ModelUsage.
Proof. solve_decision. Defined.
#[export] Instance ModelDecision_eq_dec : EqDecision ModelDecision.
Proof. solve_decision. Defined.

(** ** The state of a run *)

Record PendingToolCall := {
  pt_call_id : string;
  pt_tool_name : string;
  pt_operation : string;
  pt_version : string;
  pt_arguments : json;
  pt_step_id : Uuid;
  pt_approval_request_id : option Uuid;
}.

Record AgentRuntimeState := {
  rs_agent_id : Uuid;
  rs_started_at : DateTime;
  rs_previous_response_id : option string;
  rs_next_input : ModelInput;
  rs_pending_tool : option PendingToolCall;
  rs_model_calls : N;
  rs_tool_attempts : N;
  rs_input_tokens : N;
  rs_output_tokens : N;
  rs_total_tokens : N;
  rs_cost_microusd : option N;
  rs_final_output : option string;
  rs_terminal_error : option string;
}.

#[export] Instance PendingToolCall_eq_dec : EqDecision PendingToolCall.
Proof. solve_decision. Defined.
#[export] Instance AgentRuntimeState_eq_dec : EqDecision AgentRuntimeState.
Proof. solve_decision. Defined.

(** ** The data of events *)

Record GenericModelRequestedEvent := {
  gq_model : string;
  gq_model_call : N;
  gq_previous_response_id : option string;
}.

Record GenericModelRespondedEvent := {
  gr_response_id : string;
  gr_decision : ModelDecision;
  gr_usage : ModelUsage;
}.

Record GenericToolRequestedEvent := {
  gt_step_id : Uuid;
  gt_call_id : string;
  gt_tool : string;
  gt_operation : string;
  gt_version : string;
  gt_arguments : json;
}.

Record GenericToolSucceededEvent := {
  gs_step_id : Uuid;
  gs_call_id : string;
  gs_operation : string;
  gs_version : string;
  gs_proof_id : Uuid;
}.

Record GenericToolFailedEvent := {
  gf_step_id : Uuid;
  gf_call_id : string;
  gf_error : string;
}.

Record GenericApprovalRequiredEvent := {
  ga_step_id : Uuid;
  ga_request_id : Uuid;
  ga_operation : string;
  ga_version : string;
  ga_expires_at : DateTime;
}.

Record GenericApprovalResumedEvent := {
  gd_step_id : Uuid;
  gd_request_id : Uuid;
  gd_decided_by : PrincipalId;
  gd_outcome : ApprovalOutcome;
}.

Record GenericToolRequestEvidence := {
  te_sequence : N;
  te_data : GenericToolRequestedEvent;
}.

(** The name of an event kind, as [serde] writes it. *)
Definition EventKind_wire (k : EventKind.t) : string :=
  match k with
  | EventKind.Started => "started"
  | EventKind.ModelRequested => "model_requested"
  | EventKind.ModelResponded => "model_responded"
  | EventKind.ToolRequested => "tool_requested"
  | EventKind.ToolSucceeded => "tool_succeeded"
  | EventKind.ToolFailed => "tool_failed"
  | EventKind.ApprovalRequired => "approval_required"
  | EventKind.ApprovalResumed => "approval_resumed"
  | EventKind.Completed => "completed"
  | EventKind.Failed => "failed"
  | EventKind.BudgetExceeded => "budget_exceeded"
  end.

Definition event_kinds : list EventKind.t :=
  [EventKind.Started; EventKind.ModelRequested; EventKind.ModelResponded;
   EventKind.ToolRequested; EventKind.ToolSucceeded; EventKind.ToolFailed;
   EventKind.ApprovalRequired; EventKind.ApprovalResumed; EventKind.Completed;
   EventKind.Failed; EventKind.BudgetExceeded].

Definition EventKind_of_value (v : json) : option EventKind.t :=
  name ← unit_variant v;
  List.find (λ k, bool_decide (EventKind_wire k = name)) event_kinds.

Definition EventKind_debug (k : EventKind.t) : string :=
  match k with
  | EventKind.Started => "Started"
  | EventKind.ModelRequested => "ModelRequested"
  | EventKind.ModelResponded => "ModelResponded"
  | EventKind.ToolRequested => "ToolRequested"
  | EventKind.ToolSucceeded => "ToolSucceeded"
  | EventKind.ToolFailed => "ToolFailed"
  | EventKind.ApprovalRequired => "ApprovalRequired"
  | EventKind.ApprovalResumed => "ApprovalResumed"
  | EventKind.Completed => "Completed"
  | EventKind.Failed => "Failed"
  | EventKind.BudgetExceeded => "BudgetExceeded"
  end.

(** ** Wire forms *)

Section wire.
Context `{Externals}.

Definition ModelInput_value (i : ModelInput) : json :=
  match i with
  | Goal text => json_object [("type", JString "goal"); ("text", JString text)]
  | ToolOutput call_id output =>
      json_object [("type", JString "tool_output"); ("call_id", JString call_id);
                   ("output", output)]
  end.

Definition ModelInput_of_value (v : json) : option ModelInput :=
  '(tag, rest) ← tagged v;
  if bool_decide (tag = "goal") then
    f ← struct_fields ["text"] 1 rest;
    text ← f "text" ≫= as_str;
    Some (Goal text)
  else if bool_decide (tag = "tool_output") then
    f ← struct_fields ["call_id"; "output"] 2 rest;
    call_id ← f "call_id" ≫= as_str;
    output ← f "output";
    Some (ToolOutput call_id output)
  else None.

Definition ModelDecision_value (d : ModelDecision) : json :=
  match d with
  | ToolCall call_id name arguments =>
      json_object [("type", JString "tool_call"); ("call_id", JString call_id);
                   ("name", JString name); ("arguments", arguments)]
  | Finish output => json_object [("type", JString "finish"); ("output", JString output)]
  end.

Definition ModelDecision_of_value (v : json) : option ModelDecision :=
  '(tag, rest) ← tagged v;
  if bool_decide (tag = "tool_call") then
    f ← struct_fields ["call_id"; "name"; "arguments"] 3 rest;
    call_id ← f "call_id" ≫= as_str;
    name ← f "name" ≫= as_str;
    arguments ← f "arguments";
    Some (ToolCall call_id name arguments)
  else if bool_decide (tag = "finish") then
    f ← struct_fields ["output"] 1 rest;
    output ← f "output" ≫= as_str;
    Some (Finish output)
  else None.

Definition ModelUsage_value (u : ModelUsage) : json :=
  json_object
    ([("input_tokens", nat_value (us_input_tokens u));
      ("output_tokens", nat_value (us_output_tokens u));
      ("total_tokens", nat_value (us_total_tokens u))]
     ++ opt_field "cost_microusd" (nat_value <$> us_cost_microusd u)).

Definition ModelUsage_of_value (v : json) : option ModelUsage :=
  f ← struct_fields ["input_tokens"; "output_tokens"; "total_tokens"; "cost_microusd"] 3 v;
  input ← f "input_tokens" ≫= u64_of_value;
  output ← f "output_tokens" ≫= u64_of_value;
  total ← f "total_tokens" ≫= u64_of_value;
  cost ← opt_of_value u64_of_value (f "cost_microusd");
  Some {| us_input_tokens := input; us_output_tokens := output; us_total_tokens := total;
          us_cost_microusd := cost |}.

Definition PendingToolCall_value (p : PendingToolCall) : json :=
  json_object
    ([("call_id", JString (pt_call_id p)); ("tool_name", JString (pt_tool_name p));
      ("operation", JString (pt_operation p)); ("version", JString (pt_version p));
      ("arguments", pt_arguments p); ("step_id", uuid_value (pt_step_id p))]
     ++ opt_field "approval_request_id" (uuid_value <$> pt_approval_request_id p)).

Definition PendingToolCall_of_value (v : json) : option PendingToolCall :=
  f ← struct_fields ["call_id"; "tool_name"; "operation"; "version"; "arguments"; "step_id";
                     "approval_request_id"] 6 v;
  call_id ← f "call_id" ≫= as_str;
  tool_name ← f "tool_name" ≫= as_str;
  operation ← f "operation" ≫= as_str;
  version ← f "version" ≫= as_str;
  arguments ← f "arguments";
  step_id ← f "step_id" ≫= uuid_of_value;
  approval_request_id ← opt_of_value uuid_of_value (f "approval_request_id");
  Some {| pt_call_id := call_id; pt_tool_name := tool_name; pt_operation := operation;
          pt_version := version; pt_arguments := arguments; pt_step_id := step_id;
          pt_approval_request_id := approval_request_id |}.

Definition AgentRuntimeState_value (s : AgentRuntimeState) : json :=
  json_object
    ([("agent_id", uuid_value (rs_agent_id s)); ("started_at", utc_value (rs_started_at s))]
     ++ opt_field "previous_response_id" (JString <$> rs_previous_response_id s)
     ++ [("next_input", ModelInput_value (rs_next_input s))]
     ++ opt_field "pending_tool" (PendingToolCall_value <$> rs_pending_tool s)
     ++ [("model_calls", nat_value (rs_model_calls s));
         ("tool_attempts", nat_value (rs_tool_attempts s));
         ("input_tokens", nat_value (rs_input_tokens s));
         ("output_tokens", nat_value (rs_output_tokens s));
         ("total_tokens", nat_value (rs_total_tokens s))]
     ++ opt_field "cost_microusd" (nat_value <$> rs_cost_microusd s)
     ++ opt_field "final_output" (JString <$> rs_final_output s)
     ++ opt_field "terminal_error" (JString <$> rs_terminal_error s)).

Definition AgentRuntimeState_of_value (v : json) : option AgentRuntimeState :=
  f ← struct_fields ["agent_id"; "started_at"; "previous_response_id"; "next_input";
                     "pending_tool"; "model_calls"; "tool_attempts"; "input_tokens";
                     "output_tokens"; "total_tokens"; "cost_microusd"; "final_output";
                     "terminal_error"] 10 v;
  agent_id ← f "agent_id" ≫= uuid_of_value;
  started_at ← f "started_at" ≫= utc_of_value;
  previous_response_id ← opt_of_value as_str (f "previous_response_id");
  next_input ← f "next_input" ≫= ModelInput_of_value;
  pending_tool ← opt_of_value PendingToolCall_of_value (f "pending_tool");
  model_calls ← f "model_calls" ≫= u32_of_value;
  tool_attempts ← f "tool_attempts" ≫= u32_of_value;
  input_tokens ← f "input_tokens" ≫= u64_of_value;
  output_tokens ← f "output_tokens" ≫= u64_of_value;
  total_tokens ← f "total_tokens" ≫= u64_of_value;
  cost_microusd ← opt_of_value u64_of_value (f "cost_microusd");
  final_output ← opt_of_value as_str (f "final_output");
  terminal_error ← opt_of_value as_str (f "terminal_error");
  Some {| rs_agent_id := agent_id; rs_started_at := started_at;
          rs_previous_response_id := previous_response_id; rs_next_input := next_input;
          rs_pending_tool := pending_tool; rs_model_calls := model_calls;
          rs_tool_attempts := tool_attempts; rs_input_tokens := input_tokens;
          rs_output_tokens := output_tokens; rs_total_tokens := total_tokens;
          rs_cost_microusd := cost_microusd; rs_final_output := final_output;
          rs_terminal_error := terminal_error |}.

Definition GenericModelRequestedEvent_of_value (v : json)
    : option GenericModelRequestedEvent :=
  f ← strict_struct_fields ["model"; "model_call"; "previous_response_id"] 3 v;
  model ← f "model" ≫= as_str;
  model_call ← f "model_call" ≫= u32_of_value;
  previous ← opt_of_value as_str (f "previous_response_id");
  Some {| gq_model := model; gq_model_call := model_call; gq_previous_response_id := previous |}.

Definition GenericModelRespondedEvent_of_value (v : json)
    : option GenericModelRespondedEvent :=
  f ← strict_struct_fields ["response_id"; "decision"; "usage"] 3 v;
  response_id ← f "response_id" ≫= as_str;
  decision ← f "decision" ≫= ModelDecision_of_value;
  usage ← f "usage" ≫= ModelUsage_of_value;
  Some {| gr_response_id := response_id; gr_decision := decision; gr_usage := usage |}.

Definition GenericToolRequestedEvent_of_value (v : json)
    : option GenericToolRequestedEvent :=
  f ← strict_struct_fields ["step_id"; "call_id"; "tool"; "operation"; "version"; "arguments"] 6 v;
  step_id ← f "step_id" ≫= uuid_of_value;
  call_id ← f "call_id" ≫= as_str;
  tool ← f "tool" ≫= as_str;
  operation ← f "operation" ≫= as_str;
  version ← f "version" ≫= as_str;
  arguments ← f "arguments";
  Some {| gt_step_id := step_id; gt_call_id := call_id; gt_tool := tool;
          gt_operation := operation; gt_version := version; gt_arguments := arguments |}.

Definition GenericToolSucceededEvent_of_value (v : json)
    : option GenericToolSucceededEvent :=
  f ← strict_struct_fields ["step_id"; "call_id"; "operation"; "version"; "proof_id"] 5 v;
  step_id ← f "step_id" ≫= uuid_of_value;
  call_id ← f "call_id" ≫= as_str;
  operation ← f "operation" ≫= as_str;
  version ← f "version" ≫= as_str;
  proof_id ← f "proof_id" ≫= uuid_of_value;
  Some {| gs_step_id := step_id; gs_call_id := call_id; gs_operation := operation;
          gs_version := version; gs_proof_id := proof_id |}.

Definition GenericToolFailedEvent_of_value (v : json) : option GenericToolFailedEvent :=
  f ← strict_struct_fields ["step_id"; "call_id"; "error"] 3 v;
  step_id ← f "step_id" ≫= uuid_of_value;
  call_id ← f "call_id" ≫= as_str;
  error ← f "error" ≫= as_str;
  Some {| gf_step_id := step_id; gf_call_id := call_id; gf_error := error |}.

Definition GenericApprovalRequiredEvent_of_value (v : json)
    : option GenericApprovalRequiredEvent :=
  f ← strict_struct_fields ["step_id"; "request_id"; "operation"; "version"; "expires_at"] 5 v;
  step_id ← f "step_id" ≫= uuid_of_value;
  request_id ← f "request_id" ≫= uuid_of_value;
  operation ← f "operation" ≫= as_str;
  version ← f "version" ≫= as_str;
  expires_at ← f "expires_at" ≫= utc_of_value;
  Some {| ga_step_id := step_id; ga_request_id := request_id; ga_operation := operation;
          ga_version := version; ga_expires_at := expires_at |}.

Definition outcome_of_value (v : json) : option ApprovalOutcome :=
  name ← unit_variant v;
  if bool_decide (name = "approved") then Some Approved
  else if bool_decide (name = "denied") then Some Denied
  else None.

Definition GenericApprovalResumedEvent_of_value (v : json)
    : option GenericApprovalResumedEvent :=
  f ← strict_struct_fields ["step_id"; "request_id"; "decided_by"; "outcome"] 4 v;
  step_id ← f "step_id" ≫= uuid_of_value;
  request_id ← f "request_id" ≫= uuid_of_value;
  decided_by ← f "decided_by" ≫= uuid_of_value;
  outcome ← f "outcome" ≫= outcome_of_value;
  Some {| gd_step_id := step_id; gd_request_id := request_id; gd_decided_by := decided_by;
          gd_outcome := outcome |}.

End wire.

(** ** Reading back *)

Lemma struct_object names n fields :
  ∃ f, struct_fields names n (json_object fields) = Some f
       ∧ ∀ k, f k = field_get k fields.
Proof.
  unfold json_object. cbn [struct_fields]. eexists. split; [reflexivity|]. intros k. cbv beta.
  rewrite obj_get_fold. by destruct (field_get k fields).
Qed.

Lemma tagged_object tag fields :
  field_get "type" fields = Some (JString tag) →
  ∃ rest, tagged (json_object fields) = Some (tag, rest)
    ∧ ∀ names n, ∃ f, struct_fields names n rest = Some f
                      ∧ ∀ k, k ≠ "type" → f k = field_get k fields.
Proof.
  intros T. unfold json_object. cbn [tagged]. rewrite obj_get_fold, T. simpl.
  eexists. split; [reflexivity|]. intros names n. cbn [struct_fields].
  eexists. split; [reflexivity|]. intros k N. cbv beta.
  rewrite obj_get_remove, obj_get_fold by done. by destruct (field_get k fields).
Qed.

(** Reads a record that was written field by field. *)
Ltac read_struct :=
  match goal with
  | |- context [struct_fields ?names ?n (json_object ?fields)] =>
      let f := fresh "f" in let E := fresh "E" in let G := fresh "G" in
      destruct (struct_object names n fields) as (f & E & G); rewrite E; clear E;
      cbn [mbind option_bind]; rewrite !G; clear G f; field_simpl; cbn [mbind option_bind]
  end.

Lemma ModelInput_roundtrip i : ModelInput_of_value (ModelInput_value i) = Some i.
Proof.
  unfold ModelInput_of_value, ModelInput_value.
  destruct i as [text|call_id output].
  - destruct (tagged_object "goal" [("type", JString "goal"); ("text", JString text)] eq_refl)
      as (rest & -> & R). cbn [mbind option_bind]. rewrite bool_decide_true by done.
    destruct (R ["text"] 1) as (f & -> & G). cbn [mbind option_bind]. by rewrite G.
  - destruct (tagged_object "tool_output"
      [("type", JString "tool_output"); ("call_id", JString call_id); ("output", output)]
      eq_refl) as (rest & -> & R).
    cbn [mbind option_bind]. rewrite bool_decide_false, bool_decide_true by done.
    destruct (R ["call_id"; "output"] 2) as (f & -> & G). cbn [mbind option_bind].
    by rewrite !G.
Qed.

Section roundtrip.
Context `{HL : ExternalsLaws}.

Lemma PendingToolCall_roundtrip p :
  PendingToolCall_of_value (PendingToolCall_value p) = Some p.
Proof using HL.
  unfold PendingToolCall_of_value, PendingToolCall_value. read_struct.
  rewrite uuid_read. cbn [mbind option_bind as_str].
  rewrite opt_read; [by destruct p|apply uuid_read|done].
Qed.

(** A checkpoint gives back the state of the run it was made from: writing a state with
    counters of 32 bits and reading the value is the identity. *)
Theorem AgentRuntimeState_roundtrip (s : AgentRuntimeState)
    (M : (rs_model_calls s ≤ u32_max)%N) (T : (rs_tool_attempts s ≤ u32_max)%N) :
  AgentRuntimeState_of_value (AgentRuntimeState_value s) = Some s.
Proof using HL.
  unfold AgentRuntimeState_of_value, AgentRuntimeState_value. read_struct.
  rewrite uuid_read, utc_read, ModelInput_roundtrip.
  rewrite !(opt_read JString as_str), !(opt_read nat_value u64_of_value) by done.
  rewrite (opt_read PendingToolCall_value) by (done || apply PendingToolCall_roundtrip).
  cbn [mbind option_bind u32_of_value u64_of_value nat_value].
  rewrite !(proj2 (N.leb_le _ _)) by done. cbn [mbind option_bind].
  by destruct s.
Qed.

End roundtrip.
