(* ===== verification/AgentRuntime.v ===== *)
(** * The agent runtime

    The model of the generic path of [crates/proof-agent-runtime/src/runtime.rs]:
    [start] and [resume], which drive an agent run through model turns and tool calls.
    The runtime keeps the run, its steps, checkpoints and evaluations in a run store, its
    events in an agent store, and approvals in an approval store; it asks a model gateway
    for the next decision and executes tools with the execution engine ([Engine]).

    The stores, the gateway, the clock and the source of identifiers are records of
    operations on one state [R]; the engine acts on its own state [S * W].  The state of
    a call, [World], also has a log of what was asked of the gateway and of the engine,
    which the code never reads: the theorems are stated with it.  A method on [&mut]
    records returns the new records; what it changed before an error is lost to its
    caller, which returns the error too. *)

From S2P Require Import Prelude RustStr Externals Delegation Json Canonical Serialized.
From S2P Require Import Evidence OperatorCommon StrictDigest Registry Approval.
From S2P Require Import ExecutionStore Engine Agent AgentRun AgentModel.
From stdpp Require Import options.

Definition RUNTIME_CHECKPOINT_KIND : string := "agent_runtime_v1".
Definition RUNTIME_EVALUATOR : string := "proof-agent-runtime/v1".

(** ** What is taken from third-party crates *)

Class RuntimeExternals : Type := {
  (** [serde_json::from_str::<Value>]: a value, or the text of the error *)
  json_from_str : string → string + json;
  (** [jsonschema::Validator::new] and [iter_errors]: the texts of the errors *)
  validator_new : json → string + (json → list string);
  (** [chrono]: [Duration::seconds] in nanoseconds, which panics outside of its range,
      [checked_add_signed] and [DateTime::<Utc>::MAX_UTC] *)
  duration_seconds : Z → option Z;
  checked_add_signed : DateTime → Z → option DateTime;
  max_utc : DateTime;
}.

Definition i64_max : Z := 9223372036854775807.

(** The documented range of [chrono::Duration]: [i64::MAX] milliseconds. *)
Class RuntimeExternalsLaws `{RuntimeExternals} : Prop := {
  duration_seconds_range n :
    (0 ≤ n)%Z →
    duration_seconds n
    = if (n <=? i64_max / 1000)%Z then Some (Duration_seconds n) else None;
}.

(** ** Text *)

(** [str::trim_start] *)
Fixpoint trim_start (s : string) : string :=
  match s with
  | EmptyString => EmptyString
  | String a s1 =>
      if ascii_white a then trim_start s1
      else match s1 with
           | String b s2 =>
               if white2 a b then trim_start s2
               else match s2 with
                    | String c s3 => if white3 a b c then trim_start s3 else s
                    | EmptyString => s
                    end
           | EmptyString => s
           end
  end.

(** [str::contains] *)
Fixpoint str_contains (p s : string) : bool :=
  starts_with p s || match s with EmptyString => false | String _ s' => str_contains p s' end.

(** [str::replace] of a character by a character *)
Fixpoint replace_char (c d : ascii) (s : string) : string :=
  match s with
  | EmptyString => EmptyString
  | String a s' => String (if decide (a = c) then d else a) (replace_char c d s')
  end.

Definition ascii_lower (c : ascii) : ascii :=
  if is_ascii_uppercase c then ascii_of_N (N_of_ascii c + 32) else c.

Fixpoint eq_ignore_ascii_case (a b : string) : bool :=
  match a, b with
  | EmptyString, EmptyString => true
  | String c a', String d b' =>
      bool_decide (ascii_lower c = ascii_lower d) && eq_ignore_ascii_case a' b'
  | _, _ => false
  end.

(** [Path::join] *)
Definition path_join (base path : string) : string :=
  if starts_with "/" path then path
  else if str_is_empty base || ends_with "/" base then base +:+ path
  else base +:+ "/" +:+ path.

(** ** Outcomes and errors *)

Inductive AgentRuntimeOutcome : Type :=
| AlreadyStarted (run : AgentRun)
| Completed (run : AgentRun) (output : string) (evaluation : AgentRunEvaluation)
| WaitingForApproval (run : AgentRun) (step : AgentRunStep) (request : SignedApprovalRequest)
| Failed (run : AgentRun) (error : string) (evaluation : AgentRunEvaluation).

Module AgentRuntimeError.
Inductive t : Type :=
| IdentityMustBeAgent
| AgentNotFound (id : Uuid)
| RunNotFound (id : Uuid)
| RunMissingAgent (id : Uuid)
| ActorMismatch (run_id : Uuid) (actual expected : string)
| ProviderMismatch (configured runtime : string)
| ToolNotRegistered (operation version : string)
| DuplicateToolName (name : string)
| MissingCheckpoint (id : Uuid)
| InvalidCheckpoint (id : Uuid)
| RunNotResumable (run_id : Uuid) (status : RunStatus.t)
| InconsistentState (s : string)
| Store (s : string)
| Run (e : AgentRunError.t)
| Approval (e : ApprovalError.t)
| Schema (s : string)
| LiveSetup (s : string)
| LiveRunBusy (run_id : Uuid)
| GatewayFactory (s : string).
End AgentRuntimeError.

Inductive ResumeApproval : Type :=
| Waiting (outcome : AgentRuntimeOutcome)
| Continue
| ResumeFailed (error : string)
| ResumeBudgetExceeded (reason : string).

(** ** The collaborators of the runtime *)

(** The methods of [AgentStore], [AgentRunStore] and [ApprovalStore] that the runtime
    calls. *)
Record Stores (R : Type) := {
  st_load_agent_definition : Uuid → call R string (option AgentDefinition);
  st_save_agent_run_event : AgentRunEvent → call R string ();
  st_list_agent_run_events : Uuid → call R string (list AgentRunEvent);
  st_save_agent_run : AgentRun → call R string ();
  st_load_agent_run : Uuid → call R string (option AgentRun);
  st_save_agent_run_step : AgentRunStep → call R string ();
  st_load_agent_run_step : Uuid → call R string (option AgentRunStep);
  st_list_agent_run_steps : Uuid → call R string (list AgentRunStep);
  st_find_agent_run_step_by_approval : Uuid → call R string (option AgentRunStep);
  st_save_agent_checkpoint : AgentCheckpoint → call R string ();
  st_list_agent_checkpoints : Uuid → call R string (list AgentCheckpoint);
  st_save_agent_run_evaluation : AgentRunEvaluation → call R string ();
  st_list_agent_run_evaluations : Uuid → call R string (list AgentRunEvaluation);
  st_save_approval_request : SignedApprovalRequest → call R string ();
  st_load_approval_request : Uuid → call R string (option SignedApprovalRequest);
  st_list_approval_requests : call R string (list SignedApprovalRequest);
  st_load_approval_decision : Uuid → call R string (option SignedApprovalDecision);
  st_save_approval_execution : ApprovalExecution → call R string ();
  st_load_approval_execution : Uuid → call R string (option ApprovalExecution);
  st_load_trusted_approver : PrincipalId → call R string (option Principal);
}.

Record ModelGateway (R : Type) := {
  mg_provider : string;
  mg_complete : ModelTurnRequest → call R ModelGatewayError.t ModelTurn;
}.

(** [Utc::now] and [Uuid::now_v7] *)
Record Clock (R : Type) := {
  ck_now : R → DateTime * R;
  ck_new_v7 : R → Uuid * R;
}.

(** The files below a workspace and the registry of the build: what reading a path that
    is a file gives, the text of an error or its contents. *)
Record Files := {
  fl_manifest_dir : string;
  fl_read : string → option (string + string);
}.

Record AgentRuntime (S W R : Type) := {
  rt_registry : Registry;
  rt_engine : ExecutionEngine S W;
  rt_identity : Keypair;
  rt_workspace_path : string;
  rt_stores : Stores R;
  rt_model : ModelGateway R;
  rt_approval_ttl : Z;
  rt_clock : Clock R;
  rt_files : Files;
}.

#[global] Arguments st_load_agent_definition {R}.
#[global] Arguments st_save_agent_run_event {R}.
#[global] Arguments st_list_agent_run_events {R}.
#[global] Arguments st_save_agent_run {R}.
#[global] Arguments st_load_agent_run {R}.
#[global] Arguments st_save_agent_run_step {R}.
#[global] Arguments st_load_agent_run_step {R}.
#[global] Arguments st_list_agent_run_steps {R}.
#[global] Arguments st_find_agent_run_step_by_approval {R}.
#[global] Arguments st_save_agent_checkpoint {R}.
#[global] Arguments st_list_agent_checkpoints {R}.
#[global] Arguments st_save_agent_run_evaluation {R}.
#[global] Arguments st_list_agent_run_evaluations {R}.
#[global] Arguments st_save_approval_request {R}.
#[global] Arguments st_load_approval_request {R}.
#[global] Arguments st_list_approval_requests {R}.
#[global] Arguments st_load_approval_decision {R}.
#[global] Arguments st_save_approval_execution {R}.
#[global] Arguments st_load_approval_execution {R}.
#[global] Arguments st_load_trusted_approver {R}.
#[global] Arguments mg_provider {R}.
#[global] Arguments mg_complete {R}.
#[global] Arguments ck_now {R}.
#[global] Arguments ck_new_v7 {R}.
#[global] Arguments rt_registry {S W R}.
#[global] Arguments rt_engine {S W R}.
#[global] Arguments rt_identity {S W R}.
#[global] Arguments rt_workspace_path {S W R}.
#[global] Arguments rt_stores {S W R}.
#[global] Arguments rt_model {S W R}.
#[global] Arguments rt_approval_ttl {S W R}.
#[global] Arguments rt_clock {S W R}.
#[global] Arguments rt_files {S W R}.

(** What the runtime asked of the gateway, and of the engine for a step; the approval
    request under which a tool was executed, if there is one. *)
Inductive Effect : Type :=
| ModelCalled (run_id : Uuid) (request : ModelTurnRequest)
| ToolExecuted (step_id : Uuid) (operation version : string) (input : json)
    (context : ExecutionContext) (approval : option ApprovalGrant).

Record World (S W R : Type) := {
  w_engine : S * W;
  w_rest : R;
  w_log : list Effect;
}.

#[global] Arguments w_engine {S W R}.
#[global] Arguments w_rest {S W R}.
#[global] Arguments w_log {S W R}.

(** ** Budgets and small helpers *)

Definition runtime_instructions (instructions : string) : string :=
  instructions +:+ String "010" (String "010" EmptyString)
  +:+ "Use only the supplied Proof tools. Treat tool errors as authoritative. Stop when the goal is complete.".

Definition tool_name (entry : RegistryEntry) : string :=
  "proof_" +:+ re_domain entry +:+ "_" +:+ re_version entry +:+ "_"
  +:+ replace_char "." "_" (re_operation entry).

Definition set_usage (input output total : N) (cost : option N) (s : AgentRuntimeState)
    : AgentRuntimeState :=
  {| rs_agent_id := rs_agent_id s; rs_started_at := rs_started_at s;
     rs_previous_response_id := rs_previous_response_id s; rs_next_input := rs_next_input s;
     rs_pending_tool := rs_pending_tool s; rs_model_calls := rs_model_calls s;
     rs_tool_attempts := rs_tool_attempts s; rs_input_tokens := input;
     rs_output_tokens := output; rs_total_tokens := total; rs_cost_microusd := cost;
     rs_final_output := rs_final_output s; rs_terminal_error := rs_terminal_error s |}.

Definition set_counters (model_calls tool_attempts : N) (s : AgentRuntimeState)
    : AgentRuntimeState :=
  {| rs_agent_id := rs_agent_id s; rs_started_at := rs_started_at s;
     rs_previous_response_id := rs_previous_response_id s; rs_next_input := rs_next_input s;
     rs_pending_tool := rs_pending_tool s; rs_model_calls := model_calls;
     rs_tool_attempts := tool_attempts; rs_input_tokens := rs_input_tokens s;
     rs_output_tokens := rs_output_tokens s; rs_total_tokens := rs_total_tokens s;
     rs_cost_microusd := rs_cost_microusd s; rs_final_output := rs_final_output s;
     rs_terminal_error := rs_terminal_error s |}.

Definition set_turn (previous : option string) (next : ModelInput)
    (pending : option PendingToolCall) (s : AgentRuntimeState) : AgentRuntimeState :=
  {| rs_agent_id := rs_agent_id s; rs_started_at := rs_started_at s;
     rs_previous_response_id := previous; rs_next_input := next; rs_pending_tool := pending;
     rs_model_calls := rs_model_calls s; rs_tool_attempts := rs_tool_attempts s;
     rs_input_tokens := rs_input_tokens s; rs_output_tokens := rs_output_tokens s;
     rs_total_tokens := rs_total_tokens s; rs_cost_microusd := rs_cost_microusd s;
     rs_final_output := rs_final_output s; rs_terminal_error := rs_terminal_error s |}.

Definition set_end (final_output terminal_error : option string) (s : AgentRuntimeState)
    : AgentRuntimeState :=
  {| rs_agent_id := rs_agent_id s; rs_started_at := rs_started_at s;
     rs_previous_response_id := rs_previous_response_id s; rs_next_input := rs_next_input s;
     rs_pending_tool := rs_pending_tool s; rs_model_calls := rs_model_calls s;
     rs_tool_attempts := rs_tool_attempts s; rs_input_tokens := rs_input_tokens s;
     rs_output_tokens := rs_output_tokens s; rs_total_tokens := rs_total_tokens s;
     rs_cost_microusd := rs_cost_microusd s; rs_final_output := final_output;
     rs_terminal_error := terminal_error |}.

(** A failed [apply_usage] leaves the fields it has already assigned; the state goes on
    into the terminal checkpoint. *)
Definition apply_usage (usage : ModelUsage) : call AgentRuntimeState string () := λ s,
  match checked_add u64_max (rs_input_tokens s) (us_input_tokens usage) with
  | None => (Err "input token counter overflow", s)
  | Some input =>
      let s1 := set_usage input (rs_output_tokens s) (rs_total_tokens s) (rs_cost_microusd s) s in
      match checked_add u64_max (rs_output_tokens s) (us_output_tokens usage) with
      | None => (Err "output token counter overflow", s1)
      | Some output =>
          let s2 := set_usage input output (rs_total_tokens s) (rs_cost_microusd s) s in
          match checked_add u64_max (rs_total_tokens s) (us_total_tokens usage) with
          | None => (Err "total token counter overflow", s2)
          | Some total =>
              let s3 := set_usage input output total (rs_cost_microusd s) s in
              match rs_cost_microusd s, us_cost_microusd usage with
              | Some cost, Some increment =>
                  match checked_add u64_max cost increment with
                  | None => (Err "cost counter overflow", s3)
                  | Some cost => (Ok (), set_usage input output total (Some cost) s)
                  end
              | _, _ => (Ok (), set_usage input output total None s)
              end
          end
      end
  end.

(** [num_seconds] truncates towards zero. *)
Definition elapsed_seconds (started_at now : DateTime) : N :=
  Z.to_N (Z.max (Z.quot (now - started_at) 1000000000) 0).

Section helpers.
Context `{Externals, RuntimeExternals}.

Definition run_deadline {E} (started_at : DateTime) (max_duration_seconds : N)
    : result E DateTime :=
  let seconds := if (Z.of_N max_duration_seconds <=? i64_max)%Z
                 then Z.of_N max_duration_seconds else i64_max in
  let? duration := expect (duration_seconds seconds) in
  Ok (default max_utc (checked_add_signed started_at duration)).

Definition duration_budget_text (agent : AgentDefinition) : string :=
  "duration budget exceeded: maximum " +:+ pretty (max_duration_seconds (agent_limits agent))
  +:+ " seconds".

Definition duration_budget_error {E} (agent : AgentDefinition) (state : AgentRuntimeState)
    (now : DateTime) : result E (option string) :=
  let? deadline := run_deadline (rs_started_at state) (max_duration_seconds (agent_limits agent)) in
  Ok (if (deadline <=? now)%Z then Some (duration_budget_text agent) else None).

Definition pre_model_budget_error (agent : AgentDefinition) (state : AgentRuntimeState)
    (now : DateTime) : option string :=
  let limits := agent_limits agent in
  if (max_model_calls limits <=? rs_model_calls state)%N
  then Some ("model call budget exceeded: maximum " +:+ pretty (max_model_calls limits))
  else if (max_duration_seconds limits <=? elapsed_seconds (rs_started_at state) now)%N
  then Some (duration_budget_text agent)
  else if (max_total_tokens limits <=? rs_total_tokens state)%N
  then Some ("token budget exceeded: maximum " +:+ pretty (max_total_tokens limits))
  else None.

Definition post_model_budget_error (agent : AgentDefinition) (state : AgentRuntimeState)
    (now : DateTime) : option string :=
  let limits := agent_limits agent in
  if (max_total_tokens limits <? rs_total_tokens state)%N
  then Some ("token budget exceeded: used " +:+ pretty (rs_total_tokens state)
             +:+ ", maximum " +:+ pretty (max_total_tokens limits))
  else if (max_duration_seconds limits <? elapsed_seconds (rs_started_at state) now)%N
  then Some (duration_budget_text agent)
  else match max_cost_microusd limits with
       | None => None
       | Some maximum =>
           match rs_cost_microusd state with
           | None => Some "cost budget configured but provider did not report cost usage"
           | Some actual =>
               if (maximum <? actual)%N
               then Some ("cost budget exceeded: used " +:+ pretty actual
                          +:+ " microusd, maximum " +:+ pretty maximum)
               else None
           end
       end.

Definition legacy_budget_failure (error : string) : bool :=
  str_contains "budget exceeded" error
  || starts_with "cost budget configured" error
  || ends_with "token counter overflow" error
  || bool_decide (error = "cost counter overflow").

Definition metrics (state : AgentRuntimeState) (now : DateTime) : json :=
  json_object
    [("model_calls", nat_value (rs_model_calls state));
     ("tool_attempts", nat_value (rs_tool_attempts state));
     ("input_tokens", nat_value (rs_input_tokens state));
     ("output_tokens", nat_value (rs_output_tokens state));
     ("total_tokens", nat_value (rs_total_tokens state));
     ("cost_microusd", opt_value nat_value (rs_cost_microusd state));
     ("duration_seconds", nat_value (elapsed_seconds (rs_started_at state) now))].

Definition next_sequence (current : option N) : result AgentRuntimeError.t N :=
  match current with
  | Some sequence =>
      ok_or (checked_add u32_max sequence 1)
        (AgentRuntimeError.InconsistentState "sequence counter overflow")
  | None => Ok 0%N
  end.

Definition generic_initial_state (run : AgentRun) (agent : AgentDefinition)
    : AgentRuntimeState :=
  {| rs_agent_id := agent_id agent; rs_started_at := run_created_at run;
     rs_previous_response_id := None; rs_next_input := Goal (run_goal run);
     rs_pending_tool := None; rs_model_calls := 0; rs_tool_attempts := 0;
     rs_input_tokens := 0; rs_output_tokens := 0; rs_total_tokens := 0;
     rs_cost_microusd := Some 0%N; rs_final_output := None; rs_terminal_error := None |}.

Definition generic_started_event (agent : AgentDefinition) (run : AgentRun) : json :=
  json_object [("agent_id", uuid_value (agent_id agent)); ("goal", JString (run_goal run))].

(** The state of a checkpoint. *)
Definition checkpoint_state (state : AgentRuntimeState) (terminal : option EventKind.t) : json :=
  json_object ([("kind", JString RUNTIME_CHECKPOINT_KIND);
                ("runtime", AgentRuntimeState_value state)]
               ++ opt_field "terminal_event_kind"
                    ((λ k, JString (EventKind_wire k)) <$> terminal)).

Definition is_runtime_checkpoint (c : AgentCheckpoint) : bool :=
  bool_decide ((value_get "kind" (cp_state c) ≫= as_str) = Some RUNTIME_CHECKPOINT_KIND).

(** The data of the events of a tool call, and what the model is told of its result. *)
Definition tool_requested_data (step_id : Uuid) (p : PendingToolCall) : json :=
  json_object
    [("step_id", uuid_value step_id); ("call_id", JString (pt_call_id p));
     ("tool", JString (pt_tool_name p)); ("operation", JString (pt_operation p));
     ("version", JString (pt_version p)); ("arguments", pt_arguments p)].

Definition tool_succeeded_data (step_id : Uuid) (call_id operation version : string)
    (proof_id : option Uuid) : json :=
  json_object
    [("step_id", uuid_value step_id); ("call_id", JString call_id);
     ("operation", JString operation); ("version", JString version);
     ("proof_id", opt_value uuid_value proof_id)].

Definition tool_succeeded_output (output : json) (proof_id : option Uuid) : json :=
  json_object [("ok", JBool true); ("result", output);
               ("proof_id", opt_value uuid_value proof_id)].

Definition tool_failed_data (step_id : Uuid) (call_id error : string) : json :=
  json_object [("step_id", uuid_value step_id); ("call_id", JString call_id);
               ("error", JString error)].

Definition tool_failed_output (error operation version : string) : json :=
  json_object [("ok", JBool false); ("error", JString error);
               ("operation", JString operation); ("version", JString version)].

End helpers.

(** ** Calls of the runtime *)

Section runtime.
Context {S W R : Type} `{Externals, RuntimeExternals}.

Notation world := (World S W R).
Notation rt A := (call world AgentRuntimeError.t A).

Definition UnavailableModelGateway : ModelGateway R :=
  {| mg_provider := "unconfigured";
     mg_complete _ :=
       throw (ModelGatewayError.Request
                "no fixed model gateway is configured; use run_live") |}.

(** [new_with_gateway_factory], without the factory, which only live runs use. *)
Definition new_with_gateway_factory (registry : Registry) (engine : ExecutionEngine S W)
    (identity : Keypair) (workspace_path : string) (stores : Stores R) (clock : Clock R)
    (files : Files) : result AgentRuntimeError.t (AgentRuntime S W R) :=
  bail AgentRuntimeError.IdentityMustBeAgent when negb (bool_decide (kp_kind identity = Agent));
  Ok {| rt_registry := registry; rt_engine := engine; rt_identity := identity;
        rt_workspace_path := workspace_path; rt_stores := stores;
        rt_model := UnavailableModelGateway; rt_approval_ttl := Duration_seconds (15 * 60);
        rt_clock := clock; rt_files := files |}.

Definition AgentRuntime_new (registry : Registry) (engine : ExecutionEngine S W)
    (identity : Keypair) (workspace_path : string) (stores : Stores R)
    (model : ModelGateway R) (clock : Clock R) (files : Files)
    : result AgentRuntimeError.t (AgentRuntime S W R) :=
  let? runtime := new_with_gateway_factory registry engine identity workspace_path stores
                    clock files in
  Ok {| rt_registry := rt_registry runtime; rt_engine := rt_engine runtime;
        rt_identity := rt_identity runtime; rt_workspace_path := rt_workspace_path runtime;
        rt_stores := rt_stores runtime; rt_model := model;
        rt_approval_ttl := rt_approval_ttl runtime; rt_clock := rt_clock runtime;
        rt_files := rt_files runtime |}.

Definition with_rest (x : R) (w : world) : world :=
  {| w_engine := w_engine w; w_rest := x; w_log := w_log w |}.

(** A call of a store: [map_err(AgentRuntimeError::Store)]. *)
Definition stored {A} (c : call R string A) : rt A := λ w,
  let '(r, x) := c (w_rest w) in (map_err AgentRuntimeError.Store r, with_rest x w).

(** A method of a record, with [?]. *)
Definition on_record {T E} (f : E → AgentRuntimeError.t) (c : call T E ()) (t : T) : rt T :=
  match c t with
  | (Ok _, t') => ret t'
  | (Err e, _) => throw (f e)
  | (Panic, _) => lift Panic
  end.

Definition on_step (c : call AgentRunStep AgentRunError.t ()) := on_record AgentRuntimeError.Run c.
Definition on_run (c : call AgentRun AgentRunError.t ()) := on_record AgentRuntimeError.Run c.

(** [c.is_ok()] *)
Definition succeeds {A} (c : rt A) : rt bool := λ w,
  match c w with
  | (Ok _, w') => (Ok true, w')
  | (Err _, w') => (Ok false, w')
  | (Panic, w') => (Panic, w')
  end.

Definition inconsistent {A} (s : string) : rt A := throw (AgentRuntimeError.InconsistentState s).

Context (self : AgentRuntime S W R).

Definition now : rt DateTime := λ w,
  let '(t, x) := ck_now (rt_clock self) (w_rest w) in (Ok t, with_rest x w).

Definition new_v7 : rt Uuid := λ w,
  let '(id, x) := ck_new_v7 (rt_clock self) (w_rest w) in (Ok id, with_rest x w).

(** [self.model.complete(&request)] *)
Definition complete (run_id : Uuid) (request : ModelTurnRequest)
    : rt (result ModelGatewayError.t ModelTurn) := λ w,
  let '(r, x) := mg_complete (rt_model self) request (w_rest w) in
  let w' := {| w_engine := w_engine w; w_rest := x;
               w_log := w_log w ++ [ModelCalled run_id request] |} in
  match r with Panic => (Panic, w') | _ => (Ok r, w') end.

(** An execution of the engine, with the identifiers it draws. *)
Definition executed (effect : Effect)
    (c : FreshIds → call (S * W) ExecutionError.t ExecutionOutcome)
    : rt (result ExecutionError.t ExecutionOutcome) :=
  let! claim_token := new_v7 in
  let! proof_id := new_v7 in
  λ w,
    let '(r, sw) := c {| fresh_claim_token := claim_token; fresh_proof_id := proof_id |}
                      (w_engine w) in
    let w' := {| w_engine := sw; w_rest := w_rest w; w_log := w_log w ++ [effect] |} in
    match r with Panic => (Panic, w') | _ => (Ok r, w') end.

Definition execution_context (timestamp : DateTime) : ExecutionContext :=
  {| ctx_actor := kp_principal_id (rt_identity self); ctx_principal_kind := Some Agent;
     ctx_delegation_id := None; ctx_delegation_chain := None;
     ctx_workspace_path := rt_workspace_path self; ctx_timestamp := timestamp |}.

(** ** Writing *)

Definition save_run (run : AgentRun) : rt () := stored (st_save_agent_run (rt_stores self) run).
Definition save_step (step : AgentRunStep) : rt () :=
  stored (st_save_agent_run_step (rt_stores self) step).

Definition load_step (step_id : Uuid) : rt AgentRunStep :=
  let! step := stored (st_load_agent_run_step (rt_stores self) step_id) in
  lift (ok_or step (AgentRuntimeError.InconsistentState
                      ("agent run step not found: " +:+ uuid_to_string step_id))).

Definition save_state_checkpoint (run_id : Uuid) (state : AgentRuntimeState)
    (terminal_event_kind : option EventKind.t) : rt () :=
  let! checkpoints := stored (st_list_agent_checkpoints (rt_stores self) run_id) in
  let! sequence := lift (next_sequence (cp_sequence <$> last checkpoints)) in
  let! created_at := now in
  let! id := new_v7 in
  let! checkpoint := lift (map_err AgentRuntimeError.Run
    (AgentCheckpoint_create run_id sequence (checkpoint_state state terminal_event_kind)
       created_at id)) in
  stored (st_save_agent_checkpoint (rt_stores self) checkpoint).

Definition save_state (run_id : Uuid) (state : AgentRuntimeState) : rt () :=
  save_state_checkpoint run_id state None.
Definition save_terminal_state (run_id : Uuid) (state : AgentRuntimeState)
    (event_kind : EventKind.t) : rt () :=
  save_state_checkpoint run_id state (Some event_kind).

Definition AgentDefinitionError_event_text : string :=
  "agent event data could not be canonicalized".

Definition append_event (run_id : Uuid) (kind : EventKind.t) (data : json) : rt () :=
  let! events := stored (st_list_agent_run_events (rt_stores self) run_id) in
  let! sequence := lift (next_sequence (ev_sequence <$> last events)) in
  let! created_at := now in
  let! id := new_v7 in
  let! event := lift (map_err (λ _, AgentRuntimeError.InconsistentState
                                      AgentDefinitionError_event_text)
    (AgentRunEvent_create run_id sequence kind data created_at id)) in
  stored (st_save_agent_run_event (rt_stores self) event).

(** ** Schemas *)

Definition schema_value (entry : RegistryEntry) (schema : string)
    : result AgentRuntimeError.t json :=
  let name := re_operation entry +:+ "::" +:+ re_version entry in
  if starts_with "{" (trim_start schema) then
    match json_from_str schema with
    | inr value => Ok value
    | inl error =>
        Err (AgentRuntimeError.Schema
               ("invalid inline schema for " +:+ name +:+ ": " +:+ error))
    end
  else
    let files := rt_files self in
    let candidates :=
      [path_join (path_join (rt_workspace_path self) ".proof/registry") schema;
       path_join (path_join (rt_workspace_path self) "registry") schema;
       path_join (path_join (path_join (path_join (fl_manifest_dir files) "..") "..")
                    "registry") schema] in
    match List.find (λ path, is_some (fl_read files path)) candidates with
    | None =>
        Err (AgentRuntimeError.Schema
               ("schema file not found for " +:+ name +:+ ": " +:+ schema))
    | Some path =>
        match fl_read files path with
        | Some (inr contents) =>
            match json_from_str contents with
            | inr value => Ok value
            | inl error =>
                Err (AgentRuntimeError.Schema
                       ("invalid schema " +:+ path +:+ ": " +:+ error))
            end
        | Some (inl error) =>
            Err (AgentRuntimeError.Schema ("could not read " +:+ path +:+ ": " +:+ error))
        | None => Err (AgentRuntimeError.Schema ("could not read " +:+ path +:+ ": "))
        end
    end.

Definition validate_schema (entry : RegistryEntry) (schema : string) (value : json)
    : result AgentRuntimeError.t () :=
  let name := re_operation entry +:+ "::" +:+ re_version entry in
  let? schema := schema_value entry schema in
  match validator_new schema with
  | inl error =>
      Err (AgentRuntimeError.Schema ("invalid schema for " +:+ name +:+ ": " +:+ error))
  | inr validator =>
      let errors := validator value in
      bail AgentRuntimeError.Schema
             (name +:+ " validation failed: " +:+ join "; " errors)
        when negb (bool_decide (errors = []));
      Ok ()
  end.

(** The text of an error of [validate_schema]. *)
Definition schema_error (e : AgentRuntimeError.t) : string :=
  match e with
  | AgentRuntimeError.Schema s => "registry schema failed: " +:+ s
  | _ => EmptyString
  end.

Definition validate_output (pending : PendingToolCall) (output : json) : result string () :=
  let? entry := ok_or (find (rt_registry self) (pt_operation pending) (pt_version pending))
                  ("registered tool disappeared: " +:+ pt_operation pending +:+ "::"
                   +:+ pt_version pending) in
  map_err schema_error (validate_schema entry (re_output_schema entry) output).

(** ** Agents and tools *)

Definition load_agent (agent_id : Uuid) : rt AgentDefinition :=
  let! agent := stored (st_load_agent_definition (rt_stores self) agent_id) in
  let! agent := lift (ok_or agent (AgentRuntimeError.AgentNotFound agent_id)) in
  stop AgentRuntimeError.ProviderMismatch (agent_provider agent) (mg_provider (rt_model self))
    when negb (eq_ignore_ascii_case (agent_provider agent) (mg_provider (rt_model self)));
  ret agent.

Fixpoint resolve_from (names : list string) (allowed : list AgentTool)
    : result AgentRuntimeError.t (list AgentFunctionTool) :=
  match allowed with
  | [] => Ok []
  | tool :: allowed' =>
      let? entry := ok_or (find (rt_registry self) (tool_operation tool) (tool_version tool))
                      (AgentRuntimeError.ToolNotRegistered (tool_operation tool)
                         (tool_version tool)) in
      let name := tool_name entry in
      bail AgentRuntimeError.DuplicateToolName name when bool_decide (name ∈ names);
      let? parameters := schema_value entry (re_input_schema entry) in
      let? rest := resolve_from (name :: names) allowed' in
      Ok ({| ft_name := name; ft_description := re_description entry;
             ft_parameters := parameters; ft_operation := re_operation entry;
             ft_version := re_version entry |} :: rest)
  end.

Definition resolve_tools (agent : AgentDefinition)
    : result AgentRuntimeError.t (list AgentFunctionTool) :=
  resolve_from [] (agent_tools agent).

(** ** The end of a run *)

Definition ensure_evaluation (run : AgentRun) (outcome : AgentEvaluationOutcome)
    (score_bps : option N) (state : AgentRuntimeState) (summary : option string)
    : rt AgentRunEvaluation :=
  let! evaluations := stored (st_list_agent_run_evaluations (rt_stores self) (run_id run)) in
  match List.find (λ e, bool_decide (eval_evaluator e = RUNTIME_EVALUATOR)) evaluations with
  | Some existing => ret existing
  | None =>
      let! measured_at := now in
      let! created_at := now in
      let! id := new_v7 in
      let! evaluation := lift (map_err AgentRuntimeError.Run
        (AgentRunEvaluation_create run RUNTIME_EVALUATOR outcome score_bps
           (metrics state measured_at) summary created_at id)) in
      let! _ := stored (st_save_agent_run_evaluation (rt_stores self) evaluation) in
      ret evaluation
  end.

(** The rebuilt event is read for its digest only, not for its identifier. *)
Definition validate_exact_event_record (run_id : Uuid) (kind : EventKind.t)
    (expected_data : json) (event : AgentRunEvent) : result AgentRuntimeError.t () :=
  let invalid := AgentRuntimeError.InvalidCheckpoint run_id in
  let? rebuilt := map_err (λ _, invalid)
    (AgentRunEvent_create run_id (ev_sequence event) kind expected_data (ev_created_at event)
       (ev_id event)) in
  bail invalid
    when negb (bool_decide (ev_run_id event = run_id))
         || negb (bool_decide (ev_kind event = kind))
         || negb (uuid_version_num (ev_id event) =? 7)%N
         || negb (bool_decide (ev_data event = expected_data))
         || negb (bool_decide (ev_data_digest event = ev_data_digest rebuilt));
  Ok ().

Definition of_kind (kind : EventKind.t) (events : list AgentRunEvent) : list AgentRunEvent :=
  filter (λ e, ev_kind e = kind) events.

Definition exact_terminal_event (run_id : Uuid) (kind : EventKind.t) (data : json)
    (failure : string) (matching : list AgentRunEvent) : rt () :=
  match matching with
  | [event] =>
      lift (map_err (λ _, AgentRuntimeError.InconsistentState
                            ("terminal event " +:+ EventKind_debug kind +:+ failure))
              (validate_exact_event_record run_id kind data event))
  | _ => inconsistent ("terminal event " +:+ EventKind_debug kind +:+ " is not exact-one")
  end.

Definition ensure_terminal_event (run_id : Uuid) (kind : EventKind.t) (data : json) : rt () :=
  let! events := stored (st_list_agent_run_events (rt_stores self) run_id) in
  match of_kind kind events with
  | [] =>
      let! _ := append_event run_id kind data in
      let! reread := stored (st_list_agent_run_events (rt_stores self) run_id) in
      exact_terminal_event run_id kind data " failed exact reread" (of_kind kind reread)
  | matching =>
      exact_terminal_event run_id kind data " data or digest is inconsistent" matching
  end.

Definition is_failure_kind (kind : EventKind.t) : bool :=
  match kind with EventKind.Failed | EventKind.BudgetExceeded => true | _ => false end.

Definition seal_failure (run : AgentRun) (state : AgentRuntimeState) (error : string)
    (event_kind : EventKind.t) : rt AgentRuntimeOutcome :=
  stop AgentRuntimeError.InconsistentState
         ("invalid terminal failure event kind: " +:+ EventKind_debug event_kind)
    when negb (is_failure_kind event_kind);
  let! run := if RunStatus.is_terminal (run_status run) then ret run
              else let! at_ := now in
                   let! run := on_run (run_fail at_) run in
                   let! _ := save_run run in
                   ret run in
  let! evaluation := ensure_evaluation run EvaluationFailed (Some 0%N) state (Some error) in
  let! _ := ensure_terminal_event (run_id run) event_kind
    (json_object [("error", JString error);
                  ("evaluation_id", uuid_value (eval_id evaluation))]) in
  ret (Failed run error evaluation).

Definition fail_run (run : AgentRun) (state : AgentRuntimeState) (error : string)
    (event_kind : EventKind.t) : rt AgentRuntimeOutcome :=
  let state := set_end (rs_final_output state) (Some error) state in
  let! _ := save_terminal_state (run_id run) state event_kind in
  seal_failure run state error event_kind.

Definition fail_approval_for_budget (run : AgentRun) (state : AgentRuntimeState)
    (reason : string) : rt AgentRuntimeOutcome :=
  let! _ :=
    match rs_pending_tool state with
    | None => ret ()
    | Some pending =>
        let! step := load_step (pt_step_id pending) in
        match step_status step with
        | StepStatus.Running | StepStatus.WaitingForApproval =>
            let! at_ := now in
            let! step := on_step (step_fail reason at_) step in
            let! _ := save_step step in
            append_event (run_id run) EventKind.ToolFailed
              (tool_failed_data (step_id step) (pt_call_id pending) reason)
        | _ => ret ()
        end
    end in
  fail_run run state reason EventKind.BudgetExceeded.

Definition failure_kinds (events : list AgentRunEvent) : list EventKind.t :=
  map ev_kind (filter (λ e, is_failure_kind (ev_kind e) = true) events).

Definition failure_event_kind (run_id : Uuid) (state : AgentRuntimeState)
    : rt (option EventKind.t) :=
  let! events := stored (st_list_agent_run_events (rt_stores self) run_id) in
  match failure_kinds events with
  | _ :: _ :: _ =>
      inconsistent ("agent run " +:+ uuid_to_string run_id
                    +:+ " has multiple terminal failure events")
  | [kind] => ret (Some kind)
  | [] =>
      let! checkpoints := stored (st_list_agent_checkpoints (rt_stores self) run_id) in
      match List.find is_runtime_checkpoint (reverse checkpoints)
              ≫= λ c, value_get "terminal_event_kind" (cp_state c) with
      | Some value =>
          let! kind := lift (ok_or (EventKind_of_value value)
                               (AgentRuntimeError.InvalidCheckpoint run_id)) in
          stop AgentRuntimeError.InvalidCheckpoint run_id when negb (is_failure_kind kind);
          ret (Some kind)
      | None =>
          ret ((λ error, if legacy_budget_failure error then EventKind.BudgetExceeded
                         else EventKind.Failed) <$> rs_terminal_error state)
      end
  end.

Definition finish_terminal_state (run : AgentRun) (state : AgentRuntimeState)
    : rt AgentRuntimeOutcome :=
  match rs_terminal_error state with
  | Some error =>
      let! kind := failure_event_kind (run_id run) state in
      seal_failure run state error (default EventKind.Failed kind)
  | None =>
      let! output := lift (ok_or (rs_final_output state)
        (AgentRuntimeError.InconsistentState "terminal state has no result")) in
      let! run := if RunStatus.is_terminal (run_status run) then ret run
                  else let! at_ := now in
                       let! run := on_run (run_succeed at_) run in
                       let! _ := save_run run in
                       ret run in
      let! evaluation := ensure_evaluation run EvaluationPassed (Some 10000%N) state
                           (Some "agent completed within configured budgets") in
      let! _ := ensure_terminal_event (run_id run) EventKind.Completed
        (json_object [("output", JString output);
                      ("evaluation_id", uuid_value (eval_id evaluation))]) in
      ret (Completed run output evaluation)
  end.

(** A failure whose terminal event is already stored is answered from the store. *)
Definition replay_terminal_failure (run : AgentRun) (state : AgentRuntimeState)
    (event : AgentRunEvent) : rt AgentRuntimeOutcome :=
  let event_text := "terminal event " +:+ uuid_to_string (ev_id event) in
  let run_text := uuid_to_string (run_id run) in
  let! evaluations := stored (st_list_agent_run_evaluations (rt_stores self) (run_id run)) in
  let! evaluation :=
    match filter (λ e, eval_evaluator e = RUNTIME_EVALUATOR) evaluations with
    | [] => inconsistent ("sealed agent run " +:+ run_text +:+ " has no runtime evaluation")
    | [evaluation] => ret evaluation
    | _ => inconsistent ("sealed agent run " +:+ run_text
                         +:+ " has multiple runtime evaluations")
    end in
  stop AgentRuntimeError.InconsistentState
         ("sealed failed agent run " +:+ run_text +:+ " has a passing runtime evaluation")
    when negb (bool_decide (eval_outcome evaluation = EvaluationFailed));
  let! evaluation_id :=
    lift (ok_or ((value_get "evaluation_id" (ev_data event) ≫= as_str) ≫= uuid_parse_str)
            (AgentRuntimeError.InconsistentState
               (event_text +:+ " has no valid evaluation binding"))) in
  stop AgentRuntimeError.InconsistentState
         (event_text +:+ " evaluation binding does not match "
          +:+ uuid_to_string (eval_id evaluation))
    when negb (bool_decide (evaluation_id = eval_id evaluation));
  let! error := lift (ok_or (value_get "error" (ev_data event) ≫= as_str)
    (AgentRuntimeError.InconsistentState (event_text +:+ " has no failure reason"))) in
  stop AgentRuntimeError.InconsistentState
         (event_text +:+ " failure reason does not match the runtime checkpoint")
    when is_some_and (rs_terminal_error state) (λ stored, negb (bool_decide (stored = error)));
  ret (Failed run error evaluation).

Definition replay_or_seal_terminal_failure (run : AgentRun) (state : AgentRuntimeState)
    : rt AgentRuntimeOutcome :=
  let! events := stored (st_list_agent_run_events (rt_stores self) (run_id run)) in
  match filter (λ e, is_failure_kind (ev_kind e) = true) events with
  | _ :: _ :: _ =>
      inconsistent ("agent run " +:+ uuid_to_string (run_id run)
                    +:+ " has multiple terminal failure events")
  | [event] => replay_terminal_failure run state event
  | [] =>
      let error := default "agent run failed before recording a terminal reason"
                     (rs_terminal_error state) in
      let! kind := failure_event_kind (run_id run) state in
      seal_failure run state error (default EventKind.Failed kind)
  end.

Definition terminal_outcome (run : AgentRun) (state : AgentRuntimeState)
    : rt AgentRuntimeOutcome :=
  match run_status run with
  | RunStatus.Succeeded => finish_terminal_state run state
  | RunStatus.Failed => replay_or_seal_terminal_failure run state
  | status => throw (AgentRuntimeError.RunNotResumable (run_id run) status)
  end.

(** ** Tool calls *)

Definition record_tool_success (state : AgentRuntimeState) (step : AgentRunStep)
    (output : json) : rt AgentRuntimeState :=
  let! pending := lift (ok_or (rs_pending_tool state)
    (AgentRuntimeError.InconsistentState "tool success has no pending call")) in
  let proof_id := (λ p, pb_id (body p)) <$> step_proof step in
  let state := set_turn (rs_previous_response_id state)
                 (ToolOutput (pt_call_id pending) (tool_succeeded_output output proof_id))
                 None state in
  let! _ := save_state (step_run_id step) state in
  let! _ := append_event (step_run_id step) EventKind.ToolSucceeded
    (tool_succeeded_data (step_id step) (pt_call_id pending) (pt_operation pending)
       (pt_version pending) proof_id) in
  ret state.

Definition record_tool_failure_state (state : AgentRuntimeState) (step : AgentRunStep)
    (error : string) : rt AgentRuntimeState :=
  let! pending := lift (ok_or (rs_pending_tool state)
    (AgentRuntimeError.InconsistentState "tool failure has no pending call")) in
  let state := set_turn (rs_previous_response_id state)
                 (ToolOutput (pt_call_id pending)
                    (tool_failed_output error (pt_operation pending) (pt_version pending)))
                 None state in
  let! _ := save_state (step_run_id step) state in
  let! _ := append_event (step_run_id step) EventKind.ToolFailed
    (tool_failed_data (step_id step) (pt_call_id pending) error) in
  ret state.

Definition record_tool_failure (step : AgentRunStep) (state : AgentRuntimeState)
    (error : string) : rt AgentRuntimeState :=
  let! at_ := now in
  let! step := on_step (step_fail error at_) step in
  let! _ := save_step step in
  record_tool_failure_state state step error.

(** The next state, or the error that ends the run. *)
Definition execute_agent_tool (entry : RegistryEntry) (step : AgentRunStep)
    (state : AgentRuntimeState) : rt (string + AgentRuntimeState) :=
  let! pending := lift (ok_or (rs_pending_tool state)
    (AgentRuntimeError.InconsistentState "execution has no pending tool")) in
  let! timestamp := now in
  let context := execution_context timestamp in
  let! executed := executed
    (ToolExecuted (step_id step) (re_operation entry) (re_version entry)
       (pt_arguments pending) context None)
    (execute_evidenced (rt_engine self) (re_operation entry) (re_version entry)
       (pt_arguments pending) context) in
  match executed with
  | Ok outcome =>
      let! at_ := now in
      let! step := on_step (step_succeed (eo_output outcome) (eo_proof outcome) at_) step in
      let! _ := save_step step in
      match validate_schema entry (re_output_schema entry) (eo_output outcome) with
      | Ok _ =>
          let! state := record_tool_success state step (eo_output outcome) in
          ret (inr state)
      | Err error =>
          let! _ := append_event (step_run_id step) EventKind.ToolFailed
            (json_object [("step_id", uuid_value (step_id step));
                          ("error", JString (schema_error error))]) in
          ret (inl (schema_error error))
      | Panic => lift Panic
      end
  | Err error =>
      let! state := record_tool_failure step state (ExecutionError.to_string error) in
      ret (inr state)
  | Panic => lift Panic
  end.

Definition reconcile_pending_tool (state : AgentRuntimeState)
    : rt (string + AgentRuntimeState) :=
  let! pending := lift (ok_or (rs_pending_tool state)
    (AgentRuntimeError.InconsistentState "pending tool disappeared")) in
  let! step := load_step (pt_step_id pending) in
  let step_text := uuid_to_string (step_id step) in
  match step_status step with
  | StepStatus.Succeeded =>
      let! output := lift (ok_or (step_output step) (AgentRuntimeError.InconsistentState
                             ("succeeded step " +:+ step_text +:+ " has no output"))) in
      match validate_output pending output with
      | Ok _ =>
          let! state := record_tool_success state step output in
          ret (inr state)
      | Err error => ret (inl error)
      | Panic => lift Panic
      end
  | StepStatus.Failed =>
      let error := default "tool execution failed" (step_error step) in
      let! state := record_tool_failure_state state step error in
      ret (inr state)
  | StepStatus.Running =>
      let error := "tool step " +:+ step_text
                   +:+ " was interrupted in flight; refusing unsafe replay" in
      let! at_ := now in
      let! step := on_step (step_fail error at_) step in
      let! _ := save_step step in
      ret (inl error)
  | status =>
      ret (inl ("tool step " +:+ step_text +:+ " cannot recover from "
                +:+ StepStatus.debug status))
  end.

Definition set_pending_request (request_id : Uuid) (p : PendingToolCall) : PendingToolCall :=
  {| pt_call_id := pt_call_id p; pt_tool_name := pt_tool_name p;
     pt_operation := pt_operation p; pt_version := pt_version p;
     pt_arguments := pt_arguments p; pt_step_id := pt_step_id p;
     pt_approval_request_id := Some request_id |}.

Definition approval_required_data (step_id : Uuid) (r : ApprovalRequest) : json :=
  json_object
    [("step_id", uuid_value step_id); ("request_id", uuid_value (ar_id r));
     ("operation", JString (ar_operation r)); ("version", JString (ar_version r));
     ("expires_at", utc_value (ar_expires_at r))].

Definition wait_for_approval (run : AgentRun) (step : AgentRunStep)
    (state : AgentRuntimeState) (agent : AgentDefinition) : rt AgentRuntimeOutcome :=
  let! requested_at := now in
  let! exceeded := lift (duration_budget_error agent state requested_at) in
  match exceeded with
  | Some reason => fail_approval_for_budget run state reason
  | None =>
      let! latest := lift (expect (checked_add_signed requested_at (rt_approval_ttl self))) in
      let! deadline := lift (run_deadline (rs_started_at state)
                               (max_duration_seconds (agent_limits agent))) in
      let expires_at := Z.min latest deadline in
      let! pending := lift (ok_or (rs_pending_tool state)
        (AgentRuntimeError.InconsistentState "approval has no pending tool")) in
      let! id := new_v7 in
      let! request := lift (map_err AgentRuntimeError.Approval
        (SignedApprovalRequest_create (pt_operation pending) (pt_version pending)
           (pt_arguments pending) requested_at expires_at (rt_identity self) id)) in
      let request_id := ar_id (sr_body request) in
      let! _ := stored (st_save_approval_request (rt_stores self) request) in
      let! step := on_step (step_wait_for_approval request_id requested_at) step in
      let! _ := save_step step in
      let! run := on_run (run_wait_for_input requested_at) run in
      let! _ := save_run run in
      let state := set_turn (rs_previous_response_id state) (rs_next_input state)
                     (Some (set_pending_request request_id pending)) state in
      let! _ := save_state (run_id run) state in
      let! _ := append_event (run_id run) EventKind.ApprovalRequired
        (approval_required_data (step_id step) (sr_body request)) in
      ret (WaitingForApproval run step request)
  end.

(** ** After an approval *)

Definition approval_resumed_data (step_id request_id : Uuid) (d : ApprovalDecision) : json :=
  json_object
    [("step_id", uuid_value step_id); ("request_id", uuid_value request_id);
     ("decided_by", uuid_value (ad_decided_by d)); ("outcome", outcome_value (ad_outcome d))].

Definition resumed : Type := ResumeApproval * AgentRun * AgentRuntimeState.

(** The step that an approval request is bound to, if it is that of the pending call. *)
Definition approved_step (run : AgentRun) (pending : PendingToolCall) (request_id : Uuid)
    : rt (string + AgentRunStep * ContentDigest) :=
  let request_text := "approval request " +:+ uuid_to_string request_id in
  let! found := stored (st_find_agent_run_step_by_approval (rt_stores self) request_id) in
  match found with
  | None => ret (inl (request_text +:+ " is not bound to the pending agent run step"))
  | Some step =>
      if negb (bool_decide (step_id step = pt_step_id pending))
         || negb (bool_decide (step_run_id step = run_id run))
         || negb (bool_decide (step_approval_request_id step = Some request_id))
      then ret (inl (request_text +:+ " resolved to step " +:+ uuid_to_string (step_id step)
                     +:+ " in run " +:+ uuid_to_string (step_run_id step)
                     +:+ ", expected step " +:+ uuid_to_string (pt_step_id pending)
                     +:+ " in run " +:+ uuid_to_string (run_id run)))
      else
        let! pending_input := lift (map_err (λ _, AgentRuntimeError.InconsistentState
            ("pending tool " +:+ uuid_to_string (pt_step_id pending)
             +:+ " has non-canonical arguments")) (canonicalize (pt_arguments pending))) in
        let pending_input_digest := digest OperationInput pending_input in
        if negb (bool_decide (step_operation step = pt_operation pending))
           || negb (bool_decide (step_version step = pt_version pending))
           || negb (bool_decide (step_input_digest step = pending_input_digest))
        then ret (inl (request_text
               +:+ " resolved to a step that does not match the pending operation"))
        else ret (inr (step, pending_input_digest))
  end.

(** The signed request, if it is for the pending call. *)
Definition approved_request (run : AgentRun) (pending : PendingToolCall) (request_id : Uuid)
    (step : AgentRunStep) (pending_input_digest : ContentDigest)
    : rt (string + SignedApprovalRequest) :=
  let! found := stored (st_load_approval_request (rt_stores self) request_id) in
  let! request := lift (ok_or found (AgentRuntimeError.InconsistentState
                          ("approval request not found: " +:+ uuid_to_string request_id))) in
  let b := sr_body request in
  if negb (bool_decide (ar_id b = request_id))
  then ret (inl ("approval lookup " +:+ uuid_to_string request_id +:+ " returned request "
                 +:+ uuid_to_string (ar_id b)))
  else if negb (bool_decide (ar_requested_by b = run_actor run))
          || negb (bool_decide (ar_requested_by b = kp_principal_id (rt_identity self)))
          || negb (bool_decide (ar_operation b = pt_operation pending))
          || negb (bool_decide (ar_operation b = step_operation step))
          || negb (bool_decide (ar_version b = pt_version pending))
          || negb (bool_decide (ar_version b = step_version step))
          || negb (bool_decide (ar_input_digest b = pending_input_digest))
          || negb (bool_decide (ar_input_digest b = step_input_digest step))
  then ret (inl ("approval request " +:+ uuid_to_string request_id
                 +:+ " does not match the pending run actor and tool call"))
  else ret (inr request).

(** The step is claimed for execution, or was claimed by an execution that is stored. *)
Definition claim_step (step : AgentRunStep) (stored_execution : option ApprovalExecution)
    : rt (string + AgentRunStep * bool) :=
  let step_text := uuid_to_string (step_id step) in
  match step_status step with
  | StepStatus.WaitingForApproval =>
      let! at_ := now in
      let! step := on_step (step_resume_from_approval at_) step in
      let! _ := save_step step in
      ret (inr (step, true))
  | (StepStatus.Running | StepStatus.Succeeded) as status =>
      if is_some stored_execution then ret (inr (step, false))
      else if bool_decide (status = StepStatus.Running)
      then ret (inl ("approved tool " +:+ step_text
                     +:+ " was already in flight; refusing unsafe replay"))
      else ret (inl ("approval step " +:+ step_text +:+ " cannot resume from "
                     +:+ StepStatus.debug status))
  | status =>
      ret (inl ("approval step " +:+ step_text +:+ " cannot resume from "
                +:+ StepStatus.debug status))
  end.

(** The output of an execution that is already stored. *)
Definition reconcile_execution (run : AgentRun) (agent : AgentDefinition)
    (state : AgentRuntimeState) (pending : PendingToolCall) (step : AgentRunStep)
    (grant : ApprovalGrant) (approver : Principal) (execution : ApprovalExecution)
    : rt resumed :=
  let failed error := ret (ResumeFailed error, run, state) in
  match verify_for_execution grant (rt_identity self) approver (pt_operation pending)
          (pt_version pending) (pt_arguments pending) (kp_principal_id (rt_identity self))
          (ae_executed_at execution) with
  | Panic => lift Panic
  | Err error => failed (ApprovalError_to_string error)
  | Ok _ =>
      if negb (bool_decide (pb_timestamp (body (ae_proof execution))
                            = ae_executed_at execution))
      then failed "stored approval execution timestamp does not match its proof"
      else
        let! at_ := now in
        let! exceeded := lift (duration_budget_error agent state at_) in
        match exceeded with
        | Some reason => ret (ResumeBudgetExceeded reason, run, state)
        | None =>
            let! step :=
              if bool_decide (step_status step = StepStatus.Running) then
                let! at_ := now in
                let! step := on_step (step_succeed (ae_output execution) (ae_proof execution)
                                        at_) step in
                let! _ := save_step step in
                ret step
              else ret step in
            if negb (bool_decide (step_status step = StepStatus.Succeeded))
            then failed ("approval step " +:+ uuid_to_string (step_id step)
                         +:+ " cannot reconcile from " +:+ StepStatus.debug (step_status step))
            else match validate_output pending (ae_output execution) with
                 | Panic => lift Panic
                 | Err error => failed error
                 | Ok _ =>
                     let! state := record_tool_success state step (ae_output execution) in
                     ret (Continue, run, state)
                 end
        end
  end.

(** The approved call is executed. *)
Definition execute_approved (run : AgentRun) (agent : AgentDefinition)
    (state : AgentRuntimeState) (pending : PendingToolCall) (request_id : Uuid)
    (step : AgentRunStep) (grant : ApprovalGrant) (approver : Principal) : rt resumed :=
  let failed error := ret (ResumeFailed error, run, state) in
  let! timestamp := now in
  let! exceeded := lift (duration_budget_error agent state timestamp) in
  match exceeded with
  | Some reason => ret (ResumeBudgetExceeded reason, run, state)
  | None =>
      let context := execution_context timestamp in
      let! executed := executed
        (ToolExecuted (step_id step) (pt_operation pending) (pt_version pending)
           (pt_arguments pending) context (Some grant))
        (execute_with_approval_evidenced (rt_engine self) (pt_operation pending)
           (pt_version pending) (pt_arguments pending) context grant approver) in
      match executed with
      | Panic => lift Panic
      | Err error =>
          let! at_ := now in
          let! step := on_step (step_fail (ExecutionError.to_string error) at_) step in
          let! _ := save_step step in
          failed (ExecutionError.to_string error)
      | Ok outcome =>
          let execution :=
            {| ae_request_id := request_id; ae_executed_at := timestamp;
               ae_output := eo_output outcome; ae_proof := eo_proof outcome |} in
          let! _ := stored (st_save_approval_execution (rt_stores self) execution) in
          let! at_ := now in
          let! step := on_step (step_succeed (eo_output outcome) (eo_proof outcome) at_) step in
          let! _ := save_step step in
          match validate_output pending (eo_output outcome) with
          | Panic => lift Panic
          | Err error => failed error
          | Ok _ =>
              let! state := record_tool_success state step (eo_output outcome) in
              ret (Continue, run, state)
          end
      end
  end.

(** A denied request fails its step. *)
Definition deny (run : AgentRun) (state : AgentRuntimeState) (request_id : Uuid)
    (step : AgentRunStep) (decision : ApprovalDecision) : rt resumed :=
  let reason := default "approval request was denied" (ad_reason decision) in
  if negb (bool_decide (step_status step = StepStatus.WaitingForApproval))
  then ret (ResumeFailed ("denied tool " +:+ uuid_to_string (step_id step)
                          +:+ " was already claimed; refusing duplicate resume"), run, state)
  else
    let! at_ := now in
    let! step := on_step (step_fail reason at_) step in
    let! _ := save_step step in
    let! _ := append_event (run_id run) EventKind.ApprovalResumed
      (approval_resumed_data (step_id step) request_id decision) in
    ret (ResumeFailed reason, run, state).

(** An approved request: the step is claimed, the run goes on, the call is executed. *)
Definition proceed (run : AgentRun) (agent : AgentDefinition) (state : AgentRuntimeState)
    (pending : PendingToolCall) (request_id : Uuid) (step : AgentRunStep)
    (grant : ApprovalGrant) (approver : Principal) : rt resumed :=
  let! stored_execution := stored (st_load_approval_execution (rt_stores self) request_id) in
  let! claimed := claim_step step stored_execution in
  match claimed with
  | inl error => ret (ResumeFailed error, run, state)
  | inr (step, claimed_now) =>
      let! _ := if (claimed_now : bool)
                then append_event (run_id run) EventKind.ApprovalResumed
                       (approval_resumed_data (step_id step) request_id
                          (sd_body (ag_decision grant)))
                else ret () in
      let go run :=
        let! at_ := now in
        let! exceeded := lift (duration_budget_error agent state at_) in
        match exceeded with
        | Some reason => ret (ResumeBudgetExceeded reason, run, state)
        | None =>
            match stored_execution with
            | Some execution =>
                reconcile_execution run agent state pending step grant approver execution
            | None => execute_approved run agent state pending request_id step grant approver
            end
        end in
      match run_status run with
      | RunStatus.WaitingForInput =>
          let! at_ := now in
          let! run := on_run (run_resume at_) run in
          let! _ := save_run run in
          go run
      | RunStatus.Running => go run
      | status =>
          ret (ResumeFailed ("approval run " +:+ uuid_to_string (run_id run)
                             +:+ " cannot resume from " +:+ RunStatus.debug status), run, state)
      end
  end.

Definition resume_approval (run : AgentRun) (agent : AgentDefinition)
    (state : AgentRuntimeState) : rt resumed :=
  let failed error := ret (ResumeFailed error, run, state) in
  let! at_ := now in
  let! exceeded := lift (duration_budget_error agent state at_) in
  match exceeded with
  | Some reason => ret (ResumeBudgetExceeded reason, run, state)
  | None =>
      let! pending := lift (ok_or (rs_pending_tool state)
        (AgentRuntimeError.InconsistentState "waiting run has no pending tool call")) in
      let! request_id := lift (ok_or (pt_approval_request_id pending)
        (AgentRuntimeError.InconsistentState "waiting run has no approval request")) in
      let! found := approved_step run pending request_id in
      match found with
      | inl error => failed error
      | inr (step, pending_input_digest) =>
          let! found := approved_request run pending request_id step pending_input_digest in
          match found with
          | inl error => failed error
          | inr request =>
              let! decision := stored (st_load_approval_decision (rt_stores self) request_id) in
              match decision with
              | None => ret (Waiting (WaitingForApproval run step request), run, state)
              | Some decision =>
                  let decided_by := ad_decided_by (sd_body decision) in
                  let! approver :=
                    stored (st_load_trusted_approver (rt_stores self) decided_by) in
                  match approver with
                  | None => failed ("approval signer is not trusted: "
                                    +:+ uuid_to_string decided_by)
                  | Some approver =>
                      let grant := {| ag_request := request; ag_decision := decision;
                                      ag_approver := approver |} in
                      match verify_decision grant (principal_from_keypair (rt_identity self))
                              approver with
                      | Panic => lift Panic
                      | Err error => failed (ApprovalError_to_string error)
                      | Ok _ =>
                          let! at_ := now in
                          let! exceeded := lift (duration_budget_error agent state at_) in
                          match exceeded with
                          | Some reason => ret (ResumeBudgetExceeded reason, run, state)
                          | None =>
                              if bool_decide (ad_outcome (sd_body decision) = Denied)
                              then deny run state request_id step (sd_body decision)
                              else proceed run agent state pending request_id step grant approver
                          end
                      end
                  end
              end
          end
      end
  end.

(** ** The loop *)

Definition model_requested_data (agent : AgentDefinition) (state : AgentRuntimeState) : json :=
  json_object
    [("model", JString (agent_model agent)); ("model_call", nat_value (rs_model_calls state));
     ("previous_response_id", opt_value JString (rs_previous_response_id state))].

Definition model_responded_data (turn : ModelTurn) : json :=
  json_object
    [("response_id", JString (mt_response_id turn));
     ("decision", ModelDecision_value (mt_decision turn));
     ("usage", ModelUsage_value (mt_usage turn))].

Definition turn_request (agent : AgentDefinition) (tools : list AgentFunctionTool)
    (state : AgentRuntimeState) : ModelTurnRequest :=
  {| mr_model := agent_model agent;
     mr_instructions := runtime_instructions (agent_instructions agent);
     mr_input := rs_next_input state;
     mr_previous_response_id := rs_previous_response_id state; mr_tools := tools;
     mr_max_output_tokens := max_output_tokens_per_call (agent_limits agent) |}.

(** What an iteration of the loop comes to: the run ends, or the loop goes on. *)
Notation flow := (AgentRuntimeOutcome + AgentRuntimeState)%type.

Definition ends (c : rt AgentRuntimeOutcome) : rt flow := let! outcome := c in ret (inl outcome).

(** A tool call of the model. *)
Definition call_tool (run : AgentRun) (agent : AgentDefinition)
    (tools : list AgentFunctionTool) (state : AgentRuntimeState)
    (call_id name : string) (arguments : json) : rt flow :=
  let limits := agent_limits agent in
  if (max_steps limits <=? rs_tool_attempts state)%N
  then ends (fail_run run state ("step budget exceeded: maximum " +:+ pretty (max_steps limits))
               EventKind.BudgetExceeded)
  else
    match List.find (λ tool, bool_decide (ft_name tool = name)) tools with
    | None => ends (fail_run run state ("model requested unapproved tool: " +:+ name)
                      EventKind.Failed)
    | Some tool =>
        let! entry := lift (ok_or (find (rt_registry self) (ft_operation tool) (ft_version tool))
          (AgentRuntimeError.ToolNotRegistered (ft_operation tool) (ft_version tool))) in
        let! at_ := now in
        let! id := new_v7 in
        let! step := lift (map_err AgentRuntimeError.Run
          (AgentRunStep_new (run_id run) (rs_tool_attempts state) (re_operation entry)
             (re_version entry) arguments at_ id)) in
        let! _ := save_step step in
        let! step := on_step (step_start at_) step in
        let! _ := save_step step in
        let! attempts := lift (ok_or (checked_add u32_max (rs_tool_attempts state) 1)
          (AgentRuntimeError.InconsistentState "tool attempt counter overflow")) in
        let pending :=
          {| pt_call_id := call_id; pt_tool_name := name; pt_operation := re_operation entry;
             pt_version := re_version entry; pt_arguments := arguments;
             pt_step_id := step_id step; pt_approval_request_id := None |} in
        let state := set_turn (rs_previous_response_id state) (rs_next_input state)
                       (Some pending) (set_counters (rs_model_calls state) attempts state) in
        let! _ := save_state (run_id run) state in
        let! _ := append_event (run_id run) EventKind.ToolRequested
          (tool_requested_data (step_id step) pending) in
        match validate_schema entry (re_input_schema entry) arguments with
        | Panic => lift Panic
        | Err error =>
            let! state := record_tool_failure step state (schema_error error) in
            ret (inr state)
        | Ok _ =>
            if bool_decide (re_governance entry = HumanOnly)
            then ends (wait_for_approval run step state agent)
            else
              let! executed := execute_agent_tool entry step state in
              match executed with
              | inl error => ends (fail_run run state error EventKind.Failed)
              | inr state => ret (inr state)
              end
        end
    end.

(** One iteration: a model turn and what the model decides. *)
Definition drive_once (run : AgentRun) (agent : AgentDefinition)
    (tools : list AgentFunctionTool) (state : AgentRuntimeState) : rt flow :=
  let! before := now in
  match pre_model_budget_error agent state before with
  | Some reason => ends (fail_run run state reason EventKind.BudgetExceeded)
  | None =>
      let! calls := lift (ok_or (checked_add u32_max (rs_model_calls state) 1)
        (AgentRuntimeError.InconsistentState "model call counter overflow")) in
      let state := set_counters calls (rs_tool_attempts state) state in
      let! _ := save_state (run_id run) state in
      let! _ := append_event (run_id run) EventKind.ModelRequested
                  (model_requested_data agent state) in
      let! answer := complete (run_id run) (turn_request agent tools state) in
      match answer with
      | Panic => lift Panic
      | Err error =>
          ends (fail_run run state (ModelGatewayError.to_string error) EventKind.Failed)
      | Ok turn =>
          match apply_usage (mt_usage turn) state with
          | (Panic, _) => lift Panic
          | (Err reason, state) =>
              ends (fail_run run state reason EventKind.BudgetExceeded)
          | (Ok _, state) =>
              let state := set_turn (Some (mt_response_id turn)) (rs_next_input state)
                             (rs_pending_tool state) state in
              let! _ := append_event (run_id run) EventKind.ModelResponded
                          (model_responded_data turn) in
              let! after := now in
              match post_model_budget_error agent state after with
              | Some reason => ends (fail_run run state reason EventKind.BudgetExceeded)
              | None =>
                  match mt_decision turn with
                  | Finish output =>
                      let state := set_end (Some output) (rs_terminal_error state) state in
                      let! _ := save_state (run_id run) state in
                      ends (finish_terminal_state run state)
                  | ToolCall call_id name arguments =>
                      call_tool run agent tools state call_id name arguments
                  end
              end
          end
      end
  end.

(** [loop]: each iteration counts a model call, so that the limit of model calls bounds
    the iterations. *)
Fixpoint drive_loop (fuel : nat) (run : AgentRun) (agent : AgentDefinition)
    (tools : list AgentFunctionTool) (state : AgentRuntimeState) : rt AgentRuntimeOutcome :=
  match fuel with
  | O => lift Panic
  | Datatypes.S fuel' =>
      let! next := drive_once run agent tools state in
      match next with
      | inl outcome => ret outcome
      | inr state => drive_loop fuel' run agent tools state
      end
  end.

Definition loop_fuel (agent : AgentDefinition) : nat :=
  Datatypes.S (N.to_nat (max_model_calls (agent_limits agent))).

Definition drive (run : AgentRun) (agent : AgentDefinition) (tools : list AgentFunctionTool)
    (state : AgentRuntimeState) : rt AgentRuntimeOutcome :=
  let go := drive_loop (loop_fuel agent) in
  if is_some (rs_final_output state) || is_some (rs_terminal_error state)
  then finish_terminal_state run state
  else if bool_decide (run_status run = RunStatus.WaitingForInput) then
    let! at_ := now in
    let! exceeded := lift (duration_budget_error agent state at_) in
    match exceeded with
    | Some reason => fail_approval_for_budget run state reason
    | None =>
        let! resumed := resume_approval run agent state in
        let '(answer, run, state) := resumed in
        match answer with
        | Waiting outcome => ret outcome
        | Continue => go run agent tools state
        | ResumeFailed error => fail_run run state error EventKind.Failed
        | ResumeBudgetExceeded reason => fail_approval_for_budget run state reason
        end
    end
  else if is_some (rs_pending_tool state) then
    let! reconciled := reconcile_pending_tool state in
    match reconciled with
    | inl error => fail_run run state error EventKind.Failed
    | inr state => go run agent tools state
    end
  else go run agent tools state.

(** ** Evidence of a start *)

(** The rebuilt checkpoint is read for its digest only. *)
Definition rebuilt_digest (run_id : Uuid) (state : json) (checkpoint : AgentCheckpoint)
    : result AgentRuntimeError.t ContentDigest :=
  let? rebuilt := map_err AgentRuntimeError.Run
    (AgentCheckpoint_create run_id (cp_sequence checkpoint) state (cp_created_at checkpoint)
       (cp_id checkpoint)) in
  Ok (cp_state_digest rebuilt).

Definition validate_generic_initial_checkpoint (run : AgentRun)
    (expected_state : AgentRuntimeState) (checkpoint : AgentCheckpoint) : rt () :=
  let expected_value := checkpoint_state expected_state None in
  let! rebuilt := lift (rebuilt_digest (run_id run) expected_value checkpoint) in
  stop AgentRuntimeError.InvalidCheckpoint (run_id run)
    when negb (bool_decide (cp_run_id checkpoint = run_id run))
         || negb (uuid_version_num (cp_id checkpoint) =? 7)%N
         || negb (cp_sequence checkpoint =? 0)%N
         || negb (bool_decide (cp_state checkpoint = expected_value))
         || negb (bool_decide (cp_state_digest checkpoint = rebuilt))
         || (cp_created_at checkpoint <? run_created_at run)%Z;
  let! observed_at := now in
  stop AgentRuntimeError.InvalidCheckpoint (run_id run)
    when (observed_at <? cp_created_at checkpoint)%Z;
  ret ().

Definition validate_generic_started_event (run_id : Uuid) (expected_data : json)
    (checkpoint : option AgentCheckpoint) (event : AgentRunEvent) : rt () :=
  let! _ := lift (validate_exact_event_record run_id EventKind.Started expected_data event) in
  stop AgentRuntimeError.InvalidCheckpoint run_id
    when negb (ev_sequence event =? 0)%N
         || negb (is_some_and checkpoint (λ c, (cp_created_at c <=? ev_created_at event)%Z));
  let! observed_at := now in
  stop AgentRuntimeError.InvalidCheckpoint run_id
    when (observed_at <? ev_created_at event)%Z;
  ret ().

Fixpoint check_checkpoints (run_id : Uuid) (observed_at : DateTime) (index : N)
    (prior : option DateTime) (checkpoints : list AgentCheckpoint)
    : result AgentRuntimeError.t () :=
  match checkpoints with
  | [] => Ok ()
  | checkpoint :: rest =>
      bail AgentRuntimeError.InconsistentState "generic checkpoint sequence exceeds u32"
        when (u32_max <? index)%N;
      let? rebuilt := rebuilt_digest run_id (cp_state checkpoint) checkpoint in
      bail AgentRuntimeError.InvalidCheckpoint run_id
        when negb (bool_decide (cp_run_id checkpoint = run_id))
             || negb (uuid_version_num (cp_id checkpoint) =? 7)%N
             || negb (cp_sequence checkpoint =? index)%N
             || negb (is_runtime_checkpoint checkpoint)
             || negb (bool_decide (cp_state_digest checkpoint = rebuilt))
             || (observed_at <? cp_created_at checkpoint)%Z
             || is_some_and prior (λ prior, cp_created_at checkpoint <? prior)%Z;
      check_checkpoints run_id observed_at (index + 1) (Some (cp_created_at checkpoint)) rest
  end.

Fixpoint check_events (run_id : Uuid) (observed_at : DateTime) (index : N)
    (prior : option DateTime) (events : list AgentRunEvent)
    : result AgentRuntimeError.t () :=
  match events with
  | [] => Ok ()
  | event :: rest =>
      bail AgentRuntimeError.InconsistentState "generic event sequence exceeds u32"
        when (u32_max <? index)%N;
      let? rebuilt := map_err (λ _, AgentRuntimeError.InvalidCheckpoint run_id)
        (AgentRunEvent_create run_id (ev_sequence event) (ev_kind event) (ev_data event)
           (ev_created_at event) (ev_id event)) in
      bail AgentRuntimeError.InvalidCheckpoint run_id
        when negb (bool_decide (ev_run_id event = run_id))
             || negb (uuid_version_num (ev_id event) =? 7)%N
             || negb (ev_sequence event =? index)%N
             || negb (bool_decide (ev_data_digest event = ev_data_digest rebuilt))
             || (observed_at <? ev_created_at event)%Z
             || is_some_and prior (λ prior, ev_created_at event <? prior)%Z;
      check_events run_id observed_at (index + 1) (Some (ev_created_at event)) rest
  end.

Definition validate_generic_evidence_envelopes (run_id : Uuid)
    (checkpoints : list AgentCheckpoint) (events : list AgentRunEvent) : rt () :=
  let! observed_at := now in
  let! _ := lift (check_checkpoints run_id observed_at 0 None checkpoints) in
  lift (check_events run_id observed_at 0 None events).

Definition run_text (run : AgentRun) : string := "agent run " +:+ uuid_to_string (run_id run).

Definition validate_generic_run_identity (run : AgentRun) (agent : AgentDefinition) : rt () :=
  let! observed_at := now in
  stop AgentRuntimeError.InconsistentState
         (run_text run +:+ " does not match a generic runtime start")
    when negb (bool_decide (run_actor run = kp_principal_id (rt_identity self)))
         || negb (bool_decide (run_agent_id run = Some (agent_id agent)))
         || negb (bool_decide (run_mode run = Session))
         || is_blank (run_goal run)
         || negb (uuid_version_num (run_id run) =? 7)%N
         || negb (uuid_version_num (agent_id agent) =? 7)%N
         || (run_created_at run <? agent_created_at agent)%Z
         || (run_updated_at run <? run_created_at run)%Z
         || (observed_at <? run_created_at run)%Z
         || (observed_at <? run_updated_at run)%Z;
  ret ().

Fixpoint reject_bound_requests (run_id : Uuid) (requests : list SignedApprovalRequest)
    : rt () :=
  match requests with
  | [] => ret ()
  | request :: rest =>
      let id := ar_id (sr_body request) in
      let! step := stored (st_find_agent_run_step_by_approval (rt_stores self) id) in
      match step with
      | None => reject_bound_requests run_id rest
      | Some step =>
          if bool_decide (step_run_id step = run_id) then
            let! _ := stored (st_load_approval_execution (rt_stores self) id) in
            inconsistent ("agent run " +:+ uuid_to_string run_id
                          +:+ " has approval evidence during bootstrap")
          else reject_bound_requests run_id rest
      end
  end.

Definition reject_bound_bootstrap_approval_evidence (run_id : Uuid) : rt () :=
  let! requests := stored (st_list_approval_requests (rt_stores self)) in
  reject_bound_requests run_id requests.

Definition reread_exact_run (expected : AgentRun) : rt () :=
  let! reread := stored (st_load_agent_run (rt_stores self) (run_id expected)) in
  let! reread := lift (ok_or reread (AgentRuntimeError.RunNotFound (run_id expected))) in
  stop AgentRuntimeError.InconsistentState
         (run_text expected +:+ " failed exact durable reread")
    when negb (bool_decide (reread = expected));
  ret ().

Definition state (run_id : Uuid) : rt AgentRuntimeState :=
  let invalid := AgentRuntimeError.InvalidCheckpoint run_id in
  let! checkpoints := stored (st_list_agent_checkpoints (rt_stores self) run_id) in
  let! checkpoint := lift (ok_or (List.find is_runtime_checkpoint (reverse checkpoints))
                             (AgentRuntimeError.MissingCheckpoint run_id)) in
  let! runtime := lift (ok_or (value_get "runtime" (cp_state checkpoint)) invalid) in
  lift (ok_or (AgentRuntimeState_of_value runtime) invalid).

Definition exact_run_chronology (run : AgentRun) : bool :=
  match run_status run with
  | RunStatus.Queued =>
      (run_revision run =? 0)%N && (run_retry_count run =? 0)%N
      && (run_updated_at run =? run_created_at run)%Z && is_none (run_completed_at run)
  | RunStatus.Running =>
      (run_revision run =? 1)%N && (run_retry_count run =? 0)%N
      && (run_updated_at run =? run_created_at run)%Z && is_none (run_completed_at run)
  | _ => false
  end.

Definition validate_pristine_generic_bootstrap (run : AgentRun)
    (expected_state : AgentRuntimeState) (expected_started : json)
    (checkpoints : list AgentCheckpoint) (events : list AgentRunEvent) : rt () :=
  stop AgentRuntimeError.InconsistentState
         (run_text run +:+ " has impossible bootstrap run chronology")
    when negb (exact_run_chronology run);
  let! steps := stored (st_list_agent_run_steps (rt_stores self) (run_id run)) in
  let! evaluations := stored (st_list_agent_run_evaluations (rt_stores self) (run_id run)) in
  let! _ := reject_bound_bootstrap_approval_evidence (run_id run) in
  stop AgentRuntimeError.InconsistentState
         (run_text run +:+ " has later step or evaluation evidence during bootstrap")
    when negb (bool_decide (steps = [])) || negb (bool_decide (evaluations = []));
  match checkpoints with
  | [] =>
      stop AgentRuntimeError.InconsistentState
             (run_text run +:+ " has event evidence before its initial checkpoint")
        when negb (bool_decide (events = []));
      ret ()
  | [checkpoint] =>
      let! _ := validate_generic_initial_checkpoint run expected_state checkpoint in
      stop AgentRuntimeError.InconsistentState
             ("queued " +:+ run_text run +:+ " already has a bootstrap checkpoint")
        when negb (bool_decide (run_status run = RunStatus.Running));
      match events with
      | [] => ret ()
      | event :: rest =>
          let! exact_started :=
            if bool_decide (rest = [])
            then succeeds (validate_generic_started_event (run_id run) expected_started
                             (Some checkpoint) event)
            else ret false in
          if (exact_started : bool)
          then inconsistent (run_text run
                             +:+ " complete bootstrap was classified as partial")
          else inconsistent (run_text run +:+ " has conflicting bootstrap event evidence")
      end
  | _ => inconsistent (run_text run +:+ " has duplicate or later bootstrap checkpoints")
  end.

(** A later checkpoint that is an initial one again. *)
Fixpoint duplicate_initial (run : AgentRun) (expected_state : AgentRuntimeState) (first : json)
    (checkpoints : list AgentCheckpoint) : rt bool :=
  match checkpoints with
  | [] => ret false
  | candidate :: rest =>
      if bool_decide (cp_state candidate = first) then ret true
      else
        let! initial := succeeds (validate_generic_initial_checkpoint run expected_state
                                    candidate) in
        if (initial : bool) then ret true else duplicate_initial run expected_state first rest
  end.

Definition validate_complete_generic_bootstrap (run : AgentRun)
    (expected_state : AgentRuntimeState) (expected_started : json)
    (checkpoints : list AgentCheckpoint) (events : list AgentRunEvent) : rt () :=
  let! _ := validate_generic_evidence_envelopes (run_id run) checkpoints events in
  let! checkpoint := lift (ok_or (head checkpoints) (AgentRuntimeError.InconsistentState
                             (run_text run +:+ " is missing bootstrap checkpoint zero"))) in
  let! _ := validate_generic_initial_checkpoint run expected_state checkpoint in
  let! duplicate := duplicate_initial run expected_state (cp_state checkpoint)
                      (drop 1 checkpoints) in
  stop AgentRuntimeError.InconsistentState
         (run_text run +:+ " has duplicate initial checkpoints") when duplicate;
  let! started := lift (ok_or (head events) (AgentRuntimeError.InconsistentState
                          (run_text run +:+ " is missing Started event zero"))) in
  let! _ := validate_generic_started_event (run_id run) expected_started (Some checkpoint)
              started in
  stop AgentRuntimeError.InconsistentState (run_text run +:+ " has duplicate Started events")
    when existsb (λ e, bool_decide (ev_kind e = EventKind.Started)) (drop 1 events);
  let! evaluations := stored (st_list_agent_run_evaluations (rt_stores self) (run_id run)) in
  stop AgentRuntimeError.InconsistentState
         ("running " +:+ run_text run +:+ " has bootstrap-time evaluation evidence")
    when negb (bool_decide (evaluations = []));
  let! steps := stored (st_list_agent_run_steps (rt_stores self) (run_id run)) in
  stop AgentRuntimeError.InconsistentState
         (run_text run +:+ " has impossible completed-bootstrap chronology")
    when negb (match run_status run with
               | RunStatus.Running | RunStatus.WaitingForInput => true
               | _ => false
               end)
         || negb (run_retry_count run =? 0)%N || is_some (run_completed_at run);
  if bool_decide (length checkpoints = 1) then
    let! _ := reject_bound_bootstrap_approval_evidence (run_id run) in
    stop AgentRuntimeError.InconsistentState
           (run_text run +:+ " has later evidence without a post-bootstrap checkpoint")
      when negb (bool_decide (length events = 1)) || negb (bool_decide (steps = []));
    ret ()
  else ret ().

(** ** Evidence of tool calls *)

Definition find_step (id : Uuid) (steps : list AgentRunStep) : option AgentRunStep :=
  List.find (λ s, bool_decide (step_id s = id)) steps.

Definition find_request (step_id : Uuid) (requests : list GenericToolRequestEvidence)
    : option GenericToolRequestEvidence :=
  List.find (λ r, bool_decide (gt_step_id (te_data r) = step_id)) requests.

(** The step of a request: identity, binding and times. *)
Definition request_step_matches (run : AgentRun) (step : AgentRunStep) (ordinal : N)
    (parsed : GenericToolRequestedEvent) (input_digest : ContentDigest)
    (started_at event_created_at observed_at : DateTime) : bool :=
  let terminal_chronology :=
    if StepStatus.is_terminal (step_status step)
    then is_some_and (step_completed_at step)
           (λ completed_at, (completed_at =? step_updated_at step)%Z
                            && (started_at <=? completed_at)%Z
                            && (completed_at <=? observed_at)%Z)
    else is_none (step_completed_at step) in
  (uuid_version_num (step_id step) =? 7)%N
  && bool_decide (step_run_id step = run_id run)
  && (step_ordinal step =? ordinal)%N && (step_attempt step =? 1)%N
  && is_none (step_retry_of step)
  && bool_decide (step_operation step = gt_operation parsed)
  && bool_decide (step_version step = gt_version parsed)
  && bool_decide (step_input_digest step = input_digest)
  && (run_created_at run <=? step_created_at step)%Z
  && (step_created_at step <=? started_at)%Z
  && (started_at <=? step_updated_at step)%Z
  && (step_updated_at step <=? observed_at)%Z
  && (started_at <=? event_created_at)%Z
  && terminal_chronology.

Definition step_payload_matches (step : AgentRunStep) : bool :=
  match step_status step with
  | StepStatus.Running | StepStatus.WaitingForApproval =>
      is_none (step_output step) && is_none (step_proof step) && is_none (step_error step)
  | StepStatus.Succeeded =>
      is_some (step_output step) && is_some (step_proof step) && is_none (step_error step)
  | StepStatus.Failed =>
      is_none (step_output step) && is_none (step_proof step)
      && is_some_and (step_error step) (λ error, negb (is_blank error))
  | _ => false
  end.

Fixpoint collect_requests (run : AgentRun) (agent : AgentDefinition)
    (steps : list AgentRunStep) (observed_at : DateTime) (step_ids : list Uuid)
    (call_ids : list string) (requests : list GenericToolRequestEvidence)
    (events : list AgentRunEvent)
    : result AgentRuntimeError.t (list GenericToolRequestEvidence) :=
  let invalid detail := AgentRuntimeError.InconsistentState
    (run_text run +:+ " has unproven tool request evidence: " +:+ detail) in
  match events with
  | [] => Ok requests
  | event :: rest =>
      let? parsed := ok_or (GenericToolRequestedEvent_of_value (ev_data event))
                       (invalid "ToolRequested data is not exact") in
      bail invalid "tool step or call binding is empty or duplicated"
        when is_blank (gt_call_id parsed) || is_blank (gt_tool parsed)
             || bool_decide (gt_step_id parsed ∈ step_ids)
             || bool_decide (gt_call_id parsed ∈ call_ids);
      let ordinal := N.of_nat (length requests) in
      bail invalid "tool request ordinal exceeds u32" when (u32_max <? ordinal)%N;
      let? step := ok_or (find_step (gt_step_id parsed) steps)
                     (invalid "tool request step is missing") in
      let? canonical := map_err (λ _, invalid "tool request arguments are not canonical")
                          (canonicalize (gt_arguments parsed)) in
      let? started_at := ok_or (step_started_at step)
                           (invalid "tool request step was never started") in
      bail invalid "tool request does not match its durable step chronology"
        when negb (request_step_matches run step ordinal parsed
                     (digest OperationInput canonical) started_at (ev_created_at event)
                     observed_at);
      bail invalid "tool step payload does not match its status"
        when negb (step_payload_matches step);
      let? entry := ok_or (find (rt_registry self) (gt_operation parsed) (gt_version parsed))
                      (invalid "tool request registry entry is missing") in
      bail invalid "tool request is not an exact allowed model tool"
        when negb (existsb (λ allowed,
                      bool_decide (tool_operation allowed = gt_operation parsed)
                      && bool_decide (tool_version allowed = gt_version parsed))
                     (agent_tools agent))
             || negb (bool_decide (gt_tool parsed = tool_name entry));
      collect_requests run agent steps observed_at (gt_step_id parsed :: step_ids)
        (gt_call_id parsed :: call_ids)
        (requests ++ [{| te_sequence := ev_sequence event; te_data := parsed |}]) rest
  end.

Definition collect_generic_tool_requests (run : AgentRun) (agent : AgentDefinition)
    (events : list AgentRunEvent) (steps : list AgentRunStep)
    : rt (list GenericToolRequestEvidence) :=
  let! observed_at := now in
  let! requests := lift (collect_requests run agent steps observed_at [] [] []
                           (of_kind EventKind.ToolRequested events)) in
  stop AgentRuntimeError.InconsistentState
         (run_text run +:+ " has unproven tool request evidence: "
          +:+ "durable steps and ToolRequested events are not one-to-one")
    when negb (bool_decide (length requests = length steps));
  ret requests.

Definition validate_generic_proof (run : AgentRun) (step : AgentRunStep) (output : json)
    (proof : Proof_) (earliest latest : DateTime) : result AgentRuntimeError.t () :=
  let? canonical := map_err (λ _, AgentRuntimeError.InconsistentState
                                    (run_text run +:+ " tool output is not canonical"))
                      (canonicalize output) in
  let principal := principal_from_keypair (rt_identity self) in
  let b := body proof in
  bail AgentRuntimeError.InconsistentState
         (run_text run +:+ " tool proof is substituted or invalid")
    when negb (uuid_version_num (pb_id b) =? 7)%N
         || negb (bool_decide (pb_actor b = run_actor run))
         || is_some (pb_delegation_id b)
         || negb (bool_decide (pb_operation b
                               = step_operation step +:+ "::" +:+ step_version step))
         || negb (bool_decide (pb_input_digest b = step_input_digest step))
         || negb (bool_decide (pb_output_digest b = digest OperationOutput canonical))
         || (pb_timestamp b <? earliest)%Z || (latest <? pb_timestamp b)%Z
         || is_some (pb_expires_at b)
         || is_err (Proof_verify proof (pr_public_key principal));
  Ok ().

(** The event and the next model input that the end of a step gives. *)
Definition expected_generic_tool_result (run : AgentRun) (request : GenericToolRequestEvidence)
    (step : AgentRunStep)
    : result AgentRuntimeError.t (option (EventKind.t * json * ModelInput)) :=
  let invalid detail := AgentRuntimeError.InconsistentState
    (run_text run +:+ " has invalid tool result evidence: " +:+ detail) in
  let data := te_data request in
  match step_status step with
  | StepStatus.Succeeded =>
      let? output := ok_or (step_output step) (invalid "succeeded step output is missing") in
      let? proof := ok_or (step_proof step) (invalid "succeeded step proof is missing") in
      let? started_at := ok_or (step_started_at step)
                           (invalid "succeeded step start time is missing") in
      let? completed_at := ok_or (step_completed_at step)
                             (invalid "succeeded step completion time is missing") in
      let? _ := validate_generic_proof run step output proof started_at completed_at in
      let proof_id := Some (pb_id (body proof)) in
      Ok (Some (EventKind.ToolSucceeded,
                tool_succeeded_data (step_id step) (gt_call_id data) (gt_operation data)
                  (gt_version data) proof_id,
                ToolOutput (gt_call_id data) (tool_succeeded_output output proof_id)))
  | StepStatus.Failed =>
      match step_error step with
      | Some error =>
          bail invalid "failed step error is missing" when is_blank error;
          Ok (Some (EventKind.ToolFailed,
                    tool_failed_data (step_id step) (gt_call_id data) error,
                    ToolOutput (gt_call_id data)
                      (tool_failed_output error (gt_operation data) (gt_version data))))
      | None => Err (invalid "failed step error is missing")
      end
  | StepStatus.Running | StepStatus.WaitingForApproval => Ok None
  | _ => Err (invalid "tool result step has an unsupported status")
  end.

(** ** Evidence of approvals *)

Record RequiredApproval := {
  rq_step_id : Uuid;
  rq_request_id : Uuid;
  rq_request : SignedApprovalRequest;
  rq_sequence : N;
  rq_created_at : DateTime;
}.

Record ResumedApproval := {
  rd_step_id : Uuid;
  rd_request_id : Uuid;
  rd_outcome : ApprovalOutcome;
  rd_sequence : N;
  rd_created_at : DateTime;
}.

(** The approvals that the events speak of, and the one that is not decided yet. *)
Record ApprovalEvents := {
  ap_required : list RequiredApproval;
  ap_resumed : list ResumedApproval;
  ap_outstanding : option RequiredApproval;
}.

Definition approval_invalid (run : AgentRun) (detail : string) : AgentRuntimeError.t :=
  AgentRuntimeError.InconsistentState
    (run_text run +:+ " has unproven approval evidence: " +:+ detail).

Definition same_approval (step_id request_id step_id' request_id' : Uuid) : bool :=
  bool_decide (step_id = step_id') || bool_decide (request_id = request_id').

(** An [ApprovalRequired] event. *)
Definition check_required (run : AgentRun) (events : list AgentRunEvent)
    (steps : list AgentRunStep) (tool_requests : list GenericToolRequestEvidence)
    (seen : ApprovalEvents) (event : AgentRunEvent) : rt ApprovalEvents :=
  let invalid detail := approval_invalid run detail in
  stop invalid "approval requests overlap" when is_some (ap_outstanding seen);
  let! parsed := lift (ok_or (GenericApprovalRequiredEvent_of_value (ev_data event))
                         (invalid "ApprovalRequired data is not exact")) in
  stop invalid "approval request event is duplicated"
    when existsb (λ r, same_approval (rq_step_id r) (rq_request_id r) (ga_step_id parsed)
                         (ga_request_id parsed)) (ap_required seen);
  let! tool := lift (ok_or (find_request (ga_step_id parsed) tool_requests)
                       (invalid "approval request has no tool request")) in
  let! step := lift (ok_or (find_step (ga_step_id parsed) steps)
                       (invalid "approval request step is missing")) in
  stop invalid "approval request event is not bound to its tool step"
    when (ev_sequence event <=? te_sequence tool)%N
         || negb (bool_decide (ga_operation parsed = gt_operation (te_data tool)))
         || negb (bool_decide (ga_version parsed = gt_version (te_data tool)))
         || negb (bool_decide (step_approval_request_id step = Some (ga_request_id parsed)));
  let! _ :=
    if bool_decide (run_status run = RunStatus.Running) then
      let! rebound := stored (st_find_agent_run_step_by_approval (rt_stores self)
                                (ga_request_id parsed)) in
      let! rebound := lift (ok_or rebound
                              (invalid "approval request has no durable step binding")) in
      stop invalid "approval request resolves to a substituted step"
        when negb (bool_decide (rebound = step));
      ret ()
    else ret () in
  let! request := stored (st_load_approval_request (rt_stores self) (ga_request_id parsed)) in
  let! request := lift (ok_or request (invalid "signed approval request is missing")) in
  let b := sr_body request in
  stop invalid "signed approval request data or chronology differs"
    when negb (bool_decide (ar_id b = ga_request_id parsed))
         || negb (uuid_version_num (ar_id b) =? 7)%N
         || negb (bool_decide (ar_operation b = ga_operation parsed))
         || negb (bool_decide (ar_version b = ga_version parsed))
         || negb (bool_decide (ar_expires_at b = ga_expires_at parsed))
         || negb (bool_decide (ar_requested_by b = run_actor run))
         || negb (is_some_and (step_started_at step)
                    (λ started_at, (started_at <=? ar_requested_at b)%Z
                                   && (ar_requested_at b <=? step_updated_at step)%Z));
  let! tool_event := lift (ok_or (List.find (λ e, ev_sequence e =? te_sequence tool)%N events)
                             (invalid "tool request event chronology is missing")) in
  stop invalid "signed approval request data or chronology differs"
    when (ar_requested_at b <? ev_created_at tool_event)%Z
         || (ev_created_at event <? ar_requested_at b)%Z;
  let! _ := lift (map_err (λ _, invalid "signed approval request does not authorize the call")
    (verify_for_call request (principal_from_keypair (rt_identity self))
       (gt_operation (te_data tool)) (gt_version (te_data tool)) (gt_arguments (te_data tool))
       (run_actor run) (ev_created_at event))) in
  let required := {| rq_step_id := ga_step_id parsed; rq_request_id := ga_request_id parsed;
                     rq_request := request; rq_sequence := ev_sequence event;
                     rq_created_at := ev_created_at event |} in
  ret {| ap_required := ap_required seen ++ [required]; ap_resumed := ap_resumed seen;
         ap_outstanding := Some required |}.

(** An [ApprovalResumed] event. *)
Definition check_resumed (run : AgentRun) (seen : ApprovalEvents) (event : AgentRunEvent)
    : rt ApprovalEvents :=
  let invalid detail := approval_invalid run detail in
  let! parsed := lift (ok_or (GenericApprovalResumedEvent_of_value (ev_data event))
                         (invalid "ApprovalResumed data is not exact")) in
  let! required := lift (ok_or (ap_outstanding seen)
                           (invalid "approval resume has no unique request event")) in
  stop invalid "approval resume is reordered or substituted"
    when negb (bool_decide (gd_step_id parsed = rq_step_id required))
         || negb (bool_decide (gd_request_id parsed = rq_request_id required))
         || (ev_sequence event <=? rq_sequence required)%N
         || (ev_created_at event <? rq_created_at required)%Z;
  stop invalid "approval resume event is duplicated"
    when existsb (λ r, same_approval (rd_step_id r) (rd_request_id r) (gd_step_id parsed)
                         (gd_request_id parsed)) (ap_resumed seen);
  let! decision := stored (st_load_approval_decision (rt_stores self) (gd_request_id parsed)) in
  let! decision := lift (ok_or decision (invalid "signed approval decision is missing")) in
  let d := sd_body decision in
  stop invalid "approval resume differs from its signed decision"
    when negb (uuid_version_num (ad_id d) =? 7)%N
         || negb (bool_decide (ad_request_id d = gd_request_id parsed))
         || negb (bool_decide (ad_decided_by d = gd_decided_by parsed))
         || negb (bool_decide (ad_outcome d = gd_outcome parsed))
         || (ev_created_at event <? ad_decided_at d)%Z;
  let! approver := stored (st_load_trusted_approver (rt_stores self) (gd_decided_by parsed)) in
  let! approver := lift (ok_or approver (invalid "approval decision signer is not trusted")) in
  let! _ := lift (map_err (λ _, invalid "approval signatures or request binding are invalid")
    (verify_decision {| ag_request := rq_request required; ag_decision := decision;
                        ag_approver := approver |}
       (principal_from_keypair (rt_identity self)) approver)) in
  ret {| ap_required := ap_required seen;
         ap_resumed := ap_resumed seen ++
           [{| rd_step_id := gd_step_id parsed; rd_request_id := gd_request_id parsed;
               rd_outcome := gd_outcome parsed; rd_sequence := ev_sequence event;
               rd_created_at := ev_created_at event |}];
         ap_outstanding := None |}.

Fixpoint check_approval_events (run : AgentRun) (events : list AgentRunEvent)
    (steps : list AgentRunStep) (tool_requests : list GenericToolRequestEvidence)
    (seen : ApprovalEvents) (rest : list AgentRunEvent) : rt ApprovalEvents :=
  match rest with
  | [] => ret seen
  | event :: rest' =>
      let! seen :=
        match ev_kind event with
        | EventKind.ApprovalRequired =>
            check_required run events steps tool_requests seen event
        | EventKind.ApprovalResumed => check_resumed run seen event
        | _ => ret seen
        end in
      check_approval_events run events steps tool_requests seen rest'
  end.

(** The stored execution of an approved call. *)
Definition check_execution (run : AgentRun) (tool_requests : list GenericToolRequestEvidence)
    (step : AgentRunStep) (request_id : Uuid) (request : SignedApprovalRequest) : rt () :=
  let invalid detail := approval_invalid run detail in
  let! execution := stored (st_load_approval_execution (rt_stores self) request_id) in
  match execution with
  | None => ret ()
  | Some execution =>
      let! decision := stored (st_load_approval_decision (rt_stores self) request_id) in
      let! decision := lift (ok_or decision
                               (invalid "approval execution has no signed decision")) in
      let! approver := stored (st_load_trusted_approver (rt_stores self)
                                 (ad_decided_by (sd_body decision))) in
      let! approver := lift (ok_or approver
                               (invalid "approval execution signer is not trusted")) in
      let! tool := lift (ok_or (find_request (step_id step) tool_requests)
                           (invalid "approval execution tool is missing")) in
      let! _ := lift (map_err (λ _, invalid "approval execution is not authorized")
        (verify_for_execution {| ag_request := request; ag_decision := decision;
                                 ag_approver := approver |}
           (rt_identity self) approver (step_operation step) (step_version step)
           (gt_arguments (te_data tool)) (run_actor run) (ae_executed_at execution))) in
      let! _ := lift (validate_generic_proof run step (ae_output execution)
                        (ae_proof execution) (ae_executed_at execution)
                        (ae_executed_at execution)) in
      stop invalid "approval execution differs from its step or proof"
        when negb (bool_decide (ae_request_id execution = request_id))
             || negb (bool_decide (pb_timestamp (body (ae_proof execution))
                                   = ae_executed_at execution))
             || bool_decide (step_status step = StepStatus.Succeeded)
                && (negb (bool_decide (step_output step = Some (ae_output execution)))
                    || negb (bool_decide (step_proof step = Some (ae_proof execution))));
      ret ()
  end.

Definition revision_is_exact (outcome : option ApprovalOutcome) (step : AgentRunStep) : bool :=
  match outcome, step_status step with
  | None, StepStatus.WaitingForApproval => (step_revision step =? 2)%N
  | Some Approved, StepStatus.Running => (step_revision step =? 3)%N
  | Some Approved, status => StepStatus.is_terminal status && (step_revision step =? 4)%N
  | Some Denied, StepStatus.Failed => (step_revision step =? 3)%N
  | _, _ => false
  end.

Fixpoint check_approval_steps (run : AgentRun)
    (tool_requests : list GenericToolRequestEvidence) (seen : ApprovalEvents)
    (steps : list AgentRunStep) : rt () :=
  let invalid detail := approval_invalid run detail in
  match steps with
  | [] => ret ()
  | step :: rest =>
      let! _ :=
        match step_approval_request_id step with
        | None =>
            let expected_revision := if StepStatus.is_terminal (step_status step)
                                     then 2%N else 1%N in
            stop invalid "nonapproval step has an impossible revision"
              when bool_decide (step_status step = StepStatus.WaitingForApproval)
                   || negb (step_revision step =? expected_revision)%N;
            ret ()
        | Some request_id =>
            let here step_id' request_id' :=
              bool_decide (step_id' = step_id step) && bool_decide (request_id' = request_id) in
            let! required :=
              lift (ok_or (List.find (λ r, here (rq_step_id r) (rq_request_id r))
                             (ap_required seen))
                      (invalid "step approval binding has no Required event")) in
            let outcome := rd_outcome <$> List.find (λ r, here (rd_step_id r) (rd_request_id r))
                                            (ap_resumed seen) in
            stop invalid "approval step status or revision is impossible"
              when negb (revision_is_exact outcome step);
            check_execution run tool_requests step request_id (rq_request required)
        end in
      check_approval_steps run tool_requests seen rest
  end.

(** The revision of the run counts a wait and a resume for each decided approval; the
    additions wrap, as in a release build. *)
Definition run_chronology_is_exact (run : AgentRun) (pending : option PendingToolCall)
    (seen : ApprovalEvents) (base_revision : N) : result AgentRuntimeError.t bool :=
  match run_status run with
  | RunStatus.Running =>
      Ok (is_none (ap_outstanding seen)
          && (length (ap_required seen) =? length (ap_resumed seen))%nat
          && (run_revision run =? base_revision)%N
          && match last (ap_resumed seen) with
             | Some r => (rd_created_at r <=? run_updated_at run)%Z
             | None => (run_updated_at run =? run_created_at run)%Z
             end)
  | RunStatus.WaitingForInput =>
      let? required := ok_or (ap_outstanding seen)
        (approval_invalid run "waiting run has no outstanding signed approval") in
      Ok ((length (ap_required seen) =? length (ap_resumed seen) + 1)%nat
          && (run_revision run =? wrapping_add u64_max base_revision 1)%N
          && (run_updated_at run =? ar_requested_at (sr_body (rq_request required)))%Z
          && (run_updated_at run <=? rq_created_at required)%Z
          && is_some_and pending
               (λ p, bool_decide (pt_approval_request_id p = Some (rq_request_id required))))
  | _ => Ok false
  end.

Definition validate_generic_approval_chronology (run : AgentRun) (state : AgentRuntimeState)
    (events : list AgentRunEvent) (steps : list AgentRunStep)
    (tool_requests : list GenericToolRequestEvidence) : rt () :=
  let invalid detail := approval_invalid run detail in
  let! seen := check_approval_events run events steps tool_requests
    {| ap_required := []; ap_resumed := []; ap_outstanding := None |} (drop 1 events) in
  let! _ := check_approval_steps run tool_requests seen steps in
  let resumed_count := N.of_nat (length (ap_resumed seen)) in
  stop invalid "approval resume count exceeds u64" when (u64_max <? resumed_count)%N;
  stop invalid "approval run revision overflow" when (u64_max <? resumed_count * 2 + 1)%N;
  let! exact := lift (run_chronology_is_exact run (rs_pending_tool state) seen
                        (resumed_count * 2 + 1)) in
  stop invalid "run revision is not backed by exact signed approval transitions"
    when negb (run_retry_count run =? 0)%N || is_some (run_completed_at run) || negb exact;
  ret ().

(** ** Evidence of progress *)

(** The tool call without a result at the end of the events; [None] when the events are
    not in the order in which the loop writes them. *)
Fixpoint unanswered_request (tool_requests : list GenericToolRequestEvidence)
    (active : option GenericToolRequestEvidence) (events : list AgentRunEvent)
    : option (option GenericToolRequestEvidence) :=
  match events with
  | [] => Some active
  | event :: rest =>
      match ev_kind event with
      | EventKind.ToolRequested =>
          if is_some active then None
          else unanswered_request tool_requests
                 (List.find (λ r, te_sequence r =? ev_sequence event)%N tool_requests) rest
      | EventKind.ToolSucceeded | EventKind.ToolFailed =>
          unanswered_request tool_requests None rest
      | EventKind.ModelRequested =>
          if is_some active then None else unanswered_request tool_requests active rest
      | _ => unanswered_request tool_requests active rest
      end
  end.

Definition is_approval_kind (kind : EventKind.t) : bool :=
  match kind with EventKind.ApprovalRequired | EventKind.ApprovalResumed => true | _ => false end.

(** The result event that a crash kept from being written is written now. *)
Definition reconcile_missing_generic_tool_result (run : AgentRun) (state : AgentRuntimeState)
    (checkpoints : list AgentCheckpoint) (steps : list AgentRunStep)
    (tool_requests : list GenericToolRequestEvidence) (events : list AgentRunEvent)
    : rt (list AgentRunEvent) :=
  let invalid detail := AgentRuntimeError.InconsistentState
    (run_text run +:+ " cannot reconcile tool result evidence: " +:+ detail) in
  match unanswered_request tool_requests None (drop 1 events) with
  | None | Some None => ret events
  | Some (Some request) =>
      if is_some (rs_pending_tool state)
         || existsb (λ e, (te_sequence request <? ev_sequence e)%N
                          && negb (is_approval_kind (ev_kind e))) events
      then ret events
      else
        let! step := lift (ok_or (find_step (gt_step_id (te_data request)) steps)
                             (invalid "missing result step is absent")) in
        let! expected := lift (expected_generic_tool_result run request step) in
        match expected with
        | None => ret events
        | Some (kind, data, expected_next_input) =>
            let! latest := lift (ok_or (last checkpoints)
                                   (invalid "result checkpoint is missing")) in
            stop invalid "missing event is not backed by the exact post-tool checkpoint"
              when negb (bool_decide (rs_next_input state = expected_next_input))
                   || (cp_created_at latest <? step_updated_at step)%Z
                   || is_some (value_get "terminal_event_kind" (cp_state latest));
            let! _ := append_event (run_id run) kind data in
            let! reread := stored (st_list_agent_run_events (rt_stores self) (run_id run)) in
            let! _ := validate_generic_evidence_envelopes (run_id run) checkpoints reread in
            stop invalid "repaired result event failed exact durable reread"
              when negb ((length reread =? length events + 1)%nat
                         && bool_decide (take (length events) reread = events)
                         && is_some_and (last reread)
                              (λ e, is_ok (validate_exact_event_record (run_id run) kind data
                                             e)));
            ret reread
        end
  end.

(** What the events of a run say of its state. *)
Record Replayed := {
  ry_requested : N;
  ry_responded : N;
  ry_awaiting_response : bool;
  ry_prior_response_id : option string;
  ry_input_tokens : N;
  ry_output_tokens : N;
  ry_total_tokens : N;
  ry_cost_microusd : option N;
  ry_pending_decision : option ModelDecision;
  ry_tool_requested : N;
  ry_active_tool : option GenericToolRequestEvidence;
  ry_latest_next_input : ModelInput;
}.

Definition replay_start (run : AgentRun) : Replayed :=
  {| ry_requested := 0; ry_responded := 0; ry_awaiting_response := false;
     ry_prior_response_id := None; ry_input_tokens := 0; ry_output_tokens := 0;
     ry_total_tokens := 0; ry_cost_microusd := Some 0%N; ry_pending_decision := None;
     ry_tool_requested := 0; ry_active_tool := None;
     ry_latest_next_input := Goal (run_goal run) |}.

Definition evidence_invalid (run : AgentRun) (detail : string) : AgentRuntimeError.t :=
  AgentRuntimeError.InconsistentState
    (run_text run +:+ " has unproven later generic state: " +:+ detail).

Definition replay_model_requested (run : AgentRun) (agent : AgentDefinition) (y : Replayed)
    (event : AgentRunEvent) : result AgentRuntimeError.t Replayed :=
  let invalid detail := evidence_invalid run detail in
  bail invalid "model request order is ambiguous"
    when ry_awaiting_response y || is_some (ry_pending_decision y)
         || is_some (ry_active_tool y);
  let? parsed := ok_or (GenericModelRequestedEvent_of_value (ev_data event))
                   (invalid "model request event is not exact") in
  let? requested := ok_or (checked_add u32_max (ry_requested y) 1)
                      (invalid "model request count overflow") in
  bail invalid "model request event does not match its lineage"
    when negb (bool_decide (gq_model parsed = agent_model agent))
         || negb (gq_model_call parsed =? requested)%N
         || negb (bool_decide (gq_previous_response_id parsed = ry_prior_response_id y));
  Ok {| ry_requested := requested; ry_responded := ry_responded y;
        ry_awaiting_response := true; ry_prior_response_id := ry_prior_response_id y;
        ry_input_tokens := ry_input_tokens y; ry_output_tokens := ry_output_tokens y;
        ry_total_tokens := ry_total_tokens y; ry_cost_microusd := ry_cost_microusd y;
        ry_pending_decision := ry_pending_decision y;
        ry_tool_requested := ry_tool_requested y; ry_active_tool := ry_active_tool y;
        ry_latest_next_input := ry_latest_next_input y |}.

Definition replay_model_responded (run : AgentRun) (y : Replayed) (event : AgentRunEvent)
    : result AgentRuntimeError.t Replayed :=
  let invalid detail := evidence_invalid run detail in
  bail invalid "model response has no unique request"
    when negb (ry_awaiting_response y) || is_some (ry_pending_decision y);
  let? parsed := ok_or (GenericModelRespondedEvent_of_value (ev_data event))
                   (invalid "model response event is not exact") in
  let usage := gr_usage parsed in
  bail invalid "model response usage is inconsistent" when is_blank (gr_response_id parsed);
  let? sum := ok_or (checked_add u64_max (us_input_tokens usage) (us_output_tokens usage))
                (invalid "response token total overflow") in
  bail invalid "model response usage is inconsistent"
    when negb (us_total_tokens usage =? sum)%N;
  let? responded := ok_or (checked_add u32_max (ry_responded y) 1)
                      (invalid "model response count overflow") in
  let? input := ok_or (checked_add u64_max (ry_input_tokens y) (us_input_tokens usage))
                  (invalid "input token total overflow") in
  let? output := ok_or (checked_add u64_max (ry_output_tokens y) (us_output_tokens usage))
                   (invalid "output token total overflow") in
  let? total := ok_or (checked_add u64_max (ry_total_tokens y) (us_total_tokens usage))
                  (invalid "token total overflow") in
  let? cost := match ry_cost_microusd y, us_cost_microusd usage with
               | Some sum, Some cost =>
                   let? cost := ok_or (checked_add u64_max sum cost)
                                  (invalid "cost total overflow") in
                   Ok (Some cost)
               | _, _ => Ok None
               end in
  Ok {| ry_requested := ry_requested y; ry_responded := responded;
        ry_awaiting_response := false; ry_prior_response_id := Some (gr_response_id parsed);
        ry_input_tokens := input; ry_output_tokens := output; ry_total_tokens := total;
        ry_cost_microusd := cost; ry_pending_decision := Some (gr_decision parsed);
        ry_tool_requested := ry_tool_requested y; ry_active_tool := ry_active_tool y;
        ry_latest_next_input := ry_latest_next_input y |}.

Definition with_tool (decision : option ModelDecision) (tool_requested : N)
    (active : option GenericToolRequestEvidence) (next : ModelInput) (y : Replayed) : Replayed :=
  {| ry_requested := ry_requested y; ry_responded := ry_responded y;
     ry_awaiting_response := ry_awaiting_response y;
     ry_prior_response_id := ry_prior_response_id y; ry_input_tokens := ry_input_tokens y;
     ry_output_tokens := ry_output_tokens y; ry_total_tokens := ry_total_tokens y;
     ry_cost_microusd := ry_cost_microusd y; ry_pending_decision := decision;
     ry_tool_requested := tool_requested; ry_active_tool := active;
     ry_latest_next_input := next |}.

Definition replay_tool_requested (run : AgentRun)
    (tool_requests : list GenericToolRequestEvidence) (y : Replayed) (event : AgentRunEvent)
    : result AgentRuntimeError.t Replayed :=
  let invalid detail := evidence_invalid run detail in
  bail invalid "tool request precedes a committed response"
    when ry_awaiting_response y || is_some (ry_active_tool y);
  let? parsed := ok_or (GenericToolRequestedEvent_of_value (ev_data event))
                   (invalid "tool request event is not exact") in
  match ry_pending_decision y with
  | Some (ToolCall call_id name arguments) =>
      bail invalid "tool request differs from the model decision"
        when negb (bool_decide (gt_call_id parsed = call_id))
             || negb (bool_decide (gt_tool parsed = name))
             || negb (bool_decide (gt_arguments parsed = arguments));
      let? evidence := ok_or (tool_requests !! N.to_nat (ry_tool_requested y))
                         (invalid "tool request evidence is missing") in
      let data := te_data evidence in
      bail invalid "tool request evidence changed during validation"
        when negb (te_sequence evidence =? ev_sequence event)%N
             || negb (bool_decide (gt_step_id data = gt_step_id parsed))
             || negb (bool_decide (gt_call_id data = gt_call_id parsed))
             || negb (bool_decide (gt_tool data = gt_tool parsed))
             || negb (bool_decide (gt_operation data = gt_operation parsed))
             || negb (bool_decide (gt_version data = gt_version parsed))
             || negb (bool_decide (gt_arguments data = gt_arguments parsed));
      let? tool_requested := ok_or (checked_add u32_max (ry_tool_requested y) 1)
                               (invalid "tool request count overflow") in
      Ok (with_tool None tool_requested (Some evidence) (ry_latest_next_input y) y)
  | _ => Err (invalid "tool request has no model decision")
  end.

Definition replay_tool_succeeded (run : AgentRun) (steps : list AgentRunStep) (y : Replayed)
    (event : AgentRunEvent) : result AgentRuntimeError.t Replayed :=
  let invalid detail := evidence_invalid run detail in
  bail invalid "tool success bypasses a model transition"
    when ry_awaiting_response y || is_some (ry_pending_decision y);
  let? request := ok_or (ry_active_tool y) (invalid "tool success has no unique request") in
  let data := te_data request in
  let? step := ok_or (find_step (gt_step_id data) steps)
                 (invalid "tool success step is missing") in
  let? expected := expected_generic_tool_result run request step in
  match expected with
  | None => Err (invalid "tool success step is not terminal")
  | Some (kind, expected_data, next_input) =>
      let? parsed := ok_or (GenericToolSucceededEvent_of_value (ev_data event))
                       (invalid "tool success event is not exact") in
      bail invalid "tool success does not match its call, step, and proof"
        when negb (bool_decide (kind = EventKind.ToolSucceeded))
             || negb (bool_decide (gs_step_id parsed = gt_step_id data))
             || negb (bool_decide (gs_call_id parsed = gt_call_id data))
             || negb (bool_decide (gs_operation parsed = gt_operation data))
             || negb (bool_decide (gs_version parsed = gt_version data));
      let? proof := ok_or (step_proof step) (invalid "tool success proof disappeared") in
      bail invalid "tool success does not match its call, step, and proof"
        when negb (bool_decide (gs_proof_id parsed = pb_id (body proof)))
             || (ev_created_at event <? step_updated_at step)%Z
             || negb (bool_decide (ev_data event = expected_data));
      Ok (with_tool (ry_pending_decision y) (ry_tool_requested y) None next_input y)
  end.

Definition replay_tool_failed (run : AgentRun) (steps : list AgentRunStep) (y : Replayed)
    (event : AgentRunEvent) : result AgentRuntimeError.t Replayed :=
  let invalid detail := evidence_invalid run detail in
  bail invalid "tool failure bypasses a model transition"
    when ry_awaiting_response y || is_some (ry_pending_decision y);
  let? request := ok_or (ry_active_tool y) (invalid "tool failure has no unique request") in
  let data := te_data request in
  let? step := ok_or (find_step (gt_step_id data) steps)
                 (invalid "tool failure step is missing") in
  let? expected := expected_generic_tool_result run request step in
  match expected with
  | None => Err (invalid "tool failure step is not terminal")
  | Some (kind, expected_data, next_input) =>
      let? parsed := ok_or (GenericToolFailedEvent_of_value (ev_data event))
                       (invalid "tool failure event is not exact") in
      bail invalid "tool failure does not match its call, step, and error"
        when negb (bool_decide (kind = EventKind.ToolFailed))
             || negb (bool_decide (gf_step_id parsed = gt_step_id data))
             || negb (bool_decide (gf_call_id parsed = gt_call_id data))
             || is_blank (gf_error parsed)
             || (ev_created_at event <? step_updated_at step)%Z
             || negb (bool_decide (ev_data event = expected_data));
      Ok (with_tool (ry_pending_decision y) (ry_tool_requested y) None next_input y)
  end.

Definition replay_event (run : AgentRun) (agent : AgentDefinition) (steps : list AgentRunStep)
    (tool_requests : list GenericToolRequestEvidence) (y : Replayed) (event : AgentRunEvent)
    : result AgentRuntimeError.t Replayed :=
  match ev_kind event with
  | EventKind.ModelRequested => replay_model_requested run agent y event
  | EventKind.ModelResponded => replay_model_responded run y event
  | EventKind.ToolRequested => replay_tool_requested run tool_requests y event
  | EventKind.ToolSucceeded => replay_tool_succeeded run steps y event
  | EventKind.ToolFailed => replay_tool_failed run steps y event
  | EventKind.ApprovalRequired | EventKind.ApprovalResumed =>
      bail evidence_invalid run "approval event has no active tool transition"
        when ry_awaiting_response y || is_some (ry_pending_decision y)
             || is_none (ry_active_tool y);
      Ok y
  | _ =>
      bail evidence_invalid run "later event bypasses an unfinished model transition"
        when ry_awaiting_response y || is_some (ry_pending_decision y)
             || is_some (ry_active_tool y);
      Ok y
  end.

Fixpoint replay_events (run : AgentRun) (agent : AgentDefinition) (steps : list AgentRunStep)
    (tool_requests : list GenericToolRequestEvidence) (y : Replayed)
    (events : list AgentRunEvent) : result AgentRuntimeError.t Replayed :=
  match events with
  | [] => Ok y
  | event :: rest =>
      let? y := replay_event run agent steps tool_requests y event in
      replay_events run agent steps tool_requests y rest
  end.

(** The checkpoint says what the events say. *)
Definition check_counters (run : AgentRun) (state : AgentRuntimeState)
    (steps : list AgentRunStep) (y : Replayed) : result AgentRuntimeError.t () :=
  let invalid detail := evidence_invalid run detail in
  bail invalid "model request may have been dispatched without a durable response"
    when ry_awaiting_response y || negb (ry_requested y =? ry_responded y)%N;
  bail invalid "checkpoint counters do not match immutable events"
    when negb (rs_model_calls state =? ry_requested y)%N
         || negb (rs_input_tokens state =? ry_input_tokens y)%N
         || negb (rs_output_tokens state =? ry_output_tokens y)%N
         || negb (rs_total_tokens state =? ry_total_tokens y)%N
         || negb (bool_decide (rs_cost_microusd state = ry_cost_microusd y))
         || negb (bool_decide (rs_previous_response_id state = ry_prior_response_id y))
         || negb (rs_tool_attempts state =? ry_tool_requested y)%N
         || negb (N.of_nat (length steps) =? ry_tool_requested y)%N
         || negb (bool_decide (rs_next_input state = ry_latest_next_input y));
  match ry_pending_decision y with
  | Some decision =>
      bail invalid "model decision was not durably materialized"
        when negb (is_some (rs_terminal_error state)
                   || match decision with
                      | Finish output => bool_decide (rs_final_output state = Some output)
                      | _ => false
                      end);
      Ok ()
  | None =>
      bail invalid "terminal output has no matching model decision"
        when is_some (rs_final_output state);
      Ok ()
  end.

(** The pending call is the unanswered request and belongs to its step. *)
Definition check_pending (run : AgentRun) (state : AgentRuntimeState)
    (steps : list AgentRunStep) (active : option GenericToolRequestEvidence)
    : result AgentRuntimeError.t () :=
  let invalid detail := evidence_invalid run detail in
  match rs_pending_tool state with
  | Some pending =>
      let? request := ok_or active (invalid "pending tool has no unmatched request event") in
      let request := te_data request in
      let? step := ok_or (find_step (pt_step_id pending) steps)
                     (invalid "pending tool step is missing") in
      let? canonical := map_err (λ _, invalid "pending tool arguments are not canonical")
                          (canonicalize (pt_arguments pending)) in
      bail invalid "pending tool differs from its durable step"
        when negb (bool_decide (step_run_id step = run_id run))
             || negb (bool_decide (step_operation step = pt_operation pending))
             || negb (bool_decide (step_version step = pt_version pending))
             || negb (bool_decide (step_input_digest step = digest OperationInput canonical))
             || negb (bool_decide (pt_step_id pending = gt_step_id request))
             || negb (bool_decide (pt_call_id pending = gt_call_id request))
             || negb (bool_decide (pt_tool_name pending = gt_tool request))
             || negb (bool_decide (pt_operation pending = gt_operation request))
             || negb (bool_decide (pt_version pending = gt_version request))
             || negb (bool_decide (pt_arguments pending = gt_arguments request))
             || negb (bool_decide (pt_approval_request_id pending
                                   = step_approval_request_id step))
             || match step_status step with
                | StepStatus.Running | StepStatus.WaitingForApproval | StepStatus.Succeeded
                | StepStatus.Failed => false
                | _ => true
                end;
      Ok ()
  | None =>
      bail invalid "unresolved tool transition has no pending checkpoint"
        when is_some active;
      bail invalid "nonterminal step has no pending tool state"
        when existsb (λ s, negb (StepStatus.is_terminal (step_status s))) steps;
      Ok ()
  end.

Definition validate_generic_resume_evidence (run : AgentRun) (agent : AgentDefinition)
    (state : AgentRuntimeState) (checkpoints : list AgentCheckpoint)
    (events : list AgentRunEvent) : rt () :=
  let invalid detail := evidence_invalid run detail in
  let! steps := stored (st_list_agent_run_steps (rt_stores self) (run_id run)) in
  let! tool_requests := collect_generic_tool_requests run agent events steps in
  let! _ := validate_generic_approval_chronology run state events steps tool_requests in
  if bool_decide (length checkpoints = 1) && bool_decide (length events = 1)
     && bool_decide (steps = [])
  then stop invalid "exact bootstrap state drifted"
         when negb (bool_decide (state = generic_initial_state run agent));
       ret ()
  else if bool_decide (length events = 1) then
    let initial := generic_initial_state run agent in
    let expected := set_end (rs_final_output initial) (rs_terminal_error state) initial in
    let terminal_marker := last checkpoints ≫= λ c, value_get "terminal_event_kind" (cp_state c) in
    stop invalid "checkpoint advance has no matching immutable event transition"
      when (length checkpoints <? 2)%nat || negb (bool_decide (length steps = 0))
           || is_none (rs_terminal_error state) || negb (bool_decide (state = expected))
           || is_none terminal_marker;
    ret ()
  else
    let! events := reconcile_missing_generic_tool_result run state checkpoints steps
                     tool_requests events in
    let! y := lift (replay_events run agent steps tool_requests (replay_start run)
                      (drop 1 events)) in
    let! _ := lift (check_counters run state steps y) in
    lift (check_pending run state steps (ry_active_tool y)).

(** ** Starting and resuming *)

Definition reconcile_generic_bootstrap (run : AgentRun) (agent : AgentDefinition)
    : rt (AgentRun * AgentRuntimeState) :=
  let! _ := validate_generic_run_identity run agent in
  let! _ := reread_exact_run run in
  let expected_state := generic_initial_state run agent in
  let expected_started := generic_started_event agent run in
  let! checkpoints := stored (st_list_agent_checkpoints (rt_stores self) (run_id run)) in
  let! events := stored (st_list_agent_run_events (rt_stores self) (run_id run)) in
  let! checkpoint_present :=
    match head checkpoints with
    | Some checkpoint =>
        succeeds (validate_generic_initial_checkpoint run expected_state checkpoint)
    | None => ret false
    end in
  let! started_present :=
    match head events with
    | Some event => succeeds (validate_generic_started_event (run_id run) expected_started
                                (head checkpoints) event)
    | None => ret false
    end in
  if checkpoint_present && started_present then
    let! _ := validate_complete_generic_bootstrap run expected_state expected_started
                checkpoints events in
    let! current := state (run_id run) in
    stop AgentRuntimeError.InvalidCheckpoint (run_id run)
      when negb (bool_decide (rs_agent_id current = agent_id agent));
    let! _ := validate_generic_resume_evidence run agent current checkpoints events in
    ret (run, current)
  else
    let! _ := validate_pristine_generic_bootstrap run expected_state expected_started
                checkpoints events in
    let! run :=
      if bool_decide (run_status run = RunStatus.Queued) then
        let! run := on_run (run_start (run_created_at run)) run in
        let! _ := save_run run in
        let! _ := reread_exact_run run in
        ret run
      else ret run in
    let! _ :=
      if bool_decide (checkpoints = []) then
        let! _ := save_state (run_id run) expected_state in
        let! checkpoints := stored (st_list_agent_checkpoints (rt_stores self) (run_id run)) in
        match checkpoints with
        | [checkpoint] => validate_generic_initial_checkpoint run expected_state checkpoint
        | _ => inconsistent (run_text run +:+ " bootstrap checkpoint is not exact-one")
        end
      else ret () in
    let! _ := if bool_decide (events = [])
              then append_event (run_id run) EventKind.Started expected_started
              else ret () in
    let! checkpoints := stored (st_list_agent_checkpoints (rt_stores self) (run_id run)) in
    let! events := stored (st_list_agent_run_events (rt_stores self) (run_id run)) in
    let! _ := validate_complete_generic_bootstrap run expected_state expected_started
                checkpoints events in
    let! reread_state := state (run_id run) in
    stop AgentRuntimeError.InvalidCheckpoint (run_id run)
      when negb (bool_decide (reread_state = expected_state));
    let! _ := validate_generic_resume_evidence run agent reread_state checkpoints events in
    ret (run, reread_state).

(** [start] once the agent is loaded *)
Definition start_agent (agent : AgentDefinition) (goal : string) : rt AgentRuntimeOutcome :=
  let! tools := lift (resolve_tools agent) in
  let! at_ := now in
  let! id := new_v7 in
  let! run := lift (map_err AgentRuntimeError.Run
    (AgentRun_new_for_agent (kp_principal_id (rt_identity self)) (agent_id agent) Session goal
       at_ id)) in
  let! _ := save_run run in
  let! started := reconcile_generic_bootstrap run agent in
  let '(run, current) := started in
  drive run agent tools current.

Definition start (agent_id' : Uuid) (goal : string) : rt AgentRuntimeOutcome :=
  let! agent := load_agent agent_id' in
  start_agent agent goal.

(** [resume] once the run and its agent are loaded *)
Definition resume_agent (id : Uuid) (run : AgentRun) (agent_id' : Uuid) (agent : AgentDefinition)
    : rt AgentRuntimeOutcome :=
  let! tools := lift (resolve_tools agent) in
  match run_status run with
  | RunStatus.Queued | RunStatus.Running =>
      let! started := reconcile_generic_bootstrap run agent in
      let '(run, current) := started in
      drive run agent tools current
  | (RunStatus.Succeeded | RunStatus.Failed | RunStatus.WaitingForInput) as status =>
      let! current := state id in
      stop AgentRuntimeError.InvalidCheckpoint id
        when negb (bool_decide (rs_agent_id current = agent_id'));
      if bool_decide (status = RunStatus.WaitingForInput) then
        let! checkpoints := stored (st_list_agent_checkpoints (rt_stores self) (run_id run)) in
        let! events := stored (st_list_agent_run_events (rt_stores self) (run_id run)) in
        let! _ := validate_complete_generic_bootstrap run (generic_initial_state run agent)
                    (generic_started_event agent run) checkpoints events in
        let! _ := validate_generic_resume_evidence run agent current checkpoints events in
        drive run agent tools current
      else terminal_outcome run current
  | status => throw (AgentRuntimeError.RunNotResumable id status)
  end.

Definition resume (id : Uuid) : rt AgentRuntimeOutcome :=
  let! found := stored (st_load_agent_run (rt_stores self) id) in
  let! run := lift (ok_or found (AgentRuntimeError.RunNotFound id)) in
  let me := kp_principal_id (rt_identity self) in
  stop AgentRuntimeError.ActorMismatch id (uuid_to_string (run_actor run)) (uuid_to_string me)
    when negb (bool_decide (run_actor run = me));
  let! agent_id' := lift (ok_or (run_agent_id run) (AgentRuntimeError.RunMissingAgent id)) in
  let! agent := load_agent agent_id' in
  resume_agent id run agent_id' agent.

(** The calls of the generic path. *)
Inductive RuntimeCall : Type :=
| Start (agent_id : Uuid) (goal : string)
| Resume (run_id : Uuid).

Definition perform (c : RuntimeCall) : rt AgentRuntimeOutcome :=
  match c with
  | Start agent_id goal => start agent_id goal
  | Resume run_id => resume run_id
  end.

End runtime.
