(* ===== verification/AgentRecording.v ===== *)
(** * An agent runtime over recording stores

    The stores of [AgentRuntime] as the recording stores of the kernel
    ([RecordingAgentRunStore], which keeps runs, steps, checkpoints, evaluations, agent
    definitions and events, and [RecordingApprovalStore]), with faults: each operation
    works, or fails without an effect, or has its effect and reports a failure.  A process
    that stops in the middle of a call is one whose operations all fail from there on.
    Identifiers are drawn in increasing order, as [Uuid::now_v7] does; the gateway and the
    clock are arbitrary.

    The second part says what each operation of the stores changes. *)

From S2P Require Import Prelude RustStr Externals Json Canonical Serialized.
From S2P Require Import Evidence Approval Agent AgentRun AgentRunStore AgentModel AgentRuntime.
From stdpp Require Import options.

Inductive fault : Type := Works | FailsBefore | FailsAfter.

Record Recording (G : Type) := {
  rec_runs : RecordingAgentRunStore;
  rec_approvals : RecordingApprovalStore;
  rec_faults : list fault;
  rec_ids : N;
  rec_other : G;
}.

#[global] Arguments rec_runs {G}.
#[global] Arguments rec_approvals {G}.
#[global] Arguments rec_faults {G}.
#[global] Arguments rec_ids {G}.
#[global] Arguments rec_other {G}.

Section recording.
Context {G : Type} `{Externals}.

Notation recording := (Recording G).

Definition set_faults (fs : list fault) (s : recording) : recording :=
  {| rec_runs := rec_runs s; rec_approvals := rec_approvals s; rec_faults := fs;
     rec_ids := rec_ids s; rec_other := rec_other s |}.

Definition faulty {A} (c : call recording string A) : call recording string A := λ s,
  match rec_faults s with
  | [] => c s
  | Works :: fs => c (set_faults fs s)
  | FailsBefore :: fs => (Err "store unavailable", set_faults fs s)
  | FailsAfter :: fs => (Err "store unavailable", (c (set_faults fs s)).2)
  end.

Definition on_runs {A} (c : call RecordingAgentRunStore string A) : call recording string A :=
  faulty (λ s, let '(r, x) := c (rec_runs s) in
    (r, {| rec_runs := x; rec_approvals := rec_approvals s; rec_faults := rec_faults s;
           rec_ids := rec_ids s; rec_other := rec_other s |})).

Definition on_approvals {A} (c : call RecordingApprovalStore string A)
    : call recording string A :=
  faulty (λ s, let '(r, x) := c (rec_approvals s) in
    (r, {| rec_runs := rec_runs s; rec_approvals := x; rec_faults := rec_faults s;
           rec_ids := rec_ids s; rec_other := rec_other s |})).

Lemma on_runs_Ok {A} (c : call RecordingAgentRunStore string A) (r r' : recording) a :
  on_runs c r = (Ok a, r') → (c (rec_runs r)).1 = Ok a.
Proof.
  unfold on_runs, faulty. destruct (rec_faults r) as [|[] fs]; try done; cbn;
    destruct (c (rec_runs r)); by intros [= -> _].
Qed.

Definition recording_stores : Stores recording :=
  {| st_load_agent_definition id := on_runs (rs_load_agent_definition id);
     st_save_agent_run_event e := on_runs (rs_save_agent_run_event e);
     st_list_agent_run_events id := on_runs (rs_list_agent_run_events id);
     st_save_agent_run r := on_runs (save_agent_run r);
     st_load_agent_run id := on_runs (load_agent_run id);
     st_save_agent_run_step t := on_runs (save_agent_run_step t);
     st_load_agent_run_step id := on_runs (load_agent_run_step id);
     st_list_agent_run_steps id := on_runs (list_agent_run_steps id);
     st_find_agent_run_step_by_approval id := on_runs (find_agent_run_step_by_approval id);
     st_save_agent_checkpoint c := on_runs (save_agent_checkpoint c);
     st_list_agent_checkpoints id := on_runs (list_agent_checkpoints id);
     st_save_agent_run_evaluation e := on_runs (save_agent_run_evaluation e);
     st_list_agent_run_evaluations id := on_runs (list_agent_run_evaluations id);
     st_save_approval_request r := on_approvals (save_approval_request r);
     st_load_approval_request id := on_approvals (load_approval_request id);
     st_list_approval_requests := on_approvals list_approval_requests;
     st_load_approval_decision id := on_approvals (load_approval_decision id);
     st_save_approval_execution e := on_approvals (save_approval_execution e);
     st_load_approval_execution id := on_approvals (load_approval_execution id);
     st_load_trusted_approver id := on_approvals (load_trusted_approver id) |}.

Definition with_other (g : G) (s : recording) : recording :=
  {| rec_runs := rec_runs s; rec_approvals := rec_approvals s; rec_faults := rec_faults s;
     rec_ids := rec_ids s; rec_other := g |}.

Definition recording_clock (clock : G → DateTime * G) : Clock recording :=
  {| ck_now s := let '(t, g) := clock (rec_other s) in (t, with_other g s);
     ck_new_v7 s :=
       (rec_ids s, {| rec_runs := rec_runs s; rec_approvals := rec_approvals s;
                      rec_faults := rec_faults s; rec_ids := (rec_ids s + 1)%N;
                      rec_other := rec_other s |}) |}.

Definition recording_gateway (gateway : ModelGateway G) : ModelGateway recording :=
  {| mg_provider := mg_provider gateway;
     mg_complete request s :=
       let '(r, g) := mg_complete gateway request (rec_other s) in (r, with_other g s) |}.

(** A runtime over recording stores, with any clock and gateway. *)
Record over_recording {S W} (self : AgentRuntime S W recording) : Prop := {
  over_stores : rt_stores self = recording_stores;
  over_clock : ∃ clock, rt_clock self = recording_clock clock;
  over_model : ∃ gateway, rt_model self = recording_gateway gateway;
}.

(** ** What the operations change *)

(** An operation that leaves steps, checkpoints, definitions and identifiers alone, and
    keeps runs under their identifiers. *)
Definition spares {A} (c : call recording string A) : Prop := ∀ r,
  let r' := (c r).2 in
  rs_steps (rec_runs r') = rs_steps (rec_runs r)
  ∧ rs_checkpoints (rec_runs r') = rs_checkpoints (rec_runs r)
  ∧ rs_definitions (rec_runs r') = rs_definitions (rec_runs r) ∧ rec_ids r' = rec_ids r
  ∧ ((∀ k x, rs_runs (rec_runs r) !! k = Some x → run_id x = k) →
     ∀ k x, rs_runs (rec_runs r') !! k = Some x → run_id x = k).

Lemma spares_faulty {A} (c : call recording string A) : spares c → spares (faulty c).
Proof.
  intros L r. unfold faulty. destruct (rec_faults r) as [|[] fs]; try apply L.
  all: first [done|apply (L (set_faults fs r))].
Qed.
Lemma spares_approvals {A} (c : call RecordingApprovalStore string A) : spares (on_approvals c).
Proof. apply spares_faulty. intros r. by destruct (c _). Qed.
Lemma spares_runs {A} (c : call RecordingAgentRunStore string A) :
  (∀ s, rs_steps (c s).2 = rs_steps s ∧ rs_checkpoints (c s).2 = rs_checkpoints s
        ∧ rs_definitions (c s).2 = rs_definitions s
        ∧ ((∀ k x, rs_runs s !! k = Some x → run_id x = k) →
           ∀ k x, rs_runs (c s).2 !! k = Some x → run_id x = k)) →
  spares (on_runs c).
Proof.
  intros L. apply spares_faulty. intros r. specialize (L (rec_runs r)).
  destruct (c _). cbn in *. naive_solver.
Qed.
(** The operations of the recording stores, but for saving a step or a checkpoint. *)
Lemma spares_stores :
  (∀ id, spares (st_load_agent_definition recording_stores id))
  ∧ (∀ e, spares (st_save_agent_run_event recording_stores e))
  ∧ (∀ id, spares (st_list_agent_run_events recording_stores id))
  ∧ (∀ r, spares (st_save_agent_run recording_stores r))
  ∧ (∀ id, spares (st_load_agent_run recording_stores id))
  ∧ (∀ id, spares (st_load_agent_run_step recording_stores id))
  ∧ (∀ id, spares (st_list_agent_run_steps recording_stores id))
  ∧ (∀ id, spares (st_find_agent_run_step_by_approval recording_stores id))
  ∧ (∀ id, spares (st_list_agent_checkpoints recording_stores id))
  ∧ (∀ e, spares (st_save_agent_run_evaluation recording_stores e))
  ∧ (∀ id, spares (st_list_agent_run_evaluations recording_stores id)).
Proof.
  split_and!; intros x; apply spares_runs; intros s; try done.
  - unfold rs_save_agent_run_event. destruct (sequence_taken _ _); [done|].
    by destruct (save_once_locked _ _ _ _).
  - unfold save_agent_run. destruct (save_versioned_locked _ _ _ _ _) as [r m] eqn:E.
    split_and!; [done|done|done|]. intros K k y. cbn.
    apply save_versioned_spec in E as [(_ & -> & _)|[(_ & -> & _)|(_ & -> & _)]]; [apply K| |apply K].
    rewrite lookup_insert_Some. intros [[<- <-]|[_ Hk]]; [done|by apply K].
  - unfold find_agent_run_step_by_approval. by destruct (filter _ _) as [|? []].
  - unfold save_agent_run_evaluation. by destruct (save_once_locked _ _ _ _).
Qed.

Lemma spares_approval_store :
  (∀ r, spares (st_save_approval_request recording_stores r))
  ∧ (∀ id, spares (st_load_approval_request recording_stores id))
  ∧ spares (st_list_approval_requests recording_stores)
  ∧ (∀ id, spares (st_load_approval_decision recording_stores id))
  ∧ (∀ e, spares (st_save_approval_execution recording_stores e))
  ∧ (∀ id, spares (st_load_approval_execution recording_stores id))
  ∧ (∀ id, spares (st_load_trusted_approver recording_stores id)).
Proof. split_and!; intros; apply spares_approvals. Qed.

(** Saving a step inserts it, or does nothing and fails. *)
Definition inserts (t : AgentRunStep) (c : call recording string ()) : Prop := ∀ r,
  let r' := (c r).2 in
  rs_checkpoints (rec_runs r') = rs_checkpoints (rec_runs r)
  ∧ rs_definitions (rec_runs r') = rs_definitions (rec_runs r)
  ∧ rs_runs (rec_runs r') = rs_runs (rec_runs r) ∧ rec_ids r' = rec_ids r
  ∧ (rs_steps (rec_runs r') = <[step_id t := t]> (rs_steps (rec_runs r))
     ∨ rs_steps (rec_runs r') = rs_steps (rec_runs r) ∧ (c r).1 ≠ Ok ()).

Lemma inserts_faulty t c : inserts t c → inserts t (faulty c).
Proof.
  intros L r. unfold faulty. destruct (rec_faults r) as [|[] fs]; try apply L.
  - apply (L (set_faults fs r)).
  - split_and!; try done. by right.
  - destruct (L (set_faults fs r)) as (? & ? & ? & ? & [?|[? _]]); split_and!; try done;
      [by left|by right].
Qed.

Lemma inserts_step t : inserts t (st_save_agent_run_step recording_stores t).
Proof.
  apply inserts_faulty. intros r. unfold save_agent_run_step.
  destruct (match rs_steps _ !! step_id t with Some _ => _ | None => _ end);
    [by split_and!; try right|].
  destruct (step_approval_request_id t ≫= _) as [[a u]|]; [by split_and!; try right|].
  destruct (save_versioned_locked _ _ _ _ _) as [x m] eqn:E.
  apply save_versioned_spec in E as [(-> & -> & E)|[(-> & -> & E)|(? & -> & E)]]; cbn;
    (split_and!; try done).
  - left. by rewrite insert_id.
  - by left.
  - right. split; [done|]. by intros ->.
Qed.

(** Saving a checkpoint inserts it, or does nothing and fails, or finds it stored. *)
Definition saves (c : AgentCheckpoint) (f : call recording string ()) : Prop := ∀ y,
  let y' := (f y).2 in
  rs_steps (rec_runs y') = rs_steps (rec_runs y) ∧ rs_runs (rec_runs y') = rs_runs (rec_runs y)
  ∧ rs_definitions (rec_runs y') = rs_definitions (rec_runs y) ∧ rec_ids y' = rec_ids y
  ∧ (rs_checkpoints (rec_runs y') = rs_checkpoints (rec_runs y)
     ∧ ((f y).1 = Ok () → rs_checkpoints (rec_runs y) !! cp_id c = Some c)
     ∨ rs_checkpoints (rec_runs y) !! cp_id c = None
       ∧ rs_checkpoints (rec_runs y') = <[cp_id c := c]> (rs_checkpoints (rec_runs y))).

Lemma saves_checkpoint c : saves c (st_save_agent_checkpoint recording_stores c).
Proof.
  assert (∀ f, saves c f → saves c (faulty f)) as F.
  { intros f Hf y. unfold faulty. destruct (rec_faults y) as [|[] fs]; try apply Hf.
    - apply (Hf (set_faults fs y)).
    - split_and!; try done. by left.
    - destruct (Hf (set_faults fs y)) as (? & ? & ? & ? & [[? _]|?]); split_and!; try done;
        [by left|by right]. }
  apply F. intros y. unfold save_agent_checkpoint.
  destruct (existsb _ _); [split_and!; try done; by left|]. cbn.
  unfold save_once_locked, save_once. destruct (_ !! _) as [e|] eqn:E.
  - case_bool_decide; cbn; (split_and!; try done); left; split; try done; congruence.
  - cbn. split_and!; try done. by right.
Qed.

End recording.
