(* ===== verification/AgentRuntimeProofs.v ===== *)
(** * What the agent runtime asks for, and that it returns

    [tr m t c Q] says of a call of the runtime that it makes at most [m] model calls and
    [t] tool executions, all of them permitted, and that it returns a result with [Q] or an
    error.  It holds for every store, gateway and engine: the theorems do not trust what
    the stores answer.

    [agent_calls_confined]: [start] and [resume] execute only the tools of the agent, with
    the identity of the runtime, human-only ones only under a verified approval of that
    call, and within the budgets.  [agent_calls_return]: they return, because the loop
    counts model calls.  [long_duration_panics]: an agent whose maximum duration is beyond
    the range of [chrono::Duration] makes them panic. *)

From S2P Require Import Prelude RustStr Externals Delegation Json Canonical Serialized.
From S2P Require Import Evidence OperatorCommon StrictDigest Registry Approval.
From S2P Require Import ExecutionStore Engine EngineTotal Agent AgentRun AgentModel AgentRuntime.
From stdpp Require Import options.

#[local] Set Default Proof Using "All".

Create HintDb tr discriminated.

(** ** Counting effects *)

Definition is_model (e : Effect) : Prop :=
  match e with ModelCalled _ _ => True | ToolExecuted _ _ _ _ _ _ => False end.
#[export] Instance is_model_dec e : Decision (is_model e).
Proof. destruct e; apply _. Defined.

Definition model_calls (es : list Effect) : nat := length (filter is_model es).
Definition tool_calls (es : list Effect) : nat := length (filter (λ e, ¬ is_model e) es).

(** The log grew by permitted effects, at most [m] model calls and [t] executions. *)
Definition spends (ok : Effect → Prop) (m t : nat) (l l' : list Effect) : Prop :=
  ∃ es, l' = l ++ es ∧ Forall ok es ∧ model_calls es ≤ m ∧ tool_calls es ≤ t.

Lemma spends_none ok l : spends ok 0 0 l l.
Proof. exists []. by rewrite app_nil_r. Qed.

Lemma spends_app ok m t m' t' l1 l2 l3 :
  spends ok m t l1 l2 → spends ok m' t' l2 l3 → spends ok (m + m') (t + t') l1 l3.
Proof.
  intros (es & -> & F & M & T) (fs & -> & F' & M' & T'). exists (es ++ fs).
  rewrite app_assoc. split; [done|]. split; [by apply Forall_app|].
  unfold model_calls, tool_calls in *. rewrite !filter_app, !length_app. lia.
Qed.

Lemma spends_le ok m t m' t' l l' :
  spends ok m t l l' → m ≤ m' → t ≤ t' → spends ok m' t' l l'.
Proof. intros (es & E & F & M & T) ??. exists es. split_and!; [done|done|lia|lia]. Qed.

(** ** Collaborators that return *)

Record stores_return {R} (st : Stores R) : Prop := {
  ret_load_agent_definition id : total_call (st_load_agent_definition st id);
  ret_save_agent_run_event e : total_call (st_save_agent_run_event st e);
  ret_list_agent_run_events id : total_call (st_list_agent_run_events st id);
  ret_save_agent_run r : total_call (st_save_agent_run st r);
  ret_load_agent_run id : total_call (st_load_agent_run st id);
  ret_save_agent_run_step t : total_call (st_save_agent_run_step st t);
  ret_load_agent_run_step id : total_call (st_load_agent_run_step st id);
  ret_list_agent_run_steps id : total_call (st_list_agent_run_steps st id);
  ret_find_agent_run_step_by_approval id :
    total_call (st_find_agent_run_step_by_approval st id);
  ret_save_agent_checkpoint c : total_call (st_save_agent_checkpoint st c);
  ret_list_agent_checkpoints id : total_call (st_list_agent_checkpoints st id);
  ret_save_agent_run_evaluation e : total_call (st_save_agent_run_evaluation st e);
  ret_list_agent_run_evaluations id : total_call (st_list_agent_run_evaluations st id);
  ret_save_approval_request r : total_call (st_save_approval_request st r);
  ret_load_approval_request id : total_call (st_load_approval_request st id);
  ret_list_approval_requests : total_call (st_list_approval_requests st);
  ret_load_approval_decision id : total_call (st_load_approval_decision st id);
  ret_save_approval_execution e : total_call (st_save_approval_execution st e);
  ret_load_approval_execution id : total_call (st_load_approval_execution st id);
  ret_load_trusted_approver id : total_call (st_load_trusted_approver st id);
}.

Create HintDb returns discriminated.
#[export] Hint Resolve ret_load_agent_definition ret_save_agent_run_event
  ret_list_agent_run_events ret_save_agent_run ret_load_agent_run ret_save_agent_run_step
  ret_load_agent_run_step ret_list_agent_run_steps ret_find_agent_run_step_by_approval
  ret_save_agent_checkpoint ret_list_agent_checkpoints ret_save_agent_run_evaluation
  ret_list_agent_run_evaluations ret_save_approval_request ret_load_approval_request
  ret_list_approval_requests ret_load_approval_decision ret_save_approval_execution
  ret_load_approval_execution ret_load_trusted_approver : returns.

Record returns `{Externals, RuntimeExternals} {S W R} (self : AgentRuntime S W R) : Prop := {
  ret_stores : stores_return (rt_stores self);
  ret_model request : total_call (mg_complete (rt_model self) request);
  ret_engine_store st : e_storage (rt_engine self) = Some st → total_store st;
  ret_handlers op h v input ctx :
    e_handlers (rt_engine self) !! op = Some h → total_call (h_execute_versioned h v input ctx);
  ret_ttl t : is_Some (checked_add_signed t (rt_approval_ttl self));
}.

(** The maximum duration of an agent is a [chrono::Duration]. *)
Definition duration_in_range (agent : AgentDefinition) : Prop :=
  (Z.of_N (max_duration_seconds (agent_limits agent)) ≤ i64_max / 1000)%Z.

(** ** Pure parts never panic *)

Section pure.
Context `{Externals, RuntimeExternals}.

Lemma next_sequence_not_Panic o : next_sequence o ≠ Panic.
Proof. destruct o; simpl; auto with rust. Qed.
Lemma checkpoint_create_not_Panic r q s t i : AgentCheckpoint_create r q s t i ≠ Panic.
Proof. unfold AgentCheckpoint_create. auto with rust. Qed.
Lemma event_create_not_Panic r q k d t i : AgentRunEvent_create r q k d t i ≠ Panic.
Proof. unfold AgentRunEvent_create. auto with rust. Qed.
Lemma evaluation_create_not_Panic r v o s m u t i :
  AgentRunEvaluation_create r v o s m u t i ≠ Panic.
Proof. unfold AgentRunEvaluation_create. auto 10 with rust. Qed.
Lemma step_new_not_Panic r n o v i t d : AgentRunStep_new r n o v i t d ≠ Panic.
Proof. unfold AgentRunStep_new. auto 10 with rust. Qed.
Lemma run_new_not_Panic a g m goal t i : AgentRun_new_for_agent a g m goal t i ≠ Panic.
Proof. unfold AgentRun_new_for_agent, AgentRun_create. auto with rust. Qed.
Lemma request_create_not_Panic o v i t u k d :
  SignedApprovalRequest_create o v i t u k d ≠ Panic.
Proof. unfold SignedApprovalRequest_create, input_digest_of. auto 12 with rust. Qed.
Lemma request_verify_not_Panic r p : SignedApprovalRequest_verify r p ≠ Panic.
Proof. unfold SignedApprovalRequest_verify. auto 10 with rust. Qed.
Lemma verify_for_call_not_Panic r p o v i a t : verify_for_call r p o v i a t ≠ Panic.
Proof.
  unfold verify_for_call, input_digest_of. pose proof (request_verify_not_Panic r p).
  auto 15 with rust.
Qed.
Lemma verify_decision_not_Panic g p q : verify_decision g p q ≠ Panic.
Proof.
  unfold verify_decision, SignedApprovalDecision_verify, SignedApprovalRequest_digest.
  pose proof (request_verify_not_Panic (ag_request g) p). auto 15 with rust.
Qed.
Lemma exact_event_not_Panic r k d e : validate_exact_event_record r k d e ≠ Panic.
Proof. unfold validate_exact_event_record. pose proof event_create_not_Panic. auto with rust. Qed.
Lemma rebuilt_not_Panic r s c : rebuilt_digest r s c ≠ Panic.
Proof. unfold rebuilt_digest. pose proof checkpoint_create_not_Panic. auto with rust. Qed.
Lemma check_checkpoints_not_Panic r t i p l : check_checkpoints r t i p l ≠ Panic.
Proof.
  revert i p. induction l as [|c l IH]; intros i p; cbn [check_checkpoints]; [done|].
  pose proof rebuilt_not_Panic. auto 10 with rust.
Qed.
Lemma check_events_not_Panic r t i p l : check_events r t i p l ≠ Panic.
Proof.
  revert i p. induction l as [|c l IH]; intros i p; cbn [check_events]; [done|].
  pose proof event_create_not_Panic. auto 10 with rust.
Qed.
Lemma step_transition_not_Panic n t s : (step_transition n t s).1 ≠ Panic.
Proof. unfold step_transition. by destruct (negb _). Qed.
Lemma run_transition_not_Panic n t r : (run_transition n t r).1 ≠ Panic.
Proof. unfold run_transition. by destruct (negb _). Qed.
Lemma run_start_not_Panic t r : (run_start t r).1 ≠ Panic.
Proof. apply run_transition_not_Panic. Qed.
Lemma run_wait_not_Panic t r : (run_wait_for_input t r).1 ≠ Panic.
Proof. apply run_transition_not_Panic. Qed.
Lemma run_succeed_not_Panic t r : (run_succeed t r).1 ≠ Panic.
Proof. apply run_transition_not_Panic. Qed.
Lemma run_fail_not_Panic t r : (run_fail t r).1 ≠ Panic.
Proof. apply run_transition_not_Panic. Qed.
Lemma step_resume_not_Panic t s : (step_resume_from_approval t s).1 ≠ Panic.
Proof. apply step_transition_not_Panic. Qed.
Lemma step_after_not_Panic n t s a o p e d :
  ((let! _ := step_transition n t in step_assign a o p e d) s).1 ≠ Panic.
Proof.
  unfold cbind. pose proof (step_transition_not_Panic n t s).
  by destruct (step_transition n t s) as [[] ?].
Qed.
Lemma step_start_not_Panic t s : (step_start t s).1 ≠ Panic.
Proof. apply step_after_not_Panic. Qed.
Lemma step_fail_not_Panic e t s : (step_fail e t s).1 ≠ Panic.
Proof. apply step_after_not_Panic. Qed.
Lemma step_wait_not_Panic a t s : (step_wait_for_approval a t s).1 ≠ Panic.
Proof.
  unfold step_wait_for_approval. destruct (match _ with Some _ => _ | None => _ end); [done|].
  apply step_after_not_Panic.
Qed.
Lemma step_succeed_not_Panic o p t s : (step_succeed o p t s).1 ≠ Panic.
Proof.
  unfold step_succeed. unfold cbind at 1, lift. pose proof (canonicalize_not_Panic o).
  destruct (canonicalize o); cbn [map_err]; [|done|done].
  destruct (_ || _); [done|]. apply step_after_not_Panic.
Qed.
Lemma run_resume_not_Panic t r : (run_resume t r).1 ≠ Panic.
Proof.
  unfold run_resume. case_bool_decide; [|apply run_transition_not_Panic].
  destruct (checked_add _ _ _); [apply run_transition_not_Panic|done].
Qed.
End pure.

#[export] Hint Resolve next_sequence_not_Panic checkpoint_create_not_Panic
  event_create_not_Panic evaluation_create_not_Panic step_new_not_Panic run_new_not_Panic
  request_create_not_Panic verify_for_call_not_Panic verify_decision_not_Panic
  exact_event_not_Panic rebuilt_not_Panic check_checkpoints_not_Panic check_events_not_Panic
  verify_for_execution_not_Panic step_resume_not_Panic run_start_not_Panic
  run_wait_not_Panic run_succeed_not_Panic run_fail_not_Panic
  step_start_not_Panic step_fail_not_Panic step_wait_not_Panic step_succeed_not_Panic
  run_resume_not_Panic : rust.

(** ** Triples *)

Section triples.
Context {S W R : Type} `{Externals, RuntimeExternals}.
Notation rt A := (call (World S W R) AgentRuntimeError.t A).

(** [ok] is what may be asked for; [pan] is whether a panic is accepted. *)
Context (self : AgentRuntime S W R) (ok : Effect → Prop) (pan : Prop).

Definition tr (m t : nat) {A} (c : rt A) (Q : A → Prop) : Prop := ∀ w,
  spends ok m t (w_log w) (w_log (c w).2)
  ∧ match (c w).1 with Ok a => Q a | Err _ => True | Panic => pan end.

Lemma tr_le m t m' t' {A} (c : rt A) (Q Q' : A → Prop) :
  tr m t c Q → m ≤ m' → t ≤ t' → (∀ a, Q a → Q' a) → tr m' t' c Q'.
Proof.
  intros C Hm Ht HQ w. destruct (C w) as [L P]. split; [by eapply spends_le|].
  destruct ((c w).1); auto.
Qed.

Lemma tr_same m t {A} (c : rt A) (Q : A → Prop) : tr 0 0 c Q → tr m t c Q.
Proof. intros C. eapply tr_le; eauto; lia. Qed.

Lemma tr_pure m t {A} (r : result AgentRuntimeError.t A) (Q : A → Prop) :
  (pan ∨ r ≠ Panic) → (∀ a, r = Ok a → Q a) → tr m t (lift r) Q.
Proof.
  intros P HQ. apply tr_same. intros w. split; [apply spends_none|]. cbn.
  destruct r; auto. by destruct P.
Qed.

Lemma tr_ret m t {A} (a : A) (Q : A → Prop) : Q a → tr m t (ret a) Q.
Proof. intros HQ. apply tr_same. intros w. split; [apply spends_none|done]. Qed.

Lemma tr_throw m t {A} e (Q : A → Prop) : tr m t (throw e) Q.
Proof. apply tr_same. intros w. split; [apply spends_none|done]. Qed.

Lemma tr_bind m t m' t' {A B} (c : rt A) (k : A → rt B) P Q :
  tr m t c P → (∀ a, P a → tr m' t' (k a) Q) → tr (m + m') (t + t') (cbind c k) Q.
Proof.
  intros C K w. destruct (C w) as [L P']. unfold cbind. destruct (c w) as [[a|e|] w']; cbn in *.
  - destruct (K a P' w') as [L' Q']. split; [by eapply spends_app|done].
  - split; [eapply spends_le; eauto; lia|done].
  - split; [eapply spends_le; eauto; lia|done].
Qed.

Lemma tr_bind0 m t {A B} (c : rt A) (k : A → rt B) P Q :
  tr 0 0 c P → (∀ a, P a → tr m t (k a) Q) → tr m t (cbind c k) Q.
Proof. apply (tr_bind 0 0 m t). Qed.

Lemma tr_bind_lift m t {A B} (r : result AgentRuntimeError.t A) (k : A → rt B) Q :
  (pan ∨ r ≠ Panic) → (∀ a, r = Ok a → tr m t (k a) Q) → tr m t (cbind (lift r) k) Q.
Proof. intros P K. eapply tr_bind0; [by apply (tr_pure 0 0 r (λ a, r = Ok a))|]. auto. Qed.

Lemma tr_stop m t {A} (b : bool) e (k : rt A) Q :
  (b = false → tr m t k Q) → tr m t (if b then throw e else k) Q.
Proof. destruct b; [intros _; apply tr_throw|auto]. Qed.

Lemma tr_stored m t {A} (c : call R string A) (Q : A → Prop) :
  (pan ∨ total_call c) → (∀ r a r', c r = (Ok a, r') → Q a) → tr m t (stored c) Q.
Proof.
  intros P HQ. apply tr_same. intros w. unfold stored.
  destruct (c (w_rest w)) as [r x] eqn:E. cbn. split; [apply spends_none|].
  destruct r as [a|e|]; cbn; [by eapply HQ|done|]. destruct P as [p|T]; [done|].
  specialize (T (w_rest w)). by rewrite E in T.
Qed.

Lemma tr_now m t : tr m t (now self) (λ _, True).
Proof.
  apply tr_same. intros w. unfold now. destruct (ck_now _ _). split; [apply spends_none|done].
Qed.
Lemma tr_new_v7 m t : tr m t (new_v7 self) (λ _, True).
Proof.
  apply tr_same. intros w. unfold new_v7. destruct (ck_new_v7 _ _).
  split; [apply spends_none|done].
Qed.

Lemma tr_succeeds m t {A} (c : rt A) Q : tr m t c Q → tr m t (succeeds c) (λ _, True).
Proof.
  intros C w. destruct (C w) as [L P]. unfold succeeds.
  destruct (c w) as [[a|e|] w']; cbn in *; done.
Qed.

Lemma tr_record m t {T E} (f : E → AgentRuntimeError.t) (c : call T E ()) x (Q : T → Prop) :
  (c x).1 ≠ Panic → (∀ x', c x = (Ok (), x') → Q x') → tr m t (on_record f c x) Q.
Proof.
  intros P HQ. unfold on_record. destruct (c x) as [[[]|e|] x'] eqn:E'; [|apply tr_throw|done].
  apply tr_ret. auto.
Qed.

Lemma tr_complete run_id request :
  ok (ModelCalled run_id request) → (pan ∨ total_call (mg_complete (rt_model self) request)) →
  tr 1 0 (complete self run_id request) (λ r, r ≠ Panic).
Proof.
  intros O P w. unfold complete.
  destruct (mg_complete (rt_model self) request (w_rest w)) as [r x] eqn:E.
  assert (spends ok 1 0 (w_log w) (w_log w ++ [ModelCalled run_id request])).
  { exists [ModelCalled run_id request]. split; [done|]. split; [by constructor|].
    split; vm_compute; lia. }
  destruct r; cbn; split; try done. destruct P as [p|T]; [done|].
  specialize (T (w_rest w)). by rewrite E in T.
Qed.

Lemma tr_executed effect c :
  ok effect → ¬ is_model effect → (pan ∨ ∀ ids, total_call (c ids)) →
  tr 0 1 (executed self effect c) (λ r, r ≠ Panic).
Proof.
  intros O M P. unfold executed. eapply tr_bind0; [apply tr_new_v7|]. intros token _.
  eapply tr_bind0; [apply tr_new_v7|]. intros proof _ w.
  destruct (c _ (w_engine w)) as [r x] eqn:E.
  assert (spends ok 0 1 (w_log w) (w_log w ++ [effect])).
  { exists [effect]. split; [done|]. split; [by constructor|].
    unfold model_calls, tool_calls.
    rewrite filter_cons_False, filter_cons_True, !filter_nil by done. simpl. lia. }
  destruct r; cbn; split; try done. destruct P as [p|T]; [done|].
  specialize (T {| fresh_claim_token := token; fresh_proof_id := proof |} (w_engine w)).
  by rewrite E in T.
Qed.

Lemma tr_bind_record m t {T E B} (f : E → AgentRuntimeError.t) (c : call T E ()) x
    (k : T → rt B) Q :
  (c x).1 ≠ Panic → (∀ x', c x = (Ok (), x') → tr m t (k x') Q) →
  tr m t (cbind (on_record f c x) k) Q.
Proof.
  intros P K. eapply tr_bind0; [by apply (tr_record 0 0 f c x (λ x', c x = (Ok (), x')))|done].
Qed.

Lemma tr_bind_stored m t {A B} (c : call R string A) (k : A → rt B) Q :
  (pan ∨ total_call c) → (∀ a, tr m t (k a) Q) → tr m t (cbind (stored c) k) Q.
Proof. intros P K. eapply tr_bind0; [by apply (tr_stored 0 0 c (λ _, True))|auto]. Qed.

(** ** The calls without model turns and executions *)

Context (Ret : pan ∨ returns self).

Ltac side :=
  match goal with
  | |- _ ∨ _ => solve [auto with returns]
  | |- _ ∨ _ ≠ Panic => right; solve [auto 20 with rust]
  | Ret : ?p ∨ returns _ |- ?p ∨ _ =>
      let X := fresh in
      destruct Ret as [?|X]; [by left|right; eauto using ret_stores with returns]
  end.

Ltac tr_step :=
  cbv zeta;
  lazymatch goal with
  | |- tr _ _ (cbind (lift _) _) _ => apply tr_bind_lift; [try side|intros ? ?]
  | |- tr _ _ (cbind (stored _) _) _ => apply tr_bind_stored; [side|intros ?]
  | |- tr _ _ (cbind (on_step _ _) _) _ => apply tr_bind_record; [solve [auto with rust]|intros ? ?]
  | |- tr _ _ (cbind (on_run _ _) _) _ => apply tr_bind_record; [solve [auto with rust]|intros ? ?]
  | |- tr _ _ (cbind (if _ then _ else _) _) _ =>
      eapply (tr_bind0 _ _ _ _ (λ _, True)); [|intros ? _]
  | |- tr _ _ (cbind (match _ with _ => _ end) _) _ =>
      eapply (tr_bind0 _ _ _ _ (λ _, True)); [|intros ? _]
  | |- tr _ _ (cbind _ _) _ => eapply tr_bind0; [solve [eauto with tr]|intros ? ?]
  | |- tr _ _ (if _ then throw _ else _) _ => apply tr_stop; intros ?
  | |- tr _ _ (if ?b then _ else _) _ => destruct b eqn:?
  | |- tr _ _ (ret _) _ => apply tr_ret
  | |- tr _ _ (throw _) _ => apply tr_throw
  | |- tr _ _ (inconsistent _) _ => apply tr_throw
  | |- tr _ _ (lift _) _ => apply tr_pure; [try side|intros ? ?]
  | |- tr _ _ (stored _) _ => apply tr_stored; [side|intros ? ? ? ?]
  | |- tr _ _ (match ?x with _ => _ end) _ => destruct x eqn:?
  | |- tr _ _ _ _ => solve [eapply tr_same; eauto with tr]
  end.
Ltac no_panic :=
  match goal with
  | E : ?x = Panic |- _ =>
      exfalso; assert (x ≠ Panic) as N by (auto 20 with rust); exact (N E)
  end.
Ltac tr_tac := repeat tr_step; try done; try no_panic.

Hint Resolve tr_now tr_new_v7 : tr.

Lemma tr_save_run run : tr 0 0 (save_run self run) (λ _, True).
Proof. unfold save_run. tr_tac. Qed.
Lemma tr_save_step step : tr 0 0 (save_step self step) (λ _, True).
Proof. unfold save_step. tr_tac. Qed.
Lemma tr_load_step id : tr 0 0 (load_step self id) (λ _, True).
Proof. unfold load_step. tr_tac. Qed.
Hint Resolve tr_save_run tr_save_step tr_load_step : tr.

Lemma tr_save_checkpoint id s k : tr 0 0 (save_state_checkpoint self id s k) (λ _, True).
Proof. unfold save_state_checkpoint. tr_tac. Qed.
Hint Resolve tr_save_checkpoint : tr.
Lemma tr_save_state id s : tr 0 0 (save_state self id s) (λ _, True).
Proof. unfold save_state. tr_tac. Qed.
Lemma tr_save_terminal_state id s k : tr 0 0 (save_terminal_state self id s k) (λ _, True).
Proof. unfold save_terminal_state. tr_tac. Qed.
Lemma tr_append_event id k d : tr 0 0 (append_event self id k d) (λ _, True).
Proof. unfold append_event. tr_tac. Qed.
Hint Resolve tr_save_state tr_save_terminal_state tr_append_event : tr.

Lemma schema_value_not_Panic entry schema : schema_value self entry schema ≠ Panic.
Proof using self.
  unfold schema_value. repeat first [discriminate|case_match].
Qed.
Hint Resolve schema_value_not_Panic : rust.
Lemma validate_schema_not_Panic entry schema v : validate_schema self entry schema v ≠ Panic.
Proof using self.
  unfold validate_schema. apply rbind_not_Panic; [auto with rust|]. intros a _.
  destruct (validator_new a); auto with rust.
Qed.
Hint Resolve validate_schema_not_Panic : rust.
Lemma validate_output_not_Panic pending v : validate_output self pending v ≠ Panic.
Proof using self. unfold validate_output. auto with rust. Qed.
Hint Resolve validate_output_not_Panic : rust.
Lemma resolve_from_not_Panic names tools : resolve_from self names tools ≠ Panic.
Proof using self.
  revert names. induction tools as [|tool tools IH]; intros names; cbn [resolve_from]; [done|].
  auto 20 with rust.
Qed.

Lemma tr_ensure_evaluation run o b s u : tr 0 0 (ensure_evaluation self run o b s u) (λ _, True).
Proof. unfold ensure_evaluation. tr_tac. Qed.
Lemma tr_exact_terminal_event id k d f l :
  tr 0 0 (exact_terminal_event id k d f l) (λ _, True).
Proof. unfold exact_terminal_event. tr_tac. Qed.
Hint Resolve tr_ensure_evaluation tr_exact_terminal_event : tr.
Lemma tr_ensure_terminal_event id k d : tr 0 0 (ensure_terminal_event self id k d) (λ _, True).
Proof. unfold ensure_terminal_event. tr_tac. Qed.
Hint Resolve tr_ensure_terminal_event : tr.
Lemma tr_seal_failure run s e k : tr 0 0 (seal_failure self run s e k) (λ _, True).
Proof. unfold seal_failure. tr_tac. Qed.
Hint Resolve tr_seal_failure : tr.
Lemma tr_fail_run run s e k : tr 0 0 (fail_run self run s e k) (λ _, True).
Proof. unfold fail_run. tr_tac. Qed.
Hint Resolve tr_fail_run : tr.
Lemma tr_fail_approval run s e : tr 0 0 (fail_approval_for_budget self run s e) (λ _, True).
Proof. unfold fail_approval_for_budget. tr_tac. Qed.
Lemma tr_failure_event_kind id s : tr 0 0 (failure_event_kind self id s) (λ _, True).
Proof. unfold failure_event_kind. tr_tac. Qed.
Hint Resolve tr_fail_approval tr_failure_event_kind : tr.
Lemma tr_finish run s : tr 0 0 (finish_terminal_state self run s) (λ _, True).
Proof. unfold finish_terminal_state. tr_tac. Qed.
Lemma tr_replay_failure run s e : tr 0 0 (replay_terminal_failure self run s e) (λ _, True).
Proof. unfold replay_terminal_failure. tr_tac. Qed.
Hint Resolve tr_finish tr_replay_failure : tr.
Lemma tr_replay_or_seal run s :
  tr 0 0 (replay_or_seal_terminal_failure self run s) (λ _, True).
Proof. unfold replay_or_seal_terminal_failure. tr_tac. Qed.
Hint Resolve tr_replay_or_seal : tr.
Lemma tr_terminal_outcome run s : tr 0 0 (terminal_outcome self run s) (λ _, True).
Proof. unfold terminal_outcome. tr_tac. Qed.

(** A recorded tool result keeps the counters. *)
Definition same_counters (s s' : AgentRuntimeState) : Prop :=
  rs_model_calls s' = rs_model_calls s ∧ rs_tool_attempts s' = rs_tool_attempts s.

Lemma tr_tool_success s step o : tr 0 0 (record_tool_success self s step o) (same_counters s).
Proof. unfold record_tool_success. tr_tac. Qed.
Lemma tr_tool_failure_state s step e :
  tr 0 0 (record_tool_failure_state self s step e) (same_counters s).
Proof. unfold record_tool_failure_state. tr_tac. Qed.
Hint Resolve tr_terminal_outcome tr_tool_success tr_tool_failure_state : tr.
Lemma tr_tool_failure step s e :
  tr 0 0 (record_tool_failure self step s e) (same_counters s).
Proof. unfold record_tool_failure. tr_tac. Qed.
Hint Resolve tr_tool_failure : tr.

Definition same_counters_opt (s : AgentRuntimeState) (r : string + AgentRuntimeState) : Prop :=
  match r with inl _ => True | inr s' => same_counters s s' end.

Lemma tr_reconcile_pending s :
  tr 0 0 (reconcile_pending_tool self s) (same_counters_opt s).
Proof.
  unfold reconcile_pending_tool. tr_tac.
Qed.

Hint Resolve tr_reconcile_pending : tr.

(** ** What may be asked for *)

(** What an agent may do.  The model is the one of the agent, is told of the tools of the
    agent and answers within the limit of a call.  A tool is one of the agent's; it is
    executed with the identity of the runtime, as an agent without a delegation.  A tool
    that is not human-only needs no approval; any other needs the positive decision of a
    trusted approver that verifies, on a request for this operation, version and input. *)
Definition permitted (agent : AgentDefinition) (e : Effect) : Prop :=
  match e with
  | ModelCalled _ request =>
      mr_model request = agent_model agent
      ∧ resolve_tools self agent = Ok (mr_tools request)
      ∧ mr_max_output_tokens request = max_output_tokens_per_call (agent_limits agent)
  | ToolExecuted _ operation version input context approval =>
      (∃ tool, tool ∈ agent_tools agent ∧ tool_operation tool = operation
               ∧ tool_version tool = version)
      ∧ ctx_actor context = kp_principal_id (rt_identity self)
      ∧ ctx_principal_kind context = Some Agent
      ∧ ctx_delegation_id context = None ∧ ctx_delegation_chain context = None
      ∧ match approval with
        | None => ∃ entry, find (rt_registry self) operation version = Some entry
                           ∧ re_governance entry ≠ HumanOnly
        | Some grant =>
            let request := sr_body (ag_request grant) in
            let decision := sd_body (ag_decision grant) in
            verify_decision grant (principal_from_keypair (rt_identity self))
              (ag_approver grant) = Ok ()
            ∧ (∃ r r', st_load_trusted_approver (rt_stores self) (ad_decided_by decision) r
                       = (Ok (Some (ag_approver grant)), r'))
            ∧ ad_outcome decision = Approved
            ∧ ar_operation request = operation ∧ ar_version request = version
            ∧ input_digest_of input = Ok (ar_input_digest request)
        end
  end.

Context (agent : AgentDefinition).
Context (Dur : pan ∨ duration_in_range agent) (Laws : RuntimeExternalsLaws).
Context (entries' : list RegistryEntry) (Reg : Registry_new entries' = Ok (rt_registry self)).
Context (Permitted : ∀ e, permitted agent e → ok e).

Definition agent_tool (operation version : string) : Prop :=
  ∃ tool, tool ∈ agent_tools agent ∧ tool_operation tool = operation
          ∧ tool_version tool = version.

Lemma run_deadline_returns {E} t :
  pan ∨ @run_deadline _ E t (max_duration_seconds (agent_limits agent)) ≠ Panic.
Proof.
  destruct Dur as [p|D]; [by left|right]. unfold run_deadline, duration_in_range in *.
  rewrite (proj2 (Z.leb_le _ _)) by (transitivity (i64_max / 1000)%Z; [done|by compute]).
  rewrite duration_seconds_range by lia. by rewrite (proj2 (Z.leb_le _ _)).
Qed.
Lemma duration_budget_returns {E} s t : pan ∨ @duration_budget_error _ E agent s t ≠ Panic.
Proof.
  destruct (@run_deadline_returns E (rs_started_at s)) as [p|D]; [by left|right].
  unfold duration_budget_error. by apply rbind_not_Panic.
Qed.
Lemma ttl_returns {E} t : pan ∨ @expect E _ (checked_add_signed t (rt_approval_ttl self)) ≠ Panic.
Proof.
  destruct Ret as [p|R']; [by left|right]. by destruct (ret_ttl _ R' t) as [? ->].
Qed.
Hint Resolve run_deadline_returns duration_budget_returns ttl_returns : returns.

Lemma tr_wait_for_approval run step s : tr 0 0 (wait_for_approval self run step s agent) (λ _, True).
Proof. unfold wait_for_approval. tr_tac. Qed.
Hint Resolve tr_wait_for_approval : tr.

(** *** After an approval *)

Lemma tr_approved_step run p id :
  tr 0 0 (approved_step self run p id)
    (λ r, match r with inl _ => True | inr (_, d) => input_digest_of (pt_arguments p) = Ok d end).
Proof.
  unfold approved_step. tr_tac. res_inv. unfold input_digest_of.
  by match goal with E : canonicalize _ = Ok _ |- _ => rewrite E end.
Qed.

Lemma tr_approved_request run p id step d :
  tr 0 0 (approved_request self run p id step d)
    (λ r, match r with
          | inl _ => True
          | inr q => ar_operation (sr_body q) = pt_operation p
                     ∧ ar_version (sr_body q) = pt_version p
                     ∧ ar_input_digest (sr_body q) = d
          end).
Proof. unfold approved_request. tr_tac. res_inv. split_and!; congruence. Qed.

Lemma tr_claim_step step e : tr 0 0 (claim_step self step e) (λ _, True).
Proof. unfold claim_step. tr_tac. Qed.
Hint Resolve tr_approved_step tr_approved_request tr_claim_step : tr.

(** The counters after an answer to an approval are those before it. *)
Definition resumes (s : AgentRuntimeState) (r : resumed) : Prop := same_counters s r.2.

Lemma tr_reconcile_execution run s p step g a e :
  tr 0 0 (reconcile_execution self run agent s p step g a e) (resumes s).
Proof. unfold reconcile_execution. tr_tac. Qed.
Lemma tr_deny run s id step d : tr 0 0 (deny self run s id step d) (resumes s).
Proof. unfold deny. tr_tac. Qed.
Hint Resolve tr_reconcile_execution tr_deny : tr.

Lemma tr_executed_tool step op v input ctx ap (c : FreshIds → call (S * W) ExecutionError.t _) :
  permitted agent (ToolExecuted step op v input ctx (fst <$> ap)) →
  (∀ ids, c ids = let! o := execute_operation (rt_engine self) op v input ctx ap true ids in
                  evidenced o) →
  tr 0 1 (executed self (ToolExecuted step op v input ctx (fst <$> ap)) c) (λ r, r ≠ Panic).
Proof.
  intros P E. apply tr_executed; [auto|by intros []|].
  destruct Ret as [p|R']; [by left|right]. intros ids. rewrite E.
  apply evidenced_total; apply R'.
Qed.

Lemma tr_execute_approved run s p id step g a :
  (∀ t, permitted agent (ToolExecuted (step_id step) (pt_operation p) (pt_version p)
                           (pt_arguments p) (execution_context self t) (Some g))) →
  tr 0 1 (execute_approved self run agent s p id step g a) (resumes s).
Proof.
  intros P. unfold execute_approved. do 2 tr_step. tr_step; [tr_tac|]. cbv zeta.
  eapply (tr_bind 0 1 0 0); [by apply (tr_executed_tool _ _ _ _ _ (Some (g, a)))|].
  intros r Hr. tr_tac.
Qed.

Lemma tr_proceed run s p id step g a :
  (∀ step t, permitted agent (ToolExecuted step (pt_operation p) (pt_version p)
                                (pt_arguments p) (execution_context self t) (Some g))) →
  tr 0 1 (proceed self run agent s p id step g a) (resumes s).
Proof.
  intros P. pose proof (λ run step, tr_execute_approved run s p id step g a (P _)).
  unfold proceed. tr_tac.
Qed.

(** A pending call is of a tool of the agent, and was counted. *)
Definition confirmed (s : AgentRuntimeState) : Prop :=
  match rs_pending_tool s with
  | Some p => agent_tool (pt_operation p) (pt_version p) ∧ (1 ≤ rs_tool_attempts s)%N
  | None => True
  end.

Definition pending_calls (s : AgentRuntimeState) : nat :=
  match rs_pending_tool s with Some _ => 1 | None => 0 end.

Lemma tr_resume_approval run s :
  confirmed s → tr 0 (pending_calls s) (resume_approval self run agent s) (resumes s).
Proof.
  intros C. unfold resume_approval. do 3 tr_step; [tr_tac|].
  apply tr_bind_lift; [side|]. intros p Hp. apply ok_or_Ok in Hp.
  unfold confirmed, pending_calls in *. rewrite Hp in C |- *. destruct C as [T _].
  apply tr_bind_lift; [side|]. intros id _.
  eapply tr_bind0; [apply tr_approved_step|]. intros [e|[step d]] Hd; [tr_tac|].
  eapply tr_bind0; [apply tr_approved_request|]. intros [e|q] Hq; [tr_tac|].
  destruct Hq as (Ho & Hv & Hi).
  apply tr_bind_stored; [side|]. intros [decision|]; [|tr_tac]. cbv zeta.
  eapply tr_bind0.
  { apply (tr_stored 0 0 _ (λ a, ∃ r r', st_load_trusted_approver (rt_stores self)
             (ad_decided_by (sd_body decision)) r = (Ok a, r'))); [side|eauto]. }
  intros [approver|] Ha; [|tr_tac]. tr_step; [|tr_tac|tr_tac].
  do 3 tr_step; [tr_tac|]. tr_step; [tr_tac|]. apply tr_proceed.
  intros step' t'. res_inv. destruct (ad_outcome (sd_body decision)) eqn:Eo; [|done].
  repeat split; cbn; try done; congruence.
Qed.

(** ** The loop *)

Lemma find_exact op v entry :
  find (rt_registry self) op v = Some entry → re_operation entry = op ∧ re_version entry = v.
Proof.
  intros F. by apply (proj2 (Registry_find_exact _ _ Reg)) in F as (_ & <- & <-).
Qed.

Lemma resolve_from_tools names allowed tools tool :
  resolve_from self names allowed = Ok tools → tool ∈ tools →
  ∃ t, t ∈ allowed ∧ tool_operation t = ft_operation tool ∧ tool_version t = ft_version tool.
Proof.
  revert names tools. induction allowed as [|t allowed IH]; intros names tools; cbn [resolve_from].
  - intros [= <-] []%elem_of_nil.
  - intros E. res_inv. intros [->|Ht]%elem_of_cons.
    + match goal with F : find _ _ _ = Some _ |- _ => apply find_exact in F as [-> ->] end.
      exists t. split; [left|done].
    + destruct (IH _ _ ltac:(eassumption) Ht) as (u & Hu & ?). exists u. split; [by right|done].
Qed.

(** What an iteration does to the counters when the loop goes on. *)
Definition counted (m a : N) (r : AgentRuntimeOutcome + AgentRuntimeState) : Prop :=
  match r with
  | inl _ => True
  | inr s => rs_model_calls s = m ∧ rs_tool_attempts s = (a + 1)%N
             ∧ (m ≤ max_model_calls (agent_limits agent))%N
             ∧ (a < max_steps (agent_limits agent))%N
  end.

Lemma tr_ends m t (c : rt AgentRuntimeOutcome) i a :
  tr m t c (λ _, True) → tr m t (ends c) (counted i a).
Proof.
  intros C. unfold ends. rewrite <- (Nat.add_0_r m), <- (Nat.add_0_r t).
  eapply tr_bind; [exact C|]. intros. by apply tr_ret.
Qed.

Lemma tr_execute_agent_tool entry step s :
  (∀ p t, rs_pending_tool s = Some p →
    permitted agent (ToolExecuted (step_id step) (re_operation entry) (re_version entry)
                       (pt_arguments p) (execution_context self t) None)) →
  tr 0 1 (execute_agent_tool self entry step s) (same_counters_opt s).
Proof.
  intros P. unfold execute_agent_tool. apply tr_bind_lift; [side|]. intros p Hp%ok_or_Ok.
  tr_step. eapply (tr_bind 0 1 0 0); [apply (tr_executed_tool _ _ _ _ _ None); [auto|done]|].
  intros r Hr. tr_tac.
Qed.

Definition left_steps (s : AgentRuntimeState) : nat :=
  N.to_nat (max_steps (agent_limits agent) - rs_tool_attempts s).
Definition left_calls (s : AgentRuntimeState) : nat :=
  N.to_nat (max_model_calls (agent_limits agent) - rs_model_calls s).

Lemma tr_call_tool run tools s call_id name args :
  resolve_tools self agent = Ok tools →
  (rs_model_calls s ≤ max_model_calls (agent_limits agent))%N →
  tr 0 (Nat.min 1 (left_steps s)) (call_tool self run agent tools s call_id name args)
    (counted (rs_model_calls s) (rs_tool_attempts s)).
Proof.
  intros T M. unfold call_tool, left_steps. cbv zeta.
  destruct (_ <=? _)%N eqn:L; [by apply tr_same, tr_ends, tr_fail_run|].
  rewrite N.leb_gt in L. replace (Nat.min _ _) with 1 by lia.
  destruct (List.find _ tools) as [tool|] eqn:F; [|by apply tr_same, tr_ends, tr_fail_run].
  apply List.find_some in F as [F _]. apply list_elem_of_In in F.
  apply tr_bind_lift; [side|]. intros entry He%ok_or_Ok.
  destruct (resolve_from_tools _ _ _ _ T F) as (t & Ht & Eo & Ev).
  destruct (find_exact _ _ _ He) as [Eo' Ev'].
  do 6 tr_step. apply tr_bind_lift; [side|]. intros n Hn%ok_or_Ok.
  apply checked_add_Some in Hn as [Hn _]. cbv zeta.
  set (pending := set_turn _ _ _ _).
  assert (∀ s', same_counters pending s' →
                counted (rs_model_calls s) (rs_tool_attempts s) (inr s')) as C.
  { intros s' [E1 E2]. split; [exact E1|split; [rewrite E2; exact Hn|done]]. }
  do 2 tr_step. destruct (validate_schema _ _ _ _) eqn:V; [|tr_tac; auto|no_panic].
  tr_step; [by apply tr_same, tr_ends, tr_wait_for_approval|].
  eapply (tr_bind 0 1 0 0); [apply tr_execute_agent_tool|].
  - intros p t' [= <-]. res_inv. rewrite Eo', Ev'. split_and!; try done; [by exists t|].
    by exists entry.
  - intros [e|s'] Hs; [by apply tr_ends, tr_fail_run|by apply tr_ret, C].
Qed.

Lemma apply_usage_counters u s r s' :
  apply_usage u s = (r, s') → r ≠ Panic ∧ same_counters s s'.
Proof. unfold apply_usage. intros E. repeat case_match; simplify_eq; done. Qed.

Lemma tr_drive_once run tools s :
  resolve_tools self agent = Ok tools →
  tr (Nat.min 1 (left_calls s)) (Nat.min 1 (left_steps s)) (drive_once self run agent tools s)
    (counted (rs_model_calls s + 1) (rs_tool_attempts s)).
Proof.
  intros T. unfold drive_once, left_calls. tr_step.
  destruct (pre_model_budget_error _ _ _) eqn:B; [by apply tr_same, tr_ends, tr_fail_run|].
  unfold pre_model_budget_error in B. destruct (_ <=? _)%N eqn:M in B; [done|].
  rewrite N.leb_gt in M. replace (Nat.min 1 (N.to_nat _)) with 1 by lia. clear B.
  apply tr_bind_lift; [side|]. intros n [-> _]%ok_or_Ok%checked_add_Some. cbv zeta.
  do 2 tr_step. apply (tr_bind 1 0 0 (Nat.min 1 (left_steps s)) _ _ (λ r, r ≠ Panic)).
  { apply tr_complete; [by apply Permitted|]. destruct Ret as [p|R']; [by left|right].
    apply R'. }
  intros [turn|e|] Hr; [|by apply tr_same, tr_ends, tr_fail_run|done].
  destruct (apply_usage _ _) as [u s'] eqn:U.
  apply apply_usage_counters in U as [Hu [C1 C2]]. cbn in C1, C2.
  destruct u as [[]|e|]; [|by apply tr_same, tr_ends, tr_fail_run|done].
  do 2 tr_step. destruct (post_model_budget_error _ _ _); [by apply tr_same, tr_ends, tr_fail_run|].
  destruct (mt_decision turn) as [call_id name args|output].
  - cbv zeta. set (s1 := set_turn _ _ _ _).
    replace (left_steps s) with (left_steps s1) by (unfold left_steps; cbn; by rewrite C2).
    rewrite <- C1, <- C2. apply (tr_call_tool run tools s1); [done|]. cbn. lia.
  - cbv zeta. tr_step. by apply tr_same, tr_ends, tr_finish.
Qed.

(** The fuel is enough: the loop ends when the model calls are used up. *)
Lemma tr_drive_loop fuel run tools s :
  resolve_tools self agent = Ok tools → left_calls s < fuel →
  tr (left_calls s) (left_steps s) (drive_loop self fuel run agent tools s) (λ _, True).
Proof.
  intros T. revert s. induction fuel as [|fuel IH]; intros s L; [lia|]. cbn [drive_loop].
  pose proof (tr_drive_once run tools s T) as D.
  replace (left_calls s) with (Nat.min 1 (left_calls s) + (left_calls s - 1)) by lia.
  replace (left_steps s) with (Nat.min 1 (left_steps s) + (left_steps s - 1)) by lia.
  eapply tr_bind; [exact D|]. intros [o|s'] C; [by apply tr_ret|].
  destruct C as (C1 & C2 & C3 & C4).
  assert (left_calls s' = left_calls s - 1 ∧ left_steps s' = left_steps s - 1
          ∧ left_calls s ≠ 0) as (<- & <- & ?).
  { unfold left_calls, left_steps. rewrite C1, C2. lia. }
  apply IH. unfold left_calls in *. rewrite C1. lia.
Qed.

Lemma tr_drive run tools s :
  resolve_tools self agent = Ok tools → confirmed s →
  tr (left_calls s) (pending_calls s + left_steps s) (drive self run agent tools s) (λ _, True).
Proof.
  intros T C. unfold drive. tr_step; [by apply tr_same, tr_finish|].
  assert (∀ t run s', same_counters s s' →
    tr (left_calls s) (t + left_steps s) (drive_loop self (loop_fuel agent) run agent tools s')
      (λ _, True)) as L.
  { intros t run' s' [C1 C2]. eapply tr_le; [apply (tr_drive_loop _ _ _ s' T)| | |done];
      unfold loop_fuel, left_calls, left_steps; rewrite ?C1, ?C2; lia. }
  tr_step.
  - do 3 tr_step; [by apply tr_same, tr_fail_approval|].
    eapply (tr_bind 0 (pending_calls s)); [by apply tr_resume_approval|].
    intros [[answer run'] s'] Hs. destruct answer; [by apply tr_ret|by apply (L 0)| |].
    + by apply tr_same, tr_fail_run.
    + by apply tr_same, tr_fail_approval.
  - tr_step; [|by apply L].
    eapply tr_bind0; [apply tr_reconcile_pending|].
    intros [e|s'] Hs; [by apply tr_same, tr_fail_run|by apply L].
Qed.

(** ** The evidence of a run *)

Lemma collect_requests_tools run steps t ids calls rs events rs' :
  collect_requests self run agent steps t ids calls rs events = Ok rs' →
  Forall (λ r, agent_tool (gt_operation (te_data r)) (gt_version (te_data r))) rs →
  Forall (λ r, agent_tool (gt_operation (te_data r)) (gt_version (te_data r))) rs'.
Proof.
  revert ids calls rs. induction events as [|e events IH]; intros ids calls rs;
    cbn [collect_requests]; intros E F; res_inv; [done|].
  eapply IH; [eassumption|]. apply Forall_app. split; [done|]. constructor; [|done]. cbn.
  match goal with E : existsb _ _ = true |- _ => apply existsb_exists in E as (tool & Hin & Ht) end.
  res_inv. exists tool. split; [by apply list_elem_of_In|]. by split.
Qed.

Lemma collect_requests_not_Panic run steps t ids calls rs events :
  collect_requests self run agent steps t ids calls rs events ≠ Panic.
Proof using self.
  revert ids calls rs. induction events as [|e events IH]; intros ids calls rs;
    cbn [collect_requests]; auto 30 with rust.
Qed.
Lemma validate_proof_not_Panic run step o p t t' :
  validate_generic_proof self run step o p t t' ≠ Panic.
Proof using self. unfold validate_generic_proof. auto with rust. Qed.
Hint Resolve collect_requests_not_Panic validate_proof_not_Panic : rust.
Lemma expected_result_not_Panic run r step :
  expected_generic_tool_result self run r step ≠ Panic.
Proof using self.
  unfold expected_generic_tool_result. repeat case_match; auto 20 with rust.
Qed.
Hint Resolve expected_result_not_Panic : rust.
Ltac not_panic :=
  cbv zeta;
  repeat first
    [ done
    | apply bail_not_Panic
    | apply rbind_not_Panic; [solve [auto with rust]|intros ? _]
    | apply map_err_not_Panic
    | solve [auto with rust]
    | case_match ].

Lemma replay_event_not_Panic run steps rs y e :
  replay_event self run agent steps rs y e ≠ Panic.
Proof using self.
  unfold replay_event, replay_model_requested, replay_model_responded, replay_tool_requested,
    replay_tool_succeeded, replay_tool_failed.
  destruct (ev_kind e); not_panic.
Qed.
Hint Resolve replay_event_not_Panic : rust.
Lemma replay_events_not_Panic run steps rs y es :
  replay_events self run agent steps rs y es ≠ Panic.
Proof using self.
  revert y. induction es as [|e es IH]; intros y; cbn [replay_events]; auto with rust.
Qed.
Lemma check_counters_not_Panic run s steps y : check_counters run s steps y ≠ Panic.
Proof using self. unfold check_counters. not_panic. Qed.
Lemma check_pending_not_Panic run s steps o : check_pending run s steps o ≠ Panic.
Proof using self. unfold check_pending. not_panic. Qed.
Lemma run_chronology_not_Panic run p y n : run_chronology_is_exact run p y n ≠ Panic.
Proof using self. unfold run_chronology_is_exact. not_panic. Qed.
Hint Resolve replay_events_not_Panic check_counters_not_Panic check_pending_not_Panic
  run_chronology_not_Panic : rust.

Lemma tr_collect run events steps :
  tr 0 0 (collect_generic_tool_requests self run agent events steps)
    (Forall (λ r, agent_tool (gt_operation (te_data r)) (gt_version (te_data r)))).
Proof.
  unfold collect_generic_tool_requests. tr_tac. eapply collect_requests_tools; eauto.
Qed.
Lemma tr_envelopes id cs es : tr 0 0 (validate_generic_evidence_envelopes self id cs es) (λ _, True).
Proof. unfold validate_generic_evidence_envelopes. tr_tac. Qed.
Lemma tr_initial_checkpoint run s c :
  tr 0 0 (validate_generic_initial_checkpoint self run s c) (λ _, True).
Proof. unfold validate_generic_initial_checkpoint. tr_tac. Qed.
Lemma tr_started_event id d c e :
  tr 0 0 (validate_generic_started_event self id d c e) (λ _, True).
Proof. unfold validate_generic_started_event. tr_tac. Qed.
Lemma tr_run_identity run : tr 0 0 (validate_generic_run_identity self run agent) (λ _, True).
Proof. unfold validate_generic_run_identity. tr_tac. Qed.
Lemma tr_reread run : tr 0 0 (reread_exact_run self run) (λ _, True).
Proof. unfold reread_exact_run. tr_tac. Qed.
Lemma tr_state id : tr 0 0 (state self id) (λ _, True).
Proof. unfold state. tr_tac. Qed.
Hint Resolve tr_collect tr_envelopes tr_initial_checkpoint tr_started_event tr_run_identity
  tr_reread tr_state : tr.
Lemma tr_reject_requests id qs : tr 0 0 (reject_bound_requests self id qs) (λ _, True).
Proof. induction qs as [|q qs IH]; cbn [reject_bound_requests]; tr_tac. Qed.
Hint Resolve tr_reject_requests : tr.
Lemma tr_reject id : tr 0 0 (reject_bound_bootstrap_approval_evidence self id) (λ _, True).
Proof. unfold reject_bound_bootstrap_approval_evidence. tr_tac. Qed.
Lemma tr_succeeds_checkpoint run s c :
  tr 0 0 (succeeds (validate_generic_initial_checkpoint self run s c)) (λ _, True).
Proof. eapply tr_succeeds. eauto with tr. Qed.
Lemma tr_succeeds_started id d c e :
  tr 0 0 (succeeds (validate_generic_started_event self id d c e)) (λ _, True).
Proof. eapply tr_succeeds. eauto with tr. Qed.
Hint Resolve tr_reject tr_succeeds_checkpoint tr_succeeds_started : tr.
Lemma tr_pristine run s d cs es :
  tr 0 0 (validate_pristine_generic_bootstrap self run s d cs es) (λ _, True).
Proof. unfold validate_pristine_generic_bootstrap. tr_tac. Qed.
Lemma tr_duplicate run s d cs : tr 0 0 (duplicate_initial self run s d cs) (λ _, True).
Proof. induction cs as [|c cs IH]; cbn [duplicate_initial]; tr_tac. Qed.
Hint Resolve tr_pristine tr_duplicate : tr.
Lemma tr_complete_bootstrap run s d cs es :
  tr 0 0 (validate_complete_generic_bootstrap self run s d cs es) (λ _, True).
Proof. unfold validate_complete_generic_bootstrap. tr_tac. Qed.
Lemma tr_check_required run es steps rs y e :
  tr 0 0 (check_required self run es steps rs y e) (λ _, True).
Proof. unfold check_required. tr_tac. Qed.
Lemma tr_check_resumed run y e : tr 0 0 (check_resumed self run y e) (λ _, True).
Proof. unfold check_resumed. tr_tac. Qed.
Hint Resolve tr_complete_bootstrap tr_check_required tr_check_resumed : tr.
Lemma tr_check_events run es steps rs y l :
  tr 0 0 (check_approval_events self run es steps rs y l) (λ _, True).
Proof. revert y. induction l as [|e l IH]; intros y; cbn [check_approval_events]; tr_tac. Qed.
Lemma tr_check_execution run rs step id q :
  tr 0 0 (check_execution self run rs step id q) (λ _, True).
Proof. unfold check_execution. tr_tac. Qed.
Hint Resolve tr_check_events tr_check_execution : tr.
Lemma tr_check_steps run rs y l : tr 0 0 (check_approval_steps self run rs y l) (λ _, True).
Proof. induction l as [|e l IH]; cbn [check_approval_steps]; tr_tac. Qed.
Hint Resolve tr_check_steps : tr.
Lemma tr_approvals run s es steps rs :
  tr 0 0 (validate_generic_approval_chronology self run s es steps rs) (λ _, True).
Proof. unfold validate_generic_approval_chronology. tr_tac. Qed.
Lemma tr_reconcile_missing run s cs steps rs es :
  tr 0 0 (reconcile_missing_generic_tool_result self run s cs steps rs es) (λ _, True).
Proof. unfold reconcile_missing_generic_tool_result. tr_tac. Qed.
Hint Resolve tr_approvals tr_reconcile_missing : tr.

(** The unanswered request is one of the collected ones, and was counted. *)
Definition active_known (rs : list GenericToolRequestEvidence) (y : Replayed) : Prop :=
  ∀ r, ry_active_tool y = Some r → r ∈ rs ∧ (1 ≤ ry_tool_requested y)%N.

Lemma replay_event_known run steps rs y e y' :
  replay_event self run agent steps rs y e = Ok y' → active_known rs y → active_known rs y'.
Proof using self.
  unfold replay_event, replay_model_requested, replay_model_responded, replay_tool_requested,
    replay_tool_succeeded, replay_tool_failed.
  intros E K. destruct (ev_kind e); res_inv; repeat (case_match; res_inv); try done.
  intros r [= <-]. split; [by eapply list_elem_of_lookup_2|]. cbn.
  match goal with E : checked_add _ _ _ = Some _ |- _ => apply checked_add_Some in E as [-> _] end.
  lia.
Qed.

Lemma replay_events_known run steps rs y es y' :
  replay_events self run agent steps rs y es = Ok y' → active_known rs y → active_known rs y'.
Proof using self.
  revert y. induction es as [|e es IH]; intros y; cbn [replay_events]; intros E K; res_inv; [done|].
  eauto using replay_event_known.
Qed.

Lemma check_pending_confirmed run s steps rs y :
  check_pending run s steps (ry_active_tool y) = Ok () →
  active_known rs y → rs_tool_attempts s = ry_tool_requested y →
  Forall (λ r, agent_tool (gt_operation (te_data r)) (gt_version (te_data r))) rs →
  confirmed s.
Proof using self.
  unfold check_pending, confirmed. intros E K A F. destruct (rs_pending_tool s) as [p|]; [|done].
  res_inv. match goal with E : ry_active_tool y = Some ?r |- _ => apply K in E as [Hin L] end.
  rewrite Forall_forall in F. apply F in Hin. rewrite A. split; [congruence|done].
Qed.

Lemma tr_resume_evidence run s cs es :
  tr 0 0 (validate_generic_resume_evidence self run agent s cs es) (λ _, confirmed s).
Proof.
  unfold validate_generic_resume_evidence. tr_step. eapply tr_bind0; [apply tr_collect|].
  intros rs F. do 2 tr_step; [tr_tac; by res_inv|tr_step].
  - tr_tac. res_inv. unfold confirmed.
    by match goal with E : s = set_end _ _ _ |- _ => rewrite E end.
  - tr_tac. eapply check_pending_confirmed; [by res_inv|..|exact F].
    + eapply replay_events_known; [eassumption|by intros ?].
    + unfold check_counters in *. res_inv.
      by match goal with E : (rs_tool_attempts s =? _)%N = true |- _ => apply N.eqb_eq in E end.
Qed.
Hint Resolve tr_resume_evidence : tr.

(** ** Starting and resuming *)

Lemma tr_bootstrap run :
  tr 0 0 (reconcile_generic_bootstrap self run agent) (λ r, confirmed r.2).
Proof. unfold reconcile_generic_bootstrap. tr_tac. Qed.

(** What is left of the budgets when a call goes on from a confirmed state. *)
Definition call_budget : nat := N.to_nat (max_model_calls (agent_limits agent)).
Definition execution_budget : nat := Nat.max 1 (N.to_nat (max_steps (agent_limits agent))).

Lemma tr_drive_budget run tools s :
  resolve_tools self agent = Ok tools → confirmed s →
  tr call_budget execution_budget (drive self run agent tools s) (λ _, True).
Proof.
  intros T C. eapply tr_le; [by apply tr_drive| | |done].
  - unfold left_calls, call_budget. lia.
  - unfold confirmed, pending_calls, left_steps, execution_budget in *.
    destruct (rs_pending_tool s); lia.
Qed.

Lemma resolve_tools_not_Panic : resolve_tools self agent ≠ Panic.
Proof. apply resolve_from_not_Panic. Qed.
Hint Resolve resolve_tools_not_Panic : rust.

Lemma tr_start_agent goal :
  tr call_budget execution_budget (start_agent self agent goal) (λ _, True).
Proof.
  unfold start_agent. do 5 tr_step. eapply tr_bind0; [apply tr_bootstrap|].
  intros [run s] C. by apply tr_drive_budget.
Qed.

Lemma tr_resume_agent id run id' :
  tr call_budget execution_budget (resume_agent self id run id' agent) (λ _, True).
Proof.
  unfold resume_agent. tr_step. destruct (run_status run) eqn:E; try by tr_tac.
  - eapply tr_bind0; [apply tr_bootstrap|]. intros [run' s] C. by apply tr_drive_budget.
  - eapply tr_bind0; [apply tr_bootstrap|]. intros [run' s] C. by apply tr_drive_budget.
  - do 6 tr_step. eapply tr_bind0; [apply tr_resume_evidence|]. intros [] C.
    by apply tr_drive_budget.
Qed.

End triples.

(** ** The theorems *)

Lemma cbind_assoc {T E A B C} (c : call T E A) (f : A → call T E B) (g : B → call T E C) s :
  cbind (cbind c f) g s = cbind c (λ a, cbind (f a) g) s.
Proof. unfold cbind. by destruct (c s) as [[] ?]. Qed.

(** The agent that a call is for: the one that the store gives for the identifier, which
    the run names when it is resumed. *)
Definition agent_of {S W R} (self : AgentRuntime S W R) (c : RuntimeCall) (w : World S W R)
    (agent : AgentDefinition) : Prop :=
  let load := st_load_agent_definition (rt_stores self) in
  match c with
  | Start id _ => ∃ r', load id (w_rest w) = (Ok (Some agent), r')
  | Resume id =>
      ∃ run r1 agent_id r',
        st_load_agent_run (rt_stores self) id (w_rest w) = (Ok (Some run), r1)
        ∧ run_agent_id run = Some agent_id ∧ load agent_id r1 = (Ok (Some agent), r')
  end.

Section calls.
Context {S W R : Type} `{Externals, RuntimeExternals}.
Notation rt A := (call (World S W R) AgentRuntimeError.t A).
Context (self : AgentRuntime S W R) (pan : Prop) (Laws : RuntimeExternalsLaws).
Context (entries' : list RegistryEntry) (Reg : Registry_new entries' = Ok (rt_registry self)).
Context (Ret : pan ∨ returns self).

(** [x] is the result of a call from [w] that asked for nothing, or that came to a call
    with the agent [P]. *)
Definition reaches (P : AgentDefinition → Prop) (w : World S W R)
    (x : result AgentRuntimeError.t AgentRuntimeOutcome * World S W R) : Prop :=
  (w_log x.2 = w_log w ∧ (x.1 = Panic → pan))
  ∨ ∃ agent (k : rt AgentRuntimeOutcome) w',
      P agent ∧ w_log w' = w_log w ∧ x = k w'
      ∧ (pan ∨ duration_in_range agent →
         tr (permitted self agent) pan (call_budget agent) (execution_budget agent) k (λ _, True)).

Lemma reaches_stored {A} (P : AgentDefinition → Prop) (c : call R string A) (k : A → rt _) w :
  (pan ∨ total_call c) →
  (∀ a r', c (w_rest w) = (Ok a, r') → reaches P (with_rest r' w) (k a (with_rest r' w))) →
  reaches P w (cbind (stored c) k w).
Proof.
  intros T K. unfold cbind, stored. destruct (c (w_rest w)) as [[a|e|] r'] eqn:E; cbn.
  - by apply K.
  - by left.
  - left. split; [done|]. intros _. destruct T as [?|T]; [done|]. by destruct (T (w_rest w)); rewrite E.
Qed.

Lemma reaches_agent (P : AgentDefinition → Prop) id (k : AgentDefinition → rt _) w :
  (∀ agent r', st_load_agent_definition (rt_stores self) id (w_rest w) = (Ok (Some agent), r') →
     P agent) →
  (∀ agent, pan ∨ duration_in_range agent →
     tr (permitted self agent) pan (call_budget agent) (execution_budget agent) (k agent)
       (λ _, True)) →
  reaches P w ((let! agent := load_agent self id in k agent) w).
Proof.
  intros HP K. unfold load_agent. rewrite cbind_assoc. apply reaches_stored.
  { destruct Ret as [?|R']; [by left|right]. apply R'. }
  intros [agent|] r' E; [|by left]. unfold cbind, lift. cbn. destruct (negb _); [by left|].
  right. exists agent, (k agent), (with_rest r' w). split_and!; eauto.
Qed.

Lemma reaches_perform c w : reaches (agent_of self c w) w (perform self c w).
Proof.
  destruct c as [id goal|id]; cbn [perform].
  - apply reaches_agent; [by eexists|]. intros agent D. by eapply tr_start_agent.
  - apply reaches_stored.
    { destruct Ret as [?|R']; [by left|right]. apply R'. }
    intros [run|] r1 E; [|by left]. unfold cbind at 1, lift at 1. cbn [ok_or].
    cbv zeta. destruct (negb _); [by left|].
    destruct (run_agent_id run) as [id'|] eqn:A; [|by left].
    unfold cbind at 1, lift at 1. cbn [ok_or]. apply reaches_agent.
    + intros agent r' L. by exists run, r1, id', r'.
    + intros agent D. by eapply tr_resume_agent.
Qed.
End calls.

(** C6: Confinement of an agent.  Whatever the stores, the gateway, the clock and the engine
    answer, a [start] or [resume] of the runtime asks for nothing, or every request is
    permitted to the agent that the store gave for the call ([permitted]: its model with its
    tools and its output limit; only tools on its list, executed with the identity of the
    runtime as an agent, and without an approval only if the tool is not human-only, else
    under the verified positive decision of a trusted approver on this operation, version
    and input), there are at most [max_model_calls] model calls, and at most [max_steps]
    executions (or one, the approved one, should [max_steps] be zero). *)
Theorem agent_calls_confined {S W R} `{Externals, RuntimeExternals, !RuntimeExternalsLaws}
    (self : AgentRuntime S W R) (es : list RegistryEntry)
    (Reg : Registry_new es = Ok (rt_registry self)) (c : RuntimeCall) (w : World S W R) :
  let w' := (perform self c w).2 in
  w_log w' = w_log w
  ∨ ∃ agent fs, agent_of self c w agent ∧ w_log w' = w_log w ++ fs
      ∧ Forall (permitted self agent) fs
      ∧ model_calls fs ≤ N.to_nat (max_model_calls (agent_limits agent))
      ∧ tool_calls fs ≤ Nat.max 1 (N.to_nat (max_steps (agent_limits agent))).
Proof.
  destruct (reaches_perform self True _ es Reg (or_introl I) c w)
    as [[E _]|(agent & k & w' & A & L & -> & T)]; [by left|right].
  destruct (T (or_introl I) w') as [(fs & E & F & M & T') _].
  exists agent, fs. by rewrite <- L.
Qed.

(** C13: The loop of an agent ends.  If the stores, the gateway, the store of the engine and
    the handlers return, the approval window can be added to the time, and the maximum
    duration of the agent is one that [chrono::Duration] can hold, then [start] and [resume]
    return an outcome or an error: they do not panic, and the loop over model turns, which
    has no bound of its own in the code, does not run out of the [loop_fuel] iterations that
    the model-call budget allows. *)
Theorem agent_calls_return {S W R} `{Externals, RuntimeExternals, !RuntimeExternalsLaws}
    (self : AgentRuntime S W R) (es : list RegistryEntry)
    (Reg : Registry_new es = Ok (rt_registry self)) (Ret : returns self)
    (c : RuntimeCall) (w : World S W R)
    (Dur : ∀ agent, agent_of self c w agent → duration_in_range agent) :
  (perform self c w).1 ≠ Panic.
Proof.
  destruct (reaches_perform self False _ es Reg (or_intror Ret) c w)
    as [[_ P]|(agent & k & w' & A & L & -> & T)]; [done|].
  intros E. destruct (T (or_intror (Dur _ A)) w') as [_ P]. by rewrite E in P.
Qed.

Section long_duration.
Context {S W R : Type} `{Externals, RuntimeExternals, !RuntimeExternalsLaws}.
Context (self : AgentRuntime S W R) (agent : AgentDefinition).
Context (Long : ¬ duration_in_range agent).

Lemma run_deadline_panics {E} t :
  @run_deadline _ E t (max_duration_seconds (agent_limits agent)) = Panic.
Proof.
  unfold run_deadline, duration_in_range in *.
  rewrite duration_seconds_range by (case_match; lia || by compute).
  rewrite (proj2 (Z.leb_gt _ _)); [done|]. case_match; [lia|by compute].
Qed.

Lemma duration_budget_panics s (k : DateTime → option string → call (World S W R)
    AgentRuntimeError.t AgentRuntimeOutcome) w :
  ((let! at_ := now self in let! b := lift (duration_budget_error agent s at_) in k at_ b) w).1
  = Panic.
Proof.
  unfold cbind, now, lift. destruct (ck_now _ _).
  unfold duration_budget_error. by rewrite run_deadline_panics.
Qed.

End long_duration.

(** C37: A limit that makes the runtime panic.  The validation of an agent asks for a
    non-zero maximum duration only; but when it is above [i64::MAX / 1000] seconds, which
    is beyond the range of [chrono::Duration], [wait_for_approval] panics instead of
    asking for an approval, and [drive], which [resume] calls, panics on every run that
    waits for input with a state that has neither a final output nor a terminal error. *)
Theorem long_duration_panics {S W R} `{Externals, RuntimeExternals, !RuntimeExternalsLaws}
    (self : AgentRuntime S W R) (agent : AgentDefinition)
    (Long : (i64_max / 1000 < Z.of_N (max_duration_seconds (agent_limits agent)))%Z)
    (run : AgentRun) (step : AgentRunStep) (tools : list AgentFunctionTool)
    (s : AgentRuntimeState) (w : World S W R) :
  (wait_for_approval self run step s agent w).1 = Panic
  ∧ (run_status run = RunStatus.WaitingForInput →
     rs_final_output s = None → rs_terminal_error s = None →
     (drive self run agent tools s w).1 = Panic).
Proof.
  assert (¬ duration_in_range agent) as L by (unfold duration_in_range; lia). split.
  - unfold wait_for_approval. by apply duration_budget_panics.
  - intros E F T. unfold drive. rewrite E, F, T. by apply duration_budget_panics.
Qed.
