(* ===== verification/AgentRuntimeCalm.v ===== *)
(** * Calls of the agent runtime that only read, or write events and runs

    For the runtime over the recording stores: [calm c] says that a call asks for nothing
    and leaves steps, checkpoints and agents alone.  The components of [AgentRuntime] that
    validate evidence, load records, append events or seal a run are calm; the invariants of
    [AgentRuntimeLife] and [AgentRuntimeBudget] are kept by every calm call. *)

From S2P Require Import Prelude RustStr Externals Delegation Json Canonical Serialized.
From S2P Require Import Evidence OperatorCommon StrictDigest Registry Approval.
From S2P Require Import ExecutionStore Engine Agent AgentRun AgentRunStore.
From S2P Require Import AgentModel AgentRuntime AgentRecording.
From stdpp Require Import options.

#[local] Set Default Proof Using "All".

Create HintDb calm discriminated.

Section views.
Context {S W G : Type}.
Notation world := (World S W (Recording G)).

Definition steps (w : world) : gmap N AgentRunStep := rs_steps (rec_runs (w_rest w)).
Definition checkpoints (w : world) : gmap N AgentCheckpoint := rs_checkpoints (rec_runs (w_rest w)).
Definition runs (w : world) : gmap N AgentRun := rs_runs (rec_runs (w_rest w)).
Definition definitions (w : world) : gmap N AgentDefinition := rs_definitions (rec_runs (w_rest w)).
Definition ids (w : world) : N := rec_ids (w_rest w).
End views.

Section calm.
Context {S W G : Type} `{Externals, RuntimeExternals}.
Notation world := (World S W (Recording G)).
Notation rt A := (call world AgentRuntimeError.t A).

Definition calm {A} (c : rt A) : Prop := ∀ w,
  w_log (c w).2 = w_log w ∧ steps (c w).2 = steps w ∧ checkpoints (c w).2 = checkpoints w
  ∧ definitions (c w).2 = definitions w ∧ (ids w ≤ ids (c w).2)%N
  ∧ ((∀ k r, runs w !! k = Some r → run_id r = k) →
     ∀ k r, runs (c w).2 !! k = Some r → run_id r = k).

Lemma calm_lift {A} (r : result AgentRuntimeError.t A) : calm (lift r).
Proof. intros w. split_and!; try done; apply N.le_refl. Qed.
Lemma calm_ret {A} (a : A) : calm (ret a).
Proof. apply calm_lift. Qed.
Lemma calm_throw {A} e : calm (A := A) (throw e).
Proof. apply calm_lift. Qed.
Lemma calm_bind {A B} (c : rt A) (k : A → rt B) :
  calm c → (∀ a, calm (k a)) → calm (cbind c k).
Proof.
  intros C K w. destruct (C w) as (L & M & X & D & I & U). unfold cbind.
  destruct (c w) as [[a|e|] w']; cbn in *; [|done|done].
  destruct (K a w') as (L' & M' & X' & D' & I' & U'). split_and!; try congruence; [lia|auto].
Qed.
Lemma calm_record {T E} (f : E → AgentRuntimeError.t) (c : call T E ()) x : calm (on_record f c x).
Proof.
  unfold on_record. destruct (c x) as [[[]|e|] x']; auto using calm_lift, calm_ret, calm_throw.
Qed.
Lemma calm_succeeds {A} (c : rt A) : calm c → calm (succeeds c).
Proof. intros C w. specialize (C w). unfold succeeds. by destruct (c w) as [[] ?]. Qed.
Lemma calm_stored {A} (c : call (Recording G) string A) : spares c → calm (stored c).
Proof.
  intros L w. unfold stored, steps, checkpoints, definitions, runs, ids.
  destruct (L (w_rest w)) as (M & K & D & I & U). destruct (c (w_rest w)) as [r x]; cbn in *.
  split_and!; try done. by rewrite I.
Qed.

End calm.

Ltac spares_tac :=
  match goal with Rec : over_recording _ |- _ => rewrite (over_stores _ Rec) end;
  first [apply spares_stores|apply spares_approval_store].

Ltac calm_step :=
  cbv zeta;
  lazymatch goal with
  | |- calm (cbind _ _) => apply calm_bind; [|intros ?]
  | |- calm (lift _) => apply calm_lift
  | |- calm (ret _) => apply calm_ret
  | |- calm (throw _) => apply calm_throw
  | |- calm (inconsistent _) => apply calm_throw
  | |- calm (on_step _ _) => apply calm_record
  | |- calm (on_run _ _) => apply calm_record
  | |- calm (succeeds _) => apply calm_succeeds
  | |- calm (stored _) => apply calm_stored; spares_tac
  | |- calm (if ?b then _ else _) => destruct b
  | |- calm (match ?x with _ => _ end) => destruct x
  | |- calm _ => solve [eauto with calm]
  end.
Ltac calm_tac := repeat calm_step.

(** ** The components that are calm *)

Section components.
Context {S W G : Type} `{Externals, RuntimeExternals}.
Context (self : AgentRuntime S W (Recording G)) (Rec : over_recording self).

Lemma calm_now : calm (now self).
Proof.
  intros w. destruct (over_clock _ Rec) as [clock E]. unfold now. rewrite E. unfold recording_clock, ck_now.
  destruct (clock _). cbn. split_and!; try done; apply N.le_refl.
Qed.
Lemma calm_new_v7 : calm (new_v7 self).
Proof.
  intros w. destruct (over_clock _ Rec) as [clock E]. unfold new_v7. rewrite E. cbn. split_and!; try done; unfold ids; cbn; lia.
Qed.

Hint Resolve calm_now calm_new_v7 : calm.

Lemma calm_save_run run : calm (save_run self run).
Proof. unfold save_run. calm_tac. Qed.
Lemma calm_load_step id : calm (load_step self id).
Proof. unfold load_step. calm_tac. Qed.
Lemma calm_append_event id k d : calm (append_event self id k d).
Proof. unfold append_event. calm_tac. Qed.
Lemma calm_evaluation run o b s u : calm (ensure_evaluation self run o b s u).
Proof. unfold ensure_evaluation. calm_tac. Qed.
Hint Resolve calm_save_run calm_load_step calm_append_event calm_evaluation : calm.
Lemma calm_terminal_event id k d : calm (ensure_terminal_event self id k d).
Proof. unfold ensure_terminal_event, exact_terminal_event. calm_tac. Qed.
Hint Resolve calm_terminal_event : calm.
Lemma calm_seal run s e k : calm (seal_failure self run s e k).
Proof. unfold seal_failure. calm_tac. Qed.
Lemma calm_failure_kind id s : calm (failure_event_kind self id s).
Proof. unfold failure_event_kind. calm_tac. Qed.
Hint Resolve calm_seal calm_failure_kind : calm.
Lemma calm_finish run s : calm (finish_terminal_state self run s).
Proof. unfold finish_terminal_state. calm_tac. Qed.
Lemma calm_replay_failure run s e : calm (replay_terminal_failure self run s e).
Proof. unfold replay_terminal_failure. calm_tac. Qed.
Hint Resolve calm_finish calm_replay_failure : calm.
Lemma calm_replay_or_seal run s : calm (replay_or_seal_terminal_failure self run s).
Proof. unfold replay_or_seal_terminal_failure. calm_tac. Qed.
Hint Resolve calm_replay_or_seal : calm.
Lemma calm_terminal_outcome run s : calm (terminal_outcome self run s).
Proof. unfold terminal_outcome. calm_tac. Qed.
Lemma calm_approved_step run p id : calm (approved_step self run p id).
Proof. unfold approved_step. calm_tac. Qed.
Lemma calm_approved_request run p id t d : calm (approved_request self run p id t d).
Proof. unfold approved_request. calm_tac. Qed.
Lemma calm_envelopes id cs es : calm (validate_generic_evidence_envelopes self id cs es).
Proof. unfold validate_generic_evidence_envelopes. calm_tac. Qed.
Lemma calm_initial run s c : calm (validate_generic_initial_checkpoint self run s c).
Proof. unfold validate_generic_initial_checkpoint. calm_tac. Qed.
Lemma calm_started id d c e : calm (validate_generic_started_event self id d c e).
Proof. unfold validate_generic_started_event. calm_tac. Qed.
Lemma calm_identity run agent : calm (validate_generic_run_identity self run agent).
Proof. unfold validate_generic_run_identity. calm_tac. Qed.
Lemma calm_reread run : calm (reread_exact_run self run).
Proof. unfold reread_exact_run. calm_tac. Qed.
Lemma calm_state id : calm (state self id).
Proof. unfold state. calm_tac. Qed.
Lemma calm_reject id qs : calm (reject_bound_requests self id qs).
Proof. induction qs as [|q qs IH]; cbn [reject_bound_requests]; calm_tac; done. Qed.
Lemma calm_duplicate run s d cs : calm (duplicate_initial self run s d cs).
Proof.
  pose proof calm_initial. induction cs as [|c cs IH]; cbn [duplicate_initial]; calm_tac; auto.
Qed.
Hint Resolve calm_terminal_outcome calm_approved_step calm_approved_request calm_envelopes
  calm_initial calm_started calm_identity calm_reread calm_state calm_reject
  calm_duplicate : calm.
Lemma calm_pristine run s d cs es :
  calm (validate_pristine_generic_bootstrap self run s d cs es).
Proof.
  unfold validate_pristine_generic_bootstrap, reject_bound_bootstrap_approval_evidence. calm_tac.
Qed.
Lemma calm_bootstrapped run s d cs es :
  calm (validate_complete_generic_bootstrap self run s d cs es).
Proof.
  unfold validate_complete_generic_bootstrap, reject_bound_bootstrap_approval_evidence. calm_tac.
Qed.
Lemma calm_collect run agent es ts : calm (collect_generic_tool_requests self run agent es ts).
Proof. unfold collect_generic_tool_requests. calm_tac. Qed.
Lemma calm_check_events run es ts rs y l : calm (check_approval_events self run es ts rs y l).
Proof.
  revert y. induction l as [|e l IH]; intros y; cbn [check_approval_events]; [calm_tac|].
  unfold check_required, check_resumed. calm_tac; done.
Qed.
Lemma calm_check_steps run rs y l : calm (check_approval_steps self run rs y l).
Proof.
  induction l as [|t l IH]; cbn [check_approval_steps]; [calm_tac|].
  unfold check_execution. calm_tac; done.
Qed.
Hint Resolve calm_pristine calm_bootstrapped calm_collect calm_check_events
  calm_check_steps : calm.
Lemma calm_approvals run s es ts rs :
  calm (validate_generic_approval_chronology self run s es ts rs).
Proof. unfold validate_generic_approval_chronology. calm_tac. Qed.
Lemma calm_missing run s cs ts rs es :
  calm (reconcile_missing_generic_tool_result self run s cs ts rs es).
Proof. unfold reconcile_missing_generic_tool_result. calm_tac. Qed.
Hint Resolve calm_approvals calm_missing : calm.
Lemma calm_load_agent id : calm (load_agent self id).
Proof. unfold load_agent. calm_tac. Qed.

End components.

#[export] Hint Resolve calm_now calm_new_v7 calm_save_run calm_load_step calm_append_event
  calm_seal calm_finish calm_terminal_outcome calm_approved_step calm_approved_request
  calm_initial calm_started calm_identity calm_reread calm_state calm_pristine
  calm_bootstrapped calm_collect calm_approvals calm_missing calm_load_agent : calm.
