(* ===== verification/AgentRuntimeLife.v ===== *)
(** * The life of agent runs: no step is executed twice

    The runtime over the recording stores ([AgentRecording]), through any sequence of
    [start] and [resume] calls, store faults and actions of others on the approvals.

    [life P c Q] says of a call of the runtime that it keeps the invariant [once]: the steps
    whose tool was executed are different, and each of them is stored in a status that is
    past execution.  The assertions [P] and [Q] speak of the executed steps and of the
    stored ones.  [tool_steps_executed_once] is the theorem. *)

From S2P Require Import Prelude RustStr Externals Delegation Json Canonical Serialized.
From S2P Require Import Evidence OperatorCommon StrictDigest Registry Approval.
From S2P Require Import ExecutionStore Engine Agent AgentRun AgentRunStore.
From S2P Require Import AgentModel AgentRuntime AgentRecording AgentRuntimeCalm.
From stdpp Require Import options.

#[local] Set Default Proof Using "All".

Create HintDb life discriminated.

(** ** The invariant *)

Definition executed_steps (es : list Effect) : list Uuid :=
  omap (λ e, match e with ToolExecuted id _ _ _ _ _ => Some id | ModelCalled _ _ => None end) es.

(** The tool of the step may have been executed. *)
Definition past (s : StepStatus.t) : Prop :=
  s ≠ StepStatus.Pending ∧ s ≠ StepStatus.WaitingForApproval.

Section transitions.
Context `{Externals}.

(** Transitions keep the identifier and the run; but for a wait, they lead past execution. *)
Definition moved (t t' : AgentRunStep) : Prop :=
  step_id t' = step_id t ∧ step_run_id t' = step_run_id t ∧ past (step_status t').

Lemma transition_moved n a t t' :
  past n → step_transition n a t = (Ok (), t') → moved t t'.
Proof. intros N. unfold step_transition. destruct (negb _); [done|]. by intros [= <-]. Qed.
Lemma assign_moved n a f o p e d t t' :
  past n → (let! _ := step_transition n a in step_assign f o p e d) t = (Ok (), t') → moved t t'.
Proof.
  intros N. unfold cbind. destruct (step_transition n a t) as [[[]|?|] u] eqn:E; [|done|done].
  apply transition_moved in E; [|done]. by intros [= <-].
Qed.
Lemma step_start_moved a t t' : step_start a t = (Ok (), t') → moved t t'.
Proof. by apply assign_moved. Qed.
Lemma step_fail_moved e a t t' : step_fail e a t = (Ok (), t') → moved t t'.
Proof. by apply assign_moved. Qed.
Lemma step_resume_moved a t t' : step_resume_from_approval a t = (Ok (), t') → moved t t'.
Proof. by apply transition_moved. Qed.
Lemma step_succeed_moved o p a t t' : step_succeed o p a t = (Ok (), t') → moved t t'.
Proof.
  unfold step_succeed. unfold cbind at 1, lift. destruct (map_err _ _); [|done|done].
  destruct (_ || _); [done|]. by apply assign_moved.
Qed.
Lemma step_wait_id q a t t' :
  step_wait_for_approval q a t = (Ok (), t') →
  step_id t' = step_id t ∧ step_run_id t' = step_run_id t.
Proof.
  unfold step_wait_for_approval. destruct (match _ with Some _ => _ | None => _ end); [done|].
  unfold cbind, step_transition. destruct (negb _); [done|]. by intros [= <-].
Qed.

(** Those of a run keep its identifier. *)
Lemma run_transition_id n a r r' : run_transition n a r = (Ok (), r') → run_id r' = run_id r.
Proof. unfold run_transition. destruct (negb _); [done|]. by intros [= <-]. Qed.
Lemma run_resume_id a r r' : run_resume a r = (Ok (), r') → run_id r' = run_id r.
Proof.
  unfold run_resume. case_bool_decide; [|apply run_transition_id].
  destruct (checked_add _ _ _); [|done]. intros E. by apply run_transition_id in E as ->.
Qed.
End transitions.

Section life.
Context {S W G : Type} `{Externals, RuntimeExternals}.
Notation world := (World S W (Recording G)).
Notation rt A := (call world AgentRuntimeError.t A).
Notation assertion := (list Uuid → gmap N AgentRunStep → Prop).

Definition ex (w : world) : list Uuid := executed_steps (w_log w).

Record once (w : world) : Prop := {
  once_nodup : NoDup (ex w);
  once_past id : id ∈ ex w → ∃ t, steps w !! id = Some t ∧ past (step_status t);
  once_key k t : steps w !! k = Some t → step_id t = k;
  once_fresh k t : steps w !! k = Some t → (k < ids w)%N;
}.

Definition ends_in {A} (Q : A → assertion) (x : result AgentRuntimeError.t A * world) : Prop :=
  once x.2 ∧ match x.1 with Ok a => Q a (ex x.2) (steps x.2) | _ => True end.

Definition life (P : assertion) {A} (c : rt A) (Q : A → assertion) : Prop := ∀ w,
  once w → P (ex w) (steps w) → ends_in Q (c w).

Lemma life_weaken P P' {A} (c : rt A) Q Q' :
  life P c Q → (∀ l m, P' l m → P l m) → (∀ a l m, Q a l m → Q' a l m) → life P' c Q'.
Proof.
  intros C HP HQ w O p. destruct (C w O) as [O' q]; [auto|]. split; [done|].
  destruct ((c w).1); auto.
Qed.

Lemma life_bind P {A B} (c : rt A) (k : A → rt B) Q Q' :
  life P c Q → (∀ a, life (Q a) (k a) Q') → life P (cbind c k) Q'.
Proof.
  intros C K w O p. destruct (C w O p) as [O' q]. unfold cbind.
  destruct (c w) as [[a|e|] w']; [by apply K|done|done].
Qed.

Lemma life_ret P {A} (a : A) (Q : A → assertion) :
  (∀ l m, P l m → Q a l m) → life P (ret a) Q.
Proof. intros HQ w O p. split; [done|]. by apply HQ. Qed.

Lemma life_throw P {A} e (Q : A → assertion) : life P (throw e) Q.
Proof. by intros w O p. Qed.

Lemma life_bind_lift P {A B} (r : result AgentRuntimeError.t A) (k : A → rt B) Q :
  (∀ a, r = Ok a → life P (k a) Q) → life P (cbind (lift r) k) Q.
Proof. intros K w O p. unfold cbind, lift. destruct r as [a|e|]; [by apply K|done|done]. Qed.

Lemma life_lift P {A} (r : result AgentRuntimeError.t A) : life P (lift r) (λ _, P).
Proof. intros w O p. by destruct r. Qed.

Lemma life_record P {T E B} (f : E → AgentRuntimeError.t) (c : call T E ()) x (k : T → rt B) Q :
  (∀ x', c x = (Ok (), x') → life P (k x') Q) → life P (cbind (on_record f c x) k) Q.
Proof.
  intros K w O p. unfold cbind, on_record. destruct (c x) as [[[]|e|] x'] eqn:E'; [|done|done].
  by apply (K x' eq_refl w).
Qed.

(** ** Calls that execute nothing and save no step *)

Definition quiet {A} (c : rt A) : Prop := ∀ w,
  ex (c w).2 = ex w ∧ steps (c w).2 = steps w
  ∧ (ids w ≤ ids (c w).2)%N.

Lemma life_quiet P {A} (c : rt A) : quiet c → life P c (λ _, P).
Proof.
  intros C w O p. destruct (C w) as (E & M & I). split.
  - split; rewrite ?E, ?M; try apply O. intros k t Hk. pose proof (once_fresh _ O k t Hk). lia.
  - rewrite E, M. by destruct ((c w).1).
Qed.

Lemma life_quiet_bind P {A B} (c : rt A) (k : A → rt B) Q :
  quiet c → (∀ a, life P (k a) Q) → life P (cbind c k) Q.
Proof. intros C K. eapply life_bind; [by apply life_quiet|]. done. Qed.

Lemma quiet_lift {A} (r : result AgentRuntimeError.t A) : quiet (lift r).
Proof. intros w. split_and!; [done|done|apply N.le_refl]. Qed.
Lemma quiet_ret {A} (a : A) : quiet (ret a).
Proof. apply quiet_lift. Qed.
Lemma quiet_throw {A} e : quiet (A := A) (throw e).
Proof. apply quiet_lift. Qed.
Lemma quiet_bind {A B} (c : rt A) (k : A → rt B) :
  quiet c → (∀ a, quiet (k a)) → quiet (cbind c k).
Proof.
  intros C K w. destruct (C w) as (E & M & I). unfold cbind.
  destruct (c w) as [[a|e|] w']; cbn in *; [|done|done].
  destruct (K a w') as (E' & M' & I'). split_and!; [congruence|congruence|lia].
Qed.
Lemma quiet_calm {A} (c : rt A) : calm c → quiet c.
Proof.
  intros C w. destruct (C w) as (L & M & _ & _ & I & _). unfold ex. by rewrite L.
Qed.

Context (self : AgentRuntime S W (Recording G)) (Rec : over_recording self).

Lemma quiet_complete id q : quiet (complete self id q).
Proof.
  intros w. destruct (over_model _ Rec) as [gateway Em]. unfold complete. rewrite Em. cbn.
  destruct (mg_complete _ _ _) as [r g]. cbn.
  assert (executed_steps (w_log w ++ [ModelCalled id q]) = executed_steps (w_log w)) as E.
  { unfold executed_steps. rewrite omap_app. cbn. apply app_nil_r. }
  destruct r; cbn; unfold ex; (split_and!; [done|done|apply N.le_refl]).
Qed.

(** A step that the store has. *)
Definition held (t : AgentRunStep) : assertion := λ _ m, is_Some (m !! step_id t).
Definition unexecuted (t : AgentRunStep) : assertion := λ l _, step_id t ∉ l.
(** The step may be executed: it was not, and its status in the store says that it is. *)
Definition claimed (t : AgentRunStep) : assertion := λ l m,
  step_id t ∉ l ∧ ∃ t', m !! step_id t = Some t' ∧ past (step_status t').

(** ** Saving a step, executing a tool *)

(** A step is saved that the store has, or that has a new identifier; one that was executed
    stays past that. *)
Lemma save_step_once t (w : world) :
  once w → (step_id t < ids w)%N →
  past (step_status t) ∨ step_id t ∉ ex w →
  let x := save_step self t w in
  once x.2 ∧ ex x.2 = ex w
  ∧ (x.1 = Ok () → steps x.2 = <[step_id t := t]> (steps w)).
Proof.
  intros O I P. unfold save_step, stored. rewrite (over_stores _ Rec).
  destruct (inserts_step t (w_rest w)) as (_ & _ & _ & I' & M).
  destruct (st_save_agent_run_step _ _ _) as [r x]. cbn in *. unfold steps, ex in *. cbn.
  split; [|split; [done|]].
  - destruct M as [M|[M _]]; split; unfold ex, steps, ids; cbn; rewrite ?M, ?I'; try apply O.
    + intros id Hid. destruct (decide (id = step_id t)) as [->|N].
      * exists t. rewrite lookup_insert_eq. split; [done|]. by destruct P.
      * rewrite lookup_insert_ne by done. by apply O.
    + intros k u. rewrite lookup_insert_Some. intros [[<- <-]|[_ K]]; [done|by eapply O].
    + intros k u. rewrite lookup_insert_Some. intros [[<- <-]|[_ K]]; [done|by eapply O].
  - intros ->%map_err_Ok. destruct M as [M|[_ N]]; done.
Qed.

Lemma life_save_step (P : assertion) t :
  (∀ l m, P l m → is_Some (m !! step_id t) ∧ (past (step_status t) ∨ step_id t ∉ l)) →
  life P (save_step self t) (λ _ l m, ∃ m0, P l m0 ∧ m = <[step_id t := t]> m0).
Proof.
  intros HP w O p. destruct (HP _ _ p) as [[t0 Ht] Hp].
  destruct (save_step_once t w O) as (O' & E & M); [by eapply once_fresh|done|].
  split; [done|]. destruct ((save_step self t w).1) as [[]|e|]; [|done|done].
  rewrite E. exists (steps w). auto.
Qed.

(** An execution of a claimed step. *)
Lemma life_executed t op v i ctx ap c :
  life (claimed t) (executed self (ToolExecuted (step_id t) op v i ctx ap) c)
    (λ _, held t).
Proof.
  unfold executed. do 2 (apply life_quiet_bind; [by apply quiet_calm, calm_new_v7|intros ?]).
  intros w O [N (t' & Ht & Hp)]. destruct (c _ _) as [r sw].
  match goal with |- context [match r with Ok _ => (_, ?x) | _ => _ end] => set (w' := x) end.
  assert (ex w' = ex w ++ [step_id t]) as E.
  { unfold ex, executed_steps. cbn. by rewrite omap_app. }
  assert (once w') as O'.
  { split; [rewrite E|rewrite E|apply O|apply O].
    - apply NoDup_app. split_and!; [apply O| |apply NoDup_singleton].
      intros x Hx ->%list_elem_of_singleton. done.
    - intros id [Hid| ->%list_elem_of_singleton]%elem_of_app; [by apply O|]. by exists t'. }
  destruct r; (split; [done|]); try done; by exists t'.
Qed.

(** ** The calls that are quiet *)

Ltac quiet_step :=
  cbv zeta;
  lazymatch goal with
  | |- quiet (cbind _ _) => apply quiet_bind; [|intros ?]
  | |- quiet (lift _) => apply quiet_lift
  | |- quiet (ret _) => apply quiet_ret
  | |- quiet (throw _) => apply quiet_throw
  | |- quiet (if ?b then _ else _) => destruct b
  | |- quiet (match ?x with _ => _ end) => destruct x
  | |- quiet _ => first [solve [auto with life]|apply quiet_calm; solve [calm_tac]]
  end.
Ltac quiet_tac := repeat quiet_step.

Hint Resolve quiet_complete : life.

Lemma quiet_save_checkpoint id s k : quiet (save_state_checkpoint self id s k).
Proof.
  unfold save_state_checkpoint. quiet_tac. intros w. unfold stored, steps, ids, ex.
  rewrite (over_stores _ Rec). match goal with |- context [st_save_agent_checkpoint _ ?c] =>
    destruct (saves_checkpoint c (w_rest w)) as (M & _ & _ & I & _) end.
  destruct (st_save_agent_checkpoint _ _ _). cbn in *. split_and!; [done|done|by rewrite I].
Qed.
Hint Resolve quiet_save_checkpoint : life.
Lemma quiet_save_state id s : quiet (save_state self id s).
Proof. apply quiet_save_checkpoint. Qed.
Lemma quiet_save_terminal id s k : quiet (save_terminal_state self id s k).
Proof. apply quiet_save_checkpoint. Qed.
Hint Resolve quiet_save_state quiet_save_terminal : life.
Lemma quiet_fail_run run s e k : quiet (fail_run self run s e k).
Proof. unfold fail_run. quiet_tac. Qed.
Lemma quiet_tool_success s t o : quiet (record_tool_success self s t o).
Proof. unfold record_tool_success. quiet_tac. Qed.
Lemma quiet_tool_failure s t e : quiet (record_tool_failure_state self s t e).
Proof. unfold record_tool_failure_state. quiet_tac. Qed.
Lemma quiet_resume_evidence run agent s cs es :
  quiet (validate_generic_resume_evidence self run agent s cs es).
Proof. unfold validate_generic_resume_evidence. quiet_tac. Qed.
Hint Resolve quiet_fail_run quiet_tool_success quiet_tool_failure quiet_resume_evidence : life.
Lemma quiet_bootstrap run agent : quiet (reconcile_generic_bootstrap self run agent).
Proof. unfold reconcile_generic_bootstrap. quiet_tac. Qed.
Hint Resolve quiet_bootstrap : life.

(** ** The calls that save steps *)

Definition any {A} : A → assertion := λ _ _ _, True.

Lemma life_any P {A} (c : rt A) : quiet c → life P c any.
Proof. intros C. eapply life_weaken; [by apply life_quiet|done|done]. Qed.

(** The three reasons to save a step. *)
Lemma life_save_moved P t t' {B} (k : rt B) Q :
  moved t t' → (∀ l m, P l m → held t l m) → life (held t') k Q →
  life P (let! _ := save_step self t' in k) Q.
Proof.
  intros (Ei & _ & Hp) HP K. eapply life_bind; [apply life_save_step|].
  - intros l m p. apply HP in p. unfold held in p. rewrite Ei. auto.
  - intros []. eapply life_weaken; [exact K| |done]. intros l m (m0 & p & ->).
    unfold held. rewrite lookup_insert_eq. eauto.
Qed.
Lemma life_save_claim P t t' {B} (k : rt B) Q :
  moved t t' → (∀ l m, P l m → held t l m ∧ unexecuted t l m) → life (claimed t') k Q →
  life P (let! _ := save_step self t' in k) Q.
Proof.
  intros (Ei & _ & Hp) HP K. eapply life_bind; [apply life_save_step|].
  - intros l m p. apply HP in p as [p _]. unfold held in p. rewrite Ei. auto.
  - intros []. eapply life_weaken; [exact K| |done]. intros l m (m0 & p & ->).
    apply HP in p as [_ p]. split; [unfold unexecuted in p; by rewrite Ei|].
    rewrite lookup_insert_eq. eauto.
Qed.
Lemma life_save_wait P t t' {B} (k : rt B) Q :
  step_id t' = step_id t → (∀ l m, P l m → held t l m ∧ unexecuted t l m) →
  life (λ _ _, True) k Q → life P (let! _ := save_step self t' in k) Q.
Proof.
  intros Ei HP K. eapply life_bind; [apply life_save_step|].
  - intros l m p. apply HP in p as [p u]. unfold held, unexecuted in *. rewrite Ei. auto.
  - intros []. eapply life_weaken; [exact K|done|done].
Qed.

(** Steps that the store gives. *)
Lemma life_read P {A} (c : call RecordingAgentRunStore string A) (Q : A → assertion) :
  spares (G := G) (on_runs c) →
  (∀ w a, once w → P (ex w) (steps w) → (c (rec_runs (w_rest w))).1 = Ok a →
          Q a (ex w) (steps w)) →
  life P (stored (on_runs c)) Q.
Proof.
  intros L HQ w O p.
  destruct (life_quiet (λ _ _, True) _ (quiet_calm _ (calm_stored _ L)) w O I) as [O' _].
  split; [done|]. destruct (quiet_calm _ (calm_stored _ L) w) as (E & M & _). rewrite E, M.
  unfold stored. destruct (on_runs c (w_rest w)) as [r x] eqn:Er. cbn.
  destruct r as [a|e|]; [|done|done]. cbn. apply HQ; [done|done|by eapply on_runs_Ok].
Qed.

Lemma held_stored t (w : world) k : once w → steps w !! k = Some t → held t (ex w) (steps w).
Proof. intros O K. rewrite <- (once_key _ O _ _ K) in K. by exists t. Qed.

Lemma life_load_step P id : life P (load_step self id) (λ t l m, held t l m ∧ P l m).
Proof.
  unfold load_step. rewrite (over_stores _ Rec).
  eapply (life_bind _ _ _ (λ o l m, match o with Some t => held t l m ∧ P l m | None => True end)).
  - apply life_read; [apply spares_stores|].
    intros w [t|] O p [= E]; [|done]. split; [by eapply held_stored|done].
  - intros [t|]; [|apply life_throw]. by apply life_ret.
Qed.

(** The step of a request that waits for the approval was not executed. *)
Definition waits (t : AgentRunStep) : assertion := λ l m,
  held t l m ∧ (step_status t = StepStatus.WaitingForApproval → step_id t ∉ l).

Lemma life_find_step P id :
  life P (stored (st_find_agent_run_step_by_approval (rt_stores self) id))
    (λ o l m, match o with Some t => waits t l m | None => True end).
Proof.
  rewrite (over_stores _ Rec).
  apply life_read; [apply spares_stores|].
  intros w [t|] O p E; [|done]. unfold find_agent_run_step_by_approval in E.
  destruct (filter _ _) as [|u [|]] eqn:F; [done| |done]. injection E as ->.
  assert (t ∈ [t]) as Hin by left. rewrite <- F in Hin.
  apply list_elem_of_filter in Hin as [_ [k K]%btree_values_elem].
  change (steps w !! k = Some t) in K.
  split; [by eapply held_stored|]. intros Wt Hin. pose proof (once_key _ O _ _ K) as <-.
  apply (once_past _ O) in Hin as (t' & Ht & _ & Nw). rewrite K in Ht. by simplify_eq.
Qed.

Lemma life_approved_step P run p id :
  life P (approved_step self run p id)
    (λ o l m, match o with inl _ => True | inr (t, _) => waits t l m end).
Proof.
  unfold approved_step. eapply life_bind; [apply life_find_step|]. intros [t|].
  - destruct (_ || _); [by apply life_ret|]. apply life_bind_lift. intros i _. cbv zeta.
    destruct (_ || _); by apply life_ret.
  - by apply life_ret.
Qed.

(** A call whose remaining steps are quiet, or save a step that the assertion holds. *)
Ltac life_step :=
  cbv zeta;
  lazymatch goal with
  | |- life _ (cbind (lift _) _) _ => apply life_bind_lift; intros ? ?
  | |- life _ (cbind (on_step (step_fail _ _) _) _) _ =>
      apply life_record; intros ? ?%step_fail_moved
  | |- life _ (cbind (on_step (step_succeed _ _ _) _) _) _ =>
      apply life_record; intros ? ?%step_succeed_moved
  | |- life _ (cbind (on_run _ _) _) _ => apply life_record; intros ? _
  | |- life _ (cbind (save_step _ _) _) _ => 
      eapply life_save_moved; [eassumption|first [done|by intros ? ? [? ?]]|]
  | |- life _ (cbind (load_step _ _) _) _ => eapply life_bind; [apply life_load_step|intros ?]
  | |- life _ (cbind _ _) _ => apply life_quiet_bind; [solve [quiet_tac]|intros ?]
  | |- life _ (if ?b then _ else _) _ => destruct b eqn:?
  | |- life _ (match ?x with _ => _ end) _ => destruct x eqn:?
  | |- life _ (ret _) any => by apply life_ret
  | |- life _ (throw _) _ => apply life_throw
  | |- life _ _ any => apply life_any; solve [quiet_tac]
  end.
Ltac life_tac := repeat life_step.

Lemma life_fail_approval P run s e : life P (fail_approval_for_budget self run s e) any.
Proof.
  unfold fail_approval_for_budget. eapply (life_bind _ _ _ any); [|intros; apply life_any; quiet_tac].
  life_tac.
Qed.

Lemma life_tool_failure t s e : life (held t) (record_tool_failure self t s e) any.
Proof. unfold record_tool_failure. life_tac. Qed.

Lemma life_reconcile_pending P s : life P (reconcile_pending_tool self s) any.
Proof. unfold reconcile_pending_tool. life_tac. Qed.

Lemma life_execute_tool entry t s : life (claimed t) (execute_agent_tool self entry t s) any.
Proof.
  unfold execute_agent_tool. do 2 life_step. eapply life_bind; [apply life_executed|].
  intros [o|e|]; [life_tac| |life_tac].
  eapply life_bind; [apply life_tool_failure|]. intros. by apply life_ret.
Qed.

Lemma life_wait P run t s agent :
  (∀ l m, P l m → held t l m ∧ unexecuted t l m) →
  life P (wait_for_approval self run t s agent) any.
Proof.
  intros HP. unfold wait_for_approval. do 2 life_step.
  destruct a0; [apply life_fail_approval|]. do 6 life_step.
  apply life_record. intros t' [E _]%step_wait_id. eapply life_save_wait; [done|done|]. life_tac.
Qed.

(** A claim makes the step executable; a step that is not claimed has a stored execution. *)
Lemma life_claim t e :
  life (waits t) (claim_step self t e)
    (λ o l m, match o with
              | inl _ => True
              | inr (t', c) => if (c : bool) then claimed t' l m
                               else is_Some e ∧ held t' l m
              end).
Proof.
  unfold claim_step. destruct (step_status t) eqn:E; try by apply life_ret.
  1,3: destruct e as [e|]; [apply life_ret; intros l m [h _]; split; [by eexists|done]|].
  1,2: case_match; by apply life_ret.
  life_step. apply life_record. intros t' M%step_resume_moved.
  eapply life_save_claim; [exact M| |by apply life_ret].
  intros l m [h n]. split; [done|]. by apply n.
Qed.

Lemma life_reconcile_execution run agent s p t g a e :
  life (held t) (reconcile_execution self run agent s p t g a e) any.
Proof.
  unfold reconcile_execution.
  destruct (verify_for_execution _ _ _ _ _ _ _ _); life_tac.
  eapply (life_bind _ _ _ any); [|intros ?]; life_tac.
Qed.

Lemma life_execute_approved run agent s p id t g a :
  life (claimed t) (execute_approved self run agent s p id t g a) any.
Proof.
  unfold execute_approved. do 2 life_step. destruct a1; [life_tac|]. cbv zeta.
  eapply life_bind; [apply life_executed|]. intros [o|e|]; life_tac.
Qed.

Lemma life_deny run s id t d : life (waits t) (deny self run s id t d) any.
Proof. unfold deny. life_tac. Qed.

Lemma life_go run agent s p id t g a e (c : bool) :
  life (λ l m, if c then claimed t l m else is_Some e ∧ held t l m)
    (let! at_ := now self in
     let! exceeded := lift (duration_budget_error agent s at_) in
     match exceeded with
     | Some reason => ret (ResumeBudgetExceeded reason, run, s)
     | None =>
         match e with
         | Some execution => reconcile_execution self run agent s p t g a execution
         | None => execute_approved self run agent s p id t g a
         end
     end) any.
Proof.
  do 2 life_step. destruct a1; [life_tac|]. destruct e as [e|].
  - eapply life_weaken; [apply life_reconcile_execution| |done]. intros l m.
    destruct c; [intros (_ & u & Hu & _); by exists u|by intros [_ ?]].
  - eapply life_weaken; [apply life_execute_approved| |done]. intros l m.
    destruct c; [done|by intros [[] ?]].
Qed.

Lemma life_proceed run agent s p id t g a :
  life (waits t) (proceed self run agent s p id t g a) any.
Proof.
  unfold proceed. apply life_quiet_bind; [quiet_tac|]. intros e.
  eapply life_bind; [apply life_claim|]. intros [x|[t' c]]; [life_tac|].
  eapply life_quiet_bind; [destruct c; quiet_tac|]. intros _. cbv zeta.
  destruct (run_status run); try by apply life_ret.
  - apply life_go.
  - do 3 life_step. apply life_go.
Qed.

Lemma life_resume_approval P run agent s : life P (resume_approval self run agent s) any.
Proof.
  unfold resume_approval. do 2 life_step. destruct a0; [life_tac|]. do 2 life_step.
  eapply life_bind; [apply life_approved_step|]. intros [x|[t d]]; [life_tac|].
  apply life_quiet_bind; [quiet_tac|]. intros [x|q]; [life_tac|].
  apply life_quiet_bind; [quiet_tac|]. intros [decision|]; [|life_tac]. cbv zeta.
  apply life_quiet_bind; [quiet_tac|]. intros [approver|]; [|life_tac].
  destruct (verify_decision _ _ _); [|life_tac|life_tac].
  do 3 life_step; [life_tac|].
  destruct (bool_decide _); [apply life_deny|apply life_proceed].
Qed.

(** ** The loop *)

Lemma life_ends P (c : rt AgentRuntimeOutcome) : life P c any → life P (ends c) any.
Proof. intros C. unfold ends. eapply life_bind; [exact C|]. intros. by apply life_ret. Qed.

(** A new step is claimed at once. *)
Lemma life_new_step P run_id n o v i a {B} (k : AgentRunStep → rt B) Q :
  (∀ t, life (claimed t) (k t) Q) →
  life P (let! id := new_v7 self in
          let! t := lift (map_err AgentRuntimeError.Run (AgentRunStep_new run_id n o v i a id)) in
          let! _ := save_step self t in
          let! t := on_step (step_start a) t in
          let! _ := save_step self t in
          k t) Q.
Proof.
  intros K w O p. unfold cbind at 1.
  destruct (life_quiet (λ _ _, True) _ (quiet_calm _ (calm_new_v7 _ Rec)) w O I) as [O1 _].
  assert ((new_v7 self w).1 = Ok (ids w) ∧ ex (new_v7 self w).2 = ex w
          ∧ (ids w < ids (new_v7 self w).2)%N) as (E1 & N1 & I1).
  { destruct (over_clock _ Rec) as [clock Ec]. unfold new_v7. rewrite Ec.
    split_and!; [done|done|unfold ids; cbn; lia]. }
  destruct (new_v7 self w) as [r w1]. cbn in E1, N1, I1, O1. subst r.
  assert (ids w ∉ ex w1) as N.
  { rewrite N1. intros Hin. apply (once_past _ O) in Hin as (t & Ht & _).
    apply (once_fresh _ O) in Ht. lia. }
  unfold cbind at 1, lift at 1.
  destruct (AgentRunStep_new _ _ _ _ _ _ _) as [t|x|] eqn:E; [|by split|by split].
  assert (step_id t = ids w) as Et.
  { unfold AgentRunStep_new in E. by res_inv. }
  rewrite <- Et in N, I1. destruct (save_step_once t w1 O1 I1 (or_intror N)) as (O2 & E2 & M2).
  cbn [map_err]. unfold cbind at 1.
  destruct (save_step self t w1) as [[[]|x|] w2]; cbn in O2, E2, M2; [|by split|by split].
  apply (life_record (λ l m, held t l m ∧ unexecuted t l m)); [|done|].
  - intros t' M%step_start_moved. eapply life_save_claim; [exact M|done|apply K].
  - rewrite M2, E2 by done. split; [|done]. unfold held. rewrite lookup_insert_eq. by eexists.
Qed.

Lemma life_call_tool P run agent tools s c n args :
  life P (call_tool self run agent tools s c n args) any.
Proof.
  unfold call_tool. cbv zeta. destruct (_ <=? _)%N; [apply life_ends; life_tac|].
  destruct (List.find _ _) as [tool|]; [|apply life_ends; life_tac].
  do 2 life_step. apply life_new_step. intros t. do 3 life_step.
  destruct (validate_schema _ _ _ _); [| |life_tac].
  - destruct (bool_decide _).
    + apply life_ends, life_wait. intros l m (N & u & Hu & _). split; [by exists u|done].
    + eapply life_bind; [apply life_execute_tool|].
      intros [x|s']; [apply life_ends; life_tac|by apply life_ret].
  - eapply life_bind; [|intros; by apply life_ret].
    eapply life_weaken; [apply life_tool_failure| |done]. intros l m (N & u & Hu & _). by exists u.
Qed.

Lemma life_drive_once P run agent tools s : life P (drive_once self run agent tools s) any.
Proof.
  unfold drive_once. life_step. destruct (pre_model_budget_error _ _ _); [apply life_ends; life_tac|].
  do 4 life_step. destruct a3 as [turn|x|]; [|apply life_ends; life_tac|life_tac].
  destruct (apply_usage _ _) as [[[]|x|] s']; [|apply life_ends; life_tac|life_tac].
  do 2 life_step. destruct (post_model_budget_error _ _ _); [apply life_ends; life_tac|].
  destruct (mt_decision turn) as [c n args|output]; [apply life_call_tool|].
  life_step. apply life_ends. life_tac.
Qed.

Lemma life_drive_loop P fuel run agent tools s :
  life P (drive_loop self fuel run agent tools s) any.
Proof.
  revert P s. induction fuel as [|fuel IH]; intros P s; cbn [drive_loop]; [life_tac|].
  eapply life_bind; [apply life_drive_once|]. intros [o|s']; [by apply life_ret|apply IH].
Qed.

Lemma life_drive P run agent tools s : life P (drive self run agent tools s) any.
Proof.
  unfold drive. destruct (_ || _); [life_tac|]. destruct (bool_decide _).
  - do 3 life_step; [apply life_fail_approval|]. eapply life_bind; [apply life_resume_approval|].
    intros [[[] run'] s']; [by apply life_ret|apply life_drive_loop|life_tac|].
    apply life_fail_approval.
  - destruct (is_some _); [|apply life_drive_loop].
    eapply life_bind; [apply life_reconcile_pending|].
    intros [x|s']; [life_tac|apply life_drive_loop].
Qed.

Lemma life_perform P c : life P (perform self c) any.
Proof.
  destruct c as [id goal|id]; cbn [perform].
  - unfold start, start_agent. do 6 life_step. apply life_quiet_bind; [quiet_tac|].
    intros [run s]. apply life_drive.
  - unfold resume, resume_agent. do 2 life_step. life_step; [life_tac|]. do 3 life_step.
    destruct (run_status _); try by life_tac.
    1,2: apply life_quiet_bind; [quiet_tac|]; intros [run s]; apply life_drive.
    life_step. life_step; [life_tac|]. life_step; [|life_tac]. do 4 life_step. apply life_drive.
Qed.

End life.

(** ** The theorem *)

Section history.
Context {S W G : Type} `{Externals, RuntimeExternals}.
Notation world := (World S W (Recording G)).

(** What happens between calls of the runtime: anything to the stores, to the faults that
    they will show and to the provider, but for the steps, which only the runtime writes,
    and for identifiers, which are not drawn twice. *)
Inductive happening : Type :=
| Performs (c : RuntimeCall)
| Outside (r : Recording G).

Definition outside (r : Recording G) (w : world) : world :=
  with_rest {| rec_runs := set_steps (rs_steps (rec_runs (w_rest w))) (rec_runs r);
               rec_approvals := rec_approvals r; rec_faults := rec_faults r;
               rec_ids := N.max (rec_ids (w_rest w)) (rec_ids r); rec_other := rec_other r |} w.

Definition happens (self : AgentRuntime S W (Recording G)) (w : world) (x : happening) : world :=
  match x with
  | Performs c => (perform self c w).2
  | Outside r => outside r w
  end.

Definition history (self : AgentRuntime S W (Recording G)) (xs : list happening) (w : world)
    : world := foldl (happens self) w xs.

Lemma happens_once self x (w : world) :
  over_recording self → once w → once (happens self w x).
Proof.
  intros Rec O. destruct x as [c|r]; cbn [happens].
  - by apply (life_perform self Rec (λ _ _, True)).
  - split; [apply O|apply O|apply O|]. intros k t Hk. apply (once_fresh _ O) in Hk.
    unfold ids in *. cbn. lia.
Qed.
End history.

(** C4: No tool call of an agent is executed twice.  Take the runtime over the recording
    stores, from a store whose steps have the identifiers under which they are stored, and
    any history of [start] and [resume] calls, with store operations that fail before or
    after their effect (a process that stops is one whose operations fail from there on),
    and with anything happening to the stores in between that does not touch the steps.
    Then no step is in the log of executions twice, and a step that is in it is stored as
    running or ended: after a crash it is failed and never executed again. *)
Theorem tool_steps_executed_once {S W G} `{Externals, RuntimeExternals}
    (self : AgentRuntime S W (Recording G)) (Rec : over_recording self)
    (w : World S W (Recording G)) (Log : w_log w = [])
    (Ids : ∀ k t, rs_steps (rec_runs (w_rest w)) !! k = Some t →
                  step_id t = k ∧ (k < rec_ids (w_rest w))%N)
    (xs : list (happening (G := G))) :
  let w' := history self xs w in
  NoDup (executed_steps (w_log w'))
  ∧ ∀ id, id ∈ executed_steps (w_log w') →
      ∃ t, rs_steps (rec_runs (w_rest w')) !! id = Some t
           ∧ step_status t ≠ StepStatus.Pending
           ∧ step_status t ≠ StepStatus.WaitingForApproval.
Proof.
  assert (once (history self xs w)) as O; [|split; apply O].
  assert (once w) as O.
  { split; unfold ex; rewrite ?Log; try apply NoDup_nil_2; try apply Ids.
    by intros id ?%elem_of_nil. }
  clear Log Ids. unfold history. revert w O.
  induction xs as [|x xs IH]; intros w O; [done|]. cbn. apply IH. by eapply happens_once.
Qed.
