(* ===== verification/AgentRuntimeBudget.v ===== *)
(** * The life of agent runs: the budget of model calls

    The runtime over the recording stores ([AgentRecording]), through any sequence of
    [start] and [resume] calls, store faults and actions of others.

    The counter of model calls of a run is in its checkpoints, and a model is asked only
    after a checkpoint with the call is stored.  The invariant [bounded] says so: the newest
    checkpoint of a run counts at least the calls that were made for it.  [spend P c Q] says
    of a call of the runtime that it keeps [bounded]; the assertions speak of the log of
    effects and of the stored steps.  [model_calls_bounded] is the theorem. *)

From S2P Require Import Prelude RustStr Externals Delegation Json Canonical Serialized.
From S2P Require Import Evidence OperatorCommon StrictDigest Registry Approval.
From S2P Require Import ExecutionStore Engine Agent AgentRun AgentRunStore.
From S2P Require Import AgentModel AgentRuntime AgentRecording AgentRuntimeCalm AgentRuntimeLife.
From stdpp Require Import options.

#[local] Set Default Proof Using "All".

Create HintDb spend discriminated.

(** ** The invariant *)

Definition calls_of (r : Uuid) (es : list Effect) : nat :=
  length (filter (λ r', r' = r)
    (omap (λ e, match e with ModelCalled r' _ => Some r' | _ => None end) es)).

Lemma calls_of_app r l l' : calls_of r (l ++ l') = calls_of r l + calls_of r l'.
Proof. unfold calls_of. by rewrite omap_app, filter_app, length_app. Qed.

(** The state that a checkpoint gives back. *)
Definition read_back `{Externals} (c : AgentCheckpoint) : option AgentRuntimeState :=
  value_get "runtime" (cp_state c) ≫= AgentRuntimeState_of_value.

(** The checkpoint of a run with the highest sequence. *)
Definition newest (m : gmap N AgentCheckpoint) (r : Uuid) (c : AgentCheckpoint) : Prop :=
  c ∈ run_checkpoints r m
  ∧ ∀ c', c' ∈ run_checkpoints r m → c' = c ∨ (cp_sequence c' < cp_sequence c)%N.

(** The counters of a state are of 32 bits and count [n] model calls at least. *)
Definition covers (n : nat) (s : AgentRuntimeState) : Prop :=
  (N.of_nat n ≤ rs_model_calls s)%N ∧ (rs_model_calls s ≤ u32_max)%N
  ∧ (rs_tool_attempts s ≤ u32_max)%N.

Section spend.
Context {S W G : Type} `{Externals, RuntimeExternals} {HL : ExternalsLaws}.
Notation world := (World S W (Recording G)).
Notation rt A := (call world AgentRuntimeError.t A).
Notation assertion :=
  (list Effect → gmap N AgentRunStep → gmap N AgentCheckpoint → Prop).

(** No agent may make more than [B] model calls. *)
Context (B : N).

Definition recorded (l : list Effect) (m : gmap N AgentCheckpoint) (r : Uuid) : Prop :=
  ∃ c s, newest m r c ∧ is_runtime_checkpoint c = true ∧ read_back c = Some s
         ∧ covers (calls_of r l) s.

Record bounded (w : world) : Prop := {
  b_recorded r : calls_of r (w_log w) ≠ 0 → recorded (w_log w) (checkpoints w) r;
  b_bound r : (N.of_nat (calls_of r (w_log w)) ≤ B)%N;
  b_steps k t : steps w !! k = Some t → step_id t = k;
  b_runs k r : runs w !! k = Some r → run_id r = k;
  b_agents k a : definitions w !! k = Some a → (max_model_calls (agent_limits a) ≤ B)%N;
}.

Definition spends_in {A} (Q : A → assertion) (x : result AgentRuntimeError.t A * world) : Prop :=
  bounded x.2 ∧ match x.1 with Ok a => Q a (w_log x.2) (steps x.2) (checkpoints x.2)
                 | _ => True end.

Definition spend (P : assertion) {A} (c : rt A) (Q : A → assertion) : Prop := ∀ w,
  bounded w → P (w_log w) (steps w) (checkpoints w) → spends_in Q (c w).

Lemma spend_weaken P P' {A} (c : rt A) Q Q' :
  spend P c Q → (∀ l m x, P' l m x → P l m x) → (∀ a l m x, Q a l m x → Q' a l m x) → spend P' c Q'.
Proof.
  intros C HP HQ w O p. destruct (C w O) as [O' q]; [auto|]. split; [done|].
  destruct ((c w).1); auto.
Qed.

Lemma spend_bind P {A C} (c : rt A) (k : A → rt C) Q Q' :
  spend P c Q → (∀ a, spend (Q a) (k a) Q') → spend P (cbind c k) Q'.
Proof.
  intros Hc K w O p. destruct (Hc w O p) as [O' q]. unfold cbind.
  destruct (c w) as [[a|e|] w']; [by apply K|done|done].
Qed.

(** What the assertion says of values *)
Lemma spend_pure (F : Prop) P {A} (c : rt A) Q :
  (∀ l m x, P l m x → F) → (F → spend P c Q) → spend P c Q.
Proof. intros HF C w O p. apply C; [by eapply HF|done|done]. Qed.

Lemma spend_ret P {A} (a : A) (Q : A → assertion) :
  (∀ l m x, P l m x → Q a l m x) → spend P (ret a) Q.
Proof. intros HQ w O p. split; [done|]. by apply HQ. Qed.

Lemma spend_throw P {A} e (Q : A → assertion) : spend P (throw e) Q.
Proof. by intros w O p. Qed.

Lemma spend_bind_lift P {A C} (r : result AgentRuntimeError.t A) (k : A → rt C) Q :
  (∀ a, r = Ok a → spend P (k a) Q) → spend P (cbind (lift r) k) Q.
Proof. intros K w O p. unfold cbind, lift. destruct r as [a|e|]; [by apply K|done|done]. Qed.

Lemma spend_lift P {A} (r : result AgentRuntimeError.t A) Q :
  (∀ a l m x, r = Ok a → P l m x → Q a l m x) → spend P (lift r) Q.
Proof. intros K w O p. split; [done|]. destruct r; [by apply K|done|done]. Qed.

Lemma spend_record P {T E C} (f : E → AgentRuntimeError.t) (c : call T E ()) x (k : T → rt C) Q :
  (∀ x', c x = (Ok (), x') → spend P (k x') Q) → spend P (cbind (on_record f c x) k) Q.
Proof.
  intros K w O p. unfold cbind, on_record. destruct (c x) as [[[]|e|] x'] eqn:E'; [|done|done].
  by apply (K x' eq_refl w).
Qed.

Lemma spend_calm P {A} (c : rt A) : calm c → spend P c (λ _, P).
Proof.
  intros C w O p. destruct (C w) as (L & M & K & D & _ & U). split.
  - split; rewrite ?L, ?M, ?K, ?D; try apply O. apply U, O.
  - rewrite L, M, K. by destruct ((c w).1).
Qed.

Lemma spend_calm_bind P {A C} (c : rt A) (k : A → rt C) Q :
  calm c → (∀ a, spend P (k a) Q) → spend P (cbind c k) Q.
Proof. intros Hc K. eapply spend_bind; [by apply spend_calm|]. done. Qed.

Context (self : AgentRuntime S W (Recording G)) (Rec : over_recording self).

(** ** Checkpoints *)

Definition listed (m : gmap N AgentCheckpoint) (r : Uuid) : list AgentCheckpoint :=
  sort_by_key2 (λ c, (Z.of_N (cp_sequence c), 0%Z)) (run_checkpoints r m).

Lemma listed_elem m r c : c ∈ listed m r ↔ c ∈ run_checkpoints r m.
Proof. apply sort_by_key2_elem. Qed.

Lemma listed_last m r c c' :
  last (listed m r) = Some c → c' ∈ run_checkpoints r m →
  (cp_sequence c' ≤ cp_sequence c)%N.
Proof.
  rewrite <- listed_elem. unfold listed.
  pose proof (sort_by_key2_sorted (λ c, (Z.of_N (cp_sequence c), 0%Z)) (run_checkpoints r m)) as Hs.
  induction Hs as [|x l Hs IH Hx]; [done|]. destruct l as [|y l].
  - intros [= ->] ->%list_elem_of_singleton. lia.
  - change (last (x :: y :: l)) with (last (y :: l)). intros Hc [->|Hin]%elem_of_cons; [|by apply IH].
    assert (c ∈ y :: l) as Hin by (by eapply last_Some_elem_of).
    rewrite Forall_forall in Hx. apply Hx in Hin. unfold by_key2, lex2_le in Hin. cbn in Hin. lia.
Qed.

Lemma newest_last m r c : newest m r c → last (listed m r) = Some c.
Proof.
  intros [Hc Hmax]. destruct (last (listed m r)) as [c'|] eqn:E.
  - pose proof (listed_last _ _ _ _ E Hc).
    apply last_Some_elem_of, listed_elem, Hmax in E as [->|]; [done|lia].
  - apply last_None in E. apply listed_elem in Hc. rewrite E in Hc. by apply elem_of_nil in Hc.
Qed.

Lemma spend_read P {A} (c : call RecordingAgentRunStore string A) (Q : A → assertion) :
  spares (G := G) (on_runs c) →
  (∀ w a, bounded w → P (w_log w) (steps w) (checkpoints w) →
          (c (rec_runs (w_rest w))).1 = Ok a → Q a (w_log w) (steps w) (checkpoints w)) →
  spend P (stored (on_runs c)) Q.
Proof.
  intros L HQ w O p.
  destruct (spend_calm (λ _ _ _, True) _ (calm_stored _ L) w O I) as [O' _]. split; [done|].
  destruct (calm_stored _ L w) as (El & Em & Ex & _). rewrite El, Em, Ex.
  unfold stored. destruct (on_runs c (w_rest w)) as [y z] eqn:E. cbn.
  destruct y as [a|e|]; [|done|done]. cbn. apply HQ; [done|done|by eapply on_runs_Ok].
Qed.

Lemma spend_list P r :
  spend P (stored (st_list_agent_checkpoints (rt_stores self) r))
    (λ cs l m x, cs = listed x r ∧ P l m x).
Proof.
  rewrite (over_stores _ Rec). apply spend_read; [apply spares_stores|].
  by intros w a O p [= <-].
Qed.

(** A state, read from the checkpoints or written to them *)

Definition cov (r : Uuid) (s : AgentRuntimeState) : assertion :=
  λ l _ _, covers (calls_of r l) s.

Lemma of_value_bounds v s :
  AgentRuntimeState_of_value v = Some s → covers 0 s.
Proof.
  unfold AgentRuntimeState_of_value. intros E.
  repeat (apply bind_Some in E as (? & ? & E)). injection E as <-.
  assert (∀ o n, o ≫= u32_of_value = Some n → (n ≤ u32_max)%N) as U.
  { intros o n (v' & _ & (k & _ & Hk)%bind_Some)%bind_Some.
    destruct (N.leb_spec k u32_max); by simplify_eq. }
  split_and!; cbn; [lia|by eapply U..].
Qed.

Lemma read_checkpoint c s k :
  covers 0 s → cp_state c = checkpoint_state s k →
  is_runtime_checkpoint c = true ∧ read_back c = Some s.
Proof.
  intros (_ & M & T) E. unfold is_runtime_checkpoint, read_back. rewrite E.
  assert (value_get "runtime" (checkpoint_state s k) = Some (AgentRuntimeState_value s)) as ->
    by (by destruct k).
  cbn [mbind option_bind]. rewrite AgentRuntimeState_roundtrip by done.
  split; [|done]. by destruct k.
Qed.

Lemma find_last {A} (f : A → bool) (l : list A) x :
  last l = Some x → f x = true → List.find f (reverse l) = Some x.
Proof.
  intros (l' & ->)%last_Some F. rewrite reverse_app. cbn. by rewrite F.
Qed.

Lemma spend_state P r : spend P (state self r) (λ s l m x, cov r s l m x ∧ P l m x).
Proof.
  unfold state. eapply spend_bind; [apply spend_list|]. intros cs.
  apply spend_bind_lift. intros c Hc%ok_or_Ok. apply spend_bind_lift. intros v Hv%ok_or_Ok.
  intros w O [-> p]. split; [done|]. unfold lift. cbn.
  destruct (AgentRuntimeState_of_value v) as [s|] eqn:Es; [|done]. cbn. split; [|done].
  unfold cov. destruct (decide (calls_of r (w_log w) = 0)) as [->|N]; [by eapply of_value_bounds|].
  apply (b_recorded _ O) in N as (c' & s' & Nw & Rt & Rb & C).
  rewrite (find_last _ _ _ (newest_last _ _ _ Nw) Rt) in Hc. injection Hc as <-.
  unfold read_back in Rb. rewrite Hv in Rb. cbn in Rb. by simplify_eq.
Qed.

(** A new checkpoint is the newest. *)
Lemma newest_insert m c :
  m !! cp_id c = None →
  (∀ c', c' ∈ run_checkpoints (cp_run_id c) m → (cp_sequence c' < cp_sequence c)%N) →
  newest (<[cp_id c := c]> m) (cp_run_id c) c
  ∧ ∀ r c', r ≠ cp_run_id c → newest m r c' → newest (<[cp_id c := c]> m) r c'.
Proof.
  intros N Hmax.
  assert (∀ r x, x ∈ run_checkpoints r (<[cp_id c := c]> m) ↔
                 cp_run_id c = r ∧ x = c ∨ x ∈ run_checkpoints r m) as In.
  { intros r x. rewrite !run_checkpoints_elem. setoid_rewrite lookup_insert_Some. split.
    - intros (Hr & k & [[_ <-]|[_ Hk]]); [by left|right; eauto].
    - intros [[Hr ->]|[Hr [k Hk]]]; [by eauto|]. split; [done|]. exists k. right.
      split; [|done]. intros <-. congruence. }
  split.
  - split; [apply In; by left|]. intros c' [[_ ->]|Hc]%In; [by left|right; auto].
  - intros r c' Nr [Hc Hm]. split; [apply In; by right|].
    intros x [[? _]|Hx]%In; [congruence|auto].
Qed.

(** A state is saved that covers the calls that were made. *)
Lemma spend_save P r s k :
  (∀ l m x x', P l m x → P l m x') → (∀ l m x, P l m x → cov r s l m x) →
  spend P (save_state_checkpoint self r s k)
    (λ _ l m x, P l m x ∧ ∃ c, newest x r c ∧ is_runtime_checkpoint c = true
                               ∧ read_back c = Some s).
Proof.
  intros Hx HP. unfold save_state_checkpoint. eapply spend_bind; [apply spend_list|].
  intros cs. apply spend_bind_lift. intros q Hq.
  do 2 (apply spend_calm_bind; [eauto with calm|intros ?]).
  apply spend_bind_lift. intros c Hc. unfold AgentCheckpoint_create in Hc. res_inv.
  set (c := {| cp_id := _ |}). intros w O [-> p]. pose proof (HP _ _ _ p) as C.
  assert (∀ c', c' ∈ run_checkpoints r (checkpoints w) → (cp_sequence c' < q)%N) as Hmax.
  { intros c' Hc'. destruct (last (listed (checkpoints w) r)) as [c0|] eqn:E; cbn in Hq.
    - res_inv. apply checked_add_Some in Hq as [-> _]. pose proof (listed_last _ _ _ _ E Hc'). lia.
    - apply last_None in E. apply listed_elem in Hc'. rewrite E in Hc'. by apply elem_of_nil in Hc'. }
  assert (is_runtime_checkpoint c = true ∧ read_back c = Some s) as [Rt Rb].
  { eapply read_checkpoint; [|done]. destruct C as (_ & M & T). by split; [lia|]. }
  unfold stored. rewrite (over_stores _ Rec).
  pose proof (saves_checkpoint c (w_rest w)) as Sv.
  destruct (st_save_agent_checkpoint _ _ _) as [y z]. cbn in Sv.
  destruct Sv as (Es & Er & Ed & _ & Ec). unfold spends_in. cbn.
  assert (checkpoints w !! cp_id c ≠ Some c) as Nc.
  { intros Hin. assert (c ∈ run_checkpoints r (checkpoints w)) as Hc
      by (apply run_checkpoints_elem; eauto). apply Hmax in Hc. cbn in Hc. lia. }
  destruct Ec as [[Ec Ey]|[Hn Ec]].
  - split.
    + split; unfold checkpoints, steps, runs, definitions; cbn; rewrite ?Es, ?Er, ?Ed, ?Ec; apply O.
    + destruct y as [[]|e|]; cbn; [|done|done]. destruct (Nc (Ey eq_refl)).
  - destruct (newest_insert _ c Hn Hmax) as [N1 N2]. change (cp_run_id c) with r in N1, N2.
    split.
    + split; unfold checkpoints, steps, runs, definitions; cbn; rewrite ?Es, ?Er, ?Ed, ?Ec; try apply O.
      intros r' Hr'. destruct (decide (r' = r)) as [->|Nr]; [by exists c, s|].
      destruct (b_recorded _ O r' Hr') as (c' & s' & ? & ?). exists c', s'. by auto.
    + destruct y as [[]|e|]; cbn; [|done|done]. unfold checkpoints, steps. cbn. rewrite Es, Ec.
      split; [by eapply Hx|]. by exists c.
Qed.

(** A model is asked when the newest checkpoint counts the call. *)
Lemma spend_complete (P : assertion) r q s :
  (∀ l m x, P l m x →
     covers (Datatypes.S (calls_of r l)) s ∧ (rs_model_calls s ≤ B)%N
     ∧ ∃ c, newest x r c ∧ is_runtime_checkpoint c = true ∧ read_back c = Some s) →
  spend P (complete self r q) (λ _, cov r s).
Proof.
  intros HP w O p. destruct (HP _ _ _ p) as (C & Hb & c & N & Rt & Rb).
  destruct (over_model _ Rec) as [gateway Em]. unfold complete. rewrite Em. cbn. destruct (mg_complete _ _ _) as [y g]. cbn.
  set (w' := {| w_engine := _ |}).
  assert (calls_of r (w_log w') = Datatypes.S (calls_of r (w_log w))
          ∧ ∀ r', r' ≠ r → calls_of r' (w_log w') = calls_of r' (w_log w)) as [E1 E2].
  { unfold w'. cbn [w_log]. split; [|intros r' Nr]; rewrite calls_of_app; unfold calls_of at 2; cbn.
    - rewrite decide_True by done. cbn. lia.
    - rewrite decide_False by done. cbn. lia. }
  assert (bounded w') as O'.
  { split; try apply O.
    - intros r' Hr. destruct (decide (r' = r)) as [->|Nr].
      + exists c, s. by rewrite E1.
      + rewrite E2 in Hr by done. destruct (b_recorded _ O r' Hr) as (c' & s' & ?).
        exists c', s'. by rewrite E2.
    - intros r'. destruct (decide (r' = r)) as [->|Nr]; [|rewrite E2 by done; apply O].
      rewrite E1. destruct C as [C _]. lia. }
  assert (cov r s (w_log w') (steps w') (checkpoints w')) as C' by (unfold cov; by rewrite E1).
  destruct y; by split.
Qed.

(** ** Calls of the runtime *)

Definition always {A} : A → assertion := λ _ _ _ _, True.

Lemma spend_always P {A} (c : rt A) : calm c → spend P c always.
Proof. intros C. eapply spend_weaken; [by apply spend_calm|done|done]. Qed.

Lemma spend_save_bind P r s k {C} (n : rt C) Q :
  (∀ l m x x', P l m x → P l m x') → (∀ l m x, P l m x → cov r s l m x) → spend P n Q →
  spend P (let! _ := save_state_checkpoint self r s k in n) Q.
Proof.
  intros Hx HP K. eapply spend_bind; [by apply spend_save|]. intros u.
  eapply spend_weaken; [exact K| |done]. by intros l m x [? _].
Qed.

Lemma spend_save_step P t {C} (n : rt C) Q :
  (∀ l m m' x, P l m x → P l m' x) → spend P n Q →
  spend P (let! _ := save_step self t in n) Q.
Proof.
  intros Hm K w O p. unfold cbind at 1, save_step, stored. rewrite (over_stores _ Rec).
  destruct (inserts_step t (w_rest w)) as (Ec & Ed & Er & _ & Es).
  destruct (st_save_agent_run_step _ _ _) as [r x]. cbn in *.
  assert (bounded (with_rest x w)) as O'.
  { destruct Es as [Es|[Es _]];
      split; unfold steps, checkpoints, runs, definitions; cbn; rewrite ?Es, ?Ec, ?Ed, ?Er;
      try apply O.
    intros k u. rewrite lookup_insert_Some. intros [[<- <-]|[_ Hk]]; [done|by apply O]. }
  destruct r as [[]|e|]; [|done|done]. cbn. apply K; [done|].
  unfold checkpoints. cbn. rewrite Ec. by eapply Hm.
Qed.

(** A tool execution is no model call. *)
Lemma spend_executed r s id o v i ctx ap c :
  spend (cov r s) (executed self (ToolExecuted id o v i ctx ap) c) (λ _, cov r s).
Proof.
  unfold executed. do 2 (apply spend_calm_bind; [eauto with calm|intros ?]).
  intros w O p. destruct (c _ _) as [y sw]. set (w' := {| w_engine := _ |}).
  assert (∀ r', calls_of r' (w_log w') = calls_of r' (w_log w)) as E.
  { intros r'. unfold w'. cbn [w_log]. rewrite calls_of_app. apply Nat.add_0_r. }
  assert (bounded w') as O'.
  { split; try apply O; intros r'; rewrite E; [|apply O]. intros Hr.
    destruct (b_recorded _ O r' Hr) as (c' & s' & ?). exists c', s'. by rewrite E. }
  assert (cov r s (w_log w') (steps w') (checkpoints w')) as C by (unfold cov; by rewrite E).
  destruct y; by split.
Qed.

Ltac spend_step :=
  cbv zeta;
  lazymatch goal with
  | |- spend _ (cbind (lift _) _) _ => apply spend_bind_lift; intros ? ?
  | |- spend _ (cbind (on_step (step_fail _ _) _) _) _ =>
      apply spend_record; intros ? (? & ? & _)%step_fail_moved
  | |- spend _ (cbind (on_step (step_succeed _ _ _) _) _) _ =>
      apply spend_record; intros ? (? & ? & _)%step_succeed_moved
  | |- spend _ (cbind (on_run (run_resume _) _) _) _ =>
      apply spend_record; intros ? ?%run_resume_id
  | |- spend _ (cbind (on_run _ _) _) _ =>
      apply spend_record; intros ? ?%run_transition_id
  | |- spend _ (cbind (save_step _ _) _) _ => apply spend_save_step; [done|]
  | |- spend _ (cbind (save_state _ _ _) _) _ =>
      apply spend_save_bind;
      [done|by try match goal with E : run_id _ = run_id _ |- _ => rewrite E end|]
  | |- spend _ (cbind (save_terminal_state _ _ _ _) _) _ => apply spend_save_bind; [done|done|]
  | |- spend _ (cbind _ _) _ => apply spend_calm_bind; [solve [calm_tac]|intros ?]
  | |- spend _ (if ?b then _ else _) _ => destruct b eqn:?
  | |- spend _ (match ?x with _ => _ end) _ => destruct x eqn:?
  | |- spend _ (ret _) _ => apply spend_ret; try done
  | |- spend _ (throw _) _ => apply spend_throw
  | |- spend _ (lift Panic) _ => by apply spend_lift
  | |- spend _ _ always => apply spend_always; solve [calm_tac]
  | |- spend _ _ _ => apply spend_calm; solve [calm_tac]
  end.
Ltac spend_tac := repeat spend_step.

Lemma spend_fail_run run s e k : spend (cov (run_id run) s) (fail_run self run s e k) always.
Proof. unfold fail_run. spend_tac. Qed.

Lemma spend_fail_approval run s e :
  spend (cov (run_id run) s) (fail_approval_for_budget self run s e) always.
Proof.
  unfold fail_approval_for_budget.
  eapply (spend_bind _ _ _ (λ _, cov (run_id run) s)); [|intros; apply spend_fail_run]. spend_tac.
Qed.

Lemma spend_tool_success r s t o :
  step_run_id t = r → spend (cov r s) (record_tool_success self s t o) (λ s', cov r s').
Proof. intros <-. unfold record_tool_success. spend_tac. Qed.
Lemma spend_tool_failure_state r s t e :
  step_run_id t = r → spend (cov r s) (record_tool_failure_state self s t e) (λ s', cov r s').
Proof. intros <-. unfold record_tool_failure_state. spend_tac. Qed.
Lemma spend_tool_failure r s t e :
  step_run_id t = r → spend (cov r s) (record_tool_failure self t s e) (λ s', cov r s').
Proof.
  intros E. unfold record_tool_failure. do 3 spend_step.
  apply spend_tool_failure_state. congruence.
Qed.

(** The next state covers the calls too; on an error, the last one does. *)
Definition cov_opt (r : Uuid) (s : AgentRuntimeState) (o : string + AgentRuntimeState)
    : assertion :=
  match o with inl _ => cov r s | inr s' => cov r s' end.

Lemma spend_opt r s (c : rt AgentRuntimeState) :
  spend (cov r s) c (λ s', cov r s') →
  spend (cov r s) (let! s' := c in ret (inr s')) (cov_opt r s).
Proof. intros C. eapply spend_bind; [exact C|]. intros s'. by apply spend_ret. Qed.

Lemma spend_execute_tool r entry t s :
  step_run_id t = r → spend (cov r s) (execute_agent_tool self entry t s) (cov_opt r s).
Proof.
  intros E. unfold execute_agent_tool. do 2 spend_step.
  eapply spend_bind; [apply spend_executed|]. intros [o|e|]; [| |spend_tac].
  - do 3 spend_step. spend_step; [|spend_tac|spend_tac].
    apply spend_opt, spend_tool_success. congruence.
  - by apply spend_opt, spend_tool_failure.
Qed.

(** The step of a pending call is a step of the run. *)
Definition owned (r : Uuid) (s : AgentRuntimeState) : assertion := λ _ m _,
  ∀ p t, rs_pending_tool s = Some p → m !! pt_step_id p = Some t → step_run_id t = r.

Lemma spend_load_step P id :
  spend P (load_step self id) (λ t l m x, m !! id = Some t ∧ P l m x).
Proof.
  unfold load_step. rewrite (over_stores _ Rec).
  eapply (spend_bind _ _ _ (λ o l m x, o = m !! id ∧ P l m x)).
  - apply spend_read; [apply spares_stores|]. by intros w a O p [= <-].
  - intros [t|]; [|apply spend_throw]. apply spend_ret. by intros l m x [<- ?].
Qed.

Lemma spend_reconcile_pending r s :
  spend (λ l m x, cov r s l m x ∧ owned r s l m x) (reconcile_pending_tool self s) (cov_opt r s).
Proof.
  unfold reconcile_pending_tool. apply spend_bind_lift. intros p Hp%ok_or_Ok.
  eapply spend_bind; [apply spend_load_step|]. intros t. cbv zeta.
  apply (spend_pure (step_run_id t = r)); [intros l m x (Ht & _ & Ow); by eapply Ow|].
  intros Et. eapply (spend_weaken (cov r s)); [|by intros l m x (_ & C & _)|done].
  destruct (step_status t); try by spend_tac.
  - spend_step. destruct (validate_output _ _ _); [|spend_tac|spend_tac].
    by apply spend_opt, spend_tool_success.
  - by apply spend_opt, spend_tool_failure_state.
Qed.

Lemma spend_wait run t s agent :
  spend (cov (run_id run) s) (wait_for_approval self run t s agent) always.
Proof.
  unfold wait_for_approval. do 2 spend_step. destruct a0; [apply spend_fail_approval|].
  do 6 spend_step. apply spend_record. intros t' _. spend_tac.
Qed.

(** *** After an approval *)

(** An answer is about the same run, and its state covers the calls. *)
Definition cov_resumed (r : Uuid) (o : resumed) : assertion := λ l m x,
  run_id o.1.2 = r ∧ cov r o.2 l m x.

Lemma spend_approved_step P run p id :
  spend P (approved_step self run p id)
    (λ o l m x, match o with inl _ => True | inr (t, _) => step_run_id t = run_id run end
                ∧ P l m x).
Proof.
  unfold approved_step. apply spend_calm_bind; [calm_tac|]. intros [t|]; [|spend_tac].
  destruct (_ || _) eqn:E; [spend_tac|]. res_inv.
  spend_step. spend_step; by apply spend_ret.
Qed.

Lemma spend_claim P t e :
  (∀ l m m' x, P l m x → P l m' x) →
  spend P (claim_step self t e)
    (λ o l m x, match o with inl _ => True | inr (t', _) => step_run_id t' = step_run_id t end
                ∧ P l m x).
Proof.
  intros Hm. unfold claim_step. destruct (step_status t); try by spend_tac.
  spend_step. apply spend_record. intros t' (_ & E & _)%step_resume_moved.
  apply spend_save_step; [done|]. by apply spend_ret.
Qed.

Lemma spend_resumed r run s (c : rt AgentRuntimeState) :
  run_id run = r → spend (cov r s) c (λ s', cov r s') →
  spend (cov r s) (let! s' := c in ret (Continue, run, s')) (cov_resumed r).
Proof. intros E C. eapply spend_bind; [exact C|]. intros s'. by apply spend_ret. Qed.

Lemma spend_reconcile_execution r run agent s p t g a e :
  run_id run = r → step_run_id t = r →
  spend (cov r s) (reconcile_execution self run agent s p t g a e) (cov_resumed r).
Proof.
  intros Er Et. unfold reconcile_execution.
  destruct (verify_for_execution _ _ _ _ _ _ _ _); [|spend_tac|spend_tac].
  spend_step; [spend_tac|]. do 2 spend_step. spend_step; [spend_tac|].
  eapply (spend_bind _ _ _ (λ t' l m x, step_run_id t' = r ∧ cov r s l m x)).
  { spend_tac. intros l m x C. split; [congruence|done]. }
  intros t'. apply (spend_pure (step_run_id t' = r)); [by intros l m x [? _]|]. intros Et'.
  eapply (spend_weaken (cov r s)); [|by intros l m x [_ ?]|done].
  spend_step; [spend_tac|]. destruct (validate_output _ _ _); [|spend_tac|spend_tac].
  by apply spend_resumed, spend_tool_success.
Qed.

Lemma spend_execute_approved r run agent s p id t g a :
  run_id run = r → step_run_id t = r →
  spend (cov r s) (execute_approved self run agent s p id t g a) (cov_resumed r).
Proof.
  intros Er Et. unfold execute_approved. do 2 spend_step. spend_step; [spend_tac|].
  cbv zeta. eapply spend_bind; [apply spend_executed|]. intros [o|e|]; [|spend_tac|spend_tac].
  do 4 spend_step. destruct (validate_output _ _ _); [|spend_tac|spend_tac].
  apply spend_resumed, spend_tool_success; congruence.
Qed.

Lemma spend_deny r run s id t d :
  run_id run = r → spend (cov r s) (deny self run s id t d) (cov_resumed r).
Proof. intros E. unfold deny. spend_tac. Qed.

Lemma spend_go r run agent s p id t g a e :
  run_id run = r → step_run_id t = r →
  spend (cov r s)
    (let! at_ := now self in
     let! exceeded := lift (duration_budget_error agent s at_) in
     match exceeded with
     | Some reason => ret (ResumeBudgetExceeded reason, run, s)
     | None =>
         match e with
         | Some execution => reconcile_execution self run agent s p t g a execution
         | None => execute_approved self run agent s p id t g a
         end
     end) (cov_resumed r).
Proof.
  intros Er Et. do 3 spend_step; [spend_tac|].
  destruct e; [by apply spend_reconcile_execution|by apply spend_execute_approved].
Qed.

Lemma spend_proceed r run agent s p id t g a :
  run_id run = r → step_run_id t = r →
  spend (cov r s) (proceed self run agent s p id t g a) (cov_resumed r).
Proof.
  intros Er Et. unfold proceed. apply spend_calm_bind; [calm_tac|]. intros e.
  eapply spend_bind; [by apply spend_claim|]. intros [x|[t' c]].
  { by apply spend_ret; intros ? ? ? [_ ?]. }
  apply (spend_pure (step_run_id t' = r)); [intros l m x [? _]; congruence|]. intros Et'.
  eapply (spend_weaken (cov r s)); [|by intros l m x [_ ?]|done].
  apply spend_calm_bind; [destruct c; calm_tac|]. intros _. cbv zeta.
  destruct (run_status run); try by spend_tac.
  - by apply spend_go.
  - do 3 spend_step. apply spend_go; congruence.
Qed.

Lemma spend_resume_approval run agent s :
  spend (cov (run_id run) s) (resume_approval self run agent s) (cov_resumed (run_id run)).
Proof.
  unfold resume_approval. do 3 spend_step; [spend_tac|]. do 2 spend_step.
  eapply spend_bind; [apply spend_approved_step|].
  intros [x|[t d]]; [by apply spend_ret; intros ? ? ? [_ ?]|].
  apply (spend_pure (step_run_id t = run_id run)); [by intros l m x [? _]|]. intros Et.
  eapply (spend_weaken (cov (run_id run) s)); [|by intros l m x [_ ?]|done].
  apply spend_calm_bind; [calm_tac|]. intros [x|q]; [spend_tac|].
  apply spend_calm_bind; [calm_tac|]. intros [decision|]; [|spend_tac]. cbv zeta.
  apply spend_calm_bind; [calm_tac|]. intros [approver|]; [|spend_tac].
  destruct (verify_decision _ _ _); [|spend_tac|spend_tac].
  do 3 spend_step; [spend_tac|].
  destruct (bool_decide _); [by apply spend_deny|by apply spend_proceed].
Qed.

(** ** The loop *)

Definition cov_flow (r : Uuid) (o : AgentRuntimeOutcome + AgentRuntimeState) : assertion :=
  match o with inl _ => λ _ _ _, True | inr s => cov r s end.

Lemma spend_ends P r (c : rt AgentRuntimeOutcome) :
  spend P c always → spend P (ends c) (cov_flow r).
Proof. intros C. unfold ends. eapply spend_bind; [exact C|]. intros. by apply spend_ret. Qed.

Lemma spend_call_tool run agent tools s c n args :
  spend (cov (run_id run) s) (call_tool self run agent tools s c n args)
    (cov_flow (run_id run)).
Proof.
  unfold call_tool. cbv zeta. destruct (_ <=? _)%N; [apply spend_ends, spend_fail_run|].
  destruct (List.find _ _) as [tool|]; [|apply spend_ends, spend_fail_run].
  do 3 spend_step. apply spend_bind_lift. intros t Ht.
  assert (step_run_id t = run_id run) as Et.
  { unfold AgentRunStep_new in Ht. by res_inv. }
  spend_step. apply spend_record. intros t' (_ & Et' & _)%step_start_moved. spend_step.
  apply spend_bind_lift. intros k Hk%ok_or_Ok. apply checked_add_Some in Hk as [-> Hk].
  set (s' := set_turn _ _ _ _).
  apply (spend_weaken (cov (run_id run) s') _ _ (cov_flow (run_id run))); [|intros l m x (?&?&?); by split_and!|done].
  do 2 spend_step.
  destruct (validate_schema _ _ _ _); [| |spend_tac].
  - destruct (bool_decide _); [by apply spend_ends, spend_wait|].
    eapply spend_bind; [apply spend_execute_tool; congruence|].
    intros [x|s2]; [apply spend_ends, spend_fail_run|by apply spend_ret].
  - eapply spend_bind; [apply spend_tool_failure; congruence|]. intros s2. by apply spend_ret.
Qed.

Section agent.
Context (agent : AgentDefinition) (Agent : (max_model_calls (agent_limits agent) ≤ B)%N).

Lemma apply_usage_covers n u s y s' :
  apply_usage u s = (y, s') → covers n s → covers n s'.
Proof. unfold apply_usage. intros E. repeat case_match; simplify_eq; done. Qed.

Lemma spend_drive_once run tools s :
  spend (cov (run_id run) s) (drive_once self run agent tools s) (cov_flow (run_id run)).
Proof.
  unfold drive_once. spend_step.
  destruct (pre_model_budget_error _ _ _) eqn:E; [apply spend_ends, spend_fail_run|].
  unfold pre_model_budget_error in E. destruct (_ <=? _)%N eqn:M in E; [done|].
  rewrite N.leb_gt in M. clear E. set (r := run_id run).
  apply spend_bind_lift. intros k Hk%ok_or_Ok. apply checked_add_Some in Hk as [-> Hk].
  cbv zeta. set (s1 := set_counters _ _ _).
  apply (spend_weaken (λ l _ _, covers (Datatypes.S (calls_of r l)) s1) _ _ (cov_flow r));
    [|intros l m x (?&?&?); split_and!; cbn in *; lia|done].
  eapply spend_bind; [apply spend_save; [done|]|].
  { intros l m x (?&?&?). split_and!; cbn in *; lia. }
  intros []. spend_step. eapply spend_bind.
  { apply (spend_complete _ r _ s1). intros l m x [C Nw]. split_and!; [done|cbn; lia|done]. }
  intros [turn|e|]; [|apply spend_ends, spend_fail_run|spend_tac].
  destruct (apply_usage _ _) as [y s2] eqn:U.
  apply (spend_weaken (cov r s2) _ _ (cov_flow r));
    [|intros l m x C; by eapply apply_usage_covers|done].
  destruct y as [[]|e|]; [|apply spend_ends, spend_fail_run|spend_tac].
  do 2 spend_step. set (s3 := set_turn _ _ _ _).
  apply (spend_weaken (cov r s3) _ _ (cov_flow r)); [|done|done].
  destruct (post_model_budget_error _ _ _); [by apply spend_ends, spend_fail_run|].
  destruct (mt_decision turn) as [c n args|output]; [by apply spend_call_tool|].
  spend_step. apply spend_ends. spend_tac.
Qed.

Lemma spend_drive_loop fuel run tools s :
  spend (cov (run_id run) s) (drive_loop self fuel run agent tools s) always.
Proof.
  revert s. induction fuel as [|fuel IH]; intros s; cbn [drive_loop]; [spend_tac|].
  eapply spend_bind; [apply spend_drive_once|]. intros [o|s']; [by apply spend_ret|apply IH].
Qed.

Lemma spend_drive run tools s :
  spend (λ l m x, cov (run_id run) s l m x ∧ owned (run_id run) s l m x)
    (drive self run agent tools s) always.
Proof.
  unfold drive. destruct (_ || _); [spend_tac|]. destruct (bool_decide _).
  - apply (spend_weaken (cov (run_id run) s) _ _ always); [|by intros l m x [? _]|done].
    do 3 spend_step; [apply spend_fail_approval|].
    eapply spend_bind; [apply spend_resume_approval|]. intros [[y run'] s'].
    apply (spend_pure (run_id run' = run_id run)); [by intros l m x [? _]|]. intros E.
    apply (spend_weaken (cov (run_id run') s') _ _ always);
      [|intros l m x [_ ?]; by rewrite E|done].
    destruct y; [by apply spend_ret|apply spend_drive_loop|apply spend_fail_run|
      apply spend_fail_approval].
  - destruct (is_some _).
    + eapply spend_bind; [apply spend_reconcile_pending|].
      intros [x|s']; [apply spend_fail_run|apply spend_drive_loop].
    + eapply spend_weaken; [apply spend_drive_loop|by intros l m x [? _]|done].
Qed.

(** ** The evidence of a run *)

Lemma spend_list_steps P r :
  spend P (stored (st_list_agent_run_steps (rt_stores self) r))
    (λ ts l m x, (∀ t, t ∈ ts → step_run_id t = r ∧ m !! step_id t = Some t) ∧ P l m x).
Proof.
  rewrite (over_stores _ Rec). apply spend_read; [apply spares_stores|].
  intros w ts O p [= <-]. split; [|done]. intros t.
  rewrite sort_by_key2_elem, list_elem_of_filter, btree_values_elem. intros [Er [k Hk]].
  split; [done|]. by rewrite (b_steps _ O _ _ Hk).
Qed.

Lemma find_step_elem id ts t : find_step id ts = Some t → t ∈ ts ∧ step_id t = id.
Proof.
  intros [Hin E]%List.find_some. apply bool_decide_eq_true in E.
  split; [by apply list_elem_of_In|done].
Qed.

Lemma spend_resume_evidence P run s cs es :
  spend P (validate_generic_resume_evidence self run agent s cs es)
    (λ _ l m x, owned (run_id run) s l m x ∧ P l m x).
Proof.
  unfold validate_generic_resume_evidence. eapply spend_bind; [apply spend_list_steps|].
  intros ts. do 2 (apply spend_calm_bind; [calm_tac|intros ?]). spend_step; [|spend_step].
  - spend_step; [spend_tac|]. res_inv. apply spend_ret. intros l m x [_ ?]. by split.
  - spend_step; [spend_tac|]. res_inv. apply spend_ret. intros l m x [_ ?].
    split; [|done]. intros p t.
    match goal with E : s = set_end _ _ _ |- _ => rewrite E end. done.
  - apply spend_calm_bind; [calm_tac|]. intros es'. do 2 spend_step.
    apply spend_lift. intros [] l m x E [Hts p]. split; [|done].
    intros q t Hq Ht. unfold check_pending in E. rewrite Hq in E. res_inv.
    match goal with E : find_step _ _ = Some _ |- _ => apply find_step_elem in E as [Hin Ei] end.
    apply Hts in Hin as [Er Hm]. rewrite Ei in Hm. congruence.
Qed.

(** A run without checkpoints has made no call. *)
Lemma spend_list_calls P r :
  spend P (stored (st_list_agent_checkpoints (rt_stores self) r))
    (λ cs l _ _, cs = [] → calls_of r l = 0).
Proof.
  rewrite (over_stores _ Rec). apply spend_read; [apply spares_stores|].
  intros w cs O p [= <-] E. destruct (decide (calls_of r (w_log w) = 0)) as [|N]; [done|].
  apply (b_recorded _ O) in N as (c & s & [Hc _] & _). apply listed_elem in Hc.
  change (listed (checkpoints w) r = []) in E. rewrite E in Hc. by apply elem_of_nil in Hc.
Qed.

(** A run that is ready for the loop. *)
Definition ready (r : Uuid) (o : AgentRun * AgentRuntimeState) : assertion := λ l m x,
  run_id o.1 = r ∧ cov r o.2 l m x ∧ owned r o.2 l m x.

Lemma spend_ready P run s cs es :
  (∀ l m x, P l m x → cov (run_id run) s l m x) →
  spend P (let! _ := validate_generic_resume_evidence self run agent s cs es in ret (run, s))
    (ready (run_id run)).
Proof.
  intros HP. eapply spend_bind; [apply spend_resume_evidence|]. intros [].
  apply spend_ret. intros l m x [? p]. split_and!; [done|by eapply HP|done].
Qed.

Lemma spend_bootstrap P run :
  spend P (reconcile_generic_bootstrap self run agent) (ready (run_id run)).
Proof.
  unfold reconcile_generic_bootstrap. do 2 spend_step. cbv zeta.
  eapply spend_bind; [apply spend_list_calls|]. intros cs.
  do 3 spend_step. spend_step.
  - spend_step. eapply spend_bind; [apply spend_state|]. intros s. spend_step; [spend_tac|].
    apply spend_ready. by intros l m x [? _].
  - spend_step. set (P0 := λ l _ _, _ → _).
    eapply (spend_bind _ _ _ (λ run' l m x, run_id run' = run_id run ∧ P0 l m x)).
    { spend_tac. }
    intros run'. apply (spend_pure (run_id run' = run_id run)); [by intros l m x [? _]|].
    intros E. apply (spend_weaken P0 _ _ (ready (run_id run))); [|by intros l m x [_ ?]|done].
    eapply (spend_bind _ _ _ (λ _ _ _ _, True)).
    { destruct (bool_decide _) eqn:Ec; [|by apply spend_ret]. apply bool_decide_eq_true in Ec.
      apply spend_save_bind; [done| |].
      - intros l m x Z. unfold cov. rewrite E, (Z Ec). split_and!; cbn; lia.
      - apply spend_calm_bind; [calm_tac|]. intros cs'.
        eapply spend_weaken; [apply spend_calm; calm_tac|done|done]. }
    intros [].
    eapply (spend_bind _ _ _ (λ _ _ _ _, True)); [spend_tac|]. intros [].
    do 3 spend_step. eapply spend_bind; [apply spend_state|]. intros s. spend_step; [spend_tac|].
    rewrite <- E. apply spend_ready. by intros l m x [? _].
Qed.

End agent.

(** ** Starting and resuming *)

Lemma spend_load_agent P id :
  spend P (load_agent self id)
    (λ a l m x, (max_model_calls (agent_limits a) ≤ B)%N ∧ P l m x).
Proof.
  unfold load_agent. rewrite (over_stores _ Rec).
  eapply (spend_bind _ _ _ (λ o l m x,
    match o with Some a => (max_model_calls (agent_limits a) ≤ B)%N | None => True end ∧ P l m x)).
  - apply spend_read; [apply spares_stores|].
    intros w [a|] O p [= E]; [|done]. split; [by eapply b_agents|done].
  - intros [a|]; [|spend_tac]. spend_step. res_inv. spend_tac.
Qed.

Lemma spend_load_run P id :
  spend P (stored (st_load_agent_run (rt_stores self) id))
    (λ o l m x, match o with Some run => run_id run = id | None => True end ∧ P l m x).
Proof.
  rewrite (over_stores _ Rec). apply spend_read; [apply spares_stores|].
  intros w [run|] O p [= E]; [|done]. split; [by eapply b_runs|done].
Qed.

Lemma spend_drive_ready P run agent tools :
  (max_model_calls (agent_limits agent) ≤ B)%N →
  spend P (let! started := reconcile_generic_bootstrap self run agent in
           let '(run, current) := started in drive self run agent tools current) always.
Proof.
  intros Ha. eapply spend_bind; [by apply spend_bootstrap|]. intros [run' s].
  apply (spend_pure (run_id run' = run_id run)); [by intros l m x [? _]|]. intros E.
  eapply spend_weaken; [by apply spend_drive| |done]. cbn. rewrite E. by intros l m x [_ ?].
Qed.

Lemma spend_perform P c : spend P (perform self c) always.
Proof.
  destruct c as [id goal|id]; cbn [perform].
  - unfold start, start_agent. eapply spend_bind; [apply spend_load_agent|]. intros agent.
    apply (spend_pure (max_model_calls (agent_limits agent) ≤ B)%N); [by intros l m x [? _]|].
    intros Ha. do 5 spend_step. by apply spend_drive_ready.
  - unfold resume, resume_agent. eapply spend_bind; [apply spend_load_run|].
    intros [run|]; [|by apply spend_bind_lift].
    apply (spend_pure (run_id run = id)); [by intros l m x [? _]|]. intros <-.
    apply spend_bind_lift. intros ? [= <-]. spend_step; [spend_tac|]. spend_step.
    eapply spend_bind; [apply spend_load_agent|]. intros agent.
    apply (spend_pure (max_model_calls (agent_limits agent) ≤ B)%N); [by intros l m x [? _]|].
    intros Ha. spend_step. destruct (run_status run); try by spend_tac.
    1,2: by apply spend_drive_ready.
    all: eapply spend_bind; [apply spend_state|]; intros s; spend_step; [spend_tac|].
    all: spend_step; [|spend_tac].
    do 3 spend_step. eapply spend_bind; [by apply spend_resume_evidence|]. intros [].
    eapply spend_weaken; [by apply spend_drive| |done]. by intros l m x (? & ? & _); split.
Qed.

End spend.

(** ** The theorem *)

Section history.
Context {S W G : Type} `{Externals, RuntimeExternals} {HL : ExternalsLaws}.
Notation world := (World S W (Recording G)).

(** What happens between calls of the runtime, to everything but its run store: to
    approvals, events and evaluations, to the faults that the stores will show, and to the
    provider. *)
Definition elsewhere (r : Recording G) (w : world) : world :=
  let s := rec_runs (w_rest w) in
  with_rest
    {| rec_runs := {| rs_runs := rs_runs s; rs_steps := rs_steps s;
                      rs_checkpoints := rs_checkpoints s;
                      rs_evaluations := rs_evaluations (rec_runs r);
                      rs_definitions := rs_definitions s; rs_events := rs_events (rec_runs r);
                      rs_claims := rs_claims (rec_runs r) |};
       rec_approvals := rec_approvals r; rec_faults := rec_faults r;
       rec_ids := N.max (rec_ids (w_rest w)) (rec_ids r); rec_other := rec_other r |} w.

Definition course (self : AgentRuntime S W (Recording G)) (xs : list (happening (G := G)))
    (w : world) : world :=
  foldl (λ w x, match x with
                | Performs c => (perform self c w).2
                | Outside r => elsewhere r w
                end) w xs.

Lemma course_bounded B self xs (w : world) :
  over_recording self → bounded B w → bounded B (course self xs w).
Proof.
  intros Rec. revert w. induction xs as [|x xs IH]; intros w O; [done|]. cbn. apply IH.
  destruct x as [c|r]; [by apply (spend_perform B self Rec (λ _ _ _, True) c w O)|].
  split; apply O.
Qed.
End history.

(** C10: The model-call budget of a run holds over its whole life.  Take the runtime over the
    recording stores, from a store in which runs and steps are under their identifiers and
    no agent may make more than [B] model calls, and any course of [start] and [resume]
    calls with store operations that fail before or after their effect, while approvals,
    events and evaluations change in any way in between.  Then the model was asked at most
    [B] times for each run: a crash and a resume never give a call back, since each call is
    counted in a stored checkpoint before it is made. *)
Theorem model_calls_bounded {S W G} `{Externals, RuntimeExternals} {HL : ExternalsLaws}
    (self : AgentRuntime S W (Recording G)) (Rec : over_recording self) (B : N)
    (w : World S W (Recording G)) (Log : w_log w = [])
    (Steps : ∀ k t, steps w !! k = Some t → step_id t = k)
    (Runs : ∀ k r, runs w !! k = Some r → run_id r = k)
    (Agents : ∀ k a, definitions w !! k = Some a → (max_model_calls (agent_limits a) ≤ B)%N)
    (xs : list (happening (G := G))) (run : Uuid) :
  (N.of_nat (calls_of run (w_log (course self xs w))) ≤ B)%N.
Proof.
  apply (b_bound B), course_bounded; [done|].
  split; rewrite ?Log; try done. intros r. cbn. lia.
Qed.
