(* ===== verification/AgentRuntimeSample.v ===== *)
(** * Agent runs, computed

    A runtime over the recording stores with two tools, one of them human-only, a scripted
    provider and a clock that counts: the theorems on the agent runtime are instantiated
    with it, and runs of it are evaluated. *)

From S2P Require Import Prelude RustStr Externals Delegation Json Canonical Serialized.
From S2P Require Import Evidence OperatorCommon StrictDigest Registry Approval.
From S2P Require Import ExecutionStore Engine EngineProofs EngineTotal Agent AgentRun AgentRunStore.
From S2P Require Import AgentModel AgentRuntime AgentRecording AgentRuntimeProofs.
From S2P Require Import AgentRuntimeCalm AgentRuntimeLife AgentRuntimeBudget.
From stdpp Require Import options.

Module AgentSample.

Definition externals : RuntimeExternals :=
  {| json_from_str s := inr (JObject []);
     validator_new _ := inr (λ _, []);
     duration_seconds n := if (n <=? i64_max / 1000)%Z then Some (Duration_seconds n) else None;
     checked_add_signed t d := Some (t + d)%Z;
     max_utc := 0%Z |}.

#[local] Existing Instance Sample.sample.
#[local] Existing Instance externals.
#[local] Existing Instance Sample.sample_laws.

Definition entry (operation : string) (governance : Governance) : RegistryEntry :=
  {| re_operation := operation; re_domain := "object"; re_version := "v1";
     re_action := "act"; re_description := "d"; re_input_schema := "{}";
     re_output_schema := "{}"; re_required_authority := "a"; re_governance := governance;
     re_idempotency := "none"; re_consequence := "c"; re_evidence_contract := "e";
     re_benchmark := None; re_status := Active; re_deprecated_since := None;
     re_replacement_operation := None |}.

Definition registry : Registry :=
  registry_of [entry "object.create" AgentExecutable; entry "object.delete" HumanOnly].

Definition key : Keypair := generate_keypair_for Agent 7 1000 "secret".
Definition human : Keypair := generate_keypair_for Human 8 900 "human-secret".

Definition engine : ExecutionEngine RecordingStore N :=
  register_handler (counting_handler "object.create" NoReplay false)
    (register_handler (counting_handler "object.delete" NoReplay false)
       (with_storage (@recording_store Sample.sample 40) (new_with_keypair registry key))).

Definition agent : AgentDefinition :=
  {| agent_id := 20; agent_name := "a"; agent_instructions := "i"; agent_provider := "P";
     agent_model := "m";
     agent_tools := [{| tool_operation := "object.create"; tool_version := "v1" |};
                     {| tool_operation := "object.delete"; tool_version := "v1" |}];
     agent_limits := AgentLimits_default; agent_created_at := 5 |}.

(** The clock, and the turns that the provider will give. *)
Definition provider : Type := Z * list ModelTurn.

Definition gateway : ModelGateway provider :=
  {| mg_provider := "p";
     mg_complete _ g :=
       match g.2 with
       | [] => (Err (ModelGatewayError.Request "no turn"), g)
       | turn :: rest => (Ok turn, (g.1, rest))
       end |}.

Definition turn (response : string) (decision : ModelDecision) : ModelTurn :=
  {| mt_response_id := response; mt_returned_model := None;
     mt_response_body_digest := None; mt_decision := decision;
     mt_usage := {| us_input_tokens := 2; us_output_tokens := 3; us_total_tokens := 5;
                    us_cost_microusd := Some 1%N |} |}.

Definition runtime : AgentRuntime RecordingStore N (Recording provider) :=
  {| rt_registry := registry; rt_engine := engine; rt_identity := key;
     rt_workspace_path := "/w"; rt_stores := recording_stores;
     rt_model := recording_gateway gateway; rt_approval_ttl := Duration_seconds 900;
     rt_clock := recording_clock (λ g, (g.1, ((g.1 + 1)%Z, g.2)));
     rt_files := {| fl_manifest_dir := "/m"; fl_read _ := None |} |}.

Definition world_of (a : AgentDefinition) (turns : list ModelTurn)
    : World RecordingStore N (Recording provider) :=
  {| w_engine := (RecordingStore_default, 0%N);
     w_rest :=
       {| rec_runs := set_definitions {[20%N := a]} RecordingAgentRunStore_default;
          rec_approvals := RecordingApprovalStore_default; rec_faults := []; rec_ids := 100;
          rec_other := (10%Z, turns) |};
     w_log := [] |}.

Definition world := world_of agent.

Definition args : json := JObject [("title", JString "T")].

Definition turns :=
  [turn "r1" (ToolCall "c1" "proof_object_v1_object_create" args);
   turn "r2" (ToolCall "c2" "proof_object_v1_object_delete" args);
   turn "r3" (Finish "done")].


(** The human decides on the one request that there is. *)
Definition decide_on (outcome : ApprovalOutcome) (r : Recording provider) : Recording provider :=
  match btree_values (ras_requests (rec_approvals r)) with
  | [request] =>
      match SignedApprovalDecision_create request outcome None 70 human 90 with
      | Ok decision =>
          {| rec_runs := rec_runs r;
             rec_approvals :=
               (save_approval_decision decision
                  (trust_approver (principal_from_keypair human) (rec_approvals r)).2).2;
             rec_faults := []; rec_ids := rec_ids r; rec_other := rec_other r |}
      | _ => r
      end
  | _ => r
  end.

Definition start_call : RuntimeCall := Start 20 "goal".
Definition resume_call : RuntimeCall := Resume 100.

Definition waiting : World RecordingStore N (Recording provider) :=
  (perform runtime start_call (world turns)).2.

(** A start, the approval, a resume that finishes the run, and another resume. *)
Definition approved_history : list (happening (G := provider)) :=
  [Performs start_call; Outside (decide_on Approved (w_rest waiting)); Performs resume_call;
   Performs resume_call].

(** A start whose first save after an execution fails, and two resumes. *)
Definition crashed : World RecordingStore N (Recording provider) :=
  with_rest (set_faults (replicate 34 Works ++ [FailsBefore]) (w_rest (world turns))) (world turns).
Definition crash_history : list (happening (G := provider)) :=
  [Performs start_call; Performs resume_call; Performs resume_call].

Definition limits (seconds : N) : AgentLimits :=
  {| max_steps := 20; max_model_calls := 20; max_total_tokens := 100000;
     max_duration_seconds := seconds; max_output_tokens_per_call := 4096;
     max_cost_microusd := None |}.

Definition long_agent : AgentDefinition :=
  {| agent_id := agent_id agent; agent_name := agent_name agent;
     agent_instructions := agent_instructions agent; agent_provider := agent_provider agent;
     agent_model := agent_model agent; agent_tools := agent_tools agent;
     agent_limits := limits 9223372036854776; agent_created_at := agent_created_at agent |}.

(** ** The runtime satisfies the hypotheses *)

Definition completed (r : result AgentRuntimeError.t AgentRuntimeOutcome) : option string :=
  match r with Ok (Completed _ output _) => Some output | _ => None end.
Definition failed (r : result AgentRuntimeError.t AgentRuntimeOutcome) : option string :=
  match r with Ok (Failed _ error _) => Some error | _ => None end.

#[local] Instance externals_laws : RuntimeExternalsLaws.
Proof. by split. Qed.

Lemma runtime_recording : over_recording runtime.
Proof. split; [done|by eexists|by eexists]. Qed.

Lemma registry_built :
  Registry_new [entry "object.create" AgentExecutable; entry "object.delete" HumanOnly]
  = Ok (rt_registry runtime).
Proof. vm_compute. reflexivity. Qed.

Lemma total_faulty {A} (c : call (Recording provider) string A) :
  total_call c → total_call (faulty c).
Proof.
  intros T r. unfold faulty. destruct (rec_faults r) as [|[] fs]; [apply T|apply T|done|done].
Qed.
Lemma total_runs {A} (c : call RecordingAgentRunStore string A) :
  total_call c → total_call (on_runs (G := provider) c).
Proof. intros T. apply total_faulty. intros r. specialize (T (rec_runs r)). by destruct (c _). Qed.
Lemma total_approvals {A} (c : call RecordingApprovalStore string A) :
  total_call c → total_call (on_approvals (G := provider) c).
Proof.
  intros T. apply total_faulty. intros r. specialize (T (rec_approvals r)). by destruct (c _).
Qed.

Lemma save_once_returns {T} `{EqDecision T} (m : gmap N T) k v n :
  (save_once m k v n).1 ≠ Panic.
Proof. unfold save_once. by repeat case_match. Qed.
Lemma save_versioned_returns {T} `{EqDecision T} (m : gmap N T) k n v f :
  (save_versioned_locked m k n v f).1 ≠ Panic.
Proof. unfold save_versioned_locked. by repeat case_match. Qed.

Lemma runtime_returns : returns runtime.
Proof.
  pose proof @save_once_returns as O. pose proof @save_versioned_returns as V.
  split.
  - split; intros; first [apply total_runs|apply total_approvals]; intros s; try done.
    all: unfold rs_save_agent_run_event, save_agent_run, save_agent_run_step,
      find_agent_run_step_by_approval, save_agent_checkpoint, save_agent_run_evaluation,
      save_approval_request, save_approval_execution, save_once_locked.
    all: repeat match goal with
         | |- context [let '(_, _) := save_once ?m ?k ?v ?n in _] =>
             let X := fresh in pose proof (O _ _ m k v n) as X; destruct (save_once m k v n)
         | |- context [let '(_, _) := save_versioned_locked ?m ?k ?n ?v ?f in _] =>
             let X := fresh in pose proof (V _ _ m k n v f) as X;
             destruct (save_versioned_locked m k n v f)
         | _ => case_match
         end; done.
  - intros request r. cbn. by destruct (rec_other r) as [t [|turn rest]].
  - intros st [= <-]. apply recording_store_total.
  - intros op h v input ctx Hh.
    assert (h_execute_versioned h v input ctx = λ w, (Ok JNull, (w + 1)%N)) as ->; [|done].
    change (<["object.create" := counting_handler "object.create" NoReplay false]>
      (<["object.delete" := counting_handler "object.delete" NoReplay false]>
        (∅ : gmap string (OperationHandler N))) !! op = Some h) in Hh.
    apply lookup_insert_Some in Hh as [[_ <-]|[_ Hh]]; [done|].
    apply lookup_insert_Some in Hh as [[_ <-]|[_ Hh]]; [done|by rewrite lookup_empty in Hh].
  - by eexists.
Qed.

(** ** Witnesses *)

Lemma agent_calls_confined_witness :
  (let w' := (perform runtime resume_call (outside (decide_on Approved (w_rest waiting)) waiting)).2 in
   completed (perform runtime resume_call
     (outside (decide_on Approved (w_rest waiting)) waiting)).1 = Some "done"
   ∧ executed_steps (w_log w') = [106%N; 116%N])
  ∧ let w := outside (decide_on Approved (w_rest waiting)) waiting in
    let w' := (perform runtime resume_call w).2 in
    w_log w' = w_log w
    ∨ ∃ agent fs, agent_of runtime resume_call w agent ∧ w_log w' = w_log w ++ fs
        ∧ Forall (permitted runtime agent) fs
        ∧ model_calls fs ≤ N.to_nat (max_model_calls (agent_limits agent))
        ∧ tool_calls fs ≤ Nat.max 1 (N.to_nat (max_steps (agent_limits agent))).
Proof.
  split; [vm_compute; auto|].
  exact (agent_calls_confined runtime _ registry_built resume_call _).
Defined.

Lemma agent_calls_return_witness : (perform runtime start_call (world turns)).1 ≠ Panic.
Proof.
  apply (agent_calls_return runtime _ registry_built runtime_returns).
  intros a [r' E]. assert (a = agent) as ->; [|by vm_compute].
  change ((Ok (({[20%N := agent]} : gmap N AgentDefinition) !! 20%N), w_rest (world turns))
          = (Ok (Some a) : result string _, r')) in E.
  rewrite lookup_singleton_eq in E. by simplify_eq.
Defined.

Lemma tool_steps_executed_once_witness :
  executed_steps (w_log (history runtime crash_history crashed)) = [106%N]
  ∧ failed (perform runtime resume_call (history runtime crash_history crashed)).1 ≠ None
  ∧ NoDup (executed_steps (w_log (history runtime approved_history (world turns))))
  ∧ NoDup (executed_steps (w_log (history runtime crash_history crashed))).
Proof.
  split; [vm_compute; reflexivity|]. split; [vm_compute; discriminate|]. split.
  - apply (tool_steps_executed_once runtime runtime_recording (world turns) eq_refl).
    intros k t E. destruct (lookup_empty_Some (M := gmap N) k t E).
  - apply (tool_steps_executed_once runtime runtime_recording crashed eq_refl).
    intros k t E. destruct (lookup_empty_Some (M := gmap N) k t E).
Defined.

Lemma model_calls_bounded_witness :
  calls_of 100 (w_log (course runtime approved_history (world turns))) = 3
  ∧ (N.of_nat (calls_of 100 (w_log (course runtime approved_history (world turns)))) ≤ 24)%N.
Proof.
  split; [vm_compute; reflexivity|].
  apply (model_calls_bounded runtime runtime_recording 24 (world turns) eq_refl).
  - intros k t E. destruct (lookup_empty_Some (M := gmap N) k t E).
  - intros k t E. destruct (lookup_empty_Some (M := gmap N) k t E).
  - intros k a E. change (({[20%N := agent]} : gmap N AgentDefinition) !! k = Some a) in E.
    apply lookup_singleton_Some in E as [_ <-]. vm_compute. discriminate.
Defined.

Lemma long_duration_panics_witness :
  AgentLimits_validate (agent_limits long_agent) = Ok ()
  ∧ (perform runtime start_call (world_of long_agent turns)).1 = Panic
  ∧ ∀ run step s w, (wait_for_approval runtime run step s long_agent w).1 = Panic.
Proof.
  split; [vm_compute; reflexivity|]. split; [vm_compute; reflexivity|]. intros run step s w.
  apply (long_duration_panics runtime long_agent eq_refl run step [] s w).
Defined.

End AgentSample.
