(* ===== verification/Benchmark.v ===== *)
(** * Benchmarks

    The model of [crates/proof-kernel/src/benchmark.rs]: a benchmark runs an operation
    through the engine, and passes if the operation succeeds in time and its output
    satisfies a JSON Schema.  The schema validator ([jsonschema::Validator]) is a
    parameter; the clock is read by the caller, as the elapsed milliseconds and the
    time of the report.

    The main theorem, [verify_benchmark_verdict], says when a benchmark passes and that
    a refused one runs nothing. *)

From S2P Require Import Prelude RustStr Externals Json Canonical Registry.
From S2P Require Import ExecutionStore Engine EngineProofs.
From stdpp Require Import options.

Module BenchmarkError.
Inductive t : Type :=
| InvalidSchema (reason : string)
| Execution (e : ExecutionError.t).
End BenchmarkError.

Record Benchmark := {
  bm_name : string;
  bm_description : string;
  bm_max_duration_ms : N;
  bm_success_criteria : json;
}.

Record BenchmarkResult := {
  br_benchmark : string;
  br_operation : string;
  br_version : string;
  br_passed : bool;
  br_duration_ms : N;
  br_timestamp : DateTime;
  br_failure : option string;
}.

Section benchmark.
Context {S W : Type} `{Externals}.

(** [Validator::new]: the error text, or what [is_valid] answers. *)
Variable validator_new : json → result string (json → bool).

Definition Benchmark_new (name description : string) (max_duration_ms : N)
    (success_criteria : json) : result BenchmarkError.t Benchmark :=
  let? _ := map_err BenchmarkError.InvalidSchema (validator_new success_criteria) in
  bail BenchmarkError.InvalidSchema "max_duration_ms must be greater than zero"
    when (max_duration_ms =? 0)%N;
  Ok {| bm_name := name; bm_description := description;
        bm_max_duration_ms := max_duration_ms; bm_success_criteria := success_criteria |}.

Definition BenchmarkResult_failure (benchmark : Benchmark) (operation : RegistryEntry)
    (reason : string) (now : DateTime) : BenchmarkResult :=
  {| br_benchmark := bm_name benchmark; br_operation := re_operation operation;
     br_version := re_version operation; br_passed := false; br_duration_ms := 0;
     br_timestamp := now; br_failure := Some reason |}.

Definition set_duration (duration_ms : N) (r : BenchmarkResult) : BenchmarkResult :=
  {| br_benchmark := br_benchmark r; br_operation := br_operation r;
     br_version := br_version r; br_passed := br_passed r; br_duration_ms := duration_ms;
     br_timestamp := br_timestamp r; br_failure := br_failure r |}.

(** [engine.operations().iter().find(..)] *)
Definition find_entry (e : ExecutionEngine S W) (operation version : string)
    : option RegistryEntry :=
  List.find (λ entry, bool_decide (re_operation entry = operation)
                      && bool_decide (re_version entry = version))
    (entries (e_registry e)).

Definition entry_or_not_found (e : ExecutionEngine S W) (operation version : string)
    : result BenchmarkError.t RegistryEntry :=
  ok_or (find_entry e operation version)
    (BenchmarkError.Execution (ExecutionError.OperationNotFound operation version)).

(** The verdict on an output, [elapsed] being [started.elapsed().as_millis()]. *)
Definition judge (benchmark : Benchmark) (entry : RegistryEntry) (valid : json → bool)
    (output : result ExecutionError.t json) (elapsed : N) (now : DateTime)
    : result BenchmarkError.t BenchmarkResult :=
  let duration_ms := if (elapsed <=? u64_max)%N then elapsed else u64_max in
  match output with
  | Panic => Panic
  | Err error =>
      Ok (set_duration duration_ms
            (BenchmarkResult_failure benchmark entry (ExecutionError.to_string error) now))
  | Ok output =>
      if (bm_max_duration_ms benchmark <? duration_ms)%N
      then Ok (set_duration duration_ms
                 (BenchmarkResult_failure benchmark entry
                    ("duration " +:+ pretty duration_ms +:+ " ms exceeded threshold "
                     +:+ pretty (bm_max_duration_ms benchmark) +:+ " ms") now))
      else if valid output
      then Ok {| br_benchmark := bm_name benchmark; br_operation := re_operation entry;
                 br_version := re_version entry; br_passed := true;
                 br_duration_ms := duration_ms; br_timestamp := now; br_failure := None |}
      else Ok (set_duration duration_ms
                 (BenchmarkResult_failure benchmark entry
                    "output did not satisfy benchmark success criteria" now))
  end.

Definition BenchmarkRunner_run (e : ExecutionEngine S W) (benchmark : Benchmark)
    (operation version : string) (input : json) (context : ExecutionContext) (ids : FreshIds)
    (elapsed : N) (now : DateTime) : call (S * W) BenchmarkError.t BenchmarkResult :=
  let! entry := lift (entry_or_not_found e operation version) in
  let! valid := lift (map_err BenchmarkError.InvalidSchema
                        (validator_new (bm_success_criteria benchmark))) in
  let! output := attempt (execute e operation version input context ids) in
  lift (judge benchmark entry valid output elapsed now).

Definition verify_entry (e : ExecutionEngine S W) (entry : RegistryEntry)
    (benchmark : Benchmark) (input : json) (context : ExecutionContext) (ids : FreshIds)
    (elapsed : N) (now : DateTime) : call (S * W) BenchmarkError.t BenchmarkResult :=
  stop BenchmarkError.InvalidSchema
         ("benchmark " +:+ bm_name benchmark +:+ " is not declared by operation "
          +:+ re_operation entry +:+ " " +:+ re_version entry)
    when negb (bool_decide (re_benchmark entry = Some (bm_name benchmark)));
  BenchmarkRunner_run e benchmark (re_operation entry) (re_version entry) input context ids
    elapsed now.

Definition verify_benchmark (e : ExecutionEngine S W) (operation version : string)
    (benchmark : Benchmark) (input : json) (context : ExecutionContext) (ids : FreshIds)
    (elapsed : N) (now : DateTime) : call (S * W) BenchmarkError.t BenchmarkResult :=
  let! entry := lift (entry_or_not_found e operation version) in
  verify_entry e entry benchmark input context ids elapsed now.

Lemma find_entry_some e operation version entry :
  find_entry e operation version = Some entry →
  re_operation entry = operation ∧ re_version entry = version.
Proof.
  intros [_ Hf]%List.find_some. by rewrite andb_true_iff, !bool_decide_eq_true in Hf.
Qed.

Lemma judge_verdict b entry valid x elapsed now r :
  judge b entry valid x elapsed now = Ok r →
  br_benchmark r = bm_name b ∧ br_operation r = re_operation entry
  ∧ br_version r = re_version entry ∧ br_duration_ms r = N.min elapsed u64_max
  ∧ (br_passed r = true ↔
       ∃ output, x = Ok output ∧ valid output = true
         ∧ (N.min elapsed u64_max <= bm_max_duration_ms b)%N)
  ∧ (br_failure r = None ↔ br_passed r = true).
Proof.
  clear validator_new. unfold judge.
  assert ((if (elapsed <=? u64_max)%N then elapsed else u64_max) = N.min elapsed u64_max)
    as -> by (destruct (N.leb_spec elapsed u64_max); lia).
  destruct x as [output|err|]; [|intros [= <-]; naive_solver|done].
  destruct (N.ltb_spec (bm_max_duration_ms b) (N.min elapsed u64_max)).
  { intros [= <-]. simpl. split_and!; try done.
    split; [done|]. intros (? & _ & _ & ?). lia. }
  destruct (valid output) eqn:Hv; intros [= <-]; simpl; split_and!; try done.
  - split; [eauto|done].
  - split; [done|]. intros (? & [= <-] & Hv' & _). congruence.
Qed.

(** The verdict of a benchmark.  A benchmark that the operation does not declare, or
    whose criteria are no schema, is refused without running anything.  Otherwise the
    operation is executed once, its effects are those of the execution, and the
    benchmark passes exactly if the execution succeeds within the time limit with an
    output that satisfies the criteria; a reason is given exactly if it does not. *)
Theorem verify_benchmark_verdict (e : ExecutionEngine S W) (operation version : string)
    (b : Benchmark) (input : json) (context : ExecutionContext) (ids : FreshIds)
    (elapsed : N) (now : DateTime) (w : S * W) :
  let executed := execute e operation version input context ids w in
  match verify_benchmark e operation version b input context ids elapsed now w with
  | (Err _, w') =>
      w' = w
      ∧ ((re_benchmark <$> find_entry e operation version) ≠ Some (Some (bm_name b))
         ∨ is_ok (validator_new (bm_success_criteria b)) = false)
  | (Ok r, w') =>
      w' = executed.2
      ∧ (re_benchmark <$> find_entry e operation version) = Some (Some (bm_name b))
      ∧ br_benchmark r = bm_name b ∧ br_operation r = operation ∧ br_version r = version
      ∧ br_duration_ms r = N.min elapsed u64_max
      ∧ (∃ valid, validator_new (bm_success_criteria b) = Ok valid
           ∧ (br_passed r = true ↔
                ∃ output, executed.1 = Ok output ∧ valid output = true
                  ∧ (N.min elapsed u64_max <= bm_max_duration_ms b)%N))
      ∧ (br_failure r = None ↔ br_passed r = true)
  | (Panic, _) => executed.1 = Panic ∨ validator_new (bm_success_criteria b) = Panic
  end.
Proof.
  intros executed. unfold verify_benchmark, verify_entry, BenchmarkRunner_run.
  unfold cbind, lift, attempt, entry_or_not_found, throw.
  destruct (find_entry e operation version) as [entry|] eqn:Hf; simpl; [|by split; [|left]].
  destruct (find_entry_some _ _ _ _ Hf) as [-> ->].
  case_bool_decide as Hd; simpl; [|split; [done|left; congruence]].
  rewrite Hf. simpl.
  destruct (validator_new (bm_success_criteria b)) as [valid|err|]; simpl; [|by split; [|right]|by right].
  fold executed. destruct (judge b entry valid executed.1 elapsed now) as [r|err|] eqn:E.
  - destruct (find_entry_some _ _ _ _ Hf) as [Ho Hv].
    apply judge_verdict in E as (-> & -> & -> & -> & Hp & Hr).
    rewrite Hd. split_and!; eauto.
  - unfold judge in E. destruct executed.1; [|done..].
    by repeat (destruct (N.ltb _ _) || destruct (valid _)).
  - left. unfold judge in E. destruct executed.1; [|done..].
    by repeat (destruct (N.ltb _ _) || destruct (valid _)).
Qed.

End benchmark.
