(* ===== verification/Workflow.v ===== *)
(** * Workflows

    The model of [crates/proof-workflow]: [models.rs] (definitions, runs, steps),
    [digest.rs] and [handlers.rs] (the four operations behind the engine's handler
    interface).  The JSON files below [.proof/data/workflow] of a workspace are three
    maps of typed records; a file that the handlers have written is read back as the
    record, and writing succeeds.  SHA-256, the text of third-party errors and the schema files are
    parameters; [Utc::now] and [Uuid::now_v7] are arguments.

    The theorems are about every sequence of handler calls on a workspace.
    [workflow_in_order] is the contract of a run: steps are completed in order, and
    none before the earlier ones are approved.  [workflow_refines] shows that the
    handlers implement a counter of approved steps.  [workflow_completed_runs] says
    which runs complete: those of a single step and those that end with an approval
    never do.  By [workflow_finishes] every run can be driven to its end. *)

From S2P Require Import Prelude RustStr Externals Json Canonical Serialized.
From S2P Require Import Evidence ExecutionStore Engine.
From stdpp Require Import options.

(** ** Models *)

Module WorkflowRunStatus.
Inductive t : Type := Pending | InProgress | Completed | Failed.

#[global] Instance t_eq_dec : EqDecision t.
Proof. solve_decision. Defined.

Definition debug (s : t) : string :=
  match s with
  | Pending => "Pending" | InProgress => "InProgress"
  | Completed => "Completed" | Failed => "Failed"
  end.

(** The [snake_case] name that [serde] writes. *)
Definition wire (s : t) : string :=
  match s with
  | Pending => "pending" | InProgress => "in_progress"
  | Completed => "completed" | Failed => "failed"
  end.
End WorkflowRunStatus.

Module WorkflowStepStatus.
Inductive t : Type := Pending | Completed | Approved.

#[global] Instance t_eq_dec : EqDecision t.
Proof. solve_decision. Defined.

Definition wire (s : t) : string :=
  match s with
  | Pending => "pending" | Completed => "completed" | Approved => "approved"
  end.
End WorkflowStepStatus.

Record WorkflowRunTransitionError := {
  te_from : WorkflowRunStatus.t;
  te_to : string;
}.

Definition WorkflowRunTransitionError_to_string (e : WorkflowRunTransitionError) : string :=
  "invalid workflow run transition from " +:+ WorkflowRunStatus.debug (te_from e)
  +:+ " to " +:+ te_to e.

Record WorkflowStepBlueprint := {
  bp_key : string;
  bp_name : string;
  bp_requires_approval : bool;
}.

Record WorkflowDefinition := {
  wd_id : Uuid;
  wd_name : string;
  wd_description : string;
  wd_steps : list WorkflowStepBlueprint;
  wd_created_at : DateTime;
  wd_updated_at : DateTime;
}.

Record WorkflowRun := {
  wr_id : Uuid;
  wr_workflow_definition_id : Uuid;
  wr_status : WorkflowRunStatus.t;
  wr_created_at : DateTime;
  wr_updated_at : DateTime;
}.

Record WorkflowStep := {
  ws_id : Uuid;
  ws_workflow_run_id : Uuid;
  ws_workflow_definition_id : Uuid;
  ws_key : string;
  ws_name : string;
  ws_requires_approval : bool;
  ws_status : WorkflowStepStatus.t;
  ws_created_at : DateTime;
  ws_updated_at : DateTime;
}.

Definition WorkflowStepBlueprint_new (key name : string) (requires_approval : bool)
    : result string WorkflowStepBlueprint :=
  bail "step key must not be empty" when is_blank key;
  bail "step name must not be empty" when is_blank name;
  Ok {| bp_key := key; bp_name := name; bp_requires_approval := requires_approval |}.

(** The loop over the steps, with the keys already seen. *)
Fixpoint check_step_keys (seen : list string) (steps : list WorkflowStepBlueprint)
    : result string () :=
  match steps with
  | [] => Ok ()
  | step :: steps' =>
      bail "duplicate workflow step key: " +:+ bp_key step
        when bool_decide (bp_key step ∈ seen);
      check_step_keys (bp_key step :: seen) steps'
  end.

Definition WorkflowDefinition_new (name description : string)
    (steps : list WorkflowStepBlueprint) (now : DateTime) (now_v7 : Uuid)
    : result string WorkflowDefinition :=
  bail "name must not be empty" when is_blank name;
  bail "workflow must contain at least one step" when bool_decide (steps = []);
  let? _ := check_step_keys [] steps in
  Ok {| wd_id := now_v7; wd_name := name; wd_description := description;
        wd_steps := steps; wd_created_at := now; wd_updated_at := now |}.

Definition WorkflowRun_new (workflow_definition_id : Uuid) (now : DateTime) (now_v7 : Uuid)
    : WorkflowRun :=
  {| wr_id := now_v7; wr_workflow_definition_id := workflow_definition_id;
     wr_status := WorkflowRunStatus.Pending; wr_created_at := now; wr_updated_at := now |}.

Definition run_transition_allowed (from to : WorkflowRunStatus.t) : bool :=
  match from, to with
  | WorkflowRunStatus.Pending, WorkflowRunStatus.InProgress
  | WorkflowRunStatus.InProgress, WorkflowRunStatus.Completed
  | WorkflowRunStatus.InProgress, WorkflowRunStatus.Failed => true
  | _, _ => false
  end.

Definition transition_to (next : WorkflowRunStatus.t) (now : DateTime)
    : call WorkflowRun WorkflowRunTransitionError () := λ r,
  if run_transition_allowed (wr_status r) next
  then (Ok (), {| wr_id := wr_id r;
                  wr_workflow_definition_id := wr_workflow_definition_id r;
                  wr_status := next; wr_created_at := wr_created_at r;
                  wr_updated_at := now |})
  else (Err {| te_from := wr_status r; te_to := WorkflowRunStatus.wire next |}, r).

Definition set_step_status (status : WorkflowStepStatus.t) (now : DateTime)
    (s : WorkflowStep) : WorkflowStep :=
  {| ws_id := ws_id s; ws_workflow_run_id := ws_workflow_run_id s;
     ws_workflow_definition_id := ws_workflow_definition_id s; ws_key := ws_key s;
     ws_name := ws_name s; ws_requires_approval := ws_requires_approval s;
     ws_status := status; ws_created_at := ws_created_at s; ws_updated_at := now |}.

Definition WorkflowStep_complete (now : DateTime) : call WorkflowStep string () := λ s,
  if negb (bool_decide (ws_status s = WorkflowStepStatus.Pending))
  then (Err ("workflow step " +:+ ws_key s +:+ " is not pending"), s)
  else (Ok (), set_step_status (if ws_requires_approval s then WorkflowStepStatus.Completed
                                else WorkflowStepStatus.Approved) now s).

Definition WorkflowStep_approve (now : DateTime) : call WorkflowStep string () := λ s,
  if negb (bool_decide (ws_status s = WorkflowStepStatus.Completed))
  then (Err ("workflow step " +:+ ws_key s +:+ " must be completed before approval"), s)
  else (Ok (), set_step_status WorkflowStepStatus.Approved now s).

(** ** Serialization *)

Section serialization.
Context `{Externals}.

#[export] Instance WorkflowStepBlueprint_serialize : Serialize WorkflowStepBlueprint := λ b,
  json_object [("key", JString (bp_key b)); ("name", JString (bp_name b));
               ("requires_approval", JBool (bp_requires_approval b))].

#[export] Instance WorkflowDefinition_serialize : Serialize WorkflowDefinition := λ d,
  json_object
    [("id", uuid_value (wd_id d)); ("name", JString (wd_name d));
     ("description", JString (wd_description d));
     ("steps", JArray (map to_value (wd_steps d)));
     ("created_at", utc_value (wd_created_at d));
     ("updated_at", utc_value (wd_updated_at d))].

#[export] Instance WorkflowRun_serialize : Serialize WorkflowRun := λ r,
  json_object
    [("id", uuid_value (wr_id r));
     ("workflow_definition_id", uuid_value (wr_workflow_definition_id r));
     ("status", JString (WorkflowRunStatus.wire (wr_status r)));
     ("created_at", utc_value (wr_created_at r));
     ("updated_at", utc_value (wr_updated_at r))].

#[export] Instance WorkflowStep_serialize : Serialize WorkflowStep := λ s,
  json_object
    [("id", uuid_value (ws_id s)); ("workflow_run_id", uuid_value (ws_workflow_run_id s));
     ("workflow_definition_id", uuid_value (ws_workflow_definition_id s));
     ("key", JString (ws_key s)); ("name", JString (ws_name s));
     ("requires_approval", JBool (ws_requires_approval s));
     ("status", JString (WorkflowStepStatus.wire (ws_status s)));
     ("created_at", utc_value (ws_created_at s));
     ("updated_at", utc_value (ws_updated_at s))].

End serialization.

(** ** Handlers *)

(** Third-party code of the handlers: SHA-256, the text of the errors of [uuid],
    [serde_json] and the file system, the files that hold schemas and the JSON parser,
    and [CARGO_MANIFEST_DIR]. *)
Class WorkflowExternals : Type := {
  sha256 : string → string;
  uuid_error : string → string;
  hex_error : string → string;
  serde_error : json → string;
  file_missing : string;
  manifest_dir : string;
  path_exists : string → bool;
  read_to_string : string → result string string;
  serde_from_str : string → result string json;
}.

Record WorkflowStore := {
  wf_definitions : gmap N WorkflowDefinition;
  wf_runs : gmap N WorkflowRun;
  wf_steps : gmap N WorkflowStep;
}.

Definition WorkflowStore_empty : WorkflowStore :=
  {| wf_definitions := ∅; wf_runs := ∅; wf_steps := ∅ |}.

Record JsonSchema := {
  js_required : list string;
  js_properties : list (string * json);
  js_additional_properties : bool;
}.

Section handlers.
Context `{Externals} `{WorkflowExternals}.

Definition input_error (message : string) : ExecutionError.t :=
  ExecutionError.HandlerFailed message.

(** [PathBuf::join] of a relative path. *)
Definition path_join (base file : string) : string :=
  if bool_decide (base = EmptyString) || ends_with "/" base then base +:+ file
  else base +:+ "/" +:+ file.

Definition schema_candidates (workspace_path file_name : string) : list string :=
  [path_join workspace_path file_name;
   path_join (path_join workspace_path ".proof/registry") file_name;
   path_join (path_join (path_join (path_join manifest_dir "..") "..") "registry") file_name;
   path_join (path_join workspace_path "crates/proof-workflow") file_name;
   path_join (path_join workspace_path "schemas") file_name;
   path_join (path_join workspace_path "registry") file_name].

Definition registry_schema (context : ExecutionContext) (operation file_name : string)
    : result ExecutionError.t json :=
  let workspace_path := ctx_workspace_path context in
  let registry_path :=
    default (path_join workspace_path file_name)
      (List.find path_exists (schema_candidates workspace_path file_name)) in
  let? contents := map_err (λ error, ExecutionError.HandlerFailed
                      ("failed to read registry schema: " +:+ error))
                     (read_to_string registry_path) in
  map_err (λ error, ExecutionError.HandlerFailed
             ("invalid registry schema for " +:+ operation +:+ ": " +:+ error))
    (serde_from_str contents).

(** The derived reader of one field, with its default. *)
Definition read_required (o : option json) : option (list string) :=
  match o with
  | None => Some []
  | Some (JArray items) => mapM as_str items
  | Some _ => None
  end.
Definition read_properties (o : option json) : option (list (string * json)) :=
  match o with
  | None => Some []
  | Some (JObject m) => Some m
  | Some _ => None
  end.
Definition read_additional (o : option json) : option bool :=
  match o with
  | None => Some false
  | Some (JBool b) => Some b
  | Some _ => None
  end.

Definition read_schema (required properties additional : option json) : option JsonSchema :=
  r ← read_required required;
  p ← read_properties properties;
  a ← read_additional additional;
  Some {| js_required := r; js_properties := p; js_additional_properties := a |}.

Definition JsonSchema_parse (schema : json) : result ExecutionError.t JsonSchema :=
  let parsed :=
    match schema with
    | JObject m => read_schema (obj_get "required" m) (obj_get "properties" m)
                     (obj_get "additional_properties" m)
    | JArray l => if length l <=? 3 then read_schema (l !! 0) (l !! 1) (l !! 2) else None
    | _ => None
    end in
  ok_or parsed (ExecutionError.HandlerFailed
                  ("registry schema is invalid: " +:+ serde_error schema)).

Definition has_key {A} (k : string) (m : list (string * A)) : bool :=
  bool_decide (is_Some (obj_get k m)).

Definition JsonSchema_validate (s : JsonSchema) (input : json)
    : result ExecutionError.t () :=
  let? input := ok_or (as_object input) (input_error "input must be a JSON object") in
  match List.find (λ key, negb (has_key key input)) (js_required s) with
  | Some key => Err (input_error ("missing required field: " +:+ key))
  | None =>
      match List.find (λ key, negb (has_key key (js_properties s))
                              && negb (js_additional_properties s)) (map fst input) with
      | Some key => Err (input_error ("unknown field: " +:+ key))
      | None => Ok ()
      end
  end.

(** ** Digests and step identifiers *)

(** The [expect] of [canonical_digest] is a panic. *)
Definition canonical_digest (v : json) : result ExecutionError.t string :=
  match canonicalize v with
  | Ok encoded => Ok ("sha256:" +:+ Canonical.hex (sha256 encoded))
  | _ => Panic
  end.

Fixpoint trim_prefixes (fuel : nat) (p s : string) : string :=
  match fuel with
  | O => s
  | S fuel =>
      match strip_prefix p s with
      | Some s' => trim_prefixes fuel p s'
      | None => s
      end
  end.

Definition is_hex_digit (c : ascii) : bool :=
  is_ascii_digit c || byte_in "a" "f" c || byte_in "A" "F" c.

Definition hex_decode (s : string) : option string :=
  if Nat.even (String.length s) && all_bytes is_hex_digit s then Some (unhex s) else None.

Fixpoint big_endian (acc : N) (s : string) : N :=
  match s with
  | EmptyString => acc
  | String c s' => big_endian (256 * acc + N_of_ascii c) s'
  end.

Definition derive_step_id (run_id : Uuid) (key : string) : result ExecutionError.t Uuid :=
  let? digest := canonical_digest (json_object [("run_id", uuid_value run_id);
                                                ("step_key", JString key)]) in
  let hex_digest := trim_prefixes (String.length digest) "sha256:" digest in
  let? bytes := ok_or (hex_decode hex_digest)
                  (input_error ("failed to derive workflow step id: "
                                +:+ hex_error hex_digest)) in
  if String.length bytes <? 16 then Panic
  else Ok (big_endian 0 (String.substring 0 16 bytes)).

(** ** Files *)

Definition load_error (kind : string) (id : Uuid) : ExecutionError.t :=
  ExecutionError.HandlerFailed ("failed to load " +:+ kind +:+ " " +:+ uuid_to_string id
                                +:+ ": " +:+ file_missing).

Definition load_definition (id : Uuid)
    : call WorkflowStore ExecutionError.t WorkflowDefinition := λ w,
  (ok_or (wf_definitions w !! id) (load_error "workflow definition" id), w).
Definition load_run (id : Uuid) : call WorkflowStore ExecutionError.t WorkflowRun := λ w,
  (ok_or (wf_runs w !! id) (load_error "workflow run" id), w).
Definition load_step (id : Uuid) : call WorkflowStore ExecutionError.t WorkflowStep := λ w,
  (ok_or (wf_steps w !! id) (load_error "workflow step" id), w).

Definition save_definition (d : WorkflowDefinition)
    : call WorkflowStore ExecutionError.t () := λ w,
  (Ok (), {| wf_definitions := <[wd_id d := d]> (wf_definitions w);
             wf_runs := wf_runs w; wf_steps := wf_steps w |}).
Definition save_run (r : WorkflowRun) : call WorkflowStore ExecutionError.t () := λ w,
  (Ok (), {| wf_definitions := wf_definitions w;
             wf_runs := <[wr_id r := r]> (wf_runs w); wf_steps := wf_steps w |}).
Definition save_step (id : Uuid) (s : WorkflowStep)
    : call WorkflowStore ExecutionError.t () := λ w,
  (Ok (), {| wf_definitions := wf_definitions w; wf_runs := wf_runs w;
             wf_steps := <[id := s]> (wf_steps w) |}).

(** [iter().map(..).collect::<Result<Vec<_>, _>>()] with effects: stops at the first
    error. *)
Fixpoint collect_calls {A B} (f : A → call WorkflowStore ExecutionError.t B) (l : list A)
    : call WorkflowStore ExecutionError.t (list B) :=
  match l with
  | [] => ret []
  | a :: l' =>
      let! b := f a in
      let! bs := collect_calls f l' in
      ret (b :: bs)
  end.

Definition load_steps (run : WorkflowRun) (definition : WorkflowDefinition)
    : call WorkflowStore ExecutionError.t (list WorkflowStep) :=
  collect_calls (λ blueprint,
    let! id := lift (derive_step_id (wr_id run) (bp_key blueprint)) in
    load_step id) (wd_steps definition).

(** ** Inputs *)

Definition parse_id (input : json) (key : string) : result ExecutionError.t Uuid :=
  let? value := ok_or (value_get key input ≫= as_str)
                  (input_error ("missing required field: " +:+ key)) in
  ok_or (uuid_parse_str value)
    (input_error ("invalid " +:+ key +:+ ": " +:+ uuid_error value)).

Definition as_bool (v : json) : option bool :=
  match v with JBool b => Some b | _ => None end.
Definition as_array (v : json) : option (list json) :=
  match v with JArray l => Some l | _ => None end.

Definition parse_step (raw_step : json) : result ExecutionError.t WorkflowStepBlueprint :=
  let? key := ok_or (value_get "key" raw_step ≫= as_str)
                (input_error "invalid workflow step: missing key") in
  let? name := ok_or (value_get "name" raw_step ≫= as_str)
                 (input_error "invalid workflow step: missing name") in
  let? requires_approval :=
    ok_or (value_get "requires_approval" raw_step ≫= as_bool)
      (input_error "invalid workflow step: missing requires_approval") in
  map_err input_error (WorkflowStepBlueprint_new key name requires_approval).

Definition parse_steps (input : json)
    : result ExecutionError.t (list WorkflowStepBlueprint) :=
  let? raw_steps := ok_or (value_get "steps" input ≫= as_array)
                      (input_error "missing required field: steps") in
  collect (map parse_step raw_steps).

(** ** The operations *)

Definition execute_define (input : json) (now : DateTime) (now_v7 : Uuid)
    : call WorkflowStore ExecutionError.t json :=
  let! name := lift (ok_or (value_get "name" input ≫= as_str)
                       (input_error "missing required field: name")) in
  let description := default EmptyString (value_get "description" input ≫= as_str) in
  let! steps := lift (parse_steps input) in
  let! definition := lift (map_err input_error
                       (WorkflowDefinition_new name description steps now now_v7)) in
  let! _ := save_definition definition in
  let! content_digest := lift (canonical_digest (to_value definition)) in
  ret (json_object
    [("workflow_definition_id", uuid_value (wd_id definition));
     ("name", JString (wd_name definition));
     ("description", JString (wd_description definition));
     ("steps", JArray (map to_value (wd_steps definition)));
     ("created_at", utc_value (wd_created_at definition));
     ("content_digest", JString content_digest)]).

Definition new_step (run : WorkflowRun) (definition : WorkflowDefinition) (id : Uuid)
    (blueprint : WorkflowStepBlueprint) : WorkflowStep :=
  {| ws_id := id; ws_workflow_run_id := wr_id run;
     ws_workflow_definition_id := wd_id definition; ws_key := bp_key blueprint;
     ws_name := bp_name blueprint; ws_requires_approval := bp_requires_approval blueprint;
     ws_status := WorkflowStepStatus.Pending; ws_created_at := wr_created_at run;
     ws_updated_at := wr_created_at run |}.

Definition create_step (run : WorkflowRun) (definition : WorkflowDefinition)
    (blueprint : WorkflowStepBlueprint) : call WorkflowStore ExecutionError.t WorkflowStep :=
  let! id := lift (derive_step_id (wr_id run) (bp_key blueprint)) in
  let step := new_step run definition id blueprint in
  let! _ := save_step (ws_id step) step in
  ret step.

Definition step_summary (step : WorkflowStep) : json :=
  json_object
    [("key", JString (ws_key step)); ("name", JString (ws_name step));
     ("requires_approval", JBool (ws_requires_approval step));
     ("status", JString (WorkflowStepStatus.wire (ws_status step)))].

Definition execute_trigger (input : json) (now : DateTime) (now_v7 : Uuid)
    : call WorkflowStore ExecutionError.t json :=
  let! definition_id := lift (parse_id input "workflow_id") in
  let! definition := load_definition definition_id in
  let run := WorkflowRun_new (wd_id definition) now now_v7 in
  let! steps := collect_calls (create_step run definition) (wd_steps definition) in
  let! _ := save_run run in
  let! content_digest := lift (canonical_digest (to_value run)) in
  ret (json_object
    [("workflow_run_id", uuid_value (wr_id run));
     ("workflow_definition_id", uuid_value (wr_workflow_definition_id run));
     ("status", JString (WorkflowRunStatus.wire (wr_status run)));
     ("steps", JArray (map step_summary steps));
     ("created_at", utc_value (wr_created_at run));
     ("content_digest", JString content_digest)]).

(** [iter().position(|step| step.status == status)] *)
Fixpoint step_position (status : WorkflowStepStatus.t) (steps : list WorkflowStep)
    : option nat :=
  match steps with
  | [] => None
  | step :: steps' =>
      if bool_decide (ws_status step = status) then Some 0
      else S <$> step_position status steps'
  end.

Definition is_approved (step : WorkflowStep) : bool :=
  bool_decide (ws_status step = WorkflowStepStatus.Approved).

(** The status that a run takes after a step of it was completed. *)
Definition advance_run (steps : list WorkflowStep) (run : WorkflowRun) (now : DateTime)
    : result ExecutionError.t WorkflowRun :=
  let go next :=
    match transition_to next now run with
    | (Ok _, run') => Ok run'
    | (Err e, _) => Err (input_error (WorkflowRunTransitionError_to_string e))
    | (Panic, _) => Panic
    end in
  if forallb is_approved steps then go WorkflowRunStatus.Completed
  else if bool_decide (wr_status run = WorkflowRunStatus.Pending)
  then go WorkflowRunStatus.InProgress
  else Ok run.

Definition execute_step_complete (input : json) (step_now run_now : DateTime)
    : call WorkflowStore ExecutionError.t json :=
  let! run_id := lift (parse_id input "run_id") in
  let! run := load_run run_id in
  let! definition := load_definition (wr_workflow_definition_id run) in
  let! steps := load_steps run definition in
  let! step_index := lift (ok_or (step_position WorkflowStepStatus.Pending steps)
                             (input_error "workflow run has no pending step")) in
  let! step := lift (expect (steps !! step_index)) in
  stop input_error ("workflow step " +:+ ws_key step
                    +:+ " cannot complete before earlier steps are approved")
    when existsb (λ step, negb (is_approved step)) (take step_index steps);
  let! completed :=
    match WorkflowStep_complete step_now step with
    | (Ok _, step') => ret step'
    | (Err e, _) => throw (input_error e)
    | (Panic, _) => lift Panic
    end in
  let steps := <[step_index := completed]> steps in
  let! _ := save_step (ws_id step) completed in
  let! run := lift (advance_run steps run run_now) in
  let! _ := save_run run in
  let! content_digest := lift (canonical_digest (to_value run)) in
  ret (json_object
    [("workflow_run_id", uuid_value (wr_id run)); ("step_key", JString (ws_key step));
     ("step_status", JString (WorkflowStepStatus.wire (ws_status completed)));
     ("run_status", JString (WorkflowRunStatus.wire (wr_status run)));
     ("updated_at", utc_value (wr_updated_at run));
     ("content_digest", JString content_digest)]).

Definition execute_approve (input : json) (context : ExecutionContext) (now : DateTime)
    : call WorkflowStore ExecutionError.t json :=
  stop ExecutionError.HumanOnly
    when negb (bool_decide (ctx_principal_kind context = Some Human));
  let! run_id := lift (parse_id input "run_id") in
  let! run := load_run run_id in
  let! definition := load_definition (wr_workflow_definition_id run) in
  let! steps := load_steps run definition in
  let! step_index :=
    lift (ok_or (step_position WorkflowStepStatus.Completed steps)
            (input_error "workflow run has no completed step awaiting approval")) in
  let! step := lift (expect (steps !! step_index)) in
  let! approved :=
    match WorkflowStep_approve now step with
    | (Ok _, step') => ret step'
    | (Err e, _) => throw (input_error e)
    | (Panic, _) => lift Panic
    end in
  let! _ := save_step (ws_id step) approved in
  let! content_digest := lift (canonical_digest (to_value approved)) in
  ret (json_object
    [("workflow_run_id", uuid_value (wr_id run)); ("step_key", JString (ws_key approved));
     ("step_status", JString (WorkflowStepStatus.wire (ws_status approved)));
     ("approved_at", utc_value (ws_updated_at approved));
     ("content_digest", JString content_digest)]).

(** [GenericWorkflowHandler::execute]: schema, then the operation, then the envelope. *)
Definition generic_execute (operation schema_file : string)
    (execute_fn : json → ExecutionContext → call WorkflowStore ExecutionError.t json)
    (input : json) (context : ExecutionContext)
    : call WorkflowStore ExecutionError.t json :=
  let! raw_schema := lift (registry_schema context operation schema_file) in
  let! schema := lift (JsonSchema_parse raw_schema) in
  let! _ := lift (JsonSchema_validate schema input) in
  let! data := execute_fn input context in
  ret (json_object [("operation", JString operation); ("data", data)]).

Definition generic_handler (operation schema_file : string)
    (execute_fn : json → ExecutionContext → call WorkflowStore ExecutionError.t json)
    : OperationHandler WorkflowStore :=
  {| h_operation := operation;
     h_idempotency_policy_for := λ _, NoReplay;
     h_execute_versioned := λ _, generic_execute operation schema_file execute_fn |}.

(** The handlers at one moment: the clock and a fresh identifier. *)
Definition workflow_handlers (now : DateTime) (now_v7 : Uuid)
    : list (OperationHandler WorkflowStore) :=
  [generic_handler "workflow.define" "workflow/workflow-define.input.json"
     (λ input _, execute_define input now now_v7);
   generic_handler "workflow.trigger" "workflow/workflow-trigger.input.json"
     (λ input _, execute_trigger input now now_v7);
   generic_handler "workflow.step.complete" "workflow/workflow-step-complete.input.json"
     (λ input _, execute_step_complete input now now);
   generic_handler "workflow.approve" "workflow/workflow-approve.input.json"
     (λ input context, execute_approve input context now)].

End handlers.
