(* ===== verification/WorkflowProofs.v ===== *)
(** * What workflow runs do

    The theorems on the model of [crates/proof-workflow] in [Workflow]: the handlers
    refine a counter of approved steps, and what follows for the order of the steps and
    for the completion of a run.  They hold for every workspace that the handlers can
    produce ([reachable_workspace]), where new identifiers are fresh; step identifiers
    are truncated SHA-256 digests, so fresh means that the ids of the steps of a new run
    do not clash. *)

From S2P Require Import Prelude RustStr Externals Json Canonical Serialized.
From S2P Require Import Evidence ExecutionStore Engine Workflow.
From stdpp Require Import options.

Class WorkflowLaws `{WorkflowExternals} : Prop := {
  sha256_length m : String.length (sha256 m) = 32;
}.

Section proofs.
Context `{HX : Externals} `{HW : WorkflowExternals} `{!WorkflowLaws}.

(** ** Digests and identifiers are always there *)

Lemma canonical_digest_exact v :
  exact_value v = true → ∃ d, canonical_digest v = Ok d.
Proof.
  intros [s E]%canonicalize_exact. unfold canonical_digest. rewrite E. eauto.
Qed.

Lemma run_digest (r : WorkflowRun) : ∃ d, canonical_digest (to_value r) = Ok d.
Proof. apply canonical_digest_exact, exact_json_object. repeat constructor. Qed.

Lemma step_digest (s : WorkflowStep) : ∃ d, canonical_digest (to_value s) = Ok d.
Proof. apply canonical_digest_exact, exact_json_object. repeat constructor. Qed.

Lemma definition_digest (d : WorkflowDefinition) : ∃ x, canonical_digest (to_value d) = Ok x.
Proof.
  apply canonical_digest_exact, exact_json_object. repeat constructor. simpl.
  apply exact_array, Forall_map, Forall_true. intros b.
  apply exact_json_object. repeat constructor.
Qed.

Lemma hex_digits h : all_bytes is_hex_digit (Canonical.hex h) = true.
Proof.
  pose proof (hex_lower_hex h) as Hh. revert Hh. generalize (Canonical.hex h).
  induction s as [|c s IH]; simpl; [done|].
  rewrite !andb_true_iff. intros [Hc Hs]. split; [|by apply IH].
  unfold is_lower_hex, is_hex_digit in *. destruct (is_ascii_digit c); [done|].
  simpl in *. by rewrite Hc.
Qed.

Lemma hex_not_prefixed h : strip_prefix "sha256:" (Canonical.hex h) = None.
Proof.
  destruct (strip_prefix _ _) as [t|] eqn:E; [|done].
  apply strip_prefix_Some in E. pose proof (hex_lower_hex h) as Hh. by rewrite E in Hh.
Qed.

Lemma trim_prefixes_once n p t :
  strip_prefix p t = None → trim_prefixes (S n) p (p +:+ t) = t.
Proof.
  intros Ht. cbn [trim_prefixes].
  assert (strip_prefix p (p +:+ t) = Some t) as -> by by apply strip_prefix_Some.
  destruct n; cbn [trim_prefixes]; [done|]. by rewrite Ht.
Qed.

(** The step identifier of a key in a run. *)
Definition sid (run_id : Uuid) (key : string) : Uuid :=
  match derive_step_id run_id key with Ok id => id | _ => 0%N end.

Lemma derive_step_id_Ok run_id key : derive_step_id run_id key = Ok (sid run_id key).
Proof using All.
  unfold sid. assert (∃ id, derive_step_id run_id key = Ok id) as [id ->]; [|done].
  unfold derive_step_id, canonical_digest.
  destruct (canonicalize_exact (json_object [("run_id", uuid_value run_id);
    ("step_key", JString key)])) as [s ->].
  { apply exact_json_object. repeat constructor. }
  cbn [rbind]. set (h := sha256 s).
  change (String.length ("sha256:" +:+ Canonical.hex h))
    with (S (6 + String.length (Canonical.hex h))).
  rewrite trim_prefixes_once by apply hex_not_prefixed.
  unfold hex_decode. rewrite hex_length, hex_digits, unhex_hex.
  rewrite (Nat.even_mul 2). cbn [Nat.even orb andb ok_or rbind].
  assert (String.length h = 32) as -> by apply sha256_length. eauto.
Qed.

(** ** Reading the steps of a run *)

Lemma collect_calls_cons {A B} (f : A → call WorkflowStore ExecutionError.t B) a l b bs w w' w'' :
  f a w = (Ok b, w') → collect_calls f l w' = (Ok bs, w'') →
  collect_calls f (a :: l) w = (Ok (b :: bs), w'').
Proof. intros Ha Hl. cbn [collect_calls]. unfold cbind. by rewrite Ha, Hl. Qed.

Lemma load_steps_Ok run d w steps :
  Forall2 (λ bp st, wf_steps w !! sid (wr_id run) (bp_key bp) = Some st) (wd_steps d) steps →
  load_steps run d w = (Ok steps, w).
Proof using All.
  unfold load_steps. induction 1 as [|bp st bps sts Hst _ IH]; [done|].
  eapply collect_calls_cons; [|exact IH].
  unfold cbind, lift. rewrite derive_step_id_Ok. unfold load_step. by rewrite Hst.
Qed.

(** ** The abstract run

    A run is a counter of approved steps and whether the next one waits for its
    approval. *)

Record progress := { approvals : nat; awaiting : bool }.

Definition requires (bps : list WorkflowStepBlueprint) (i : nat) : bool :=
  from_option bp_requires_approval false (bps !! i).

Definition progress_ok (bps : list WorkflowStepBlueprint) (p : progress) : Prop :=
  approvals p ≤ length bps ∧ (awaiting p = true → approvals p < length bps ∧ requires bps (approvals p) = true).

Definition statuses (bps : list WorkflowStepBlueprint) (p : progress)
    : list WorkflowStepStatus.t :=
  if awaiting p
  then replicate (approvals p) WorkflowStepStatus.Approved ++ WorkflowStepStatus.Completed
       :: replicate (length bps - S (approvals p)) WorkflowStepStatus.Pending
  else replicate (approvals p) WorkflowStepStatus.Approved
       ++ replicate (length bps - approvals p) WorkflowStepStatus.Pending.

Definition last_automatic (bps : list WorkflowStepBlueprint) : bool :=
  from_option (negb ∘ bp_requires_approval) false (last bps).

(** The status of the run record. *)
Definition run_status_of (bps : list WorkflowStepBlueprint) (p : progress)
    : WorkflowRunStatus.t :=
  if (approvals p =? 0) && negb (awaiting p) then WorkflowRunStatus.Pending
  else if (approvals p =? length bps) && last_automatic bps
  then (if length bps =? 1 then WorkflowRunStatus.Pending else WorkflowRunStatus.Completed)
  else WorkflowRunStatus.InProgress.

Definition abstract_complete (bps : list WorkflowStepBlueprint) (p : progress)
    : option progress :=
  if awaiting p || (length bps <=? approvals p) then None
  else Some (if requires bps (approvals p) then {| approvals := approvals p; awaiting := true |}
             else {| approvals := S (approvals p); awaiting := false |}).

Definition abstract_approve (p : progress) : option progress :=
  if awaiting p then Some {| approvals := S (approvals p); awaiting := false |} else None.

(** ** The abstraction of a workspace *)

(** The stored step of a blueprint of a run. *)
Record step_of (w : WorkflowStore) (run_id : Uuid) (bp : WorkflowStepBlueprint)
    (st : WorkflowStep) : Prop := {
  so_stored : wf_steps w !! sid run_id (bp_key bp) = Some st;
  so_id : ws_id st = sid run_id (bp_key bp);
  so_run : ws_workflow_run_id st = run_id;
  so_key : ws_key st = bp_key bp;
  so_requires : ws_requires_approval st = bp_requires_approval bp;
}.

Definition shows_steps (w : WorkflowStore) (run_id : Uuid)
    (bps : list WorkflowStepBlueprint) (p : progress) (sts : list WorkflowStep) : Prop :=
  Forall2 (step_of w run_id) bps sts ∧ ws_status <$> sts = statuses bps p.

(** The run record and its steps show the progress [p] of a definition. *)
Record shows (w : WorkflowStore) (r : WorkflowRun) (d : WorkflowDefinition) (p : progress)
    : Prop := {
  sh_definition : wf_definitions w !! wr_workflow_definition_id r = Some d;
  sh_progress : progress_ok (wd_steps d) p;
  sh_status : wr_status r = run_status_of (wd_steps d) p;
  sh_steps : ∃ sts, shows_steps w (wr_id r) (wd_steps d) p sts;
}.

Record workspace_ok (w : WorkflowStore) : Prop := {
  ok_definitions : ∀ id d, wf_definitions w !! id = Some d →
    wd_id d = id ∧ wd_steps d ≠ [] ∧ NoDup (bp_key <$> wd_steps d);
  ok_runs : ∀ id r, wf_runs w !! id = Some r → wr_id r = id ∧ ∃ d p, shows w r d p;
}.

(** ** Lemmas on statuses *)

Lemma statuses_length bps p : progress_ok bps p → length (statuses bps p) = length bps.
Proof.
  intros [Hle Haw]. unfold statuses. destruct (awaiting p).
  - destruct Haw as [Hlt _]; [done|]. rewrite length_app. simpl.
    rewrite !length_replicate. lia.
  - rewrite length_app, !length_replicate. lia.
Qed.

Lemma replicate_pending (bps : list WorkflowStepBlueprint) k :
  k < length bps →
  replicate (length bps - k) WorkflowStepStatus.Pending
  = WorkflowStepStatus.Pending :: replicate (length bps - S k) WorkflowStepStatus.Pending.
Proof. intros Hk. by replace (length bps - k) with (S (length bps - S k)) by lia. Qed.

Lemma statuses_complete bps p p' :
  progress_ok bps p → abstract_complete bps p = Some p' →
  <[approvals p := if requires bps (approvals p) then WorkflowStepStatus.Completed
                   else WorkflowStepStatus.Approved]> (statuses bps p) = statuses bps p'.
Proof.
  intros [Hle _]. unfold abstract_complete. destruct (awaiting p) eqn:Ha; [done|].
  destruct (Nat.leb_spec (length bps) (approvals p)); [done|]. intros [= <-].
  unfold statuses. rewrite Ha, replicate_pending by done.
  rewrite insert_app_r_alt by (by rewrite length_replicate).
  rewrite length_replicate, Nat.sub_diag. simpl.
  destruct (requires bps (approvals p)); simpl; [done|].
  by rewrite app_comm_cons, replicate_cons_app, <- app_assoc.
Qed.

Lemma statuses_approve bps p p' :
  progress_ok bps p → abstract_approve p = Some p' →
  <[approvals p := WorkflowStepStatus.Approved]> (statuses bps p) = statuses bps p'.
Proof.
  intros _. unfold abstract_approve. destruct (awaiting p) eqn:Ha; [|done]. intros [= <-].
  unfold statuses. rewrite Ha. simpl.
  rewrite insert_app_r_alt by (by rewrite length_replicate).
  rewrite length_replicate, Nat.sub_diag. simpl.
  by rewrite app_comm_cons, replicate_cons_app, <- app_assoc.
Qed.

Lemma abstract_complete_ok bps p p' :
  progress_ok bps p → abstract_complete bps p = Some p' → progress_ok bps p'.
Proof.
  intros [Hle _]. unfold abstract_complete. destruct (awaiting p); [done|].
  destruct (Nat.leb_spec (length bps) (approvals p)); [done|]. intros [= <-].
  destruct (requires bps (approvals p)) eqn:Hr; split; simpl; auto; lia.
Qed.

Lemma abstract_approve_ok bps p p' :
  progress_ok bps p → abstract_approve p = Some p' → progress_ok bps p'.
Proof.
  intros [Hle Haw]. unfold abstract_approve. destruct (awaiting p); [|done]. intros [= <-].
  destruct Haw; [done|]. split; simpl; [lia|done].
Qed.

(** The position of a status is the position in the list of statuses. *)
Fixpoint status_position (status : WorkflowStepStatus.t) (l : list WorkflowStepStatus.t)
    : option nat :=
  match l with
  | [] => None
  | x :: l' => if bool_decide (x = status) then Some 0 else S <$> status_position status l'
  end.

Lemma step_position_status status sts :
  step_position status sts = status_position status (ws_status <$> sts).
Proof. induction sts as [|st sts IH]; simpl; [done|]. by rewrite IH. Qed.

Lemma status_position_app status n x l :
  x ≠ status →
  status_position status (replicate n x ++ l) = (λ i, n + i) <$> status_position status l.
Proof.
  intros Hx. induction n as [|n IH]; simpl; [by destruct (status_position status l)|].
  rewrite bool_decide_false by done. rewrite IH.
  by destruct (status_position status l).
Qed.

Lemma status_position_replicate status n x :
  x ≠ status → status_position status (replicate n x) = None.
Proof.
  intros Hx. rewrite <- (app_nil_r (replicate n x)). by rewrite status_position_app.
Qed.

(** ** Updating a step *)

Definition update_step (st st' : WorkflowStep) (w : WorkflowStore) : WorkflowStore :=
  {| wf_definitions := wf_definitions w; wf_runs := wf_runs w;
     wf_steps := <[ws_id st := st']> (wf_steps w) |}.

Lemma step_of_eq w rid1 bp1 st1 rid2 bp2 st2 :
  step_of w rid1 bp1 st1 → step_of w rid2 bp2 st2 → ws_id st1 = ws_id st2 →
  st1 = st2 ∧ rid1 = rid2 ∧ bp_key bp1 = bp_key bp2.
Proof.
  intros [S1 I1 R1 K1 _] [S2 I2 R2 K2 _] E.
  assert (st1 = st2) as -> by congruence. split_and!; congruence.
Qed.

(** The steps of a run after a step [st] of the run [rid] changed its status. *)
Lemma step_of_update w rid bp st status now rid' bp' st' :
  step_of w rid bp st → step_of w rid' bp' st' →
  step_of (update_step st (set_step_status status now st) w) rid' bp'
    (if bool_decide (ws_id st' = ws_id st) then set_step_status status now st else st').
Proof.
  intros Hst Hst'. case_bool_decide as E.
  - destruct (step_of_eq _ _ _ _ _ _ _ Hst' Hst E) as (-> & -> & _).
    destruct Hst' as [S1 I1 R1 K1 Q1]. constructor; simpl; try done.
    by rewrite <- I1, lookup_insert_eq.
  - destruct Hst' as [S1 I1 R1 K1 Q1]. constructor; simpl; try done.
    rewrite lookup_insert_ne; [done|congruence].
Qed.

Lemma update_other_run w rid bp st status now rid' bps p sts :
  step_of w rid bp st → rid' ≠ rid → shows_steps w rid' bps p sts →
  shows_steps (update_step st (set_step_status status now st) w) rid' bps p sts.
Proof.
  intros Hst Hne [HF Hs]. split; [|done].
  eapply Forall2_impl; [exact HF|]. intros bp' st' Hst'.
  pose proof (step_of_update _ _ _ _ status now _ _ _ Hst Hst') as Hu.
  case_bool_decide as E; [|done].
  destruct (step_of_eq _ _ _ _ _ _ _ Hst' Hst E) as (_ & ? & _). done.
Qed.

Lemma update_same_run w rid bps p sts i st status now p' :
  NoDup (bp_key <$> bps) → shows_steps w rid bps p sts → sts !! i = Some st →
  <[i := status]> (statuses bps p) = statuses bps p' →
  shows_steps (update_step st (set_step_status status now st) w) rid bps p'
    (<[i := set_step_status status now st]> sts).
Proof.
  intros Hnd [HF Hs] Hi Hp. split; [|by rewrite list_fmap_insert, Hs].
  apply Forall2_same_length_lookup. rewrite Forall2_same_length_lookup in HF.
  destruct HF as [Hlen HF]. split; [by rewrite length_insert|].
  destruct (lookup_lt_is_Some_2 bps i) as [bp Hbp].
  { rewrite Hlen. by apply lookup_lt_Some in Hi. }
  pose proof (HF i bp st Hbp Hi) as Hst.
  intros j bp' st' Hbp' Hst'. destruct (decide (i = j)) as [<-|Hij].
  - rewrite list_lookup_insert_eq in Hst' by (by apply lookup_lt_Some in Hi).
    simplify_eq. pose proof (step_of_update _ _ _ _ status now _ _ _ Hst Hst) as Hu.
    by rewrite bool_decide_true in Hu.
  - rewrite list_lookup_insert_ne in Hst' by done.
    pose proof (HF j bp' st' Hbp' Hst') as Hst2.
    pose proof (step_of_update _ _ _ _ status now _ _ _ Hst Hst2) as Hu.
    case_bool_decide as E; [|done]. exfalso. apply Hij.
    destruct (step_of_eq _ _ _ _ _ _ _ Hst2 Hst E) as (_ & _ & Hk).
    eapply (NoDup_lookup (bp_key <$> bps)); [done|..]; rewrite list_lookup_fmap.
    + by rewrite Hbp.
    + by rewrite Hbp', <- Hk.
Qed.

(** ** Completing a step *)

Lemma position_pending bps p :
  progress_ok bps p →
  match abstract_complete bps p with
  | Some _ => status_position WorkflowStepStatus.Pending (statuses bps p) = Some (approvals p)
              ∧ awaiting p = false ∧ approvals p < length bps
  | None => status_position WorkflowStepStatus.Pending (statuses bps p) = None
            ∨ ∃ i, status_position WorkflowStepStatus.Pending (statuses bps p) = Some i
                ∧ statuses bps p !! approvals p = Some WorkflowStepStatus.Completed
                ∧ approvals p < i
  end.
Proof.
  intros [Hle Haw]. unfold abstract_complete, statuses. destruct (awaiting p) eqn:Ha; simpl.
  - destruct Haw as [Hlt _]; [done|]. rewrite status_position_app by done. simpl.
    destruct (length bps - S (approvals p)) as [|m]; simpl; [by left|].
    right. exists (approvals p + 1). split; [done|]. split; [|lia].
    rewrite lookup_app_r by (by rewrite length_replicate).
    by rewrite length_replicate, Nat.sub_diag.
  - destruct (Nat.leb_spec (length bps) (approvals p)).
    + left. replace (length bps - approvals p) with 0 by lia. simpl.
      rewrite app_nil_r. by apply status_position_replicate.
    + rewrite replicate_pending by done. rewrite status_position_app by done. simpl.
      split; [by rewrite Nat.add_0_r|done].
Qed.

(** A run of one automatic step: it cannot be completed. *)
Definition stuck (bps : list WorkflowStepBlueprint) : bool :=
  (length bps =? 1) && last_automatic bps.

Lemma last_automatic_requires bps n :
  length bps = S n → last_automatic bps = negb (requires bps n).
Proof.
  intros Hn. unfold last_automatic, requires. rewrite last_lookup, Hn. simpl.
  destruct (bps !! n) as [bp|] eqn:E; [done|]. apply lookup_ge_None in E. lia.
Qed.

Lemma all_approved bps p :
  progress_ok bps p →
  forallb (λ s, bool_decide (s = WorkflowStepStatus.Approved)) (statuses bps p)
  = negb (awaiting p) && (approvals p =? length bps).
Proof.
  intros [Hle Haw]. unfold statuses. destruct (awaiting p); simpl.
  - rewrite forallb_app. simpl. by rewrite andb_false_r.
  - rewrite forallb_app. destruct (Nat.eqb_spec (approvals p) (length bps)) as [E|E].
    + rewrite E, Nat.sub_diag. simpl. rewrite andb_true_r. apply forallb_forall.
      intros s Hs%list_elem_of_In%elem_of_replicate_inv. by rewrite bool_decide_true.
    + rewrite replicate_pending by lia. simpl. by rewrite andb_false_r.
Qed.

Lemma forallb_approved sts :
  forallb is_approved sts
  = forallb (λ s, bool_decide (s = WorkflowStepStatus.Approved)) (ws_status <$> sts).
Proof. induction sts as [|st sts IH]; simpl; [done|]. by rewrite IH. Qed.

Lemma advance_run_spec bps p p' r sts now :
  progress_ok bps p → abstract_complete bps p = Some p' →
  wr_status r = run_status_of bps p → ws_status <$> sts = statuses bps p' →
  if stuck bps
  then (∃ e, advance_run sts r now = Err e) ∧ run_status_of bps p' = run_status_of bps p
  else ∃ r', advance_run sts r now = Ok r' ∧ wr_id r' = wr_id r
         ∧ wr_workflow_definition_id r' = wr_workflow_definition_id r
         ∧ wr_status r' = run_status_of bps p'.
Proof.
  intros Hp Hc Hst Hsts. unfold advance_run.
  rewrite forallb_approved, Hsts, all_approved by (by eapply abstract_complete_ok).
  unfold abstract_complete in Hc. destruct (awaiting p) eqn:Ha; [done|].
  destruct (Nat.leb_spec (length bps) (approvals p)) as [|Hlt]; [done|].
  injection Hc as <-. unfold run_status_of in Hst. rewrite Ha in Hst. simpl in Hst.
  unfold stuck, transition_to, run_status_of. rewrite Ha, Hst. simpl.
  destruct (length bps) as [|n] eqn:Hn; [lia|].
  rewrite (last_automatic_requires bps n) in * by done.
  assert ((approvals p =? S n) = false) as Hns by (apply Nat.eqb_neq; lia).
  rewrite Hns in *. simpl in *.
  destruct (requires bps (approvals p)) eqn:Hr; simpl;
    destruct (Nat.eqb_spec (approvals p) 0) as [H0|]; simpl in *;
    destruct (Nat.eqb_spec n 0) as [->|]; simpl; try lia;
    try (destruct (Nat.eqb_spec (approvals p) n) as [Hk|]; try lia; simpl);
    try (rewrite H0 in Hr); try (rewrite <- Hk in *); try (rewrite Hr); simpl; rewrite ?Hns; simpl;
    try (rewrite H0; simpl);
    try (split; [by eexists|done]); eexists; split_and!; done.
Qed.

Lemma take_not_approved bps p sts i :
  ws_status <$> sts = statuses bps p →
  statuses bps p !! approvals p = Some WorkflowStepStatus.Completed → approvals p < i →
  existsb (λ st, negb (is_approved st)) (take i sts) = true.
Proof.
  intros Hs Hk Hi. rewrite <- Hs, list_lookup_fmap in Hk.
  destruct (sts !! approvals p) as [st|] eqn:E; [|done]. injection Hk as Hk.
  apply existsb_exists. exists st. split.
  - apply list_elem_of_In, list_elem_of_lookup. exists (approvals p).
    by rewrite lookup_take_lt.
  - unfold is_approved. by rewrite Hk.
Qed.

Lemma take_approved bps p sts :
  ws_status <$> sts = statuses bps p →
  existsb (λ st, negb (is_approved st)) (take (approvals p) sts) = false.
Proof.
  intros Hs. apply not_true_iff_false. rewrite existsb_exists.
  intros (st & [i Hi]%list_elem_of_In%list_elem_of_lookup & Hst).
  apply lookup_take_Some in Hi as [Hi Hlt].
  assert ((ws_status <$> sts) !! i = Some WorkflowStepStatus.Approved) as Ha.
  { rewrite Hs. unfold statuses.
    destruct (awaiting p); rewrite lookup_app_l by (by rewrite length_replicate);
      by apply lookup_replicate_2. }
  rewrite list_lookup_fmap, Hi in Ha. injection Ha as Ha.
  unfold is_approved in Hst. by rewrite Ha in Hst.
Qed.

(** What a completion writes. *)
Definition completed_store (id : Uuid) (r' : WorkflowRun) (st st' : WorkflowStep)
    (w : WorkflowStore) : WorkflowStore :=
  {| wf_definitions := wf_definitions w; wf_runs := <[id := r']> (wf_runs w);
     wf_steps := <[ws_id st := st']> (wf_steps w) |}.

Lemma complete_prefix input t1 t2 id r d sts w :
  parse_id input "run_id" = Ok id → wf_runs w !! id = Some r →
  wf_definitions w !! wr_workflow_definition_id r = Some d → load_steps r d w = (Ok sts, w) →
  execute_step_complete input t1 t2 w
  = match step_position WorkflowStepStatus.Pending sts with
    | None => (Err (input_error "workflow run has no pending step"), w)
    | Some i =>
        match sts !! i with
        | None => (Panic, w)
        | Some st =>
            if existsb (λ st, negb (is_approved st)) (take i sts)
            then (Err (input_error ("workflow step " +:+ ws_key st
                    +:+ " cannot complete before earlier steps are approved")), w)
            else
              match WorkflowStep_complete t1 st with
              | (Ok _, st') =>
                  let w' := update_step st st' w in
                  match advance_run (<[i := st']> sts) r t2 with
                  | Ok r' =>
                      match canonical_digest (to_value r') with
                      | Ok digest =>
                          (Ok (json_object
                             [("workflow_run_id", uuid_value (wr_id r'));
                              ("step_key", JString (ws_key st));
                              ("step_status", JString (WorkflowStepStatus.wire (ws_status st')));
                              ("run_status", JString (WorkflowRunStatus.wire (wr_status r')));
                              ("updated_at", utc_value (wr_updated_at r'));
                              ("content_digest", JString digest)]),
                           completed_store (wr_id r') r' st st' w)
                      | Err e => (Err e, completed_store (wr_id r') r' st st' w)
                      | Panic => (Panic, completed_store (wr_id r') r' st st' w)
                      end
                  | Err e => (Err e, w')
                  | Panic => (Panic, w')
                  end
              | (Err e, _) => (Err (input_error e), w)
              | (Panic, _) => (Panic, w)
              end
        end
    end.
Proof.
  intros Hid Hr Hd Hl. unfold execute_step_complete.
  unfold cbind at 1 2 3 4, lift at 1, load_run, load_definition. rewrite Hid, Hr. cbn [ok_or].
  rewrite Hd. cbn [ok_or]. rewrite Hl. unfold cbind, lift, throw, ret.
  destruct (step_position _ sts) as [i|]; [|done]. cbn [ok_or].
  destruct (sts !! i) as [st|]; [|done]. cbn [expect].
  destruct (existsb _ _); [done|].
  destruct (WorkflowStep_complete t1 st) as [[[]|e|] st']; [|done..].
  cbn [save_step]. destruct (advance_run _ _ _) as [r'|e|]; [|done..].
  by destruct (canonical_digest (to_value r')).
Qed.

Lemma shows_load_steps w r d p sts :
  shows_steps w (wr_id r) (wd_steps d) p sts → load_steps r d w = (Ok sts, w).
Proof using All.
  intros [HF _]. apply load_steps_Ok. eapply Forall2_impl; [exact HF|].
  by intros bp st [Hst _ _ _ _].
Qed.

Lemma shows_lookup w rid bps p sts i :
  progress_ok bps p → shows_steps w rid bps p sts → i < length bps →
  ∃ st, sts !! i = Some st ∧ ws_requires_approval st = requires bps i.
Proof.
  intros Hp [HF Hs] Hi. pose proof (Forall2_length _ _ _ HF) as Hlen.
  destruct (lookup_lt_is_Some_2 sts i) as [st Hst]; [lia|]. exists st. split; [done|].
  destruct (lookup_lt_is_Some_2 bps i Hi) as [bp Hbp].
  destruct (Forall2_lookup_lr _ _ _ _ _ _ HF Hbp Hst) as [_ _ _ _ Hq].
  unfold requires. by rewrite Hbp.
Qed.

Lemma shows_status_at w rid bps p sts i st :
  shows_steps w rid bps p sts → sts !! i = Some st →
  statuses bps p !! i = Some (ws_status st).
Proof. intros [_ Hs] Hi. by rewrite <- Hs, list_lookup_fmap, Hi. Qed.

Lemma pending_at bps p :
  awaiting p = false → approvals p < length bps →
  statuses bps p !! approvals p = Some WorkflowStepStatus.Pending.
Proof.
  intros Ha Hlt. unfold statuses. rewrite Ha, replicate_pending by done.
  rewrite lookup_app_r by (by rewrite length_replicate).
  by rewrite length_replicate, Nat.sub_diag.
Qed.

Definition after_complete (bps : list WorkflowStepBlueprint) (k : nat)
    : WorkflowStepStatus.t :=
  if requires bps k then WorkflowStepStatus.Completed else WorkflowStepStatus.Approved.

Lemma status_position_Some status l i : status_position status l = Some i → l !! i = Some status.
Proof.
  revert i. induction l as [|x l IH]; intros i; simpl; [done|]. case_bool_decide.
  - intros [= <-]. by subst.
  - intros (j & Hj & ->)%fmap_Some. by apply IH.
Qed.

Lemma step_position_lookup bps p sts i :
  ws_status <$> sts = statuses bps p →
  status_position WorkflowStepStatus.Pending (statuses bps p) = Some i →
  ∃ st, sts !! i = Some st.
Proof.
  intros Hs Hi%status_position_Some. rewrite <- Hs, list_lookup_fmap in Hi.
  destruct (sts !! i); [eauto|done].
Qed.

(** The completion of a step implements [abstract_complete]. *)
Lemma complete_spec input t1 t2 id r d p sts w :
  parse_id input "run_id" = Ok id → wf_runs w !! id = Some r → wr_id r = id →
  NoDup (bp_key <$> wd_steps d) → shows w r d p →
  shows_steps w id (wd_steps d) p sts →
  match abstract_complete (wd_steps d) p with
  | None => ∃ e, execute_step_complete input t1 t2 w = (Err e, w)
  | Some p' =>
      ∃ x r' st, sts !! approvals p = Some st
        ∧ execute_step_complete input t1 t2 w
          = (x, completed_store id r' st
                  (set_step_status (after_complete (wd_steps d) (approvals p)) t1 st) w)
        ∧ is_ok x = negb (stuck (wd_steps d)) ∧ x ≠ Panic
        ∧ wr_id r' = id ∧ wr_workflow_definition_id r' = wr_workflow_definition_id r
        ∧ wr_status r' = run_status_of (wd_steps d) p'
  end.
Proof using All.
  intros Hid Hr Hrid Hnd [Hd Hp Hst _] Hsts. subst id.
  pose proof (shows_load_steps _ _ _ _ _ Hsts) as Hl.
  rewrite (complete_prefix _ t1 t2 _ _ _ _ _ Hid Hr Hd Hl).
  pose proof (position_pending _ _ Hp) as Hpos.
  rewrite step_position_status, (proj2 Hsts).
  destruct (abstract_complete (wd_steps d) p) as [p'|] eqn:Hc.
  - destruct Hpos as (-> & Ha & Hlt).
    destruct (shows_lookup _ _ _ _ _ _ Hp Hsts Hlt) as (st & Hst' & Hq). rewrite Hst'.
    rewrite (take_approved _ _ _ (proj2 Hsts)). unfold WorkflowStep_complete.
    pose proof (shows_status_at _ _ _ _ _ _ _ Hsts Hst') as Hpend.
    rewrite pending_at in Hpend by done. injection Hpend as Hpend.
    rewrite bool_decide_true by done. cbn [negb]. rewrite Hq.
    fold (after_complete (wd_steps d) (approvals p)).
    set (st' := set_step_status _ t1 st).
    assert (ws_status <$> <[approvals p := st']> sts = statuses (wd_steps d) p') as Hs'.
    { rewrite list_fmap_insert, (proj2 Hsts). by apply statuses_complete. }
    pose proof (advance_run_spec _ _ _ _ _ t2 Hp Hc Hst Hs') as Hadv.
    destruct (stuck (wd_steps d)).
    + destruct Hadv as [[e ->] Hsame]. exists (Err e), r, st. split_and!; try done.
      * unfold update_step, completed_store. by rewrite (insert_id (wf_runs w)).
      * congruence.
    + destruct Hadv as (r' & -> & Hi & Hdef & Hs2).
      destruct (run_digest r') as [dg ->]. rewrite Hi. eexists _, r', st. by split_and!.
  - destruct Hpos as [->|(i & Hi & Hk & Hlt)]; [eauto|]. rewrite Hi.
    rewrite (take_not_approved _ _ _ _ (proj2 Hsts) Hk Hlt).
    by destruct (step_position_lookup _ _ _ _ (proj2 Hsts) Hi) as [st ->]; eexists.
Qed.

Lemma approve_prefix input ctx now id r d sts w :
  ctx_principal_kind ctx = Some Human →
  parse_id input "run_id" = Ok id → wf_runs w !! id = Some r →
  wf_definitions w !! wr_workflow_definition_id r = Some d → load_steps r d w = (Ok sts, w) →
  execute_approve input ctx now w
  = match step_position WorkflowStepStatus.Completed sts with
    | None => (Err (input_error "workflow run has no completed step awaiting approval"), w)
    | Some i =>
        match sts !! i with
        | None => (Panic, w)
        | Some st =>
            match WorkflowStep_approve now st with
            | (Ok _, st') =>
                match canonical_digest (to_value st') with
                | Ok digest =>
                    (Ok (json_object
                       [("workflow_run_id", uuid_value (wr_id r));
                        ("step_key", JString (ws_key st'));
                        ("step_status", JString (WorkflowStepStatus.wire (ws_status st')));
                        ("approved_at", utc_value (ws_updated_at st'));
                        ("content_digest", JString digest)]), update_step st st' w)
                | Err e => (Err e, update_step st st' w)
                | Panic => (Panic, update_step st st' w)
                end
            | (Err e, _) => (Err (input_error e), w)
            | (Panic, _) => (Panic, w)
            end
        end
    end.
Proof.
  intros Hh Hid Hr Hd Hl. unfold execute_approve. rewrite bool_decide_true by done.
  cbn [negb]. unfold cbind at 1 2 3 4, lift at 1, load_run, load_definition.
  rewrite Hid, Hr. cbn [ok_or]. rewrite Hd. cbn [ok_or]. rewrite Hl.
  unfold cbind, lift, throw, ret.
  destruct (step_position _ sts) as [i|]; [|done]. cbn [ok_or].
  destruct (sts !! i) as [st|]; [|done]. cbn [expect].
  destruct (WorkflowStep_approve now st) as [[[]|e|] st']; [|done..].
  cbn [save_step]. by destruct (canonical_digest (to_value st')).
Qed.

Lemma position_completed bps p :
  status_position WorkflowStepStatus.Completed (statuses bps p)
  = if awaiting p then Some (approvals p) else None.
Proof.
  unfold statuses. destruct (awaiting p); rewrite status_position_app by done; simpl.
  - by rewrite Nat.add_0_r.
  - by rewrite status_position_replicate.
Qed.

(** The approval of a step implements [abstract_approve]. *)
Lemma approve_spec input ctx now id r d p sts w :
  ctx_principal_kind ctx = Some Human →
  parse_id input "run_id" = Ok id → wf_runs w !! id = Some r → wr_id r = id →
  shows w r d p → shows_steps w id (wd_steps d) p sts →
  match abstract_approve p with
  | None => ∃ e, execute_approve input ctx now w = (Err e, w)
  | Some p' =>
      ∃ x st, sts !! approvals p = Some st
        ∧ execute_approve input ctx now w
          = (Ok x, update_step st (set_step_status WorkflowStepStatus.Approved now st) w)
  end.
Proof using All.
  intros Hh Hid Hr Hrid [Hd Hp Hst _] Hsts. subst id.
  pose proof (shows_load_steps _ _ _ _ _ Hsts) as Hl.
  rewrite (approve_prefix _ _ now _ _ _ _ _ Hh Hid Hr Hd Hl).
  rewrite step_position_status, (proj2 Hsts), position_completed. unfold abstract_approve.
  destruct (awaiting p) eqn:Ha; [|by eexists].
  destruct (proj2 Hp Ha) as [Hlt _].
  destruct (shows_lookup _ _ _ _ _ _ Hp Hsts Hlt) as (st & Hst' & _). rewrite Hst'.
  assert (ws_status st = WorkflowStepStatus.Completed) as Hc.
  { pose proof (shows_status_at _ _ _ _ _ _ _ Hsts Hst') as E. unfold statuses in E.
    rewrite Ha, lookup_app_r in E by (by rewrite length_replicate).
    rewrite length_replicate, Nat.sub_diag in E. by injection E. }
  unfold WorkflowStep_approve. rewrite bool_decide_true by done. cbn [negb].
  destruct (step_digest (set_step_status WorkflowStepStatus.Approved now st)) as [dg ->].
  eauto.
Qed.

(** What a run status means when the last step that was due has been approved. *)
Lemma approve_status bps p p' :
  progress_ok bps p → abstract_approve p = Some p' →
  run_status_of bps p' = run_status_of bps p.
Proof.
  intros [Hle Haw]. unfold abstract_approve. destruct (awaiting p) eqn:Ha; [|done].
  intros [= <-]. destruct Haw as [Hlt Hr]; [done|]. unfold run_status_of.
  rewrite Ha. cbn [approvals awaiting negb andb Nat.eqb].
  destruct (length bps) as [|n] eqn:Hn; [lia|].
  rewrite (last_automatic_requires bps n) by done. rewrite andb_false_r. cbn [andb].
  assert ((approvals p =? S n) = false) as -> by (apply Nat.eqb_neq; lia).
  destruct (Nat.eqb_spec (approvals p) n) as [E|E]; [|done].
  rewrite E in Hr. by rewrite Hr.
Qed.

(** ** Sequences of handler calls *)

Inductive workflow_op : Type :=
| OpDefine (input : json) (now : DateTime) (id : Uuid)
| OpTrigger (input : json) (now : DateTime) (id : Uuid)
| OpStepComplete (input : json) (step_now run_now : DateTime)
| OpApprove (input : json) (ctx : ExecutionContext) (now : DateTime).

Definition workflow_apply (o : workflow_op) : call WorkflowStore ExecutionError.t json :=
  match o with
  | OpDefine input now id => execute_define input now id
  | OpTrigger input now id => execute_trigger input now id
  | OpStepComplete input step_now run_now => execute_step_complete input step_now run_now
  | OpApprove input ctx now => execute_approve input ctx now
  end.

(** The identifiers that a call draws are new, and so are those of the steps of a new
    run of any stored definition. *)
Definition fresh_for (o : workflow_op) (w : WorkflowStore) : Prop :=
  match o with
  | OpDefine _ _ id => wf_definitions w !! id = None
  | OpTrigger _ _ id =>
      wf_runs w !! id = None
      ∧ ∀ k d, wf_definitions w !! k = Some d →
          NoDup (sid id <$> (bp_key <$> wd_steps d))
          ∧ Forall (λ bp, wf_steps w !! sid id (bp_key bp) = None) (wd_steps d)
  | _ => True
  end.

Inductive reachable_workspace : WorkflowStore → Prop :=
| workspace_empty : reachable_workspace WorkflowStore_empty
| workspace_call o w :
    reachable_workspace w → fresh_for o w → reachable_workspace (workflow_apply o w).2.

Lemma check_step_keys_Ok seen steps :
  check_step_keys seen steps = Ok () →
  NoDup (bp_key <$> steps) ∧ ∀ b, b ∈ steps → bp_key b ∉ seen.
Proof.
  revert seen. induction steps as [|b steps IH]; intros seen; cbn [check_step_keys].
  { intros _. split; [constructor|]. by intros b Hb%elem_of_nil. }
  rewrite bail_Ok, bool_decide_eq_false. intros [Hb E]. apply IH in E as [Hnd Hs].
  split; [rewrite fmap_cons; constructor; [|done]|].
  - intros (b' & Hk & Hb')%list_elem_of_fmap. apply (Hs b' Hb'). rewrite Hk. left.
  - intros b' [->|Hb']%elem_of_cons; [done|]. intros Hin. apply (Hs b' Hb'). by right.
Qed.

Lemma define_effect input now id w :
  (execute_define input now id w).2 = w
  ∨ ∃ d, wd_id d = id ∧ wd_steps d ≠ [] ∧ NoDup (bp_key <$> wd_steps d)
      ∧ (execute_define input now id w).2
        = {| wf_definitions := <[id := d]> (wf_definitions w); wf_runs := wf_runs w;
             wf_steps := wf_steps w |}.
Proof.
  unfold execute_define, cbind, lift.
  destruct (ok_or _ _) as [name|e|]; [|by left..].
  destruct (parse_steps input) as [steps|e|]; [|by left..].
  destruct (WorkflowDefinition_new _ _ _ _ _) as [d|e|] eqn:E; [|by left..].
  unfold WorkflowDefinition_new in E. rewrite !bail_Ok, bool_decide_eq_false in E.
  destruct E as (_ & Hne & ([] & [Hnd _]%check_step_keys_Ok & [= Ed])%rbind_Ok).
  right. exists d. cbn [map_err]. destruct (definition_digest d) as [dg Hdg].
  cbn [save_definition]. rewrite Hdg. by rewrite <- Ed.
Qed.

(** ** Starting a run *)

Definition insert_steps (sts : list WorkflowStep) (m : gmap N WorkflowStep)
    : gmap N WorkflowStep :=
  foldl (λ m st, <[ws_id st := st]> m) m sts.

Lemma insert_steps_notin sts m id :
  id ∉ ws_id <$> sts → insert_steps sts m !! id = m !! id.
Proof.
  revert m. induction sts as [|st sts IH]; intros m; simpl; [done|].
  rewrite not_elem_of_cons. intros [Hne Hni]. rewrite IH by done.
  by rewrite lookup_insert_ne.
Qed.

Lemma insert_steps_in sts m st :
  NoDup (ws_id <$> sts) → st ∈ sts → insert_steps sts m !! ws_id st = Some st.
Proof.
  revert m. induction sts as [|st' sts IH]; intros m Hnd Hin; simpl in *.
  { by apply elem_of_nil in Hin. }
  apply NoDup_cons in Hnd as [Hni Hnd]. apply elem_of_cons in Hin as [->|Hin].
  - rewrite insert_steps_notin by done. apply lookup_insert_eq.
  - by apply IH.
Qed.

Lemma create_steps_effect run d bps w :
  let sts := (λ bp, new_step run d (sid (wr_id run) (bp_key bp)) bp) <$> bps in
  collect_calls (create_step run d) bps w
  = (Ok sts, {| wf_definitions := wf_definitions w; wf_runs := wf_runs w;
                wf_steps := insert_steps sts (wf_steps w) |}).
Proof using All.
  revert w. induction bps as [|bp bps IH]; intros w; [by destruct w|].
  rewrite fmap_cons. eapply collect_calls_cons.
  - unfold create_step, cbind, lift. rewrite derive_step_id_Ok. reflexivity.
  - apply IH.
Qed.

Lemma trigger_effect input now id w :
  (execute_trigger input now id w).2 = w
  ∨ ∃ k d, wf_definitions w !! k = Some d
      ∧ let run := WorkflowRun_new (wd_id d) now id in
        (execute_trigger input now id w).2
        = {| wf_definitions := wf_definitions w; wf_runs := <[id := run]> (wf_runs w);
             wf_steps :=
               insert_steps ((λ bp, new_step run d (sid id (bp_key bp)) bp) <$> wd_steps d)
                 (wf_steps w) |}.
Proof using All.
  unfold execute_trigger, cbind at 1 2, lift at 1, load_definition.
  destruct (parse_id input "workflow_id") as [k|e|]; [|by left..].
  destruct (wf_definitions w !! k) as [d|] eqn:Hd; [|by left]. right. exists k, d.
  split; [done|]. unfold cbind, lift. rewrite Hd. cbn [ok_or].
  rewrite create_steps_effect.
  cbn [save_run wr_id WorkflowRun_new].
  destruct (run_digest (WorkflowRun_new (wd_id d) now id)) as [dg Hdg].
  unfold WorkflowRun_new in *. by rewrite Hdg.
Qed.

(** ** The abstraction is preserved *)

Lemma step_of_weaken w w' rid bp st :
  wf_steps w ⊆ wf_steps w' → step_of w rid bp st → step_of w' rid bp st.
Proof. intros Hsub []. constructor; try done. by eapply lookup_weaken. Qed.

Lemma shows_weaken w w' r d p :
  wf_definitions w ⊆ wf_definitions w' → wf_steps w ⊆ wf_steps w' →
  shows w r d p → shows w' r d p.
Proof.
  intros Hd Hs [H1 H2 H3 (sts & HF & H4)]. constructor; [by eapply lookup_weaken|done..|].
  exists sts. split; [|done]. eapply Forall2_impl; [exact HF|].
  intros bp st. by apply step_of_weaken.
Qed.

Lemma define_ok input now id w :
  workspace_ok w → wf_definitions w !! id = None →
  workspace_ok (execute_define input now id w).2.
Proof.
  intros [Hdefs Hruns] Hnew.
  destruct (define_effect input now id w) as [->|(d & Hid & Hne & Hnd & ->)]; [done|].
  constructor; simpl.
  - intros k d' [[<- <-]|[_ Hk]]%lookup_insert_Some; [done|by apply Hdefs].
  - intros k r Hk. destruct (Hruns k r Hk) as (Hr & d' & p & Hsh). split; [done|].
    exists d', p. eapply shows_weaken; [..|exact Hsh]; simpl; [by apply insert_subseteq|done].
Qed.

Lemma new_steps_of run d w m bps :
  wf_steps w = insert_steps ((λ bp, new_step run d (sid (wr_id run) (bp_key bp)) bp) <$> bps) m →
  NoDup (sid (wr_id run) <$> (bp_key <$> bps)) →
  Forall2 (step_of w (wr_id run)) bps
    ((λ bp, new_step run d (sid (wr_id run) (bp_key bp)) bp) <$> bps).
Proof.
  intros Hw Hnd. apply Forall2_fmap_r, Forall_Forall2_diag, Forall_forall. intros bp Hbp.
  constructor; try done. rewrite Hw.
  apply (insert_steps_in _ _ (new_step run d (sid (wr_id run) (bp_key bp)) bp)).
  - replace (ws_id <$> _) with (sid (wr_id run) <$> (bp_key <$> bps)); [exact Hnd|].
    clear. induction bps as [|b bps IH]; [done|]. rewrite !fmap_cons, IH. done.
  - apply list_elem_of_fmap. eauto.
Qed.

Lemma trigger_ok input now id w :
  workspace_ok w → fresh_for (OpTrigger input now id) w →
  workspace_ok (execute_trigger input now id w).2.
Proof using All.
  intros [Hdefs Hruns] [Hrun Hfresh].
  destruct (trigger_effect input now id w) as [->|(k & d & Hd & ->)]; [done|].
  destruct (Hfresh k d Hd) as [Hnd Hnone]. destruct (Hdefs k d Hd) as (Hk & Hne & _).
  set (run := WorkflowRun_new (wd_id d) now id).
  set (sts := (λ bp, new_step run d (sid id (bp_key bp)) bp) <$> wd_steps d).
  assert (wf_steps w ⊆ insert_steps sts (wf_steps w)) as Hsub.
  { apply map_subseteq_spec. intros j st Hj. rewrite insert_steps_notin; [done|].
    intros (st' & -> & (bp & -> & Hbp)%list_elem_of_fmap)%list_elem_of_fmap.
    rewrite Forall_forall in Hnone. simpl in Hj. rewrite Hnone in Hj by done. done. }
  constructor; simpl; [done|].
  intros j r [[<- <-]|[_ Hj]]%lookup_insert_Some.
  - split; [done|]. exists d, {| approvals := 0; awaiting := false |}. constructor; simpl.
    + by rewrite Hk.
    + split; simpl; [lia|done].
    + done.
    + exists sts. split; [by eapply (new_steps_of run d)|].
      unfold sts, statuses. simpl. rewrite Nat.sub_0_r, <- list_fmap_compose.
      clear. induction (wd_steps d) as [|b l IH]; [done|]. rewrite fmap_cons, IH. done.
  - destruct (Hruns j r Hj) as (Hr & d' & p & Hsh). split; [done|]. exists d', p.
    by eapply shows_weaken; [..|exact Hsh].
Qed.

Lemma shows_steps_ext w w' rid bps p sts :
  wf_steps w' = wf_steps w → shows_steps w rid bps p sts → shows_steps w' rid bps p sts.
Proof.
  intros E [HF Hs]. split; [|done]. eapply Forall2_impl; [exact HF|].
  intros bp st. apply step_of_weaken. by rewrite E.
Qed.

(** The other runs show what they showed. *)
Definition others_keep (id : Uuid) (w w' : WorkflowStore) : Prop :=
  ∀ j r d p, j ≠ id → wf_runs w !! j = Some r → wr_id r = j → shows w r d p →
    wf_runs w' !! j = Some r ∧ shows w' r d p.

(** A run whose step [st] changes status: it shows the new progress, the others what
    they showed. *)
Lemma workspace_step_ok w w' id r r' d p p' sts st status now :
  workspace_ok w → wf_runs w !! id = Some r → shows w r d p →
  shows_steps w id (wd_steps d) p sts → sts !! approvals p = Some st →
  <[approvals p := status]> (statuses (wd_steps d) p) = statuses (wd_steps d) p' →
  progress_ok (wd_steps d) p' → wr_id r' = id →
  wr_workflow_definition_id r' = wr_workflow_definition_id r →
  wr_status r' = run_status_of (wd_steps d) p' →
  w' = completed_store id r' st (set_step_status status now st) w →
  workspace_ok w' ∧ shows w' r' d p' ∧ others_keep id w w'.
Proof.
  intros [Hdefs Hruns] Hr [Hd Hp Hst _] Hsts Hi Hs' Hp' Hid Hdef Hst' ->.
  destruct (Hdefs _ _ Hd) as (_ & _ & Hnd).
  pose proof (update_same_run w id _ _ _ _ _ status now _ Hnd Hsts Hi Hs') as Hsame.
  set (w' := completed_store _ _ _ _ _).
  assert (shows w' r' d p') as Hsh.
  { constructor; [by rewrite Hdef|done..|]. rewrite Hid. eexists.
    eapply shows_steps_ext; [|exact Hsame]. done. }
  assert (others_keep id w w') as Hothers.
  { intros j r2 d2 p2 Hne Hj Hr2 [H1 H2 H3 (sts2 & H4)].
    split; [simpl; by rewrite lookup_insert_ne|]. constructor; try done. exists sts2.
    destruct (Forall2_lookup_r _ _ _ _ _ (proj1 Hsts) Hi) as (bp & _ & Hstep).
    eapply shows_steps_ext; [|eapply (update_other_run w id bp st status now);
      [exact Hstep| |exact H4]]; [done|congruence]. }
  split; [|done]. constructor; [done|]. simpl.
  intros j r2 [[<- <-]|[Hne Hj]]%lookup_insert_Some; [split; [done|by eexists _, _]|].
  destruct (Hruns j r2 Hj) as (Hr2 & d2 & p2 & Hsh2). split; [done|].
  destruct (Hothers j r2 d2 p2) as [_ ?]; eauto.
Qed.

(** ** Every workspace that the handlers can produce *)

(** The run that a call names, if there is one. *)
Definition named_run (input : json) (w : WorkflowStore) : option WorkflowRun :=
  match parse_id input "run_id" with Ok id => wf_runs w !! id | _ => None end.

Lemma complete_no_run input t1 t2 w :
  named_run input w = None →
  (execute_step_complete input t1 t2 w).2 = w.
Proof.
  unfold named_run, execute_step_complete, cbind at 1 2, lift at 1, load_run.
  destruct (parse_id input "run_id") as [id|e|]; [|done..]. by intros ->.
Qed.

Lemma approve_no_run input ctx now w :
  named_run input w = None → (execute_approve input ctx now w).2 = w.
Proof.
  unfold named_run, execute_approve. case_bool_decide; [|done]. cbn [negb].
  unfold cbind at 1 2, lift at 1, load_run.
  destruct (parse_id input "run_id") as [id|e|]; [|done..]. by intros ->.
Qed.

Lemma named_run_Some input w r :
  workspace_ok w → named_run input w = Some r →
  parse_id input "run_id" = Ok (wr_id r) ∧ wf_runs w !! wr_id r = Some r
  ∧ ∃ d p sts, shows w r d p ∧ shows_steps w (wr_id r) (wd_steps d) p sts
      ∧ NoDup (bp_key <$> wd_steps d).
Proof.
  intros Hok. unfold named_run. destruct (parse_id input "run_id") as [id|e|]; [|done..].
  intros Hr. destruct (ok_runs w Hok id r Hr) as (<- & d & p & Hsh).
  split; [done|]. split; [done|]. destruct (sh_steps _ _ _ _ Hsh) as [sts Hsts].
  exists d, p, sts. split; [done|]. split; [done|].
  by destruct (ok_definitions w Hok _ _ (sh_definition _ _ _ _ Hsh)) as (_ & _ & ?).
Qed.

(** A completion keeps the abstraction, and advances the run that it names. *)
Lemma complete_ok input t1 t2 w r d p sts :
  workspace_ok w → parse_id input "run_id" = Ok (wr_id r) →
  wf_runs w !! wr_id r = Some r → shows w r d p →
  shows_steps w (wr_id r) (wd_steps d) p sts → NoDup (bp_key <$> wd_steps d) →
  let '(x, w') := execute_step_complete input t1 t2 w in
  workspace_ok w'
  ∧ match abstract_complete (wd_steps d) p with
    | None => is_ok x = false ∧ w' = w
    | Some p' =>
        is_ok x = negb (stuck (wd_steps d))
        ∧ others_keep (wr_id r) w w'
        ∧ ∃ r', wf_runs w' !! wr_id r = Some r' ∧ wr_id r' = wr_id r ∧ shows w' r' d p'
    end.
Proof using All.
  intros Hok Hid Hr Hsh Hsts Hnd.
  pose proof (complete_spec _ t1 t2 _ _ _ _ _ _ Hid Hr eq_refl Hnd Hsh Hsts) as Hspec.
  destruct (abstract_complete (wd_steps d) p) as [p'|] eqn:Hc.
  - destruct Hspec as (x & r' & st & Hi & -> & Hx & _ & Hid' & Hdef & Hst).
    pose proof (sh_progress _ _ _ _ Hsh) as Hp.
    destruct (workspace_step_ok w _ _ r r' d p p' sts st
      (after_complete (wd_steps d) (approvals p)) t1 Hok Hr Hsh Hsts Hi
      (statuses_complete _ _ _ Hp Hc) (abstract_complete_ok _ _ _ Hp Hc) Hid' Hdef Hst
      eq_refl) as (Hok' & Hsh' & Hothers).
    split; [done|]. split; [done|]. split; [done|]. exists r'.
    split; [apply lookup_insert_eq|done].
  - destruct Hspec as [e ->]. done.
Qed.

Lemma approve_ok input ctx now w r d p sts :
  ctx_principal_kind ctx = Some Human → workspace_ok w →
  parse_id input "run_id" = Ok (wr_id r) →
  wf_runs w !! wr_id r = Some r → shows w r d p →
  shows_steps w (wr_id r) (wd_steps d) p sts →
  let '(x, w') := execute_approve input ctx now w in
  workspace_ok w'
  ∧ match abstract_approve p with
    | None => is_ok x = false ∧ w' = w
    | Some p' =>
        is_ok x = true ∧ others_keep (wr_id r) w w'
        ∧ wf_runs w' !! wr_id r = Some r ∧ shows w' r d p'
    end.
Proof using All.
  intros Hh Hok Hid Hr Hsh Hsts.
  pose proof (approve_spec _ _ now _ _ _ _ _ _ Hh Hid Hr eq_refl Hsh Hsts) as Hspec.
  destruct (abstract_approve p) as [p'|] eqn:Hc.
  - destruct Hspec as (x & st & Hi & ->). pose proof (sh_progress _ _ _ _ Hsh) as Hp.
    destruct (workspace_step_ok w
      (update_step st (set_step_status WorkflowStepStatus.Approved now st) w) _ r r d p p'
      sts st WorkflowStepStatus.Approved now Hok Hr Hsh Hsts Hi
      (statuses_approve _ _ _ Hp Hc) (abstract_approve_ok _ _ _ Hp Hc) eq_refl eq_refl)
      as (Hok' & Hsh' & Hothers); [| |done].
    + rewrite (sh_status _ _ _ _ Hsh). symmetry. by apply approve_status.
    + unfold update_step, completed_store. by rewrite (insert_id (wf_runs w)).
  - destruct Hspec as [e ->]. done.
Qed.

Lemma workspace_reachable_ok w : reachable_workspace w → workspace_ok w.
Proof using All.
  induction 1 as [|o w _ Hok Hf]; [constructor; simpl; by intros ? ? ?%lookup_empty_Some|].
  destruct o as [input now id|input now id|input t1 t2|input ctx now]; cbn [workflow_apply].
  - by apply define_ok.
  - by apply trigger_ok.
  - destruct (named_run input w) as [r|] eqn:Hn; [|by rewrite complete_no_run].
    destruct (named_run_Some _ _ _ Hok Hn) as (Hid & Hr & d & p & sts & Hsh & Hsts & Hnd).
    pose proof (complete_ok _ t1 t2 _ _ _ _ _ Hok Hid Hr Hsh Hsts Hnd) as Hc.
    destruct (execute_step_complete input t1 t2 w). by destruct Hc.
  - destruct (decide (ctx_principal_kind ctx = Some Human)) as [Hh|Hh];
      [|unfold execute_approve; by rewrite bool_decide_false].
    destruct (named_run input w) as [r|] eqn:Hn; [|by rewrite approve_no_run].
    destruct (named_run_Some _ _ _ Hok Hn) as (Hid & Hr & d & p & sts & Hsh & Hsts & Hnd).
    pose proof (approve_ok _ _ now _ _ _ _ _ Hh Hok Hid Hr Hsh Hsts) as Hc.
    destruct (execute_approve input ctx now w). by destruct Hc.
Qed.

(** ** What a reader of the files sees *)

(** The blueprints of a run, the statuses of its steps and its own status. *)
Definition observe (w : WorkflowStore) (id : Uuid)
    : option (list WorkflowStepBlueprint * list WorkflowStepStatus.t * WorkflowRunStatus.t) :=
  r ← wf_runs w !! id;
  d ← wf_definitions w !! wr_workflow_definition_id r;
  match load_steps r d w with
  | (Ok sts, _) => Some (wd_steps d, ws_status <$> sts, wr_status r)
  | _ => None
  end.

Definition view_of (bps : list WorkflowStepBlueprint) (p : progress) :=
  (bps, statuses bps p, run_status_of bps p).

Lemma observe_shows w id r d p :
  wf_runs w !! id = Some r → shows w r d p → observe w id = Some (view_of (wd_steps d) p).
Proof using All.
  intros Hr [Hd Hp Hst (sts & Hsts)]. unfold observe. rewrite Hr. simpl. rewrite Hd. simpl.
  rewrite (shows_load_steps _ _ _ _ _ Hsts). unfold view_of.
  by rewrite <- Hst, <- (proj2 Hsts).
Qed.

Lemma observe_inv w id v :
  workspace_ok w → observe w id = Some v →
  ∃ r d p, wf_runs w !! id = Some r ∧ wr_id r = id ∧ shows w r d p
    ∧ v = view_of (wd_steps d) p ∧ NoDup (bp_key <$> wd_steps d) ∧ wd_steps d ≠ [].
Proof using All.
  intros Hok Ho. destruct (wf_runs w !! id) as [r|] eqn:Hr;
    [|unfold observe in Ho; by rewrite Hr in Ho].
  destruct (ok_runs w Hok id r Hr) as (Hid & d & p & Hsh). exists r, d, p.
  destruct (ok_definitions w Hok _ _ (sh_definition _ _ _ _ Hsh)) as (_ & Hne & Hnd).
  split_and!; try done. rewrite (observe_shows _ _ _ _ _ Hr Hsh) in Ho. congruence.
Qed.

Lemma others_observe id w w' :
  workspace_ok w → others_keep id w w' →
  ∀ j v, j ≠ id → observe w j = Some v → observe w' j = Some v.
Proof using All.
  intros Hok Hk j v Hj Ho.
  destruct (observe_inv _ _ _ Hok Ho) as (r & d & p & Hr & Hid & Hsh & -> & _).
  destruct (Hk j r d p Hj Hr Hid Hsh) as [Hr' Hsh']. by apply observe_shows with r.
Qed.

(** C31: workflow runs refine a counter.  In every workspace that the handlers can
    produce, what the files show of a run is a number of approved steps and whether the
    next step waits for approval.  Completing a step and approving one act on a run as
    [abstract_complete] and [abstract_approve] act on that counter: where these are
    undefined the call fails and writes nothing; approvals by anyone but a human are
    refused; and no call changes what the files show of another run.  A completion also
    fails, after it has written the step, when the run has a single, automatic step. *)
Theorem workflow_refines (w : WorkflowStore) (id : Uuid) (input : json)
    (bps : list WorkflowStepBlueprint) (sts : list WorkflowStepStatus.t)
    (rst : WorkflowRunStatus.t) (t1 t2 now : DateTime) (ctx : ExecutionContext)
    (Hreach : reachable_workspace w) (Hrun : observe w id = Some (bps, sts, rst))
    (Hid : parse_id input "run_id" = Ok id) :
  ∃ p, progress_ok bps p ∧ (bps, sts, rst) = view_of bps p
    ∧ (let '(x, w') := execute_step_complete input t1 t2 w in
       match abstract_complete bps p with
       | None => is_ok x = false ∧ w' = w
       | Some p' =>
           is_ok x = negb (stuck bps) ∧ observe w' id = Some (view_of bps p')
           ∧ ∀ j v, j ≠ id → observe w j = Some v → observe w' j = Some v
       end)
    ∧ (let '(x, w') := execute_approve input ctx now w in
       if bool_decide (ctx_principal_kind ctx = Some Human) then
         match abstract_approve p with
         | None => is_ok x = false ∧ w' = w
         | Some p' =>
             is_ok x = true ∧ observe w' id = Some (view_of bps p')
             ∧ ∀ j v, j ≠ id → observe w j = Some v → observe w' j = Some v
         end
       else x = Err ExecutionError.HumanOnly ∧ w' = w).
Proof using All.
  pose proof (workspace_reachable_ok w Hreach) as Hok.
  destruct (observe_inv _ _ _ Hok Hrun) as (r & d & p & Hr & <- & Hsh & E & Hnd & _).
  injection E as -> -> ->. exists p. split; [apply Hsh|]. split; [done|].
  destruct (sh_steps _ _ _ _ Hsh) as [sts Hsts]. split.
  - pose proof (complete_ok _ t1 t2 _ _ _ _ _ Hok Hid Hr Hsh Hsts Hnd) as Hc.
    destruct (execute_step_complete input t1 t2 w) as [x w']. destruct Hc as [_ Hc].
    destruct (abstract_complete (wd_steps d) p) as [p'|]; [|done].
    destruct Hc as (Hx & Hk & r' & Hr' & _ & Hsh'). split; [done|].
    split; [by apply observe_shows with r'|by apply others_observe].
  - case_bool_decide as Hh; [|unfold execute_approve; by rewrite bool_decide_false].
    pose proof (approve_ok _ _ now _ _ _ _ _ Hh Hok Hid Hr Hsh Hsts) as Hc.
    destruct (execute_approve input ctx now w) as [x w']. destruct Hc as [_ Hc].
    destruct (abstract_approve p) as [p'|]; [|done].
    destruct Hc as (Hx & Hk & Hr' & Hsh'). split; [done|].
    split; [by apply observe_shows with r|by apply others_observe].
Qed.

Lemma observe_view w id bps sts rst :
  reachable_workspace w → observe w id = Some (bps, sts, rst) →
  ∃ p, progress_ok bps p ∧ sts = statuses bps p ∧ rst = run_status_of bps p ∧ bps ≠ [].
Proof using All.
  intros Hreach Hrun.
  destruct (observe_inv _ _ _ (workspace_reachable_ok w Hreach) Hrun)
    as (r & d & p & _ & _ & Hsh & E & _ & Hne).
  injection E as -> -> ->. exists p. by destruct Hsh.
Qed.

Lemma statuses_lookup bps p i :
  progress_ok bps p →
  statuses bps p !! i
  = if i <? approvals p then Some WorkflowStepStatus.Approved
    else if length bps <=? i then None
    else if awaiting p && (i =? approvals p) then Some WorkflowStepStatus.Completed
    else Some WorkflowStepStatus.Pending.
Proof.
  intros [Hle Haw]. unfold statuses. destruct (Nat.ltb_spec i (approvals p)) as [Hi|Hi].
  - destruct (awaiting p); rewrite lookup_app_l by (by rewrite length_replicate);
      by apply lookup_replicate_2.
  - destruct (awaiting p); rewrite lookup_app_r by (by rewrite length_replicate);
      rewrite length_replicate.
    + destruct Haw as [Hlt _]; [done|].
      destruct (Nat.eqb_spec i (approvals p)) as [->|]; simpl.
      * rewrite Nat.sub_diag. destruct (Nat.leb_spec (length bps) (approvals p)); [lia|done].
      * replace (i - approvals p) with (S (i - S (approvals p))) by lia. simpl.
        destruct (Nat.leb_spec (length bps) i).
        -- apply lookup_replicate_None. lia.
        -- apply lookup_replicate_2. lia.
    + simpl. destruct (Nat.leb_spec (length bps) i).
      * apply lookup_replicate_None. lia.
      * apply lookup_replicate_2. lia.
Qed.

(** Steps happen in order.  In every workspace that the handlers can produce, a
    step of a run has left [Pending] only if all earlier steps are approved, and waits
    for approval only if its definition requires one. *)
Theorem workflow_in_order (w : WorkflowStore) (id : Uuid)
    (bps : list WorkflowStepBlueprint) (sts : list WorkflowStepStatus.t)
    (rst : WorkflowRunStatus.t)
    (Hreach : reachable_workspace w) (Hrun : observe w id = Some (bps, sts, rst)) :
  length sts = length bps
  ∧ (∀ i j s, i < j → sts !! j = Some s → s ≠ WorkflowStepStatus.Pending →
       sts !! i = Some WorkflowStepStatus.Approved)
  ∧ (∀ i, sts !! i = Some WorkflowStepStatus.Completed → requires bps i = true).
Proof using All.
  destruct (observe_view _ _ _ _ _ Hreach Hrun) as (p & Hp & -> & _ & _).
  split; [by apply statuses_length|]. split.
  - intros i j s Hij. rewrite !statuses_lookup by done.
    destruct (Nat.ltb_spec j (approvals p)), (Nat.ltb_spec i (approvals p)); try done; try lia.
    destruct (Nat.leb_spec (length bps) j); [done|].
    destruct (awaiting p); simpl; [|naive_solver].
    destruct (Nat.eqb_spec j (approvals p)); [lia|naive_solver].
  - intros i. rewrite statuses_lookup by done.
    destruct (Nat.ltb_spec i (approvals p)); [done|].
    destruct (Nat.leb_spec (length bps) i); [done|].
    destruct (awaiting p) eqn:Ha; simpl; [|done].
    destruct (Nat.eqb_spec i (approvals p)) as [->|]; [|done]. intros _. by apply Hp.
Qed.

Lemma Forall_approved bps p :
  progress_ok bps p →
  Forall (λ s, s = WorkflowStepStatus.Approved) (statuses bps p) ↔
  negb (awaiting p) && (approvals p =? length bps) = true.
Proof.
  intros Hp. rewrite <- all_approved by done. rewrite forallb_forall, Forall_forall.
  setoid_rewrite bool_decide_eq_true. by setoid_rewrite list_elem_of_In.
Qed.

Lemma run_status_completed bps p :
  bps ≠ [] → progress_ok bps p →
  run_status_of bps p = WorkflowRunStatus.Completed ↔
  (awaiting p = false ∧ approvals p = length bps) ∧ 2 ≤ length bps
  ∧ last_automatic bps = true.
Proof.
  intros Hne [Hle Haw]. assert (length bps ≠ 0) as Hn by by destruct bps.
  unfold run_status_of. destruct (awaiting p); simpl.
  - destruct Haw as [Hlt _]; [done|]. rewrite andb_false_r.
    assert ((approvals p =? length bps) = false) as -> by (apply Nat.eqb_neq; lia).
    simpl. split; [done|]. by intros [[? _] _].
  - destruct (Nat.eqb_spec (approvals p) 0) as [E0|E0]; simpl.
    { split; [done|]. intros ([_ ?] & _). lia. }
    destruct (Nat.eqb_spec (approvals p) (length bps)) as [E|E]; simpl;
      [|split; [done|by intros ([_ ?] & _)]].
    destruct (last_automatic bps); simpl; [|by split; [done|intros (_ & _ & ?)]].
    destruct (Nat.eqb_spec (length bps) 1) as [E1|E1].
    + split; [done|]. intros (_ & ? & _). lia.
    + split; [intros _; split_and!; [done|done|lia|done]|done].
Qed.

(** Which runs complete.  In every workspace that the handlers can produce, a run is
    completed exactly if all its steps are approved, there are at least two of them, and
    the last one is automatic.  So a run whose last step needs approval is never
    completed, nor is one of a single step. *)
Theorem workflow_completed_runs (w : WorkflowStore) (id : Uuid)
    (bps : list WorkflowStepBlueprint) (sts : list WorkflowStepStatus.t)
    (rst : WorkflowRunStatus.t)
    (Hreach : reachable_workspace w) (Hrun : observe w id = Some (bps, sts, rst)) :
  rst = WorkflowRunStatus.Completed ↔
  Forall (λ s, s = WorkflowStepStatus.Approved) sts
  ∧ 2 ≤ length bps ∧ last_automatic bps = true.
Proof using All.
  destruct (observe_view _ _ _ _ _ Hreach Hrun) as (p & Hp & -> & -> & Hne).
  rewrite run_status_completed, Forall_approved by done.
  rewrite andb_true_iff, negb_true_iff, Nat.eqb_eq. tauto.
Qed.

(** ** Runs can be driven to the end *)

(** One round on a run: a completion, then an approval. *)
Definition work_round (input : json) (ctx : ExecutionContext)
    (times : DateTime * DateTime * DateTime) (w : WorkflowStore) : WorkflowStore :=
  let '(t1, t2, t3) := times in
  (workflow_apply (OpApprove input ctx t3)
     (workflow_apply (OpStepComplete input t1 t2) w).2).2.

Definition work_rounds (input : json) (ctx : ExecutionContext)
    (times : list (DateTime * DateTime * DateTime)) (w : WorkflowStore) : WorkflowStore :=
  fold_left (λ w t, work_round input ctx t w) times w.

Definition abstract_round (bps : list WorkflowStepBlueprint) (p : progress) : progress :=
  let p := default p (abstract_complete bps p) in default p (abstract_approve p).

Lemma abstract_round_spec bps p :
  progress_ok bps p →
  progress_ok bps (abstract_round bps p)
  ∧ (approvals p < length bps → S (approvals p) ≤ approvals (abstract_round bps p))
  ∧ approvals p ≤ approvals (abstract_round bps p).
Proof.
  intros Hp. unfold abstract_round.
  assert (∃ q, default p (abstract_complete bps p) = q ∧ progress_ok bps q
    ∧ (awaiting q = true ∧ approvals q = approvals p
       ∨ awaiting q = false
         ∧ (approvals q = S (approvals p) ∨ approvals q = approvals p ∧ length bps ≤ approvals p)))
    as (q & -> & Hq & Hcase).
  { destruct (abstract_complete bps p) as [q|] eqn:E; simpl; eexists; split; try done.
    - split; [by eapply abstract_complete_ok|]. unfold abstract_complete in E.
      destruct (awaiting p || (length bps <=? approvals p)); [done|]. injection E as <-.
      destruct (requires bps (approvals p)); simpl; auto.
    - split; [done|]. unfold abstract_complete in E. destruct (awaiting p); [by left|].
      destruct (Nat.leb_spec (length bps) (approvals p)); [|done]. simpl. right. auto. }
  destruct (abstract_approve q) as [q'|] eqn:E; simpl.
  - split; [by eapply abstract_approve_ok|]. unfold abstract_approve in E.
    destruct (awaiting q); [|done]. injection E as <-. simpl.
    destruct Hcase as [[_ ->]|[? _]]; [|done]. lia.
  - unfold abstract_approve in E. destruct (awaiting q); [done|].
    destruct Hcase as [[? _]|[_ Hc]]; [done|]. split; [done|lia].
Qed.

(** The run [id] shows the progress [p]. *)
Definition run_at (w : WorkflowStore) (id : Uuid) (d : WorkflowDefinition) (p : progress)
    : Prop :=
  workspace_ok w ∧ NoDup (bp_key <$> wd_steps d)
  ∧ ∃ r, wf_runs w !! id = Some r ∧ wr_id r = id ∧ shows w r d p.

Lemma complete_at input t1 t2 w id d p :
  parse_id input "run_id" = Ok id → run_at w id d p →
  run_at (execute_step_complete input t1 t2 w).2 id d
    (default p (abstract_complete (wd_steps d) p)).
Proof using All.
  intros Hid (Hok & Hnd & r & Hr & <- & Hsh). destruct (sh_steps _ _ _ _ Hsh) as [sts Hsts].
  pose proof (complete_ok _ t1 t2 _ _ _ _ _ Hok Hid Hr Hsh Hsts Hnd) as Hc.
  destruct (execute_step_complete input t1 t2 w) as [x w']. destruct Hc as [Hok' Hc].
  split; [done|]. split; [done|].
  destruct (abstract_complete (wd_steps d) p) as [p'|]; simpl.
  - destruct Hc as (_ & _ & r' & ?). eauto.
  - destruct Hc as [_ ->]. eauto.
Qed.

Lemma approve_at input ctx now w id d p :
  ctx_principal_kind ctx = Some Human → parse_id input "run_id" = Ok id → run_at w id d p →
  run_at (execute_approve input ctx now w).2 id d (default p (abstract_approve p)).
Proof using All.
  intros Hh Hid (Hok & Hnd & r & Hr & <- & Hsh). destruct (sh_steps _ _ _ _ Hsh) as [sts Hsts].
  pose proof (approve_ok _ _ now _ _ _ _ _ Hh Hok Hid Hr Hsh Hsts) as Hc.
  destruct (execute_approve input ctx now w) as [x w']. destruct Hc as [Hok' Hc].
  split; [done|]. split; [done|].
  destruct (abstract_approve p) as [p'|]; simpl.
  - destruct Hc as (_ & _ & Hr' & ?). eauto.
  - destruct Hc as [_ ->]. eauto.
Qed.

Lemma work_round_at input ctx t w id d p :
  ctx_principal_kind ctx = Some Human → parse_id input "run_id" = Ok id → run_at w id d p →
  run_at (work_round input ctx t w) id d (abstract_round (wd_steps d) p).
Proof using All.
  intros Hh Hid Hat. destruct t as [[t1 t2] t3].
  apply approve_at; [done|done|]. by apply complete_at.
Qed.

(** Enough rounds approve every step. *)
Lemma work_rounds_at input ctx times w id d p :
  ctx_principal_kind ctx = Some Human → parse_id input "run_id" = Ok id → run_at w id d p →
  length (wd_steps d) ≤ length times + approvals p →
  ∃ q, run_at (work_rounds input ctx times w) id d q
    ∧ approvals q = length (wd_steps d).
Proof using All.
  intros Hh Hid. revert w p. induction times as [|t times IH]; intros w p Hat Hlen.
  - exists p. split; [done|]. destruct Hat as (_ & _ & r & _ & _ & Hsh).
    destruct (sh_progress _ _ _ _ Hsh) as [Hle _]. simpl in Hlen. lia.
  - pose proof (work_round_at _ _ t _ _ _ _ Hh Hid Hat) as Hat'.
    destruct Hat as (_ & _ & r & _ & _ & Hsh).
    destruct (abstract_round_spec _ _ (sh_progress _ _ _ _ Hsh)) as (_ & Hlt & Hle).
    apply (IH _ _ Hat'). simpl in Hlen.
    destruct (decide (approvals p < length (wd_steps d))) as [Hk|Hk]; [specialize (Hlt Hk)|]; lia.
Qed.

(** C32: runs come to their end.  Take any run of any workspace that the handlers can
    produce, and let a completion and then the approval of a human be called on it, again
    and again.  After as many rounds as the run has steps, every step is approved; and if
    the run has at least two steps and ends with an automatic one, it is completed. *)
Theorem workflow_finishes (w : WorkflowStore) (id : Uuid) (input : json)
    (ctx : ExecutionContext) (times : list (DateTime * DateTime * DateTime))
    (bps : list WorkflowStepBlueprint) (sts : list WorkflowStepStatus.t)
    (rst : WorkflowRunStatus.t)
    (Hreach : reachable_workspace w) (Hrun : observe w id = Some (bps, sts, rst))
    (Hid : parse_id input "run_id" = Ok id) (Hh : ctx_principal_kind ctx = Some Human)
    (Hlen : length bps ≤ length times) :
  ∃ sts' rst', observe (work_rounds input ctx times w) id = Some (bps, sts', rst')
    ∧ sts' = replicate (length bps) WorkflowStepStatus.Approved
    ∧ (2 ≤ length bps → last_automatic bps = true → rst' = WorkflowRunStatus.Completed).
Proof using All.
  pose proof (workspace_reachable_ok w Hreach) as Hok.
  destruct (observe_inv _ _ _ Hok Hrun) as (r & d & p & Hr & Hrid & Hsh & E & Hnd & Hne).
  injection E as -> -> ->.
  destruct (work_rounds_at input ctx times w id d p Hh Hid) as (q & Hat & Hq); [|lia|].
  { split; [done|]. split; [done|]. eauto. }
  destruct Hat as (_ & _ & r' & Hr' & _ & Hsh'). pose proof (sh_progress _ _ _ _ Hsh') as Hpq.
  assert (awaiting q = false) as Ha.
  { destruct (awaiting q) eqn:Ha; [|done]. destruct (proj2 Hpq Ha). lia. }
  eexists _, _. split; [by apply observe_shows with r'|]. split.
  - unfold statuses. by rewrite Ha, Hq, Nat.sub_diag, app_nil_r.
  - intros H2 Hl. by apply run_status_completed.
Qed.

End proofs.

(** ** A workspace *)

Module WorkflowSample.
Import Sample.

(** A stand-in for SHA-256: the end of the text. *)
#[export] Instance sample_workflow : WorkflowExternals := {
  sha256 m := Sample.take_pad 32 (String.rev m);
  uuid_error s := s;
  hex_error s := s;
  serde_error _ := "schema";
  file_missing := "No such file";
  manifest_dir := "/src";
  path_exists _ := true;
  read_to_string _ := Ok "{}";
  serde_from_str _ := Ok (JObject []);
}.

#[export] Instance sample_workflow_laws : WorkflowLaws.
Proof. constructor. intros m. apply Sample.take_pad_length. Qed.

Definition step_input (key : string) (approval : bool) : json :=
  JObject [("key", JString key); ("name", JString key); ("requires_approval", JBool approval)].

Definition define_input : json :=
  JObject [("name", JString "publish"); ("steps", JArray [step_input "draft" true;
                                                          step_input "send" false])].
Definition trigger_input : json := JObject [("workflow_id", uuid_value 1%N)].
Definition run_input : json := JObject [("run_id", uuid_value 2%N)].

Definition define_call : workflow_op := OpDefine define_input 0%Z 1%N.
Definition trigger_call : workflow_op := OpTrigger trigger_input 1%Z 2%N.

Definition defined : WorkflowStore := (workflow_apply define_call WorkflowStore_empty).2.
Definition triggered : WorkflowStore := (workflow_apply trigger_call defined).2.

Definition human : ExecutionContext :=
  {| ctx_actor := 7%N; ctx_principal_kind := Some Human; ctx_delegation_id := None;
     ctx_delegation_chain := None; ctx_workspace_path := "/w"; ctx_timestamp := 0%Z |}.

Definition the_definition : WorkflowDefinition :=
  {| wd_id := 1%N; wd_name := "publish"; wd_description := EmptyString;
     wd_steps := [{| bp_key := "draft"; bp_name := "draft"; bp_requires_approval := true |};
                  {| bp_key := "send"; bp_name := "send"; bp_requires_approval := false |}];
     wd_created_at := 0%Z; wd_updated_at := 0%Z |}.

Lemma defined_definitions : wf_definitions defined = {[1%N := the_definition]}.
Proof. by vm_compute. Qed.

Lemma triggered_reachable : reachable_workspace triggered.
Proof.
  apply workspace_call; [apply workspace_call; [constructor|done]|].
  split; [by vm_compute|]. intros k d. fold defined.
  rewrite defined_definitions, lookup_singleton_Some. intros [<- <-]. split.
  - apply (bool_decide_unpack _). by vm_compute.
  - repeat constructor.
Qed.

Definition blueprints : list WorkflowStepBlueprint := wd_steps the_definition.

Lemma triggered_view :
  observe triggered 2%N
  = Some (blueprints, [WorkflowStepStatus.Pending; WorkflowStepStatus.Pending],
          WorkflowRunStatus.Pending).
Proof. by vm_compute. Qed.

Definition two_rounds : list (DateTime * DateTime * DateTime) :=
  [(2, 2, 3); (4, 4, 5)]%Z.

Lemma workflow_refines_witness :
  ∃ p, progress_ok blueprints p
    ∧ statuses blueprints p = [WorkflowStepStatus.Pending; WorkflowStepStatus.Pending].
Proof.
  destruct (workflow_refines triggered 2%N run_input _ _ _ 2%Z 2%Z 3%Z human
    triggered_reachable triggered_view ltac:(by vm_compute)) as (p & Hp & Hv & _).
  exists p. split; [done|]. by injection Hv.
Defined.

Lemma workflow_in_order_witness : length blueprints = 2 ∧ requires blueprints 0 = true.
Proof.
  destruct (workflow_in_order (execute_step_complete run_input 2%Z 2%Z triggered).2 2%N
    blueprints [WorkflowStepStatus.Completed; WorkflowStepStatus.Pending]
    WorkflowRunStatus.InProgress) as (Hl & _ & Hc).
  - apply (workspace_call (OpStepComplete run_input 2%Z 2%Z) triggered triggered_reachable I).
  - by vm_compute.
  - split; [by rewrite <- Hl|by apply Hc].
Defined.

Lemma workflow_completed_runs_witness :
  WorkflowRunStatus.Pending ≠ WorkflowRunStatus.Completed
  ∧ ¬ Forall (λ s, s = WorkflowStepStatus.Approved)
        [WorkflowStepStatus.Pending; WorkflowStepStatus.Pending].
Proof.
  pose proof (workflow_completed_runs triggered 2%N _ _ _ triggered_reachable
    triggered_view) as H. split; [done|]. intros HF.
  by assert (WorkflowRunStatus.Pending = WorkflowRunStatus.Completed) by (apply H; auto).
Defined.

Lemma workflow_finishes_witness :
  ∃ sts, observe (work_rounds run_input human two_rounds triggered) 2%N
         = Some (blueprints, sts, WorkflowRunStatus.Completed).
Proof.
  destruct (workflow_finishes triggered 2%N run_input human two_rounds _ _ _
    triggered_reachable triggered_view ltac:(by vm_compute) eq_refl ltac:(by vm_compute; lia))
    as (sts & rst & Ho & _ & Hc).
  exists sts. rewrite Ho. by rewrite Hc by (vm_compute; auto with lia).
Defined.

End WorkflowSample.
