(* ===== verification/Durable.v ===== *)
(** * Durable operator records

    The model of [crates/proof-kernel/src/operator/durable.rs], with the prepared
    results of [operator/store.rs] that a reservation holds: workspaces and
    enrolments, budgets and reservations, run control records, leases, dispatch
    intents and permits, replay bindings, recovery directives, projections and
    commands.  Each record has the validator of the source and, where a digest
    covers it, the JSON object that is hashed.

    The objects are optional values, as in [StrictDigest].  A [DateTime] is an instant in
    nanoseconds.

    The theorems are about budgets: [can_reserve_exact] says when an amount can be
    reserved, with no overflow; and about reservations: [BudgetReservation_states] says
    which fields each state has, and that the validator does not panic. *)

From S2P Require Import Prelude RustStr Externals Json Canonical Serialized Evidence.
From S2P Require Import OperatorCommon StrictDigest AgentRun ExecutionStore.
From stdpp Require Import options.

(** The base64 engine [URL_SAFE_NO_PAD], [serde_json::from_str] to a [Value], and the
    text of the error with which [serde_json] refuses a strict field that cannot be
    written. *)
Class OperatorExternals : Type := {
  base64url_decode : string → option string;
  base64url_encode : string → string;
  json_from_str : string → option json;
  unwritable_error : string;
}.

(** ** Errors *)

Module ValidationError.
Inductive t : Type :=
| InvalidSchema | InvalidUuid | InvalidRevision | InvalidBranch | InvalidChronology
| BudgetExceeded.

#[global] Instance t_eq_dec : EqDecision t.
Proof. solve_decision. Defined.
End ValidationError.

Notation checked := (result ValidationError.t ()).

Module StoreError.
Inductive t : Type :=
| Conflict | Corrupt | Invalid | NotActionable | NotFound | SignerFailed | StaleFence
| StaleRevision | Unavailable.

#[global] Instance t_eq_dec : EqDecision t.
Proof. solve_decision. Defined.
End StoreError.

(** ** Principals and workspaces *)

Record PrincipalBinding := {
  pn_principal_id : PrincipalId;
  pn_kind : PrincipalKind;
  pn_public_key : string;
  pn_public_key_fingerprint : ControlDigest;
}.

Record DescriptorIdentity := { device : N; inode : N }.

Record WorkspaceFingerprintInput := {
  fp_schema : string;
  fp_workspace_id : Uuid;
  fp_proof_directory : DescriptorIdentity;
  fp_control_lock : DescriptorIdentity;
  fp_agent_key_file : DescriptorIdentity;
  fp_human_key_file : DescriptorIdentity;
  fp_agent_id : Uuid;
  fp_human_id : Uuid;
  fp_agent_public_key : string;
  fp_human_public_key : string;
}.

Record SchemaCatalogEntryBinding := {
  ce_operation : string;
  ce_version : string;
  ce_registry_entry_path : string;
  ce_registry_entry_sha256 : ArtifactDigest;
  ce_input_schema_path : string;
  ce_input_schema_sha256 : ArtifactDigest;
  ce_output_schema_path : string;
  ce_output_schema_sha256 : ArtifactDigest;
}.

Record SchemaCatalogBinding := {
  cb_schema : string;
  cb_entries : list SchemaCatalogEntryBinding;
}.

Record OperatorWorkspace := {
  ow_schema : string;
  ow_workspace_id : Uuid;
  ow_database_name : string;
  ow_fingerprint_input : WorkspaceFingerprintInput;
  ow_workspace_fingerprint : ControlDigest;
  ow_schema_catalog_digest : ControlDigest;
  ow_agent : PrincipalBinding;
  ow_human : PrincipalBinding;
  ow_auth_epoch : N;
  ow_policy_revision : N;
  ow_capabilities : CapabilitySet;
  ow_created_at : DateTime;
  ow_updated_at : DateTime;
  ow_binding_digest : ControlDigest;
}.

Record HumanEnrollment := {
  he_schema : string;
  he_workspace_id : Uuid;
  he_human : PrincipalBinding;
  he_capabilities : CapabilitySet;
  he_capability_set_digest : ControlDigest;
  he_enrolled_at : DateTime;
}.

Record SessionAuthorityBinding := {
  sa_schema : string;
  sa_session_id : Uuid;
  sa_workspace_id : Uuid;
  sa_server_instance_id : Uuid;
  sa_human_id : Uuid;
  sa_auth_epoch : N;
  sa_policy_revision : N;
  sa_origin : string;
  sa_granted_capabilities : CapabilitySet;
  sa_issued_at : DateTime;
  sa_absolute_expires_at : DateTime;
}.

(** ** Budgets *)

Record BudgetPolicy := {
  bl_schema : string;
  bl_budget_id : Uuid;
  bl_workspace_id : Uuid;
  bl_limits : BudgetAmounts;
  bl_deadline_at : DateTime;
  bl_limits_digest : ControlDigest;
}.

Module AccountState.
Inductive t : Type := Active | Closed | Exhausted.

#[global] Instance t_eq_dec : EqDecision t.
Proof. solve_decision. Defined.
End AccountState.

Record BudgetAccount := {
  ba_schema : string;
  ba_policy : BudgetPolicy;
  ba_revision : N;
  ba_state : AccountState.t;
  ba_reserved : BudgetAmounts;
  ba_committed : BudgetAmounts;
  ba_created_at : DateTime;
  ba_updated_at : DateTime;
}.

(** ** Control records and leases *)

Record RunControl := {
  ctl_schema : string;
  ctl_run_id : Uuid;
  ctl_workspace_id : Uuid;
  ctl_budget_id : Uuid;
  ctl_control_revision : N;
  ctl_active_dispatch_reservation_id : option Uuid;
  ctl_recovery_directive_id : option Uuid;
  ctl_recovery_directive_digest : option ControlDigest;
  ctl_last_command_id : option Uuid;
  ctl_created_at : DateTime;
  ctl_updated_at : DateTime;
  ctl_binding_digest : ControlDigest;
}.

Module LeaseState.
Inductive t : Type := Active | Released.

#[global] Instance t_eq_dec : EqDecision t.
Proof. solve_decision. Defined.

Definition wire (s : t) : string :=
  match s with Active => "active" | Released => "released" end.
End LeaseState.

Record RunLease := {
  ls_schema : string;
  ls_run_id : Uuid;
  ls_workspace_id : Uuid;
  ls_lease_id : Uuid;
  ls_owner_instance_id : Uuid;
  ls_process_epoch_id : Uuid;
  ls_lease_token_digest : ControlDigest;
  ls_fence_epoch : N;
  ls_revision : N;
  ls_state : LeaseState.t;
  ls_acquired_at : DateTime;
  ls_renewed_at : DateTime;
  ls_expires_at : DateTime;
  ls_released_at : option DateTime;
  ls_lease_digest : ControlDigest;
}.

(** ** Dispatch *)

Inductive BoundaryKind : Type := Provider | Tool.

#[export] Instance BoundaryKind_eq_dec : EqDecision BoundaryKind.
Proof. solve_decision. Defined.

Definition boundary_wire (k : BoundaryKind) : string :=
  match k with Provider => "provider" | Tool => "tool" end.

Record DispatchIntent := {
  in_schema : string;
  in_kind : BoundaryKind;
  in_adapter : string;
  in_model : option string;
  in_operation : string;
  in_version : string;
  in_argument_digest : ControlDigest;
  in_ceiling : BudgetAmounts;
}.

Inductive ReplayPolicy : Type := RequiredUuidv7ExactReplay.

Record ReplayClaimBinding := {
  rb_schema : string;
  rb_policy : ReplayPolicy;
  rb_workspace_id : Uuid;
  rb_run_id : Uuid;
  rb_step_id : Uuid;
  rb_checkpoint_id : Uuid;
  rb_checkpoint_sequence : N;
  rb_checkpoint_digest : ContentDigest;
  rb_operation : string;
  rb_version : string;
  rb_idempotency_key : Uuid;
  rb_input_digest : ContentDigest;
  rb_claimed_by : PrincipalId;
  rb_binding_digest : ControlDigest;
}.

Record DispatchPermit := {
  dp_schema : string;
  dp_permit_id : Uuid;
  dp_run_id : Uuid;
  dp_reservation_id : Uuid;
  dp_lease_id : Uuid;
  dp_process_epoch_id : Uuid;
  dp_fence_epoch : N;
  dp_expected_control_revision : N;
  dp_intent_digest : ControlDigest;
  dp_replay_binding_digest : option ControlDigest;
  dp_dispatch_token_digest : ControlDigest;
  dp_call_digest : ControlDigest;
  dp_authorized_at : DateTime;
  dp_budget_deadline_at : DateTime;
}.

(** ** Prepared results *)

Inductive PreparedHandlerMutation : Type := NoEffect.

Record ProofReference := {
  pf_proof_id : Uuid;
  pf_actor_id : Uuid;
  pf_operation : string;
  pf_proof_digest : ContentDigest;
}.

Record PreparedUsageRecord := {
  ur_schema : string;
  ur_boundary_kind : BoundaryKind;
  ur_boundary_calls : N;
  ur_adapter : string;
  ur_model : option string;
  ur_steps : N;
  ur_tokens : N;
  ur_cost_microusd : N;
  ur_tool_dispatches : N;
  ur_input_digest : ContentDigest;
  ur_output_digest : ContentDigest;
}.

Record PreparedRuntimeResultBody := {
  rr_schema : string;
  rr_usage : PreparedUsageRecord;
  rr_output_digest : ContentDigest;
  rr_proof : ProofReference;
  rr_run_revision : N;
  rr_step_revision : N;
  rr_checkpoint_id : option Uuid;
  rr_checkpoint_sequence : option N;
  rr_checkpoint_digest : option ContentDigest;
  rr_first_event_sequence : N;
  rr_last_event_sequence : N;
}.

Record PreparedExecutionBinding := {
  xb_schema : string;
  xb_payload_digest : ControlDigest;
  xb_replay_binding_digest : option ControlDigest;
  xb_execution_context_id : Uuid;
  xb_handler_mutation : PreparedHandlerMutation;
  xb_result : PreparedRuntimeResultBody;
  xb_result_digest : ControlDigest;
}.

Record RuntimeCommit := {
  rtc_schema : string;
  rtc_permit : DispatchPermit;
  rtc_expected_run_revision : N;
  rtc_expected_step_revision : N;
  rtc_expected_checkpoint_id : Uuid;
  rtc_expected_checkpoint_sequence : N;
  rtc_expected_checkpoint_digest : ContentDigest;
  rtc_actual_charge : BudgetAmounts;
  rtc_prepared_execution_digest : ControlDigest;
  rtc_result_digest : ControlDigest;
  rtc_committed_at : DateTime;
}.

(** ** Recovery *)

Inductive RecoveryClassification : Type := PreDispatchRecoverable.
Inductive RecoveryBudgetDisposition : Type := NoDisposition.

Record RecoveryDirective := {
  rd_schema : string;
  rd_directive_id : Uuid;
  rd_workspace_id : Uuid;
  rd_run_id : Uuid;
  rd_classification : RecoveryClassification;
  rd_source_lease_id : Uuid;
  rd_source_reservation_id : Uuid;
  rd_source_budget_id : Uuid;
  rd_source_idempotency_key : Uuid;
  rd_source_request_digest : ControlDigest;
  rd_checkpoint_id : Uuid;
  rd_checkpoint_sequence : N;
  rd_checkpoint_digest : ContentDigest;
  rd_source_fence_epoch : N;
  rd_source_control_revision : N;
  rd_intent_digest : ControlDigest;
  rd_replay : option ReplayClaimBinding;
  rd_required_budget_disposition : RecoveryBudgetDisposition;
  rd_created_at : DateTime;
  rd_directive_digest : ControlDigest;
}.

(** ** Reservations *)

Module ReservationState.
Inductive t : Type := Committed | Dispatching | Forfeited | Released | Reserved.

#[global] Instance t_eq_dec : EqDecision t.
Proof. solve_decision. Defined.
End ReservationState.

Record BudgetReservation := {
  br_schema : string;
  br_reservation_id : Uuid;
  br_budget_id : Uuid;
  br_run_id : Uuid;
  br_lease_id : Uuid;
  br_fence_epoch : N;
  br_idempotency_key : Uuid;
  br_request_digest : ControlDigest;
  br_kind : BoundaryKind;
  br_intent : DispatchIntent;
  br_intent_digest : ControlDigest;
  br_replay : option ReplayClaimBinding;
  br_recovery : option RecoveryDirective;
  br_state : ReservationState.t;
  br_reserved : BudgetAmounts;
  br_charged : BudgetAmounts;
  br_created_at : DateTime;
  br_permit_id : option Uuid;
  br_dispatch_token_digest : option ControlDigest;
  br_call_digest : option ControlDigest;
  br_prepared_execution_digest : option ControlDigest;
  br_result_digest : option ControlDigest;
  br_prepared_binding : option PreparedExecutionBinding;
  br_runtime_commit : option RuntimeCommit;
  br_dispatch_started_at : option DateTime;
  br_settled_at : option DateTime;
}.

(** ** Projections *)

Module AttentionState.
Inductive t : Type := AwaitingDecision | Recoverable | Running | Terminal.

#[global] Instance t_eq_dec : EqDecision t.
Proof. solve_decision. Defined.

Definition wire (s : t) : string :=
  match s with
  | AwaitingDecision => "awaiting_decision" | Recoverable => "recoverable"
  | Running => "running" | Terminal => "terminal"
  end.
End AttentionState.

Definition run_status_wire (s : RunStatus.t) : string :=
  match s with
  | RunStatus.Queued => "queued" | RunStatus.Running => "running"
  | RunStatus.WaitingForInput => "waiting_for_input" | RunStatus.Succeeded => "succeeded"
  | RunStatus.Failed => "failed" | RunStatus.Cancelled => "cancelled"
  end.

Record RunProjection := {
  pj_schema : string;
  pj_projection_id : Uuid;
  pj_projection_sequence : N;
  pj_projection_revision : N;
  pj_workspace_id : Uuid;
  pj_run_id : Uuid;
  pj_source_run_revision : N;
  pj_source_control_revision : N;
  pj_checkpoint_id : Uuid;
  pj_checkpoint_sequence : N;
  pj_checkpoint_digest : ContentDigest;
  pj_fence_epoch : N;
  pj_run_status : RunStatus.t;
  pj_attention : AttentionState.t;
  pj_required_human_id : option Uuid;
  pj_approval_request_id : option Uuid;
  pj_recovery_directive_id : option Uuid;
  pj_recovery_directive_digest : option ControlDigest;
  pj_projected_at : DateTime;
  pj_snapshot_digest : ControlDigest;
}.

#[export] Instance PrincipalBinding_eq_dec : EqDecision PrincipalBinding.
Proof. solve_decision. Defined.
#[export] Instance ReplayPolicy_eq_dec : EqDecision ReplayPolicy.
Proof. solve_decision. Defined.
#[export] Instance BudgetPolicy_eq_dec : EqDecision BudgetPolicy.
Proof. solve_decision. Defined.
#[export] Instance BudgetAccount_eq_dec : EqDecision BudgetAccount.
Proof. solve_decision. Defined.
#[export] Instance RunControl_eq_dec : EqDecision RunControl.
Proof. solve_decision. Defined.
#[export] Instance RunLease_eq_dec : EqDecision RunLease.
Proof. solve_decision. Defined.
#[export] Instance DispatchIntent_eq_dec : EqDecision DispatchIntent.
Proof. solve_decision. Defined.
#[export] Instance ReplayClaimBinding_eq_dec : EqDecision ReplayClaimBinding.
Proof. solve_decision. Defined.
#[export] Instance DispatchPermit_eq_dec : EqDecision DispatchPermit.
Proof. solve_decision. Defined.
#[export] Instance PreparedHandlerMutation_eq_dec : EqDecision PreparedHandlerMutation.
Proof. solve_decision. Defined.
#[export] Instance ProofReference_eq_dec : EqDecision ProofReference.
Proof. solve_decision. Defined.
#[export] Instance PreparedUsageRecord_eq_dec : EqDecision PreparedUsageRecord.
Proof. solve_decision. Defined.
#[export] Instance PreparedRuntimeResultBody_eq_dec : EqDecision PreparedRuntimeResultBody.
Proof. solve_decision. Defined.
#[export] Instance PreparedExecutionBinding_eq_dec : EqDecision PreparedExecutionBinding.
Proof. solve_decision. Defined.
#[export] Instance RuntimeCommit_eq_dec : EqDecision RuntimeCommit.
Proof. solve_decision. Defined.
#[export] Instance RecoveryClassification_eq_dec : EqDecision RecoveryClassification.
Proof. solve_decision. Defined.
#[export] Instance RecoveryBudgetDisposition_eq_dec : EqDecision RecoveryBudgetDisposition.
Proof. solve_decision. Defined.
#[export] Instance RecoveryDirective_eq_dec : EqDecision RecoveryDirective.
Proof. solve_decision. Defined.
#[export] Instance BudgetReservation_eq_dec : EqDecision BudgetReservation.
Proof. solve_decision. Defined.
#[export] Instance RunProjection_eq_dec : EqDecision RunProjection.
Proof. solve_decision. Defined.

(** ** The written form *)

Section serializers.
Context `{Externals}.

Notation uuid7 := strict_uuid_v7_serialize.
Notation opt_uuid7 := strict_optional_uuid_v7_serialize.
Notation safe := strict_safe_integer_serialize.
Notation utc := strict_utc_serialize.

Definition amounts_value (b : BudgetAmounts) : option json :=
  strict_object
    [("steps", safe (steps b)); ("tokens", safe (tokens b));
     ("duration_ms", safe (duration_ms b)); ("cost_microusd", safe (cost_microusd b));
     ("tool_dispatches", safe (tool_dispatches b))].

Definition kind_wire (k : PrincipalKind) : string :=
  match k with Human => "human" | Agent => "agent" | Service => "service" end.

Definition capability_wire (c : Capability) : string :=
  match c with
  | ApprovalDecide => "approval.decide" | ApprovalRead => "approval.read"
  | AuditRead => "audit.read" | OperatorCommon.RunCancel => "run.cancel"
  | RunRead => "run.read" | OperatorCommon.RunResume => "run.resume"
  end.

Definition capabilities_value (s : CapabilitySet) : option json :=
  Some (JArray (map (λ c, JString (capability_wire c)) (capabilities s))).

Definition principal_value (b : PrincipalBinding) : option json :=
  strict_object
    [("principal_id", strict_principal_id_serialize (pn_principal_id b));
     ("kind", text (kind_wire (pn_kind b))); ("public_key", text (pn_public_key b));
     ("public_key_fingerprint", control_value (pn_public_key_fingerprint b))].

Definition descriptor_value (d : DescriptorIdentity) : option json :=
  strict_object [("device", safe (device d)); ("inode", safe (inode d))].

Definition fingerprint_value (f : WorkspaceFingerprintInput) : option json :=
  strict_object
    [("schema", text (fp_schema f)); ("workspace_id", uuid7 (fp_workspace_id f));
     ("proof_directory", descriptor_value (fp_proof_directory f));
     ("control_lock", descriptor_value (fp_control_lock f));
     ("agent_key_file", descriptor_value (fp_agent_key_file f));
     ("human_key_file", descriptor_value (fp_human_key_file f));
     ("agent_id", uuid7 (fp_agent_id f)); ("human_id", uuid7 (fp_human_id f));
     ("agent_public_key", text (fp_agent_public_key f));
     ("human_public_key", text (fp_human_public_key f))].

Definition workspace_value (w : OperatorWorkspace) : option json :=
  strict_object
    [("schema", text (ow_schema w)); ("workspace_id", uuid7 (ow_workspace_id w));
     ("database_name", text (ow_database_name w));
     ("fingerprint_input", fingerprint_value (ow_fingerprint_input w));
     ("workspace_fingerprint", control_value (ow_workspace_fingerprint w));
     ("schema_catalog_digest", control_value (ow_schema_catalog_digest w));
     ("agent", principal_value (ow_agent w)); ("human", principal_value (ow_human w));
     ("auth_epoch", safe (ow_auth_epoch w)); ("policy_revision", safe (ow_policy_revision w));
     ("capabilities", capabilities_value (ow_capabilities w));
     ("created_at", utc (ow_created_at w)); ("updated_at", utc (ow_updated_at w));
     ("binding_digest", control_value (ow_binding_digest w))].

Definition policy_value (p : BudgetPolicy) : option json :=
  strict_object
    [("schema", text (bl_schema p)); ("budget_id", uuid7 (bl_budget_id p));
     ("workspace_id", uuid7 (bl_workspace_id p)); ("limits", amounts_value (bl_limits p));
     ("deadline_at", utc (bl_deadline_at p));
     ("limits_digest", control_value (bl_limits_digest p))].

Definition control_record_value (c : RunControl) : option json :=
  strict_object
    [("schema", text (ctl_schema c)); ("run_id", uuid7 (ctl_run_id c));
     ("workspace_id", uuid7 (ctl_workspace_id c)); ("budget_id", uuid7 (ctl_budget_id c));
     ("control_revision", safe (ctl_control_revision c));
     ("active_dispatch_reservation_id", opt_uuid7 (ctl_active_dispatch_reservation_id c));
     ("recovery_directive_id", opt_uuid7 (ctl_recovery_directive_id c));
     ("recovery_directive_digest", nullable control_value (ctl_recovery_directive_digest c));
     ("last_command_id", opt_uuid7 (ctl_last_command_id c));
     ("created_at", utc (ctl_created_at c)); ("updated_at", utc (ctl_updated_at c));
     ("binding_digest", control_value (ctl_binding_digest c))].

Definition lease_value (l : RunLease) : option json :=
  strict_object
    [("schema", text (ls_schema l)); ("run_id", uuid7 (ls_run_id l));
     ("workspace_id", uuid7 (ls_workspace_id l)); ("lease_id", uuid7 (ls_lease_id l));
     ("owner_instance_id", uuid7 (ls_owner_instance_id l));
     ("process_epoch_id", uuid7 (ls_process_epoch_id l));
     ("lease_token_digest", control_value (ls_lease_token_digest l));
     ("fence_epoch", safe (ls_fence_epoch l)); ("revision", safe (ls_revision l));
     ("state", text (LeaseState.wire (ls_state l))); ("acquired_at", utc (ls_acquired_at l));
     ("renewed_at", utc (ls_renewed_at l)); ("expires_at", utc (ls_expires_at l));
     ("released_at", strict_optional_utc_serialize (ls_released_at l));
     ("lease_digest", control_value (ls_lease_digest l))].

Definition intent_value (i : DispatchIntent) : option json :=
  strict_object
    [("schema", text (in_schema i)); ("kind", text (boundary_wire (in_kind i)));
     ("adapter", text (in_adapter i)); ("model", nullable text (in_model i));
     ("operation", text (in_operation i)); ("version", text (in_version i));
     ("argument_digest", control_value (in_argument_digest i));
     ("ceiling", amounts_value (in_ceiling i))].

Definition replay_binding_value (b : ReplayClaimBinding) : option json :=
  strict_object
    [("schema", text (rb_schema b)); ("policy", text "required_uuidv7_exact_replay");
     ("workspace_id", uuid7 (rb_workspace_id b)); ("run_id", uuid7 (rb_run_id b));
     ("step_id", uuid7 (rb_step_id b)); ("checkpoint_id", uuid7 (rb_checkpoint_id b));
     ("checkpoint_sequence", safe (rb_checkpoint_sequence b));
     ("checkpoint_digest", content_value (rb_checkpoint_digest b));
     ("operation", text (rb_operation b)); ("version", text (rb_version b));
     ("idempotency_key", uuid7 (rb_idempotency_key b));
     ("input_digest", content_value (rb_input_digest b));
     ("claimed_by", strict_principal_id_serialize (rb_claimed_by b));
     ("binding_digest", control_value (rb_binding_digest b))].

Definition directive_value (d : RecoveryDirective) : option json :=
  strict_object
    [("schema", text (rd_schema d)); ("directive_id", uuid7 (rd_directive_id d));
     ("workspace_id", uuid7 (rd_workspace_id d)); ("run_id", uuid7 (rd_run_id d));
     ("classification", text "pre_dispatch_recoverable");
     ("source_lease_id", uuid7 (rd_source_lease_id d));
     ("source_reservation_id", uuid7 (rd_source_reservation_id d));
     ("source_budget_id", uuid7 (rd_source_budget_id d));
     ("source_idempotency_key", uuid7 (rd_source_idempotency_key d));
     ("source_request_digest", control_value (rd_source_request_digest d));
     ("checkpoint_id", uuid7 (rd_checkpoint_id d));
     ("checkpoint_sequence", safe (rd_checkpoint_sequence d));
     ("checkpoint_digest", content_value (rd_checkpoint_digest d));
     ("source_fence_epoch", safe (rd_source_fence_epoch d));
     ("source_control_revision", safe (rd_source_control_revision d));
     ("intent_digest", control_value (rd_intent_digest d));
     ("replay", nullable replay_binding_value (rd_replay d));
     ("required_budget_disposition", text "none"); ("created_at", utc (rd_created_at d));
     ("directive_digest", control_value (rd_directive_digest d))].

Definition projection_value (p : RunProjection) : option json :=
  strict_object
    [("schema", text (pj_schema p)); ("projection_id", uuid7 (pj_projection_id p));
     ("projection_sequence", safe (pj_projection_sequence p));
     ("projection_revision", safe (pj_projection_revision p));
     ("workspace_id", uuid7 (pj_workspace_id p)); ("run_id", uuid7 (pj_run_id p));
     ("source_run_revision", safe (pj_source_run_revision p));
     ("source_control_revision", safe (pj_source_control_revision p));
     ("checkpoint_id", uuid7 (pj_checkpoint_id p));
     ("checkpoint_sequence", safe (pj_checkpoint_sequence p));
     ("checkpoint_digest", content_value (pj_checkpoint_digest p));
     ("fence_epoch", safe (pj_fence_epoch p));
     ("run_status", text (run_status_wire (pj_run_status p)));
     ("attention", text (AttentionState.wire (pj_attention p)));
     ("required_human_id", opt_uuid7 (pj_required_human_id p));
     ("approval_request_id", opt_uuid7 (pj_approval_request_id p));
     ("recovery_directive_id", opt_uuid7 (pj_recovery_directive_id p));
     ("recovery_directive_digest", nullable control_value (pj_recovery_directive_digest p));
     ("projected_at", utc (pj_projected_at p));
     ("snapshot_digest", control_value (pj_snapshot_digest p))].

Definition proof_reference_value (p : ProofReference) : option json :=
  strict_object
    [("proof_id", uuid7 (pf_proof_id p)); ("actor_id", uuid7 (pf_actor_id p));
     ("operation", text (pf_operation p)); ("proof_digest", content_value (pf_proof_digest p))].

Definition usage_record_value (u : PreparedUsageRecord) : option json :=
  strict_object
    [("schema", text (ur_schema u)); ("boundary_kind", text (boundary_wire (ur_boundary_kind u)));
     ("boundary_calls", safe (ur_boundary_calls u)); ("adapter", text (ur_adapter u));
     ("model", nullable text (ur_model u)); ("steps", safe (ur_steps u));
     ("tokens", safe (ur_tokens u)); ("cost_microusd", safe (ur_cost_microusd u));
     ("tool_dispatches", safe (ur_tool_dispatches u));
     ("input_digest", content_value (ur_input_digest u));
     ("output_digest", content_value (ur_output_digest u))].

Definition runtime_result_value (r : PreparedRuntimeResultBody) : option json :=
  strict_object
    [("schema", text (rr_schema r)); ("usage", usage_record_value (rr_usage r));
     ("output_digest", content_value (rr_output_digest r));
     ("proof", proof_reference_value (rr_proof r)); ("run_revision", safe (rr_run_revision r));
     ("step_revision", safe (rr_step_revision r));
     ("checkpoint_id", opt_uuid7 (rr_checkpoint_id r));
     ("checkpoint_sequence", strict_optional_safe_integer_serialize (rr_checkpoint_sequence r));
     ("checkpoint_digest", nullable content_value (rr_checkpoint_digest r));
     ("first_event_sequence", safe (rr_first_event_sequence r));
     ("last_event_sequence", safe (rr_last_event_sequence r))].

End serializers.

(** ** Validators *)

Definition safe_integer (n : N) : bool := (n <=? MAX_SAFE_INTEGER)%N.

Section validators.
Context `{Externals} `{OperatorExternals}.

Notation uuid7 := uuid_is_v7.

(** [!list.all(..)] and [list.into_iter().flatten().any(|id| !uuid_v7(id))] *)
Definition not_all_v7 (ids : list Uuid) : bool := negb (forallb uuid7 ids).
Definition any_not_v7 (ids : list (option Uuid)) : bool :=
  existsb (λ id, is_some_and id (λ id, negb (uuid7 id))) ids.
Definition any_unsafe (values : list N) : bool :=
  existsb (λ v, (MAX_SAFE_INTEGER <? v)%N) values.

Definition decode_fixed_base64url (n : nat) (value : string) : option string :=
  decoded ← base64url_decode value;
  if bool_decide (String.length decoded = n) then Some decoded else None.

Definition PrincipalBinding_validate (b : PrincipalBinding) : checked :=
  let? public_key := ok_or (decode_fixed_base64url 32 (pn_public_key b))
                       ValidationError.InvalidSchema in
  bail ValidationError.InvalidSchema
    when negb (uuid7 (pn_principal_id b))
         || negb (bool_decide (pn_public_key_fingerprint b
                               = control_digest "Proof-Operator-Public-Key-v1" public_key));
  Ok ().

Definition FINGERPRINT_SCHEMA : string := "proof.operator.workspace-fingerprint-input/v1".

Definition WorkspaceFingerprintInput_validate (f : WorkspaceFingerprintInput) : checked :=
  let descriptors := [fp_proof_directory f; fp_control_lock f; fp_agent_key_file f;
                      fp_human_key_file f] in
  bail ValidationError.InvalidSchema
    when negb (bool_decide (fp_schema f = FINGERPRINT_SCHEMA))
         || not_all_v7 [fp_workspace_id f; fp_agent_id f; fp_human_id f]
         || existsb (λ identity, (MAX_SAFE_INTEGER <? device identity)%N
                                 || (inode identity =? 0)%N
                                 || (MAX_SAFE_INTEGER <? inode identity)%N) descriptors
         || is_none (decode_fixed_base64url 32 (fp_agent_public_key f))
         || is_none (decode_fixed_base64url 32 (fp_human_public_key f));
  Ok ().

Definition WORKSPACE_SCHEMA : string := "proof-operator-workspace/v1".

Definition OperatorWorkspace_validate (w : OperatorWorkspace) : checked :=
  let? _ := WorkspaceFingerprintInput_validate (ow_fingerprint_input w) in
  let? _ := PrincipalBinding_validate (ow_agent w) in
  let? _ := PrincipalBinding_validate (ow_human w) in
  let f := ow_fingerprint_input w in
  bail ValidationError.InvalidSchema
    when negb (bool_decide (ow_schema w = WORKSPACE_SCHEMA))
         || negb (bool_decide (ow_database_name w = "storage.db"))
         || negb (uuid7 (ow_workspace_id w))
         || negb (bool_decide (fp_workspace_id f = ow_workspace_id w))
         || negb (bool_decide (pn_principal_id (ow_agent w) = fp_agent_id f))
         || negb (bool_decide (pn_principal_id (ow_human w) = fp_human_id f))
         || negb (bool_decide (pn_kind (ow_agent w) = Agent))
         || negb (bool_decide (pn_kind (ow_human w) = Human))
         || negb (bool_decide (pn_public_key (ow_agent w) = fp_agent_public_key f))
         || negb (bool_decide (pn_public_key (ow_human w) = fp_human_public_key f))
         || negb (ow_auth_epoch w =? 1)%N
         || negb (ow_policy_revision w =? 1)%N
         || (ow_updated_at w <? ow_created_at w)%Z;
  let? fingerprint := ok_or (control_digest_value "Proof-Operator-Workspace-v1"
                               (fingerprint_value f)) ValidationError.InvalidSchema in
  bail ValidationError.InvalidSchema
    when negb (bool_decide (ow_workspace_fingerprint w = fingerprint));
  let? binding := ok_or (digest_without_field "Proof-Operator-Workspace-Binding-v1"
                           (workspace_value w) "binding_digest")
                    ValidationError.InvalidSchema in
  bail ValidationError.InvalidSchema when negb (bool_decide (ow_binding_digest w = binding));
  Ok ().

Definition ENROLLMENT_SCHEMA : string := "proof-operator-human-enrollment/v1".

Definition HumanEnrollment_validate (e : HumanEnrollment) : checked :=
  let? _ := PrincipalBinding_validate (he_human e) in
  bail ValidationError.InvalidSchema
    when negb (bool_decide (he_schema e = ENROLLMENT_SCHEMA))
         || negb (uuid7 (he_workspace_id e))
         || negb (bool_decide (pn_kind (he_human e) = Human));
  let? digest := ok_or (control_digest_value "Proof-Operator-Capability-Set-v1"
                          (capabilities_value (he_capabilities e)))
                   ValidationError.InvalidSchema in
  bail ValidationError.InvalidSchema
    when negb (bool_decide (he_capability_set_digest e = digest));
  Ok ().

Definition SESSION_AUTHORITY_SCHEMA : string := "proof.operator.session.authority-binding/v1".

Definition SessionAuthorityBinding_validate (s : SessionAuthorityBinding) : checked :=
  bail ValidationError.InvalidSchema
    when negb (bool_decide (sa_schema s = SESSION_AUTHORITY_SCHEMA))
         || not_all_v7 [sa_session_id s; sa_workspace_id s; sa_server_instance_id s;
                        sa_human_id s]
         || (sa_auth_epoch s =? 0)%N || (MAX_SAFE_INTEGER <? sa_auth_epoch s)%N
         || (sa_policy_revision s =? 0)%N || (MAX_SAFE_INTEGER <? sa_policy_revision s)%N
         || bool_decide (sa_origin s = EmptyString)
         || (sa_absolute_expires_at s <=? sa_issued_at s)%Z;
  Ok ().

Definition POLICY_SCHEMA : string := "proof.operator.budget-policy/v1".

Definition BudgetPolicy_validate (p : BudgetPolicy) : checked :=
  bail ValidationError.InvalidSchema
    when negb (bool_decide (bl_schema p = POLICY_SCHEMA))
         || negb (uuid7 (bl_budget_id p)) || negb (uuid7 (bl_workspace_id p))
         || negb (is_safe (bl_limits p));
  let? digest := ok_or (digest_without_field "Proof-Operator-Budget-Limits-v1"
                          (policy_value p) "limits_digest") ValidationError.InvalidSchema in
  bail ValidationError.InvalidSchema when negb (bool_decide (bl_limits_digest p = digest));
  Ok ().

(** Five [checked_add]s, each failing with [BudgetExceeded]. *)
Definition checked_add_amounts (a b : BudgetAmounts)
    : result ValidationError.t BudgetAmounts :=
  let add f := ok_or (checked_add u64_max (f a) (f b)) ValidationError.BudgetExceeded in
  let? s := add steps in
  let? t := add tokens in
  let? d := add duration_ms in
  let? c := add cost_microusd in
  let? n := add tool_dispatches in
  Ok {| steps := s; tokens := t; duration_ms := d; cost_microusd := c;
        tool_dispatches := n |}.

Definition ACCOUNT_SCHEMA : string := "proof-operator-budget-account/v1".

Definition BudgetAccount_validate (a : BudgetAccount) : checked :=
  let? _ := BudgetPolicy_validate (ba_policy a) in
  bail ValidationError.InvalidSchema
    when negb (bool_decide (ba_schema a = ACCOUNT_SCHEMA))
         || (MAX_SAFE_INTEGER <? ba_revision a)%N
         || negb (is_safe (ba_reserved a)) || negb (is_safe (ba_committed a));
  bail ValidationError.InvalidChronology
    when (ba_updated_at a <? ba_created_at a)%Z
         || (bl_deadline_at (ba_policy a) <=? ba_created_at a)%Z;
  let? used := checked_add_amounts (ba_reserved a) (ba_committed a) in
  bail ValidationError.BudgetExceeded
    when negb (fits_within used (bl_limits (ba_policy a)));
  Ok ().

Definition can_reserve (a : BudgetAccount) (requested : BudgetAmounts) (now : DateTime)
    : checked :=
  let? _ := BudgetAccount_validate a in
  bail ValidationError.BudgetExceeded
    when negb (is_safe requested)
         || negb (bool_decide (ba_state a = AccountState.Active))
         || (bl_deadline_at (ba_policy a) <=? now)%Z;
  let? next := checked_add_amounts (ba_reserved a) requested in
  let? combined := checked_add_amounts next (ba_committed a) in
  bail ValidationError.BudgetExceeded
    when negb (fits_within combined (bl_limits (ba_policy a)));
  Ok ().

Definition CONTROL_SCHEMA : string := "proof-operator-run-control/v1".

Definition control_digest_of (c : RunControl) : option ControlDigest :=
  digest_without_field "Proof-Operator-Run-Binding-v1" (control_record_value c)
    "binding_digest".

Definition RunControl_validate (c : RunControl) : checked :=
  bail ValidationError.InvalidSchema when negb (bool_decide (ctl_schema c = CONTROL_SCHEMA));
  bail ValidationError.InvalidRevision
    when negb (uuid7 (ctl_run_id c)) || negb (uuid7 (ctl_workspace_id c))
         || negb (uuid7 (ctl_budget_id c)) || (MAX_SAFE_INTEGER <? ctl_control_revision c)%N;
  bail ValidationError.InvalidBranch
    when negb (eqb (is_some (ctl_recovery_directive_id c))
                   (is_some (ctl_recovery_directive_digest c)));
  bail ValidationError.InvalidChronology
    when any_not_v7 [ctl_active_dispatch_reservation_id c; ctl_recovery_directive_id c;
                     ctl_last_command_id c]
         || (ctl_updated_at c <? ctl_created_at c)%Z;
  let? digest := ok_or (control_digest_of c) ValidationError.InvalidSchema in
  bail ValidationError.InvalidChronology
    when negb (bool_decide (ctl_binding_digest c = digest));
  Ok ().

Definition LEASE_SCHEMA : string := "proof.operator.run-lease/v1".

Definition lease_digest_of (l : RunLease) : option ControlDigest :=
  digest_without_field "Proof-Operator-Lease-v1" (lease_value l) "lease_digest".

Definition is_active (l : RunLease) : bool := bool_decide (ls_state l = LeaseState.Active).

Definition RunLease_validate (l : RunLease) : checked :=
  bail ValidationError.InvalidSchema when negb (bool_decide (ls_schema l = LEASE_SCHEMA));
  bail ValidationError.InvalidRevision
    when (ls_fence_epoch l =? 0)%N || (MAX_SAFE_INTEGER <? ls_fence_epoch l)%N
         || (MAX_SAFE_INTEGER <? ls_revision l)%N
         || not_all_v7 [ls_run_id l; ls_workspace_id l; ls_lease_id l;
                        ls_owner_instance_id l; ls_process_epoch_id l];
  bail ValidationError.InvalidChronology
    when (ls_renewed_at l <? ls_acquired_at l)%Z
         || (ls_expires_at l <=? ls_renewed_at l)%Z
         || negb (eqb (is_active l) (is_none (ls_released_at l)))
         || is_active l
            && negb (ls_expires_at l - ls_renewed_at l =? Duration_seconds 30)%Z
         || is_some_and (ls_released_at l)
              (λ released, (released <? ls_renewed_at l)%Z || (ls_expires_at l <=? released)%Z);
  let? digest := ok_or (lease_digest_of l) ValidationError.InvalidSchema in
  bail ValidationError.InvalidSchema when negb (bool_decide (ls_lease_digest l = digest));
  Ok ().

Definition INTENT_SCHEMA : string := "proof.operator.dispatch-intent/v1".

Definition DispatchIntent_validate (i : DispatchIntent) : checked :=
  bail ValidationError.InvalidSchema
    when negb (bool_decide (in_schema i = INTENT_SCHEMA))
         || negb (valid_operation_name (in_operation i))
         || negb (valid_operation_version (in_version i))
         || negb (valid_adapter_name (in_adapter i))
         || is_some_and (in_model i) (λ model, negb (valid_model_name model));
  bail ValidationError.InvalidBranch
    when negb (is_safe (in_ceiling i))
         || negb (eqb (bool_decide (in_kind i = Provider)) (is_some (in_model i)));
  Ok ().

Definition REPLAY_BINDING_SCHEMA : string := "proof.operator.replay-claim-binding/v1".

Definition recomputed_binding_digest (b : ReplayClaimBinding) : option ControlDigest :=
  digest_without_field "Proof-Operator-Replay-Binding-v1" (replay_binding_value b)
    "binding_digest".

Definition ReplayClaimBinding_validate (b : ReplayClaimBinding) : checked :=
  bail ValidationError.InvalidSchema
    when negb (bool_decide (rb_schema b = REPLAY_BINDING_SCHEMA))
         || negb (bool_decide (rb_policy b = RequiredUuidv7ExactReplay))
         || not_all_v7 [rb_workspace_id b; rb_run_id b; rb_step_id b; rb_checkpoint_id b;
                        rb_idempotency_key b; rb_claimed_by b]
         || (MAX_SAFE_INTEGER <? rb_checkpoint_sequence b)%N
         || negb (valid_operation_name (rb_operation b))
         || negb (valid_operation_version (rb_version b));
  let? digest := ok_or (recomputed_binding_digest b) ValidationError.InvalidSchema in
  bail ValidationError.InvalidSchema when negb (bool_decide (digest = rb_binding_digest b));
  Ok ().

Definition PERMIT_SCHEMA : string := "proof.operator.dispatch-permit/v1".

Definition DispatchPermit_validate (p : DispatchPermit) : checked :=
  bail ValidationError.InvalidRevision
    when negb (bool_decide (dp_schema p = PERMIT_SCHEMA))
         || not_all_v7 [dp_permit_id p; dp_run_id p; dp_reservation_id p; dp_lease_id p;
                        dp_process_epoch_id p]
         || (dp_fence_epoch p =? 0)%N || (MAX_SAFE_INTEGER <? dp_fence_epoch p)%N
         || (MAX_SAFE_INTEGER <? dp_expected_control_revision p)%N;
  bail ValidationError.InvalidChronology
    when (dp_budget_deadline_at p <=? dp_authorized_at p)%Z;
  Ok ().

Definition DIRECTIVE_SCHEMA : string := "proof.operator.recovery-directive/v1".

Definition directive_digest_of (d : RecoveryDirective) : option ControlDigest :=
  digest_without_field "Proof-Operator-Recovery-Directive-v1" (directive_value d)
    "directive_digest".

Definition RecoveryDirective_validate (d : RecoveryDirective) : checked :=
  bail ValidationError.InvalidBranch
    when negb (bool_decide (rd_schema d = DIRECTIVE_SCHEMA))
         || negb (bool_decide (rd_classification d = PreDispatchRecoverable))
         || negb (bool_decide (rd_required_budget_disposition d = NoDisposition))
         || not_all_v7 [rd_directive_id d; rd_workspace_id d; rd_run_id d;
                        rd_source_lease_id d; rd_source_reservation_id d;
                        rd_source_budget_id d; rd_source_idempotency_key d;
                        rd_checkpoint_id d]
         || (MAX_SAFE_INTEGER <? rd_checkpoint_sequence d)%N
         || (rd_source_fence_epoch d =? 0)%N
         || (MAX_SAFE_INTEGER <? rd_source_fence_epoch d)%N
         || (MAX_SAFE_INTEGER <? rd_source_control_revision d)%N
         || is_some_and (rd_replay d) (λ binding,
              is_err (ReplayClaimBinding_validate binding)
              || negb (bool_decide (rb_workspace_id binding = rd_workspace_id d))
              || negb (bool_decide (rb_run_id binding = rd_run_id d))
              || negb (bool_decide (rb_checkpoint_id binding = rd_checkpoint_id d))
              || negb (bool_decide (rb_checkpoint_sequence binding = rd_checkpoint_sequence d))
              || negb (bool_decide (rb_checkpoint_digest binding = rd_checkpoint_digest d)));
  let? digest := ok_or (directive_digest_of d) ValidationError.InvalidSchema in
  bail ValidationError.InvalidSchema when negb (bool_decide (rd_directive_digest d = digest));
  Ok ().

Definition PROJECTION_SCHEMA : string := "proof-operator-run-projection/v1".

Definition snapshot_digest_of (p : RunProjection) : option ControlDigest :=
  digest_without_field "Proof-Operator-Run-Projection-v1" (projection_value p)
    "snapshot_digest".

Definition projection_branch (p : RunProjection) : bool :=
  let human := is_some (pj_required_human_id p) in
  let approval_id := is_some (pj_approval_request_id p) in
  let directive_id := is_some (pj_recovery_directive_id p) in
  let directive_digest := is_some (pj_recovery_directive_digest p) in
  let approval := human && approval_id && negb directive_id && negb directive_digest in
  let recovery := negb human && negb approval_id && directive_id && directive_digest in
  let clear := negb human && negb approval_id && negb directive_id && negb directive_digest in
  match pj_attention p with
  | AttentionState.AwaitingDecision =>
      bool_decide (pj_run_status p = RunStatus.WaitingForInput) && approval
  | AttentionState.Recoverable => bool_decide (pj_run_status p = RunStatus.Failed) && recovery
  | AttentionState.Running =>
      match pj_run_status p with
      | RunStatus.Queued | RunStatus.Running => true | _ => false
      end && clear
  | AttentionState.Terminal =>
      match pj_run_status p with
      | RunStatus.Cancelled | RunStatus.Failed | RunStatus.Succeeded => true | _ => false
      end && clear
  end.

Definition RunProjection_validate (p : RunProjection) : checked :=
  bail ValidationError.InvalidRevision
    when negb (bool_decide (pj_schema p = PROJECTION_SCHEMA))
         || (pj_projection_sequence p =? 0)%N
         || any_unsafe [pj_projection_sequence p; pj_projection_revision p;
                        pj_source_run_revision p; pj_source_control_revision p;
                        pj_checkpoint_sequence p; pj_fence_epoch p]
         || not_all_v7 [pj_projection_id p; pj_workspace_id p; pj_run_id p;
                        pj_checkpoint_id p]
         || any_not_v7 [pj_required_human_id p; pj_approval_request_id p;
                        pj_recovery_directive_id p];
  bail ValidationError.InvalidBranch when negb (projection_branch p);
  let? digest := ok_or (snapshot_digest_of p) ValidationError.InvalidSchema in
  bail ValidationError.InvalidSchema when negb (bool_decide (pj_snapshot_digest p = digest));
  Ok ().

(** ** Prepared results and reservations *)

Definition ProofReference_validate (p : ProofReference) : checked :=
  bail ValidationError.InvalidSchema
    when negb (uuid7 (pf_proof_id p)) || negb (uuid7 (pf_actor_id p))
         || negb (valid_operation_name (pf_operation p));
  Ok ().

Definition USAGE_SCHEMA : string := "proof.operator.prepared-usage-body/v1".

Definition PreparedUsageRecord_validate (u : PreparedUsageRecord) : result StoreError.t () :=
  let provider := bool_decide (ur_boundary_kind u = Provider) in
  bail StoreError.Invalid
    when negb (bool_decide (ur_schema u = USAGE_SCHEMA))
         || negb (ur_boundary_calls u =? 1)%N
         || negb (ur_steps u =? 1)%N
         || negb (valid_adapter_name (ur_adapter u))
         || is_some_and (ur_model u) (λ value, negb (valid_model_name value))
         || negb (eqb provider (is_some (ur_model u)))
         || provider && negb (ur_tool_dispatches u =? 0)%N
         || bool_decide (ur_boundary_kind u = Tool)
            && (negb (ur_tokens u =? 0)%N || negb (ur_cost_microusd u =? 0)%N
                || negb (ur_tool_dispatches u =? 1)%N)
         || any_unsafe [ur_tokens u; ur_cost_microusd u; ur_tool_dispatches u];
  Ok ().

Definition RESULT_SCHEMA : string := "proof.operator.prepared-runtime-result-body/v1".

Definition PreparedRuntimeResultBody_validate (r : PreparedRuntimeResultBody)
    : result StoreError.t () :=
  let all_none := is_none (rr_checkpoint_id r) && is_none (rr_checkpoint_sequence r)
                  && is_none (rr_checkpoint_digest r) in
  let all_some := is_some (rr_checkpoint_id r) && is_some (rr_checkpoint_sequence r)
                  && is_some (rr_checkpoint_digest r) in
  bail StoreError.Invalid
    when negb (bool_decide (rr_schema r = RESULT_SCHEMA))
         || is_err (PreparedUsageRecord_validate (rr_usage r))
         || negb (all_none || all_some)
         || any_not_v7 [rr_checkpoint_id r]
         || any_unsafe [rr_run_revision r; rr_step_revision r;
                        default 0%N (rr_checkpoint_sequence r);
                        rr_first_event_sequence r; rr_last_event_sequence r]
         || (rr_last_event_sequence r <? rr_first_event_sequence r)%N
         || negb (bool_decide (rr_output_digest r = ur_output_digest (rr_usage r)))
         || is_err (ProofReference_validate (rr_proof r));
  Ok ().

Definition EXECUTION_BINDING_SCHEMA : string := "proof.operator.prepared-execution-binding/v1".

Definition result_digest_of (r : PreparedRuntimeResultBody) : option ControlDigest :=
  control_digest_value "Proof-Operator-Runtime-Result-v1" (runtime_result_value r).

Definition PreparedExecutionBinding_validate (x : PreparedExecutionBinding)
    : result ExecutionError.t () :=
  bail ExecutionError.EvidenceFailed "prepared execution binding is invalid"
    when negb (bool_decide (xb_schema x = EXECUTION_BINDING_SCHEMA))
         || negb (uuid7 (xb_execution_context_id x))
         || negb (bool_decide (xb_handler_mutation x = NoEffect))
         || is_err (PreparedRuntimeResultBody_validate (xb_result x));
  let? expected := ok_or (result_digest_of (xb_result x))
                     (ExecutionError.EvidenceFailed unwritable_error) in
  bail ExecutionError.EvidenceFailed "prepared runtime result digest is invalid"
    when negb (bool_decide (expected = xb_result_digest x));
  Ok ().

Definition COMMIT_SCHEMA : string := "proof.operator.runtime-commit/v1".

Definition RuntimeCommit_validate (c : RuntimeCommit) : checked :=
  bail ValidationError.InvalidBranch
    when negb (bool_decide (rtc_schema c = COMMIT_SCHEMA))
         || is_err (DispatchPermit_validate (rtc_permit c))
         || (MAX_SAFE_INTEGER <? rtc_expected_run_revision c)%N
         || (MAX_SAFE_INTEGER <? rtc_expected_step_revision c)%N
         || negb (uuid7 (rtc_expected_checkpoint_id c))
         || (MAX_SAFE_INTEGER <? rtc_expected_checkpoint_sequence c)%N
         || negb (is_safe (rtc_actual_charge c))
         || (rtc_committed_at c <? dp_authorized_at (rtc_permit c))%Z;
  Ok ().

Definition RESERVATION_SCHEMA : string := "proof-operator-budget-reservation/v1".

Definition intent_digest_of (i : DispatchIntent) : option ControlDigest :=
  control_digest_value "Proof-Operator-Dispatch-Intent-v1" (intent_value i).

Definition pre_dispatch_empty (r : BudgetReservation) : bool :=
  is_none (br_permit_id r) && is_none (br_dispatch_token_digest r)
  && is_none (br_call_digest r) && is_none (br_prepared_execution_digest r)
  && is_none (br_result_digest r) && is_none (br_prepared_binding r)
  && is_none (br_runtime_commit r) && is_none (br_dispatch_started_at r).

Definition dispatch_identity (r : BudgetReservation) : bool :=
  is_some (br_permit_id r) && is_some (br_dispatch_token_digest r)
  && is_some (br_call_digest r) && is_some (br_dispatch_started_at r).

Definition uncommitted (r : BudgetReservation) : bool :=
  is_none (br_prepared_execution_digest r) && is_none (br_result_digest r)
  && is_none (br_prepared_binding r) && is_none (br_runtime_commit r).

Definition branch_valid (r : BudgetReservation) : bool :=
  match br_state r with
  | ReservationState.Reserved =>
      bool_decide (br_charged r = BudgetAmounts_default) && pre_dispatch_empty r
      && is_none (br_settled_at r)
  | ReservationState.Released =>
      bool_decide (br_charged r = BudgetAmounts_default) && pre_dispatch_empty r
      && is_some (br_settled_at r)
  | ReservationState.Dispatching =>
      bool_decide (br_charged r = BudgetAmounts_default) && dispatch_identity r
      && uncommitted r && is_none (br_settled_at r)
  | ReservationState.Forfeited =>
      bool_decide (br_charged r = br_reserved r) && dispatch_identity r
      && uncommitted r && is_some (br_settled_at r)
  | ReservationState.Committed =>
      dispatch_identity r && is_some (br_prepared_execution_digest r)
      && is_some (br_result_digest r) && is_some (br_prepared_binding r)
      && is_some (br_runtime_commit r) && is_some (br_settled_at r)
  end.

Definition BudgetReservation_validate (r : BudgetReservation) : checked :=
  let? _ := DispatchIntent_validate (br_intent r) in
  bail ValidationError.InvalidBranch
    when negb (bool_decide (br_schema r = RESERVATION_SCHEMA))
         || not_all_v7 [br_reservation_id r; br_budget_id r; br_run_id r; br_lease_id r;
                        br_idempotency_key r]
         || (br_fence_epoch r =? 0)%N || (MAX_SAFE_INTEGER <? br_fence_epoch r)%N
         || negb (bool_decide (br_kind r = in_kind (br_intent r)))
         || bool_decide (br_kind r = Provider) && is_some (br_replay r)
         || negb (is_safe (br_reserved r))
         || negb (bool_decide (br_reserved r = in_ceiling (br_intent r)))
         || negb (is_safe (br_charged r))
         || negb (fits_within (br_charged r) (br_reserved r))
         || any_not_v7 [br_permit_id r]
         || is_some_and (br_replay r) (λ value, is_err (ReplayClaimBinding_validate value))
         || is_some_and (br_recovery r) (λ value, is_err (RecoveryDirective_validate value));
  let? expected_intent_digest := ok_or (intent_digest_of (br_intent r))
                                   ValidationError.InvalidSchema in
  bail ValidationError.InvalidSchema
    when negb (bool_decide (br_intent_digest r = expected_intent_digest))
         || is_some_and (br_recovery r) (λ recovery,
              negb (bool_decide (rd_run_id recovery = br_run_id r))
              || negb (bool_decide (rd_intent_digest recovery = br_intent_digest r))
              || negb (bool_decide (rd_replay recovery = br_replay r)));
  bail ValidationError.InvalidBranch
    when negb (branch_valid r)
         || is_some_and (br_dispatch_started_at r) (λ at_, (at_ <? br_created_at r)%Z)
         || is_some_and (br_settled_at r) (λ at_,
              (at_ <? br_created_at r)%Z
              || is_some_and (br_dispatch_started_at r) (λ start, (at_ <? start)%Z));
  match br_runtime_commit r with
  | None => Ok ()
  | Some commit =>
      let permit := rtc_permit commit in
      let? _ := RuntimeCommit_validate commit in
      let? prepared := ok_or (br_prepared_binding r) ValidationError.InvalidBranch in
      let? _ := map_err (λ _, ValidationError.InvalidBranch)
                  (PreparedExecutionBinding_validate prepared) in
      let? permit_id := expect (br_permit_id r) in
      bail ValidationError.InvalidBranch
        when negb (bool_decide (dp_permit_id permit = permit_id))
             || negb (bool_decide (dp_reservation_id permit = br_reservation_id r))
             || negb (bool_decide (dp_run_id permit = br_run_id r))
             || negb (bool_decide (dp_lease_id permit = br_lease_id r))
             || negb (bool_decide (dp_fence_epoch permit = br_fence_epoch r))
             || negb (bool_decide (dp_intent_digest permit = br_intent_digest r));
      let? call_digest := expect (br_call_digest r) in
      bail ValidationError.InvalidBranch
        when negb (bool_decide (dp_call_digest permit = call_digest))
             || negb (bool_decide (rtc_actual_charge commit = br_charged r))
             || negb (bool_decide (Some (rtc_prepared_execution_digest commit)
                                   = br_prepared_execution_digest r))
             || negb (bool_decide (Some (rtc_result_digest commit) = br_result_digest r))
             || negb (bool_decide (rtc_prepared_execution_digest commit
                                   = xb_payload_digest prepared))
             || negb (bool_decide (rtc_result_digest commit = xb_result_digest prepared));
      Ok ()
  end.

End validators.

(** ** Budgets: what can be reserved *)

(** Unbounded sums, to state what the checked ones compute. *)
Definition plus_amounts (a b : BudgetAmounts) : BudgetAmounts :=
  {| steps := steps a + steps b; tokens := tokens a + tokens b;
     duration_ms := duration_ms a + duration_ms b;
     cost_microusd := cost_microusd a + cost_microusd b;
     tool_dispatches := tool_dispatches a + tool_dispatches b |}%N.

Lemma amounts_eq (a b : BudgetAmounts) :
  steps a = steps b → tokens a = tokens b → duration_ms a = duration_ms b →
  cost_microusd a = cost_microusd b → tool_dispatches a = tool_dispatches b → a = b.
Proof. destruct a, b; cbn; congruence. Qed.

Lemma checked_add_amounts_Ok a b c :
  checked_add_amounts a b = Ok c ↔ c = plus_amounts a b ∧
    (steps c ≤ u64_max ∧ tokens c ≤ u64_max ∧ duration_ms c ≤ u64_max
     ∧ cost_microusd c ≤ u64_max ∧ tool_dispatches c ≤ u64_max)%N.
Proof.
  unfold checked_add_amounts. split.
  - intros E. res_inv.
    repeat match goal with
           | E : checked_add _ _ _ = Some _ |- _ => apply checked_add_Some in E as [-> ?]
           end.
    by split_and!.
  - intros (-> & ? & ? & ? & ? & ?). cbn [plus_amounts steps tokens duration_ms
      cost_microusd tool_dispatches] in *.
    unfold checked_add. by rewrite !bool_decide_true by done.
Qed.

Lemma is_safe_le a :
  is_safe a = true ↔
  (steps a ≤ MAX_SAFE_INTEGER ∧ tokens a ≤ MAX_SAFE_INTEGER
   ∧ duration_ms a ≤ MAX_SAFE_INTEGER ∧ cost_microusd a ≤ MAX_SAFE_INTEGER
   ∧ tool_dispatches a ≤ MAX_SAFE_INTEGER)%N.
Proof. unfold is_safe. cbn [forallb]. rewrite !andb_true_iff, !N.leb_le. tauto. Qed.

Lemma fits_within_le a b :
  fits_within a b = true ↔
  (steps a ≤ steps b ∧ tokens a ≤ tokens b ∧ duration_ms a ≤ duration_ms b
   ∧ cost_microusd a ≤ cost_microusd b ∧ tool_dispatches a ≤ tool_dispatches b)%N.
Proof. unfold fits_within. rewrite !andb_true_iff, !N.leb_le. tauto. Qed.

Lemma fits_within_refl a : fits_within a a = true.
Proof. apply fits_within_le. by split_and!. Qed.

Lemma fits_within_trans a b c :
  fits_within a b = true → fits_within b c = true → fits_within a c = true.
Proof. rewrite !fits_within_le. lia. Qed.

Lemma is_safe_fits a b : fits_within a b = true → is_safe b = true → is_safe a = true.
Proof. rewrite fits_within_le, !is_safe_le. lia. Qed.

(** A sum of safe amounts does not overflow; three of them neither. *)
Lemma checked_add_amounts_safe k a b :
  is_safe a = true → is_safe b = true →
  checked_add_amounts a b = Ok (plus_amounts a b)
  ∧ (is_safe k = true →
     checked_add_amounts (plus_amounts a b) k = Ok (plus_amounts (plus_amounts a b) k)).
Proof.
  rewrite !is_safe_le. intros Ha Hb. unfold MAX_SAFE_INTEGER in *. split; [|intros Hk];
    apply checked_add_amounts_Ok; (split; [done|]); unfold u64_max;
    cbn [plus_amounts steps tokens duration_ms cost_microusd tool_dispatches]; lia.
Qed.

Section budget_theorems.
Context `{Externals} `{OperatorExternals}.

Lemma BudgetPolicy_validate_safe p :
  BudgetPolicy_validate p = Ok () → is_safe (bl_limits p) = true.
Proof. unfold BudgetPolicy_validate. intros E. by res_inv. Qed.

Lemma BudgetAccount_validate_inv a :
  BudgetAccount_validate a = Ok () →
  is_safe (bl_limits (ba_policy a)) = true ∧ is_safe (ba_reserved a) = true
  ∧ is_safe (ba_committed a) = true
  ∧ fits_within (plus_amounts (ba_reserved a) (ba_committed a)) (bl_limits (ba_policy a)) = true.
Proof.
  unfold BudgetAccount_validate. intros E. res_inv.
  match goal with E : checked_add_amounts _ _ = _ |- _ =>
    apply checked_add_amounts_Ok in E as [-> _] end.
  split_and!; try done. eapply BudgetPolicy_validate_safe.
  match goal with E : BudgetPolicy_validate _ = Ok ?u |- _ => by destruct u end.
Qed.

(** C33: [can_reserve] on a valid account accepts exactly the safe requests made before
    the deadline of an active account for which reserved, committed and requested
    amounts together stay within every limit.  The sums in the condition are
    unbounded: none of the ten checked additions on 64-bit integers overflows. *)
Theorem can_reserve_exact (a : BudgetAccount) (requested : BudgetAmounts) (now : DateTime)
    (Ha : BudgetAccount_validate a = Ok ()) :
  can_reserve a requested now =
  if is_safe requested && bool_decide (ba_state a = AccountState.Active)
     && (now <? bl_deadline_at (ba_policy a))%Z
     && fits_within (plus_amounts (plus_amounts (ba_reserved a) requested) (ba_committed a))
          (bl_limits (ba_policy a))
  then Ok () else Err ValidationError.BudgetExceeded.
Proof.
  pose proof (BudgetAccount_validate_inv _ Ha) as (_ & Hr & Hc & _).
  unfold can_reserve. rewrite Ha. cbn [rbind].
  rewrite (Z.ltb_antisym _ now).
  destruct (is_safe requested) eqn:Hs; [|done].
  destruct (bool_decide (ba_state a = AccountState.Active)); [|done].
  destruct (bl_deadline_at (ba_policy a) <=? now)%Z; [done|]. cbn [negb orb andb].
  destruct (checked_add_amounts_safe (ba_committed a) (ba_reserved a) requested) as [-> E];
    [done..|].
  cbn [rbind]. rewrite E by done. cbn [rbind]. by destruct (fits_within _ _).
Qed.

End budget_theorems.

(** ** Reservations: what each state carries *)

(** The fields of a dispatch, present together. *)
Definition dispatched (r : BudgetReservation) (permit_id : Uuid) (token call : ControlDigest)
    (started : DateTime) : Prop :=
  br_permit_id r = Some permit_id ∧ br_dispatch_token_digest r = Some token
  ∧ br_call_digest r = Some call ∧ br_dispatch_started_at r = Some started
  ∧ (br_created_at r ≤ started)%Z.

Definition undispatched (r : BudgetReservation) : Prop :=
  br_permit_id r = None ∧ br_dispatch_token_digest r = None ∧ br_call_digest r = None
  ∧ br_dispatch_started_at r = None.

Definition no_result (r : BudgetReservation) : Prop :=
  br_prepared_execution_digest r = None ∧ br_result_digest r = None
  ∧ br_prepared_binding r = None ∧ br_runtime_commit r = None.

Definition reservation_shape `{Externals} `{OperatorExternals} (r : BudgetReservation) : Prop :=
  match br_state r with
  | ReservationState.Reserved =>
      undispatched r ∧ no_result r ∧ br_settled_at r = None
      ∧ br_charged r = BudgetAmounts_default
  | ReservationState.Released =>
      undispatched r ∧ no_result r ∧ br_charged r = BudgetAmounts_default
      ∧ ∃ settled, br_settled_at r = Some settled ∧ (br_created_at r ≤ settled)%Z
  | ReservationState.Dispatching =>
      no_result r ∧ br_settled_at r = None ∧ br_charged r = BudgetAmounts_default
      ∧ ∃ permit_id token call started, dispatched r permit_id token call started
  | ReservationState.Forfeited =>
      no_result r ∧ br_charged r = br_reserved r
      ∧ ∃ permit_id token call started settled,
          dispatched r permit_id token call started
          ∧ br_settled_at r = Some settled ∧ (started ≤ settled)%Z
  | ReservationState.Committed =>
      ∃ permit_id token call started settled commit prepared,
        dispatched r permit_id token call started
        ∧ br_settled_at r = Some settled ∧ (started ≤ settled)%Z
        ∧ br_runtime_commit r = Some commit ∧ br_prepared_binding r = Some prepared
        ∧ dp_permit_id (rtc_permit commit) = permit_id
        ∧ dp_call_digest (rtc_permit commit) = call
        ∧ dp_fence_epoch (rtc_permit commit) = br_fence_epoch r
        ∧ dp_reservation_id (rtc_permit commit) = br_reservation_id r
        ∧ dp_run_id (rtc_permit commit) = br_run_id r
        ∧ dp_lease_id (rtc_permit commit) = br_lease_id r
        ∧ dp_intent_digest (rtc_permit commit) = br_intent_digest r
        ∧ rtc_actual_charge commit = br_charged r
        ∧ br_prepared_execution_digest r = Some (rtc_prepared_execution_digest commit)
        ∧ br_result_digest r = Some (rtc_result_digest commit)
        ∧ rtc_prepared_execution_digest commit = xb_payload_digest prepared
        ∧ rtc_result_digest commit = xb_result_digest prepared
        ∧ RuntimeCommit_validate commit = Ok ()
        ∧ PreparedExecutionBinding_validate prepared = Ok ()
  end.

Section reservation_theorems.
Context `{Externals} `{OperatorExternals}.

Lemma branch_valid_inv r :
  branch_valid r = true →
  match br_state r with
  | ReservationState.Reserved | ReservationState.Released =>
      br_charged r = BudgetAmounts_default ∧ undispatched r ∧ no_result r
      ∧ (br_settled_at r = None ↔ br_state r = ReservationState.Reserved)
  | ReservationState.Dispatching =>
      br_charged r = BudgetAmounts_default ∧ dispatch_identity r = true ∧ no_result r
      ∧ br_settled_at r = None
  | ReservationState.Forfeited =>
      br_charged r = br_reserved r ∧ dispatch_identity r = true ∧ no_result r
      ∧ is_some (br_settled_at r) = true
  | ReservationState.Committed =>
      dispatch_identity r = true ∧ is_some (br_prepared_binding r) = true
      ∧ is_some (br_runtime_commit r) = true ∧ is_some (br_settled_at r) = true
  end.
Proof.
  unfold branch_valid, pre_dispatch_empty, uncommitted, undispatched, no_result.
  destruct (br_state r); intros E; res_inv;
    repeat match goal with P : is_none _ = true |- _ => apply is_none_true in P end;
    split_and!; try done.
  match goal with P : is_some _ = true |- _ => apply is_some_true in P as [? ->]; done end.
Qed.

Lemma dispatch_identity_inv r :
  dispatch_identity r = true →
  is_some_and (br_dispatch_started_at r) (λ at_, (at_ <? br_created_at r)%Z) = false →
  ∃ permit_id token call started, dispatched r permit_id token call started.
Proof.
  unfold dispatch_identity, dispatched. intros E ?. res_inv. presence. eauto 10.
Qed.

(** What the last guards of the validator check, in order. *)
Lemma BudgetReservation_validate_inv r :
  BudgetReservation_validate r = Ok () →
  DispatchIntent_validate (br_intent r) = Ok ()
  ∧ br_reserved r = in_ceiling (br_intent r) ∧ is_safe (br_reserved r) = true
  ∧ is_safe (br_charged r) = true ∧ fits_within (br_charged r) (br_reserved r) = true
  ∧ br_kind r = in_kind (br_intent r)
  ∧ intent_digest_of (br_intent r) = Some (br_intent_digest r)
  ∧ (br_fence_epoch r ≠ 0)%N.
Proof.
  unfold BudgetReservation_validate. intros E.
  repeat (res_step; cbv beta zeta in *).
  match goal with E : DispatchIntent_validate _ = Ok ?u |- _ => destruct u end.
  split_and!; try done; [congruence|].
  match goal with P : (br_fence_epoch r =? 0)%N = false |- _ => by apply N.eqb_neq in P end.
Qed.

Lemma validators_no_panic :
  (∀ i, DispatchIntent_validate i ≠ Panic) ∧ (∀ c, RuntimeCommit_validate c ≠ Panic)
  ∧ (∀ x, PreparedExecutionBinding_validate x ≠ Panic).
Proof.
  unfold DispatchIntent_validate, RuntimeCommit_validate, PreparedExecutionBinding_validate.
  split_and!; intros; eauto 8 with rust.
Qed.

(** C39: [BudgetReservation::validate] never panics: its two [expect]s are reached in
    the committed state only, where the permit and the call digest are present.  A
    reservation it accepts has exactly the fields of its state: nothing of a dispatch
    before the dispatch, the whole identity of the dispatch from then on, the full
    ceiling charged when it is forfeited, and when it is committed a valid runtime commit
    and a valid prepared binding, where the charge, the permit with its run, lease, fence
    epoch and call, and the two digests of the reservation are those of the commit, and
    the digests those of the binding; in chronological order. *)
Theorem BudgetReservation_states (r : BudgetReservation) :
  BudgetReservation_validate r ≠ Panic
  ∧ (BudgetReservation_validate r = Ok () → reservation_shape r).
Proof.
  destruct validators_no_panic as (Pi & Pc & Px). split.
  - unfold BudgetReservation_validate.
    apply rbind_not_Panic; [done|intros _ _]. apply bail_not_Panic.
    apply rbind_not_Panic; [apply ok_or_not_Panic|intros d _]. apply bail_not_Panic.
    destruct (branch_valid r) eqn:B; [|done]. cbn [negb orb]. apply bail_not_Panic.
    destruct (br_runtime_commit r) as [commit|] eqn:C; [|done].
    apply rbind_not_Panic; [done|intros _ _].
    apply rbind_not_Panic; [apply ok_or_not_Panic|intros x _].
    apply rbind_not_Panic; [by apply map_err_not_Panic|intros _ _].
    apply branch_valid_inv in B. unfold no_result in B.
    assert (dispatch_identity r = true) as D by (destruct (br_state r); intuition congruence).
    unfold dispatch_identity in D. res_inv. presence.
    repeat match goal with P : _ = Some _ |- _ => rewrite P end. cbn [rbind expect].
    by repeat apply bail_not_Panic.
  - unfold BudgetReservation_validate. intros E.
    apply rbind_Ok in E as (? & _ & E). apply bail_Ok in E as [_ E].
    apply rbind_Ok in E as (? & _ & E). apply bail_Ok in E as [_ E].
    apply bail_Ok in E as [B E]. res_inv.
    match goal with B : branch_valid r = true |- _ => apply branch_valid_inv in B as V end.
    unfold reservation_shape.
    destruct (br_state r).
    + destruct V as (D & X & C & S). apply dispatch_identity_inv in D as (pid & tok & call & st & D);
        [|done]. pose proof D as (? & ? & ? & ? & ?).
      presence. match goal with C : br_runtime_commit r = Some _ |- _ => rewrite C in E end.
      res_inv. presence. eexists _, _, _, _, _, _, _. split; [done|]. split_and!; try done.
      all: congruence.
    + destruct V as (Z & D & N & S). split_and!; try done. by apply dispatch_identity_inv.
    + destruct V as (Z & D & N & S). split_and!; [done..|].
      apply dispatch_identity_inv in D as (pid & tok & call & st & D); [|done].
      pose proof D as (? & ? & ? & ? & ?). presence. eexists _, _, _, _, _. by split_and!.
    + destruct V as (Z & D & N & S). split_and!; [done..|].
      destruct (br_settled_at r) as [settled|] eqn:St; [|by destruct S as [S _]; specialize (S eq_refl)].
      cbn [is_some_and] in *. res_inv. presence. eexists. by split.
    + destruct V as (Z & D & N & S). split_and!; try done. by apply S.
Qed.

End reservation_theorems.
