(* ===== verification/AuditChain.v ===== *)
(** * The audit chain

    The audit events of [operator/durable.rs]: every control transition appends one,
    with the number of the event, the digest of its predecessor and its own digest.
    [validate_chain_link] checks one link: the position in the chain, the identifiers,
    and that the fields present are exactly the ones its kind of transition has.  A
    set of present fields is a 25-bit mask.

    [profile_mask_exact] says what the mask is, and [audit_chain_binds] that the chain is
    tamper-evident: the last digest determines every event before it. *)

From S2P Require Import Prelude RustStr Externals Json Canonical Serialized Evidence.
From S2P Require Import OperatorCommon StrictDigest Durable.
From stdpp Require Import options.

Module CommandKind.
Inductive t : Type :=
| ApprovalDecide | RunCancel | RunResume | SessionRevoke.

#[global] Instance t_eq_dec : EqDecision t.
Proof. solve_decision. Defined.

Definition wire (k : t) : string :=
  match k with
  | ApprovalDecide => "approval_decide" | RunCancel => "run_cancel"
  | RunResume => "run_resume" | SessionRevoke => "session_revoke"
  end.
End CommandKind.

Module AuditEventKind.
Inductive t : Type :=
| ApprovalDecided | ApprovalExpired | BudgetCommitted | BudgetForfeited
| BudgetRejected | BudgetReleased | BudgetReserved | CommandConflict | CommandRejected
| ControlFailure | ControlShutdown | DispatchAuthorized | LeaseAcquired
| LeaseReclaimed | LeaseReleased | LeaseRenewed | RecoveryCompleted | RecoveryStarted
| RunCancelled | RunResumed | RuntimeResultCommitted | SessionChallengeIssued
| SessionExpired | SessionIssued | SessionReplaced | SessionRevoked
| StaleFenceRejected.

#[global] Instance t_eq_dec : EqDecision t.
Proof. solve_decision. Defined.

Definition wire (k : t) : string :=
  match k with
  | ApprovalDecided => "approval_decided" | ApprovalExpired => "approval_expired"
  | BudgetCommitted => "budget_committed" | BudgetForfeited => "budget_forfeited"
  | BudgetRejected => "budget_rejected" | BudgetReleased => "budget_released"
  | BudgetReserved => "budget_reserved" | CommandConflict => "command_conflict"
  | CommandRejected => "command_rejected" | ControlFailure => "control_failure"
  | ControlShutdown => "control_shutdown" | DispatchAuthorized => "dispatch_authorized"
  | LeaseAcquired => "lease_acquired" | LeaseReclaimed => "lease_reclaimed"
  | LeaseReleased => "lease_released" | LeaseRenewed => "lease_renewed"
  | RecoveryCompleted => "recovery_completed" | RecoveryStarted => "recovery_started"
  | RunCancelled => "run_cancelled" | RunResumed => "run_resumed"
  | RuntimeResultCommitted => "runtime_result_committed"
  | SessionChallengeIssued => "session_challenge_issued"
  | SessionExpired => "session_expired" | SessionIssued => "session_issued"
  | SessionReplaced => "session_replaced" | SessionRevoked => "session_revoked"
  | StaleFenceRejected => "stale_fence_rejected"
  end.
End AuditEventKind.

Module AuditOutcome.
Inductive t : Type :=
| Accepted | Conflict | Expired | Failed | Rejected.

#[global] Instance t_eq_dec : EqDecision t.
Proof. solve_decision. Defined.

Definition wire (k : t) : string :=
  match k with
  | Accepted => "accepted" | Conflict => "conflict" | Expired => "expired"
  | Failed => "failed" | Rejected => "rejected"
  end.
End AuditOutcome.

Module AuditFailureScope.
Inductive t : Type :=
| Command | Runtime | Storage | Workspace.

#[global] Instance t_eq_dec : EqDecision t.
Proof. solve_decision. Defined.

Definition wire (k : t) : string :=
  match k with
  | Command => "command" | Runtime => "runtime" | Storage => "storage"
  | Workspace => "workspace"
  end.
End AuditFailureScope.

Record AuditEvent := {
  ae_schema : string;
  ae_workspace_id : Uuid;
  ae_event_id : Uuid;
  ae_sequence : N;
  ae_kind : AuditEventKind.t;
  ae_outcome : AuditOutcome.t;
  ae_previous_digest : option ControlDigest;
  ae_event_digest : ControlDigest;
  ae_human_id : option Uuid;
  ae_session_id : option Uuid;
  ae_challenge_id : option Uuid;
  ae_challenge_digest : option ControlDigest;
  ae_session_authority_digest : option ControlDigest;
  ae_related_session_id : option Uuid;
  ae_server_instance_id : option Uuid;
  ae_run_id : option Uuid;
  ae_approval_request_id : option Uuid;
  ae_command_id : option Uuid;
  ae_command_kind : option CommandKind.t;
  ae_budget_id : option Uuid;
  ae_reservation_id : option Uuid;
  ae_lease_id : option Uuid;
  ae_source_lease_id : option Uuid;
  ae_process_epoch_id : option Uuid;
  ae_permit_id : option Uuid;
  ae_recovery_directive_id : option Uuid;
  ae_fence_epoch : option N;
  ae_auth_epoch : option N;
  ae_policy_revision : option N;
  ae_intent_digest : option ControlDigest;
  ae_call_digest : option ControlDigest;
  ae_decision_digest : option ContentDigest;
  ae_recovery_directive_digest : option ControlDigest;
  ae_failure_scope : option AuditFailureScope.t;
  ae_proof : option ProofReference;
  ae_occurred_at : DateTime;
}.

Section value.
Context `{Externals}.

Notation uuid7 := strict_uuid_v7_serialize.
Notation opt_uuid7 := strict_optional_uuid_v7_serialize.
Notation safe := strict_safe_integer_serialize.
Notation opt_safe := strict_optional_safe_integer_serialize.
Notation utc := strict_utc_serialize.

(** The fields of [serde_json::to_value(event)]. *)
Definition event_fields (e : AuditEvent) : list (string * option json) :=
    [("schema", text (ae_schema e)); ("workspace_id", uuid7 (ae_workspace_id e));
     ("event_id", uuid7 (ae_event_id e)); ("sequence", safe (ae_sequence e));
     ("kind", text (AuditEventKind.wire (ae_kind e)));
     ("outcome", text (AuditOutcome.wire (ae_outcome e)));
     ("previous_digest", nullable control_value (ae_previous_digest e));
     ("event_digest", control_value (ae_event_digest e));
     ("human_id", opt_uuid7 (ae_human_id e));
     ("session_id", opt_uuid7 (ae_session_id e));
     ("challenge_id", opt_uuid7 (ae_challenge_id e));
     ("challenge_digest", nullable control_value (ae_challenge_digest e));
     ("session_authority_digest", nullable control_value (ae_session_authority_digest e));
     ("related_session_id", opt_uuid7 (ae_related_session_id e));
     ("server_instance_id", opt_uuid7 (ae_server_instance_id e));
     ("run_id", opt_uuid7 (ae_run_id e));
     ("approval_request_id", opt_uuid7 (ae_approval_request_id e));
     ("command_id", opt_uuid7 (ae_command_id e));
     ("command_kind", nullable (λ k, text (CommandKind.wire k)) (ae_command_kind e));
     ("budget_id", opt_uuid7 (ae_budget_id e));
     ("reservation_id", opt_uuid7 (ae_reservation_id e));
     ("lease_id", opt_uuid7 (ae_lease_id e));
     ("source_lease_id", opt_uuid7 (ae_source_lease_id e));
     ("process_epoch_id", opt_uuid7 (ae_process_epoch_id e));
     ("permit_id", opt_uuid7 (ae_permit_id e));
     ("recovery_directive_id", opt_uuid7 (ae_recovery_directive_id e));
     ("fence_epoch", opt_safe (ae_fence_epoch e));
     ("auth_epoch", opt_safe (ae_auth_epoch e));
     ("policy_revision", opt_safe (ae_policy_revision e));
     ("intent_digest", nullable control_value (ae_intent_digest e));
     ("call_digest", nullable control_value (ae_call_digest e));
     ("decision_digest", nullable content_value (ae_decision_digest e));
     ("recovery_directive_digest", nullable control_value (ae_recovery_directive_digest e));
     ("failure_scope", nullable (λ k, text (AuditFailureScope.wire k)) (ae_failure_scope e));
     ("proof", nullable proof_reference_value (ae_proof e));
     ("occurred_at", utc (ae_occurred_at e))].

Definition event_value (e : AuditEvent) : option json := strict_object (event_fields e).

End value.

(** ** One link *)

Section link.
Context `{Externals} `{OperatorExternals}.

Definition AUDIT_EVENT_SCHEMA : string := "proof.operator.audit-event/v1".

Definition presence (e : AuditEvent) : list bool :=
  [is_some (ae_human_id e); is_some (ae_session_id e); is_some (ae_challenge_id e);
   is_some (ae_related_session_id e); is_some (ae_server_instance_id e);
   is_some (ae_run_id e); is_some (ae_approval_request_id e); is_some (ae_command_id e);
   is_some (ae_command_kind e); is_some (ae_budget_id e); is_some (ae_reservation_id e);
   is_some (ae_lease_id e); is_some (ae_source_lease_id e);
   is_some (ae_process_epoch_id e); is_some (ae_permit_id e);
   is_some (ae_recovery_directive_id e); is_some (ae_fence_epoch e);
   is_some (ae_auth_epoch e); is_some (ae_policy_revision e); is_some (ae_intent_digest e);
   is_some (ae_call_digest e); is_some (ae_decision_digest e);
   is_some (ae_recovery_directive_digest e); is_some (ae_failure_scope e);
   is_some (ae_proof e)].

(** [enumerate().fold(0, |mask, (index, yes)| mask | (u32::from(yes) << index))] *)
Fixpoint mask_fold (mask : N) (index : N) (present : list bool) : N :=
  match present with
  | [] => mask
  | yes :: present' =>
      mask_fold (N.lor mask (N.shiftl (N.b2n yes) index)) (index + 1) present'
  end.

Definition profile_mask (e : AuditEvent) : N := mask_fold 0 0 (presence e).

Definition proof_operation_is (e : AuditEvent) (operation : string) : bool :=
  is_some_and (ae_proof e) (λ proof, bool_decide (pf_operation proof = operation)).

Definition valid_command_profile (e : AuditEvent) (mask : N) : bool :=
  match ae_command_kind e with
  | Some CommandKind.ApprovalDecide => (mask =? 0x1e3)%N
  | Some CommandKind.RunCancel => (mask =? 0x1a3)%N
  | Some CommandKind.RunResume => (mask =? 0x2001e3)%N || (mask =? 0x4081a3)%N
  | Some CommandKind.SessionRevoke => (mask =? 0x183)%N
  | None => false
  end.

Definition valid_failure_profile (e : AuditEvent) (mask : N) : bool :=
  if negb (bool_decide (ae_outcome e = AuditOutcome.Failed)) then false
  else
    match ae_failure_scope e, ae_command_kind e with
    | Some AuditFailureScope.Workspace, None => (mask =? 0x800010)%N
    | Some AuditFailureScope.Storage, None => (mask =? 0x800010)%N
    | Some AuditFailureScope.Command, Some CommandKind.ApprovalDecide => (mask =? 0x8001f3)%N
    | Some AuditFailureScope.Command, Some CommandKind.RunCancel => (mask =? 0x8001b3)%N
    | Some AuditFailureScope.Command, Some CommandKind.RunResume => (mask =? 0xe081f3)%N
    | Some AuditFailureScope.Command, Some CommandKind.SessionRevoke => (mask =? 0x800193)%N
    | Some AuditFailureScope.Runtime, None => (mask =? 0x996e30)%N
    | _, _ => false
    end.

Definition profile (e : AuditEvent) (mask : N) : bool :=
  let outcome o := bool_decide (ae_outcome e = o) in
  let command k := bool_decide (ae_command_kind e = Some k) in
  match ae_kind e with
  | AuditEventKind.SessionChallengeIssued => outcome AuditOutcome.Accepted && (mask =? 0x60015)%N
  | AuditEventKind.SessionIssued => outcome AuditOutcome.Accepted && (mask =? 0x60017)%N
  | AuditEventKind.SessionReplaced => outcome AuditOutcome.Accepted && (mask =? 0x6001f)%N
  | AuditEventKind.SessionRevoked =>
      outcome AuditOutcome.Accepted && (mask =? 0x1060193)%N
      && command CommandKind.SessionRevoke && proof_operation_is e "operator.session_revoke"
  | AuditEventKind.SessionExpired => outcome AuditOutcome.Expired && (mask =? 0x60013)%N
  | AuditEventKind.ApprovalDecided =>
      outcome AuditOutcome.Accepted && (mask =? 0x12001e3)%N
      && command CommandKind.ApprovalDecide && proof_operation_is e "operator.approval_decide"
  | AuditEventKind.ApprovalExpired => outcome AuditOutcome.Expired && (mask =? 0x60)%N
  | AuditEventKind.RunCancelled =>
      outcome AuditOutcome.Accepted && (mask =? 0x10001a3)%N
      && command CommandKind.RunCancel && proof_operation_is e "operator.run_cancel"
  | AuditEventKind.RunResumed =>
      outcome AuditOutcome.Accepted && ((mask =? 0x12001e3)%N || (mask =? 0x141a9a3)%N)
      && command CommandKind.RunResume && proof_operation_is e "operator.run_resume"
  | AuditEventKind.LeaseAcquired | AuditEventKind.LeaseRenewed =>
      outcome AuditOutcome.Accepted && (mask =? 0x12830)%N
  | AuditEventKind.LeaseReclaimed =>
      outcome AuditOutcome.Accepted
      && ((mask =? 0x13830)%N || (mask =? 0x49b830)%N || (mask =? 0x49bc30)%N)
  | AuditEventKind.LeaseReleased => outcome AuditOutcome.Accepted && (mask =? 0x12830)%N
  | AuditEventKind.StaleFenceRejected =>
      outcome AuditOutcome.Rejected
      && is_some_and (ae_fence_epoch e) (λ fence, negb (fence =? 0)%N)
      && match ae_command_kind e with
         | Some CommandKind.ApprovalDecide => (mask =? 0x101e3)%N
         | Some CommandKind.RunCancel => (mask =? 0x101a3)%N
         | Some CommandKind.RunResume => (mask =? 0x2101e3)%N || (mask =? 0x4181a3)%N
         | _ => false
         end
  | AuditEventKind.BudgetReserved | AuditEventKind.BudgetReleased =>
      outcome AuditOutcome.Accepted && (mask =? 0x90e20)%N
  | AuditEventKind.BudgetCommitted => outcome AuditOutcome.Accepted && (mask =? 0x194e20)%N
  | AuditEventKind.BudgetForfeited => outcome AuditOutcome.Failed && (mask =? 0x194e20)%N
  | AuditEventKind.BudgetRejected => outcome AuditOutcome.Rejected && (mask =? 0x90e20)%N
  | AuditEventKind.DispatchAuthorized => outcome AuditOutcome.Accepted && (mask =? 0x196e30)%N
  | AuditEventKind.RuntimeResultCommitted =>
      outcome AuditOutcome.Accepted && (mask =? 0x1196e30)%N
  | AuditEventKind.RecoveryStarted => outcome AuditOutcome.Accepted && (mask =? 0x499430)%N
  | AuditEventKind.RecoveryCompleted => outcome AuditOutcome.Accepted && (mask =? 0x49bc30)%N
  | AuditEventKind.ControlShutdown => outcome AuditOutcome.Accepted && (mask =? 0x10)%N
  | AuditEventKind.CommandRejected =>
      outcome AuditOutcome.Rejected && valid_command_profile e mask
  | AuditEventKind.CommandConflict =>
      outcome AuditOutcome.Conflict && valid_command_profile e mask
  | AuditEventKind.ControlFailure => valid_failure_profile e mask
  end.

Definition challenge_kind (k : AuditEventKind.t) : bool :=
  match k with
  | AuditEventKind.SessionChallengeIssued | AuditEventKind.SessionIssued
  | AuditEventKind.SessionReplaced => true
  | _ => false
  end.

Definition event_digest_of (e : AuditEvent) : option ControlDigest :=
  digest_without_field "Proof-Operator-Audit-Event-v1" (event_value e) "event_digest".

Definition validate_chain_link (e : AuditEvent) (expected_sequence : N)
    (expected_previous : option ControlDigest) : checked :=
  bail ValidationError.InvalidChronology
    when negb (bool_decide (ae_schema e = AUDIT_EVENT_SCHEMA))
         || negb (ae_sequence e =? expected_sequence)%N
         || (ae_sequence e =? 0)%N
         || negb (bool_decide (ae_previous_digest e = expected_previous))
         || negb (eqb (ae_sequence e =? 1)%N (is_none (ae_previous_digest e)));
  bail ValidationError.InvalidUuid
    when negb (uuid_is_v7 (ae_workspace_id e))
         || negb (uuid_is_v7 (ae_event_id e))
         || any_not_v7 [ae_human_id e; ae_session_id e; ae_challenge_id e;
                        ae_related_session_id e; ae_server_instance_id e; ae_run_id e;
                        ae_approval_request_id e; ae_command_id e; ae_budget_id e;
                        ae_reservation_id e; ae_lease_id e; ae_source_lease_id e;
                        ae_process_epoch_id e; ae_permit_id e; ae_recovery_directive_id e]
         || existsb (λ o, is_some_and o (λ v, (MAX_SAFE_INTEGER <? v)%N))
              [ae_fence_epoch e; ae_auth_epoch e; ae_policy_revision e]
         || existsb (λ o, is_some_and o (λ v, (v =? 0)%N)) [ae_auth_epoch e; ae_policy_revision e]
         || is_some_and (ae_proof e) (λ proof, is_err (ProofReference_validate proof));
  bail ValidationError.InvalidBranch
    when negb (eqb (is_some (ae_session_id e)) (is_some (ae_session_authority_digest e)));
  bail ValidationError.InvalidBranch
    when negb (eqb (challenge_kind (ae_kind e)) (is_some (ae_challenge_digest e)));
  bail ValidationError.InvalidBranch when negb (profile e (profile_mask e));
  let? expected := ok_or (event_digest_of e) ValidationError.InvalidSchema in
  bail ValidationError.InvalidSchema when negb (bool_decide (expected = ae_event_digest e));
  Ok ().

End link.

(** ** The mask *)

Lemma mask_fold_testbit present mask index j :
  N.testbit (mask_fold mask index present) j =
  N.testbit mask j
  || (if (j <? index)%N then false else nth (N.to_nat (j - index)) present false).
Proof.
  revert mask index. induction present as [|yes present IH]; intros mask index; cbn [mask_fold].
  - rewrite <- orb_false_r at 1. f_equal. destruct (j <? index)%N; [done|].
    by destruct (N.to_nat (j - index)).
  - rewrite IH, N.lor_spec, <- orb_assoc. f_equal.
    destruct (N.ltb_spec j index) as [L|L].
    + rewrite (N.shiftl_spec_low _ _ _ L). cbn [orb].
      by destruct (N.ltb_spec j (index + 1)); [|lia].
    + rewrite N.shiftl_spec_high' by done.
      destruct (N.ltb_spec j (index + 1)) as [L'|L'].
      * replace (j - index)%N with 0%N by lia. cbn. rewrite orb_false_r. by destruct yes.
      * replace (N.to_nat (j - index)) with (S (N.to_nat (j - (index + 1)))) by lia.
        cbn [nth]. replace (N.testbit (N.b2n yes) (j - index)) with false; [done|].
        destruct yes; [|by rewrite N.bits_0]. symmetry. cbn [N.b2n]. rewrite N.bits_above_log2; [done|].
        cbn. lia.
Qed.

(** The presence mask of an audit event is exact: bit [i] is set exactly when the
    [i]-th optional field is present, and no bit beyond the 25 fields is set, so that
    comparing masks compares the sets of present fields and nothing is lost in the
    32-bit integer. *)
Theorem profile_mask_exact (e : AuditEvent) :
  (∀ i, N.testbit (profile_mask e) i = nth (N.to_nat i) (presence e) false)
  ∧ (profile_mask e < 2 ^ 25)%N.
Proof.
  assert (∀ i, N.testbit (profile_mask e) i = nth (N.to_nat i) (presence e) false) as T.
  { intros i. unfold profile_mask. rewrite mask_fold_testbit, N.bits_0, N.sub_0_r. cbn [orb].
    by destruct (N.ltb_spec i 0%N); [lia|]. }
  split; [done|].
  destruct (N.eq_dec (profile_mask e) 0%N) as [->|NZ]; [done|].
  apply N.log2_lt_pow2; [lia|]. destruct (N.lt_decidable (N.log2 (profile_mask e)) 25%N) as [|G];
    [done|]. exfalso.
  pose proof (N.bit_log2 _ NZ) as B. rewrite T, nth_overflow in B; [done|].
  change (length (presence e)) with 25. lia.
Qed.

(** ** The chain *)

#[export] Instance CommandKind_wire_inj : Inj (=) (=) CommandKind.wire.
Proof. by intros [] []. Qed.
#[export] Instance AuditEventKind_wire_inj : Inj (=) (=) AuditEventKind.wire.
Proof. by intros [] []. Qed.
#[export] Instance AuditOutcome_wire_inj : Inj (=) (=) AuditOutcome.wire.
Proof. by intros [] []. Qed.
#[export] Instance AuditFailureScope_wire_inj : Inj (=) (=) AuditFailureScope.wire.
Proof. by intros [] []. Qed.

Section chain.
Context `{HL : ExternalsLaws} `{OperatorExternals}.

#[export] Instance proof_reference_faithful : Faithful proof_reference_value.
Proof using HL.
  split.
  - intros [] [] S E. apply strict_object_inj in E as [W G]; [|done]. written_inv W.
    strict_field G "proof_id". strict_field G "actor_id". strict_field G "operation".
    strict_field G "proof_digest". cbn in *. by subst.
  - intros p v. apply strict_object_exact. exact_fields_tac.
  - intros p. unfold proof_reference_value, strict_object. by destruct (strict_fields _).
Qed.

(** What [event_digest_of] hashes. *)
Definition event_message (e : AuditEvent) : option string :=
  message_without_field "Proof-Operator-Audit-Event-v1" (event_value e) "event_digest".

Lemma event_exact e : exact_fields (event_fields e).
Proof using HL. unfold event_fields. exact_fields_tac. Qed.

(** An event is determined by its digest. *)
Lemma event_digest_binds e1 e2 d :
  event_digest_of e1 = Some d → event_digest_of e2 = Some d →
  ae_event_digest e1 = ae_event_digest e2 →
  e1 = e2 ∨ collides (event_message e1) (event_message e2).
Proof using HL.
  intros E1 E2 Ed.
  destruct (digest_without_field_binds _ _ _ _ _ (event_exact e1) (event_exact e2) E1 E2)
    as [[W G]|]; [left|by right].
  destruct e1, e2. unfold event_fields in *. written_inv W.
  strict_field G "schema". strict_field G "workspace_id". strict_field G "event_id".
  strict_field G "sequence". strict_field G "kind". strict_field G "outcome".
  strict_field G "previous_digest". strict_field G "human_id".
  strict_field G "session_id". strict_field G "challenge_id".
  strict_field G "challenge_digest". strict_field G "session_authority_digest".
  strict_field G "related_session_id". strict_field G "server_instance_id".
  strict_field G "run_id". strict_field G "approval_request_id".
  strict_field G "command_id". strict_field G "command_kind". strict_field G "budget_id".
  strict_field G "reservation_id". strict_field G "lease_id".
  strict_field G "source_lease_id". strict_field G "process_epoch_id".
  strict_field G "permit_id". strict_field G "recovery_directive_id".
  strict_field G "fence_epoch". strict_field G "auth_epoch".
  strict_field G "policy_revision". strict_field G "intent_digest".
  strict_field G "call_digest". strict_field G "decision_digest".
  strict_field G "recovery_directive_digest". strict_field G "failure_scope".
  strict_field G "proof". strict_field G "occurred_at".
  cbn in *. repeat match goal with F : _ = _ |- _ => first [apply (inj _) in F|progress subst] end.
  done.
Qed.

(** Every event links to the one before it, from the first. *)
Fixpoint chain_from (sequence : N) (previous : option ControlDigest) (l : list AuditEvent)
    : Prop :=
  match l with
  | [] => True
  | e :: l' =>
      validate_chain_link e sequence previous = Ok ()
      ∧ chain_from (sequence + 1) (Some (ae_event_digest e)) l'
  end.

Definition audit_chain (l : list AuditEvent) : Prop := chain_from 1 None l.

Definition last_digest (l : list AuditEvent) : option ControlDigest :=
  ae_event_digest <$> last l.

Lemma chain_from_snoc l e n p :
  chain_from n p (l ++ [e]) ↔
  chain_from n p l
  ∧ validate_chain_link e (n + N.of_nat (length l))
      (match last l with Some e' => Some (ae_event_digest e') | None => p end) = Ok ().
Proof.
  revert n p. induction l as [|e' l IH]; intros n p; cbn [chain_from app length].
  - rewrite N.add_0_r. cbn. tauto.
  - rewrite IH, last_cons. rewrite <- (and_assoc (_ = _)).
    replace (n + N.of_nat (S (length l)))%N with (n + 1 + N.of_nat (length l))%N by lia.
    by destruct (last l).
Qed.

Lemma audit_chain_snoc l e :
  audit_chain (l ++ [e]) ↔
  audit_chain l
  ∧ validate_chain_link e (1 + N.of_nat (length l)) (last_digest l) = Ok ().
Proof. unfold audit_chain, last_digest. rewrite chain_from_snoc. by destruct (last l). Qed.

Lemma validate_chain_link_inv e n p :
  validate_chain_link e n p = Ok () →
  ae_sequence e = n ∧ ae_previous_digest e = p ∧ (p = None ↔ n = 1%N)
  ∧ event_digest_of e = Some (ae_event_digest e).
Proof.
  unfold validate_chain_link. intros E. res_inv.
  repeat match goal with
  | E : (_ =? _)%N = true |- _ => apply N.eqb_eq in E
  | E : eqb _ _ = true |- _ => apply eqb_prop in E
  end. subst. split_and!; try done.
  split; intros E.
  - rewrite E in *. cbn [is_none is_some negb] in *. by apply N.eqb_eq.
  - rewrite E, N.eqb_refl in *.
    match goal with P : true = is_none _ |- _ => symmetry in P; by apply is_none_true in P end.
Qed.

(** C24: the audit chain is tamper-evident.  Two chains that pass
    [validate_chain_link] at every position and end in the same event digest are the
    same list of events, from the first to the last and in every field, unless an event of
    one and an event of the other were hashed from different messages with the same BLAKE3
    hash: no event can be changed, dropped, reordered or inserted without changing the
    head digest or finding a second message for the digest of an event. *)
Theorem audit_chain_binds (l1 l2 : list AuditEvent) (H1 : audit_chain l1)
    (H2 : audit_chain l2) (E : last_digest l1 = last_digest l2) :
  l1 = l2 ∨ ∃ e1 e2, e1 ∈ l1 ∧ e2 ∈ l2 ∧ ae_event_digest e1 = ae_event_digest e2
                     ∧ collides (event_message e1) (event_message e2).
Proof using HL.
  revert l2 H1 H2 E. induction l1 as [|e1 l1 IH] using rev_ind; intros l2 H1 H2 E.
  - left. destruct l2 as [|e2 l2 _] using rev_ind; [done|].
    unfold last_digest in E. by rewrite last_snoc in E.
  - destruct l2 as [|e2 l2 _] using rev_ind.
    { unfold last_digest in E. by rewrite last_snoc in E. }
    unfold last_digest in E. rewrite !last_snoc in E. injection E as E.
    apply audit_chain_snoc in H1 as [H1 L1], H2 as [H2 L2].
    apply validate_chain_link_inv in L1 as (S1 & P1 & _ & D1), L2 as (S2 & P2 & _ & D2).
    rewrite <- E in D2. destruct (event_digest_binds e1 e2 _ D1 D2 E) as [->|C].
    + destruct (IH l2 H1 H2) as [->|(x & y & X & Y & C)]; [congruence|by left|right].
      exists x, y. set_solver.
    + right. exists e1, e2. set_solver.
Qed.

End chain.
