(* ===== verification/OperatorAuth.v ===== *)
(** * Operator authentication

    The model of [crates/proof-operator-auth] ([types.rs], [authority.rs], [error.rs]):
    the policy of a workspace, the challenge that its human signs, the exchange of a
    signed challenge for a session token, and the calls that a session authorizes.

    The authority is one mutex around a pending challenge and an active session.  Its
    environment, its audit store and the callbacks it runs all act on one outside world
    [S]; the state of a call is that world, the protected state and whether the mutex is
    poisoned, which a panic under the lock makes it ([locked]).  The zeroing of secrets
    and the redacted [Debug] forms are not modelled. *)

From S2P Require Import Prelude RustStr Externals Json Canonical Serialized Evidence.
From S2P Require Import OperatorCommon StrictDigest OperatorEnvironment Durable AuditChain.
From stdpp Require Import options.

(** SHA-256, and [DateTime::checked_add_signed], which fails outside the range of
    [chrono]. *)
Class AuthExternals : Type := {
  auth_sha256 : string → string;
  utc_checked_add : DateTime → Z → option DateTime;
}.

(** ** Errors *)

Module OperatorAuthError.
Inductive t : Type :=
| InvalidRequest | AuthenticationRequired | CapabilityRequired | ChallengePending
| ControlUnavailable.

#[global] Instance t_eq_dec : EqDecision t.
Proof. solve_decision. Defined.
End OperatorAuthError.

Inductive AuthorizedCallError (E : Type) : Type :=
| Auth (e : OperatorAuthError.t)
| Callback (e : E).

Arguments Auth {E} e.
Arguments Callback {E} e.

(** ** Data *)

Definition CHALLENGE_TTL_SECONDS : N := 120.
Definition SESSION_ABSOLUTE_TTL_SECONDS : N := 900.
Definition SESSION_IDLE_TTL_SECONDS : N := 300.

Record AuthPolicy := {
  ap_workspace_id : Uuid;
  ap_workspace_fingerprint : ControlDigest;
  ap_server_instance_id : Uuid;
  ap_human_id : Uuid;
  ap_human_public_key : string;
  ap_human_public_key_fingerprint : ControlDigest;
  ap_auth_epoch : N;
  ap_policy_revision : N;
  ap_origin : string;
  ap_enrolled_capabilities : CapabilitySet;
  ap_workspace_capabilities : CapabilitySet;
  ap_supported_capabilities : CapabilitySet;
}.

Record ChallengeIssueRequest := {
  cr_schema : string;
  cr_client_nonce_digest : ControlDigest;
  cr_requested_capabilities : CapabilitySet;
}.

Record SessionChallenge := {
  ch_schema : string;
  ch_challenge_id : Uuid;
  ch_server_instance_id : Uuid;
  ch_server_nonce : string;
  ch_workspace_id : Uuid;
  ch_workspace_fingerprint : ControlDigest;
  ch_human_id : Uuid;
  ch_human_public_key_fingerprint : ControlDigest;
  ch_auth_epoch : N;
  ch_policy_revision : N;
  ch_origin : string;
  ch_client_nonce_digest : ControlDigest;
  ch_requested_capabilities : CapabilitySet;
  ch_granted_capabilities : CapabilitySet;
  ch_issued_at : DateTime;
  ch_expires_at : DateTime;
  ch_challenge_ttl_seconds : N;
  ch_session_absolute_ttl_seconds : N;
  ch_session_idle_ttl_seconds : N;
}.

#[export] Instance SessionChallenge_eq_dec : EqDecision SessionChallenge.
Proof. solve_decision. Defined.

Record ChallengeIssueResponse := {
  ci_schema : string;
  ci_challenge : SessionChallenge;
  ci_challenge_code : string;
}.

Record SessionAttestation := {
  at_schema : string;
  at_challenge : SessionChallenge;
  at_signature_algorithm : string;
  at_signature : string;
  at_signed_bytes_digest : ControlDigest;
}.

Record SessionExchangeRequest := {
  xr_schema : string;
  xr_challenge_id : Uuid;
  xr_client_nonce : string;
}.

(** [SessionToken] is its 32 bytes. *)
Record SessionExchangeResponse := {
  xs_schema : string;
  xs_session_id : Uuid;
  xs_session_token : string;
  xs_workspace_id : Uuid;
  xs_server_instance_id : Uuid;
  xs_human_id : Uuid;
  xs_auth_epoch : N;
  xs_policy_revision : N;
  xs_granted_capabilities : CapabilitySet;
  xs_issued_at : DateTime;
  xs_absolute_expires_at : DateTime;
  xs_idle_expires_at : DateTime;
}.

Record AuthorizedSession := {
  az_session_id : Uuid;
  az_workspace_id : Uuid;
  az_server_instance_id : Uuid;
  az_human_id : Uuid;
  az_auth_epoch : N;
  az_policy_revision : N;
  az_origin : string;
  az_granted_capabilities : CapabilitySet;
  az_issued_at : DateTime;
  az_absolute_expires_at : DateTime;
  az_authority_digest : ControlDigest;
}.

Definition authority_binding (a : AuthorizedSession) : SessionAuthorityBinding :=
  {| sa_schema := SESSION_AUTHORITY_SCHEMA; sa_session_id := az_session_id a;
     sa_workspace_id := az_workspace_id a;
     sa_server_instance_id := az_server_instance_id a; sa_human_id := az_human_id a;
     sa_auth_epoch := az_auth_epoch a; sa_policy_revision := az_policy_revision a;
     sa_origin := az_origin a; sa_granted_capabilities := az_granted_capabilities a;
     sa_issued_at := az_issued_at a; sa_absolute_expires_at := az_absolute_expires_at a |}.

(** ** Requests of the audit store ([operator/store.rs]) *)

Module AuthorityEvent.
Inductive t : Type :=
| ControlShutdown | SessionChallengeIssued | SessionExpired | SessionIssued
| SessionReplaced.

#[global] Instance t_eq_dec : EqDecision t.
Proof. solve_decision. Defined.
End AuthorityEvent.

Record ControlAuditAppendRequest := {
  ca_schema : string;
  ca_workspace_id : Uuid;
  ca_server_instance_id : Uuid;
  ca_kind : AuthorityEvent.t;
  ca_human_id : option Uuid;
  ca_session_id : option Uuid;
  ca_challenge_id : option Uuid;
  ca_challenge_digest : option ControlDigest;
  ca_session_authority_digest : option ControlDigest;
  ca_related_session_id : option Uuid;
  ca_auth_epoch : option N;
  ca_policy_revision : option N;
}.

Record ControlAuditAppendResult := { cu_schema : string; cu_event : AuditEvent }.

Definition APPEND_REQUEST_SCHEMA : string := "proof.operator.control-audit-append-request/v1".
Definition APPEND_RESULT_SCHEMA : string := "proof.operator.control-audit-append-result/v1".

(** The trait [OperatorAuthorityAuditStore]. *)
Record OperatorAuthorityAuditStore (S : Type) := {
  append_authority_event :
    ControlAuditAppendRequest → call S StoreError.t ControlAuditAppendResult;
}.

Arguments append_authority_event {S}.

Definition authority_event_kind (kind : AuthorityEvent.t) : AuditEventKind.t :=
  match kind with
  | AuthorityEvent.ControlShutdown => AuditEventKind.ControlShutdown
  | AuthorityEvent.SessionChallengeIssued => AuditEventKind.SessionChallengeIssued
  | AuthorityEvent.SessionExpired => AuditEventKind.SessionExpired
  | AuthorityEvent.SessionIssued => AuditEventKind.SessionIssued
  | AuthorityEvent.SessionReplaced => AuditEventKind.SessionReplaced
  end.

Definition authority_event_outcome (kind : AuthorityEvent.t) : AuditOutcome.t :=
  if decide (kind = AuthorityEvent.SessionExpired)
  then AuditOutcome.Expired else AuditOutcome.Accepted.

Definition audit_result_matches (request : ControlAuditAppendRequest)
    (result : ControlAuditAppendResult) : bool :=
  let event := cu_event result in
  bool_decide (cu_schema result = APPEND_RESULT_SCHEMA)
  && bool_decide (ae_schema event = AUDIT_EVENT_SCHEMA)
  && bool_decide (ae_workspace_id event = ca_workspace_id request)
  && bool_decide (ae_kind event = authority_event_kind (ca_kind request))
  && bool_decide (ae_outcome event = authority_event_outcome (ca_kind request))
  && bool_decide (ae_human_id event = ca_human_id request)
  && bool_decide (ae_session_id event = ca_session_id request)
  && bool_decide (ae_challenge_id event = ca_challenge_id request)
  && bool_decide (ae_challenge_digest event = ca_challenge_digest request)
  && bool_decide (ae_session_authority_digest event = ca_session_authority_digest request)
  && bool_decide (ae_related_session_id event = ca_related_session_id request)
  && bool_decide (ae_server_instance_id event = Some (ca_server_instance_id request))
  && bool_decide (ae_auth_epoch event = ca_auth_epoch request)
  && bool_decide (ae_policy_revision event = ca_policy_revision request).

(** ** Texts *)

Definition is_canonical_capability_set (s : CapabilitySet) : bool :=
  let values := capabilities s in
  negb (bool_decide (values = [])) && (length values <=? length Capability_ALL)
  && windows_increasing values.

Fixpoint decimal (acc : N) (s : string) : N :=
  match s with
  | EmptyString => acc
  | String c s' => decimal (10 * acc + (N_of_ascii c - 48)) s'
  end.

(** [port.parse::<u16>()] on a text of digits. *)
Definition valid_origin (value : string) : bool :=
  match strip_prefix "http://127.0.0.1:" value with
  | None => false
  | Some port =>
      negb (bool_decide (port = EmptyString)) && negb (starts_with "0" port)
      && all_bytes is_ascii_digit port
      && (decimal 0 port <=? 65535)%N && negb (decimal 0 port =? 0)%N
  end.

(** [encode_hex_into] *)
Fixpoint encode_hex (bytes : string) : string :=
  match bytes with
  | EmptyString => EmptyString
  | String b bs =>
      String (digit_at (N.shiftr (N_of_ascii b) 4))
        (String (digit_at (N.land (N_of_ascii b) 15)) (encode_hex bs))
  end.

(** [decode_hex_nibble] and [decode_hex32] of [types.rs], which stop at the first bad
    digit. *)
Definition decode_hex_nibble (byte : ascii) : option N :=
  if is_ascii_digit byte then Some (N_of_ascii byte - 48)%N
  else if byte_in "a" "f" byte then Some (N_of_ascii byte - 97 + 10)%N
  else None.

Fixpoint decode_hex_pairs (input : string) : option string :=
  match input with
  | String h (String l rest) =>
      high ← decode_hex_nibble h;
      low ← decode_hex_nibble l;
      bytes ← decode_hex_pairs rest;
      Some (String (ascii_of_N (N.lor (N.shiftl high 4) low)) bytes)
  | _ => Some EmptyString
  end.

Definition token_decode_hex32 (input : string) : option string :=
  if String.length input =? 64 then decode_hex_pairs input else None.

(** [decode_nibble] and [decode_hex32] of [authority.rs], which always visit 32 pairs. *)
Definition decode_nibble (byte : ascii) : N * bool :=
  if is_ascii_digit byte then ((N_of_ascii byte - 48)%N, true)
  else if byte_in "a" "f" byte then ((N_of_ascii byte - 97 + 10)%N, true)
  else (0%N, false).

Definition input_byte (input : string) (index : nat) : ascii :=
  match String.get index input with Some c => c | None => "000"%char end.

Fixpoint decode_bytes (count index : nat) (input : string) : string * bool :=
  match count with
  | O => (EmptyString, true)
  | S count' =>
      let '(high, high_valid) := decode_nibble (input_byte input (index * 2)) in
      let '(low, low_valid) := decode_nibble (input_byte input (index * 2 + 1)) in
      let '(rest, valid) := decode_bytes count' (S index) input in
      (String (ascii_of_N (N.lor (N.shiftl high 4) low)) rest, high_valid && low_valid && valid)
  end.

Definition decode_hex32 (input : string) : string * bool :=
  let '(output, valid) := decode_bytes 32 0 input in
  (output, (String.length input =? 64) && valid).

Definition has_rfc3339_utc_shape (value : string) : bool :=
  let len := String.length value in
  let has i c := bool_decide (byte_at value i = Some c) in
  let digits i n := all_bytes is_ascii_digit (String.substring i n value) in
  (20 <=? len)
  && has 4 "-"%char && has 7 "-"%char && has 10 "T"%char && has 13 ":"%char && has 16 ":"%char
  && negb (seconds_above_59 value)
  && digits 0 4 && digits 5 2 && digits 8 2 && digits 11 2 && digits 14 2 && digits 17 2
  && (if len =? 20 then has 19 "Z"%char
      else (22 <=? len) && (len <=? 30) && has 19 "."%char && has (len - 1) "Z"%char
           && digits 20 (len - 21)).

Section auth.
Context `{Externals} `{OperatorExternals} `{AuthExternals}.

Definition strict_datetime_utc_serialize (value : DateTime) : option json :=
  let encoded := utc_to_rfc3339 value in
  if has_rfc3339_utc_shape encoded then Some (JString encoded) else None.

Definition decode_signature (value : string) : option string :=
  if negb (String.length value =? 86) || contains_byte "=" value then None
  else
    decoded ← base64url_decode value;
    if negb (String.length decoded =? 64) then None
    else if bool_decide (base64url_encode decoded = value) then Some decoded else None.

(** ** Digests *)

Definition client_nonce_digest (nonce : string) : ControlDigest :=
  control_digest "Proof-Operator-Client-Nonce-v1" nonce.

Definition public_key_fingerprint (public_key : string) : ControlDigest :=
  control_digest "Proof-Operator-Public-Key-v1" public_key.

Definition secret_digest (domain payload : string) : string :=
  blake3 (domain +:+ NUL +:+ payload).

Definition TOKEN_DOMAIN : string := "Proof-Operator-Session-Token-v1".
Definition CHALLENGE_DOMAIN : string := "Proof-Operator-Session-Challenge-v1".
Definition AUTHORITY_DOMAIN : string := "Proof-Operator-Session-Authority-v1".

Definition challenge_value (c : SessionChallenge) : option json :=
  strict_object
    [("schema", text (ch_schema c));
     ("challenge_id", strict_uuid_v7_serialize (ch_challenge_id c));
     ("server_instance_id", strict_uuid_v7_serialize (ch_server_instance_id c));
     ("server_nonce", text (ch_server_nonce c));
     ("workspace_id", strict_uuid_v7_serialize (ch_workspace_id c));
     ("workspace_fingerprint", control_value (ch_workspace_fingerprint c));
     ("human_id", strict_uuid_v7_serialize (ch_human_id c));
     ("human_public_key_fingerprint", control_value (ch_human_public_key_fingerprint c));
     ("auth_epoch", Some (JNumber (PosInt (ch_auth_epoch c))));
     ("policy_revision", Some (JNumber (PosInt (ch_policy_revision c))));
     ("origin", text (ch_origin c));
     ("client_nonce_digest", control_value (ch_client_nonce_digest c));
     ("requested_capabilities", capabilities_value (ch_requested_capabilities c));
     ("granted_capabilities", capabilities_value (ch_granted_capabilities c));
     ("issued_at", strict_datetime_utc_serialize (ch_issued_at c));
     ("expires_at", strict_datetime_utc_serialize (ch_expires_at c));
     ("challenge_ttl_seconds", Some (JNumber (PosInt (ch_challenge_ttl_seconds c))));
     ("session_absolute_ttl_seconds",
       Some (JNumber (PosInt (ch_session_absolute_ttl_seconds c))));
     ("session_idle_ttl_seconds", Some (JNumber (PosInt (ch_session_idle_ttl_seconds c))))].

Definition authority_value (s : SessionAuthorityBinding) : option json :=
  strict_object
    [("schema", text (sa_schema s));
     ("session_id", strict_uuid_v7_serialize (sa_session_id s));
     ("workspace_id", strict_uuid_v7_serialize (sa_workspace_id s));
     ("server_instance_id", strict_uuid_v7_serialize (sa_server_instance_id s));
     ("human_id", strict_uuid_v7_serialize (sa_human_id s));
     ("auth_epoch", strict_safe_integer_serialize (sa_auth_epoch s));
     ("policy_revision", strict_safe_integer_serialize (sa_policy_revision s));
     ("origin", text (sa_origin s));
     ("granted_capabilities", capabilities_value (sa_granted_capabilities s));
     ("issued_at", strict_utc_serialize (sa_issued_at s));
     ("absolute_expires_at", strict_utc_serialize (sa_absolute_expires_at s))].

(** [canonicalize_serialized(value).ok()] *)
Definition canonical_text (v : option json) : option string :=
  v ← v;
  match canonicalize v with Ok text => Some text | _ => None end.

Definition challenge_signing_bytes (challenge : SessionChallenge)
    : result OperatorAuthError.t string :=
  let? canonical := ok_or (canonical_text (challenge_value challenge))
                      OperatorAuthError.InvalidRequest in
  Ok (CHALLENGE_DOMAIN +:+ NUL +:+ canonical).

Definition challenge_signed_bytes_digest (challenge : SessionChallenge)
    : result OperatorAuthError.t ControlDigest :=
  let? bytes := challenge_signing_bytes challenge in
  Ok {| control_bytes := blake3 bytes |}.

Definition challenge_code (challenge : SessionChallenge) : result OperatorAuthError.t string :=
  let? canonical := ok_or (canonical_text (challenge_value challenge))
                      OperatorAuthError.InvalidRequest in
  Ok (encode_hex (String.substring 0 5 (auth_sha256 canonical))).

(** ** Policies *)

Definition AuthPolicy_validate (p : AuthPolicy) : result OperatorAuthError.t () :=
  bail OperatorAuthError.InvalidRequest
    when negb (uuid_is_v7 (ap_workspace_id p)) || negb (uuid_is_v7 (ap_server_instance_id p))
         || negb (uuid_is_v7 (ap_human_id p))
         || negb (ap_auth_epoch p =? 1)%N || negb (ap_policy_revision p =? 1)%N
         || negb (bool_decide (ap_human_public_key_fingerprint p
                               = public_key_fingerprint (ap_human_public_key p)))
         || negb (valid_origin (ap_origin p))
         || negb (is_canonical_capability_set (ap_enrolled_capabilities p))
         || negb (is_canonical_capability_set (ap_workspace_capabilities p))
         || negb (is_canonical_capability_set (ap_supported_capabilities p))
         || negb (bool_decide (ap_enrolled_capabilities p = ap_workspace_capabilities p));
  Ok ().

Definition CapabilitySet_all : CapabilitySet := {| capabilities := Capability_ALL |}.

Definition from_workspace (workspace : OperatorWorkspace) (enrollment : HumanEnrollment)
    (server_instance_id : Uuid) (human_public_key origin : string)
    : result OperatorAuthError.t AuthPolicy :=
  let? capability_set_digest :=
    ok_or (control_digest_value "Proof-Operator-Capability-Set-v1"
             (capabilities_value (he_capabilities enrollment)))
      OperatorAuthError.InvalidRequest in
  let human := ow_human workspace in
  let human_id := pn_principal_id human in
  let input := ow_fingerprint_input workspace in
  bail OperatorAuthError.InvalidRequest
    when negb (bool_decide (ow_schema workspace = WORKSPACE_SCHEMA))
         || negb (bool_decide (he_schema enrollment = ENROLLMENT_SCHEMA))
         || negb (bool_decide (ow_workspace_id workspace = he_workspace_id enrollment))
         || negb (bool_decide (human = he_human enrollment))
         || negb (bool_decide (pn_kind human = Human))
         || negb (bool_decide (ow_capabilities workspace = he_capabilities enrollment))
         || negb (bool_decide (he_capability_set_digest enrollment = capability_set_digest))
         || negb (bool_decide (fp_workspace_id input = ow_workspace_id workspace))
         || negb (bool_decide (fp_human_id input = human_id))
         || negb (bool_decide (fp_human_public_key input = pn_public_key human))
         || negb (bool_decide (pn_public_key human = base64url_encode human_public_key))
         || negb (bool_decide (pn_public_key_fingerprint human
                               = public_key_fingerprint human_public_key));
  let policy :=
    {| ap_workspace_id := ow_workspace_id workspace;
       ap_workspace_fingerprint := ow_workspace_fingerprint workspace;
       ap_server_instance_id := server_instance_id; ap_human_id := human_id;
       ap_human_public_key := human_public_key;
       ap_human_public_key_fingerprint := pn_public_key_fingerprint human;
       ap_auth_epoch := ow_auth_epoch workspace;
       ap_policy_revision := ow_policy_revision workspace; ap_origin := origin;
       ap_enrolled_capabilities := he_capabilities enrollment;
       ap_workspace_capabilities := ow_capabilities workspace;
       ap_supported_capabilities := CapabilitySet_all |} in
  let? _ := AuthPolicy_validate policy in
  Ok policy.

Definition intersect_capabilities (requested enrolled policy supported : CapabilitySet)
    : result OperatorAuthError.t CapabilitySet :=
  map_err (λ _, OperatorAuthError.InvalidRequest)
    (CapabilitySet_new
       (List.filter (λ capability, CapabilitySet_contains enrolled capability
                              && CapabilitySet_contains policy capability
                              && CapabilitySet_contains supported capability)
          (capabilities requested))).

Definition CHALLENGE_SCHEMA : string := "proof.operator.session.challenge/v1".

Definition challenge_matches_policy (c : SessionChallenge) (p : AuthPolicy) : bool :=
  bool_decide (ch_schema c = CHALLENGE_SCHEMA) && uuid_is_v7 (ch_challenge_id c)
  && bool_decide (ch_server_instance_id c = ap_server_instance_id p)
  && bool_decide (ch_workspace_id c = ap_workspace_id p)
  && bool_decide (ch_workspace_fingerprint c = ap_workspace_fingerprint p)
  && bool_decide (ch_human_id c = ap_human_id p)
  && bool_decide (ch_human_public_key_fingerprint c = ap_human_public_key_fingerprint p)
  && (ch_auth_epoch c =? ap_auth_epoch p)%N
  && (ch_policy_revision c =? ap_policy_revision p)%N
  && bool_decide (ch_origin c = ap_origin p)
  && (ch_challenge_ttl_seconds c =? CHALLENGE_TTL_SECONDS)%N
  && (ch_session_absolute_ttl_seconds c =? SESSION_ABSOLUTE_TTL_SECONDS)%N
  && (ch_session_idle_ttl_seconds c =? SESSION_IDLE_TTL_SECONDS)%N
  && is_canonical_capability_set (ch_requested_capabilities c)
  && is_canonical_capability_set (ch_granted_capabilities c).

End auth.

(** ** The authority *)

Record PendingChallenge := {
  pe_challenge : SessionChallenge;
  pe_expiry_tick : N;
  pe_attestation : option SessionAttestation;
}.

Record ActiveSession := {
  av_authority : AuthorizedSession;
  av_token_digest : string;
  av_absolute_expiry_tick : N;
  av_idle_expiry_tick : N;
}.

Record AuthState := {
  st_pending : option PendingChallenge;
  st_session : option ActiveSession;
}.

Definition AuthState_default : AuthState := {| st_pending := None; st_session := None |}.

Definition set_pending (p : option PendingChallenge) (s : AuthState) : AuthState :=
  {| st_pending := p; st_session := st_session s |}.
Definition set_session (a : option ActiveSession) (s : AuthState) : AuthState :=
  {| st_pending := st_pending s; st_session := a |}.

Definition refresh_idle (tick : N) (a : ActiveSession) : ActiveSession :=
  {| av_authority := av_authority a; av_token_digest := av_token_digest a;
     av_absolute_expiry_tick := av_absolute_expiry_tick a; av_idle_expiry_tick := tick |}.

Record OperatorAuthAuthority (S : Type) := {
  oa_policy : AuthPolicy;
  oa_environment : OperatorControlEnvironment S;
  oa_audit : OperatorAuthorityAuditStore S;
}.

Arguments oa_policy {S}.
Arguments oa_environment {S}.
Arguments oa_audit {S}.

(** The outside world, and the mutex with what it protects. *)
Record Guarded (S : Type) := {
  gd_world : S;
  gd_state : AuthState;
  gd_poisoned : bool;
}.

Arguments gd_world {S}.
Arguments gd_state {S}.
Arguments gd_poisoned {S}.

Section authority.
Context {S : Type} `{Externals} `{OperatorExternals} `{AuthExternals}.
Implicit Types (au : OperatorAuthAuthority S).

Notation guarded := (call (Guarded S)).
Notation auth := (call (Guarded S) OperatorAuthError.t).

Definition authority_new (policy : AuthPolicy) (environment : OperatorControlEnvironment S)
    (audit : OperatorAuthorityAuditStore S)
    : result OperatorAuthError.t (OperatorAuthAuthority S) :=
  let? _ := AuthPolicy_validate policy in
  bail OperatorAuthError.InvalidRequest
    when negb (bool_decide (public_key_fingerprint (ap_human_public_key policy)
                            = ap_human_public_key_fingerprint policy));
  Ok {| oa_policy := policy; oa_environment := environment; oa_audit := audit |}.

Definition guarded_new (world : S) : Guarded S :=
  {| gd_world := world; gd_state := AuthState_default; gd_poisoned := false |}.

Definition outside {E A} (c : call S E A) : guarded E A := λ g,
  let '(r, world) := c (gd_world g) in
  (r, {| gd_world := world; gd_state := gd_state g; gd_poisoned := gd_poisoned g |}).

Definition read_state {E} : guarded E AuthState := λ g, (Ok (gd_state g), g).

Definition update_state {E} (f : AuthState → AuthState) : guarded E () := λ g,
  (Ok (), {| gd_world := gd_world g; gd_state := f (gd_state g);
             gd_poisoned := gd_poisoned g |}).

(** [self.lock_state()?]: a poisoned mutex refuses; a panic under the lock poisons it. *)
Definition locked {E A} (unavailable : E) (body : guarded E A) : guarded E A := λ g,
  if gd_poisoned g then (Err unavailable, g)
  else match body g with
       | (Panic, g') =>
           (Panic, {| gd_world := gd_world g'; gd_state := gd_state g'; gd_poisoned := true |})
       | out => out
       end.

(** [Err(clear_unavailable(&mut state))] *)
Definition clear_unavailable {A} : auth A :=
  let! _ := update_state (λ _, AuthState_default) in
  throw OperatorAuthError.ControlUnavailable.

Definition ok_or_clear {E A} (c : result E A) : auth A :=
  match c with
  | Ok a => ret a
  | Err _ => clear_unavailable
  | Panic => lift Panic
  end.

Definition or_clear {E A} (c : call S E A) : auth A :=
  let! r := attempt (outside c) in
  ok_or_clear r.

Definition some_or_clear {A} (o : option A) : auth A := ok_or_clear (ok_or o ()).

(** [Ok(id) if is_uuid_v7(id) => id] *)
Definition new_id au : auth Uuid :=
  let! id := or_clear (env_new_uuid_v7 (oa_environment au)) in
  if uuid_is_v7 id then ret id else clear_unavailable.

Definition append_audit au (request : ControlAuditAppendRequest) : call S () () :=
  let! result := call_map_err (λ _, ()) (append_authority_event (oa_audit au) request) in
  stop () when negb (audit_result_matches request result);
  ret ().

Definition issued_event au (challenge_id : Uuid) (digest : ControlDigest)
    : ControlAuditAppendRequest :=
  let policy := oa_policy au in
  {| ca_schema := APPEND_REQUEST_SCHEMA; ca_workspace_id := ap_workspace_id policy;
     ca_server_instance_id := ap_server_instance_id policy;
     ca_kind := AuthorityEvent.SessionChallengeIssued;
     ca_human_id := Some (ap_human_id policy); ca_session_id := None;
     ca_challenge_id := Some challenge_id; ca_challenge_digest := Some digest;
     ca_session_authority_digest := None; ca_related_session_id := None;
     ca_auth_epoch := Some (ap_auth_epoch policy);
     ca_policy_revision := Some (ap_policy_revision policy) |}.

Definition new_challenge au (request : ChallengeIssueRequest) (granted : CapabilitySet)
    (challenge_id : Uuid) (nonce : string) (issued_at expires_at : DateTime)
    : SessionChallenge :=
  let policy := oa_policy au in
  {| ch_schema := CHALLENGE_SCHEMA; ch_challenge_id := challenge_id;
     ch_server_instance_id := ap_server_instance_id policy;
     ch_server_nonce := encode_hex nonce; ch_workspace_id := ap_workspace_id policy;
     ch_workspace_fingerprint := ap_workspace_fingerprint policy;
     ch_human_id := ap_human_id policy;
     ch_human_public_key_fingerprint := ap_human_public_key_fingerprint policy;
     ch_auth_epoch := ap_auth_epoch policy; ch_policy_revision := ap_policy_revision policy;
     ch_origin := ap_origin policy; ch_client_nonce_digest := cr_client_nonce_digest request;
     ch_requested_capabilities := cr_requested_capabilities request;
     ch_granted_capabilities := granted; ch_issued_at := issued_at;
     ch_expires_at := expires_at; ch_challenge_ttl_seconds := CHALLENGE_TTL_SECONDS;
     ch_session_absolute_ttl_seconds := SESSION_ABSOLUTE_TTL_SECONDS;
     ch_session_idle_ttl_seconds := SESSION_IDLE_TTL_SECONDS |}.

Definition issue_challenge au (request : ChallengeIssueRequest) : auth ChallengeIssueResponse :=
  stop OperatorAuthError.InvalidRequest
    when negb (bool_decide (cr_schema request
                            = "proof.operator.session.challenge-issue-request/v1"))
         || negb (is_canonical_capability_set (cr_requested_capabilities request));
  let! granted := lift (intersect_capabilities (cr_requested_capabilities request)
                          (ap_enrolled_capabilities (oa_policy au))
                          (ap_workspace_capabilities (oa_policy au))
                          (ap_supported_capabilities (oa_policy au))) in
  locked OperatorAuthError.ControlUnavailable (
    let! issued_at := or_clear (env_trusted_utc_now (oa_environment au)) in
    let! issued_tick := or_clear (env_monotonic_millis (oa_environment au)) in
    let! _ := update_state (λ state,
      if is_some_and (st_pending state)
           (λ pending, (pe_expiry_tick pending <=? issued_tick)%N
                       || (ch_expires_at (pe_challenge pending) <=? issued_at)%Z)
      then set_pending None state else state) in
    let! state := read_state in
    stop OperatorAuthError.ChallengePending when is_some (st_pending state);
    let! challenge_id := new_id au in
    let! nonce := or_clear (env_fill_random (oa_environment au) ChallengeNonce 32) in
    let! expiry_tick := some_or_clear (checked_add u64_max issued_tick
                                         (CHALLENGE_TTL_SECONDS * 1000)) in
    let! expires_at := some_or_clear
        (utc_checked_add issued_at (Duration_seconds (Z.of_N CHALLENGE_TTL_SECONDS))) in
    let challenge := new_challenge au request granted challenge_id nonce issued_at expires_at in
    let! code := ok_or_clear (challenge_code challenge) in
    let! challenge_digest := ok_or_clear (challenge_signed_bytes_digest challenge) in
    let! _ := or_clear (append_audit au (issued_event au challenge_id challenge_digest)) in
    let! _ := update_state
        (set_pending (Some {| pe_challenge := challenge; pe_expiry_tick := expiry_tick;
                              pe_attestation := None |})) in
    ret {| ci_schema := "proof.operator.session.challenge-issue-response/v1";
           ci_challenge := challenge; ci_challenge_code := code |}).

Definition check_attestation (policy : AuthPolicy) (pending : PendingChallenge)
    (now : DateTime) (tick : N) (attestation : SessionAttestation)
    : result OperatorAuthError.t () :=
  bail OperatorAuthError.AuthenticationRequired
    when is_some (pe_attestation pending) || (pe_expiry_tick pending <=? tick)%N
         || (ch_expires_at (pe_challenge pending) <=? now)%Z
         || negb (bool_decide (at_schema attestation = "proof.operator.session.attestation/v1"))
         || negb (bool_decide (at_signature_algorithm attestation = "ed25519"))
         || negb (bool_decide (at_challenge attestation = pe_challenge pending))
         || negb (challenge_matches_policy (at_challenge attestation) policy);
  let? signing_bytes := map_err (λ _, OperatorAuthError.AuthenticationRequired)
                          (challenge_signing_bytes (at_challenge attestation)) in
  bail OperatorAuthError.AuthenticationRequired
    when negb (bool_decide (at_signed_bytes_digest attestation
                            = {| control_bytes := blake3 signing_bytes |}));
  let? signature := ok_or (decode_signature (at_signature attestation))
                      OperatorAuthError.AuthenticationRequired in
  bail OperatorAuthError.AuthenticationRequired
    when negb (ed25519_verify (ap_human_public_key policy) signing_bytes signature);
  Ok ().

Definition attest (attestation : SessionAttestation) (p : PendingChallenge) : PendingChallenge :=
  {| pe_challenge := pe_challenge p; pe_expiry_tick := pe_expiry_tick p;
     pe_attestation := Some attestation |}.

Definition submit_attestation au (attestation : SessionAttestation) : auth () :=
  locked OperatorAuthError.ControlUnavailable (
    let! now := or_clear (env_trusted_utc_now (oa_environment au)) in
    let! tick := or_clear (env_monotonic_millis (oa_environment au)) in
    let! state := read_state in
    let result :=
      let? pending := ok_or (st_pending state) OperatorAuthError.AuthenticationRequired in
      check_attestation (oa_policy au) pending now tick attestation in
    if is_err result then
      let! _ := update_state (set_pending None) in
      lift result
    else
      let! _ := lift result in
      update_state (λ state, set_pending (attest attestation <$> st_pending state) state)).

Definition consume_failed_challenge (challenge_id : Uuid) : auth () :=
  locked OperatorAuthError.ControlUnavailable (
    let! state := read_state in
    stop OperatorAuthError.AuthenticationRequired
      when negb (is_some_and (st_pending state)
                   (λ pending, bool_decide (ch_challenge_id (pe_challenge pending)
                                            = challenge_id)));
    update_state (set_pending None)).

Definition valid_exchange (policy : AuthPolicy) (request : SessionExchangeRequest)
    (now : DateTime) (tick : N) (pending : PendingChallenge) : bool :=
  let '(candidate_nonce, canonical_nonce) := decode_hex32 (xr_client_nonce request) in
  let challenge := pe_challenge pending in
  bool_decide (xr_schema request = "proof.operator.session.exchange-request/v1")
  && bool_decide (xr_challenge_id request = ch_challenge_id challenge)
  && is_some (pe_attestation pending) && (tick <? pe_expiry_tick pending)%N
  && (now <? ch_expires_at challenge)%Z && challenge_matches_policy challenge policy
  && bool_decide (ch_client_nonce_digest challenge = client_nonce_digest candidate_nonce)
  && canonical_nonce.

Definition new_binding au (session_id : Uuid) (granted : CapabilitySet)
    (now absolute_expires_at : DateTime) : SessionAuthorityBinding :=
  let policy := oa_policy au in
  {| sa_schema := SESSION_AUTHORITY_SCHEMA; sa_session_id := session_id;
     sa_workspace_id := ap_workspace_id policy;
     sa_server_instance_id := ap_server_instance_id policy;
     sa_human_id := ap_human_id policy; sa_auth_epoch := ap_auth_epoch policy;
     sa_policy_revision := ap_policy_revision policy; sa_origin := ap_origin policy;
     sa_granted_capabilities := granted; sa_issued_at := now;
     sa_absolute_expires_at := absolute_expires_at |}.

Definition authorized_of (b : SessionAuthorityBinding) (digest : ControlDigest)
    : AuthorizedSession :=
  {| az_session_id := sa_session_id b; az_workspace_id := sa_workspace_id b;
     az_server_instance_id := sa_server_instance_id b; az_human_id := sa_human_id b;
     az_auth_epoch := sa_auth_epoch b; az_policy_revision := sa_policy_revision b;
     az_origin := sa_origin b; az_granted_capabilities := sa_granted_capabilities b;
     az_issued_at := sa_issued_at b; az_absolute_expires_at := sa_absolute_expires_at b;
     az_authority_digest := digest |}.

Definition session_event au (challenge_id session_id : Uuid) (replaced : option Uuid)
    (challenge_digest authority_digest : ControlDigest) : ControlAuditAppendRequest :=
  let policy := oa_policy au in
  {| ca_schema := APPEND_REQUEST_SCHEMA; ca_workspace_id := ap_workspace_id policy;
     ca_server_instance_id := ap_server_instance_id policy;
     ca_kind := if is_some replaced then AuthorityEvent.SessionReplaced
                else AuthorityEvent.SessionIssued;
     ca_human_id := Some (ap_human_id policy); ca_session_id := Some session_id;
     ca_challenge_id := Some challenge_id; ca_challenge_digest := Some challenge_digest;
     ca_session_authority_digest := Some authority_digest; ca_related_session_id := replaced;
     ca_auth_epoch := Some (ap_auth_epoch policy);
     ca_policy_revision := Some (ap_policy_revision policy) |}.

(** The part of [exchange] after the pending challenge has been taken. *)
Definition open_session au (challenge : SessionChallenge) (now : DateTime) (tick : N)
    : auth SessionExchangeResponse :=
  let policy := oa_policy au in
  let! session_id := new_id au in
  let! token := or_clear (env_fill_random (oa_environment au) SessionToken_ 32) in
  let! absolute_tick := some_or_clear (checked_add u64_max tick
                                         (SESSION_ABSOLUTE_TTL_SECONDS * 1000)) in
  let! idle_tick := some_or_clear (checked_add u64_max tick
                                     (SESSION_IDLE_TTL_SECONDS * 1000)) in
  let! absolute_expires_at := some_or_clear
      (utc_checked_add now (Duration_seconds (Z.of_N SESSION_ABSOLUTE_TTL_SECONDS))) in
  let! idle_expires_at := some_or_clear
      (utc_checked_add now (Duration_seconds (Z.of_N SESSION_IDLE_TTL_SECONDS))) in
  let binding := new_binding au session_id (ch_granted_capabilities challenge) now
                   absolute_expires_at in
  let! canonical := some_or_clear (canonical_text (authority_value binding)) in
  let authority_digest := control_digest AUTHORITY_DOMAIN canonical in
  let token_digest := secret_digest TOKEN_DOMAIN token in
  let authorized := authorized_of binding authority_digest in
  let! state := read_state in
  let replaced_session_id := az_session_id ∘ av_authority <$> st_session state in
  let! challenge_digest := ok_or_clear (challenge_signed_bytes_digest challenge) in
  let! _ := or_clear (append_audit au
      (session_event au (ch_challenge_id challenge) session_id replaced_session_id
         challenge_digest authority_digest)) in
  let! _ := update_state
      (set_session (Some {| av_authority := authorized; av_token_digest := token_digest;
                            av_absolute_expiry_tick := absolute_tick;
                            av_idle_expiry_tick := idle_tick |})) in
  ret {| xs_schema := "proof.operator.session.exchange-response/v1";
         xs_session_id := session_id; xs_session_token := token;
         xs_workspace_id := ap_workspace_id policy;
         xs_server_instance_id := ap_server_instance_id policy;
         xs_human_id := ap_human_id policy; xs_auth_epoch := ap_auth_epoch policy;
         xs_policy_revision := ap_policy_revision policy;
         xs_granted_capabilities := sa_granted_capabilities binding; xs_issued_at := now;
         xs_absolute_expires_at := absolute_expires_at;
         xs_idle_expires_at := idle_expires_at |}.

Definition exchange au (request : SessionExchangeRequest) : auth SessionExchangeResponse :=
  locked OperatorAuthError.ControlUnavailable (
    let! now := or_clear (env_trusted_utc_now (oa_environment au)) in
    let! tick := or_clear (env_monotonic_millis (oa_environment au)) in
    let! state := read_state in
    let valid := is_some_and (st_pending state)
                   (valid_exchange (oa_policy au) request now tick) in
    let pending := st_pending state in
    let! _ := update_state (set_pending None) in
    stop OperatorAuthError.AuthenticationRequired when negb valid;
    let! pending := lift (expect pending) in
    open_session au (pe_challenge pending) now tick).

Definition expired_event au (expired : ActiveSession) : ControlAuditAppendRequest :=
  let policy := oa_policy au in
  {| ca_schema := APPEND_REQUEST_SCHEMA; ca_workspace_id := ap_workspace_id policy;
     ca_server_instance_id := ap_server_instance_id policy;
     ca_kind := AuthorityEvent.SessionExpired;
     ca_human_id := Some (ap_human_id policy);
     ca_session_id := Some (az_session_id (av_authority expired)); ca_challenge_id := None;
     ca_challenge_digest := None;
     ca_session_authority_digest := Some (az_authority_digest (av_authority expired));
     ca_related_session_id := None; ca_auth_epoch := Some (ap_auth_epoch policy);
     ca_policy_revision := Some (ap_policy_revision policy) |}.

Definition session_expired (tick : N) (a : ActiveSession) : bool :=
  (av_absolute_expiry_tick a <=? tick)%N || (av_idle_expiry_tick a <=? tick)%N.

(** The first part of [authenticate_locked]. *)
Definition expire_session au (tick : N) : auth () :=
  let! state := read_state in
  match st_session state with
  | Some expired =>
      if session_expired tick expired then
        let! _ := update_state (set_session None) in
        or_clear (append_audit au (expired_event au expired))
      else ret ()
  | None => ret ()
  end.

Definition zeros : string := String.string_of_list_ascii (replicate 32 "000"%char).

(** The presented token against the expected digest, which is zero without a session. *)
Definition token_accepted (header_values : list string) (session : option ActiveSession) : bool :=
  let selected := match header_values with [value] => value | _ => EmptyString end in
  let '(candidate, canonical) := decode_hex32 selected in
  let expected := match session with Some a => av_token_digest a | None => zeros end in
  canonical && (length header_values =? 1)
  && bool_decide (expected = secret_digest TOKEN_DOMAIN candidate).

Definition session_matches_policy (a : AuthorizedSession) (p : AuthPolicy) : bool :=
  bool_decide (az_workspace_id a = ap_workspace_id p)
  && bool_decide (az_server_instance_id a = ap_server_instance_id p)
  && bool_decide (az_human_id a = ap_human_id p)
  && (az_auth_epoch a =? ap_auth_epoch p)%N && (az_policy_revision a =? ap_policy_revision p)%N
  && bool_decide (az_origin a = ap_origin p).

Definition authenticate_locked au (header_values : list string)
    (required : option CapabilitySet) : auth (AuthorizedSession * N) :=
  let! tick := or_clear (env_monotonic_millis (oa_environment au)) in
  let! _ := expire_session au tick in
  let! state := read_state in
  let accepted := token_accepted header_values (st_session state) in
  let! active := lift (ok_or (st_session state) OperatorAuthError.AuthenticationRequired) in
  stop OperatorAuthError.AuthenticationRequired
    when negb accepted || negb (session_matches_policy (av_authority active) (oa_policy au));
  stop OperatorAuthError.CapabilityRequired
    when is_some_and required
           (λ required, negb (forallb (CapabilitySet_contains
                                         (az_granted_capabilities (av_authority active)))
                                (capabilities required)));
  let! deadline := some_or_clear (checked_add u64_max tick (SESSION_IDLE_TTL_SECONDS * 1000)) in
  ret (av_authority active, deadline `min` av_absolute_expiry_tick active)%N.

Definition as_auth {E A} (c : auth A) : guarded (AuthorizedCallError E) A := call_map_err Auth c.

Definition authorize_inner {T E} au (header_values : list string)
    (required : option CapabilitySet) (callback : AuthorizedSession → call S E T)
    : guarded (AuthorizedCallError E) T :=
  locked (Auth OperatorAuthError.ControlUnavailable) (
    let! authenticated := as_auth (authenticate_locked au header_values required) in
    let '(authority, refreshed_idle_tick) := authenticated in
    let! result := call_map_err Callback (outside (callback authority)) in
    let! _ := update_state (λ state,
      match st_session state with
      | Some active =>
          if decide (az_session_id (av_authority active) = az_session_id authority)
          then set_session (Some (refresh_idle refreshed_idle_tick active)) state
          else state
      | None => state
      end) in
    ret result).

Definition authorize_with {T E} au (header_values : list string) (required : CapabilitySet)
    (callback : AuthorizedSession → call S E T) : guarded (AuthorizedCallError E) T :=
  stop (Auth OperatorAuthError.InvalidRequest) when negb (is_canonical_capability_set required);
  authorize_inner au header_values (Some required) callback.

Definition authorize_any_with {T E} au (header_values : list string)
    (callback : AuthorizedSession → call S E T) : guarded (AuthorizedCallError E) T :=
  authorize_inner au header_values None callback.

Definition revoke_with {T E} au (header_values : list string)
    (durable_revoke : AuthorizedSession → call S E T) : guarded (AuthorizedCallError E) T :=
  locked (Auth OperatorAuthError.ControlUnavailable) (
    let! authenticated := as_auth (authenticate_locked au header_values None) in
    let! result := attempt (outside (durable_revoke authenticated.1)) in
    match result with
    | Ok value =>
        let! _ := update_state (set_session None) in
        ret value
    | Err error =>
        let! _ := update_state (λ _, AuthState_default) in
        throw (Callback error)
    | Panic => lift Panic
    end).

Definition shutdown_event au : ControlAuditAppendRequest :=
  {| ca_schema := APPEND_REQUEST_SCHEMA; ca_workspace_id := ap_workspace_id (oa_policy au);
     ca_server_instance_id := ap_server_instance_id (oa_policy au);
     ca_kind := AuthorityEvent.ControlShutdown; ca_human_id := None; ca_session_id := None;
     ca_challenge_id := None; ca_challenge_digest := None;
     ca_session_authority_digest := None; ca_related_session_id := None;
     ca_auth_epoch := None; ca_policy_revision := None |}.

Definition invalidate_for_shutdown au : auth () :=
  locked OperatorAuthError.ControlUnavailable (
    let! _ := or_clear (append_audit au (shutdown_event au)) in
    update_state (λ _, AuthState_default)).

End authority.
