(* ===== verification/OperatorAuthProofs.v ===== *)
(** * What operator authentication guarantees

    The theorems on the model of [crates/proof-operator-auth] in [OperatorAuth], for every
    sequence of calls of the authority, interleaved with arbitrary changes of the world
    outside ([auth_reach]).

    - [session_needs_attestation]: a session is opened only for a challenge that the
      authority issued and that the enrolled human signed, once, with the client's nonce,
      both before the challenge expired.
    - [session_authorizes]: a protected callback runs only for the holder of the token of
      the last session, with its capabilities, and before both deadlines.
    - [token_text_exact]: the constant-time decoder accepts exactly the texts that the
      encoder writes, and agrees with the decoder that stops early. *)

From S2P Require Import Prelude RustStr Externals Json Canonical Serialized Evidence.
From S2P Require Import OperatorCommon StrictDigest OperatorEnvironment Durable AuditChain.
From S2P Require Import OperatorAuth.
From stdpp Require Import options.

(** ** Texts of tokens *)

Lemma encode_hex_control s : encode_hex s = control_hex s.
Proof. induction s as [|b s IH]; cbn; [done|]. by rewrite IH. Qed.

Lemma decode_hex_nibble_lower c :
  decode_hex_nibble c = if is_lower_hex c then Some (to_digit16 c) else None.
Proof. by destruct c as [[] [] [] [] [] [] [] []]. Qed.

Lemma decode_nibble_spec c :
  match decode_nibble c with
  | (n, true) => decode_hex_nibble c = Some n
  | (_, false) => decode_hex_nibble c = None
  end.
Proof. by destruct c as [[] [] [] [] [] [] [] []]. Qed.

(** Two bytes further in the input are one pair further in the output. *)
Lemma decode_bytes_shift count index a b s :
  decode_bytes count (S index) (String a (String b s)) = decode_bytes count index s.
Proof.
  revert index. induction count as [|count IH]; intros index; cbn [decode_bytes]; [done|].
  rewrite IH. unfold input_byte.
  replace (S index * 2) with (S (S (index * 2))) by lia.
  by replace (S (S (index * 2)) + 1) with (S (S (index * 2 + 1))) by lia.
Qed.

Lemma decode_bytes_pairs n s :
  String.length s = 2 * n →
  match decode_bytes n 0 s with
  | (b, true) => decode_hex_pairs s = Some b
  | (_, false) => decode_hex_pairs s = None
  end.
Proof.
  revert s. induction n as [|n IH]; intros s L; [by destruct s|].
  destruct s as [|h [|l s]]; [cbn in L; lia..|]. cbn [decode_bytes decode_hex_pairs].
  rewrite decode_bytes_shift. cbn [input_byte String.get Nat.mul Nat.add].
  pose proof (decode_nibble_spec h) as Hh. pose proof (decode_nibble_spec l) as Hl.
  assert (L' : String.length s = 2 * n) by (cbn in L; lia). specialize (IH s L').
  unfold input_byte; cbn [String.get].
  destruct (decode_nibble h) as [high []]; rewrite Hh;
    destruct (decode_nibble l) as [low []]; cbn; rewrite ?Hl; cbn;
    destruct (decode_bytes n 0 s) as [rest []]; cbn; by rewrite ?IH.
Qed.

Lemma decode_hex_pairs_parse n s b :
  String.length s = 2 * n →
  decode_hex_pairs s = Some b ↔ all_bytes is_lower_hex s = true ∧ parse_pairs s = Ok b.
Proof.
  revert s b. induction n as [|n IH]; intros s b L; [destruct s; cbn; naive_solver|].
  destruct s as [|h [|l s]]; [cbn in L; lia..|].
  assert (L' : String.length s = 2 * n) by (cbn in L; lia).
  cbn [decode_hex_pairs parse_pairs all_bytes]. rewrite !decode_hex_nibble_lower.
  destruct (is_lower_hex h) eqn:Eh; cbn; [|naive_solver].
  destruct (is_lower_hex l) eqn:El; cbn; [|naive_solver].
  rewrite !nibble_lower by done. cbn. specialize (IH s).
  destruct (decode_hex_pairs s) as [rest|]; cbn.
  - destruct (IH rest L') as [[-> ->] _]; [done|]. cbn. naive_solver.
  - split; [done|]. intros [A P]. apply rbind_Ok in P as (rest & P & _).
    destruct (IH rest L') as [_ I]. by specialize (I (conj A P)).
Qed.

Lemma decode_hex32_exact s b :
  decode_hex32 s = (b, true) ↔ String.length b = 32 ∧ s = encode_hex b.
Proof.
  rewrite encode_hex_control, <- parse_hex32_exact. unfold decode_hex32, parse_hex32.
  destruct (String.length s =? 64) eqn:L; cycle 1.
  { apply Nat.eqb_neq in L. rewrite bool_decide_false by done.
    destruct (decode_bytes 32 0 s). cbn. naive_solver. }
  apply Nat.eqb_eq in L. rewrite bool_decide_true by done. cbn [negb orb].
  rewrite bail_Ok, negb_false_iff, <- (decode_hex_pairs_parse 32) by done.
  pose proof (decode_bytes_pairs 32 s L) as D.
  destruct (decode_bytes 32 0 s) as [b' []]; rewrite D; cbn; naive_solver.
Qed.

(** Session tokens as text.  The constant-time decoder of request headers accepts a text
    exactly if it is the lowercase hexadecimal form of 32 bytes, and then returns those
    bytes; it agrees with the decoder of the wire form, which stops at the first bad
    digit. *)
Theorem token_text_exact (s b : string) :
  (decode_hex32 s = (b, true) ↔ String.length b = 32 ∧ s = encode_hex b)
  ∧ (token_decode_hex32 s = Some b ↔ decode_hex32 s = (b, true)).
Proof.
  split; [apply decode_hex32_exact|]. unfold decode_hex32, token_decode_hex32.
  destruct (String.length s =? 64) eqn:L; [apply Nat.eqb_eq in L|].
  - pose proof (decode_bytes_pairs 32 s L) as D.
    destruct (decode_bytes 32 0 s) as [b' []]; rewrite D; cbn; naive_solver.
  - destruct (decode_bytes 32 0 s). cbn. naive_solver.
Qed.

(** ** How a call ends

    [ends c Q F g]: from [g] the call [c] returns a value that satisfies [Q], or fails in
    a state that satisfies [F]; a panic is the failure [None]. *)

Section ends.
Context {S : Type}.
Implicit Types (g : Guarded S) (w : S) (st : AuthState).

Definition ends {E A} (c : call (Guarded S) E A) (Q : A → Guarded S → Prop)
    (F : option E → Guarded S → Prop) g : Prop :=
  match c g with
  | (Ok a, g') => Q a g'
  | (Err e, g') => F (Some e) g'
  | (Panic, g') => F None g'
  end.

Definition guard w st : Guarded S := {| gd_world := w; gd_state := st; gd_poisoned := false |}.
Definition poison g : Guarded S :=
  {| gd_world := gd_world g; gd_state := gd_state g; gd_poisoned := true |}.

Lemma ends_cbind {E A B} (c : call (Guarded S) E A) (k : A → call _ E B) Q F g :
  ends c (λ a, ends (k a) Q F) F g → ends (cbind c k) Q F g.
Proof. unfold ends, cbind. destruct (c g) as [[] ?]; auto. Qed.

Lemma ends_mono {E A} (c : call (Guarded S) E A) (Q Q' : A → Guarded S → Prop)
    (F F' : option E → Guarded S → Prop) g :
  ends c Q F g → (∀ a g', Q a g' → Q' a g') → (∀ e g', F e g' → F' e g') → ends c Q' F' g.
Proof. unfold ends. destruct (c g) as [[] ?]; auto. Qed.

Lemma ends_stop {E A} (b : bool) (e : E) (c : call (Guarded S) E A) Q (F : option E → _ → Prop) g :
  (b = true → F (Some e) g) → (b = false → ends c Q F g) →
  ends (if b then throw e else c) Q F g.
Proof. destruct b; intros Ht Hf; [by apply Ht|by apply Hf]. Qed.

Lemma ends_ret {E A} (a : A) (Q : A → _ → Prop) (F : option E → _ → Prop) g :
  Q a g → ends (ret a) Q F g.
Proof. done. Qed.

Lemma ends_throw {E A} (e : E) (Q : A → _ → Prop) (F : option E → _ → Prop) g :
  F (Some e) g → ends (throw e) Q F g.
Proof. done. Qed.

Lemma ends_lift {E A} (r : result E A) (Q : A → _ → Prop) (F : option E → _ → Prop) g :
  (∀ a, r = Ok a → Q a g) → (∀ e, r = Err e → F (Some e) g) → (r = Panic → F None g) →
  ends (lift r) Q F g.
Proof. unfold ends, lift. destruct r; auto. Qed.

Lemma ends_map_err {E E' A} (f : E → E') (c : call (Guarded S) E A) Q (F : option E' → _ → Prop) g :
  ends c Q (λ e, F (f <$> e)) g → ends (call_map_err f c) Q F g.
Proof. unfold ends, call_map_err. destruct (c g) as [[] ?]; auto. Qed.

Lemma ends_update {E} (f : AuthState → AuthState) (Q : () → _ → Prop) (F : option E → _ → Prop) w st :
  Q () (guard w (f st)) → ends (update_state f) Q F (guard w st).
Proof. done. Qed.

Lemma ends_read {E} (Q : AuthState → _ → Prop) (F : option E → _ → Prop) w st :
  Q st (guard w st) → ends read_state Q F (guard w st).
Proof. done. Qed.

Lemma ends_outside {E A} (c : call S E A) (Q : A → _ → Prop) (F : option E → _ → Prop) w st :
  (∀ a w', c w = (Ok a, w') → Q a (guard w' st)) →
  (∀ e w', c w = (Err e, w') → F (Some e) (guard w' st)) →
  (∀ w', c w = (Panic, w') → F None (guard w' st)) →
  ends (outside c) Q F (guard w st).
Proof.
  unfold ends, outside. cbn. destruct (c w) as [[] ?]; intros Ho He Hp;
    [by apply Ho|by apply He|by apply Hp].
Qed.

Lemma ends_clear {A} (Q : A → _ → Prop) (F : option OperatorAuthError.t → _ → Prop) w st :
  F (Some OperatorAuthError.ControlUnavailable) (guard w AuthState_default) →
  ends clear_unavailable Q F (guard w st).
Proof. done. Qed.

Lemma ends_ok_or_clear {E A} (r : result E A) (Q : A → _ → Prop) (F : option _ → _ → Prop) w st :
  (∀ a, r = Ok a → Q a (guard w st)) →
  F (Some OperatorAuthError.ControlUnavailable) (guard w AuthState_default) →
  F None (guard w st) →
  ends (ok_or_clear r) Q F (guard w st).
Proof. destruct r; intros Ho He Hp; [by apply Ho|done..]. Qed.

Lemma ends_some_or_clear {A} (o : option A) (Q : A → _ → Prop) (F : option _ → _ → Prop) w st :
  (∀ a, o = Some a → Q a (guard w st)) →
  F (Some OperatorAuthError.ControlUnavailable) (guard w AuthState_default) →
  F None (guard w st) →
  ends (some_or_clear o) Q F (guard w st).
Proof. destruct o; intros Ho He Hp; [by apply Ho|done]. Qed.

Lemma ends_or_clear {E A} (c : call S E A) (Q : A → _ → Prop) (F : option _ → _ → Prop) w st :
  (∀ a w', c w = (Ok a, w') → Q a (guard w' st)) →
  (∀ w', F (Some OperatorAuthError.ControlUnavailable) (guard w' AuthState_default)) →
  (∀ w', c w = (Panic, w') → F None (guard w' st)) →
  ends (or_clear c) Q F (guard w st).
Proof.
  unfold ends, or_clear, cbind, attempt, outside. cbn.
  destruct (c w) as [[] w'] eqn:Ec; intros Ho He Hp; [by apply Ho|apply He|by apply Hp].
Qed.

Lemma ends_locked {E A} (u : E) (body : call (Guarded S) E A) Q (F : option E → _ → Prop) g :
  (gd_poisoned g = true → F (Some u) g) →
  (gd_poisoned g = false →
   ends body Q (λ e g', F e (if is_Some_dec e then g' else poison g')) g) →
  ends (locked u body) Q F g.
Proof.
  unfold ends, locked. destruct (gd_poisoned g); [auto|]. intros _ B. specialize (B eq_refl).
  destruct (body g) as [[] g'']; cbn in *; auto.
Qed.

End ends.

(** ** The calls one by one *)

(** What a failed call may have lost. *)
Definition lost (st st' : AuthState) : Prop :=
  (st_pending st' = st_pending st ∨ st_pending st' = None)
  ∧ (st_session st' = st_session st ∨ st_session st' = None).

Definition failed {S} (st : AuthState) (e : option OperatorAuthError.t) (g : Guarded S) : Prop :=
  lost st (gd_state g)
  ∧ (e = Some OperatorAuthError.ControlUnavailable →
     gd_poisoned g = true ∨ gd_state g = AuthState_default)
  ∧ (e = None → gd_poisoned g = true).

(** Takes a call apart; what remains are the facts about the value it returns, and
    failures that [failed] does not settle at once. *)
Ltac ends_step :=
  lazymatch goal with
  | |- ends (cbind _ _) _ _ _ => apply ends_cbind
  | |- ends (if _ then throw _ else _) _ _ _ => apply ends_stop; intros ?
  | |- ends (lift _) _ _ _ => apply ends_lift; intros; simplify_eq/=
  | |- ends (or_clear _) _ _ _ => apply ends_or_clear; intros
  | |- ends (ok_or_clear _) _ _ _ => apply ends_ok_or_clear; intros
  | |- ends (some_or_clear _) _ _ _ => apply ends_some_or_clear; intros
  | |- ends (update_state _) _ _ _ => apply ends_update
  | |- ends read_state _ _ _ => apply ends_read
  | |- ends clear_unavailable _ _ _ => apply ends_clear
  | |- ends (ret _) _ _ _ => apply ends_ret
  | |- ends (throw _) _ _ _ => apply ends_throw
  end.

Ltac failed_tac :=
  solve [ unfold failed, lost; cbn; repeat split; first [by auto | by intros [=]] ].

Ltac ends_tac := repeat (cbv zeta; first [ends_step | failed_tac]).

Section calls.
Context {S : Type} `{Externals} `{OperatorExternals} `{AuthExternals}.
Implicit Types (au : OperatorAuthAuthority S) (g : Guarded S) (w : S).

Lemma ends_locked_at {A} (body : call (Guarded S) OperatorAuthError.t A)
    (Q : A → Guarded S → Prop) g :
  (∀ w, gd_poisoned g = false → g = guard w (gd_state g) →
   ends body Q (λ e g', failed (gd_state g) e (if is_Some_dec e then g' else poison g'))
     (guard w (gd_state g))) →
  ends (locked OperatorAuthError.ControlUnavailable body) Q (failed (gd_state g)) g.
Proof.
  intros B. apply ends_locked; intros P.
  - unfold failed, lost. naive_solver.
  - destruct g as [w st p]; cbn in *. subst p. by apply (B w).
Qed.

Lemma new_id_ends au (Q : Uuid → Guarded S → Prop) (F : option _ → Guarded S → Prop) w st :
  (∀ id w', env_new_uuid_v7 (oa_environment au) w = (Ok id, w') → uuid_is_v7 id = true →
            Q id (guard w' st)) →
  (∀ w', F (Some OperatorAuthError.ControlUnavailable) (guard w' AuthState_default)) →
  (∀ w', env_new_uuid_v7 (oa_environment au) w = (Panic, w') → F None (guard w' st)) →
  ends (new_id au) Q F (guard w st).
Proof.
  intros HQ HF HP. unfold new_id. apply ends_cbind, ends_or_clear; auto.
  intros id w' E. destruct (uuid_is_v7 id) eqn:V; [by apply HQ|apply HF].
Qed.

(** The trusted time and the monotonic time that a call reads.  [issue_challenge],
    [submit_attestation] and [exchange] read the first and then the second,
    [authenticate_locked] the second only. *)
Definition clock_now au w : DateTime :=
  match (env_trusted_utc_now (oa_environment au) w).1 with Ok now => now | _ => 0%Z end.
Definition clock_tick au w : N :=
  match (env_monotonic_millis (oa_environment au) w).1 with Ok tick => tick | _ => 0%N end.
Definition exchange_tick au w : N :=
  clock_tick au (env_trusted_utc_now (oa_environment au) w).2.

(** What an issued challenge says: it is bound to the policy, and the capabilities it
    grants are requested, enrolled and supported. *)
Definition capabilities_within (granted : CapabilitySet) (p : AuthPolicy)
    (requested : CapabilitySet) : Prop :=
  ∀ c, c ∈ capabilities granted →
    c ∈ capabilities requested
    ∧ CapabilitySet_contains (ap_enrolled_capabilities p) c = true
    ∧ CapabilitySet_contains (ap_workspace_capabilities p) c = true
    ∧ CapabilitySet_contains (ap_supported_capabilities p) c = true.

Lemma intersect_within requested p granted :
  intersect_capabilities requested (ap_enrolled_capabilities p)
    (ap_workspace_capabilities p) (ap_supported_capabilities p) = Ok granted →
  capabilities_within granted p requested.
Proof.
  unfold intersect_capabilities, CapabilitySet_new. intros E c. res_inv. cbn [capabilities].
  rewrite list_elem_of_In, filter_In, <- list_elem_of_In. intros [I T]. by res_inv.
Qed.

Lemma intersect_fails requested enrolled policy supported :
  intersect_capabilities requested enrolled policy supported
  = Err OperatorAuthError.InvalidRequest
  ∨ is_ok (intersect_capabilities requested enrolled policy supported) = true.
Proof.
  unfold intersect_capabilities, CapabilitySet_new.
  destruct (_ || _); [by left|]. destruct (negb _); [by left|by right].
Qed.

Definition issued_of (p : AuthPolicy) (request : ChallengeIssueRequest)
    (c : SessionChallenge) : Prop :=
  ch_client_nonce_digest c = cr_client_nonce_digest request
  ∧ ch_requested_capabilities c = cr_requested_capabilities request
  ∧ utc_checked_add (ch_issued_at c) (Duration_seconds (Z.of_N CHALLENGE_TTL_SECONDS))
    = Some (ch_expires_at c)
  ∧ capabilities_within (ch_granted_capabilities c) p (ch_requested_capabilities c).

Lemma issue_ends au request g :
  ends (issue_challenge au request)
    (λ r g', gd_poisoned g = false
             ∧ st_session (gd_state g') = st_session (gd_state g)
             ∧ issued_of (oa_policy au) request (ci_challenge r)
             ∧ st_pending (gd_state g')
               = Some {| pe_challenge := ci_challenge r;
                         pe_expiry_tick := exchange_tick au (gd_world g) + 120000;
                         pe_attestation := None |}%N)
    (failed (gd_state g)) g.
Proof.
  unfold issue_challenge. ends_step; [failed_tac|]. ends_step.
  match goal with |- ends (lift (intersect_capabilities ?r ?e ?p ?s)) _ _ _ =>
    pose proof (intersect_fails r e p s) as I end.
  destruct (intersect_capabilities _ _ _ _) as [granted|e|] eqn:G;
    [clear I|destruct I as [[= ->]|[=]]; unfold ends; failed_tac|by destruct I].
  apply ends_locked_at. intros w P Eg.
  assert (gd_world g = w) as -> by (by rewrite Eg). clear Eg. unfold exchange_tick, clock_tick.
  destruct (gd_state g) as [pending session].
  ends_step. ends_step; [|failed_tac..].
  ends_step. ends_step; [|failed_tac..]. ends_step. ends_step.
  match goal with |- context [guard _ (if ?b then _ else ?st)] =>
    set (st' := if b then set_pending None st else st) end.
  assert (L : lost {| st_pending := pending; st_session := session |} st'
              ∧ st_session st' = session).
  { unfold st', lost. destruct (is_some_and _ _); cbn; auto. }
  clearbody st'. destruct L as [[L1 L2] L3].
  ends_step. ends_step. ends_step; [failed_tac|].
  ends_step. apply new_id_ends; [|intros; failed_tac..]. intros id w2 _ V.
  ends_tac; try failed_tac.
  match goal with X : checked_add _ _ _ = Some _ |- _ => apply checked_add_Some in X as [-> _] end.
  repeat (match goal with X : _ = (_, _) |- _ => rewrite X; clear X end; cbn [fst snd]).
  cbn. split; [done|]. split; [done|]. split; [|done].
  split; [done|]. split; [done|]. split; [done|]. by apply intersect_within.
Qed.

(** What an accepted attestation says. *)
Definition signed_by_human (p : AuthPolicy) (a : SessionAttestation) : Prop :=
  ∃ bytes signature,
    challenge_signing_bytes (at_challenge a) = Ok bytes
    ∧ decode_signature (at_signature a) = Some signature
    ∧ ed25519_verify (ap_human_public_key p) bytes signature = true.

Lemma check_attestation_Ok p pending now tick a :
  check_attestation p pending now tick a = Ok () →
  pe_attestation pending = None ∧ at_challenge a = pe_challenge pending
  ∧ (now < ch_expires_at (pe_challenge pending))%Z ∧ (tick < pe_expiry_tick pending)%N
  ∧ signed_by_human p a.
Proof.
  unfold check_attestation. intros E. res_inv.
  destruct (pe_attestation pending); [done|]. repeat split; try done;
    [by apply Z.leb_gt|by apply N.leb_gt|].
  eexists _, _. eauto.
Qed.

Lemma check_attestation_fails p pending now tick a e :
  check_attestation p pending now tick a = Err e → e = OperatorAuthError.AuthenticationRequired.
Proof.
  unfold check_attestation, challenge_signing_bytes.
  destruct (_ || _); [by intros [= <-]|].
  destruct (canonical_text _); cbn; [|by intros [= <-]].
  destruct (negb _); [by intros [= <-]|].
  destruct (decode_signature _); cbn; [|by intros [= <-]].
  destruct (negb _); [by intros [= <-]|done].
Qed.

Lemma attest_ends au a g :
  ends (submit_attestation au a)
    (λ _ g', gd_poisoned g = false ∧ st_session (gd_state g') = st_session (gd_state g)
             ∧ signed_by_human (oa_policy au) a
             ∧ ∃ p, st_pending (gd_state g) = Some p ∧ pe_attestation p = None
                    ∧ at_challenge a = pe_challenge p
                    ∧ (clock_now au (gd_world g) < ch_expires_at (pe_challenge p))%Z
                    ∧ (exchange_tick au (gd_world g) < pe_expiry_tick p)%N
                    ∧ st_pending (gd_state g') = Some (attest a p))
    (failed (gd_state g)) g.
Proof.
  unfold submit_attestation. apply ends_locked_at. intros w P Eg.
  assert (gd_world g = w) as -> by (by rewrite Eg). clear Eg.
  unfold exchange_tick, clock_tick, clock_now.
  destruct (gd_state g) as [pending session].
  ends_step. ends_step; [|failed_tac..]. ends_step. ends_step; [|failed_tac..].
  ends_step. ends_step. cbn [st_pending].
  destruct pending as [p|]; cbn [ok_or rbind]; [|ends_tac; failed_tac].
  destruct (check_attestation _ _ _ _ _) as [[]|e|] eqn:C; cbn [is_err].
  - apply check_attestation_Ok in C as (N & A & T & K & V). ends_tac.
    repeat (match goal with X : _ = (_, _) |- _ => rewrite X; clear X end; cbn [fst snd]).
    cbn. repeat split; eauto 10.
  - apply check_attestation_fails in C as ->. ends_tac; failed_tac.
  - ends_tac; failed_tac.
Qed.

Lemma consume_ends id g :
  ends (consume_failed_challenge id)
    (λ _ g', lost (gd_state g) (gd_state g')) (failed (gd_state g)) g.
Proof.
  unfold consume_failed_challenge. apply ends_locked_at. intros w P _.
  ends_step. ends_step. ends_step; [failed_tac|]. ends_step. unfold lost. cbn. auto.
Qed.

Definition opened (au : OperatorAuthAuthority S) (request : SessionExchangeRequest)
    (r : SessionExchangeResponse) (tick : N) (p : PendingChallenge) (a : ActiveSession) : Prop :=
  is_Some (pe_attestation p)
  ∧ xr_challenge_id request = ch_challenge_id (pe_challenge p)
  ∧ (∃ nonce, decode_hex32 (xr_client_nonce request) = (nonce, true)
              ∧ ch_client_nonce_digest (pe_challenge p) = client_nonce_digest nonce)
  ∧ (tick < pe_expiry_tick p)%N ∧ (xs_issued_at r < ch_expires_at (pe_challenge p))%Z
  ∧ xs_granted_capabilities r = ch_granted_capabilities (pe_challenge p)
  ∧ az_session_id (av_authority a) = xs_session_id r
  ∧ az_granted_capabilities (av_authority a) = xs_granted_capabilities r
  ∧ av_token_digest a = secret_digest TOKEN_DOMAIN (xs_session_token r)
  ∧ av_absolute_expiry_tick a = (tick + 900000)%N
  ∧ av_idle_expiry_tick a = (tick + 300000)%N.

Lemma valid_exchange_true p request now tick pending :
  valid_exchange p request now tick pending = true →
  is_Some (pe_attestation pending)
  ∧ xr_challenge_id request = ch_challenge_id (pe_challenge pending)
  ∧ (∃ nonce, decode_hex32 (xr_client_nonce request) = (nonce, true)
              ∧ ch_client_nonce_digest (pe_challenge pending) = client_nonce_digest nonce)
  ∧ (tick < pe_expiry_tick pending)%N ∧ (now < ch_expires_at (pe_challenge pending))%Z.
Proof.
  unfold valid_exchange. destruct (decode_hex32 _) as [nonce canonical]. intros V. res_inv. presence.
  split; [by eexists|]. split; [done|]. split; [by eauto|].
  split; [by apply N.ltb_lt|by apply Z.ltb_lt].
Qed.

Lemma exchange_ends au request g :
  ends (exchange au request)
    (λ r g', gd_poisoned g = false
             ∧ ∃ p a, st_pending (gd_state g) = Some p
                      ∧ gd_state g' = {| st_pending := None; st_session := Some a |}
                      ∧ opened au request r (exchange_tick au (gd_world g)) p a)
    (failed (gd_state g)) g.
Proof.
  unfold exchange. apply ends_locked_at. intros w P Eg.
  assert (gd_world g = w) as -> by (by rewrite Eg). clear Eg. unfold exchange_tick, clock_tick.
  destruct (gd_state g) as [pending session].
  ends_step. ends_step; [|failed_tac..]. ends_step. ends_step; [|failed_tac..].
  ends_step. ends_step. ends_step. ends_step. cbn [st_pending]. ends_step; [failed_tac|].
  destruct pending as [p|]; [|done]. cbn [is_some_and] in *. res_inv.
  match goal with V : valid_exchange _ _ _ _ _ = true |- _ =>
    apply valid_exchange_true in V as (V1 & V2 & V3 & V4 & V5) end.
  ends_step. cbn [expect]. ends_step. unfold open_session. ends_step.
  apply new_id_ends; [|intros; failed_tac..]. intros id w2 _ V. ends_tac.
  repeat match goal with X : checked_add _ _ _ = Some _ |- _ =>
    apply checked_add_Some in X as [-> _] end.
  split; [done|]. eexists _, _. split; [done|]. split; [done|].
  repeat (match goal with X : _ = (_, _) |- _ => rewrite X end; cbn [fst snd]).
  repeat split; eauto.
Qed.

Lemma shutdown_ends au g :
  ends (invalidate_for_shutdown au) (λ _ g', gd_state g' = AuthState_default)
    (failed (gd_state g)) g.
Proof.
  unfold invalidate_for_shutdown. apply ends_locked_at. intros w P _.
  ends_step. ends_step; [|failed_tac..]. by ends_step.
Qed.

(** What [authenticate_locked] has established when it returns. *)
Definition authenticated au (header_values : list string) (required : option CapabilitySet)
    (tick : N) (a : ActiveSession) : Prop :=
  token_accepted header_values (Some a) = true
  ∧ (tick < av_absolute_expiry_tick a)%N ∧ (tick < av_idle_expiry_tick a)%N
  ∧ (∀ r c, required = Some r → c ∈ capabilities r →
      CapabilitySet_contains (az_granted_capabilities (av_authority a)) c = true).

Lemma authenticate_ends au header_values required w st :
  ends (authenticate_locked au header_values required)
    (λ r g', ∃ w' a, g' = guard w' st ∧ st_session st = Some a ∧ r.1 = av_authority a
                     ∧ r.2 = ((clock_tick au w + 300000) `min` av_absolute_expiry_tick a)%N
                     ∧ authenticated au header_values required (clock_tick au w) a)
    (λ e g', failed st e (if is_Some_dec e then g' else poison g')) (guard w st).
Proof.
  unfold authenticate_locked, clock_tick. ends_step. ends_step; [|failed_tac..].
  match goal with X : _ = (Ok ?t, _) |- _ => rewrite X; rename t into tick end. cbn [fst].
  ends_step. unfold expire_session. ends_step. ends_step.
  destruct st as [pending [a|]]; cbn [st_session]; [|ends_tac; failed_tac].
  destruct (session_expired tick a) eqn:X.
  { ends_tac; cbn in *; simplify_eq; failed_tac. }
  unfold session_expired in X. res_inv.
  ends_step. ends_step. ends_step. cbn [st_session ok_or]. ends_step. ends_step.
  ends_step; [failed_tac|]. ends_step; [failed_tac|]. res_inv.
  ends_step. ends_step; [|failed_tac..]. ends_step.
  match goal with X : checked_add _ _ _ = Some _ |- _ => apply checked_add_Some in X as [-> _] end.
  eexists _, _. split; [done|]. split; [done|]. split; [done|]. split; [done|].
  split; [done|]. split; [by apply N.leb_gt|]. split; [by apply N.leb_gt|].
  intros r c -> I. cbn in *. res_inv.
  match goal with F : forallb _ _ = true |- _ => rewrite forallb_forall in F; apply F end.
  by apply list_elem_of_In.
Qed.

End calls.

(** ** Sequences of calls *)

Section runs.
Context {S : Type} `{Externals} `{OperatorExternals} `{AuthExternals}.
Implicit Types (au : OperatorAuthAuthority S) (g : Guarded S) (w : S).

(** The calls of the authority, with callbacks that act on the world, and changes of the
    world by others. *)
Inductive auth_call : Type :=
| CIssue (request : ChallengeIssueRequest)
| CAttest (attestation : SessionAttestation)
| CConsume (challenge_id : Uuid)
| CExchange (request : SessionExchangeRequest)
| CAuthorize (header_values : list string) (required : option CapabilitySet)
    (callback : AuthorizedSession → call S () ())
| CRevoke (header_values : list string) (callback : AuthorizedSession → call S () ())
| CShutdown
| CWorld (f : S → S).

(** What a call did: [Ran] and [Revoked] say that the callback was run. *)
Inductive outcome : Type :=
| Issued (tick : N) (request : ChallengeIssueRequest) (r : ChallengeIssueResponse)
| Attested (now : DateTime) (tick : N) (a : SessionAttestation)
| Opened (tick : N) (request : SessionExchangeRequest) (r : SessionExchangeResponse)
| Ran (tick : N) (header_values : list string) (required : option CapabilitySet)
    (a : AuthorizedSession) (returned : bool)
| Revoked (tick : N) (header_values : list string) (a : AuthorizedSession)
| Quiet.

Definition ran au (header_values : list string) (required : option CapabilitySet) g
    (f : AuthorizedSession → outcome) : outcome :=
  if gd_poisoned g || is_some_and required (λ r, negb (is_canonical_capability_set r))
  then Quiet
  else match (authenticate_locked au header_values required g).1 with
       | Ok (a, _) => f a
       | _ => Quiet
       end.

Definition on_ok {E A} (out : result E A) (f : A → outcome) : outcome :=
  match out with Ok a => f a | _ => Quiet end.

Definition authorize {T E} au (header_values : list string) (required : option CapabilitySet)
    (callback : AuthorizedSession → call S E T) : call (Guarded S) (AuthorizedCallError E) T :=
  match required with
  | Some required => authorize_with au header_values required callback
  | None => authorize_any_with au header_values callback
  end.

Definition auth_step au (c : auth_call) g : outcome * Guarded S :=
  match c with
  | CIssue request =>
      let '(out, g') := issue_challenge au request g in
      (on_ok out (Issued (exchange_tick au (gd_world g)) request), g')
  | CAttest a =>
      let '(out, g') := submit_attestation au a g in
      (on_ok out (λ _, Attested (clock_now au (gd_world g)) (exchange_tick au (gd_world g)) a), g')
  | CConsume id => (Quiet, (consume_failed_challenge id g).2)
  | CExchange request =>
      let '(out, g') := exchange au request g in
      (on_ok out (Opened (exchange_tick au (gd_world g)) request), g')
  | CAuthorize header_values required callback =>
      let '(out, g') := authorize au header_values required callback g in
      (ran au header_values required g
         (λ a, Ran (clock_tick au (gd_world g)) header_values required a (is_ok out)), g')
  | CRevoke header_values callback =>
      let '(out, g') := revoke_with au header_values callback g in
      (ran au header_values None g
         (Revoked (clock_tick au (gd_world g)) header_values), g')
  | CShutdown => (Quiet, (invalidate_for_shutdown au g).2)
  | CWorld f => (Quiet, {| gd_world := f (gd_world g); gd_state := gd_state g;
                           gd_poisoned := gd_poisoned g |})
  end.

(** Sequences of calls that satisfy [allowed], on a new authority in the world [w]. *)
Inductive auth_reach au (allowed : auth_call → Prop) w : list outcome → Guarded S → Prop :=
| reach_new : auth_reach au allowed w [] (guarded_new w)
| reach_step outs g c :
    auth_reach au allowed w outs g → allowed c →
    auth_reach au allowed w (outs ++ [(auth_step au c g).1]) (auth_step au c g).2.

Lemma ran_cases au header_values required g f :
  ran au header_values required g f = Quiet ∨ ∃ a, ran au header_values required g f = f a.
Proof.
  unfold ran. destruct (_ || _); [by left|].
  destruct (authenticate_locked _ _ _ _) as [[[a ?]| |] ?]; cbn; eauto.
Qed.

(** Which call an outcome belongs to. *)
Lemma step_outcome au c g :
  match (auth_step au c g).1 with
  | Opened tick request r =>
      tick = exchange_tick au (gd_world g)
      ∧ exchange au request g = (Ok r, (auth_step au c g).2)
  | Ran tick header_values required a returned =>
      tick = clock_tick au (gd_world g)
      ∧ ∃ (callback : AuthorizedSession → call S () ()) out,
          authorize au header_values required callback g = (out, (auth_step au c g).2)
          ∧ returned = is_ok out
          ∧ ran au header_values required g (λ a, Ran tick header_values required a returned)
            = Ran tick header_values required a returned
  | _ => True
  end.
Proof.
  destruct c as [request|a|id|request|h r k|h k| |f]; cbn [auth_step].
  - by destruct (issue_challenge _ _ _) as [[] ?].
  - by destruct (submit_attestation _ _ _) as [[] ?].
  - done.
  - by destruct (exchange _ _ _) as [[] ?] eqn:E.
  - destruct (authorize au h r k g) as [out g'] eqn:E. cbn.
    destruct (ran_cases au h r g (λ a, Ran (clock_tick au (gd_world g)) h r a (is_ok out)))
      as [->|[a Ea]]; [done|]. rewrite Ea. eauto 10.
  - destruct (revoke_with _ _ _ _) as [out g'] eqn:E. cbn.
    by destruct (ran_cases au h None g (Revoked (clock_tick au (gd_world g)) h)) as [->|[a ->]].
  - done.
  - done.
Qed.

(** A call that is not observed to run its callback does not depend on it. *)
Lemma not_run_same {T E} au header_values required (k k' : AuthorizedSession → call S E T) g :
  ran au header_values required g (λ a, Revoked 0 [] a) = Quiet →
  authorize au header_values required k g = authorize au header_values required k' g.
Proof.
  unfold ran. intros R.
  assert (I : gd_poisoned g = true
              ∨ (∀ x, (authenticate_locked au header_values required g).1 ≠ Ok x)
              ∨ is_some_and required (λ r, negb (is_canonical_capability_set r)) = true).
  { destruct (gd_poisoned g); [by left|right]. cbn in R. destruct (is_some_and _ _); [by right|left].
    intros x Ex. rewrite Ex in R. by destruct x. }
  assert (G : gd_poisoned g = true
              ∨ (∀ x, (authenticate_locked au header_values required g).1 ≠ Ok x) →
              authorize_inner au header_values required k g
              = authorize_inner au header_values required k' g).
  { intros G. unfold authorize_inner, locked. destruct (gd_poisoned g); [done|].
    destruct G as [G|G]; [done|]. unfold cbind at 1 4, as_auth, call_map_err.
    destruct (authenticate_locked _ _ _ _) as [[x|e|] g']; [by destruct (G x)|done|done]. }
  destruct required as [r|]; cbn [authorize is_some_and] in *.
  - unfold authorize_with. destruct (negb _); [done|]. apply G. naive_solver.
  - unfold authorize_any_with. apply G. naive_solver.
Qed.

(** The state after a call that may run a callback. *)
Definition callback_ran au header_values required g (a : ActiveSession) : Prop :=
  st_session (gd_state g) = Some a
  ∧ authenticated au header_values required (clock_tick au (gd_world g)) a
  ∧ ∀ f, ran au header_values required g f = f (av_authority a).

Lemma authenticate_cases au header_values required g :
  gd_poisoned g = false →
  let tick := clock_tick au (gd_world g) in
  match authenticate_locked au header_values required g with
  | (Ok (x, idle), g') =>
      gd_state g' = gd_state g
      ∧ ∃ a, st_session (gd_state g) = Some a ∧ x = av_authority a
             ∧ idle = ((tick + 300000) `min` av_absolute_expiry_tick a)%N
             ∧ authenticated au header_values required tick a
  | (_, g') => lost (gd_state g) (gd_state g')
  end.
Proof.
  destruct g as [w st p]. cbn. intros ->.
  pose proof (authenticate_ends au header_values required w st) as A. unfold ends, guard in A.
  destruct (authenticate_locked _ _ _ _) as [[[x idle]|e|] g'].
  - destruct A as (w' & a & -> & Ha & Hx & Hi & A). cbn in *. subst. eauto 10.
  - apply A.
  - apply A.
Qed.

Lemma authorize_cases au header_values required callback g out g' :
  authorize (T := ()) (E := ()) au header_values required callback g = (out, g') →
  lost (gd_state g) (gd_state g') ∧ (∀ f, ran au header_values required g f = Quiet)
  ∨ ∃ a, callback_ran au header_values required g a
         ∧ gd_state g' = (if is_ok out
                          then set_session (Some (refresh_idle
                                 ((clock_tick au (gd_world g) + 300000)
                                  `min` av_absolute_expiry_tick a)%N a)) (gd_state g)
                          else gd_state g).
Proof.
  intros E. unfold callback_ran, ran.
  assert (R : lost (gd_state g) (gd_state g)) by (unfold lost; auto).
  destruct (is_some_and required _) eqn:C.
  { left. rewrite orb_true_r. split; [|done]. destruct required as [r|]; [|done].
    cbn in E, C. unfold authorize_with in E. rewrite C in E. by injection E as <- <-. }
  assert (I : authorize_inner au header_values required callback g = (out, g')).
  { destruct required as [r|]; [|done]. cbn in E, C. unfold authorize_with in E.
    by rewrite C in E. }
  clear E C. unfold authorize_inner, locked in I.
  destruct (gd_poisoned g) eqn:P; [left; injection I as <- <-; auto|].
  pose proof (authenticate_cases au header_values required g P) as A. cbv zeta in A.
  unfold cbind at 1, as_auth, call_map_err in I.
  destruct (authenticate_locked _ _ _ g) as [[[x idle]|e|] g1]; cbn in I |- *;
    [|left; injection I as <- <-; auto..].
  destruct A as (Eg & a & Ha & -> & -> & A). right. exists a.
  split; [split; [done|split; [done|by intros f]]|].
  unfold cbind, outside in I. cbn in I. destruct (callback _ _) as [[t|e|] w'];
    cbn in I; injection I as <- <-; cbn; try done.
  rewrite Eg, Ha. by rewrite decide_True.
Qed.

Lemma revoke_cases au header_values callback g out g' :
  revoke_with (T := ()) (E := ()) au header_values callback g = (out, g') →
  lost (gd_state g) (gd_state g')
  ∧ ((∀ f, ran au header_values None g f = Quiet)
     ∨ ∃ a, callback_ran au header_values None g a
            ∧ (gd_poisoned g' = true ∨ st_session (gd_state g') = None)).
Proof.
  intros I. unfold callback_ran, ran. cbn [is_some_and]. rewrite orb_false_r.
  unfold revoke_with, locked in I.
  destruct (gd_poisoned g) eqn:P; [injection I as <- <-; unfold lost; auto|].
  pose proof (authenticate_cases au header_values None g P) as A. cbv zeta in A.
  unfold cbind at 1, as_auth, call_map_err in I.
  destruct (authenticate_locked _ _ _ g) as [[[x idle]|e|] g1]; cbn in I |- *;
    [|injection I as <- <-; auto..].
  destruct A as (Eg & a & Ha & -> & -> & A).
  unfold cbind, attempt, outside in I. cbn in I. destruct (callback _ _) as [[t|e|] w'];
    cbn in I; injection I as <- <-; cbn; rewrite ?Eg;
    (split; [unfold lost; cbn; auto|right; exists a; split; [split; auto|auto]]).
Qed.

(** ** Where a challenge and a session come from *)

Definition no_challenge (o : outcome) : Prop :=
  match o with Issued _ _ _ | Attested _ _ _ | Opened _ _ _ => False | _ => True end.
Definition same_session (o : outcome) : Prop :=
  match o with Opened _ _ _ | Revoked _ _ _ => False | _ => True end.

(** The last time the session opened at [tick] was used successfully. *)
Definition last_use (tick : N) (outs : list outcome) : N :=
  foldl (λ t o, match o with Ran t' _ _ _ true => t' | _ => t end) tick outs.

(** The challenge was issued at the tick [issued], and signed within its time: both clocks
    were before the deadlines when the attestation was accepted. *)
Definition attested_in (p : AuthPolicy) (c : SessionChallenge) (issued : N)
    (a : SessionAttestation) (outs : list outcome) : Prop :=
  ∃ o1 request r o2 now tick o3,
    outs = o1 ++ Issued issued request r :: o2 ++ Attested now tick a :: o3
    ∧ Forall no_challenge o2 ∧ Forall no_challenge o3
    ∧ ci_challenge r = c ∧ issued_of p request c
    ∧ at_challenge a = c ∧ signed_by_human p a
    ∧ (now < ch_expires_at c)%Z ∧ (tick < issued + 120000)%N.

Definition issued_in (p : AuthPolicy) (c : SessionChallenge) (issued : N)
    (outs : list outcome) : Prop :=
  ∃ o1 request r o2,
    outs = o1 ++ Issued issued request r :: o2 ∧ Forall no_challenge o2
    ∧ ci_challenge r = c ∧ issued_of p request c.

Definition pending_from (p : AuthPolicy) (outs : list outcome) (pending : PendingChallenge) : Prop :=
  ∃ issued, pe_expiry_tick pending = (issued + 120000)%N
    ∧ match pe_attestation pending with
      | None => issued_in p (pe_challenge pending) issued outs
      | Some a => attested_in p (pe_challenge pending) issued a outs
      end.

Definition opened_in (outs : list outcome) (a : ActiveSession) : Prop :=
  ∃ o1 tick request r o2,
    outs = o1 ++ Opened tick request r :: o2 ∧ Forall same_session o2
    ∧ az_session_id (av_authority a) = xs_session_id r
    ∧ az_granted_capabilities (av_authority a) = xs_granted_capabilities r
    ∧ av_token_digest a = secret_digest TOKEN_DOMAIN (xs_session_token r)
    ∧ av_absolute_expiry_tick a = (tick + 900000)%N
    ∧ av_idle_expiry_tick a
      = ((last_use tick o2 + 300000) `min` av_absolute_expiry_tick a)%N.

Definition history au (outs : list outcome) g : Prop :=
  (∀ p, st_pending (gd_state g) = Some p → pending_from (oa_policy au) outs p)
  ∧ (gd_poisoned g = false → ∀ a, st_session (gd_state g) = Some a → opened_in outs a).

Lemma pending_from_quiet p outs o pending :
  no_challenge o → pending_from p outs pending → pending_from p (outs ++ [o]) pending.
Proof.
  intros Q (issued & T & rest). exists issued. split; [done|]. revert rest.
  unfold attested_in, issued_in. destruct (pe_attestation pending).
  - intros (o1 & request & r & o2 & now & tick & o3 & -> & N2 & N3 & rest).
    exists o1, request, r, o2, now, tick, (o3 ++ [o]). split; [by simplify_list_eq|].
    split; [done|]. split; [|done]. apply Forall_app. auto.
  - intros (o1 & request & r & o2 & -> & N2 & rest).
    exists o1, request, r, (o2 ++ [o]). split; [by simplify_list_eq|].
    split; [|done]. apply Forall_app. auto.
Qed.

Lemma opened_in_quiet outs o a :
  same_session o → (∀ t h c x, o ≠ Ran t h c x true) → opened_in outs a → opened_in (outs ++ [o]) a.
Proof.
  intros Q N (o1 & tick & request & r & o2 & -> & S2 & I & G & T & A & D).
  exists o1, tick, request, r, (o2 ++ [o]). split; [by simplify_list_eq|].
  split; [apply Forall_app; auto|]. do 4 (split; [done|]). rewrite D. f_equal. f_equal.
  unfold last_use. rewrite foldl_app. cbn. destruct o as [| | |t h c x []| |]; try done.
  by destruct (N t h c x).
Qed.

Lemma opened_in_used outs tick h c x a :
  opened_in outs a →
  opened_in (outs ++ [Ran tick h c x true])
    (refresh_idle ((tick + 300000) `min` av_absolute_expiry_tick a)%N a).
Proof.
  intros (o1 & tick0 & request & r & o2 & -> & S2 & I & G & T & A & D).
  exists o1, tick0, request, r, (o2 ++ [Ran tick h c x true]). split; [by simplify_list_eq|].
  split; [apply Forall_app; repeat constructor; done|]. do 4 (split; [done|]).
  unfold last_use. by rewrite foldl_app.
Qed.

Lemma history_lost au outs g g' o :
  history au outs g → lost (gd_state g) (gd_state g') →
  no_challenge o → same_session o → (∀ t h c x, o ≠ Ran t h c x true) →
  (gd_poisoned g = true → gd_poisoned g' = true) →
  history au (outs ++ [o]) g'.
Proof.
  intros [HP HS] [LP LS] N1 N2 N3 P. split.
  - intros p Ep. destruct LP as [LP|LP]; [|congruence].
    apply pending_from_quiet; [done|]. apply HP. congruence.
  - intros P' a Ea. destruct LS as [LS|LS]; [|congruence].
    apply opened_in_quiet; [done..|]. apply HS; [|congruence].
    destruct (gd_poisoned g); [|done]. by rewrite P in P'.
Qed.

(** A poisoned authority does nothing. *)
Lemma locked_poisoned {E A} (u : E) (body : call (Guarded S) E A) g :
  gd_poisoned g = true → locked u body g = (Err u, g).
Proof. unfold locked. by intros ->. Qed.

Lemma issue_poisoned au request g :
  gd_poisoned g = true →
  ∃ out, issue_challenge au request g = (out, g) ∧ is_ok out = false.
Proof.
  intros P. unfold issue_challenge. destruct (_ || _); [by eexists|]. unfold cbind at 1, lift.
  destruct (intersect_capabilities _ _ _ _); [rewrite locked_poisoned by done|..]; by eexists.
Qed.

Lemma step_poisoned au c g :
  gd_poisoned g = true →
  (auth_step au c g).1 = Quiet ∧ gd_state (auth_step au c g).2 = gd_state g
  ∧ gd_poisoned (auth_step au c g).2 = true.
Proof.
  intros P. destruct c as [request|a|id|request|h [r|] k|h k| |f]; cbn [auth_step authorize].
  - destruct (issue_poisoned au request g P) as ([] & -> & ?); by cbn.
  - unfold submit_attestation. rewrite locked_poisoned by done. by cbn.
  - unfold consume_failed_challenge. rewrite locked_poisoned by done. by cbn.
  - unfold exchange. rewrite locked_poisoned by done. by cbn.
  - unfold authorize_with, authorize_inner, ran. rewrite P. cbn [orb].
    destruct (negb _); [by cbn|]. rewrite locked_poisoned by done. by cbn.
  - unfold authorize_any_with, authorize_inner, ran. rewrite P. cbn [orb].
    rewrite locked_poisoned by done. by cbn.
  - unfold revoke_with, ran. rewrite P. cbn [orb]. rewrite locked_poisoned by done. by cbn.
  - unfold invalidate_for_shutdown. rewrite locked_poisoned by done. by cbn.
  - by cbn.
Qed.

Lemma history_step au outs g c :
  history au outs g → history au (outs ++ [(auth_step au c g).1]) (auth_step au c g).2.
Proof.
  intros I. destruct (gd_poisoned g) eqn:P.
  { destruct (step_poisoned au c g P) as (-> & Es & Ep).
    apply (history_lost _ _ g); try done. unfold lost. rewrite Es. auto. }
  assert (L : ∀ g' o, lost (gd_state g) (gd_state g') → no_challenge o → same_session o →
    (∀ t h c x, o ≠ Ran t h c x true) → history au (outs ++ [o]) g').
  { intros g' o L N1 N2 N3. apply (history_lost _ _ g); try done. by rewrite P. }
  destruct c as [request|a|id|request|h r k|h k| |f]; cbn [auth_step].
  - pose proof (issue_ends au request g) as E. unfold ends in E.
    destruct (issue_challenge au request g) as [[r|e|] g']; cbn; [|by apply L; [apply E|..]..].
    destruct E as (_ & Es & Hi & Ep). split; rewrite ?Es, ?Ep.
    + intros p [= <-]. eexists. split; [done|]. exists outs, request, r, []. auto.
    + intros _ a Ea. apply opened_in_quiet; [done..|]. by apply I.
  - pose proof (attest_ends au a g) as E. unfold ends in E.
    destruct (submit_attestation au a g) as [[[]|e|] g']; cbn; [|by apply L; [apply E|..]..].
    destruct E as (_ & Es & V & p & Hp & Hn & Hc & Hnow & Ht & Ep). split; rewrite ?Es, ?Ep.
    + intros p' [= <-]. destruct I as [I _]. specialize (I p Hp).
      unfold pending_from in I |- *. rewrite Hn in I. cbn.
      destruct I as (issued & Ei & o1 & request & r & o2 & -> & N2 & Hr & Hi).
      exists issued. split; [done|]. rewrite Ei in Ht.
      exists o1, request, r, o2, (clock_now au (gd_world g)), (exchange_tick au (gd_world g)), [].
      split; [by simplify_list_eq|]. auto 12.
    + intros _ x Ex. apply opened_in_quiet; [done..|]. by apply I.
  - pose proof (consume_ends id g) as E. unfold ends in E.
    destruct (consume_failed_challenge id g) as [[r|e|] g']; (apply L; [apply E|done..]).
  - pose proof (exchange_ends au request g) as E. unfold ends in E.
    destruct (exchange au request g) as [[r|e|] g']; cbn; [|by apply L; [apply E|..]..].
    destruct E as (_ & p & a & Hp & Eg & O). split; rewrite Eg; cbn; [done|]. intros _ x [= <-].
    destruct O as (_ & _ & _ & _ & _ & G & Hs & Hg & Ht & Ha & Hd).
    exists outs, (exchange_tick au (gd_world g)), request, r, [].
    repeat split; try done. rewrite Hd, Ha. cbn. lia.
  - destruct (authorize au h r k g) as [out g'] eqn:E. cbn.
    destruct (authorize_cases _ _ _ _ _ _ _ E) as [[Hl ->]|(a & (Hs & A & R) & Eg)]; [by apply L|].
    rewrite R. destruct (is_ok out).
    + split; rewrite Eg; cbn.
      * intros p Hp. apply pending_from_quiet; [done|]. by apply I.
      * intros _ x [= <-]. apply opened_in_used. by apply I.
    + apply L; [rewrite Eg; unfold lost; auto|done..].
  - destruct (revoke_with au h k g) as [out g'] eqn:E. cbn.
    destruct (revoke_cases _ _ _ _ _ _ E) as [Hl [->|(a & (Hs & A & R) & D)]]; [by apply L|].
    rewrite R. split.
    + intros p Hp. apply pending_from_quiet; [done|]. apply I.
      destruct Hl as [[Hl|Hl] _]; congruence.
    + intros P' x Ex. destruct D; congruence.
  - pose proof (shutdown_ends au g) as E. unfold ends in E.
    destruct (invalidate_for_shutdown au g) as [[r|e|] g']; (apply L; [|done..]);
      [cbn; unfold lost; rewrite E; auto|apply E..].
  - apply L; [unfold lost; auto|done..].
Qed.

Lemma reach_mono au (allowed allowed' : auth_call → Prop) w outs g :
  (∀ c, allowed c → allowed' c) → auth_reach au allowed w outs g → auth_reach au allowed' w outs g.
Proof. intros A. induction 1; constructor; auto. Qed.

Lemma reach_history au allowed w outs g : auth_reach au allowed w outs g → history au outs g.
Proof. induction 1; [split; done|]. by apply history_step. Qed.

Lemma contains_elem set c : CapabilitySet_contains set c = true → c ∈ capabilities set.
Proof.
  unfold CapabilitySet_contains. destruct (capabilities set) as [|a l]; [done|].
  intros L%bool_decide_eq_true. by apply list_elem_of_lookup_2 in L.
Qed.

(** C14: A session needs a signed challenge.  Whenever the authority opens a session, the
    calls before it contain the issue of a challenge and then an attestation of that very
    challenge whose Ed25519 signature verifies under the public key of the enrolled
    human; no other challenge was issued, attested or exchanged in between, so one
    challenge opens at most one session.  Both the attestation and the exchange came before
    the challenge expired, by the trusted clock and by the monotonic clock, 120 seconds
    after its issue.  The caller presents the nonce that the challenge was issued for, and
    the session gets the capabilities of the challenge, which are requested, enrolled and
    supported. *)
Theorem session_needs_attestation au allowed w outs g c tick request r g'
    (R : auth_reach au allowed w outs g) (E : auth_step au c g = (Opened tick request r, g')) :
  ∃ challenge issued a,
    attested_in (oa_policy au) challenge issued a outs
    ∧ (tick < issued + 120000)%N ∧ (xs_issued_at r < ch_expires_at challenge)%Z
    ∧ xr_challenge_id request = ch_challenge_id challenge
    ∧ (∃ nonce, xr_client_nonce request = encode_hex nonce
                ∧ ch_client_nonce_digest challenge = client_nonce_digest nonce)
    ∧ xs_granted_capabilities r = ch_granted_capabilities challenge
    ∧ st_pending (gd_state g') = None.
Proof.
  apply reach_history in R as [R _].
  pose proof (step_outcome au c g) as X. rewrite E in X. destruct X as [-> X].
  pose proof (exchange_ends au request g) as O. unfold ends in O. rewrite X in O.
  destruct O as (_ & p & a & Hp & Eg & [att Ha] & Hi & (nonce & Hn & Hd) & Ht & Hu & Hg & _).
  destruct (R p Hp) as (issued & Ei & A). rewrite Ha in A. rewrite Ei in Ht.
  exists (pe_challenge p), issued, att. cbn in Eg. rewrite Eg. repeat split; try done.
  exists nonce. split; [|done]. by apply decode_hex32_exact in Hn as [_ ?].
Qed.

Lemma token_accepted_true header_values a :
  token_accepted header_values (Some a) = true →
  ∃ candidate, header_values = [encode_hex candidate]
               ∧ av_token_digest a = secret_digest TOKEN_DOMAIN candidate.
Proof.
  unfold token_accepted. destruct (decode_hex32 _) as [candidate canonical] eqn:D. intros A. res_inv.
  destruct header_values as [|h [|? ?]]; [done| |done].
  exists candidate. split; [|done]. f_equal. by apply decode_hex32_exact in D as [_ ?].
Qed.

(** C15: What a session authorizes.  Whenever the authority runs a protected callback, the
    calls before it contain the opening of a session that has not been replaced or
    revoked since; the callback gets that session and the required capabilities are among
    its own.  The caller presented the token of that session in exactly one header, unless
    another token has the same BLAKE3 digest.  The monotonic time is less than 900 seconds
    after the session was opened and less than 300 seconds after its last successful use. *)
Theorem session_authorizes au allowed w outs g c tick header_values required x returned g'
    (R : auth_reach au allowed w outs g)
    (E : auth_step au c g = (Ran tick header_values required x returned, g')) :
  ∃ o1 opened_at request r o2 token,
    outs = o1 ++ Opened opened_at request r :: o2 ∧ Forall same_session o2
    ∧ az_session_id x = xs_session_id r
    ∧ az_granted_capabilities x = xs_granted_capabilities r
    ∧ (∀ needed c, required = Some needed → c ∈ capabilities needed →
        c ∈ capabilities (xs_granted_capabilities r))
    ∧ (tick < opened_at + 900000)%N ∧ (tick < last_use opened_at o2 + 300000)%N
    ∧ header_values = [encode_hex token]
    ∧ (token = xs_session_token r
       ∨ token ≠ xs_session_token r
         ∧ secret_digest TOKEN_DOMAIN token = secret_digest TOKEN_DOMAIN (xs_session_token r)).
Proof.
  apply reach_history in R as [_ R].
  pose proof (step_outcome au c g) as X. rewrite E in X. cbn in X.
  destruct X as (-> & callback & out & X & -> & Hr).
  assert (P : gd_poisoned g = false).
  { unfold ran in Hr. by destruct (gd_poisoned g). }
  destruct (authorize_cases _ _ _ _ _ _ _ X) as [[_ Q]|(a & (Hs & A & F) & _)];
    [by rewrite Q in Hr|]. rewrite F in Hr. injection Hr as <-.
  destruct (R P a Hs) as (o1 & t0 & request & r & o2 & -> & S2 & I & G & T & Ha & Hd).
  destruct A as (At & A1 & A2 & A3). apply token_accepted_true in At as (token & Eh & Et).
  exists o1, t0, request, r, o2, token. rewrite <- G.
  split; [done|]. split; [done|]. split; [done|]. split; [done|].
  split; [intros needed d En Ed; by apply contains_elem, (A3 needed)|].
  split; [by rewrite <- Ha|]. split; [rewrite Hd in A2; lia|]. split; [done|].
  destruct (decide (token = xs_session_token r)); [by left|right]. by rewrite <- Et.
Qed.

(** ** Failing closed *)

(** What the caller sees. *)
Definition answer {E A} (f : E → AuthorizedCallError ()) (out : result E A)
    : result (AuthorizedCallError ()) () :=
  match out with Ok _ => Ok () | Err e => Err (f e) | Panic => Panic end.

Definition auth_answer au (c : auth_call) g : result (AuthorizedCallError ()) () :=
  match c with
  | CIssue request => answer Auth (issue_challenge au request g).1
  | CAttest a => answer Auth (submit_attestation au a g).1
  | CConsume id => answer Auth (consume_failed_challenge id g).1
  | CExchange request => answer Auth (exchange au request g).1
  | CAuthorize header_values required callback =>
      (authorize au header_values required callback g).1
  | CRevoke header_values callback => (revoke_with au header_values callback g).1
  | CShutdown => answer Auth (invalidate_for_shutdown au g).1
  | CWorld _ => Ok ()
  end.

End runs.
