(* ===== verification/OperatorAuthFailure.v ===== *)
(** * Operator authentication when its surroundings fail

    [auth_fails_closed]: whenever an operation of the environment or of the audit store
    fails during a call of the authority ([OperatorAuth]), the call reports the control
    plane unavailable and leaves neither a challenge nor a session, or it panics and
    disables the authority for good.

    That an operation failed during a call is observed by running the same call with a
    world that has a flag beside it ([watched]): the operations of the environment and of
    the audit store raise the flag when they fail, nothing else touches it, and without
    the flag the two runs are the same ([step_erases]). *)

From S2P Require Import Prelude RustStr Externals Json Canonical Serialized Evidence.
From S2P Require Import OperatorCommon StrictDigest OperatorEnvironment Durable AuditChain.
From S2P Require Import OperatorAuth OperatorAuthProofs.
From stdpp Require Import options.

Section watched.
Context {S : Type} `{Externals} `{OperatorExternals} `{AuthExternals}.
Implicit Types (au : OperatorAuthAuthority S) (g : Guarded S).

(** An operation that raises the flag unless it returns a good value. *)
Definition watch {E A} (good : A → bool) (c : call S E A) : call (S * bool) E A := λ w,
  let '(r, w') := c w.1 in
  (r, (w', w.2 || negb (match r with Ok a => good a | _ => false end))).

(** Code of the caller, which does not touch the flag. *)
Definition beside {E A} (c : call S E A) : call (S * bool) E A := λ w,
  let '(r, w') := c w.1 in (r, (w', w.2)).

(** An identifier has to be of version 7, and the audit store has to return the event that
    was asked for. *)
Definition watched au : OperatorAuthAuthority (S * bool) :=
  let env := oa_environment au in
  {| oa_policy := oa_policy au;
     oa_environment :=
       {| env_trusted_utc_now := watch (λ _, true) (env_trusted_utc_now env);
          env_monotonic_millis := watch (λ _, true) (env_monotonic_millis env);
          env_fill_random purpose n := watch (λ _, true) (env_fill_random env purpose n);
          env_new_uuid_v7 := watch uuid_is_v7 (env_new_uuid_v7 env) |};
     oa_audit :=
       {| append_authority_event request :=
            watch (audit_result_matches request)
              (append_authority_event (oa_audit au) request) |} |}.

Definition watched_call (c : auth_call (S := S)) : auth_call (S := S * bool) :=
  match c with
  | CIssue request => CIssue request
  | CAttest a => CAttest a
  | CConsume id => CConsume id
  | CExchange request => CExchange request
  | CAuthorize h r k => CAuthorize h r (λ a, beside (k a))
  | CRevoke h k => CRevoke h (λ a, beside (k a))
  | CShutdown => CShutdown
  | CWorld f => CWorld (λ w, (f w.1, w.2))
  end.

Definition lowered g : Guarded (S * bool) :=
  {| gd_world := (gd_world g, false); gd_state := gd_state g; gd_poisoned := gd_poisoned g |}.

Definition erase (g : Guarded (S * bool)) : Guarded S :=
  {| gd_world := (gd_world g).1; gd_state := gd_state g; gd_poisoned := gd_poisoned g |}.

Definition raised (g : Guarded (S * bool)) : bool := (gd_world g).2.

(** An operation of the environment or of the audit store failed during the call. *)
Definition dependency_failed au (c : auth_call (S := S)) g : bool :=
  raised (auth_step (watched au) (watched_call c) (lowered g)).2.

(** ** Watching changes nothing *)

Definition world_erases {E A} (c' : call (S * bool) E A) (c : call S E A) : Prop :=
  ∀ w, c w.1 = ((c' w).1, (c' w).2.1).

Definition erases {E A} (c' : call (Guarded (S * bool)) E A) (c : call (Guarded S) E A) : Prop :=
  ∀ g : Guarded (S * bool), c (erase g) = ((c' g).1, erase (c' g).2).

Lemma watch_erases {E A} good (c : call S E A) : world_erases (watch good c) c.
Proof. intros [w b]. unfold watch. cbn. by destruct (c w). Qed.

Lemma beside_erases {E A} (c : call S E A) : world_erases (beside c) c.
Proof. intros [w b]. unfold beside. cbn. by destruct (c w). Qed.

Lemma world_erases_bind {E A B} (c' : call (S * bool) E A) c (k' : A → call (S * bool) E B) k :
  world_erases c' c → (∀ a, world_erases (k' a) (k a)) →
  world_erases (cbind c' k') (cbind c k).
Proof.
  intros C K w. unfold cbind. rewrite C. destruct (c' w) as [[a| |] w']; [apply K|done..].
Qed.

Lemma world_erases_map_err {E F A} (f : E → F) (c' : call (S * bool) E A) c :
  world_erases c' c → world_erases (call_map_err f c') (call_map_err f c).
Proof. intros C w. unfold call_map_err. by rewrite C. Qed.

Lemma erases_lift {E A} (r : result E A) : erases (lift r) (lift r).
Proof. by intros g. Qed.

Lemma erases_bind {E A B} (c' : call (Guarded (S * bool)) E A) c
    (k' : A → call (Guarded (S * bool)) E B) k :
  erases c' c → (∀ a, erases (k' a) (k a)) → erases (cbind c' k') (cbind c k).
Proof.
  intros C K g. unfold cbind. rewrite C. destruct (c' g) as [[a| |] g']; [apply K|done..].
Qed.

Lemma erases_map_err {E F A} (f : E → F) (c' : call (Guarded (S * bool)) E A) c :
  erases c' c → erases (call_map_err f c') (call_map_err f c).
Proof. intros C g. unfold call_map_err. by rewrite C. Qed.

Lemma erases_attempt {E F A} (c' : call (Guarded (S * bool)) E A) c :
  erases c' c → erases (attempt (F := F) c') (attempt c).
Proof. intros C g. unfold attempt. by rewrite C. Qed.

Lemma erases_outside {E A} (c' : call (S * bool) E A) c :
  world_erases c' c → erases (outside c') (outside c).
Proof.
  intros C g. unfold outside. specialize (C (gd_world g)). cbn [erase gd_world].
  rewrite C. by destruct (c' (gd_world g)).
Qed.

Lemma erases_update {E} f : erases (E := E) (update_state f) (update_state f).
Proof. by intros g. Qed.

Lemma erases_read {E} : erases (E := E) read_state read_state.
Proof. by intros g. Qed.

Lemma erases_locked {E A} (u : E) (c' : call (Guarded (S * bool)) E A) c :
  erases c' c → erases (locked u c') (locked u c).
Proof.
  intros C g. unfold locked. cbn [erase gd_poisoned]. destruct (gd_poisoned g); [done|].
  rewrite C. by destruct (c' g) as [[] ?].
Qed.

Lemma erases_or_clear {E A} (c' : call (S * bool) E A) c :
  world_erases c' c → erases (or_clear c') (or_clear c).
Proof.
  intros C. apply erases_bind; [by apply erases_attempt, erases_outside|].
  intros [a|e|]; [apply erases_lift| |apply erases_lift].
  apply erases_bind; [apply erases_update|intros []; apply erases_lift].
Qed.

Lemma append_audit_erases au request :
  world_erases (append_audit (watched au) request) (append_audit au request).
Proof.
  apply world_erases_bind; [apply world_erases_map_err, watch_erases|].
  intros a w. by destruct (negb _).
Qed.

Lemma erases_some_or_clear {A} (o : option A) : erases (some_or_clear o) (some_or_clear o).
Proof. by intros g; destruct o. Qed.

Lemma erases_ok_or_clear {E A} (r : result E A) : erases (ok_or_clear r) (ok_or_clear r).
Proof. by intros g; destruct r. Qed.

Lemma erases_clear {A} : erases (A := A) clear_unavailable clear_unavailable.
Proof. by intros g. Qed.

Lemma new_id_erases au : erases (new_id (watched au)) (new_id au).
Proof.
  apply erases_bind; [apply erases_or_clear, watch_erases|].
  intros id. destruct (uuid_is_v7 id); [apply erases_lift|apply erases_clear].
Qed.

(** Takes two runs of the same code apart. *)
Ltac erases_step :=
  lazymatch goal with
  | |- erases (locked _ _) _ => apply erases_locked
  | |- erases (cbind _ _) _ => apply erases_bind; [|intros ?]
  | |- erases (or_clear (append_audit _ _)) _ => apply erases_or_clear, append_audit_erases
  | |- erases (or_clear _) _ => apply erases_or_clear, watch_erases
  | |- erases (some_or_clear _) _ => apply erases_some_or_clear
  | |- erases (ok_or_clear _) _ => apply erases_ok_or_clear
  | |- erases (new_id _) _ => apply new_id_erases
  | |- erases (update_state _) _ => apply erases_update
  | |- erases read_state _ => apply erases_read
  | |- erases clear_unavailable _ => apply erases_clear
  | |- erases (call_map_err _ _) _ => apply erases_map_err
  | |- erases (attempt _) _ => apply erases_attempt
  | |- erases (outside _) _ => apply erases_outside, beside_erases
  | |- erases (lift _) _ => apply erases_lift
  | |- erases (ret _) _ => by intros ?
  | |- erases (throw _) _ => by intros ?
  | |- erases (if ?b then _ else _) _ => destruct b
  | |- erases (match ?x with _ => _ end) _ => destruct x
  end.
Ltac erases_tac :=
  repeat match goal with
  | |- context [oa_policy (watched ?au)] => change (oa_policy (watched au)) with (oa_policy au)
  end;
  repeat (cbv zeta; erases_step).

Lemma authenticate_erases au header_values required :
  erases (authenticate_locked (watched au) header_values required)
    (authenticate_locked au header_values required).
Proof.
  unfold authenticate_locked, expire_session. erases_tac.
Qed.

Lemma authorize_erases {T E} au header_values required (k : AuthorizedSession → call S E T) :
  erases (authorize (watched au) header_values required (λ a, beside (k a)))
    (authorize au header_values required k).
Proof.
  unfold authorize, authorize_with, authorize_any_with, authorize_inner, as_auth.
  destruct required; [destruct (negb _); [by intros ?|]|];
    (apply erases_locked, erases_bind;
     [apply erases_map_err, authenticate_erases|intros [? ?]; erases_tac]).
Qed.

Lemma revoke_erases {T E} au header_values (k : AuthorizedSession → call S E T) :
  erases (revoke_with (watched au) header_values (λ a, beside (k a)))
    (revoke_with au header_values k).
Proof.
  apply erases_locked, erases_bind; [apply erases_map_err, authenticate_erases|].
  intros ?. erases_tac.
Qed.

Lemma step_erases au (c : auth_call (S := S)) (g : Guarded (S * bool)) :
  auth_answer au c (erase g) = auth_answer (watched au) (watched_call c) g
  ∧ (auth_step au c (erase g)).2 = erase (auth_step (watched au) (watched_call c) g).2.
Proof.
  destruct c as [request|a|id|request|h r k|h k| |f];
    cbn [auth_answer auth_step watched_call].
  - assert (erases (issue_challenge (watched au) request) (issue_challenge au request)) as X
      by (unfold issue_challenge; erases_tac).
    rewrite X. by destruct (issue_challenge (watched au) request g).
  - assert (erases (submit_attestation (watched au) a) (submit_attestation au a)) as X
      by (unfold submit_attestation; erases_tac).
    rewrite X. by destruct (submit_attestation (watched au) a g).
  - assert (erases (consume_failed_challenge id) (consume_failed_challenge id)) as X
      by (unfold consume_failed_challenge; erases_tac).
    by rewrite X.
  - assert (erases (exchange (watched au) request) (exchange au request)) as X
      by (unfold exchange, open_session; erases_tac).
    rewrite X. by destruct (exchange (watched au) request g).
  - pose proof (authorize_erases au h r k) as X. rewrite X.
    by destruct (authorize (watched au) h r _ g).
  - pose proof (revoke_erases au h k) as X. rewrite X.
    by destruct (revoke_with (watched au) h _ g).
  - assert (erases (invalidate_for_shutdown (watched au)) (invalidate_for_shutdown au)) as X
      by (unfold invalidate_for_shutdown; erases_tac).
    by rewrite X.
  - done.
Qed.

(** ** A failure shuts the authority *)

Notation unavailable := OperatorAuthError.ControlUnavailable.

(** From an unpoisoned authority with the flag down: a returned value leaves the flag down;
    the error [u] leaves nothing behind; and a raised flag comes with that error. *)
Definition shuts {E A} (u : E) (c : call (Guarded (S * bool)) E A) : Prop :=
  ∀ g : Guarded (S * bool), gd_poisoned g = false → raised g = false →
  match c g with
  | (Ok _, g') => gd_poisoned g' = false ∧ raised g' = false
  | (Err e, g') =>
      gd_poisoned g' = false ∧ (e = u → gd_state g' = AuthState_default)
      ∧ (raised g' = true → e = u)
  | (Panic, _) => True
  end.

Lemma shuts_bind {E A B} (u : E) (c : call _ E A) (k : A → call (Guarded (S * bool)) E B) :
  shuts u c → (∀ a, shuts u (k a)) → shuts u (cbind c k).
Proof.
  intros C K g P R. specialize (C g P R). unfold cbind.
  destruct (c g) as [[a| |] g']; [|done..]. destruct C. by apply K.
Qed.

Lemma shuts_lift {E A} (u : E) (r : result E A) : r ≠ Err u → shuts u (lift r).
Proof.
  intros N g P R. unfold lift. destruct r as [a|e|]; [done| |done].
  split; [done|]. split; [congruence|]. by rewrite R.
Qed.

Lemma shuts_ret {E A} (u : E) (a : A) : shuts u (ret a).
Proof. by apply (shuts_lift u (Ok a)). Qed.

Lemma shuts_throw {E A} (u e : E) : e ≠ u → shuts (A := A) u (throw e).
Proof. intros N. apply (shuts_lift u (Err e)). congruence. Qed.

Lemma shuts_update {E} (u : E) f : shuts u (update_state f).
Proof. by intros g P R. Qed.

Lemma shuts_read {E} (u : E) : shuts u read_state.
Proof. by intros g P R. Qed.

Lemma shuts_clear {A} : shuts (A := A) unavailable clear_unavailable.
Proof. by intros g P R. Qed.

Lemma shuts_ok_or_clear {E A} (r : result E A) : shuts unavailable (ok_or_clear r).
Proof. destruct r; [apply shuts_ret|apply shuts_clear|done]. Qed.

Lemma shuts_some_or_clear {A} (o : option A) : shuts unavailable (some_or_clear o).
Proof. apply shuts_ok_or_clear. Qed.

Lemma shuts_or_clear {E A} (c : call (S * bool) E A) :
  (∀ w a w', w.2 = false → c w = (Ok a, w') → w'.2 = false) → shuts unavailable (or_clear c).
Proof.
  intros C g P R. unfold or_clear, cbind, attempt, outside. specialize (C (gd_world g)).
  destruct (c (gd_world g)) as [[a|e|] w'] eqn:E'; cbn; [|done..].
  split; [done|]. by eapply C.
Qed.

Lemma shuts_watch {E A} (c : call S E A) : shuts unavailable (or_clear (watch (λ _, true) c)).
Proof.
  apply shuts_or_clear. intros w a w' B. unfold watch. destruct (c w.1) as [[] ?];
    intros [= <- <-]. cbn. by rewrite B.
Qed.

Lemma shuts_append au request : shuts unavailable (or_clear (append_audit (watched au) request)).
Proof.
  apply shuts_or_clear. intros w [] w' B. unfold append_audit, cbind, call_map_err. cbn.
  unfold watch. destruct (append_authority_event _ _ _) as [[x| |] v]; cbn; [|done..].
  destruct (audit_result_matches request x); cbn; [|done]. intros [= <-]. cbn. by rewrite B.
Qed.

Lemma shuts_new_id au : shuts unavailable (new_id (watched au)).
Proof.
  intros g P R. unfold new_id, or_clear, cbind, attempt, outside, raised in *. cbn.
  unfold watch. destruct (env_new_uuid_v7 _ _) as [[id| |] v]; cbn; [|done..].
  destruct (uuid_is_v7 id); cbn; [|done]. by rewrite R.
Qed.

Lemma shuts_map_err {E F A} (f : E → F) `{!Inj (=) (=) f} (u : E) (c : call _ E A) :
  shuts u c → shuts (f u) (call_map_err f c).
Proof.
  intros C g P R. specialize (C g P R). unfold call_map_err.
  destruct (c g) as [[a|e|] g']; cbn in *; [done| |done].
  destruct C as (? & C & ?). split; [done|]. split; [|naive_solver].
  intros X%(inj f). auto.
Qed.

(** A callback of the caller, whose error is not the authority's. *)
Lemma shuts_callback {E F A} (f : E → F) (u : F) (c : call S E A) :
  (∀ e, f e ≠ u) → shuts u (call_map_err f (outside (beside c))).
Proof.
  intros N g P R. unfold call_map_err, outside, beside, raised in *.
  destruct (c (gd_world g).1) as [[a|e|] w]; cbn; [done| |done].
  split; [done|]. split; [by intros X%N|]. by rewrite R.
Qed.

Lemma shuts_attempt {E F A} (u : F) (c : call S E A) :
  shuts u (attempt (outside (beside c))).
Proof.
  intros g P R. unfold attempt, outside, beside, raised in *.
  by destruct (c (gd_world g).1) as [[a|e|] w].
Qed.

Ltac shuts_step :=
  lazymatch goal with
  | |- shuts _ (cbind _ _) => apply shuts_bind; [|intros ?]
  | |- shuts _ (or_clear (append_audit _ _)) => apply shuts_append
  | |- shuts _ (or_clear _) => apply shuts_watch
  | |- shuts _ (some_or_clear _) => apply shuts_some_or_clear
  | |- shuts _ (ok_or_clear _) => apply shuts_ok_or_clear
  | |- shuts _ (new_id _) => apply shuts_new_id
  | |- shuts _ (update_state _) => apply shuts_update
  | |- shuts _ read_state => apply shuts_read
  | |- shuts _ (ret _) => apply shuts_ret
  | |- shuts _ (throw _) => by apply shuts_throw
  | |- shuts _ (lift _) => apply shuts_lift
  | |- shuts _ (if ?b then _ else _) => destruct b
  | |- shuts _ (match ?x with _ => _ end) => destruct x eqn:?
  end.
Ltac shuts_tac := repeat (cbv zeta; shuts_step).

Lemma authenticate_shuts au header_values required :
  shuts unavailable (authenticate_locked (watched au) header_values required).
Proof.
  unfold authenticate_locked, expire_session. shuts_tac. by destruct (st_session _).
Qed.

(** The same of a whole call, whose panic poisons the mutex. *)
Definition shut {E A} (u : E) (out : result E A * Guarded (S * bool)) : Prop :=
  match out.1 with
  | Ok _ => raised out.2 = false
  | Err e => gd_poisoned out.2 = false ∧ (e = u → gd_state out.2 = AuthState_default)
             ∧ (raised out.2 = true → e = u)
  | Panic => gd_poisoned out.2 = true
  end.

Section call.
Context (g : Guarded (S * bool)) (P : gd_poisoned g = false) (R : raised g = false).

Lemma locked_shut {E A} (u : E) (body : call _ E A) : shuts u body → shut u (locked u body g).
Proof using P R.
  intros C. specialize (C g P R). unfold locked. rewrite P.
  destruct (body g) as [[a|e|] g']; cbn; [by destruct C|done..].
Qed.

Lemma throw_shut {E A} (u e : E) : e ≠ u → shut (A := A) u (throw e g).
Proof using P R. intros N. split; [done|]. cbn. by rewrite R. Qed.

Lemma issue_shut au request : shut unavailable (issue_challenge (watched au) request g).
Proof using P R.
  unfold issue_challenge. destruct (_ || _); [by apply throw_shut|]. unfold cbind at 1, lift.
  destruct (intersect_fails (cr_requested_capabilities request)
    (ap_enrolled_capabilities (oa_policy (watched au)))
    (ap_workspace_capabilities (oa_policy (watched au)))
    (ap_supported_capabilities (oa_policy (watched au)))) as [->|I]; [by apply throw_shut|].
  destruct (intersect_capabilities _ _ _ _); [|done..]. apply locked_shut. shuts_tac.
Qed.

Lemma attest_shut au a : shut unavailable (submit_attestation (watched au) a g).
Proof using P R.
  apply locked_shut. shuts_tac.
  1-2: intros X; destruct (st_pending _); cbn in X; [|done];
       by apply check_attestation_fails in X.
Qed.

Lemma consume_shut id : shut unavailable (consume_failed_challenge id g).
Proof using P R. apply locked_shut. shuts_tac. Qed.

Lemma exchange_shut au request : shut unavailable (exchange (watched au) request g).
Proof using P R.
  apply locked_shut. unfold open_session. shuts_tac. by destruct (st_pending _).
Qed.

Lemma authorize_shut {T E} au header_values required (k : AuthorizedSession → call S E T) :
  shut (Auth unavailable) (authorize (watched au) header_values required (λ a, beside (k a)) g).
Proof using P R.
  unfold authorize, authorize_with, authorize_any_with, authorize_inner, as_auth.
  destruct required; [destruct (negb _); [by apply throw_shut|]|];
    (apply locked_shut, shuts_bind;
     [apply shuts_map_err; [by intros ? ? [=]|apply authenticate_shuts]|]);
    intros [? ?]; (apply shuts_bind; [by apply shuts_callback|intros ?; shuts_tac]).
Qed.

Lemma revoke_shut {T E} au header_values (k : AuthorizedSession → call S E T) :
  shut (Auth unavailable) (revoke_with (watched au) header_values (λ a, beside (k a)) g).
Proof using P R.
  apply locked_shut, shuts_bind;
    [apply shuts_map_err; [by intros ? ? [=]|apply authenticate_shuts]|].
  intros ?. apply shuts_bind; [apply shuts_attempt|intros []; shuts_tac; done].
Qed.

Lemma shutdown_shut au : shut unavailable (invalidate_for_shutdown (watched au) g).
Proof using P R. apply locked_shut. shuts_tac. Qed.

Lemma answer_shut {A} (out : result OperatorAuthError.t A * Guarded (S * bool)) :
  shut unavailable out → shut (Auth unavailable) (answer Auth out.1, out.2).
Proof.
  destruct out as [[a|e|] g']; cbn; [done| |done].
  intros (? & ? & ?). split_and!; naive_solver.
Qed.

Lemma step_shut au (c : auth_call (S := S)) :
  shut (Auth unavailable) (auth_answer (watched au) (watched_call c) g,
                           (auth_step (watched au) (watched_call c) g).2).
Proof using P R.
  destruct c as [request|a|id|request|h r k|h k| |f];
    cbn [auth_answer auth_step watched_call].
  - pose proof (answer_shut _ (issue_shut au request)). by destruct (issue_challenge _ _ _).
  - pose proof (answer_shut _ (attest_shut au a)). by destruct (submit_attestation _ _ _).
  - apply answer_shut, consume_shut.
  - pose proof (answer_shut _ (exchange_shut au request)). by destruct (exchange _ _ _).
  - pose proof (authorize_shut au h r k). by destruct (authorize _ _ _ _ _).
  - pose proof (revoke_shut au h k). by destruct (revoke_with _ _ _ _).
  - apply answer_shut, shutdown_shut.
  - done.
Qed.
End call.

(** C35: The authority fails closed.  If an operation of the environment or of the audit
    store fails during a call of an authority that is not poisoned, or returns an
    identifier or an event that is not what was asked for, then the call answers that the
    control plane is unavailable and leaves neither a challenge nor a session, or it
    panics; every answer that the control plane is unavailable comes with the same loss;
    a panic under the lock poisons the mutex; and a poisoned authority, which keeps what
    it had, issues nothing, opens nothing and runs nothing any more. *)
Theorem auth_fails_closed au (c : auth_call) g :
  let g' := (auth_step au c g).2 in
  (gd_poisoned g = false → dependency_failed au c g = true →
   auth_answer au c g = Err (Auth OperatorAuthError.ControlUnavailable)
   ∨ auth_answer au c g = Panic)
  ∧ (gd_poisoned g = false →
     auth_answer au c g = Err (Auth OperatorAuthError.ControlUnavailable) →
     gd_state g' = AuthState_default ∧ gd_poisoned g' = false)
  ∧ (auth_answer au c g = Panic → gd_poisoned g' = true)
  ∧ (gd_poisoned g = true →
     (auth_step au c g).1 = Quiet ∧ gd_state g' = gd_state g ∧ gd_poisoned g' = true).
Proof.
  cbv zeta. unfold dependency_failed.
  destruct (gd_poisoned g) eqn:P.
  { pose proof (step_poisoned au c g P) as (? & ? & ?). by split_and!. }
  pose proof (step_shut (lowered g) P eq_refl au c) as X.
  destruct (step_erases au c (lowered g)) as [Ea Es].
  replace (erase (lowered g)) with g in * by by destruct g.
  rewrite Ea, Es. unfold shut in X. cbn [fst snd] in X. clear Ea Es. cbn [erase gd_state gd_poisoned].
  destruct (auth_answer _ _ _) as [a|e|]; [|destruct X as (X & Y & Z)|].
  - split_and!; intros; congruence.
  - split_and!; intros; try congruence; [|by simplify_eq; auto]. left. f_equal. auto.
  - split_and!; intros; first [done|by right].
Qed.

End watched.
