(* ===== verification/OperatorSample.v ===== *)
(** * A concrete instance for the operator records

    [Sample.sample] writes times in a notation of its own, which the strict reader
    refuses, and hashes the end of a text only.  [clock] differs from it in the times
    and the hash: the whole seconds of one hour are written in RFC 3339 form, so that the
    operator records of that hour can be written and hashed, and [hash] depends on every
    byte, so that the events of a chain have different digests.  The witnesses of the
    operator theorems compute on it. *)

From S2P Require Import Prelude RustStr Externals Json Canonical OperatorCommon StrictDigest Durable AuditChain OperatorEnvironment.
From stdpp Require Import options.

Module OperatorSample.

Definition hour : string := "2026-01-01T00:".

Definition digit (n : Z) : ascii := ascii_of_N (48 + Z.to_N n).
Definition digit_value (c : ascii) : Z := Z.of_N (N_of_ascii c) - 48.

Definition in_hour (t : DateTime) : bool :=
  (t mod 1000000000 =? 0)%Z && (0 <=? t)%Z && (t <? 3600000000000)%Z.

Definition utc_text (t : DateTime) : string :=
  if in_hour t
  then let m := (t / 60000000000)%Z in
       let s := (t / 1000000000 mod 60)%Z in
       hour +:+ String (digit (m / 10)) (String (digit (m mod 10))
         (String ":" (String (digit (s / 10)) (String (digit (s mod 10)) "Z"))))
  else Sample.z_text t.

Definition utc_read (s : string) : option DateTime :=
  match strip_prefix hour s with
  | Some (String a (String b (String _ (String c (String d "Z"))))) =>
      Some ((60 * (10 * digit_value a + digit_value b) + (10 * digit_value c + digit_value d))
            * 1000000000)%Z
  | _ => Sample.z_parse s
  end.

(** A hash that depends on every byte: a polynomial over the bytes, modulo 2^20. *)
Definition hash_mask : N := N.ones 20.

Fixpoint hash_bytes (acc : N) (s : string) : N :=
  match s with
  | EmptyString => acc
  | String c s' => hash_bytes (N.land (3 * acc + N_of_ascii c) hash_mask) s'
  end.

Fixpoint bytes_of (n : nat) (x : N) : string :=
  match n with
  | O => EmptyString
  | S n' => String (ascii_of_N (N.land x 255)) (bytes_of n' (N.shiftr x 8))
  end.

Definition hash (s : string) : string := bytes_of 32 (hash_bytes 7 s).

Lemma bytes_of_length n x : String.length (bytes_of n x) = n.
Proof. revert x. induction n as [|n IH]; intros x; cbn; [done|]. by rewrite IH. Qed.

Definition clock : Externals := {|
  blake3 := hash;
  ed25519_public := @ed25519_public Sample.sample;
  ed25519_sign := @ed25519_sign Sample.sample;
  ed25519_verify := @ed25519_verify Sample.sample;
  json_string := @json_string Sample.sample;
  json_parse_f64 := @json_parse_f64 Sample.sample;
  uuid_to_string := @uuid_to_string Sample.sample;
  uuid_parse_str := @uuid_parse_str Sample.sample;
  uuid_version_num := @uuid_version_num Sample.sample;
  uuid_variant_rfc4122 := @uuid_variant_rfc4122 Sample.sample;
  utc_to_rfc3339 := utc_text;
  utc_parse_rfc3339 := utc_read;
  utc_nanosecond := λ _, 0%N;
|}.

Definition digits_value (n : Z) : Z :=
  10 * digit_value (digit (n / 10)) + digit_value (digit (n mod 10)).

Lemma digits_read n : (0 <= n < 60)%Z → digits_value n = n.
Proof.
  intros B. assert (Forall (λ n, digits_value n = n) (Z.of_nat <$> seq 0 60)) as F
    by (repeat constructor).
  rewrite Forall_forall in F. apply F, list_elem_of_fmap.
  exists (Z.to_nat n). rewrite elem_of_seq. lia.
Qed.

Lemma utc_read_text t : utc_read (utc_text t) = Some t.
Proof.
  destruct (in_hour t) eqn:M.
  - unfold utc_text. rewrite M. cbv zeta. unfold utc_read.
    rewrite (proj2 (strip_prefix_Some _ _ _) eq_refl). cbv iota beta.
    unfold in_hour in M. rewrite !andb_true_iff in M. destruct M as [[M L] U].
    apply Z.eqb_eq in M. apply Z.leb_le in L. apply Z.ltb_lt in U.
    pose proof (digits_read (t / 60000000000)) as D1.
    pose proof (digits_read (t / 1000000000 mod 60)) as D2.
    unfold digits_value in D1, D2. f_equal.
    rewrite D1 by (split; [apply Z.div_pos; lia|apply Z.div_lt_upper_bound; lia]).
    rewrite D2 by (apply Z.mod_pos_bound; lia).
    change 60000000000%Z with (1000000000 * 60)%Z. rewrite <- Z.div_div by lia.
    pose proof (Z.div_mod (t / 1000000000) 60). pose proof (Z.div_mod t 1000000000). lia.
  - unfold utc_text. rewrite M. unfold utc_read.
    replace (strip_prefix hour (Sample.z_text t)) with (@None string);
      [apply Sample.z_parse_text|by destruct t].
Qed.

Lemma clock_laws : @ExternalsLaws clock.
Proof.
  split; cbn [clock blake3 ed25519_public ed25519_sign ed25519_verify json_string
    uuid_to_string uuid_parse_str utc_to_rfc3339 utc_parse_rfc3339].
  - intros m. apply bytes_of_length.
  - apply Sample.sample_laws.
  - apply Sample.sample_laws.
  - apply Sample.sample_laws.
  - apply Sample.sample_laws.
  - apply Sample.sample_laws.
  - apply utc_read_text.
Qed.

(** The keys of the sample are their own encoding. *)
Definition keys : OperatorExternals :=
  {| base64url_decode := Some; base64url_encode := λ s, s; json_from_str := λ _, None;
     unwritable_error := "unwritable" |}.

Definition second (n : Z) : DateTime := (n * 1000000000)%Z.
Definition zero_control : ControlDigest :=
  {| control_bytes := String.string_of_list_ascii (replicate 32 "000"%char) |}.
Definition or_zero (o : option ControlDigest) : ControlDigest := default zero_control o.

Definition amounts (n : N) : BudgetAmounts :=
  {| steps := n; tokens := n; duration_ms := n; cost_microusd := n; tool_dispatches := n |}.

(** ** A budget *)

Definition unsealed_policy : BudgetPolicy :=
  {| bl_schema := POLICY_SCHEMA; bl_budget_id := 11; bl_workspace_id := 1;
     bl_limits := amounts 100; bl_deadline_at := second 50; bl_limits_digest := zero_control |}.

Definition policy : BudgetPolicy :=
  {| bl_schema := POLICY_SCHEMA; bl_budget_id := 11; bl_workspace_id := 1;
     bl_limits := amounts 100; bl_deadline_at := second 50;
     bl_limits_digest :=
       or_zero (@digest_without_field clock "Proof-Operator-Budget-Limits-v1"
                  (@policy_value clock unsealed_policy) "limits_digest") |}.

Definition account (reserved committed : N) : BudgetAccount :=
  {| ba_schema := ACCOUNT_SCHEMA; ba_policy := policy; ba_revision := 0;
     ba_state := AccountState.Active; ba_reserved := amounts reserved;
     ba_committed := amounts committed; ba_created_at := second 0;
     ba_updated_at := second 0 |}.

Lemma can_reserve_exact_witness :
  @can_reserve clock (account 20 30) (amounts 50) (second 5) = Ok ()
  ∧ @can_reserve clock (account 20 30) (amounts 51) (second 5)
    = Err ValidationError.BudgetExceeded.
Proof.
  split; (etransitivity;
    [apply (@can_reserve_exact clock (account 20 30)); vm_compute; reflexivity
    |vm_compute; reflexivity]).
Defined.

(** ** A chain of two events *)

Definition shutdown (sequence : N) (previous : option ControlDigest) (digest : ControlDigest)
    : AuditEvent :=
  {| ae_schema := AUDIT_EVENT_SCHEMA; ae_workspace_id := 1; ae_event_id := 100 + sequence;
     ae_sequence := sequence; ae_kind := AuditEventKind.ControlShutdown;
     ae_outcome := AuditOutcome.Accepted; ae_previous_digest := previous;
     ae_event_digest := digest; ae_human_id := None; ae_session_id := None;
     ae_challenge_id := None; ae_challenge_digest := None;
     ae_session_authority_digest := None; ae_related_session_id := None;
     ae_server_instance_id := Some 5%N; ae_run_id := None; ae_approval_request_id := None;
     ae_command_id := None; ae_command_kind := None; ae_budget_id := None;
     ae_reservation_id := None; ae_lease_id := None; ae_source_lease_id := None;
     ae_process_epoch_id := None; ae_permit_id := None; ae_recovery_directive_id := None;
     ae_fence_epoch := None; ae_auth_epoch := None; ae_policy_revision := None;
     ae_intent_digest := None; ae_call_digest := None; ae_decision_digest := None;
     ae_recovery_directive_digest := None; ae_failure_scope := None; ae_proof := None;
     ae_occurred_at := second 1 |}.

Definition sealed (sequence : N) (previous : option ControlDigest) : AuditEvent :=
  shutdown sequence previous
    (or_zero (@event_digest_of clock (shutdown sequence previous zero_control))).

Definition chain : list AuditEvent :=
  let first := sealed 1 None in [first; sealed 2 (Some (ae_event_digest first))].

Lemma audit_chain_binds_witness :
  chain = chain
  ∨ ∃ e1 e2, e1 ∈ chain ∧ e2 ∈ chain ∧ ae_event_digest e1 = ae_event_digest e2
             ∧ @collides clock (@event_message clock e1) (@event_message clock e2).
Proof.
  apply (@audit_chain_binds clock clock_laws chain chain);
    [vm_compute; repeat split..|reflexivity].
Defined.

(** ** Random bytes *)

(** Forty bytes take two blocks. *)
Lemma recording_fill_terminates_witness :
  ∃ bytes s', recording_fill_random hash EmptyString CursorKey 40 (recording_new (second 0))
              = (Ok bytes, s') ∧ String.length bytes = 40 ∧ rc_stream s' = 2%N.
Proof.
  assert (W : (rc_stream (recording_new (second 0)) ≤ u64_max)%N) by (cbn; discriminate).
  pose proof (recording_fill_terminates hash EmptyString (λ m, bytes_of_length 32 _) CursorKey 40
                (recording_new (second 0)) W) as T.
  destruct T as (bytes & s' & E & L & P & _). exists bytes, s'. split; [exact E|].
  split; [exact L|exact P].
Defined.

End OperatorSample.
