(* ===== verification/Custody.v ===== *)
(** * Custody of lease and dispatch tokens

    The model of [operator/prepared.rs] without the prepared execution itself: the
    custody objects that hold the 32-byte tokens of a run lease and of a dispatch, the
    requests they give out, and the results of the runtime store they are bound to
    ([operator/store.rs]).  A method with [&mut self] is a [call] on the custody; one
    that takes [self] and fails returns the custody to its caller.  The atomic state
    bytes are numbers, and [compare_exchange(0, 1)] is [exchange_0_1].

    [dispatch_custody_linear] is the contract of a dispatch custody: whatever a caller
    does with it, it authorizes at most one effect and settles at most once, and a
    commit request exists only after the effect.  [lease_authority_bound] is the
    contract of a lease custody, and [from_report_sealed] that of the usage a governed
    adapter reports. *)

From S2P Require Import Prelude RustStr Externals Json Canonical Serialized Evidence.
From S2P Require Import OperatorCommon StrictDigest AgentRun ExecutionStore Durable.
From stdpp Require Import options.

Notation handler_failed := ExecutionError.HandlerFailed.
Notation evidence_failed := ExecutionError.EvidenceFailed.

(** ** Custody objects *)

Record LeaseClaimBinding := {
  lb_workspace_id : Uuid;
  lb_run_id : Uuid;
  lb_lease_id : Uuid;
  lb_owner_instance_id : Uuid;
  lb_process_epoch_id : Uuid;
  lb_expected_fence_epoch : N;
  lb_expected_control_revision : N;
}.

Inductive LeaseEstablishment : Type :=
| Claim (claim : LeaseClaimBinding)
| Reclaim (claim : LeaseClaimBinding) (expired_lease_id checkpoint_id : Uuid)
    (checkpoint_sequence : N) (checkpoint_digest : ContentDigest).

Record BoundLease := {
  bd_workspace_id : Uuid;
  bd_run_id : Uuid;
  bd_lease_id : Uuid;
  bd_owner_instance_id : Uuid;
  bd_process_epoch_id : Uuid;
  bd_fence_epoch : N;
}.

Record LeaseTokenCustody := {
  lt_token : string;
  lt_establishment : option LeaseEstablishment;
  lt_bound : option BoundLease;
  lt_proof_state : N;
}.

Record DispatchBeginBinding := {
  bb_workspace_id : Uuid;
  bb_run_id : Uuid;
  bb_lease_id : Uuid;
  bb_process_epoch_id : Uuid;
  bb_fence_epoch : N;
  bb_expected_control_revision : N;
  bb_reservation_id : Uuid;
  bb_intent : DispatchIntent;
  bb_replay : option ReplayClaimBinding;
  bb_replay_claim_token : option Uuid;
  bb_call_digest : ControlDigest;
}.

Record DispatchTokenCustody := {
  dt_token : string;
  dt_begin : option DispatchBeginBinding;
  dt_permit : option DispatchPermit;
  dt_monotonic_deadline : option N;
  dt_authorization_state : N;
  dt_effect_state : N;
  dt_settlement_state : N;
}.

(** ** Requests *)

Record LeaseAuthority := {
  la_schema : string;
  la_workspace_id : Uuid;
  la_run_id : Uuid;
  la_lease_id : Uuid;
  la_owner_instance_id : Uuid;
  la_process_epoch_id : Uuid;
  la_fence_epoch : N;
  la_expected_control_revision : N;
  la_lease_token : string;
}.

Record LeaseClaimRequest := {
  lq_schema : string;
  lq_workspace_id : Uuid;
  lq_run_id : Uuid;
  lq_lease_id : Uuid;
  lq_owner_instance_id : Uuid;
  lq_process_epoch_id : Uuid;
  lq_lease_token : string;
  lq_expected_fence_epoch : N;
  lq_expected_control_revision : N;
}.

Record LeaseRenewRequest := { lr_schema : string; lr_authority : LeaseAuthority }.

Record LeaseReleaseRequest := {
  le_schema : string;
  le_custody : LeaseTokenCustody;
  le_expected_control_revision : N;
}.

Record BudgetReserveRequest := {
  rq_schema : string;
  rq_authority : LeaseAuthority;
  rq_reservation_id : Uuid;
  rq_idempotency_key : Uuid;
  rq_intent : DispatchIntent;
  rq_intent_digest : ControlDigest;
  rq_replay : option ReplayClaimBinding;
  rq_recovery : option RecoveryDirective;
}.

Inductive BudgetSettlementDisposition : Type := ReleasePreDispatch.

#[export] Instance BudgetSettlementDisposition_eq_dec :
  EqDecision BudgetSettlementDisposition.
Proof. solve_decision. Defined.

Record BudgetSettlementRequest := {
  sq_schema : string;
  sq_authority : LeaseAuthority;
  sq_reservation_id : Uuid;
  sq_disposition : BudgetSettlementDisposition;
}.

Record BeginDispatchRequest := {
  bq_schema : string;
  bq_authority : LeaseAuthority;
  bq_reservation_id : Uuid;
  bq_dispatch_token : string;
  bq_intent : DispatchIntent;
  bq_intent_digest : ControlDigest;
  bq_replay : option ReplayClaimBinding;
  bq_replay_claim_token : option Uuid;
  bq_call_digest : ControlDigest;
}.

Record RuntimeCommitRequest := {
  mq_schema : string;
  mq_authority : LeaseAuthority;
  mq_permit : DispatchPermit;
  mq_custody : DispatchTokenCustody;
  mq_prepared : PreparedExecutionBinding;
}.

Module FailureCode.
Inductive t : Type := DispatchAmbiguous | HandlerFailed | ProcessShutdown | ResultInvalid.

Definition wire (c : t) : string :=
  match c with
  | DispatchAmbiguous => "dispatch_ambiguous" | HandlerFailed => "handler_failed"
  | ProcessShutdown => "process_shutdown" | ResultInvalid => "result_invalid"
  end.
End FailureCode.

Definition governed_runtime_failure_code (error : ExecutionError.t) : FailureCode.t :=
  match error with
  | ExecutionError.EvidenceFailed _ => FailureCode.ResultInvalid
  | _ => FailureCode.HandlerFailed
  end.

Inductive RuntimeFailureClassification : Type := AmbiguousForfeitRequired.

#[export] Instance RuntimeFailureClassification_eq_dec :
  EqDecision RuntimeFailureClassification.
Proof. solve_decision. Defined.

Record RuntimeFailureBody := {
  fb_schema : string;
  fb_reservation_id : Uuid;
  fb_permit_id : Uuid;
  fb_classification : RuntimeFailureClassification;
  fb_failure_code : FailureCode.t;
  fb_intent_digest : ControlDigest;
  fb_call_digest : ControlDigest;
}.

Record RuntimeFailureRequest := {
  fq_schema : string;
  fq_authority : LeaseAuthority;
  fq_permit : DispatchPermit;
  fq_custody : DispatchTokenCustody;
  fq_failure : RuntimeFailureBody;
  fq_error_digest : ControlDigest;
}.

Record ReclaimRequest := {
  cq_schema : string;
  cq_workspace_id : Uuid;
  cq_run_id : Uuid;
  cq_expired_lease_id : Uuid;
  cq_expected_fence_epoch : N;
  cq_expected_control_revision : N;
  cq_new_lease_id : Uuid;
  cq_owner_instance_id : Uuid;
  cq_new_process_epoch_id : Uuid;
  cq_new_lease_token : string;
  cq_checkpoint_id : Uuid;
  cq_checkpoint_sequence : N;
  cq_checkpoint_digest : ContentDigest;
}.

(** ** Results *)

Module LeaseMutation.
Inductive t : Type := Acquired | Released | Renewed.
#[global] Instance t_eq_dec : EqDecision t.
Proof. solve_decision. Defined.
End LeaseMutation.

Record LeaseMutationResult := {
  lm_schema : string;
  lm_outcome : LeaseMutation.t;
  lm_lease : RunLease;
  lm_control_revision : N;
}.

Module ReserveOutcome.
Inductive t : Type := ExactExisting | Reserved.
#[global] Instance t_eq_dec : EqDecision t.
Proof. solve_decision. Defined.
End ReserveOutcome.

Record BudgetReserveResult := {
  rx_schema : string;
  rx_outcome : ReserveOutcome.t;
  rx_reservation : BudgetReservation;
  rx_budget_revision : N;
  rx_control_revision : N;
}.

Record BudgetSettlementResult := {
  sx_schema : string;
  sx_reservation : BudgetReservation;
  sx_budget_revision : N;
  sx_control_revision : N;
}.

Record ReplayProofEnvelope := {
  pe_schema : string;
  pe_proof_id : Uuid;
  pe_actor_id : Uuid;
  pe_delegation_id : option Uuid;
  pe_operation : string;
  pe_version : string;
  pe_input_digest : ContentDigest;
  pe_output_digest : ContentDigest;
  pe_timestamp : DateTime;
  pe_expires_at : option DateTime;
  pe_signature : string;
}.

Record ReplayCompletionBinding := {
  rcb_schema : string;
  rcb_replay_binding_digest : ControlDigest;
  rcb_workspace_id : Uuid;
  rcb_run_id : Uuid;
  rcb_step_id : Uuid;
  rcb_checkpoint_id : Uuid;
  rcb_checkpoint_sequence : N;
  rcb_checkpoint_digest : ContentDigest;
  rcb_existing_run_revision : N;
  rcb_existing_step_revision : N;
  rcb_existing_control_revision : N;
  rcb_canonical_output_json : string;
  rcb_input_digest : ContentDigest;
  rcb_output_digest : ContentDigest;
  rcb_proof : ReplayProofEnvelope;
}.

Module DispatchOutcome.
Inductive t : Type :=
| DispatchAuthorized | ExactReplay | ReplayConflict | ReplayFailed | ReplayInProgress
| ReplayUnsupported.
#[global] Instance t_eq_dec : EqDecision t.
Proof. solve_decision. Defined.
End DispatchOutcome.

Record DispatchResult := {
  dx_schema : string;
  dx_outcome : DispatchOutcome.t;
  dx_permit : option DispatchPermit;
  dx_replay_completion : option ReplayCompletionBinding;
  dx_control_revision : N;
}.

Record RuntimeCommitResult := {
  mx_schema : string;
  mx_run_revision : N;
  mx_step_revision : N;
  mx_control_revision : N;
  mx_budget_revision : N;
  mx_charged : BudgetAmounts;
  mx_proof : ProofReference;
}.

Record RuntimeFailureResult := {
  fx_schema : string;
  fx_run_revision : N;
  fx_control_revision : N;
  fx_budget_revision : N;
  fx_directive : option RecoveryDirective;
}.

Module ReclaimOutcome.
Inductive t : Type :=
| AmbiguousForfeited | IdleReclaimed | PreDispatchRecovered | RecoverableReclaimed.
#[global] Instance t_eq_dec : EqDecision t.
Proof. solve_decision. Defined.
End ReclaimOutcome.

Record ReclaimResult := {
  cx_schema : string;
  cx_outcome : ReclaimOutcome.t;
  cx_lease : option RunLease;
  cx_directive : option RecoveryDirective;
  cx_control_revision : N;
}.

(** ** Validators of results *)

Section results.
Context `{Externals} `{OperatorExternals}.

Definition LEASE_MUTATION_SCHEMA : string := "proof.operator.lease-mutation-result/v1".

Definition LeaseMutationResult_validate (r : LeaseMutationResult) : result StoreError.t () :=
  let state_matches :=
    match lm_outcome r with
    | LeaseMutation.Acquired | LeaseMutation.Renewed =>
        bool_decide (ls_state (lm_lease r) = LeaseState.Active)
    | LeaseMutation.Released => bool_decide (ls_state (lm_lease r) = LeaseState.Released)
    end in
  bail StoreError.Invalid
    when negb (bool_decide (lm_schema r = LEASE_MUTATION_SCHEMA))
         || (MAX_SAFE_INTEGER <? lm_control_revision r)%N
         || negb state_matches
         || is_err (RunLease_validate (lm_lease r));
  Ok ().

Definition valid_fixed_base64url (value : string) (decoded_len : nat) : bool :=
  is_some_and (base64url_decode value)
    (λ bytes, bool_decide (String.length bytes = decoded_len)
              && bool_decide (base64url_encode bytes = value)).

Definition REPLAY_ENVELOPE_SCHEMA : string := "proof.operator.replay-proof-envelope/v1".

Definition ReplayProofEnvelope_validate (p : ReplayProofEnvelope) : result StoreError.t () :=
  bail StoreError.Invalid
    when negb (bool_decide (pe_schema p = REPLAY_ENVELOPE_SCHEMA))
         || negb (uuid_is_v7 (pe_proof_id p)) || negb (uuid_is_v7 (pe_actor_id p))
         || any_not_v7 [pe_delegation_id p]
         || negb (valid_operation_name (pe_operation p))
         || negb (valid_operation_version (pe_version p))
         || is_some_and (pe_expires_at p) (λ expires, (expires <=? pe_timestamp p)%Z)
         || negb (valid_fixed_base64url (pe_signature p) 64);
  Ok ().

Definition REPLAY_COMPLETION_SCHEMA : string := "proof.operator.replay-completion-binding/v1".

Definition ReplayCompletionBinding_validate (c : ReplayCompletionBinding)
    : result StoreError.t () :=
  let len := String.length (rcb_canonical_output_json c) in
  let? output := ok_or (json_from_str (rcb_canonical_output_json c)) StoreError.Invalid in
  let? canonical := map_err (λ _, StoreError.Invalid) (canonicalize output) in
  bail StoreError.Invalid
    when negb (bool_decide (rcb_schema c = REPLAY_COMPLETION_SCHEMA))
         || negb (bool_decide (canonical = rcb_canonical_output_json c))
         || (N.of_nat len <? 2)%N || (1048576 <? N.of_nat len)%N
         || not_all_v7 [rcb_workspace_id c; rcb_run_id c; rcb_step_id c; rcb_checkpoint_id c]
         || any_unsafe [rcb_checkpoint_sequence c; rcb_existing_run_revision c;
                        rcb_existing_step_revision c; rcb_existing_control_revision c]
         || is_err (ReplayProofEnvelope_validate (rcb_proof c))
         || negb (bool_decide (pe_input_digest (rcb_proof c) = rcb_input_digest c))
         || negb (bool_decide (pe_output_digest (rcb_proof c) = rcb_output_digest c))
         || negb (bool_decide (digest OperationOutput canonical = rcb_output_digest c));
  Ok ().

Definition DISPATCH_RESULT_SCHEMA : string := "proof.operator.dispatch-result/v1".

Definition DispatchResult_validate (r : DispatchResult) : result StoreError.t () :=
  bail StoreError.Invalid
    when negb (bool_decide (dx_schema r = DISPATCH_RESULT_SCHEMA))
         || (MAX_SAFE_INTEGER <? dx_control_revision r)%N;
  let branch :=
    match dx_outcome r with
    | DispatchOutcome.DispatchAuthorized =>
        is_some_and (dx_permit r) (λ permit, is_ok (DispatchPermit_validate permit))
        && is_none (dx_replay_completion r)
    | DispatchOutcome.ExactReplay =>
        is_none (dx_permit r)
        && is_some_and (dx_replay_completion r)
             (λ completion, is_ok (ReplayCompletionBinding_validate completion))
    | DispatchOutcome.ReplayConflict | DispatchOutcome.ReplayFailed
    | DispatchOutcome.ReplayInProgress | DispatchOutcome.ReplayUnsupported =>
        is_none (dx_permit r) && is_none (dx_replay_completion r)
    end in
  bail StoreError.Invalid when negb branch;
  Ok ().

Definition COMMIT_RESULT_SCHEMA : string := "proof.operator.runtime-commit-result/v1".

Definition RuntimeCommitResult_validate (r : RuntimeCommitResult) : result StoreError.t () :=
  bail StoreError.Invalid
    when negb (bool_decide (mx_schema r = COMMIT_RESULT_SCHEMA))
         || any_unsafe [mx_run_revision r; mx_step_revision r; mx_control_revision r;
                        mx_budget_revision r]
         || negb (is_safe (mx_charged r))
         || is_err (ProofReference_validate (mx_proof r));
  Ok ().

Definition FAILURE_RESULT_SCHEMA : string := "proof.operator.runtime-failure-result/v1".

Definition RuntimeFailureResult_validate (r : RuntimeFailureResult) : result StoreError.t () :=
  bail StoreError.Invalid
    when negb (bool_decide (fx_schema r = FAILURE_RESULT_SCHEMA))
         || any_unsafe [fx_run_revision r; fx_control_revision r; fx_budget_revision r]
         || is_some (fx_directive r);
  Ok ().

Definition RECLAIM_RESULT_SCHEMA : string := "proof.operator.reclaim-result/v1".

Definition ReclaimResult_validate (r : ReclaimResult) : result StoreError.t () :=
  let lease_valid lease :=
    bool_decide (ls_state lease = LeaseState.Active) && is_ok (RunLease_validate lease) in
  let branch :=
    match cx_outcome r with
    | ReclaimOutcome.AmbiguousForfeited => is_none (cx_lease r) && is_none (cx_directive r)
    | ReclaimOutcome.IdleReclaimed =>
        is_some_and (cx_lease r) lease_valid && is_none (cx_directive r)
    | ReclaimOutcome.PreDispatchRecovered | ReclaimOutcome.RecoverableReclaimed =>
        is_some_and (cx_lease r) lease_valid
        && is_some_and (cx_directive r) (λ d, is_ok (RecoveryDirective_validate d))
    end in
  bail StoreError.Invalid
    when negb (bool_decide (cx_schema r = RECLAIM_RESULT_SCHEMA))
         || (MAX_SAFE_INTEGER <? cx_control_revision r)%N || negb branch;
  Ok ().

End results.

(** ** Lease custody *)

(** [compare_exchange(0, 1)] on a state byte: the new value, or [None] when the byte
    was not 0. *)
Definition exchange_0_1 (state : N) : option N := if (state =? 0)%N then Some 1%N else None.

Definition constant_time_eq_32 (left right : ControlDigest) : bool :=
  bool_decide (left = right).

Section lease_custody.
Context `{Externals} `{OperatorExternals}.

Notation lease_call := (call LeaseTokenCustody ExecutionError.t).

Definition LeaseTokenCustody_new (token : string) : LeaseTokenCustody :=
  {| lt_token := token; lt_establishment := None; lt_bound := None; lt_proof_state := 0 |}.

Definition lease_token_digest (token : string) : ControlDigest :=
  control_digest "Proof-Operator-Lease-Token-v1" token.

Definition validate_lease_claim_binding (claim : LeaseClaimBinding)
    : result ExecutionError.t () :=
  bail handler_failed "lease claim binding is invalid"
    when not_all_v7 [lb_workspace_id claim; lb_run_id claim; lb_lease_id claim;
                     lb_owner_instance_id claim; lb_process_epoch_id claim]
         || (MAX_SAFE_INTEGER <? lb_expected_fence_epoch claim)%N
         || (MAX_SAFE_INTEGER <? lb_expected_control_revision claim)%N;
  Ok ().

Definition begin_establishment (establishment : LeaseEstablishment) : lease_call () := λ c,
  let refused := Err (handler_failed "lease establishment proof is unavailable") in
  if is_some (lt_bound c) || is_some (lt_establishment c) then (refused, c)
  else
    match exchange_0_1 (lt_proof_state c) with
    | None => (refused, c)
    | Some state =>
        (Ok (), {| lt_token := lt_token c; lt_establishment := Some establishment;
                   lt_bound := lt_bound c; lt_proof_state := state |})
    end.

Definition claim_request (claim : LeaseClaimBinding) : lease_call LeaseClaimRequest :=
  let! _ := lift (validate_lease_claim_binding claim) in
  let! _ := begin_establishment (Claim claim) in
  λ c, (Ok {| lq_schema := "proof.operator.lease-claim-request/v1";
              lq_workspace_id := lb_workspace_id claim; lq_run_id := lb_run_id claim;
              lq_lease_id := lb_lease_id claim;
              lq_owner_instance_id := lb_owner_instance_id claim;
              lq_process_epoch_id := lb_process_epoch_id claim;
              lq_lease_token := lt_token c;
              lq_expected_fence_epoch := lb_expected_fence_epoch claim;
              lq_expected_control_revision := lb_expected_control_revision claim |}, c).

Definition reclaim_request (claim : LeaseClaimBinding) (expired_lease_id checkpoint_id : Uuid)
    (checkpoint_sequence : N) (checkpoint_digest : ContentDigest)
    : lease_call ReclaimRequest :=
  let! _ := lift (validate_lease_claim_binding claim) in
  stop handler_failed "lease reclaim binding is invalid"
    when negb (uuid_is_v7 expired_lease_id) || negb (uuid_is_v7 checkpoint_id)
         || (MAX_SAFE_INTEGER <? checkpoint_sequence)%N;
  let! _ := begin_establishment
              (Reclaim claim expired_lease_id checkpoint_id checkpoint_sequence
                 checkpoint_digest) in
  λ c, (Ok {| cq_schema := "proof.operator.reclaim-request/v1";
              cq_workspace_id := lb_workspace_id claim; cq_run_id := lb_run_id claim;
              cq_expired_lease_id := expired_lease_id;
              cq_expected_fence_epoch := lb_expected_fence_epoch claim;
              cq_expected_control_revision := lb_expected_control_revision claim;
              cq_new_lease_id := lb_lease_id claim;
              cq_owner_instance_id := lb_owner_instance_id claim;
              cq_new_process_epoch_id := lb_process_epoch_id claim;
              cq_new_lease_token := lt_token c; cq_checkpoint_id := checkpoint_id;
              cq_checkpoint_sequence := checkpoint_sequence;
              cq_checkpoint_digest := checkpoint_digest |}, c).

Definition validate_bound_lease (claim : LeaseClaimBinding) (lease : RunLease)
    (control_revision : N) (token : string) : result ExecutionError.t BoundLease :=
  let token_digest := lease_token_digest token in
  let not_bound := handler_failed "lease result did not bind custody" in
  bail not_bound
    when is_err (RunLease_validate lease)
         || negb (bool_decide (ls_state lease = LeaseState.Active))
         || negb (bool_decide (ls_workspace_id lease = lb_workspace_id claim))
         || negb (bool_decide (ls_run_id lease = lb_run_id claim))
         || negb (bool_decide (ls_lease_id lease = lb_lease_id claim))
         || negb (bool_decide (ls_owner_instance_id lease = lb_owner_instance_id claim))
         || negb (bool_decide (ls_process_epoch_id lease = lb_process_epoch_id claim));
  let? fence := ok_or (checked_add u64_max (lb_expected_fence_epoch claim) 1)
                  (handler_failed "lease fence overflow") in
  bail not_bound when negb (ls_fence_epoch lease =? fence)%N;
  let? revision := ok_or (checked_add u64_max (lb_expected_control_revision claim) 1)
                     (handler_failed "lease control revision overflow") in
  bail not_bound
    when negb (control_revision =? revision)%N
         || negb (constant_time_eq_32 (ls_lease_token_digest lease) token_digest)
         || negb (ls_acquired_at lease =? ls_renewed_at lease)%Z
         || negb (ls_expires_at lease - ls_renewed_at lease =? Duration_seconds 30)%Z;
  Ok {| bd_workspace_id := ls_workspace_id lease; bd_run_id := ls_run_id lease;
        bd_lease_id := ls_lease_id lease; bd_owner_instance_id := ls_owner_instance_id lease;
        bd_process_epoch_id := ls_process_epoch_id lease;
        bd_fence_epoch := ls_fence_epoch lease |}.

Definition set_bound (bound : BoundLease) : lease_call () := λ c,
  (Ok (), {| lt_token := lt_token c; lt_establishment := None; lt_bound := Some bound;
             lt_proof_state := lt_proof_state c |}).

Definition bind_claim_result (result : LeaseMutationResult) : lease_call () := λ c,
  match lt_establishment c with
  | Some (Claim claim) =>
      (stop handler_failed "lease claim did not acquire authority"
         when is_err (LeaseMutationResult_validate result)
              || negb (bool_decide (lm_outcome result = LeaseMutation.Acquired));
       let! bound := lift (validate_bound_lease claim (lm_lease result)
                             (lm_control_revision result) (lt_token c)) in
       set_bound bound) c
  | _ => (Err (handler_failed "lease claim custody is not pending"), c)
  end.

Definition reclaimed (o : ReclaimOutcome.t) : bool :=
  match o with
  | ReclaimOutcome.IdleReclaimed | ReclaimOutcome.PreDispatchRecovered
  | ReclaimOutcome.RecoverableReclaimed => true
  | ReclaimOutcome.AmbiguousForfeited => false
  end.

Definition directive_branch (result : ReclaimResult) (claim : LeaseClaimBinding)
    (expired_lease_id checkpoint_id : Uuid) (checkpoint_sequence : N)
    (checkpoint_digest : ContentDigest) : bool :=
  match cx_outcome result with
  | ReclaimOutcome.IdleReclaimed => is_none (cx_directive result)
  | ReclaimOutcome.PreDispatchRecovered | ReclaimOutcome.RecoverableReclaimed =>
      is_some_and (cx_directive result) (λ d,
        is_ok (RecoveryDirective_validate d)
        && bool_decide (rd_workspace_id d = lb_workspace_id claim)
        && bool_decide (rd_run_id d = lb_run_id claim)
        && bool_decide (rd_source_lease_id d = expired_lease_id)
        && bool_decide (rd_checkpoint_id d = checkpoint_id)
        && (rd_checkpoint_sequence d =? checkpoint_sequence)%N
        && bool_decide (rd_checkpoint_digest d = checkpoint_digest)
        && (rd_source_fence_epoch d =? lb_expected_fence_epoch claim)%N
        && (rd_source_control_revision d =? lb_expected_control_revision claim)%N)
  | ReclaimOutcome.AmbiguousForfeited => false
  end.

Definition bind_reclaim_result (result : ReclaimResult) : lease_call () := λ c,
  match lt_establishment c with
  | Some (Reclaim claim expired_lease_id checkpoint_id checkpoint_sequence checkpoint_digest) =>
      (stop handler_failed "lease reclaim did not return authority"
         when is_err (ReclaimResult_validate result) || negb (reclaimed (cx_outcome result));
       let! lease := lift (ok_or (cx_lease result)
                             (handler_failed "lease reclaim result omitted authority")) in
       stop handler_failed "lease reclaim result does not match its recovery branch"
         when negb (directive_branch result claim expired_lease_id checkpoint_id
                      checkpoint_sequence checkpoint_digest);
       let! bound := lift (validate_bound_lease claim lease (cx_control_revision result)
                             (lt_token c)) in
       set_bound bound) c
  | _ => (Err (handler_failed "lease reclaim custody is not pending"), c)
  end.

Definition LEASE_AUTHORITY_SCHEMA : string := "proof.operator.lease-authority/v1".

Definition authority (c : LeaseTokenCustody) (expected_control_revision : N)
    : result ExecutionError.t LeaseAuthority :=
  let? bound := ok_or (lt_bound c) (handler_failed "lease custody is not bound") in
  bail handler_failed "lease control revision is invalid"
    when (MAX_SAFE_INTEGER <? expected_control_revision)%N;
  Ok {| la_schema := LEASE_AUTHORITY_SCHEMA; la_workspace_id := bd_workspace_id bound;
        la_run_id := bd_run_id bound; la_lease_id := bd_lease_id bound;
        la_owner_instance_id := bd_owner_instance_id bound;
        la_process_epoch_id := bd_process_epoch_id bound;
        la_fence_epoch := bd_fence_epoch bound;
        la_expected_control_revision := expected_control_revision;
        la_lease_token := lt_token c |}.

Definition into_release_request (c : LeaseTokenCustody) (expected_control_revision : N)
    : result ExecutionError.t LeaseReleaseRequest :=
  bail handler_failed "lease release custody is unavailable"
    when is_none (lt_bound c) || (MAX_SAFE_INTEGER <? expected_control_revision)%N;
  Ok {| le_schema := "proof.operator.lease-release-request/v1"; le_custody := c;
        le_expected_control_revision := expected_control_revision |}.

Definition LeaseReleaseRequest_authority (r : LeaseReleaseRequest)
    : result ExecutionError.t LeaseAuthority :=
  authority (le_custody r) (le_expected_control_revision r).

Definition verifies_lease_token_digest (a : LeaseAuthority) (expected : ControlDigest) : bool :=
  constant_time_eq_32 (lease_token_digest (la_lease_token a)) expected.

End lease_custody.

(** ** Dispatch custody *)

(** The clocks of [OperatorControlEnvironment]; an error carries its text. *)
Record ControlClocks := {
  trusted_utc_now : result string DateTime;
  monotonic_millis : result string N;
}.

Definition i64_min : Z := -9223372036854775808.
Definition i64_max : Z := 9223372036854775807.

(** [+] on [i64] in a release build. *)
Definition wrapping_add_i64 (a b : Z) : Z := (a + b - i64_min) mod 2 ^ 64 + i64_min.

Section dispatch_custody.
Context `{Externals} `{OperatorExternals}.

Notation dispatch_call := (call DispatchTokenCustody ExecutionError.t).

Definition DispatchTokenCustody_new (token : string) : DispatchTokenCustody :=
  {| dt_token := token; dt_begin := None; dt_permit := None; dt_monotonic_deadline := None;
     dt_authorization_state := 0; dt_effect_state := 0; dt_settlement_state := 0 |}.

Definition dispatch_token_digest (token : string) : ControlDigest :=
  control_digest "Proof-Operator-Dispatch-Token-v1" token.

Definition call_digest_of (i : DispatchIntent) : option ControlDigest :=
  control_digest_value "Proof-Operator-Dispatch-Call-v1" (intent_value i).

Definition begin_request (authority : LeaseAuthority) (reservation_id : Uuid)
    (intent : DispatchIntent) (intent_digest : ControlDigest)
    (replay : option ReplayClaimBinding) (replay_claim_token : option Uuid)
    (call_digest : ControlDigest) : dispatch_call BeginDispatchRequest := λ c,
  let invalid := handler_failed "dispatch begin binding is invalid" in
  (stop invalid
     when is_some (dt_begin c) || is_some (dt_permit c) || negb (uuid_is_v7 reservation_id)
          || is_err (DispatchIntent_validate intent);
   let! expected := lift (ok_or (intent_digest_of intent)
                            (evidence_failed unwritable_error)) in
   stop invalid when negb (bool_decide (expected = intent_digest));
   let! expected := lift (ok_or (call_digest_of intent)
                            (evidence_failed unwritable_error)) in
   stop invalid
     when negb (bool_decide (expected = call_digest))
          || negb (eqb (is_some replay) (is_some replay_claim_token))
          || any_not_v7 [replay_claim_token]
          || bool_decide (in_kind intent = Provider) && is_some replay;
   λ c, (Ok {| bq_schema := "proof.operator.begin-dispatch-request/v1";
               bq_authority := authority; bq_reservation_id := reservation_id;
               bq_dispatch_token := dt_token c; bq_intent := intent;
               bq_intent_digest := intent_digest; bq_replay := replay;
               bq_replay_claim_token := replay_claim_token;
               bq_call_digest := call_digest |},
         {| dt_token := dt_token c;
            dt_begin := Some {| bb_workspace_id := la_workspace_id authority;
                                bb_run_id := la_run_id authority;
                                bb_lease_id := la_lease_id authority;
                                bb_process_epoch_id := la_process_epoch_id authority;
                                bb_fence_epoch := la_fence_epoch authority;
                                bb_expected_control_revision :=
                                  la_expected_control_revision authority;
                                bb_reservation_id := reservation_id; bb_intent := intent;
                                bb_replay := replay;
                                bb_replay_claim_token := replay_claim_token;
                                bb_call_digest := call_digest |};
            dt_permit := dt_permit c; dt_monotonic_deadline := dt_monotonic_deadline c;
            dt_authorization_state := dt_authorization_state c;
            dt_effect_state := dt_effect_state c;
            dt_settlement_state := dt_settlement_state c |})) c.

(** The monotonic instant at which the budget deadline falls: the remaining time
    rounded up to milliseconds, after [now]. *)
Definition deadline_millis (deadline utc_now : DateTime) (monotonic_now : N)
    : result ExecutionError.t N :=
  let remaining := (deadline - utc_now)%Z in
  bail handler_failed "dispatch deadline is out of range"
    when (remaining <? i64_min)%Z || (i64_max <? remaining)%Z;
  bail handler_failed "dispatch permit expired before binding" when (remaining <=? 0)%Z;
  let millis := Z.quot (wrapping_add_i64 remaining 999999) 1000000 in
  bail handler_failed "dispatch deadline is out of range" when (millis <? 0)%Z;
  ok_or (checked_add u64_max monotonic_now (Z.to_N millis))
    (handler_failed "dispatch deadline overflow").

Definition permit_binds (begin : DispatchBeginBinding) (permit : DispatchPermit)
    (control_revision : N) (token : string) : result ExecutionError.t () :=
  let not_bound := handler_failed "dispatch permit did not bind custody" in
  bail not_bound
    when is_err (DispatchPermit_validate permit)
         || negb (bool_decide (dp_run_id permit = bb_run_id begin))
         || negb (bool_decide (dp_reservation_id permit = bb_reservation_id begin))
         || negb (bool_decide (dp_lease_id permit = bb_lease_id begin))
         || negb (bool_decide (dp_process_epoch_id permit = bb_process_epoch_id begin))
         || negb (dp_fence_epoch permit =? bb_fence_epoch begin)%N
         || negb (dp_expected_control_revision permit
                  =? bb_expected_control_revision begin)%N;
  let? intent_digest := ok_or (intent_digest_of (bb_intent begin))
                          (evidence_failed unwritable_error) in
  bail not_bound
    when negb (bool_decide (dp_intent_digest permit = intent_digest))
         || negb (bool_decide (dp_call_digest permit = bb_call_digest begin))
         || negb (bool_decide (dp_replay_binding_digest permit
                               = rb_binding_digest <$> bb_replay begin));
  let? revision := ok_or (checked_add u64_max (bb_expected_control_revision begin) 1)
                     (handler_failed "dispatch control revision overflow") in
  bail not_bound
    when negb (control_revision =? revision)%N
         || negb (constant_time_eq_32 (dp_dispatch_token_digest permit)
                    (dispatch_token_digest token));
  Ok ().

Definition bind_permit (result : DispatchResult) (environment : ControlClocks)
    : dispatch_call () := λ c,
  (let! begin := lift (ok_or (dt_begin c)
                         (handler_failed "dispatch custody is not pending")) in
   let! _ := lift (map_err (λ _, handler_failed "dispatch result is invalid")
                     (DispatchResult_validate result)) in
   stop handler_failed "dispatch result did not authorize an effect"
     when negb (bool_decide (dx_outcome result = DispatchOutcome.DispatchAuthorized));
   let! permit := lift (ok_or (dx_permit result)
                          (handler_failed "dispatch result omitted permit")) in
   let! _ := lift (permit_binds begin permit (dx_control_revision result) (dt_token c)) in
   let! utc_now := lift (map_err handler_failed (trusted_utc_now environment)) in
   let! monotonic_now := lift (map_err handler_failed (monotonic_millis environment)) in
   let! deadline := lift (deadline_millis (dp_budget_deadline_at permit) utc_now
                            monotonic_now) in
   λ c, (Ok (), {| dt_token := dt_token c; dt_begin := dt_begin c; dt_permit := Some permit;
                   dt_monotonic_deadline := Some deadline;
                   dt_authorization_state := dt_authorization_state c;
                   dt_effect_state := dt_effect_state c;
                   dt_settlement_state := dt_settlement_state c |})) c.

(** The [DispatchAuthorization] it returns borrows the custody. *)
Definition authorization : dispatch_call () := λ c,
  let refused := Err (handler_failed "dispatch authority is unavailable") in
  if is_none (dt_permit c) || is_none (dt_monotonic_deadline c) then (refused, c)
  else
    match exchange_0_1 (dt_authorization_state c) with
    | None => (refused, c)
    | Some state =>
        let c' := {| dt_token := dt_token c; dt_begin := dt_begin c; dt_permit := dt_permit c;
                     dt_monotonic_deadline := dt_monotonic_deadline c;
                     dt_authorization_state := state; dt_effect_state := dt_effect_state c;
                     dt_settlement_state := dt_settlement_state c |} in
        if negb (dt_effect_state c =? 0)%N then (refused, c') else (Ok (), c')
    end.

(** [consume_effect] on the authorization; [alive] is the lease's liveness flag. *)
Definition consume_effect (alive : bool) (trusted_now : DateTime) (monotonic_now : N)
    : dispatch_call () := λ c,
  (let! permit := lift (expect (dt_permit c)) in
   let! deadline := lift (expect (dt_monotonic_deadline c)) in
   stop handler_failed "dispatch authority expired before effect"
     when negb alive || (dp_budget_deadline_at permit <=? trusted_now)%Z
          || (deadline <=? monotonic_now)%N;
   λ c, match exchange_0_1 (dt_effect_state c) with
        | None => (Err (handler_failed "dispatch authority already consumed"), c)
        | Some state =>
            (Ok (), {| dt_token := dt_token c; dt_begin := dt_begin c;
                       dt_permit := dt_permit c;
                       dt_monotonic_deadline := dt_monotonic_deadline c;
                       dt_authorization_state := dt_authorization_state c;
                       dt_effect_state := state;
                       dt_settlement_state := dt_settlement_state c |})
        end) c.

Definition consume_settlement (commit : bool) (authority : LeaseAuthority)
    : dispatch_call () := λ c,
  let invalid := handler_failed "dispatch settlement custody is invalid" in
  (let! permit := lift (ok_or (dt_permit c)
                          (handler_failed "dispatch custody is not bound")) in
   stop invalid
     when commit && negb (dt_effect_state c =? 1)%N
          || negb (bool_decide (la_run_id authority = dp_run_id permit))
          || negb (bool_decide (la_lease_id authority = dp_lease_id permit))
          || negb (bool_decide (la_process_epoch_id authority = dp_process_epoch_id permit))
          || negb (la_fence_epoch authority =? dp_fence_epoch permit)%N;
   let! revision := lift (ok_or (checked_add u64_max (dp_expected_control_revision permit) 1)
                            (handler_failed "dispatch control revision overflow")) in
   stop invalid when negb (la_expected_control_revision authority =? revision)%N;
   λ c, match exchange_0_1 (dt_settlement_state c) with
        | None => (Err invalid, c)
        | Some state =>
            (Ok (), {| dt_token := dt_token c; dt_begin := dt_begin c;
                       dt_permit := dt_permit c;
                       dt_monotonic_deadline := dt_monotonic_deadline c;
                       dt_authorization_state := dt_authorization_state c;
                       dt_effect_state := dt_effect_state c;
                       dt_settlement_state := state |})
        end) c.

(** A settlement conversion takes the custody by value: on an error the custody
    comes back in the error, on success it is inside the request. *)
Definition into_commit_request (authority : LeaseAuthority)
    (prepared : PreparedExecutionBinding) : dispatch_call RuntimeCommitRequest :=
  let! _ := consume_settlement true authority in
  λ c, (let? permit := expect (dt_permit c) in
        Ok {| mq_schema := "proof.operator.runtime-commit-request/v1";
              mq_authority := authority; mq_permit := permit; mq_custody := c;
              mq_prepared := prepared |}, c).

Definition failure_value (f : RuntimeFailureBody) : option json :=
  strict_object
    [("schema", text (fb_schema f));
     ("reservation_id", strict_uuid_v7_serialize (fb_reservation_id f));
     ("permit_id", strict_uuid_v7_serialize (fb_permit_id f));
     ("classification", text "ambiguous_forfeit_required");
     ("failure_code", text (FailureCode.wire (fb_failure_code f)));
     ("intent_digest", control_value (fb_intent_digest f));
     ("call_digest", control_value (fb_call_digest f))].

Definition FAILURE_BODY_SCHEMA : string := "proof.operator.runtime-failure-body/v1".

Definition failure_digest_of (f : RuntimeFailureBody) : option ControlDigest :=
  control_digest_value "Proof-Operator-Runtime-Failure-v1" (failure_value f).

Definition into_failure_request (authority : LeaseAuthority) (failure : RuntimeFailureBody)
    (error_digest : ControlDigest) : dispatch_call RuntimeFailureRequest := λ c,
  let failure_matches :=
    is_some_and (dt_permit c) (λ permit,
      bool_decide (fb_schema failure = FAILURE_BODY_SCHEMA)
      && bool_decide (fb_reservation_id failure = dp_reservation_id permit)
      && bool_decide (fb_permit_id failure = dp_permit_id permit)
      && bool_decide (fb_classification failure = AmbiguousForfeitRequired)
      && bool_decide (fb_intent_digest failure = dp_intent_digest permit)
      && bool_decide (fb_call_digest failure = dp_call_digest permit)
      && bool_decide (failure_digest_of failure = Some error_digest)) in
  (stop handler_failed "runtime failure does not match dispatch custody"
     when negb failure_matches;
   let! _ := consume_settlement false authority in
   λ c, (let? permit := expect (dt_permit c) in
         Ok {| fq_schema := "proof.operator.runtime-failure-request/v1";
               fq_authority := authority; fq_permit := permit; fq_custody := c;
               fq_failure := failure; fq_error_digest := error_digest |}, c)) c.

Definition prepared_matches_dispatch (c : DispatchTokenCustody)
    (prepared : PreparedExecutionBinding) : bool :=
  match dt_permit c, dt_begin c with
  | Some permit, Some begin =>
      let usage := rr_usage (xb_result prepared) in
      let intent := bb_intent begin in
      is_ok (PreparedExecutionBinding_validate prepared)
      && bool_decide (xb_replay_binding_digest prepared = dp_replay_binding_digest permit)
      && bool_decide (pf_operation (rr_proof (xb_result prepared)) = in_operation intent)
      && bool_decide (ur_boundary_kind usage = in_kind intent)
      && bool_decide (ur_adapter usage = in_adapter intent)
      && bool_decide (ur_model usage = in_model intent)
      && (ur_steps usage <=? steps (in_ceiling intent))%N
      && (ur_tokens usage <=? tokens (in_ceiling intent))%N
      && (ur_cost_microusd usage <=? cost_microusd (in_ceiling intent))%N
      && (ur_tool_dispatches usage <=? tool_dispatches (in_ceiling intent))%N
  | _, _ => false
  end.

Definition verifies_dispatch_token_digest (c : DispatchTokenCustody)
    (expected : ControlDigest) : bool :=
  constant_time_eq_32 (dispatch_token_digest (dt_token c)) expected.

End dispatch_custody.

(** ** Reported usage *)

(** An [Arc<GovernedReporterSeal>]: [seal_address] is what [Arc::ptr_eq] compares. *)
Record GovernedReporterSeal := {
  seal_address : N;
  seal_operation : string;
  seal_version : string;
  seal_kind : BoundaryKind;
  seal_adapter : string;
  seal_model : option string;
}.

Record PreparedBoundaryUsage := {
  pb_seal : GovernedReporterSeal;
  pb_boundary_kind : BoundaryKind;
  pb_tokens : N;
  pb_cost_microusd : N;
  pb_tool_dispatches : N;
}.

Record PreparedHandlerOutput := {
  ho_output : json;
  ho_mutation : PreparedHandlerMutation;
  ho_boundary_usage : PreparedBoundaryUsage;
}.

Record GovernedAdapterRegistration := {
  gr_operation : string;
  gr_version : string;
  gr_kind : BoundaryKind;
  gr_adapter : string;
  gr_model : option string;
}.

Record PreparedUsage := {
  pu_schema : string;
  pu_boundary_kind : BoundaryKind;
  pu_boundary_calls : N;
  pu_adapter : string;
  pu_model : option string;
  pu_steps : N;
  pu_tokens : N;
  pu_cost_microusd : N;
  pu_tool_dispatches : N;
  pu_input_digest : ContentDigest;
  pu_output_digest : ContentDigest;
}.

(** Both ends of a registration hold the same seal. *)
Definition GovernedAdapterReporter := GovernedReporterSeal.
Definition RegisteredGovernedAdapter := GovernedReporterSeal.

Definition GovernedAdapterRegistration_new (operation version : string) (kind : BoundaryKind)
    (adapter : string) (model : option string)
    : result ExecutionError.t GovernedAdapterRegistration :=
  bail handler_failed "governed adapter registration is invalid"
    when negb (valid_operation_name operation) || negb (valid_operation_version version)
         || negb (valid_adapter_name adapter)
         || is_some_and model (λ model, negb (valid_model_name model))
         || negb (eqb (bool_decide (kind = Provider)) (is_some model));
  Ok {| gr_operation := operation; gr_version := version; gr_kind := kind;
        gr_adapter := adapter; gr_model := model |}.

(** [Arc::new] allocates [address]. *)
Definition mint (address : N) (r : GovernedAdapterRegistration)
    : GovernedAdapterReporter * RegisteredGovernedAdapter :=
  let seal := {| seal_address := address; seal_operation := gr_operation r;
                 seal_version := gr_version r; seal_kind := gr_kind r;
                 seal_adapter := gr_adapter r; seal_model := gr_model r |} in
  (seal, seal).

Definition provider_output (reporter : GovernedAdapterReporter) (output : json)
    (tokens cost_microusd : N) : result ExecutionError.t PreparedHandlerOutput :=
  bail evidence_failed "governed reporter branch mismatch"
    when negb (bool_decide (seal_kind reporter = Provider));
  Ok {| ho_output := output; ho_mutation := NoEffect;
        ho_boundary_usage := {| pb_seal := reporter; pb_boundary_kind := Provider;
                                pb_tokens := tokens; pb_cost_microusd := cost_microusd;
                                pb_tool_dispatches := 0 |} |}.

Definition tool_output (reporter : GovernedAdapterReporter) (output : json)
    : result ExecutionError.t PreparedHandlerOutput :=
  bail evidence_failed "governed reporter branch mismatch"
    when negb (bool_decide (seal_kind reporter = Tool));
  Ok {| ho_output := output; ho_mutation := NoEffect;
        ho_boundary_usage := {| pb_seal := reporter; pb_boundary_kind := Tool;
                                pb_tokens := 0; pb_cost_microusd := 0;
                                pb_tool_dispatches := 1 |} |}.

Definition matches_intent (registered : RegisteredGovernedAdapter) (intent : DispatchIntent)
    : bool :=
  bool_decide (seal_operation registered = in_operation intent)
  && bool_decide (seal_version registered = in_version intent)
  && bool_decide (seal_kind registered = in_kind intent)
  && bool_decide (seal_adapter registered = in_adapter intent)
  && bool_decide (seal_model registered = in_model intent).

Definition owns (registered : RegisteredGovernedAdapter) (usage : PreparedBoundaryUsage)
    : bool :=
  (seal_address registered =? seal_address (pb_seal usage))%N.

Definition from_report (intent : DispatchIntent) (registered : RegisteredGovernedAdapter)
    (report : PreparedBoundaryUsage) (input_digest output_digest : ContentDigest)
    : result ExecutionError.t PreparedUsage :=
  let ceiling := in_ceiling intent in
  bail evidence_failed "prepared boundary usage is invalid"
    when negb (matches_intent registered intent)
         || negb (owns registered report)
         || negb (bool_decide (pb_boundary_kind report = in_kind intent))
         || (tokens ceiling <? pb_tokens report)%N
         || (cost_microusd ceiling <? pb_cost_microusd report)%N
         || (tool_dispatches ceiling <? pb_tool_dispatches report)%N
         || (steps ceiling <? 1)%N
         || bool_decide (pb_boundary_kind report = Provider)
            && negb (pb_tool_dispatches report =? 0)%N
         || bool_decide (pb_boundary_kind report = Tool)
            && (negb (pb_tokens report =? 0)%N || negb (pb_cost_microusd report =? 0)%N
                || negb (pb_tool_dispatches report =? 1)%N);
  Ok {| pu_schema := USAGE_SCHEMA; pu_boundary_kind := pb_boundary_kind report;
        pu_boundary_calls := 1; pu_adapter := in_adapter intent; pu_model := in_model intent;
        pu_steps := 1; pu_tokens := pb_tokens report;
        pu_cost_microusd := pb_cost_microusd report;
        pu_tool_dispatches := pb_tool_dispatches report; pu_input_digest := input_digest;
        pu_output_digest := output_digest |}.

(** The persisted projection of sealed usage. *)
Definition from_sealed (usage : PreparedUsage) : PreparedUsageRecord :=
  {| ur_schema := USAGE_SCHEMA; ur_boundary_kind := pu_boundary_kind usage;
     ur_boundary_calls := pu_boundary_calls usage; ur_adapter := pu_adapter usage;
     ur_model := pu_model usage; ur_steps := pu_steps usage; ur_tokens := pu_tokens usage;
     ur_cost_microusd := pu_cost_microusd usage;
     ur_tool_dispatches := pu_tool_dispatches usage;
     ur_input_digest := pu_input_digest usage; ur_output_digest := pu_output_digest usage |}.

(** ** A caller of a dispatch custody *)

(** What safe code can do with the custody.  [consume_effect] needs the
    authorization, which borrows the custody mutably: while it exists no other method
    can be called. *)
Inductive custody_op : Type :=
| OpBegin (authority : LeaseAuthority) (reservation_id : Uuid) (intent : DispatchIntent)
    (intent_digest : ControlDigest) (replay : option ReplayClaimBinding)
    (replay_claim_token : option Uuid) (call_digest : ControlDigest)
| OpBind (result : DispatchResult) (environment : ControlClocks)
| OpAuthorize
| OpConsume (alive : bool) (trusted_now : DateTime) (monotonic_now : N)
| OpDropAuthorization
| OpCommit (authority : LeaseAuthority) (prepared : PreparedExecutionBinding)
| OpFail (authority : LeaseAuthority) (failure : RuntimeFailureBody)
    (error_digest : ControlDigest).

Inductive custody_event : Type :=
| EffectConsumed
| CommitRequested (request : RuntimeCommitRequest)
| FailureRequested (request : RuntimeFailureRequest).

(** The caller owns the custody, with or without an authorization that borrows it,
    or has given it away in a settlement request. *)
Inductive holder : Type :=
| Owned (c : DispatchTokenCustody) (authorized : bool)
| Settled.

Section caller.
Context `{Externals} `{OperatorExternals}.

(** A call the borrow checker refuses leaves the holder as it is. *)
Definition custody_apply (o : custody_op) (h : holder) : list custody_event * holder :=
  match h with
  | Settled => ([], Settled)
  | Owned c true =>
      match o with
      | OpConsume alive trusted_now monotonic_now =>
          let '(r, c') := consume_effect alive trusted_now monotonic_now c in
          (if is_ok r then [EffectConsumed] else [], Owned c' false)
      | OpDropAuthorization => ([], Owned c false)
      | _ => ([], h)
      end
  | Owned c false =>
      match o with
      | OpBegin a rid i id rp tok cd =>
          ([], Owned (begin_request a rid i id rp tok cd c).2 false)
      | OpBind result environment => ([], Owned (bind_permit result environment c).2 false)
      | OpAuthorize => let '(r, c') := authorization c in ([], Owned c' (is_ok r))
      | OpCommit a prepared =>
          match into_commit_request a prepared c with
          | (Ok request, _) => ([CommitRequested request], Settled)
          | (_, c') => ([], Owned c' false)
          end
      | OpFail a failure error_digest =>
          match into_failure_request a failure error_digest c with
          | (Ok request, _) => ([FailureRequested request], Settled)
          | (_, c') => ([], Owned c' false)
          end
      | OpConsume _ _ _ | OpDropAuthorization => ([], h)
      end
  end.

Fixpoint custody_run (ops : list custody_op) (h : holder) : list custody_event * holder :=
  match ops with
  | [] => ([], h)
  | o :: ops' =>
      let '(events, h') := custody_apply o h in
      let '(events', h'') := custody_run ops' h' in
      (events ++ events', h'')
  end.

End caller.

(** ** The contract of a dispatch custody *)

(** The authority of a settlement is that of its permit, one control revision on. *)
Definition settles (a : LeaseAuthority) (p : DispatchPermit) : Prop :=
  la_run_id a = dp_run_id p ∧ la_lease_id a = dp_lease_id p
  ∧ la_process_epoch_id a = dp_process_epoch_id p ∧ la_fence_epoch a = dp_fence_epoch p
  ∧ la_expected_control_revision a = (dp_expected_control_revision p + 1)%N.

Definition settlement (e : custody_event) : Prop :=
  match e with
  | EffectConsumed => False
  | CommitRequested r => settles (mq_authority r) (mq_permit r)
  | FailureRequested r => settles (fq_authority r) (fq_permit r)
  end.

Definition is_failure (e : custody_event) : Prop :=
  match e with FailureRequested _ => True | _ => False end.

Section contract.
Context `{Externals} `{OperatorExternals}.

Ltac run_call :=
  unfold cbind, lift, throw in *;
  repeat match goal with
  | E : context [match ?x with _ => _ end] |- _ =>
      lazymatch x with
      | context [match _ with _ => _ end] => fail
      | _ => destruct x eqn:?; simplify_eq/=
      end
  end; try done.

Lemma begin_request_frame a rid i id rp tok cd c r c' :
  begin_request a rid i id rp tok cd c = (r, c') →
  dt_effect_state c' = dt_effect_state c ∧ dt_settlement_state c' = dt_settlement_state c.
Proof. unfold begin_request. intros E. run_call. Qed.

Lemma bind_permit_frame x env c r c' :
  bind_permit x env c = (r, c') →
  dt_effect_state c' = dt_effect_state c ∧ dt_settlement_state c' = dt_settlement_state c.
Proof. unfold bind_permit. intros E. run_call. Qed.

Lemma authorization_frame c r c' :
  authorization c = (r, c') →
  dt_settlement_state c' = dt_settlement_state c ∧ dt_effect_state c' = dt_effect_state c
  ∧ (is_ok r = true → dt_effect_state c = 0%N ∧ is_Some (dt_permit c')
                      ∧ is_Some (dt_monotonic_deadline c')).
Proof.
  unfold authorization. intros E.
  destruct (dt_permit c) eqn:P, (dt_monotonic_deadline c) eqn:D; cbn in E; simplify_eq; try done.
  destruct (exchange_0_1 _); simplify_eq; [|done].
  destruct (dt_effect_state c =? 0)%N eqn:Z; cbn in E; simplify_eq; cbn; [|done].
  apply N.eqb_eq in Z. eauto 10.
Qed.

Lemma consume_effect_frame alive now mono c r c' :
  consume_effect alive now mono c = (r, c') →
  dt_settlement_state c' = dt_settlement_state c
  ∧ if is_ok r then dt_effect_state c = 0%N ∧ dt_effect_state c' = 1%N
    else dt_effect_state c' = dt_effect_state c.
Proof.
  unfold consume_effect, exchange_0_1. intros E. run_call.
  split; [done|]. split; [by apply N.eqb_eq|done].
Qed.

Lemma consume_settlement_frame commit a c r c' :
  consume_settlement commit a c = (r, c') →
  match r with
  | Ok _ => dt_settlement_state c = 0%N ∧ (commit = true → dt_effect_state c = 1%N)
            ∧ dt_permit c' = dt_permit c
            ∧ ∃ p, dt_permit c = Some p ∧ settles a p
  | _ => c' = c
  end.
Proof.
  destruct r as [[]| |].
  - unfold consume_settlement. intros E. call_inv.
    match goal with E : checked_add _ _ _ = Some _ |- _ => apply checked_add_Some in E as [-> _] end.
    unfold exchange_0_1 in *. destruct (dt_settlement_state c =? 0)%N eqn:S; simplify_eq.
    apply N.eqb_eq in S. repeat match goal with E : (_ =? _)%N = true |- _ => apply N.eqb_eq in E end.
    split_and!; [done| |done|].
    + intros ->. cbn in *. res_inv. by apply N.eqb_eq.
    + eexists. split; [done|]. unfold settles. by split_and!.
  - unfold consume_settlement. intros E. run_call.
  - unfold consume_settlement. intros E. run_call.
Qed.

Lemma into_commit_request_inv a x c r c' :
  into_commit_request a x c = (r, c') →
  match r with
  | Ok q => dt_settlement_state c = 0%N ∧ dt_effect_state c = 1%N
            ∧ settles (mq_authority q) (mq_permit q)
  | _ => c' = c
  end.
Proof.
  unfold into_commit_request, cbind.
  destruct (consume_settlement true a c) as [[[]|e|] c1] eqn:E; apply consume_settlement_frame in E.
  - destruct E as (S & F & P & p & Ep & St). intros [= <- <-]. rewrite P, Ep. cbn.
    split_and!; auto.
  - by intros [= <- <-].
  - by intros [= <- <-].
Qed.

Lemma into_failure_request_inv a f d c r c' :
  into_failure_request a f d c = (r, c') →
  match r with
  | Ok q => dt_settlement_state c = 0%N ∧ settles (fq_authority q) (fq_permit q)
  | _ => c' = c
  end.
Proof.
  unfold into_failure_request, cbind. destruct (negb _); [by intros [= <- <-]|].
  destruct (consume_settlement false a c) as [[[]|e|] c1] eqn:E; apply consume_settlement_frame in E.
  - destruct E as (S & F & P & p & Ep & St). intros [= <- <-]. rewrite P, Ep. by cbn.
  - by intros [= <- <-].
  - by intros [= <- <-].
Qed.

(** What can still happen with the custody in the state given by its effect byte. *)
Definition can_happen (h : holder) (events : list custody_event) : Prop :=
  match h with
  | Settled => events = []
  | Owned c _ =>
      dt_settlement_state c = 0%N →
      if (dt_effect_state c =? 0)%N
      then events = [] ∨ events = [EffectConsumed]
           ∨ (∃ e, events = [EffectConsumed; e] ∧ settlement e)
           ∨ (∃ e, events = [e] ∧ settlement e ∧ is_failure e)
      else events = [] ∨ ∃ e, events = [e] ∧ settlement e
  end.

Definition unsettled (h : holder) : Prop :=
  match h with Settled => True | Owned c _ => dt_settlement_state c = 0%N end.

Lemma custody_apply_unsettled o h :
  unsettled h → unsettled (custody_apply o h).2.
Proof.
  destruct h as [c []|]; [..|done]; cbn [unsettled]; intros U; destruct o; cbn [custody_apply];
    try exact U.
  - destruct (consume_effect _ _ _ c) as [r c'] eqn:E. apply consume_effect_frame in E as [E _].
    cbn. congruence.
  - destruct (begin_request _ _ _ _ _ _ _ c) as [r c'] eqn:E.
    apply begin_request_frame in E as [_ E]. cbn. congruence.
  - destruct (bind_permit _ _ c) as [r c'] eqn:E. apply bind_permit_frame in E as [_ E].
    cbn. congruence.
  - destruct (authorization c) as [r c'] eqn:E. apply authorization_frame in E as [E _].
    cbn. congruence.
  - destruct (into_commit_request _ _ c) as [[q|e|] c'] eqn:E; apply into_commit_request_inv in E;
      cbn; (done || congruence).
  - destruct (into_failure_request _ _ _ c) as [[q|e|] c'] eqn:E;
      apply into_failure_request_inv in E; cbn; (done || congruence).
Qed.

Lemma can_happen_step o h rest :
  unsettled h → can_happen (custody_apply o h).2 rest →
  can_happen h ((custody_apply o h).1 ++ rest).
Proof.
  intros U. pose proof (custody_apply_unsettled o h U) as U'. revert U'.
  destruct h as [c []|]; [..|done]; cbn [unsettled] in U; destruct o; cbn [custody_apply];
    try (intros _ HH; exact HH).
  - destruct (consume_effect _ _ _ c) as [r c'] eqn:E. apply consume_effect_frame in E as [_ E].
    cbn [fst snd unsettled can_happen]. intros U' HH _. specialize (HH U').
    destruct (is_ok r); [|by rewrite <- E]. destruct E as [E E'].
    rewrite E' in HH. rewrite E. cbn [N.eqb Pos.eqb app] in *.
    destruct HH as [->|(e & -> & S)]; eauto 6.
  - destruct (begin_request _ _ _ _ _ _ _ c) as [r c'] eqn:E.
    apply begin_request_frame in E as [E _]. cbn [fst snd unsettled can_happen app].
    intros U' HH _. specialize (HH U'). by rewrite <- E.
  - destruct (bind_permit _ _ c) as [r c'] eqn:E. apply bind_permit_frame in E as [E _].
    cbn [fst snd unsettled can_happen app]. intros U' HH _. specialize (HH U'). by rewrite <- E.
  - destruct (authorization c) as [r c'] eqn:E. apply authorization_frame in E as (_ & E & _).
    cbn [fst snd unsettled can_happen app]. intros U' HH _. specialize (HH U'). by rewrite <- E.
  - destruct (into_commit_request _ _ c) as [[q|e|] c'] eqn:E;
      apply into_commit_request_inv in E; cbn [fst snd unsettled can_happen app].
    + destruct E as (_ & F & S). intros _ -> _. rewrite F. cbn. right. eauto.
    + subst. by intros _ HH.
    + subst. by intros _ HH.
  - destruct (into_failure_request _ _ _ c) as [[q|e|] c'] eqn:E;
      apply into_failure_request_inv in E; cbn [fst snd unsettled can_happen app].
    + destruct E as (_ & S). intros _ -> _. destruct (_ =? _)%N; [do 3 right|right];
        eexists; split_and!; done.
    + subst. by intros _ HH.
    + subst. by intros _ HH.
Qed.

Lemma custody_run_events ops h :
  unsettled h → can_happen h (custody_run ops h).1.
Proof.
  revert h. induction ops as [|o ops IH]; intros h U; cbn [custody_run].
  - destruct h; cbn; [|done]. intros _. destruct (_ =? _)%N; by left.
  - pose proof (can_happen_step o h (custody_run ops (custody_apply o h).2).1 U) as St.
    pose proof (IH _ (custody_apply_unsettled o h U)) as HH.
    destruct (custody_apply o h) as [events h']. cbn [fst snd] in *.
    destruct (custody_run ops h') as [events' h'']. cbn [fst snd] in *. auto.
Qed.

(** C20: a dispatch custody is used linearly.  Whatever sequence of calls a caller
    makes, with any arguments and any clocks, at most one effect is authorized and at
    most one settlement request leaves the custody; a commit request leaves it only
    after the effect, and the authority of a settlement is that of the bound permit
    at the next control revision. *)
Theorem dispatch_custody_linear (token : string) (ops : list custody_op) :
  let events := (custody_run ops (Owned (DispatchTokenCustody_new token) false)).1 in
  events = [] ∨ events = [EffectConsumed]
  ∨ (∃ e, events = [EffectConsumed; e] ∧ settlement e)
  ∨ (∃ e, events = [e] ∧ settlement e ∧ is_failure e).
Proof. by apply (custody_run_events ops (Owned (DispatchTokenCustody_new token) false)). Qed.

End contract.

(** ** The contract of a lease custody *)

Inductive lease_op : Type :=
| OpClaim (claim : LeaseClaimBinding)
| OpReclaim (claim : LeaseClaimBinding) (expired_lease_id checkpoint_id : Uuid)
    (checkpoint_sequence : N) (checkpoint_digest : ContentDigest)
| OpBindClaim (result : LeaseMutationResult)
| OpBindReclaim (result : ReclaimResult).

(** What a request for a lease asked for, and the lease that granted it. *)
Definition establishment_claim (e : LeaseEstablishment) : LeaseClaimBinding :=
  match e with Claim claim => claim | Reclaim claim _ _ _ _ => claim end.

Record granted `{Externals} (claim : LeaseClaimBinding) (token : string) (lease : RunLease)
    : Prop := {
  granted_valid : RunLease_validate lease = Ok ();
  granted_active : ls_state lease = LeaseState.Active;
  granted_token : ls_lease_token_digest lease = lease_token_digest token;
  granted_run : ls_run_id lease = lb_run_id claim;
  granted_lease : ls_lease_id lease = lb_lease_id claim;
  granted_fence : ls_fence_epoch lease = (lb_expected_fence_epoch claim + 1)%N;
}.

Section lease_contract.
Context `{Externals} `{OperatorExternals}.

Definition lease_apply (o : lease_op) (c : LeaseTokenCustody)
    : list LeaseEstablishment * LeaseTokenCustody :=
  match o with
  | OpClaim claim =>
      let '(r, c') := claim_request claim c in
      (if is_ok r then [Claim claim] else [], c')
  | OpReclaim claim lease checkpoint sequence digest =>
      let '(r, c') := reclaim_request claim lease checkpoint sequence digest c in
      (if is_ok r then [Reclaim claim lease checkpoint sequence digest] else [], c')
  | OpBindClaim result => ([], (bind_claim_result result c).2)
  | OpBindReclaim result => ([], (bind_reclaim_result result c).2)
  end.

(** The requests sent, and the custody afterwards. *)
Fixpoint lease_run (ops : list lease_op) (c : LeaseTokenCustody)
    : list LeaseEstablishment * LeaseTokenCustody :=
  match ops with
  | [] => ([], c)
  | o :: ops' =>
      let '(sent, c') := lease_apply o c in
      let '(sent', c'') := lease_run ops' c' in
      (sent ++ sent', c'')
  end.

Definition bound_of (lease : RunLease) : BoundLease :=
  {| bd_workspace_id := ls_workspace_id lease; bd_run_id := ls_run_id lease;
     bd_lease_id := ls_lease_id lease; bd_owner_instance_id := ls_owner_instance_id lease;
     bd_process_epoch_id := ls_process_epoch_id lease; bd_fence_epoch := ls_fence_epoch lease |}.

(** The custody after the requests [sent] have left it. *)
Definition lease_inv (token : string) (sent : list LeaseEstablishment) (c : LeaseTokenCustody)
    : Prop :=
  lt_token c = token
  ∧ ((sent = [] ∧ lt_establishment c = None ∧ lt_bound c = None ∧ lt_proof_state c = 0%N)
     ∨ ∃ e, sent = [e] ∧ lt_proof_state c = 1%N
        ∧ ((lt_establishment c = Some e ∧ lt_bound c = None)
           ∨ (lt_establishment c = None ∧ ∃ lease, lt_bound c = Some (bound_of lease)
                ∧ granted (establishment_claim e) token lease))).

Lemma validate_bound_lease_inv claim lease revision token b :
  validate_bound_lease claim lease revision token = Ok b →
  b = bound_of lease ∧ granted claim token lease.
Proof.
  unfold validate_bound_lease. intros E. res_inv. unfold constant_time_eq_32 in *.
  repeat match goal with
  | E : checked_add _ _ _ = Some _ |- _ => apply checked_add_Some in E as [-> _]
  | E : (_ =? _)%N = true |- _ => apply N.eqb_eq in E
  end. res_inv.
  split; [done|]. split; try done.
  match goal with E : is_err ?v = false |- _ => destruct v as [[]| |] eqn:V end; try done.
  exfalso. revert V. unfold RunLease_validate.
  repeat apply bail_not_Panic. apply rbind_not_Panic; [apply ok_or_not_Panic|].
  intros ? _. by apply bail_not_Panic.
Qed.

Lemma begin_establishment_inv token sent e c r c' :
  lease_inv token sent c → begin_establishment e c = (r, c') →
  lease_inv token (sent ++ if is_ok r then [e] else []) c'.
Proof.
  intros [T I] E. unfold begin_establishment, exchange_0_1 in E.
  destruct I as [(-> & Es & B & P)|(e' & -> & P & I)].
  - rewrite Es, B, P in E. cbn in E. simplify_eq. split; [done|]. right. exists e. cbn. auto.
  - assert (is_some (lt_bound c) || is_some (lt_establishment c) = true) as G.
    { destruct I as [[-> ->]|[-> (l & -> & _)]]; done. }
    rewrite G in E. simplify_eq. cbn. split; [done|]. right. eauto.
Qed.

Lemma lease_apply_inv token sent o c :
  lease_inv token sent c → lease_inv token (sent ++ (lease_apply o c).1) (lease_apply o c).2.
Proof.
  intros I. destruct o as [claim|claim l k s d|x|x]; cbn [lease_apply].
  - unfold claim_request, cbind, lift.
    destruct (validate_lease_claim_binding claim) as [u|e|]; cbn; rewrite ?app_nil_r; try done.
    destruct (begin_establishment (Claim claim) c) as [[]] eqn:E;
      by apply (begin_establishment_inv _ _ _ _ _ _ I) in E.
  - unfold reclaim_request, cbind, lift, throw.
    destruct (validate_lease_claim_binding claim) as [u|e|]; cbn; rewrite ?app_nil_r; try done.
    destruct (_ || _); cbn; rewrite ?app_nil_r; [done|].
    destruct (begin_establishment (Reclaim claim l k s d) c) as [[]] eqn:E;
      by apply (begin_establishment_inv _ _ _ _ _ _ I) in E.
  - cbn [fst snd]. rewrite app_nil_r. unfold bind_claim_result.
    destruct (lt_establishment c) as [[claim|]|] eqn:Es; try done.
    unfold cbind, lift, throw. destruct (_ || _); [done|].
    destruct (validate_bound_lease _ _ _ _) as [b| |] eqn:V; try done.
    apply validate_bound_lease_inv in V as [-> G]. destruct I as [T I]. subst.
    destruct I as [(_ & E & _)|(e & -> & P & [[E _]|[E _]])]; try congruence.
    rewrite Es in E. injection E as <-. split; [done|]. right. cbn. eauto 10.
  - cbn [fst snd]. rewrite app_nil_r. unfold bind_reclaim_result.
    destruct (lt_establishment c) as [[|claim l k s d]|] eqn:Es; try done.
    unfold cbind, lift, throw. destruct (_ || _); [done|].
    destruct (cx_lease x) as [lease|]; [|done]. cbn [ok_or]. destruct (negb _); [done|].
    destruct (validate_bound_lease _ _ _ _) as [b| |] eqn:V; try done.
    apply validate_bound_lease_inv in V as [-> G]. destruct I as [T I]. subst.
    destruct I as [(_ & E & _)|(e & -> & P & [[E _]|[E _]])]; try congruence.
    rewrite Es in E. injection E as <-. split; [done|]. right. cbn. eauto 10.
Qed.

Lemma lease_run_inv token sent ops c :
  lease_inv token sent c → lease_inv token (sent ++ (lease_run ops c).1) (lease_run ops c).2.
Proof.
  revert sent c. induction ops as [|o ops IH]; intros sent c I; cbn [lease_run].
  - by rewrite app_nil_r.
  - apply (lease_apply_inv _ _ o) in I. destruct (lease_apply o c) as [s1 c1]. cbn [fst snd] in I.
    apply IH in I. destruct (lease_run ops c1) as [s2 c2]. cbn [fst snd] in *.
    by rewrite app_assoc.
Qed.

(** A lease custody requests at most one lease, and gives out authority only over
    the lease that was granted to that request: a valid, active lease that carries the
    digest of the custody's own token, for the run that was asked for, at the next
    fence epoch. *)
Theorem lease_authority_bound (token : string) (ops : list lease_op) :
  let '(sent, c) := lease_run ops (LeaseTokenCustody_new token) in
  length sent ≤ 1
  ∧ ∀ revision a, authority c revision = Ok a →
      ∃ e lease, sent = [e] ∧ granted (establishment_claim e) token lease
        ∧ la_lease_token a = token ∧ la_lease_id a = ls_lease_id lease
        ∧ la_run_id a = ls_run_id lease ∧ la_fence_epoch a = ls_fence_epoch lease
        ∧ la_expected_control_revision a = revision.
Proof.
  destruct (lease_run ops (LeaseTokenCustody_new token)) as [sent c] eqn:E.
  pose proof (lease_run_inv token [] ops (LeaseTokenCustody_new token)) as I.
  rewrite E in I. destruct I as [T I]; [by split; [|left]|]. cbn [fst snd app] in *.
  split; [destruct I as [(-> & _)|(e & -> & _)]; cbn; lia|].
  intros revision a Ea. unfold authority in Ea. res_inv.
  destruct I as [(_ & _ & B & _)|(e & -> & _ & [[_ B]|(_ & lease & B & G)])]; try congruence.
  match goal with B' : lt_bound c = Some _ |- _ => rewrite B in B'; injection B' as <- end.
  exists e, lease. by split_and!.
Qed.

(** Reported usage is sealed.  A report is accepted only from the reporter that was
    minted with the registered adapter, for an intent with that adapter's operation,
    version, kind and model, and within the ceiling of the intent; a provider reports
    no tool dispatch and a tool exactly one and nothing else.  The record persisted
    for it passes its validator. *)
Theorem from_report_sealed (intent : DispatchIntent) (registered : RegisteredGovernedAdapter)
    (report : PreparedBoundaryUsage) (input_digest output_digest : ContentDigest)
    (usage : PreparedUsage) (Hi : DispatchIntent_validate intent = Ok ())
    (E : from_report intent registered report input_digest output_digest = Ok usage) :
  seal_address (pb_seal report) = seal_address registered
  ∧ seal_operation registered = in_operation intent
  ∧ seal_version registered = in_version intent
  ∧ seal_adapter registered = pu_adapter usage
  ∧ seal_model registered = pu_model usage
  ∧ seal_kind registered = pu_boundary_kind usage
  ∧ match pu_boundary_kind usage with
    | Provider => pu_tool_dispatches usage = 0%N
    | Tool => pu_tokens usage = 0%N ∧ pu_cost_microusd usage = 0%N
              ∧ pu_tool_dispatches usage = 1%N
    end
  ∧ fits_within {| steps := pu_steps usage; tokens := pu_tokens usage; duration_ms := 0;
                   cost_microusd := pu_cost_microusd usage;
                   tool_dispatches := pu_tool_dispatches usage |} (in_ceiling intent) = true
  ∧ PreparedUsageRecord_validate (from_sealed usage) = Ok ().
Proof.
  unfold from_report, matches_intent, owns in E. unfold DispatchIntent_validate in Hi. res_inv.
  repeat match goal with
  | E : (_ =? _)%N = true |- _ => apply N.eqb_eq in E
  | E : (_ <? _)%N = false |- _ => apply N.ltb_ge in E
  end.
  cbn [pu_adapter pu_model pu_boundary_kind pu_steps pu_tokens pu_cost_microusd
    pu_tool_dispatches]. split_and!; try congruence.
  { destruct (pb_boundary_kind report);
      rewrite bool_decide_true in * by done; cbn [andb] in *; res_inv; split_and?;
      by apply N.eqb_eq. }
  { apply fits_within_le. cbn. lia. }
  match goal with E : is_safe _ = true |- _ => apply is_safe_le in E as S end.
  unfold PreparedUsageRecord_validate. cbn [from_sealed ur_schema ur_boundary_calls ur_steps
    ur_adapter ur_model ur_boundary_kind ur_tool_dispatches ur_tokens ur_cost_microusd
    pu_boundary_kind pu_boundary_calls pu_adapter pu_model pu_steps pu_tokens pu_cost_microusd
    pu_tool_dispatches].
  rewrite bool_decide_true by done. cbn [negb orb N.eqb Pos.eqb any_unsafe existsb].
  repeat match goal with E : ?b = true |- context [?b] => rewrite E
                       | E : ?b = false |- context [?b] => rewrite E end.
  cbn [negb orb].
  match goal with E : pb_boundary_kind report = _ |- _ => rewrite E in * end.
  repeat match goal with |- context [(MAX_SAFE_INTEGER <? ?x)%N] =>
    replace (MAX_SAFE_INTEGER <? x)%N with false by (symmetry; apply N.ltb_ge; lia) end.
  destruct (in_kind intent); cbn in *; res_inv; by repeat match goal with
    E : ?b = _ |- context [?b] => rewrite E end.
Qed.

End lease_contract.
