(* ===== verification/Base64.v ===== *)
(** * Base64 without padding

    The encoder [base64url] of [operator_store.rs], which writes the signature of a
    replayed proof: three bytes give four characters of the URL-safe alphabet, and a
    last group of one or two bytes gives two or three.  [base64url_roundtrip] says that
    a reader gets the bytes back. *)

From S2P Require Import Prelude RustStr.
From stdpp Require Import options.

Definition ALPHABET : string :=
  "ABCDEFGHIJKLMNOPQRSTUVWXYZabcdefghijklmnopqrstuvwxyz0123456789-_".

(** [ALPHABET[index] as char]; the index is below 64. *)
Definition letter (index : N) : ascii := default "A"%char (String.get (N.to_nat index) ALPHABET).

(** [u32::from(a) << 16 | u32::from(b) << 8 | u32::from(c)] *)
Definition bits24 (a b c : ascii) : N :=
  N.lor (N.lor (N.shiftl (N_of_ascii a) 16) (N.shiftl (N_of_ascii b) 8)) (N_of_ascii c).

Definition sextet (bits shift : N) : ascii := letter (N.land (N.shiftr bits shift) 63).

(** One turn of the loop per chunk of three bytes. *)
Fixpoint base64url (bytes : string) : string :=
  match bytes with
  | EmptyString => EmptyString
  | String a EmptyString =>
      let bits := bits24 a "000" "000" in
      String (sextet bits 18) (String (sextet bits 12) EmptyString)
  | String a (String b EmptyString) =>
      let bits := bits24 a b "000" in
      String (sextet bits 18) (String (sextet bits 12) (String (sextet bits 6) EmptyString))
  | String a (String b (String c rest)) =>
      let bits := bits24 a b c in
      String (sextet bits 18) (String (sextet bits 12) (String (sextet bits 6)
        (String (sextet bits 0) (base64url rest))))
  end.

(** ** A reader *)

(** The position of a character in the alphabet. *)
Fixpoint position (c : ascii) (s : string) : option N :=
  match s with
  | EmptyString => None
  | String c' s' => if decide (c = c') then Some 0%N else N.succ <$> position c s'
  end.

Definition value64 (c : ascii) : option N := position c ALPHABET.

Definition high (u v : N) : ascii := ascii_of_N (4 * u + v / 16).
Definition middle (v w : N) : ascii := ascii_of_N (16 * (v mod 16) + w / 4).
Definition low (w x : N) : ascii := ascii_of_N (64 * (w mod 4) + x).

(** Groups of four characters; the bits that a shorter last group does not need are
    not looked at. *)
Fixpoint base64url_read (s : string) : option string :=
  match s with
  | EmptyString => Some EmptyString
  | String c1 (String c2 EmptyString) =>
      u ← value64 c1; v ← value64 c2; Some (String (high u v) EmptyString)
  | String c1 (String c2 (String c3 EmptyString)) =>
      u ← value64 c1; v ← value64 c2; w ← value64 c3;
      Some (String (high u v) (String (middle v w) EmptyString))
  | String c1 (String c2 (String c3 (String c4 rest))) =>
      u ← value64 c1; v ← value64 c2; w ← value64 c3; x ← value64 c4;
      rest ← base64url_read rest;
      Some (String (high u v) (String (middle v w) (String (low w x) rest)))
  | String _ EmptyString => None
  end.

(** ** Arithmetic of a group *)

Lemma value64_letter (n : N) : (n < 64)%N → value64 (letter n) = Some n.
Proof.
  intros L. assert (forallb (λ k, bool_decide (value64 (letter (N.of_nat k)) = Some (N.of_nat k)))
    (seq 0 64) = true) as T by by vm_compute.
  rewrite forallb_forall in T. specialize (T (N.to_nat n)).
  rewrite N2Nat.id in T. apply (bool_decide_eq_true_1 _), T, in_seq. lia.
Qed.

Lemma byte_lt (a : ascii) : (N_of_ascii a < 256)%N.
Proof. by destruct a as [[] [] [] [] [] [] [] []]. Qed.

Lemma bits24_sum a b c :
  bits24 a b c = (N_of_ascii a * 65536 + N_of_ascii b * 256 + N_of_ascii c)%N.
Proof.
  assert (∀ x y k, (y < 2 ^ k)%N → N.lor (N.shiftl x k) y = (x * 2 ^ k + y)%N) as L.
  { intros x y k Hy. rewrite <- N.shiftl_mul_pow2. symmetry. rewrite N.add_nocarry_lxor.
    - apply N.bits_inj. intros i. rewrite N.lxor_spec, N.lor_spec.
      destruct (N.ltb_spec i k) as [Hi|Hi].
      + rewrite N.shiftl_spec_low by done. by destruct (N.testbit y i).
      + replace (N.testbit y i) with false; [by rewrite xorb_false_r, orb_false_r|].
        symmetry. destruct (N.eq_dec y 0%N) as [->|]; [apply N.bits_0|].
        apply N.bits_above_log2. apply N.log2_lt_pow2; [lia|].
        eapply N.lt_le_trans; [done|]. by apply N.pow_le_mono_r.
    - apply N.bits_inj. intros i. rewrite N.land_spec, N.bits_0.
      destruct (N.ltb_spec i k) as [Hi|Hi]; [by rewrite N.shiftl_spec_low|].
      replace (N.testbit y i) with false; [apply andb_false_r|].
      symmetry. destruct (N.eq_dec y 0%N) as [->|]; [apply N.bits_0|].
      apply N.bits_above_log2. apply N.log2_lt_pow2; [lia|].
      eapply N.lt_le_trans; [done|]. by apply N.pow_le_mono_r. }
  unfold bits24. pose proof (byte_lt b). pose proof (byte_lt c).
  replace (N.shiftl (N_of_ascii a) 16) with (N.shiftl (N.shiftl (N_of_ascii a) 8) 8)
    by by rewrite N.shiftl_shiftl.
  rewrite <- N.shiftl_lor, L, L by (cbn; lia). cbn. lia.
Qed.

Lemma sextet_value bits shift :
  value64 (sextet bits shift) = Some ((bits / 2 ^ shift) mod 64)%N.
Proof.
  unfold sextet. rewrite N.shiftr_div_pow2. change 63%N with (N.ones 6).
  rewrite N.land_ones. apply value64_letter. by apply N.mod_lt.
Qed.

(** Linear arithmetic with quotients and remainders by constants. *)
Ltac div_lia := zify; Z.to_euclidean_division_equations; lia.

(** The three bytes from the four sextets. *)
Lemma group_bytes a b c :
  let n := (N_of_ascii a * 65536 + N_of_ascii b * 256 + N_of_ascii c)%N in
  let s k := ((n / 2 ^ k) mod 64)%N in
  high (s 18%N) (s 12%N) = a ∧ middle (s 12%N) (s 6%N) = b ∧ low (s 6%N) (s 0%N) = c.
Proof.
  intros n s. pose proof (byte_lt a). pose proof (byte_lt b). pose proof (byte_lt c).
  assert (n < 16777216)%N by (unfold n; lia).
  unfold high, middle, low. split_and!.
  - replace (4 * s 18 + s 12 / 16)%N with (N_of_ascii a); [apply ascii_N_embedding|].
    unfold s, n. change (2 ^ 18)%N with 262144%N. change (2 ^ 12)%N with 4096%N. div_lia.
  - replace (16 * (s 12 mod 16) + s 6 / 4)%N with (N_of_ascii b); [apply ascii_N_embedding|].
    unfold s, n. change (2 ^ 12)%N with 4096%N. change (2 ^ 6)%N with 64%N. div_lia.
  - replace (64 * (s 6 mod 4) + s 0)%N with (N_of_ascii c); [apply ascii_N_embedding|].
    unfold s, n. change (2 ^ 6)%N with 64%N. change (2 ^ 0)%N with 1%N. div_lia.
Qed.

(** The length of the text. *)
Fixpoint encoded_length (n : nat) : nat :=
  match n with
  | 0 => 0 | 1 => 2 | 2 => 3 | S (S (S n')) => 4 + encoded_length n'
  end.

Ltac alphabet_tac :=
  cbn [String.list_ascii_of_string];
  repeat (apply Forall_cons_2; [rewrite sextet_value; by eexists|]);
  first [apply Forall_nil_2|assumption].

(** The encoder writes bytes without loss.  Reading the text gives the bytes back,
    the text has four characters for every three bytes and no padding, and every
    character is of the URL-safe alphabet, so that no index leaves the table. *)
Theorem base64url_roundtrip (bytes : string) :
  base64url_read (base64url bytes) = Some bytes
  ∧ String.length (base64url bytes) = encoded_length (String.length bytes)
  ∧ Forall (λ c, is_Some (value64 c)) (String.list_ascii_of_string (base64url bytes)).
Proof.
  induction bytes as [bytes IH] using (well_founded_induction (Wf_nat.well_founded_ltof _ String.length)).
  destruct bytes as [|a [|b [|c rest]]]; cbn [base64url].
  - by split_and!.
  - destruct (group_bytes a "000" "000") as (Ha & _). cbn [base64url_read].
    rewrite !sextet_value, bits24_sum. cbn [mbind option_bind]. rewrite Ha.
    split_and!; [done..|]. alphabet_tac.
  - destruct (group_bytes a b "000") as (Ha & Hb & _). cbn [base64url_read].
    rewrite !sextet_value, bits24_sum. cbn [mbind option_bind]. rewrite Ha, Hb.
    split_and!; [done..|]. alphabet_tac.
  - destruct (group_bytes a b c) as (Ha & Hb & Hc).
    destruct (IH rest) as (R & L & F); [unfold Wf_nat.ltof; cbn [String.length]; lia|]. cbn [base64url_read].
    rewrite !sextet_value, bits24_sum, R. cbn [mbind option_bind]. rewrite Ha, Hb, Hc.
    split_and!; [done|cbn [String.length encoded_length]; by rewrite L|].
    alphabet_tac.
Qed.
