(* ===== verification/RuntimeStore.v ===== *)
(** * The tables of the operator store

    The state behind [crates/proof-storage/src/sqlite/operator_store.rs] and the
    functions of that file that read and write single rows.  A table is a finite map
    by primary key, or the list of its rows in insertion order where no row is ever
    changed.  A row is the record that its JSON column holds: the other columns are
    computed from that record by the same statement that writes it, so the
    comparisons of columns with the decoded record hold by construction and only the
    comparison with the key remains.

    [tx] is code inside a transaction: it reads and changes the tables and draws
    identifiers from the environment.  [transaction] runs it and rolls the tables back
    when it fails; its body returns a second result, for the branches of the source
    that commit and then return an error.  A statement refused by a [UNIQUE], [CHECK]
    or [REFERENCES] clause of [migration_14_up.sql] or [migrations.rs] fails with
    [Unavailable] ([sql]).  [CHECK] clauses that repeat a validator which the function
    has just run are not repeated.  Failures of SQLite itself (a full disk, a lock that
    times out) are not modelled. *)

From S2P Require Import Prelude RustStr Externals Json Canonical Serialized Evidence Approval.
From S2P Require Import OperatorCommon StrictDigest Agent AgentRun ExecutionStore Durable AuditChain Custody.
From stdpp Require Import options.

(** ** Rows *)

Inductive ReviewFieldClassification : Type := Identifier | Public | Secret | Sensitive.
Inductive ConsequenceClassification : Type :=
| ExternalEffect | GovernedWrite | ProviderCall | ToolCall.

Record ReviewField := {
  rf_name : string;
  rf_classification : ReviewFieldClassification;
  rf_display_value : string;
  rf_input_digest : ContentDigest;
}.

Record PendingConsequence := {
  pc_classification : ConsequenceClassification;
  pc_summary : string;
  pc_consequence_digest : ControlDigest;
}.

Record ApprovalBinding := {
  ab_schema : string;
  ab_approval_request_id : Uuid;
  ab_workspace_id : Uuid;
  ab_run_id : Uuid;
  ab_step_id : Uuid;
  ab_checkpoint_id : Uuid;
  ab_checkpoint_sequence : N;
  ab_checkpoint_digest : ContentDigest;
  ab_required_human_id : Uuid;
  ab_input_digest : ContentDigest;
  ab_review_fields : list ReviewField;
  ab_consequence : PendingConsequence;
  ab_argument_digest : ControlDigest;
  ab_consequence_digest : ControlDigest;
  ab_created_at : DateTime;
  ab_binding_digest : ControlDigest;
}.

(** A row of [execution_replays]: its [CHECK] couples the nullable columns to the
    state. *)
Inductive ReplayState : Type :=
| ReplayClaimed
| ReplayCompleted (completed_at : DateTime) (output : json) (proof_id : Uuid)
    (proof : Proof_) (execution_context_id : Uuid)
| ReplayFailed (failed_at : DateTime) (failure : string).

Record ReplayRow := {
  row_input_digest : ContentDigest;
  row_state : ReplayState;
  row_claim_token : Uuid;
  row_claimed_by : PrincipalId;
  row_claimed_at : DateTime;
}.

(** A row of [operator_replay_bindings]. *)
Record ReplayBindingRow := {
  bind_binding : ReplayClaimBinding;
  bind_origin_reservation_id : Uuid;
  bind_created_at : DateTime;
}.

(** A row of [execution_contexts]. *)
Record ContextRow := {
  row_actor : Uuid;
  row_delegation_id : option Uuid;
  row_workspace_path : string;
  row_timestamp : DateTime;
}.

(** A row of [proofs]: the version column beside the proof. *)
Record ProofRow := { row_version : string; row_proof : Proof_ }.

(** [db_heads] is [operator_audit_heads]: the last sequence and the last digest of a
    workspace. *)
Record Db := {
  db_workspace : option Uuid;
  db_human : option Uuid;
  db_principals : gmap N Principal;
  db_budgets : gmap N BudgetAccount;
  db_controls : gmap N RunControl;
  db_leases : gmap N RunLease;
  db_reservations : gmap N BudgetReservation;
  db_directives : gmap N RecoveryDirective;
  db_approval_requests : gmap N SignedApprovalRequest;
  db_approvals : gmap N ApprovalBinding;
  db_projections : list RunProjection;
  db_heads : gmap N (N * option ControlDigest);
  db_events : list AuditEvent;
  db_runs : gmap N AgentRun;
  db_steps : gmap N AgentRunStep;
  db_checkpoints : gmap N AgentCheckpoint;
  db_run_events : gmap N AgentRunEvent;
  db_evaluations : gmap N AgentRunEvaluation;
  db_replays : gmap ExecutionReplayKey ReplayRow;
  db_bindings : gmap ExecutionReplayKey ReplayBindingRow;
  db_proofs : gmap N ProofRow;
  db_contexts : gmap N ContextRow;
}.

Definition with_budgets (t : gmap N BudgetAccount) (d : Db) : Db :=
  {| db_workspace := db_workspace d; db_human := db_human d;
     db_principals := db_principals d; db_budgets := t; db_controls := db_controls d;
     db_leases := db_leases d; db_reservations := db_reservations d;
     db_directives := db_directives d; db_approval_requests := db_approval_requests d;
     db_approvals := db_approvals d; db_projections := db_projections d;
     db_heads := db_heads d; db_events := db_events d; db_runs := db_runs d;
     db_steps := db_steps d; db_checkpoints := db_checkpoints d;
     db_run_events := db_run_events d; db_evaluations := db_evaluations d;
     db_replays := db_replays d; db_bindings := db_bindings d; db_proofs := db_proofs d;
     db_contexts := db_contexts d |}.
Definition with_controls (t : gmap N RunControl) (d : Db) : Db :=
  {| db_workspace := db_workspace d; db_human := db_human d;
     db_principals := db_principals d; db_budgets := db_budgets d; db_controls := t;
     db_leases := db_leases d; db_reservations := db_reservations d;
     db_directives := db_directives d; db_approval_requests := db_approval_requests d;
     db_approvals := db_approvals d; db_projections := db_projections d;
     db_heads := db_heads d; db_events := db_events d; db_runs := db_runs d;
     db_steps := db_steps d; db_checkpoints := db_checkpoints d;
     db_run_events := db_run_events d; db_evaluations := db_evaluations d;
     db_replays := db_replays d; db_bindings := db_bindings d; db_proofs := db_proofs d;
     db_contexts := db_contexts d |}.
Definition with_leases (t : gmap N RunLease) (d : Db) : Db :=
  {| db_workspace := db_workspace d; db_human := db_human d;
     db_principals := db_principals d; db_budgets := db_budgets d;
     db_controls := db_controls d; db_leases := t; db_reservations := db_reservations d;
     db_directives := db_directives d; db_approval_requests := db_approval_requests d;
     db_approvals := db_approvals d; db_projections := db_projections d;
     db_heads := db_heads d; db_events := db_events d; db_runs := db_runs d;
     db_steps := db_steps d; db_checkpoints := db_checkpoints d;
     db_run_events := db_run_events d; db_evaluations := db_evaluations d;
     db_replays := db_replays d; db_bindings := db_bindings d; db_proofs := db_proofs d;
     db_contexts := db_contexts d |}.
Definition with_reservations (t : gmap N BudgetReservation) (d : Db) : Db :=
  {| db_workspace := db_workspace d; db_human := db_human d;
     db_principals := db_principals d; db_budgets := db_budgets d;
     db_controls := db_controls d; db_leases := db_leases d; db_reservations := t;
     db_directives := db_directives d; db_approval_requests := db_approval_requests d;
     db_approvals := db_approvals d; db_projections := db_projections d;
     db_heads := db_heads d; db_events := db_events d; db_runs := db_runs d;
     db_steps := db_steps d; db_checkpoints := db_checkpoints d;
     db_run_events := db_run_events d; db_evaluations := db_evaluations d;
     db_replays := db_replays d; db_bindings := db_bindings d; db_proofs := db_proofs d;
     db_contexts := db_contexts d |}.
Definition with_directives (t : gmap N RecoveryDirective) (d : Db) : Db :=
  {| db_workspace := db_workspace d; db_human := db_human d;
     db_principals := db_principals d; db_budgets := db_budgets d;
     db_controls := db_controls d; db_leases := db_leases d;
     db_reservations := db_reservations d; db_directives := t;
     db_approval_requests := db_approval_requests d; db_approvals := db_approvals d;
     db_projections := db_projections d; db_heads := db_heads d;
     db_events := db_events d; db_runs := db_runs d; db_steps := db_steps d;
     db_checkpoints := db_checkpoints d; db_run_events := db_run_events d;
     db_evaluations := db_evaluations d; db_replays := db_replays d;
     db_bindings := db_bindings d; db_proofs := db_proofs d;
     db_contexts := db_contexts d |}.
Definition with_approval_requests (t : gmap N SignedApprovalRequest) (d : Db) : Db :=
  {| db_workspace := db_workspace d; db_human := db_human d;
     db_principals := db_principals d; db_budgets := db_budgets d;
     db_controls := db_controls d; db_leases := db_leases d;
     db_reservations := db_reservations d; db_directives := db_directives d;
     db_approval_requests := t; db_approvals := db_approvals d;
     db_projections := db_projections d; db_heads := db_heads d;
     db_events := db_events d; db_runs := db_runs d; db_steps := db_steps d;
     db_checkpoints := db_checkpoints d; db_run_events := db_run_events d;
     db_evaluations := db_evaluations d; db_replays := db_replays d;
     db_bindings := db_bindings d; db_proofs := db_proofs d;
     db_contexts := db_contexts d |}.
Definition with_approvals (t : gmap N ApprovalBinding) (d : Db) : Db :=
  {| db_workspace := db_workspace d; db_human := db_human d;
     db_principals := db_principals d; db_budgets := db_budgets d;
     db_controls := db_controls d; db_leases := db_leases d;
     db_reservations := db_reservations d; db_directives := db_directives d;
     db_approval_requests := db_approval_requests d; db_approvals := t;
     db_projections := db_projections d; db_heads := db_heads d;
     db_events := db_events d; db_runs := db_runs d; db_steps := db_steps d;
     db_checkpoints := db_checkpoints d; db_run_events := db_run_events d;
     db_evaluations := db_evaluations d; db_replays := db_replays d;
     db_bindings := db_bindings d; db_proofs := db_proofs d;
     db_contexts := db_contexts d |}.
Definition with_projections (t : list RunProjection) (d : Db) : Db :=
  {| db_workspace := db_workspace d; db_human := db_human d;
     db_principals := db_principals d; db_budgets := db_budgets d;
     db_controls := db_controls d; db_leases := db_leases d;
     db_reservations := db_reservations d; db_directives := db_directives d;
     db_approval_requests := db_approval_requests d; db_approvals := db_approvals d;
     db_projections := t; db_heads := db_heads d; db_events := db_events d;
     db_runs := db_runs d; db_steps := db_steps d; db_checkpoints := db_checkpoints d;
     db_run_events := db_run_events d; db_evaluations := db_evaluations d;
     db_replays := db_replays d; db_bindings := db_bindings d; db_proofs := db_proofs d;
     db_contexts := db_contexts d |}.
Definition with_heads (t : gmap N (N * option ControlDigest)) (d : Db) : Db :=
  {| db_workspace := db_workspace d; db_human := db_human d;
     db_principals := db_principals d; db_budgets := db_budgets d;
     db_controls := db_controls d; db_leases := db_leases d;
     db_reservations := db_reservations d; db_directives := db_directives d;
     db_approval_requests := db_approval_requests d; db_approvals := db_approvals d;
     db_projections := db_projections d; db_heads := t; db_events := db_events d;
     db_runs := db_runs d; db_steps := db_steps d; db_checkpoints := db_checkpoints d;
     db_run_events := db_run_events d; db_evaluations := db_evaluations d;
     db_replays := db_replays d; db_bindings := db_bindings d; db_proofs := db_proofs d;
     db_contexts := db_contexts d |}.
Definition with_events (t : list AuditEvent) (d : Db) : Db :=
  {| db_workspace := db_workspace d; db_human := db_human d;
     db_principals := db_principals d; db_budgets := db_budgets d;
     db_controls := db_controls d; db_leases := db_leases d;
     db_reservations := db_reservations d; db_directives := db_directives d;
     db_approval_requests := db_approval_requests d; db_approvals := db_approvals d;
     db_projections := db_projections d; db_heads := db_heads d; db_events := t;
     db_runs := db_runs d; db_steps := db_steps d; db_checkpoints := db_checkpoints d;
     db_run_events := db_run_events d; db_evaluations := db_evaluations d;
     db_replays := db_replays d; db_bindings := db_bindings d; db_proofs := db_proofs d;
     db_contexts := db_contexts d |}.
Definition with_runs (t : gmap N AgentRun) (d : Db) : Db :=
  {| db_workspace := db_workspace d; db_human := db_human d;
     db_principals := db_principals d; db_budgets := db_budgets d;
     db_controls := db_controls d; db_leases := db_leases d;
     db_reservations := db_reservations d; db_directives := db_directives d;
     db_approval_requests := db_approval_requests d; db_approvals := db_approvals d;
     db_projections := db_projections d; db_heads := db_heads d;
     db_events := db_events d; db_runs := t; db_steps := db_steps d;
     db_checkpoints := db_checkpoints d; db_run_events := db_run_events d;
     db_evaluations := db_evaluations d; db_replays := db_replays d;
     db_bindings := db_bindings d; db_proofs := db_proofs d;
     db_contexts := db_contexts d |}.
Definition with_steps (t : gmap N AgentRunStep) (d : Db) : Db :=
  {| db_workspace := db_workspace d; db_human := db_human d;
     db_principals := db_principals d; db_budgets := db_budgets d;
     db_controls := db_controls d; db_leases := db_leases d;
     db_reservations := db_reservations d; db_directives := db_directives d;
     db_approval_requests := db_approval_requests d; db_approvals := db_approvals d;
     db_projections := db_projections d; db_heads := db_heads d;
     db_events := db_events d; db_runs := db_runs d; db_steps := t;
     db_checkpoints := db_checkpoints d; db_run_events := db_run_events d;
     db_evaluations := db_evaluations d; db_replays := db_replays d;
     db_bindings := db_bindings d; db_proofs := db_proofs d;
     db_contexts := db_contexts d |}.
Definition with_checkpoints (t : gmap N AgentCheckpoint) (d : Db) : Db :=
  {| db_workspace := db_workspace d; db_human := db_human d;
     db_principals := db_principals d; db_budgets := db_budgets d;
     db_controls := db_controls d; db_leases := db_leases d;
     db_reservations := db_reservations d; db_directives := db_directives d;
     db_approval_requests := db_approval_requests d; db_approvals := db_approvals d;
     db_projections := db_projections d; db_heads := db_heads d;
     db_events := db_events d; db_runs := db_runs d; db_steps := db_steps d;
     db_checkpoints := t; db_run_events := db_run_events d;
     db_evaluations := db_evaluations d; db_replays := db_replays d;
     db_bindings := db_bindings d; db_proofs := db_proofs d;
     db_contexts := db_contexts d |}.
Definition with_run_events (t : gmap N AgentRunEvent) (d : Db) : Db :=
  {| db_workspace := db_workspace d; db_human := db_human d;
     db_principals := db_principals d; db_budgets := db_budgets d;
     db_controls := db_controls d; db_leases := db_leases d;
     db_reservations := db_reservations d; db_directives := db_directives d;
     db_approval_requests := db_approval_requests d; db_approvals := db_approvals d;
     db_projections := db_projections d; db_heads := db_heads d;
     db_events := db_events d; db_runs := db_runs d; db_steps := db_steps d;
     db_checkpoints := db_checkpoints d; db_run_events := t;
     db_evaluations := db_evaluations d; db_replays := db_replays d;
     db_bindings := db_bindings d; db_proofs := db_proofs d;
     db_contexts := db_contexts d |}.
Definition with_evaluations (t : gmap N AgentRunEvaluation) (d : Db) : Db :=
  {| db_workspace := db_workspace d; db_human := db_human d;
     db_principals := db_principals d; db_budgets := db_budgets d;
     db_controls := db_controls d; db_leases := db_leases d;
     db_reservations := db_reservations d; db_directives := db_directives d;
     db_approval_requests := db_approval_requests d; db_approvals := db_approvals d;
     db_projections := db_projections d; db_heads := db_heads d;
     db_events := db_events d; db_runs := db_runs d; db_steps := db_steps d;
     db_checkpoints := db_checkpoints d; db_run_events := db_run_events d;
     db_evaluations := t; db_replays := db_replays d; db_bindings := db_bindings d;
     db_proofs := db_proofs d; db_contexts := db_contexts d |}.
Definition with_replays (t : gmap ExecutionReplayKey ReplayRow) (d : Db) : Db :=
  {| db_workspace := db_workspace d; db_human := db_human d;
     db_principals := db_principals d; db_budgets := db_budgets d;
     db_controls := db_controls d; db_leases := db_leases d;
     db_reservations := db_reservations d; db_directives := db_directives d;
     db_approval_requests := db_approval_requests d; db_approvals := db_approvals d;
     db_projections := db_projections d; db_heads := db_heads d;
     db_events := db_events d; db_runs := db_runs d; db_steps := db_steps d;
     db_checkpoints := db_checkpoints d; db_run_events := db_run_events d;
     db_evaluations := db_evaluations d; db_replays := t; db_bindings := db_bindings d;
     db_proofs := db_proofs d; db_contexts := db_contexts d |}.
Definition with_bindings (t : gmap ExecutionReplayKey ReplayBindingRow) (d : Db) : Db :=
  {| db_workspace := db_workspace d; db_human := db_human d;
     db_principals := db_principals d; db_budgets := db_budgets d;
     db_controls := db_controls d; db_leases := db_leases d;
     db_reservations := db_reservations d; db_directives := db_directives d;
     db_approval_requests := db_approval_requests d; db_approvals := db_approvals d;
     db_projections := db_projections d; db_heads := db_heads d;
     db_events := db_events d; db_runs := db_runs d; db_steps := db_steps d;
     db_checkpoints := db_checkpoints d; db_run_events := db_run_events d;
     db_evaluations := db_evaluations d; db_replays := db_replays d; db_bindings := t;
     db_proofs := db_proofs d; db_contexts := db_contexts d |}.
Definition with_proofs (t : gmap N ProofRow) (d : Db) : Db :=
  {| db_workspace := db_workspace d; db_human := db_human d;
     db_principals := db_principals d; db_budgets := db_budgets d;
     db_controls := db_controls d; db_leases := db_leases d;
     db_reservations := db_reservations d; db_directives := db_directives d;
     db_approval_requests := db_approval_requests d; db_approvals := db_approvals d;
     db_projections := db_projections d; db_heads := db_heads d;
     db_events := db_events d; db_runs := db_runs d; db_steps := db_steps d;
     db_checkpoints := db_checkpoints d; db_run_events := db_run_events d;
     db_evaluations := db_evaluations d; db_replays := db_replays d;
     db_bindings := db_bindings d; db_proofs := t; db_contexts := db_contexts d |}.
Definition with_contexts (t : gmap N ContextRow) (d : Db) : Db :=
  {| db_workspace := db_workspace d; db_human := db_human d;
     db_principals := db_principals d; db_budgets := db_budgets d;
     db_controls := db_controls d; db_leases := db_leases d;
     db_reservations := db_reservations d; db_directives := db_directives d;
     db_approval_requests := db_approval_requests d; db_approvals := db_approvals d;
     db_projections := db_projections d; db_heads := db_heads d;
     db_events := db_events d; db_runs := db_runs d; db_steps := db_steps d;
     db_checkpoints := db_checkpoints d; db_run_events := db_run_events d;
     db_evaluations := db_evaluations d; db_replays := db_replays d;
     db_bindings := db_bindings d; db_proofs := db_proofs d; db_contexts := t |}.

(** ** Transactions *)

Record Tx := { tx_db : Db; tx_uuids : list Uuid }.

Notation tx := (call Tx StoreError.t).

(** The compiled schemas of [OperatorSchemaCatalog]: a validator of the [jsonschema]
    crate is a predicate. *)
Record CatalogOperation := { co_input : json → bool; co_output : json → bool }.

Record OperatorSchemaCatalog := {
  sc_binding : SchemaCatalogBinding;
  sc_operations : gmap (string * string) CatalogOperation;
}.

Definition validate_output (catalog : OperatorSchemaCatalog) (operation version : string)
    (value : json) : bool :=
  match sc_operations catalog !! (operation, version) with
  | Some validators => co_output validators value
  | None => false
  end.

(** What an operation sees of the outside: the trusted clock, which can fail, and the
    catalog.  A store without an operator context has none. *)
Record OperatorStoreContext := {
  oc_now : option DateTime;
  oc_catalog : OperatorSchemaCatalog;
}.

Definition operator_context (store : option OperatorStoreContext)
    : result StoreError.t OperatorStoreContext :=
  ok_or store StoreError.Unavailable.

Definition operator_now (store : option OperatorStoreContext) : result StoreError.t DateTime :=
  let? context := operator_context store in
  ok_or (oc_now context) StoreError.Unavailable.

(** [new_uuid_v7] of the environment gives the next identifier, or fails. *)
Definition operator_uuid (store : option OperatorStoreContext) : tx Uuid := λ s,
  match store, tx_uuids s with
  | Some _, id :: rest => (Ok id, {| tx_db := tx_db s; tx_uuids := rest |})
  | _, _ => (Err StoreError.Unavailable, s)
  end.

Definition query {A} (f : Db → result StoreError.t A) : tx A := λ s, (f (tx_db s), s).

(** A statement: the clauses it has to satisfy, and what it does. *)
Definition sql (admissible : Db → bool) (effect : Db → Db) : tx () := λ s,
  if admissible (tx_db s)
  then (Ok (), {| tx_db := effect (tx_db s); tx_uuids := tx_uuids s |})
  else (Err StoreError.Unavailable, s).

(** An error rolls the tables back; [Ok (Err e)] commits and returns [e]. *)
Definition transaction {A} (body : tx (result StoreError.t A)) : tx A := λ s,
  match body s with
  | (Ok r, s') => (r, s')
  | (Err e, s') => (Err e, {| tx_db := tx_db s; tx_uuids := tx_uuids s' |})
  | (Panic, s') => (Panic, {| tx_db := tx_db s; tx_uuids := tx_uuids s' |})
  end.

(** [ORDER BY .. LIMIT 1] *)
Fixpoint best {A} (before : A → A → bool) (l : list A) : option A :=
  match l with
  | [] => None
  | a :: l' =>
      match best before l' with
      | None => Some a
      | Some b => if before b a then Some b else Some a
      end
  end.

Definition rows {K A} `{Countable K} (m : gmap K A) : list A := map snd (map_to_list m).

Definition present {K A} `{Countable K} (m : gmap K A) (k : K) : bool := is_some (m !! k).
Definition present_opt {A} (m : gmap N A) (k : option N) : bool :=
  match k with Some k => present m k | None => true end.

(** No row but the one with the key [k] satisfies [p]. *)
Definition no_other {K A} `{Countable K} (m : gmap K A) (k : K) (p : A → bool) : bool :=
  forallb (λ kv, bool_decide (kv.1 = k) || negb (p kv.2)) (map_to_list m).

(** ** Written forms *)

Section columns.
Context `{Externals} `{OperatorExternals}.

Notation uuid7 := strict_uuid_v7_serialize.
Notation opt_uuid7 := strict_optional_uuid_v7_serialize.
Notation safe := strict_safe_integer_serialize.
Notation utc := strict_utc_serialize.

Definition permit_value (p : DispatchPermit) : option json :=
  strict_object
    [("schema", text (dp_schema p)); ("permit_id", uuid7 (dp_permit_id p));
     ("run_id", uuid7 (dp_run_id p)); ("reservation_id", uuid7 (dp_reservation_id p));
     ("lease_id", uuid7 (dp_lease_id p));
     ("process_epoch_id", uuid7 (dp_process_epoch_id p));
     ("fence_epoch", safe (dp_fence_epoch p));
     ("expected_control_revision", safe (dp_expected_control_revision p));
     ("intent_digest", control_value (dp_intent_digest p));
     ("replay_binding_digest", nullable control_value (dp_replay_binding_digest p));
     ("dispatch_token_digest", control_value (dp_dispatch_token_digest p));
     ("call_digest", control_value (dp_call_digest p));
     ("authorized_at", utc (dp_authorized_at p));
     ("budget_deadline_at", utc (dp_budget_deadline_at p))].

Definition prepared_binding_value (x : PreparedExecutionBinding) : option json :=
  strict_object
    [("schema", text (xb_schema x)); ("payload_digest", control_value (xb_payload_digest x));
     ("replay_binding_digest", nullable control_value (xb_replay_binding_digest x));
     ("execution_context_id", uuid7 (xb_execution_context_id x));
     ("handler_mutation", text "no_effect"); ("result", runtime_result_value (xb_result x));
     ("result_digest", control_value (xb_result_digest x))].

Definition runtime_commit_value (c : RuntimeCommit) : option json :=
  strict_object
    [("schema", text (rtc_schema c)); ("permit", permit_value (rtc_permit c));
     ("expected_run_revision", safe (rtc_expected_run_revision c));
     ("expected_step_revision", safe (rtc_expected_step_revision c));
     ("expected_checkpoint_id", uuid7 (rtc_expected_checkpoint_id c));
     ("expected_checkpoint_sequence", safe (rtc_expected_checkpoint_sequence c));
     ("expected_checkpoint_digest", content_value (rtc_expected_checkpoint_digest c));
     ("actual_charge", amounts_value (rtc_actual_charge c));
     ("prepared_execution_digest", control_value (rtc_prepared_execution_digest c));
     ("result_digest", control_value (rtc_result_digest c));
     ("committed_at", utc (rtc_committed_at c))].

Definition reservation_state_wire (s : ReservationState.t) : string :=
  match s with
  | ReservationState.Committed => "committed" | ReservationState.Dispatching => "dispatching"
  | ReservationState.Forfeited => "forfeited" | ReservationState.Released => "released"
  | ReservationState.Reserved => "reserved"
  end.

Definition reservation_value (r : BudgetReservation) : option json :=
  strict_object
    [("schema", text (br_schema r)); ("reservation_id", uuid7 (br_reservation_id r));
     ("budget_id", uuid7 (br_budget_id r)); ("run_id", uuid7 (br_run_id r));
     ("lease_id", uuid7 (br_lease_id r)); ("fence_epoch", safe (br_fence_epoch r));
     ("idempotency_key", uuid7 (br_idempotency_key r));
     ("request_digest", control_value (br_request_digest r));
     ("kind", text (boundary_wire (br_kind r))); ("intent", intent_value (br_intent r));
     ("intent_digest", control_value (br_intent_digest r));
     ("replay", nullable replay_binding_value (br_replay r));
     ("recovery", nullable directive_value (br_recovery r));
     ("state", text (reservation_state_wire (br_state r)));
     ("reserved", amounts_value (br_reserved r)); ("charged", amounts_value (br_charged r));
     ("created_at", utc (br_created_at r)); ("permit_id", opt_uuid7 (br_permit_id r));
     ("dispatch_token_digest", nullable control_value (br_dispatch_token_digest r));
     ("call_digest", nullable control_value (br_call_digest r));
     ("prepared_execution_digest", nullable control_value (br_prepared_execution_digest r));
     ("result_digest", nullable control_value (br_result_digest r));
     ("prepared_binding", nullable prepared_binding_value (br_prepared_binding r));
     ("runtime_commit", nullable runtime_commit_value (br_runtime_commit r));
     ("dispatch_started_at", strict_optional_utc_serialize (br_dispatch_started_at r));
     ("settled_at", strict_optional_utc_serialize (br_settled_at r))].

Definition run_mode_wire (m : AgentRunMode) : string :=
  match m with OneShot => "one_shot" | Session => "session" end.

Definition run_value (r : AgentRun) : json :=
  json_object
    ([("id", uuid_value (run_id r)); ("actor", uuid_value (run_actor r))]
     ++ opt_field "agent_id" (uuid_value <$> run_agent_id r)
     ++ [("mode", JString (run_mode_wire (run_mode r))); ("goal", JString (run_goal r));
         ("status", JString (run_status_wire (run_status r)));
         ("retry_count", JNumber (PosInt (run_retry_count r)));
         ("revision", JNumber (PosInt (run_revision r)));
         ("created_at", utc_value (run_created_at r));
         ("updated_at", utc_value (run_updated_at r))]
     ++ opt_field "completed_at" (utc_value <$> run_completed_at r)).

Definition step_status_wire (s : StepStatus.t) : string :=
  match s with
  | StepStatus.Pending => "pending" | StepStatus.Running => "running"
  | StepStatus.WaitingForApproval => "waiting_for_approval"
  | StepStatus.Succeeded => "succeeded" | StepStatus.Failed => "failed"
  | StepStatus.Cancelled => "cancelled"
  end.

Definition step_value (s : AgentRunStep) : json :=
  json_object
    ([("id", uuid_value (step_id s)); ("run_id", uuid_value (step_run_id s));
      ("ordinal", JNumber (PosInt (step_ordinal s)));
      ("attempt", JNumber (PosInt (step_attempt s)))]
     ++ opt_field "retry_of" (uuid_value <$> step_retry_of s)
     ++ [("operation", JString (step_operation s)); ("version", JString (step_version s));
         ("input_digest", ContentDigest_serialize (step_input_digest s));
         ("status", JString (step_status_wire (step_status s)))]
     ++ opt_field "approval_request_id" (uuid_value <$> step_approval_request_id s)
     ++ opt_field "output" (step_output s)
     ++ opt_field "proof" (to_value <$> step_proof s)
     ++ opt_field "error" (JString <$> step_error s)
     ++ [("revision", JNumber (PosInt (step_revision s)));
         ("created_at", utc_value (step_created_at s));
         ("updated_at", utc_value (step_updated_at s))]
     ++ opt_field "started_at" (utc_value <$> step_started_at s)
     ++ opt_field "completed_at" (utc_value <$> step_completed_at s)).

Definition checkpoint_value (c : AgentCheckpoint) : json :=
  json_object
    [("id", uuid_value (cp_id c)); ("run_id", uuid_value (cp_run_id c));
     ("sequence", JNumber (PosInt (cp_sequence c))); ("state", cp_state c);
     ("state_digest", ContentDigest_serialize (cp_state_digest c));
     ("created_at", utc_value (cp_created_at c))].

(** [json(value)?]: the canonical text of a column, or [Invalid]. *)
Definition json_column (value : option json) : result StoreError.t () :=
  match value with
  | Some v => if is_ok (canonicalize v) then Ok () else Err StoreError.Invalid
  | None => Err StoreError.Invalid
  end.

(** [uuid(text)?] on the text of an identifier. *)
Definition uuid_column (id : Uuid) : result StoreError.t Uuid :=
  bail StoreError.Invalid when negb (uuid_is_v7 id);
  Ok id.

(** [digest_without_field(..)?] *)
Definition digest_or_invalid (digest : option ControlDigest) : result StoreError.t ControlDigest :=
  ok_or digest StoreError.Invalid.

(** [checked_add(1).filter(|revision| *revision <= MAX_SAFE)] *)
Definition next_safe (n : N) : option N :=
  n ← checked_add u64_max n 1;
  if (n <=? MAX_SAFE_INTEGER)%N then Some n else None.

Definition corrupt {E A} (c : result E A) : result StoreError.t A :=
  map_err (λ _, StoreError.Corrupt) c.
Definition invalid {E A} (c : result E A) : result StoreError.t A :=
  map_err (λ _, StoreError.Invalid) c.

End columns.

(** ** Audit events *)

Section rows.
Context `{Externals} `{OperatorExternals}.

(** [ControlDigest::from_bytes([0; 32])] *)
Definition zero_control : ControlDigest :=
  {| control_bytes := String.string_of_list_ascii (replicate 32 "000"%char) |}.

(** The optional fields that the events of the runtime store use; [event_base] leaves
    them all empty. *)
Record EventFields := {
  ef_server_instance_id : option Uuid;
  ef_run_id : option Uuid;
  ef_budget_id : option Uuid;
  ef_reservation_id : option Uuid;
  ef_lease_id : option Uuid;
  ef_source_lease_id : option Uuid;
  ef_process_epoch_id : option Uuid;
  ef_permit_id : option Uuid;
  ef_recovery_directive_id : option Uuid;
  ef_fence_epoch : option N;
  ef_intent_digest : option ControlDigest;
  ef_call_digest : option ControlDigest;
  ef_recovery_directive_digest : option ControlDigest;
  ef_failure_scope : option AuditFailureScope.t;
  ef_proof : option ProofReference;
}.

Definition event_base (workspace_id event_id : Uuid) (kind : AuditEventKind.t)
    (outcome : AuditOutcome.t) (occurred_at : DateTime) (f : EventFields) : AuditEvent :=
  {| ae_schema := AUDIT_EVENT_SCHEMA; ae_workspace_id := workspace_id;
     ae_event_id := event_id; ae_sequence := 1; ae_kind := kind; ae_outcome := outcome;
     ae_previous_digest := None; ae_event_digest := zero_control; ae_human_id := None;
     ae_session_id := None; ae_challenge_id := None; ae_challenge_digest := None;
     ae_session_authority_digest := None; ae_related_session_id := None;
     ae_server_instance_id := ef_server_instance_id f; ae_run_id := ef_run_id f;
     ae_approval_request_id := None; ae_command_id := None; ae_command_kind := None;
     ae_budget_id := ef_budget_id f; ae_reservation_id := ef_reservation_id f;
     ae_lease_id := ef_lease_id f; ae_source_lease_id := ef_source_lease_id f;
     ae_process_epoch_id := ef_process_epoch_id f; ae_permit_id := ef_permit_id f;
     ae_recovery_directive_id := ef_recovery_directive_id f;
     ae_fence_epoch := ef_fence_epoch f; ae_auth_epoch := None; ae_policy_revision := None;
     ae_intent_digest := ef_intent_digest f; ae_call_digest := ef_call_digest f;
     ae_decision_digest := None;
     ae_recovery_directive_digest := ef_recovery_directive_digest f;
     ae_failure_scope := ef_failure_scope f; ae_proof := ef_proof f;
     ae_occurred_at := occurred_at |}.

Definition link_event (sequence : N) (previous : option ControlDigest)
    (digest : ControlDigest) (e : AuditEvent) : AuditEvent :=
  {| ae_schema := ae_schema e; ae_workspace_id := ae_workspace_id e;
     ae_event_id := ae_event_id e; ae_sequence := sequence; ae_kind := ae_kind e;
     ae_outcome := ae_outcome e; ae_previous_digest := previous; ae_event_digest := digest;
     ae_human_id := ae_human_id e; ae_session_id := ae_session_id e;
     ae_challenge_id := ae_challenge_id e; ae_challenge_digest := ae_challenge_digest e;
     ae_session_authority_digest := ae_session_authority_digest e;
     ae_related_session_id := ae_related_session_id e;
     ae_server_instance_id := ae_server_instance_id e; ae_run_id := ae_run_id e;
     ae_approval_request_id := ae_approval_request_id e; ae_command_id := ae_command_id e;
     ae_command_kind := ae_command_kind e; ae_budget_id := ae_budget_id e;
     ae_reservation_id := ae_reservation_id e; ae_lease_id := ae_lease_id e;
     ae_source_lease_id := ae_source_lease_id e;
     ae_process_epoch_id := ae_process_epoch_id e; ae_permit_id := ae_permit_id e;
     ae_recovery_directive_id := ae_recovery_directive_id e;
     ae_fence_epoch := ae_fence_epoch e; ae_auth_epoch := ae_auth_epoch e;
     ae_policy_revision := ae_policy_revision e; ae_intent_digest := ae_intent_digest e;
     ae_call_digest := ae_call_digest e; ae_decision_digest := ae_decision_digest e;
     ae_recovery_directive_digest := ae_recovery_directive_digest e;
     ae_failure_scope := ae_failure_scope e; ae_proof := ae_proof e;
     ae_occurred_at := ae_occurred_at e |}.

(** The clauses of [operator_audit_events]. *)
Definition event_admissible (e : AuditEvent) (d : Db) : bool :=
  bool_decide (db_workspace d = Some (ae_workspace_id e))
  && forallb (λ e', negb (bool_decide (ae_event_id e' = ae_event_id e))
                    && negb (bool_decide (ae_event_digest e' = ae_event_digest e))
                    && negb (bool_decide (ae_workspace_id e' = ae_workspace_id e)
                             && bool_decide (ae_sequence e' = ae_sequence e)))
       (db_events d)
  && present_opt (db_principals d) (ae_human_id e)
  && present_opt (db_controls d) (ae_run_id e)
  && present_opt (db_approval_requests d) (ae_approval_request_id e)
  && present_opt (db_budgets d) (ae_budget_id e)
  && present_opt (db_leases d) (ae_lease_id e)
  && present_opt (db_leases d) (ae_source_lease_id e)
  && present_opt (db_directives d) (ae_recovery_directive_id e)
  && present_opt (db_proofs d) (pf_proof_id <$> ae_proof e).

Definition append_audit_event (event : AuditEvent) : tx () :=
  let workspace := ae_workspace_id event in
  let! head := query (λ d, ok_or (db_heads d !! workspace) StoreError.Unavailable) in
  let '(last_sequence, last_digest) := head in
  stop StoreError.Corrupt when (MAX_SAFE_INTEGER <? last_sequence)%N;
  let! sequence := lift (ok_or (next_safe last_sequence) StoreError.Corrupt) in
  let unsealed := link_event sequence last_digest (ae_event_digest event) event in
  let! digest := lift (digest_or_invalid (event_digest_of unsealed)) in
  let sealed := link_event sequence last_digest digest event in
  let! _ := lift (invalid (validate_chain_link sealed sequence last_digest)) in
  let! _ := lift (json_column (event_value sealed)) in
  let! _ := sql (event_admissible sealed)
              (λ d, with_events (db_events d ++ [sealed]) d) in
  sql (λ _, true)
    (λ d, with_heads (<[workspace := (sequence, Some digest)]> (db_heads d)) d).

(** ** Control records *)

Definition load_control (run : Uuid) : tx RunControl :=
  let! control := query (λ d, ok_or (db_controls d !! run) StoreError.NotFound) in
  let! _ := lift (corrupt (RunControl_validate control)) in
  stop StoreError.Corrupt when negb (bool_decide (ctl_run_id control = run));
  ret control.

Definition update_run_control (control : RunControl) : tx () :=
  let! _ := lift (corrupt (RunControl_validate control)) in
  let! _ := lift (json_column (control_record_value control)) in
  let! known := query (λ d, Ok (present (db_controls d) (ctl_run_id control))) in
  stop StoreError.Corrupt when negb known;
  sql (λ d, no_other (db_controls d) (ctl_run_id control)
              (λ c, bool_decide (ctl_binding_digest c = ctl_binding_digest control)))
      (λ d, with_controls (<[ctl_run_id control := control]> (db_controls d)) d).

Definition set_control (revision : N) (active directive : option Uuid)
    (directive_digest : option ControlDigest) (updated_at : DateTime)
    (digest : ControlDigest) (c : RunControl) : RunControl :=
  {| ctl_schema := ctl_schema c; ctl_run_id := ctl_run_id c;
     ctl_workspace_id := ctl_workspace_id c; ctl_budget_id := ctl_budget_id c;
     ctl_control_revision := revision; ctl_active_dispatch_reservation_id := active;
     ctl_recovery_directive_id := directive;
     ctl_recovery_directive_digest := directive_digest;
     ctl_last_command_id := ctl_last_command_id c; ctl_created_at := ctl_created_at c;
     ctl_updated_at := updated_at; ctl_binding_digest := digest |}.

(** [control.active_dispatch_reservation_id = active], and the two recovery fields. *)
Definition set_active (active : option Uuid) (c : RunControl) : RunControl :=
  set_control (ctl_control_revision c) active (ctl_recovery_directive_id c)
    (ctl_recovery_directive_digest c) (ctl_updated_at c) (ctl_binding_digest c) c.
Definition set_recovery (directive : RecoveryDirective) (c : RunControl) : RunControl :=
  set_control (ctl_control_revision c) (ctl_active_dispatch_reservation_id c)
    (Some (rd_directive_id directive)) (Some (rd_directive_digest directive))
    (ctl_updated_at c) (ctl_binding_digest c) c.

Definition bump_control (control : RunControl) (now : DateTime)
    : result StoreError.t RunControl :=
  let with_digest revision digest :=
    set_control revision (ctl_active_dispatch_reservation_id control)
      (ctl_recovery_directive_id control) (ctl_recovery_directive_digest control) now digest
      control in
  let? revision := ok_or (next_safe (ctl_control_revision control)) StoreError.Corrupt in
  let? digest := digest_or_invalid
                   (control_digest_of (with_digest revision (ctl_binding_digest control))) in
  let next := with_digest revision digest in
  let? _ := corrupt (RunControl_validate next) in
  Ok next.

(** ** Leases *)

Definition load_lease (lease_id : Uuid) : tx RunLease :=
  let! lease := query (λ d, ok_or (db_leases d !! lease_id) StoreError.NotFound) in
  let! _ := lift (corrupt (RunLease_validate lease)) in
  stop StoreError.Corrupt when negb (bool_decide (ls_lease_id lease = lease_id));
  ret lease.

(** The partial index [idx_operator_run_leases_one_active] and [UNIQUE (run_id,
    fence_epoch)]. *)
Definition lease_unique (lease : RunLease) (d : Db) : bool :=
  no_other (db_leases d) (ls_lease_id lease) (λ l,
    bool_decide (ls_run_id l = ls_run_id lease)
    && ((ls_fence_epoch l =? ls_fence_epoch lease)%N
        || is_active l && is_active lease)).

Definition insert_lease (lease : RunLease) : tx () :=
  let! _ := lift (json_column (lease_value lease)) in
  sql (λ d, negb (present (db_leases d) (ls_lease_id lease))
            && lease_unique lease d
            && present (db_controls d) (ls_run_id lease)
            && bool_decide (db_workspace d = Some (ls_workspace_id lease)))
      (λ d, with_leases (<[ls_lease_id lease := lease]> (db_leases d)) d).

Definition update_lease (lease : RunLease) : tx () :=
  let! _ := lift (corrupt (RunLease_validate lease)) in
  let! _ := lift (json_column (lease_value lease)) in
  let! known := query (λ d, Ok (present (db_leases d) (ls_lease_id lease))) in
  stop StoreError.Corrupt when negb known;
  sql (lease_unique lease)
      (λ d, with_leases (<[ls_lease_id lease := lease]> (db_leases d)) d).

(** The fields of a lease that change; [seal_lease] recomputes its digest. *)
Definition set_lease (revision : N) (state : LeaseState.t) (renewed_at expires_at : DateTime)
    (released_at : option DateTime) (digest : ControlDigest) (l : RunLease) : RunLease :=
  {| ls_schema := ls_schema l; ls_run_id := ls_run_id l;
     ls_workspace_id := ls_workspace_id l; ls_lease_id := ls_lease_id l;
     ls_owner_instance_id := ls_owner_instance_id l;
     ls_process_epoch_id := ls_process_epoch_id l;
     ls_lease_token_digest := ls_lease_token_digest l; ls_fence_epoch := ls_fence_epoch l;
     ls_revision := revision; ls_state := state; ls_acquired_at := ls_acquired_at l;
     ls_renewed_at := renewed_at; ls_expires_at := expires_at;
     ls_released_at := released_at; ls_lease_digest := digest |}.

Definition seal_lease (l : RunLease) : result StoreError.t RunLease :=
  let? digest := digest_or_invalid (lease_digest_of l) in
  Ok (set_lease (ls_revision l) (ls_state l) (ls_renewed_at l) (ls_expires_at l)
        (ls_released_at l) digest l).

Definition validate_authority (a : LeaseAuthority) (now : DateTime)
    : tx (RunControl * RunLease) :=
  stop StoreError.Invalid
    when negb (bool_decide (la_schema a = LEASE_AUTHORITY_SCHEMA))
         || not_all_v7 [la_workspace_id a; la_run_id a; la_lease_id a;
                        la_owner_instance_id a; la_process_epoch_id a]
         || (la_fence_epoch a =? 0)%N || (MAX_SAFE_INTEGER <? la_fence_epoch a)%N
         || (MAX_SAFE_INTEGER <? la_expected_control_revision a)%N;
  let! stored := query (λ d, ok_or (db_leases d !! la_lease_id a) StoreError.StaleFence) in
  stop StoreError.StaleFence
    when negb (verifies_lease_token_digest a (ls_lease_token_digest stored));
  let! control := load_control (la_run_id a) in
  let! lease := load_lease (la_lease_id a) in
  stop StoreError.StaleFence
    when negb (bool_decide (ctl_workspace_id control = la_workspace_id a))
         || negb (ctl_control_revision control =? la_expected_control_revision a)%N
         || negb (bool_decide (ls_workspace_id lease = la_workspace_id a))
         || negb (bool_decide (ls_run_id lease = la_run_id a))
         || negb (bool_decide (ls_owner_instance_id lease = la_owner_instance_id a))
         || negb (bool_decide (ls_process_epoch_id lease = la_process_epoch_id a))
         || negb (ls_fence_epoch lease =? la_fence_epoch a)%N
         || negb (bool_decide (ls_state lease = LeaseState.Active))
         || (ls_expires_at lease <=? now)%Z;
  ret (control, lease).

(** ** Budgets *)

Definition load_budget (budget_id : Uuid) : tx BudgetAccount :=
  let! account := query (λ d, ok_or (db_budgets d !! budget_id) StoreError.NotFound) in
  let! _ := lift (corrupt (BudgetAccount_validate account)) in
  stop StoreError.Corrupt
    when negb (bool_decide (bl_budget_id (ba_policy account) = budget_id));
  ret account.

(** The columns that are written; the policy stays. *)
Definition update_budget (budget : BudgetAccount) : tx () :=
  let id := bl_budget_id (ba_policy budget) in
  let! _ := lift (corrupt (BudgetAccount_validate budget)) in
  let! known := query (λ d, Ok (present (db_budgets d) id)) in
  stop StoreError.Corrupt when negb known;
  sql (λ _, true) (λ d, with_budgets (<[id := budget]> (db_budgets d)) d).

Definition set_budget (revision : N) (reserved committed : BudgetAmounts)
    (updated_at : DateTime) (b : BudgetAccount) : BudgetAccount :=
  {| ba_schema := ba_schema b; ba_policy := ba_policy b; ba_revision := revision;
     ba_state := ba_state b; ba_reserved := reserved; ba_committed := committed;
     ba_created_at := ba_created_at b; ba_updated_at := updated_at |}.

Definition add_amounts (target value : BudgetAmounts) : result StoreError.t BudgetAmounts :=
  let? sum := corrupt (checked_add_amounts target value) in
  bail StoreError.Corrupt when negb (is_safe sum);
  Ok sum.

Definition subtract_amounts (target value : BudgetAmounts)
    : result StoreError.t BudgetAmounts :=
  let sub f := ok_or (checked_sub (f target) (f value)) StoreError.Corrupt in
  let? s := sub steps in
  let? t := sub tokens in
  let? d := sub duration_ms in
  let? c := sub cost_microusd in
  let? n := sub tool_dispatches in
  Ok {| steps := s; tokens := t; duration_ms := d; cost_microusd := c;
        tool_dispatches := n |}.

(** ** Reservations *)

Definition open_state (s : ReservationState.t) : bool :=
  match s with ReservationState.Reserved | ReservationState.Dispatching => true | _ => false end.

Definition is_open (r : BudgetReservation) : bool := open_state (br_state r).

(** The clauses of [operator_budget_reservations] that a validator does not cover. *)
Definition reservation_admissible (r : BudgetReservation) (d : Db) : bool :=
  no_other (db_reservations d) (br_reservation_id r) (λ r',
    (bool_decide (br_budget_id r' = br_budget_id r)
     && bool_decide (br_idempotency_key r' = br_idempotency_key r))
    || (is_some (br_permit_id r) && bool_decide (br_permit_id r' = br_permit_id r))
    || (is_some (br_recovery r)
        && bool_decide (rd_directive_id <$> br_recovery r' = rd_directive_id <$> br_recovery r))
    || (bool_decide (br_run_id r' = br_run_id r) && is_open r' && is_open r))
  && present (db_budgets d) (br_budget_id r)
  && is_some_and (db_controls d !! br_run_id r)
       (λ control, bool_decide (ctl_budget_id control = br_budget_id r))
  && is_some_and (db_leases d !! br_lease_id r)
       (λ lease, bool_decide (ls_run_id lease = br_run_id r)
                 && (ls_fence_epoch lease =? br_fence_epoch r)%N)
  && match br_replay r with
     | None => true
     | Some replay =>
         present (db_principals d) (rb_claimed_by replay)
         && bool_decide (rb_run_id replay = br_run_id r)
     end.

Definition insert_reservation (r : BudgetReservation) : tx () :=
  let! _ := lift (json_column (reservation_value r)) in
  sql (λ d, negb (present (db_reservations d) (br_reservation_id r))
            && reservation_admissible r d)
      (λ d, with_reservations (<[br_reservation_id r := r]> (db_reservations d)) d).

Definition update_reservation (r : BudgetReservation) : tx () :=
  let! _ := lift (corrupt (BudgetReservation_validate r)) in
  let! _ := lift (json_column (reservation_value r)) in
  let! known := query (λ d, Ok (present (db_reservations d) (br_reservation_id r))) in
  stop StoreError.Corrupt when negb known;
  sql (reservation_admissible r)
      (λ d, with_reservations (<[br_reservation_id r := r]> (db_reservations d)) d).

Definition load_reservation (reservation_id : Uuid) : tx BudgetReservation :=
  let! r := query (λ d, ok_or (db_reservations d !! reservation_id) StoreError.NotFound) in
  let! _ := lift (corrupt (BudgetReservation_validate r)) in
  stop StoreError.Corrupt when negb (bool_decide (br_reservation_id r = reservation_id));
  ret r.

(** The fields of a reservation that a transition assigns. *)
Definition set_reservation (state : ReservationState.t) (charged : BudgetAmounts)
    (permit_id : option Uuid) (token call prepared result : option ControlDigest)
    (binding : option PreparedExecutionBinding) (commit : option RuntimeCommit)
    (started settled : option DateTime) (r : BudgetReservation) : BudgetReservation :=
  {| br_schema := br_schema r; br_reservation_id := br_reservation_id r;
     br_budget_id := br_budget_id r; br_run_id := br_run_id r; br_lease_id := br_lease_id r;
     br_fence_epoch := br_fence_epoch r; br_idempotency_key := br_idempotency_key r;
     br_request_digest := br_request_digest r; br_kind := br_kind r;
     br_intent := br_intent r; br_intent_digest := br_intent_digest r;
     br_replay := br_replay r; br_recovery := br_recovery r; br_state := state;
     br_reserved := br_reserved r; br_charged := charged; br_created_at := br_created_at r;
     br_permit_id := permit_id; br_dispatch_token_digest := token; br_call_digest := call;
     br_prepared_execution_digest := prepared; br_result_digest := result;
     br_prepared_binding := binding; br_runtime_commit := commit;
     br_dispatch_started_at := started; br_settled_at := settled |}.

(** [state], [charged] and [settled_at] of a settlement. *)
Definition settle_as (state : ReservationState.t) (charged : BudgetAmounts)
    (now : DateTime) (r : BudgetReservation) : BudgetReservation :=
  set_reservation state charged (br_permit_id r) (br_dispatch_token_digest r)
    (br_call_digest r) (br_prepared_execution_digest r) (br_result_digest r)
    (br_prepared_binding r) (br_runtime_commit r) (br_dispatch_started_at r) (Some now) r.

(** [Reserved] to [Released]: the amounts go back to the budget. *)
Definition release_reservation (r : BudgetReservation) (budget : BudgetAccount)
    (now : DateTime) : tx (BudgetReservation * BudgetAccount) :=
  stop StoreError.Invalid
    when negb (bool_decide (br_state r = ReservationState.Reserved));
  let! reserved := lift (subtract_amounts (ba_reserved budget) (br_reserved r)) in
  let! revision := lift (ok_or (checked_add u64_max (ba_revision budget) 1)
                           StoreError.Corrupt) in
  let budget := set_budget revision reserved (ba_committed budget) now budget in
  let r := settle_as ReservationState.Released (br_charged r) now r in
  let! _ := update_reservation r in
  let! _ := update_budget budget in
  ret (r, budget).

(** ** Events of the runtime *)

Definition no_fields : EventFields :=
  {| ef_server_instance_id := None; ef_run_id := None; ef_budget_id := None;
     ef_reservation_id := None; ef_lease_id := None; ef_source_lease_id := None;
     ef_process_epoch_id := None; ef_permit_id := None; ef_recovery_directive_id := None;
     ef_fence_epoch := None; ef_intent_digest := None; ef_call_digest := None;
     ef_recovery_directive_digest := None; ef_failure_scope := None; ef_proof := None |}.

Definition lease_event (lease : RunLease) (event_id : Uuid) (kind : AuditEventKind.t)
    (source_lease_id reservation_id : option Uuid) (directive : option RecoveryDirective)
    (now : DateTime) : AuditEvent :=
  event_base (ls_workspace_id lease) event_id kind AuditOutcome.Accepted now
    {| ef_server_instance_id := Some (ls_owner_instance_id lease);
       ef_run_id := Some (ls_run_id lease); ef_budget_id := None;
       ef_reservation_id := reservation_id; ef_lease_id := Some (ls_lease_id lease);
       ef_source_lease_id := source_lease_id;
       ef_process_epoch_id := Some (ls_process_epoch_id lease); ef_permit_id := None;
       ef_recovery_directive_id := rd_directive_id <$> directive;
       ef_fence_epoch := Some (ls_fence_epoch lease);
       ef_intent_digest := rd_intent_digest <$> directive; ef_call_digest := None;
       ef_recovery_directive_digest := rd_directive_digest <$> directive;
       ef_failure_scope := None; ef_proof := None |}.

(** [lease_event] and [append_audit_event], as the lease operations use them. *)
Definition append_lease_event (store : option OperatorStoreContext) (lease : RunLease)
    (kind : AuditEventKind.t) (now : DateTime) : tx () :=
  let! event_id := operator_uuid store in
  append_audit_event (lease_event lease event_id kind None None None now).

(** The fields that every event about a reservation has. *)
Definition budget_fields (control : RunControl) (lease : RunLease) (reservation_id : Uuid)
    (intent_digest : ControlDigest) (permit_id : option Uuid)
    (call_digest : option ControlDigest) : EventFields :=
  {| ef_server_instance_id := None; ef_run_id := Some (ctl_run_id control);
     ef_budget_id := Some (ctl_budget_id control);
     ef_reservation_id := Some reservation_id; ef_lease_id := Some (ls_lease_id lease);
     ef_source_lease_id := None; ef_process_epoch_id := None; ef_permit_id := permit_id;
     ef_recovery_directive_id := None; ef_fence_epoch := Some (ls_fence_epoch lease);
     ef_intent_digest := Some intent_digest; ef_call_digest := call_digest;
     ef_recovery_directive_digest := None; ef_failure_scope := None; ef_proof := None |}.

(** The same with the process that holds the lease. *)
Definition dispatch_fields (control : RunControl) (lease : RunLease) (r : BudgetReservation)
    (failure_scope : option AuditFailureScope.t) (proof : option ProofReference)
    : EventFields :=
  {| ef_server_instance_id := Some (ls_owner_instance_id lease);
     ef_run_id := Some (ctl_run_id control); ef_budget_id := Some (ctl_budget_id control);
     ef_reservation_id := Some (br_reservation_id r);
     ef_lease_id := Some (ls_lease_id lease); ef_source_lease_id := None;
     ef_process_epoch_id := Some (ls_process_epoch_id lease);
     ef_permit_id := br_permit_id r; ef_recovery_directive_id := None;
     ef_fence_epoch := Some (ls_fence_epoch lease);
     ef_intent_digest := Some (br_intent_digest r); ef_call_digest := br_call_digest r;
     ef_recovery_directive_digest := None; ef_failure_scope := failure_scope;
     ef_proof := proof |}.

Definition append_budget_event (store : option OperatorStoreContext) (control : RunControl)
    (lease : RunLease) (reservation_id : Uuid) (intent_digest : ControlDigest)
    (kind : AuditEventKind.t) (outcome : AuditOutcome.t) (now : DateTime) : tx () :=
  let! event_id := operator_uuid store in
  append_audit_event (event_base (ctl_workspace_id control) event_id kind outcome now
    (budget_fields control lease reservation_id intent_digest None None)).

Definition append_dispatch_event (store : option OperatorStoreContext) (control : RunControl)
    (lease : RunLease) (r : BudgetReservation) (now : DateTime) : tx () :=
  let! event_id := operator_uuid store in
  append_audit_event (event_base (ctl_workspace_id control) event_id
    AuditEventKind.DispatchAuthorized AuditOutcome.Accepted now
    (dispatch_fields control lease r None None)).

Definition append_forfeit_events (store : option OperatorStoreContext) (control : RunControl)
    (lease : RunLease) (r : BudgetReservation) (now : DateTime) : tx () :=
  let! event_id := operator_uuid store in
  let! _ := append_audit_event (event_base (ctl_workspace_id control) event_id
    AuditEventKind.BudgetForfeited AuditOutcome.Failed now
    (budget_fields control lease (br_reservation_id r) (br_intent_digest r)
       (br_permit_id r) (br_call_digest r))) in
  let! event_id := operator_uuid store in
  append_audit_event (event_base (ctl_workspace_id control) event_id
    AuditEventKind.ControlFailure AuditOutcome.Failed now
    (dispatch_fields control lease r (Some AuditFailureScope.Runtime) None)).

Definition append_recovery_started (store : option OperatorStoreContext) (lease : RunLease)
    (r : BudgetReservation) (directive : RecoveryDirective) (now : DateTime) : tx () :=
  let! event_id := operator_uuid store in
  append_audit_event (event_base (rd_workspace_id directive) event_id
    AuditEventKind.RecoveryStarted AuditOutcome.Accepted now
    {| ef_server_instance_id := Some (ls_owner_instance_id lease);
       ef_run_id := Some (rd_run_id directive); ef_budget_id := None;
       ef_reservation_id := Some (br_reservation_id r); ef_lease_id := None;
       ef_source_lease_id := Some (ls_lease_id lease); ef_process_epoch_id := None;
       ef_permit_id := None; ef_recovery_directive_id := Some (rd_directive_id directive);
       ef_fence_epoch := Some (ls_fence_epoch lease);
       ef_intent_digest := Some (rd_intent_digest directive); ef_call_digest := None;
       ef_recovery_directive_digest := Some (rd_directive_digest directive);
       ef_failure_scope := None; ef_proof := None |}).

Definition append_reclaim_event (store : option OperatorStoreContext)
    (replacement : RunLease) (source_lease_id : Uuid) (reservation_id : option Uuid)
    (directive : option RecoveryDirective) (now : DateTime) : tx () :=
  let! event_id := operator_uuid store in
  append_audit_event (lease_event replacement event_id AuditEventKind.LeaseReclaimed
    (Some source_lease_id) (match directive with Some _ => reservation_id | None => None end)
    directive now).

(** ** Runs, steps and checkpoints *)

Definition load_agent_run_exact (id : Uuid) : tx AgentRun :=
  let! run := query (λ d, ok_or (db_runs d !! id) StoreError.NotFound) in
  stop StoreError.Corrupt
    when negb (bool_decide (run_id run = id)) || (MAX_SAFE_INTEGER <? run_revision run)%N;
  ret run.

Definition update_agent_run_exact (run : AgentRun) (previous_revision : N) : tx () :=
  stop StoreError.Invalid
    when (MAX_SAFE_INTEGER <? run_revision run)%N || (MAX_SAFE_INTEGER <? previous_revision)%N;
  let! _ := lift (json_column (Some (run_value run))) in
  let! matches := query (λ d, Ok (is_some_and (db_runs d !! run_id run)
                      (λ r, run_revision r =? previous_revision)%N)) in
  stop StoreError.StaleRevision when negb matches;
  sql (λ _, true) (λ d, with_runs (<[run_id run := run]> (db_runs d)) d).

Definition load_agent_step_exact (id : Uuid) : tx AgentRunStep :=
  let! step := query (λ d, ok_or (db_steps d !! id) StoreError.NotFound) in
  stop StoreError.Corrupt
    when negb (bool_decide (step_id step = id)) || (MAX_SAFE_INTEGER <? step_revision step)%N
         || is_err (json_column (Some (step_value step)));
  ret step.

(** [ORDER BY ordinal DESC, attempt DESC, id DESC] *)
Definition later_step (a b : AgentRunStep) : bool :=
  (step_ordinal b <? step_ordinal a)%N
  || (step_ordinal b =? step_ordinal a)%N
     && ((step_attempt b <? step_attempt a)%N
         || (step_attempt b =? step_attempt a)%N
            && String.ltb (uuid_to_string (step_id b)) (uuid_to_string (step_id a))).

Definition load_latest_agent_step (run : Uuid) : tx (option AgentRunStep) :=
  let! latest := query (λ d, Ok (best later_step
                   (filter (λ s, step_run_id s = run) (rows (db_steps d))))) in
  match latest with
  | None => ret None
  | Some step =>
      let! id := lift (uuid_column (step_id step)) in
      let! step := load_agent_step_exact id in
      ret (Some step)
  end.

Definition update_agent_step_exact (step : AgentRunStep) (previous_revision : N) : tx () :=
  stop StoreError.Invalid
    when (MAX_SAFE_INTEGER <? step_revision step)%N
         || (MAX_SAFE_INTEGER <? previous_revision)%N;
  let! _ := lift (json_column (Some (step_value step))) in
  let! matches := query (λ d, Ok (is_some_and (db_steps d !! step_id step)
                      (λ s, step_revision s =? previous_revision)%N)) in
  stop StoreError.StaleRevision when negb matches;
  sql (λ d, present_opt (db_approval_requests d) (step_approval_request_id step)
            && (is_none (step_approval_request_id step)
                || no_other (db_steps d) (step_id step) (λ s,
                     bool_decide (step_approval_request_id s = step_approval_request_id step))))
      (λ d, with_steps (<[step_id step := step]> (db_steps d)) d).

(** The identity of a checkpoint. *)
Definition identity (c : AgentCheckpoint) : Uuid * N * ContentDigest :=
  (cp_id c, cp_sequence c, cp_state_digest c).

(** [ORDER BY sequence DESC] *)
Definition latest_checkpoint (run : Uuid) (d : Db) : option AgentCheckpoint :=
  best (λ a b, cp_sequence b <? cp_sequence a)%N
    (filter (λ c, cp_run_id c = run) (rows (db_checkpoints d))).

Definition load_checkpoint_identity_exact (checkpoint_id run : Uuid)
    : tx (Uuid * N * ContentDigest) :=
  let! c := query (λ d, ok_or (db_checkpoints d !! checkpoint_id) StoreError.Corrupt) in
  stop StoreError.Corrupt
    when is_err (json_column (Some (checkpoint_value c)))
         || negb (bool_decide (cp_id c = checkpoint_id)) || negb (bool_decide (cp_run_id c = run));
  ret (identity c).

Definition load_latest_checkpoint_identity (run : Uuid) : tx (Uuid * N * ContentDigest) :=
  let! c := query (λ d, ok_or (latest_checkpoint run d) StoreError.Corrupt) in
  let! id := lift (uuid_column (cp_id c)) in
  load_checkpoint_identity_exact id run.

(** ** Projections *)

Definition latest_projection (run : Uuid) (d : Db) : option RunProjection :=
  best (λ a b, pj_projection_sequence b <? pj_projection_sequence a)%N
    (filter (λ p, pj_run_id p = run) (db_projections d)).

Definition load_latest_projection_exact (run : Uuid) : tx RunProjection :=
  let! p := query (λ d, ok_or (latest_projection run d) StoreError.Corrupt) in
  let! _ := lift (corrupt (RunProjection_validate p)) in
  ret p.

(** [ORDER BY created_at DESC, approval_request_id DESC] *)
Definition later_approval (a b : ApprovalBinding) : bool :=
  (ab_created_at b <? ab_created_at a)%Z
  || (ab_created_at b =? ab_created_at a)%Z
     && String.ltb (uuid_to_string (ab_approval_request_id b))
          (uuid_to_string (ab_approval_request_id a)).

Definition latest_approval (run : Uuid) (d : Db) : option ApprovalBinding :=
  best later_approval (filter (λ b, ab_run_id b = run) (rows (db_approvals d))).

(** The attention, the required human, the approval and the directive that the status
    of the run gives. *)
Definition attention_of (run : AgentRun) (control : RunControl)
    : tx (AttentionState.t * option Uuid * option Uuid
          * option Uuid * option ControlDigest) :=
  match run_status run with
  | RunStatus.Queued | RunStatus.Running => ret (AttentionState.Running, None, None, None, None)
  | RunStatus.WaitingForInput =>
      let! approval := query (λ d, ok_or (latest_approval (ctl_run_id control) d)
                                     StoreError.Corrupt) in
      let! request := lift (uuid_column (ab_approval_request_id approval)) in
      let! human := lift (uuid_column (ab_required_human_id approval)) in
      ret (AttentionState.AwaitingDecision, Some human, Some request, None, None)
  | RunStatus.Succeeded | RunStatus.Failed | RunStatus.Cancelled =>
      if bool_decide (run_status run = RunStatus.Failed)
         && is_some (ctl_recovery_directive_id control)
      then ret (AttentionState.Recoverable, None, None, ctl_recovery_directive_id control,
                ctl_recovery_directive_digest control)
      else ret (AttentionState.Terminal, None, None, None, None)
  end.

Definition projection_admissible (p : RunProjection) (d : Db) : bool :=
  forallb (λ p', negb (bool_decide (pj_projection_id p' = pj_projection_id p))
                 && negb (pj_projection_sequence p' =? pj_projection_sequence p)%N
                 && negb (bool_decide (pj_workspace_id p' = pj_workspace_id p)
                          && bool_decide (pj_run_id p' = pj_run_id p)
                          && (pj_projection_revision p' =? pj_projection_revision p)%N))
    (db_projections d)
  && bool_decide (db_workspace d = Some (pj_workspace_id p))
  && present (db_controls d) (pj_run_id p)
  && present (db_checkpoints d) (pj_checkpoint_id p)
  && present_opt (db_principals d) (pj_required_human_id p)
  && present_opt (db_approval_requests d) (pj_approval_request_id p)
  && present_opt (db_directives d) (pj_recovery_directive_id p).

Definition insert_projection (p : RunProjection) : tx () :=
  let! _ := lift (json_column (projection_value p)) in
  sql (projection_admissible p) (λ d, with_projections (db_projections d ++ [p]) d).

Definition append_current_projection (store : option OperatorStoreContext)
    (control : RunControl) (fence_epoch : N) (now : DateTime) : tx () :=
  let! previous := query (λ d, ok_or (latest_projection (ctl_run_id control) d)
                                 StoreError.Corrupt) in
  let! _ := lift (corrupt (RunProjection_validate previous)) in
  stop StoreError.Corrupt
    when negb (bool_decide (pj_run_id previous = ctl_run_id control))
         || negb (bool_decide (pj_workspace_id previous = ctl_workspace_id control));
  let! sequence := query (λ d, Ok (foldr N.max 0%N (map pj_projection_sequence
                             (db_projections d)) + 1)%N) in
  let! projection_id := operator_uuid store in
  stop StoreError.Corrupt when (MAX_SAFE_INTEGER <? sequence)%N;
  let! revision := lift (ok_or (next_safe (pj_projection_revision previous))
                           StoreError.Corrupt) in
  let! run := query (λ d, ok_or (db_runs d !! ctl_run_id control) StoreError.Unavailable) in
  stop StoreError.Corrupt when negb (bool_decide (run_id run = ctl_run_id control));
  let! checkpoint := query (λ d, ok_or (latest_checkpoint (ctl_run_id control) d)
                                   StoreError.Corrupt) in
  let! checkpoint_id := lift (uuid_column (cp_id checkpoint)) in
  let! attention := attention_of run control in
  let '(state, human, request, directive, directive_digest) := attention in
  let projection digest :=
    {| pj_schema := pj_schema previous; pj_projection_id := projection_id;
       pj_projection_sequence := sequence; pj_projection_revision := revision;
       pj_workspace_id := pj_workspace_id previous; pj_run_id := pj_run_id previous;
       pj_source_run_revision := run_revision run;
       pj_source_control_revision := ctl_control_revision control;
       pj_checkpoint_id := checkpoint_id; pj_checkpoint_sequence := cp_sequence checkpoint;
       pj_checkpoint_digest := cp_state_digest checkpoint; pj_fence_epoch := fence_epoch;
       pj_run_status := run_status run; pj_attention := state;
       pj_required_human_id := human; pj_approval_request_id := request;
       pj_recovery_directive_id := directive;
       pj_recovery_directive_digest := directive_digest; pj_projected_at := now;
       pj_snapshot_digest := digest |} in
  let! digest := lift (digest_or_invalid
                         (snapshot_digest_of (projection (pj_snapshot_digest previous)))) in
  let! _ := lift (corrupt (RunProjection_validate (projection digest))) in
  insert_projection (projection digest).

(** ** Recovery directives *)

Definition directive_admissible (directive : RecoveryDirective) (d : Db) : bool :=
  negb (present (db_directives d) (rd_directive_id directive))
  && no_other (db_directives d) (rd_directive_id directive)
       (λ x, bool_decide (rd_directive_digest x = rd_directive_digest directive))
  && bool_decide (db_workspace d = Some (rd_workspace_id directive))
  && present (db_controls d) (rd_run_id directive)
  && is_some_and (db_leases d !! rd_source_lease_id directive)
       (λ l, bool_decide (ls_run_id l = rd_run_id directive)
             && (ls_fence_epoch l =? rd_source_fence_epoch directive)%N)
  && present (db_reservations d) (rd_source_reservation_id directive)
  && existsb (λ r, bool_decide (br_budget_id r = rd_source_budget_id directive)
                   && bool_decide (br_idempotency_key r = rd_source_idempotency_key directive))
       (rows (db_reservations d))
  && present (db_budgets d) (rd_source_budget_id directive)
  && present (db_checkpoints d) (rd_checkpoint_id directive).

Definition insert_recovery_directive (directive : RecoveryDirective) : tx () :=
  let! _ := lift (invalid (RecoveryDirective_validate directive)) in
  let! _ := lift (json_column (directive_value directive)) in
  sql (directive_admissible directive)
      (λ d, with_directives (<[rd_directive_id directive := directive]> (db_directives d)) d).

Definition load_recovery_directive (directive_id : Uuid) : tx RecoveryDirective :=
  let! directive := query (λ d, ok_or (db_directives d !! directive_id) StoreError.Corrupt) in
  let! _ := lift (corrupt (RecoveryDirective_validate directive)) in
  stop StoreError.Corrupt
    when negb (bool_decide (rd_directive_id directive = directive_id));
  ret directive.

(** ** Principals *)

Definition load_principal_record (principal_id : Uuid) : tx Principal :=
  let! p := query (λ d, ok_or (db_principals d !! principal_id) StoreError.Corrupt) in
  let! id := lift (uuid_column (pr_id p)) in
  stop StoreError.Corrupt when negb (bool_decide (id = principal_id));
  ret {| pr_id := id; pr_kind := pr_kind p; pr_public_key := pr_public_key p;
         pr_created_at := 0 |}.

End rows.
