(* ===== verification/ReplayStore.v ===== *)
(** * Replay in the operator store

    The exact-replay rows of [sqlite/replay.rs] as [begin_dispatch] uses them
    ([claim_execution_replay_in_transaction]), and [load_verified_replay] of
    [operator_store.rs]: a completed replay is returned only when the reservation that
    produced it, its prepared result, the proof and its signature, the execution
    context, the run, the step, the checkpoint, the projection of the commit and the
    events of the run all agree with the binding that was claimed. *)

From S2P Require Import Prelude RustStr Externals Json Canonical Serialized Evidence Approval.
From S2P Require Import OperatorCommon StrictDigest Agent AgentRun ExecutionStore Durable AuditChain Custody.
From S2P Require Import Base64 RuntimeStore.
From stdpp Require Import options.

Section replay.
Context `{Externals} `{OperatorExternals}.

(** ** Claims *)

(** The errors of [replay.rs] are not told apart by its caller. *)
Notation storage := (call Tx ()).

Definition validate_claim_shape (claim : ExecutionReplayClaim) : result () () :=
  bail tt when negb (uuid_version_num (rk_idempotency_key (rc_key claim)) =? 7)%N;
  Ok ().

Definition load_completed_outcome (row : ReplayRow) : storage ClaimResult.t := λ s,
  match row_state row with
  | ReplayCompleted _ output proof_id proof context_id =>
      (let! _ := lift (map_err (λ _, tt) (canonicalize output)) in
       stop tt when negb (bool_decide (pb_id (body proof) = proof_id));
       stop tt when negb (is_some_and (db_proofs (tx_db s) !! proof_id)
                            (λ stored, bool_decide (row_proof stored = proof)));
       stop tt when negb (present (db_contexts (tx_db s)) context_id);
       ret (ClaimResult.Completed {| eo_output := output; eo_proof := proof |})) s
  | _ => (Err tt, s)
  end.

Definition claimed_row (claim : ExecutionReplayClaim) : ReplayRow :=
  {| row_input_digest := rc_input_digest claim; row_state := ReplayClaimed;
     row_claim_token := rc_claim_token claim; row_claimed_by := rc_claimed_by claim;
     row_claimed_at := rc_claimed_at claim |}.

Definition claim_execution_replay_in_transaction (claim : ExecutionReplayClaim)
    : storage ClaimResult.t :=
  let! _ := lift (validate_claim_shape claim) in
  λ s,
    match db_replays (tx_db s) !! rc_key claim with
    | Some row =>
        if negb (bool_decide (row_input_digest row = rc_input_digest claim))
        then (Ok ClaimResult.Conflict, s)
        else
          match row_state row with
          | ReplayClaimed => (Ok ClaimResult.InProgress, s)
          | ReplayFailed _ _ => (Ok ClaimResult.Failed, s)
          | ReplayCompleted _ _ _ _ _ => load_completed_outcome row s
          end
    | None =>
        (let! _ := call_map_err (λ _, tt)
                     (sql (λ d, no_other (db_replays d) (rc_key claim)
                                  (λ r, bool_decide (row_claim_token r = rc_claim_token claim)))
                          (λ d, with_replays (<[rc_key claim := claimed_row claim]>
                                                (db_replays d)) d)) in
         ret ClaimResult.Acquired) s
    end.

Definition binding_key (b : ReplayClaimBinding) : ExecutionReplayKey :=
  {| rk_operation := rb_operation b; rk_version := rb_version b;
     rk_idempotency_key := rb_idempotency_key b |}.

Definition insert_replay_binding (binding : ReplayClaimBinding) (reservation_id : Uuid)
    (now : DateTime) : tx () :=
  let key := binding_key binding in
  let! _ := lift (invalid (ReplayClaimBinding_validate binding)) in
  let! _ := lift (json_column (replay_binding_value binding)) in
  sql (λ d, negb (present (db_bindings d) key)
            && no_other (db_bindings d) key (λ b,
                 bool_decide (bind_origin_reservation_id b = reservation_id)
                 || bool_decide (rb_binding_digest (bind_binding b) = rb_binding_digest binding)
                 || bool_decide (rb_run_id (bind_binding b) = rb_run_id binding)
                    && bool_decide (rb_step_id (bind_binding b) = rb_step_id binding))
            && present (db_replays d) key
            && bool_decide (db_workspace d = Some (rb_workspace_id binding))
            && present (db_controls d) (rb_run_id binding)
            && present (db_steps d) (rb_step_id binding)
            && present (db_reservations d) reservation_id
            && present (db_checkpoints d) (rb_checkpoint_id binding)
            && present (db_principals d) (rb_claimed_by binding))
      (λ d, with_bindings
              (<[key := {| bind_binding := binding;
                           bind_origin_reservation_id := reservation_id;
                           bind_created_at := now |}]> (db_bindings d)) d).

(** [mark_bound_replay_failed]: the claim of a forfeited dispatch becomes failed. *)
Definition mark_bound_replay_failed (binding : option ReplayClaimBinding) (now : DateTime)
    : tx () :=
  match binding with
  | None => ret tt
  | Some binding =>
      let key := binding_key binding in
      let! row := query (λ d, ok_or (db_replays d !! key) StoreError.Corrupt) in
      stop StoreError.Corrupt
        when negb (bool_decide (row_input_digest row = rb_input_digest binding))
             || negb (bool_decide (row_claimed_by row = rb_claimed_by binding));
      match row_state row with
      | ReplayClaimed =>
          sql (λ _, true) (λ d, with_replays
            (<[key := {| row_input_digest := row_input_digest row;
                         row_state := ReplayFailed now "governed dispatch forfeited";
                         row_claim_token := row_claim_token row;
                         row_claimed_by := row_claimed_by row;
                         row_claimed_at := row_claimed_at row |}]> (db_replays d)) d)
      | ReplayFailed _ _ => ret tt
      | ReplayCompleted _ _ _ _ _ => throw StoreError.Corrupt
      end
  end.

(** ** Verified lookup *)

Record ReplayLookupRequest := { lk_schema : string; lk_binding : ReplayClaimBinding }.

Definition LOOKUP_SCHEMA : string := "proof.operator.replay-lookup-request/v1".

Definition ReplayLookupRequest_validate (r : ReplayLookupRequest) : result StoreError.t () :=
  bail StoreError.Invalid
    when negb (bool_decide (lk_schema r = LOOKUP_SCHEMA))
         || is_err (ReplayClaimBinding_validate (lk_binding r));
  Ok ().

(** The rows that the joins of the query bring together, when all of them exist. *)
Definition joined (key : ExecutionReplayKey) (d : Db) : option (ReplayRow * ReplayBindingRow) :=
  e ← db_replays d !! key;
  b ← db_bindings d !! key;
  _ ← db_runs d !! rb_run_id (bind_binding b);
  s ← db_steps d !! rb_step_id (bind_binding b);
  _ ← db_controls d !! rb_run_id (bind_binding b);
  if bool_decide (step_run_id s = rb_run_id (bind_binding b)) then Some (e, b) else None.

Definition event_kind_wire (k : EventKind.t) : string :=
  match k with
  | EventKind.Started => "started" | EventKind.ModelRequested => "model_requested"
  | EventKind.ModelResponded => "model_responded" | EventKind.ToolRequested => "tool_requested"
  | EventKind.ToolSucceeded => "tool_succeeded" | EventKind.ToolFailed => "tool_failed"
  | EventKind.ApprovalRequired => "approval_required"
  | EventKind.ApprovalResumed => "approval_resumed" | EventKind.Completed => "completed"
  | EventKind.Failed => "failed" | EventKind.BudgetExceeded => "budget_exceeded"
  end.

Definition run_event_value (e : AgentRunEvent) : json :=
  json_object
    [("id", uuid_value (ev_id e)); ("run_id", uuid_value (ev_run_id e));
     ("sequence", JNumber (PosInt (ev_sequence e)));
     ("kind", JString (event_kind_wire (ev_kind e))); ("data", ev_data e);
     ("data_digest", ContentDigest_serialize (ev_data_digest e));
     ("created_at", utc_value (ev_created_at e))].

(** The events of a range, in order: each has the expected number and the digest of
    its data. *)
Fixpoint check_events (run : Uuid) (expected : N) (events : list AgentRunEvent)
    : result StoreError.t N :=
  match events with
  | [] => Ok expected
  | e :: events' =>
      let? canonical := corrupt (canonicalize (ev_data e)) in
      bail StoreError.Corrupt
        when is_err (json_column (Some (run_event_value e)))
             || negb (uuid_is_v7 (ev_id e))
             || negb (bool_decide (ev_run_id e = run))
             || negb (ev_sequence e =? expected)%N
             || negb (bool_decide (ev_data_digest e = digest AgentEventKind canonical));
      let? expected := ok_or (checked_add u64_max expected 1) StoreError.Corrupt in
      check_events run expected events'
  end.

Definition by_sequence (e : AgentRunEvent) : Z * Z := (Z.of_N (ev_sequence e), 0%Z).

Definition validate_runtime_event_range (run : Uuid) (first_sequence last_sequence : N) : tx () :=
  stop StoreError.Corrupt
    when (last_sequence <? first_sequence)%N || (MAX_SAFE_INTEGER <? first_sequence)%N
         || (MAX_SAFE_INTEGER <? last_sequence)%N;
  let! events := query (λ d, Ok (sort_by_key2 by_sequence
      (filter (λ e, ev_run_id e = run ∧ (first_sequence ≤ ev_sequence e)%N
                    ∧ (ev_sequence e ≤ last_sequence)%N) (rows (db_run_events d))))) in
  let! expected := lift (check_events run first_sequence events) in
  let! stop_at := lift (ok_or (checked_add u64_max last_sequence 1) StoreError.Corrupt) in
  stop StoreError.Corrupt when negb (expected =? stop_at)%N;
  ret tt.

(** [ORDER BY projection_sequence ASC LIMIT 1] among the projections of one commit. *)
Definition load_commit_projection_exact (run : Uuid) (run_revision control_revision : N)
    : tx RunProjection :=
  stop StoreError.Invalid
    when (MAX_SAFE_INTEGER <? run_revision)%N || (MAX_SAFE_INTEGER <? control_revision)%N;
  let! p := query (λ d, ok_or
      (best (λ a b, pj_projection_sequence a <? pj_projection_sequence b)%N
         (filter (λ p, pj_run_id p = run ∧ pj_source_run_revision p = run_revision
                       ∧ pj_source_control_revision p = control_revision)
            (db_projections d))) StoreError.Corrupt) in
  let! _ := lift (corrupt (RunProjection_validate p)) in
  ret p.

(** [Path::is_absolute] *)
Definition is_absolute (path : string) : bool :=
  match path with String c _ => bool_decide (c = "/"%char) | EmptyString => false end.

(** The reservation that produced the replay, with its prepared result and commit. *)
Definition load_origin (binding : ReplayClaimBinding) (origin_reservation_id : Uuid)
    : tx (BudgetReservation * PreparedExecutionBinding * RuntimeCommit) :=
  let! origin := lift (uuid_column origin_reservation_id) in
  let! r := load_reservation origin in
  stop StoreError.Corrupt
    when negb (bool_decide (br_state r = ReservationState.Committed))
         || negb (bool_decide (br_reservation_id r = origin))
         || negb (bool_decide (br_run_id r = rb_run_id binding))
         || negb (bool_decide (br_replay r = Some binding));
  let! prepared := lift (ok_or (br_prepared_binding r) StoreError.Corrupt) in
  let! _ := lift (corrupt (PreparedExecutionBinding_validate prepared)) in
  let! commit := lift (ok_or (br_runtime_commit r) StoreError.Corrupt) in
  let! _ := lift (corrupt (RuntimeCommit_validate commit)) in
  let usage := rr_usage (xb_result prepared) in
  stop StoreError.Corrupt
    when negb (bool_decide (xb_replay_binding_digest prepared = Some (rb_binding_digest binding)))
         || negb (bool_decide (xb_payload_digest prepared = rtc_prepared_execution_digest commit))
         || negb (bool_decide (xb_result_digest prepared = rtc_result_digest commit))
         || negb (bool_decide (ur_boundary_kind usage = br_kind r))
         || negb (bool_decide (ur_adapter usage = in_adapter (br_intent r)))
         || negb (bool_decide (ur_model usage = in_model (br_intent r)))
         || negb (bool_decide (ur_input_digest usage = rb_input_digest binding))
         || negb (ur_steps usage =? steps (br_charged r))%N
         || negb (ur_tokens usage =? tokens (br_charged r))%N
         || negb (ur_cost_microusd usage =? cost_microusd (br_charged r))%N
         || negb (ur_tool_dispatches usage =? tool_dispatches (br_charged r))%N;
  ret (r, prepared, commit).

(** The proof of the stored output, its signature and its execution context. *)
Definition check_proof (binding : ReplayClaimBinding) (prepared : PreparedExecutionBinding)
    (completed_at : DateTime) (proof_id : Uuid) (proof : Proof_) (context_id : Uuid) : tx () :=
  let b := body proof in
  let! persisted := query (λ d, ok_or (db_proofs d !! proof_id) StoreError.Corrupt) in
  stop StoreError.Corrupt
    when negb (bool_decide (pb_id b = proof_id))
         || negb (bool_decide (pb_actor b = rb_claimed_by binding))
         || negb (bool_decide (pb_operation b
                               = rb_operation binding +:+ "::" +:+ rb_version binding))
         || negb (bool_decide (pb_input_digest b = rb_input_digest binding))
         || negb (bool_decide (pb_output_digest b = rr_output_digest (xb_result prepared)))
         || negb (bool_decide (pb_timestamp b = completed_at))
         || negb (bool_decide (row_proof persisted = proof))
         || negb (bool_decide (row_version persisted = rb_version binding));
  let! principal := load_principal_record (pb_actor b) in
  stop StoreError.Corrupt
    when negb (bool_decide (pr_kind principal = Agent))
         || is_err (Proof_verify proof (pr_public_key principal));
  let! context := query (λ d, ok_or (db_contexts d !! context_id) StoreError.Corrupt) in
  stop StoreError.Corrupt
    when negb (bool_decide (row_actor context = pb_actor b))
         || negb (bool_decide (row_delegation_id context = pb_delegation_id b))
         || negb (is_absolute (row_workspace_path context))
         || negb (bool_decide (row_timestamp context = pb_timestamp b))
         || negb (bool_decide (xb_execution_context_id prepared = context_id));
  ret tt.

(** The run and step of the replay, which may have moved on since. *)
Definition check_progress (binding : ReplayClaimBinding) (r : BudgetReservation)
    (prepared : PreparedExecutionBinding) (commit : RuntimeCommit) (output : json)
    (proof : Proof_) : tx (AgentRun * AgentRunStep * RunControl) :=
  let result := xb_result prepared in
  let! run := load_agent_run_exact (rb_run_id binding) in
  let! step := load_agent_step_exact (rb_step_id binding) in
  let! control := load_control (rb_run_id binding) in
  let! proof_digest := lift (corrupt (proof_digest proof)) in
  stop StoreError.Corrupt
    when negb (bool_decide (step_run_id step = rb_run_id binding))
         || negb (bool_decide (step_proof step = Some proof))
         || negb (bool_decide (step_output step = Some output))
         || negb (bool_decide (rr_proof result =
              {| pf_proof_id := pb_id (body proof); pf_actor_id := pb_actor (body proof);
                 pf_operation := rb_operation binding; pf_proof_digest := proof_digest |}))
         || (run_revision run <? rr_run_revision result)%N
         || (step_revision step <? rr_step_revision result)%N
         || match run_mode run with
            | OneShot => negb (bool_decide (checked_add u64_max (rtc_expected_run_revision commit) 1
                                            = Some (rr_run_revision result)))
            | Session => negb (rtc_expected_run_revision commit =? rr_run_revision result)%N
            end
         || negb (bool_decide (checked_add u64_max (rtc_expected_step_revision commit) 1
                               = Some (rr_step_revision result)))
         || negb (bool_decide (rtc_expected_checkpoint_id commit = rb_checkpoint_id binding))
         || negb (rtc_expected_checkpoint_sequence commit =? rb_checkpoint_sequence binding)%N
         || negb (bool_decide (rtc_expected_checkpoint_digest commit = rb_checkpoint_digest binding))
         || negb (bool_decide (br_settled_at r = Some (rtc_committed_at commit)));
  ret (run, step, control).

Definition committed_checkpoint (binding : ReplayClaimBinding) (body : PreparedRuntimeResultBody)
    : result StoreError.t (Uuid * N * ContentDigest) :=
  match rr_checkpoint_id body, rr_checkpoint_sequence body, rr_checkpoint_digest body with
  | Some id, Some sequence, Some digest => Ok (id, sequence, digest)
  | None, None, None =>
      Ok (rb_checkpoint_id binding, rb_checkpoint_sequence binding, rb_checkpoint_digest binding)
  | _, _, _ => Err StoreError.Corrupt
  end.

(** The checkpoint and the projection of the commit, and the latest of both. *)
Definition check_projections (binding : ReplayClaimBinding) (r : BudgetReservation)
    (prepared : PreparedExecutionBinding) (commit : RuntimeCommit) (run : AgentRun)
    (control : RunControl) : tx () :=
  let result := xb_result prepared in
  let! revision := lift (ok_or
      (n ← checked_add u64_max (dp_expected_control_revision (rtc_permit commit)) 2;
       if (n <=? MAX_SAFE_INTEGER)%N then Some n else None) StoreError.Corrupt) in
  stop StoreError.Corrupt when (ctl_control_revision control <? revision)%N;
  let! checkpoint := lift (committed_checkpoint binding result) in
  let! stored := load_checkpoint_identity_exact checkpoint.1.1 (run_id run) in
  stop StoreError.Corrupt when negb (bool_decide (stored = checkpoint));
  let! p := load_commit_projection_exact (run_id run) (rr_run_revision result) revision in
  stop StoreError.Corrupt
    when negb (bool_decide (pj_workspace_id p = rb_workspace_id binding))
         || negb (bool_decide ((pj_checkpoint_id p, pj_checkpoint_sequence p,
                                pj_checkpoint_digest p) = checkpoint))
         || negb (pj_fence_epoch p =? br_fence_epoch r)%N
         || negb (pj_projected_at p =? rtc_committed_at commit)%Z;
  let! latest := load_latest_projection_exact (run_id run) in
  let! latest_checkpoint := load_latest_checkpoint_identity (run_id run) in
  stop StoreError.Corrupt
    when negb (bool_decide (pj_workspace_id latest = rb_workspace_id binding))
         || negb (pj_source_run_revision latest =? run_revision run)%N
         || negb (pj_source_control_revision latest =? ctl_control_revision control)%N
         || negb (bool_decide (pj_run_status latest = run_status run))
         || negb (bool_decide (latest_checkpoint = (pj_checkpoint_id latest,
                    pj_checkpoint_sequence latest, pj_checkpoint_digest latest)));
  ret tt.

(** The completion that is returned. *)
Definition replay_completion (binding : ReplayClaimBinding) (run : AgentRun)
    (step : AgentRunStep) (control : RunControl) (canonical_output : string) (proof : Proof_)
    : ReplayCompletionBinding :=
  let b := body proof in
  {| rcb_schema := REPLAY_COMPLETION_SCHEMA;
     rcb_replay_binding_digest := rb_binding_digest binding;
     rcb_workspace_id := rb_workspace_id binding; rcb_run_id := rb_run_id binding;
     rcb_step_id := rb_step_id binding; rcb_checkpoint_id := rb_checkpoint_id binding;
     rcb_checkpoint_sequence := rb_checkpoint_sequence binding;
     rcb_checkpoint_digest := rb_checkpoint_digest binding;
     rcb_existing_run_revision := run_revision run;
     rcb_existing_step_revision := step_revision step;
     rcb_existing_control_revision := ctl_control_revision control;
     rcb_canonical_output_json := canonical_output;
     rcb_input_digest := rb_input_digest binding; rcb_output_digest := pb_output_digest b;
     rcb_proof :=
       {| pe_schema := REPLAY_ENVELOPE_SCHEMA; pe_proof_id := pb_id b;
          pe_actor_id := pb_actor b; pe_delegation_id := pb_delegation_id b;
          pe_operation := rb_operation binding; pe_version := rb_version binding;
          pe_input_digest := pb_input_digest b; pe_output_digest := pb_output_digest b;
          pe_timestamp := pb_timestamp b; pe_expires_at := pb_expires_at b;
          pe_signature := base64url (signature proof) |} |}.

(** [Ok None] is [ReplayLookupOutcome::NotFound]. *)
Definition load_verified_replay (catalog : OperatorSchemaCatalog) (request : ReplayLookupRequest)
    : tx (option ReplayCompletionBinding) :=
  let! _ := lift (ReplayLookupRequest_validate request) in
  let! row := query (λ d, Ok (joined (binding_key (lk_binding request)) d)) in
  match row with
  | None => ret None
  | Some (e, b) =>
      match row_state e with
      | ReplayCompleted completed_at output proof_id proof context_id =>
          let binding := bind_binding b in
          let! _ := lift (corrupt (ReplayClaimBinding_validate binding)) in
          stop StoreError.Conflict when negb (bool_decide (binding = lk_binding request));
          stop StoreError.Corrupt
            when negb (bool_decide (row_input_digest e = rb_input_digest binding));
          let! origin := load_origin binding (bind_origin_reservation_id b) in
          let '(r, prepared, commit) := origin in
          let! canonical := lift (corrupt (canonicalize output)) in
          stop StoreError.Corrupt
            when negb (validate_output catalog (rb_operation binding) (rb_version binding) output);
          let! _ := check_proof binding prepared completed_at proof_id proof context_id in
          let! progress := check_progress binding r prepared commit output proof in
          let '(run, step, control) := progress in
          let! _ := check_projections binding r prepared commit run control in
          let! _ := validate_runtime_event_range (run_id run)
                      (rr_first_event_sequence (xb_result prepared))
                      (rr_last_event_sequence (xb_result prepared)) in
          let completion := replay_completion binding run step control canonical proof in
          let! _ := lift (corrupt (ReplayCompletionBinding_validate completion)) in
          ret (Some completion)
      | _ => ret None
      end
  end.

End replay.
