(* ===== verification/RuntimeOps.v ===== *)
(** * The operations of the runtime store

    The model of [impl OperatorRuntimeStore for SqliteStore] of [operator_store.rs]:
    leases are claimed, renewed, released and reclaimed, budget is reserved and
    released, a dispatch begins, and a failed dispatch is forfeited.  Each operation is
    the whole handler, in the order of the source, inside one transaction.  The commit
    of a result is in [RuntimeCommitOp]. *)

From S2P Require Import Prelude RustStr Externals Json Canonical Serialized Evidence Approval.
From S2P Require Import OperatorCommon StrictDigest Agent AgentRun ExecutionStore Durable AuditChain Custody.
From S2P Require Import RuntimeStore ReplayStore.
From stdpp Require Import options.

Section operations.
Context `{Externals} `{OperatorExternals}.
Context (store : option OperatorStoreContext).

(** ** Leases *)

Definition active_leases (run : Uuid) (d : Db) : list RunLease :=
  filter (λ l, ls_run_id l = run ∧ ls_state l = LeaseState.Active) (rows (db_leases d)).

(** [COALESCE(MAX(fence_epoch), 0)] *)
Definition max_fence (run : Uuid) (d : Db) : N :=
  foldr N.max 0%N (map ls_fence_epoch (filter (λ l, ls_run_id l = run) (rows (db_leases d)))).

(** The three calls that end every change of a run: the control record moves to its
    next revision and a projection of the run is appended. *)
Definition advance (control : RunControl) (fence_epoch : N) (now : DateTime) : tx RunControl :=
  let! control := lift (bump_control control now) in
  let! _ := update_run_control control in
  let! _ := append_current_projection store control fence_epoch now in
  ret control.

(** A new lease, for 30 seconds. *)
Definition fresh_lease (workspace run lease_id owner epoch : Uuid) (token_digest : ControlDigest)
    (fence_epoch : N) (now : DateTime) : result StoreError.t RunLease :=
  let? lease := seal_lease
    {| ls_schema := LEASE_SCHEMA; ls_run_id := run; ls_workspace_id := workspace;
       ls_lease_id := lease_id; ls_owner_instance_id := owner; ls_process_epoch_id := epoch;
       ls_lease_token_digest := token_digest; ls_fence_epoch := fence_epoch;
       ls_revision := 0; ls_state := LeaseState.Active; ls_acquired_at := now;
       ls_renewed_at := now; ls_expires_at := now + Duration_seconds 30;
       ls_released_at := None; ls_lease_digest := zero_control |} in
  let? _ := invalid (RunLease_validate lease) in
  Ok lease.

Definition lease_result (outcome : LeaseMutation.t) (lease : RunLease) (control : RunControl)
    : LeaseMutationResult :=
  {| lm_schema := LEASE_MUTATION_SCHEMA; lm_outcome := outcome; lm_lease := lease;
     lm_control_revision := ctl_control_revision control |}.

(** The end of a body that commits and returns a value. *)
Definition commit {A} (a : A) : tx (result StoreError.t A) := ret (Ok a).

Definition claim_run_lease (q : LeaseClaimRequest) : tx LeaseMutationResult :=
  let! _ := lift (operator_context store) in
  stop StoreError.Invalid
    when negb (bool_decide (lq_schema q = "proof.operator.lease-claim-request/v1"))
         || not_all_v7 [lq_workspace_id q; lq_run_id q; lq_lease_id q;
                        lq_owner_instance_id q; lq_process_epoch_id q]
         || (MAX_SAFE_INTEGER <? lq_expected_fence_epoch q)%N
         || (MAX_SAFE_INTEGER <? lq_expected_control_revision q)%N;
  transaction (
    let! control := load_control (lq_run_id q) in
    stop StoreError.StaleRevision
      when negb (bool_decide (ctl_workspace_id control = lq_workspace_id q))
           || negb (ctl_control_revision control =? lq_expected_control_revision q)%N;
    let! active := query (λ d, Ok (length (active_leases (lq_run_id q) d))) in
    stop StoreError.NotActionable when negb (active =? 0)%nat;
    let! maximum := query (λ d, Ok (max_fence (lq_run_id q) d)) in
    stop StoreError.Corrupt when (MAX_SAFE_INTEGER <? maximum)%N;
    stop StoreError.StaleFence when negb (maximum =? lq_expected_fence_epoch q)%N;
    let! now := lift (operator_now store) in
    let! lease := lift (fresh_lease (lq_workspace_id q) (lq_run_id q) (lq_lease_id q)
      (lq_owner_instance_id q) (lq_process_epoch_id q) (lease_token_digest (lq_lease_token q))
      (lq_expected_fence_epoch q + 1) now) in
    let! _ := insert_lease lease in
    let! control := advance control (ls_fence_epoch lease) now in
    let! _ := append_lease_event store lease AuditEventKind.LeaseAcquired now in
    commit (lease_result LeaseMutation.Acquired lease control)).

Definition renew_run_lease (q : LeaseRenewRequest) : tx LeaseMutationResult :=
  let! _ := lift (operator_context store) in
  stop StoreError.Invalid
    when negb (bool_decide (lr_schema q = "proof.operator.lease-renew-request/v1"));
  transaction (
    let! now := lift (operator_now store) in
    let! held := validate_authority (lr_authority q) now in
    let '(control, lease) := held in
    let! revision := lift (ok_or (checked_add u64_max (ls_revision lease) 1)
                             StoreError.Corrupt) in
    let! lease := lift (seal_lease (set_lease revision (ls_state lease) now
                          (now + Duration_seconds 30) (ls_released_at lease)
                          (ls_lease_digest lease) lease)) in
    let! _ := update_lease lease in
    let! control := advance control (ls_fence_epoch lease) now in
    let! _ := append_lease_event store lease AuditEventKind.LeaseRenewed now in
    commit (lease_result LeaseMutation.Renewed lease control)).

(** [state] and [released_at] of a lease that ends. *)
Definition end_lease (lease : RunLease) (now : DateTime) : result StoreError.t RunLease :=
  let? revision := ok_or (checked_add u64_max (ls_revision lease) 1) StoreError.Corrupt in
  seal_lease (set_lease revision LeaseState.Released (ls_renewed_at lease)
                (ls_expires_at lease) (Some now) (ls_lease_digest lease) lease).

Definition release_run_lease (q : LeaseReleaseRequest) : tx LeaseMutationResult :=
  let! _ := lift (operator_context store) in
  stop StoreError.Invalid
    when negb (bool_decide (le_schema q = "proof.operator.lease-release-request/v1"));
  let! authority := lift (invalid (LeaseReleaseRequest_authority q)) in
  transaction (
    let! now := lift (operator_now store) in
    let! held := validate_authority authority now in
    let '(control, lease) := held in
    let! open := query (λ d, Ok (length (filter
        (λ r, br_lease_id r = ls_lease_id lease ∧ is_open r = true) (rows (db_reservations d))))) in
    stop StoreError.NotActionable
      when negb (open =? 0)%nat || is_some (ctl_active_dispatch_reservation_id control);
    let! lease := lift (end_lease lease now) in
    let! _ := update_lease lease in
    let! control := advance control (ls_fence_epoch lease) now in
    let! _ := append_lease_event store lease AuditEventKind.LeaseReleased now in
    commit (lease_result LeaseMutation.Released lease control)).

(** ** Reservations *)

Definition request_authority_value (a : LeaseAuthority) : json :=
  json_object
    [("schema", JString (la_schema a)); ("workspace_id", uuid_value (la_workspace_id a));
     ("run_id", uuid_value (la_run_id a)); ("lease_id", uuid_value (la_lease_id a));
     ("owner_instance_id", uuid_value (la_owner_instance_id a));
     ("process_epoch_id", uuid_value (la_process_epoch_id a));
     ("fence_epoch", JNumber (PosInt (la_fence_epoch a)));
     ("expected_control_revision", JNumber (PosInt (la_expected_control_revision a)))].

Definition budget_request_digest (q : BudgetReserveRequest) : result StoreError.t ControlDigest :=
  digest_or_invalid (control_digest_value "Proof-Operator-Budget-Reservation-v1"
    (strict_object
       [("schema", text (rq_schema q));
        ("authority", Some (request_authority_value (rq_authority q)));
        ("reservation_id", Some (uuid_value (rq_reservation_id q)));
        ("idempotency_key", Some (uuid_value (rq_idempotency_key q)));
        ("intent", intent_value (rq_intent q));
        ("intent_digest", control_value (rq_intent_digest q));
        ("replay", nullable replay_binding_value (rq_replay q));
        ("recovery", nullable directive_value (rq_recovery q))])).

Definition validate_budget_request (q : BudgetReserveRequest) : result StoreError.t () :=
  bail StoreError.Invalid
    when negb (bool_decide (rq_schema q = "proof.operator.budget-reserve-request/v1"))
         || negb (uuid_is_v7 (rq_reservation_id q)) || negb (uuid_is_v7 (rq_idempotency_key q))
         || is_err (DispatchIntent_validate (rq_intent q))
         || is_some_and (rq_replay q) (λ b, is_err (ReplayClaimBinding_validate b))
         || is_some_and (rq_recovery q) (λ d, is_err (RecoveryDirective_validate d));
  let? digest := digest_or_invalid (intent_digest_of (rq_intent q)) in
  bail StoreError.Invalid when negb (bool_decide (digest = rq_intent_digest q));
  Ok ().

Definition open_reservations (run : Uuid) (d : Db) : list BudgetReservation :=
  filter (λ r, br_run_id r = run ∧ is_open r = true) (rows (db_reservations d)).

(** Commits a rejection and returns the error [e]. *)
Definition reject {A} (control : RunControl) (lease : RunLease) (reservation_id : Uuid)
    (intent_digest : ControlDigest) (now : DateTime) (e : StoreError.t)
    : tx (result StoreError.t A) :=
  let! _ := append_budget_event store control lease reservation_id intent_digest
              AuditEventKind.BudgetRejected AuditOutcome.Rejected now in
  ret (Err e).

Definition projection_identity (p : RunProjection) : Uuid * N * ContentDigest :=
  (pj_checkpoint_id p, pj_checkpoint_sequence p, pj_checkpoint_digest p).

(** The projection is that of the current revisions and the run is running. *)
Definition projection_stale (p : RunProjection) (run : AgentRun) (control : RunControl)
    (lease : RunLease) : bool :=
  negb (pj_source_run_revision p =? run_revision run)%N
  || negb (pj_source_control_revision p =? ctl_control_revision control)%N
  || negb (pj_fence_epoch p =? ls_fence_epoch lease)%N
  || negb (bool_decide (pj_attention p = AttentionState.Running)).

Definition check_reserve_replay (replay : option ReplayClaimBinding) (intent : DispatchIntent)
    (control : RunControl) (run : AgentRun) (checkpoint : Uuid * N * ContentDigest) : tx () :=
  match replay with
  | None => ret tt
  | Some replay =>
      let! step := load_agent_step_exact (rb_step_id replay) in
      stop StoreError.Invalid
        when negb (bool_decide (rb_workspace_id replay = ctl_workspace_id control))
             || negb (bool_decide (rb_run_id replay = ctl_run_id control))
             || negb (bool_decide ((rb_checkpoint_id replay, rb_checkpoint_sequence replay,
                                    rb_checkpoint_digest replay) = checkpoint))
             || negb (bool_decide (rb_operation replay = in_operation intent))
             || negb (bool_decide (rb_version replay = in_version intent))
             || negb (bool_decide (rb_input_digest replay = step_input_digest step))
             || negb (bool_decide (rb_claimed_by replay = run_actor run))
             || negb (bool_decide (step_run_id step = run_id run))
             || negb (bool_decide (step_status step = StepStatus.Running));
      ret tt
  end.

(** [kind IN ('recovery_completed','run_resumed')] *)
Definition resume_events (run directive : Uuid) (d : Db) : list AuditEvent :=
  filter (λ e, ae_run_id e = Some run ∧ ae_recovery_directive_id e = Some directive
               ∧ (ae_kind e = AuditEventKind.RecoveryCompleted
                  ∨ ae_kind e = AuditEventKind.RunResumed)) (db_events d).

(** The reservation that a directive was issued for. *)
Definition source_differs (source : BudgetReservation) (directive : RecoveryDirective) : bool :=
  negb (bool_decide (br_state source = ReservationState.Released))
  || negb (bool_decide (br_reservation_id source = rd_source_reservation_id directive))
  || negb (bool_decide (br_budget_id source = rd_source_budget_id directive))
  || negb (bool_decide (br_idempotency_key source = rd_source_idempotency_key directive))
  || negb (bool_decide (br_request_digest source = rd_source_request_digest directive))
  || negb (bool_decide (br_intent_digest source = rd_intent_digest directive))
  || negb (bool_decide (br_replay source = rd_replay directive)).

Definition check_recovery (q : BudgetReserveRequest) (control : RunControl) (run : AgentRun)
    : tx () :=
  let pending := is_some (ctl_recovery_directive_id control)
                 || is_some (ctl_recovery_directive_digest control) in
  match rq_recovery q with
  | None => stop StoreError.NotActionable when pending; ret tt
  | Some recovery =>
      let! stored := load_recovery_directive (rd_directive_id recovery) in
      let! source := load_reservation (rd_source_reservation_id recovery) in
      let! reused := query (λ d, Ok (length (filter
          (λ r, rd_directive_id <$> br_recovery r = Some (rd_directive_id recovery))
          (rows (db_reservations d))))) in
      let! resumed := query (λ d, Ok (length (resume_events (run_id run)
                                                (rd_directive_id recovery) d))) in
      stop StoreError.NotActionable
        when negb (bool_decide (stored = recovery)) || pending
             || source_differs source recovery
             || negb (bool_decide (rq_intent_digest q = rd_intent_digest recovery))
             || negb (bool_decide (rq_replay q = rd_replay recovery))
             || negb (reused =? 0)%nat || (resumed <? 2)%nat;
      ret tt
  end.

Definition fresh_reservation (q : BudgetReserveRequest) (control : RunControl) (lease : RunLease)
    (request_digest : ControlDigest) (now : DateTime) : BudgetReservation :=
  {| br_schema := RESERVATION_SCHEMA; br_reservation_id := rq_reservation_id q;
     br_budget_id := ctl_budget_id control; br_run_id := ctl_run_id control;
     br_lease_id := ls_lease_id lease; br_fence_epoch := ls_fence_epoch lease;
     br_idempotency_key := rq_idempotency_key q; br_request_digest := request_digest;
     br_kind := in_kind (rq_intent q); br_intent := rq_intent q;
     br_intent_digest := rq_intent_digest q; br_replay := rq_replay q;
     br_recovery := rq_recovery q; br_state := ReservationState.Reserved;
     br_reserved := in_ceiling (rq_intent q); br_charged := BudgetAmounts_default;
     br_created_at := now; br_permit_id := None; br_dispatch_token_digest := None;
     br_call_digest := None; br_prepared_execution_digest := None; br_result_digest := None;
     br_prepared_binding := None; br_runtime_commit := None; br_dispatch_started_at := None;
     br_settled_at := None |}.

Definition RESERVE_RESULT_SCHEMA : string := "proof.operator.budget-reserve-result/v1".

Definition reserve_result (outcome : ReserveOutcome.t) (r : BudgetReservation)
    (budget : BudgetAccount) (control : RunControl) : BudgetReserveResult :=
  {| rx_schema := RESERVE_RESULT_SCHEMA; rx_outcome := outcome; rx_reservation := r;
     rx_budget_revision := ba_revision budget;
     rx_control_revision := ctl_control_revision control |}.

(** The request was made before: the same request gets the same reservation. *)
Definition exact_existing (q : BudgetReserveRequest) (control : RunControl)
    (r : BudgetReservation) : tx (result StoreError.t BudgetReserveResult) :=
  let! _ := lift (corrupt (BudgetReservation_validate r)) in
  let! expected := lift (budget_request_digest q) in
  stop StoreError.Conflict
    when negb (bool_decide (br_request_digest r = expected))
         || negb (bool_decide (br_reservation_id r = rq_reservation_id q));
  let! budget := load_budget (ctl_budget_id control) in
  commit (reserve_result ReserveOutcome.ExactExisting r budget control).

(** The reservation is inserted and its ceiling moves to the reserved amounts. *)
Definition reserve_now (q : BudgetReserveRequest) (control : RunControl) (lease : RunLease)
    (budget : BudgetAccount) (now : DateTime) : tx (result StoreError.t BudgetReserveResult) :=
  let! request_digest := lift (budget_request_digest q) in
  let r := fresh_reservation q control lease request_digest now in
  let! _ := lift (invalid (BudgetReservation_validate r)) in
  let! _ := insert_reservation r in
  let! reserved := lift (add_amounts (ba_reserved budget) (br_reserved r)) in
  let budget := set_budget (wrapping_add u64_max (ba_revision budget) 1) reserved
                  (ba_committed budget) now budget in
  let! _ := update_budget budget in
  let! control := advance control (ls_fence_epoch lease) now in
  let! _ := append_budget_event store control lease (br_reservation_id r) (br_intent_digest r)
              AuditEventKind.BudgetReserved AuditOutcome.Accepted now in
  commit (reserve_result ReserveOutcome.Reserved r budget control).

Definition reserve_aggregate_budget (q : BudgetReserveRequest) : tx BudgetReserveResult :=
  let! _ := lift (operator_context store) in
  let! _ := lift (validate_budget_request q) in
  transaction (
    let! now := lift (operator_now store) in
    let! held := validate_authority (rq_authority q) now in
    let '(control, lease) := held in
    let! existing := query (λ d, Ok (head (filter
        (λ r, br_budget_id r = ctl_budget_id control
              ∧ br_idempotency_key r = rq_idempotency_key q) (rows (db_reservations d))))) in
    match existing with
    | Some r => exact_existing q control r
    | None =>
        let! open := query (λ d, Ok (length (open_reservations (ctl_run_id control) d))) in
        if negb (open =? 0)%nat || is_some (ctl_active_dispatch_reservation_id control)
        then reject control lease (rq_reservation_id q) (rq_intent_digest q) now
               StoreError.Conflict
        else
          let! run := load_agent_run_exact (ctl_run_id control) in
          stop StoreError.NotActionable
            when negb (bool_decide (run_status run = RunStatus.Running));
          let! p := query (λ d, ok_or (latest_projection (ctl_run_id control) d)
                                  StoreError.Unavailable) in
          let! _ := lift (corrupt (RunProjection_validate p)) in
          stop StoreError.Corrupt when projection_stale p run control lease;
          let! checkpoint := load_latest_checkpoint_identity (ctl_run_id control) in
          stop StoreError.Corrupt
            when negb (bool_decide (checkpoint = projection_identity p));
          let! _ := check_reserve_replay (rq_replay q) (rq_intent q) control run checkpoint in
          let! _ := check_recovery q control run in
          let! budget := load_budget (ctl_budget_id control) in
          if is_err (can_reserve budget (in_ceiling (rq_intent q)) now)
          then reject control lease (rq_reservation_id q) (rq_intent_digest q) now
                 StoreError.NotActionable
          else reserve_now q control lease budget now
    end).

Definition SETTLEMENT_RESULT_SCHEMA : string := "proof.operator.budget-settlement-result/v1".

(** Returns a reservation that has not been dispatched. *)
Definition settle_budget_reservation (q : BudgetSettlementRequest) : tx BudgetSettlementResult :=
  let! _ := lift (operator_context store) in
  stop StoreError.Invalid
    when negb (bool_decide (sq_schema q = "proof.operator.budget-settlement-request/v1"))
         || negb (uuid_is_v7 (sq_reservation_id q))
         || negb (bool_decide (sq_disposition q = ReleasePreDispatch));
  transaction (
    let! now := lift (operator_now store) in
    let! held := validate_authority (sq_authority q) now in
    let '(control, lease) := held in
    let! r := load_reservation (sq_reservation_id q) in
    stop StoreError.NotActionable
      when negb (bool_decide (br_run_id r = ctl_run_id control))
           || negb (bool_decide (br_lease_id r = ls_lease_id lease));
    if bool_decide (br_state r = ReservationState.Dispatching) then
      stop StoreError.Corrupt
        when negb (bool_decide (ctl_active_dispatch_reservation_id control
                                = Some (br_reservation_id r)));
      reject control lease (br_reservation_id r) (br_intent_digest r) now
        StoreError.NotActionable
    else
      stop StoreError.NotActionable
        when negb (bool_decide (br_state r = ReservationState.Reserved));
      let! budget := load_budget (br_budget_id r) in
      let! reserved := lift (subtract_amounts (ba_reserved budget) (br_reserved r)) in
      let budget := set_budget (wrapping_add u64_max (ba_revision budget) 1) reserved
                      (ba_committed budget) now budget in
      let r := settle_as ReservationState.Released (br_charged r) now r in
      let! _ := update_reservation r in
      let! _ := update_budget budget in
      let! control := advance control (ls_fence_epoch lease) now in
      let! _ := append_budget_event store control lease (br_reservation_id r)
                  (br_intent_digest r) AuditEventKind.BudgetReleased AuditOutcome.Accepted now in
      commit {| sx_schema := SETTLEMENT_RESULT_SCHEMA; sx_reservation := r;
                sx_budget_revision := ba_revision budget;
                sx_control_revision := ctl_control_revision control |}).

(** ** Dispatch *)

(** [Proof-Operator-Dispatch-Call-v1] *)
Definition intent_call_digest (i : DispatchIntent) : option ControlDigest :=
  control_digest_value "Proof-Operator-Dispatch-Call-v1" (intent_value i).

Definition dispatch_result (outcome : DispatchOutcome.t) (permit : option DispatchPermit)
    (completion : option ReplayCompletionBinding) (control : RunControl) : DispatchResult :=
  {| dx_schema := DISPATCH_RESULT_SCHEMA; dx_outcome := outcome; dx_permit := permit;
     dx_replay_completion := completion; dx_control_revision := ctl_control_revision control |}.

(** The reservation goes back to the budget and the run moves on: the branches of
    [begin_dispatch] that do not dispatch. *)
Definition release_undispatched (control : RunControl) (lease : RunLease)
    (r : BudgetReservation) (budget : BudgetAccount) (kind : AuditEventKind.t)
    (outcome : AuditOutcome.t) (now : DateTime) : tx RunControl :=
  let! released := release_reservation r budget now in
  let '(r, _) := released in
  let! control := advance control (ls_fence_epoch lease) now in
  let! _ := append_budget_event store control lease (br_reservation_id r) (br_intent_digest r)
              kind outcome now in
  ret control.

Definition permit_for (q : BeginDispatchRequest) (permit_id : Uuid) (control : RunControl)
    (lease : RunLease) (r : BudgetReservation) (budget : BudgetAccount) (now : DateTime)
    : DispatchPermit :=
  {| dp_schema := PERMIT_SCHEMA; dp_permit_id := permit_id; dp_run_id := ctl_run_id control;
     dp_reservation_id := br_reservation_id r; dp_lease_id := ls_lease_id lease;
     dp_process_epoch_id := ls_process_epoch_id lease; dp_fence_epoch := ls_fence_epoch lease;
     dp_expected_control_revision := ctl_control_revision control;
     dp_intent_digest := br_intent_digest r;
     dp_replay_binding_digest := rb_binding_digest <$> br_replay r;
     dp_dispatch_token_digest := dispatch_token_digest (bq_dispatch_token q);
     dp_call_digest := bq_call_digest q; dp_authorized_at := now;
     dp_budget_deadline_at := bl_deadline_at (ba_policy budget) |}.

(** The reservation becomes [Dispatching] and the control record names it. *)
Definition dispatch_now (q : BeginDispatchRequest) (control : RunControl) (lease : RunLease)
    (r : BudgetReservation) (budget : BudgetAccount) (now : DateTime)
    : tx (result StoreError.t DispatchResult) :=
  let! permit_id := operator_uuid store in
  let permit := permit_for q permit_id control lease r budget now in
  let! _ := lift (invalid (DispatchPermit_validate permit)) in
  let r := set_reservation ReservationState.Dispatching (br_charged r) (Some permit_id)
             (Some (dispatch_token_digest (bq_dispatch_token q))) (Some (bq_call_digest q))
             (br_prepared_execution_digest r) (br_result_digest r) (br_prepared_binding r)
             (br_runtime_commit r) (Some now) (br_settled_at r) r in
  let! _ := update_reservation r in
  let! control := advance (set_active (Some (br_reservation_id r)) control)
                    (ls_fence_epoch lease) now in
  let! _ := append_dispatch_event store control lease r now in
  commit (dispatch_result DispatchOutcome.DispatchAuthorized (Some permit) None control).

(** The replay claim that precedes a dispatch. *)
Definition replay_claim_of (binding : ReplayClaimBinding) (claim_token : Uuid) (now : DateTime)
    : ExecutionReplayClaim :=
  {| rc_key := binding_key binding; rc_input_digest := rb_input_digest binding;
     rc_claim_token := claim_token; rc_claimed_by := rb_claimed_by binding;
     rc_claimed_at := now |}.

Definition lookup_of (binding : ReplayClaimBinding) : ReplayLookupRequest :=
  {| lk_schema := LOOKUP_SCHEMA; lk_binding := binding |}.

Definition claim_then_dispatch (q : BeginDispatchRequest) (catalog : OperatorSchemaCatalog)
    (control : RunControl) (lease : RunLease) (r : BudgetReservation) (budget : BudgetAccount)
    (now : DateTime) (binding : ReplayClaimBinding) (claim_token : Uuid)
    : tx (result StoreError.t DispatchResult) :=
  let rejected outcome :=
    let! control := release_undispatched control lease r budget
                      AuditEventKind.BudgetRejected AuditOutcome.Rejected now in
    commit (dispatch_result outcome None None control) in
  let! claimed := call_map_err (λ _, StoreError.Corrupt)
                    (claim_execution_replay_in_transaction
                       (replay_claim_of binding claim_token now)) in
  match claimed with
  | ClaimResult.Acquired =>
      let! _ := insert_replay_binding binding (br_reservation_id r) now in
      dispatch_now q control lease r budget now
  | ClaimResult.Completed _ =>
      let! completion := load_verified_replay catalog (lookup_of binding) in
      let! control := release_undispatched control lease r budget
                        AuditEventKind.BudgetReleased AuditOutcome.Accepted now in
      commit (dispatch_result DispatchOutcome.ExactReplay None completion control)
  | ClaimResult.Conflict => rejected DispatchOutcome.ReplayConflict
  | ClaimResult.Failed => rejected DispatchOutcome.ReplayFailed
  | ClaimResult.InProgress => rejected DispatchOutcome.ReplayInProgress
  | ClaimResult.Unsupported => rejected DispatchOutcome.ReplayUnsupported
  end.

(** After the checks: an expired budget rejects, a replay binding is claimed first. *)
Definition authorize_dispatch (q : BeginDispatchRequest) (catalog : OperatorSchemaCatalog)
    (control : RunControl) (lease : RunLease) (r : BudgetReservation) (budget : BudgetAccount)
    (now : DateTime) : tx (result StoreError.t DispatchResult) :=
  if (bl_deadline_at (ba_policy budget) <=? now)%Z then
    let! _ := release_undispatched control lease r budget
                AuditEventKind.BudgetRejected AuditOutcome.Rejected now in
    ret (Err StoreError.NotActionable)
  else
    match bq_replay q with
    | None => dispatch_now q control lease r budget now
    | Some binding =>
        let! claim_token := lift (ok_or (bq_replay_claim_token q) StoreError.Invalid) in
        claim_then_dispatch q catalog control lease r budget now binding claim_token
    end.

Definition catalogued (catalog : OperatorSchemaCatalog) (operation version : string) : bool :=
  existsb (λ entry, bool_decide (ce_operation entry = operation)
                    && bool_decide (ce_version entry = version))
    (cb_entries (sc_binding catalog)).

Definition begin_dispatch (q : BeginDispatchRequest) : tx DispatchResult :=
  let! context := lift (operator_context store) in
  stop StoreError.Invalid
    when negb (bool_decide (bq_schema q = "proof.operator.begin-dispatch-request/v1"))
         || negb (uuid_is_v7 (bq_reservation_id q))
         || is_err (DispatchIntent_validate (bq_intent q))
         || negb (bool_decide (intent_digest_of (bq_intent q) = Some (bq_intent_digest q)))
         || negb (bool_decide (intent_call_digest (bq_intent q) = Some (bq_call_digest q)));
  transaction (
    let! now := lift (operator_now store) in
    let! held := validate_authority (bq_authority q) now in
    let '(control, lease) := held in
    let! r := load_reservation (bq_reservation_id q) in
    stop StoreError.NotActionable
      when negb (bool_decide (br_state r = ReservationState.Reserved))
           || negb (bool_decide (br_run_id r = ctl_run_id control))
           || negb (bool_decide (br_lease_id r = ls_lease_id lease))
           || negb (br_fence_epoch r =? ls_fence_epoch lease)%N
           || negb (bool_decide (br_intent r = bq_intent q))
           || negb (bool_decide (br_intent_digest r = bq_intent_digest q))
           || negb (bool_decide (br_replay r = bq_replay q));
    let! budget := load_budget (br_budget_id r) in
    let! open := query (λ d, Ok (length (open_reservations (ctl_run_id control) d))) in
    let! run := load_agent_run_exact (ctl_run_id control) in
    let! p := query (λ d, ok_or (latest_projection (ctl_run_id control) d)
                            StoreError.Unavailable) in
    let! checkpoint := load_latest_checkpoint_identity (ctl_run_id control) in
    let! step :=
      match bq_replay q with
      | Some binding => load_agent_step_exact (rb_step_id binding)
      | None =>
          let! latest := load_latest_agent_step (ctl_run_id control) in
          lift (ok_or latest StoreError.NotActionable)
      end in
    stop StoreError.NotActionable
      when negb (open =? 1)%nat
           || is_some (ctl_active_dispatch_reservation_id control)
           || negb (bool_decide (run_status run = RunStatus.Running))
           || projection_stale p run control lease
           || negb (bool_decide (checkpoint = projection_identity p))
           || negb (bool_decide (step_run_id step = run_id run))
           || negb (bool_decide (step_status step = StepStatus.Running))
           || negb (bool_decide (step_operation step = in_operation (bq_intent q)))
           || negb (bool_decide (step_version step = in_version (bq_intent q)))
           || negb (catalogued (oc_catalog context) (in_operation (bq_intent q))
                      (in_version (bq_intent q)));
    match bq_replay q with
    | Some binding =>
        stop StoreError.Invalid
          when negb (bool_decide (rb_workspace_id binding = ctl_workspace_id control))
               || negb (bool_decide (rb_run_id binding = run_id run))
               || negb (bool_decide (rb_step_id binding = step_id step))
               || negb (bool_decide ((rb_checkpoint_id binding, rb_checkpoint_sequence binding,
                                      rb_checkpoint_digest binding) = checkpoint))
               || negb (bool_decide (rb_input_digest binding = step_input_digest step))
               || negb (bool_decide (rb_claimed_by binding = run_actor run))
               || is_none (bq_replay_claim_token q);
        let! completion := load_verified_replay (oc_catalog context) (lookup_of binding) in
        match completion with
        | Some _ =>
            let! control := release_undispatched control lease r budget
                              AuditEventKind.BudgetReleased AuditOutcome.Accepted now in
            commit (dispatch_result DispatchOutcome.ExactReplay None completion control)
        | None => authorize_dispatch q (oc_catalog context) control lease r budget now
        end
    | None =>
        stop StoreError.Invalid when is_some (bq_replay_claim_token q);
        authorize_dispatch q (oc_catalog context) control lease r budget now
    end).

(** ** Forfeits *)

Definition validate_permit_reservation (r : BudgetReservation) (p : DispatchPermit)
    : result StoreError.t () :=
  let? _ := invalid (DispatchPermit_validate p) in
  bail StoreError.Invalid
    when negb (bool_decide (br_reservation_id r = dp_reservation_id p))
         || negb (bool_decide (br_run_id r = dp_run_id p))
         || negb (bool_decide (br_lease_id r = dp_lease_id p))
         || negb (br_fence_epoch r =? dp_fence_epoch p)%N
         || negb (bool_decide (br_permit_id r = Some (dp_permit_id p)))
         || negb (bool_decide (br_dispatch_token_digest r = Some (dp_dispatch_token_digest p)))
         || negb (bool_decide (br_intent_digest r = dp_intent_digest p))
         || negb (bool_decide (rb_binding_digest <$> br_replay r = dp_replay_binding_digest p))
         || negb (bool_decide (br_call_digest r = Some (dp_call_digest p)))
         || negb (bool_decide (br_dispatch_started_at r = Some (dp_authorized_at p)));
  Ok ().

(** The run and its latest step fail, unless they have ended. *)
Definition fail_run (run : AgentRun) (now : DateTime) : tx AgentRun :=
  if RunStatus.is_terminal (run_status run) then ret run
  else
    let '(r, failed) := run_fail now run in
    let! _ := lift (corrupt r) in
    let! _ := update_agent_run_exact failed (run_revision run) in
    ret failed.

Definition fail_latest_step (run : Uuid) (now : DateTime) : tx () :=
  let! latest := load_latest_agent_step run in
  match latest with
  | Some step =>
      if StepStatus.is_terminal (step_status step) then ret tt
      else
        let '(r, failed) := AgentRun.step_fail "governed runtime settlement failed" now step in
        let! _ := lift (corrupt r) in
        update_agent_step_exact failed (step_revision step)
  | None => ret tt
  end.

(** The dispatched reservation is charged in full. *)
Definition apply_forfeit (control : RunControl) (lease : RunLease) (r : BudgetReservation)
    (now : DateTime) : tx (AgentRun * BudgetAccount * RunControl) :=
  let! budget := load_budget (br_budget_id r) in
  let! reserved := lift (subtract_amounts (ba_reserved budget) (br_reserved r)) in
  let! committed := lift (add_amounts (ba_committed budget) (br_reserved r)) in
  let! revision := lift (ok_or (next_safe (ba_revision budget)) StoreError.Corrupt) in
  let budget := set_budget revision reserved committed now budget in
  let r := settle_as ReservationState.Forfeited (br_reserved r) now r in
  let! _ := update_budget budget in
  let! _ := update_reservation r in
  let! _ := mark_bound_replay_failed (br_replay r) now in
  let! run := load_agent_run_exact (ctl_run_id control) in
  let! run := fail_run run now in
  let! _ := fail_latest_step (ctl_run_id control) now in
  let! control := advance (set_active None control) (ls_fence_epoch lease) now in
  let! _ := append_forfeit_events store control lease r now in
  ret (run, budget, control).

(** The reservation of a permit, after its dispatch token has been checked. *)
Definition dispatched_reservation (permit : DispatchPermit) (custody : DispatchTokenCustody)
    : tx BudgetReservation :=
  let! digest := query (λ d,
      let? r := ok_or (db_reservations d !! dp_reservation_id permit) StoreError.StaleFence in
      bail StoreError.StaleFence
        when negb (bool_decide (br_permit_id r = Some (dp_permit_id permit)));
      ok_or (br_dispatch_token_digest r) StoreError.Unavailable) in
  stop StoreError.StaleFence when negb (verifies_dispatch_token_digest custody digest);
  let! r := load_reservation (dp_reservation_id permit) in
  let! _ := lift (validate_permit_reservation r permit) in
  ret r.

(** The authority of a settlement: the permit was issued one revision ago. *)
Definition settlement_authority (authority : LeaseAuthority) (permit : DispatchPermit)
    (r : BudgetReservation) (now : DateTime) : tx (RunControl * RunLease) :=
  let! held := validate_authority authority now in
  let '(control, lease) := held in
  let! expected := lift (ok_or (checked_add u64_max (dp_expected_control_revision permit) 1)
                           StoreError.Corrupt) in
  stop StoreError.Invalid
    when negb (bool_decide (ctl_active_dispatch_reservation_id control
                            = Some (br_reservation_id r)))
         || negb (ctl_control_revision control =? expected)%N;
  ret (control, lease).

(** A commit request whose prepared binding does not match its dispatch. *)
Definition forfeit_commit (q : RuntimeCommitRequest) : tx RuntimeCommitResult :=
  stop StoreError.Invalid
    when negb (bool_decide (mq_schema q = "proof.operator.runtime-commit-request/v1"));
  transaction (
    let! r := dispatched_reservation (mq_permit q) (mq_custody q) in
    stop StoreError.NotActionable
      when negb (bool_decide (br_state r = ReservationState.Dispatching));
    let! now := lift (operator_now store) in
    let! held := settlement_authority (mq_authority q) (mq_permit q) r now in
    let '(control, lease) := held in
    let! _ := apply_forfeit control lease r now in
    ret (Err StoreError.NotActionable)).

Definition failure_result (run : AgentRun) (control : RunControl) (budget : BudgetAccount)
    : RuntimeFailureResult :=
  {| fx_schema := FAILURE_RESULT_SCHEMA; fx_run_revision := run_revision run;
     fx_control_revision := ctl_control_revision control;
     fx_budget_revision := ba_revision budget; fx_directive := None |}.

Definition forfeit_failure (q : RuntimeFailureRequest) : tx RuntimeFailureResult :=
  let body := fq_failure q in
  let permit := fq_permit q in
  stop StoreError.Invalid
    when negb (bool_decide (fq_schema q = "proof.operator.runtime-failure-request/v1"))
         || negb (bool_decide (fb_schema body = "proof.operator.runtime-failure-body/v1"))
         || negb (bool_decide (fb_reservation_id body = dp_reservation_id permit))
         || negb (bool_decide (fb_permit_id body = dp_permit_id permit))
         || negb (bool_decide (fb_classification body = AmbiguousForfeitRequired))
         || negb (bool_decide (fb_intent_digest body = dp_intent_digest permit))
         || negb (bool_decide (fb_call_digest body = dp_call_digest permit))
         || negb (bool_decide (failure_digest_of body = Some (fq_error_digest q)));
  transaction (
    let! r := dispatched_reservation permit (fq_custody q) in
    if bool_decide (br_state r = ReservationState.Forfeited) then
      let! run := load_agent_run_exact (br_run_id r) in
      let! budget := load_budget (br_budget_id r) in
      let! control := load_control (br_run_id r) in
      commit (failure_result run control budget)
    else
      stop StoreError.NotActionable
        when negb (bool_decide (br_state r = ReservationState.Dispatching));
      let! now := lift (operator_now store) in
      let! held := settlement_authority (fq_authority q) permit r now in
      let '(control, lease) := held in
      let! settled := apply_forfeit control lease r now in
      let '(run, budget, control) := settled in
      let result := failure_result run control budget in
      ret (let? _ := RuntimeFailureResult_validate result in Ok result)).

(** ** Reclaiming an expired lease *)

Definition replacement_lease (q : ReclaimRequest) (now : DateTime) : result StoreError.t RunLease :=
  let? fence_epoch := ok_or (next_safe (cq_expected_fence_epoch q)) StoreError.Invalid in
  fresh_lease (cq_workspace_id q) (cq_run_id q) (cq_new_lease_id q) (cq_owner_instance_id q)
    (cq_new_process_epoch_id q) (lease_token_digest (cq_new_lease_token q)) fence_epoch now.

Definition reclaim_result (outcome : ReclaimOutcome.t) (lease : option RunLease)
    (directive : option RecoveryDirective) (control : RunControl)
    : result StoreError.t ReclaimResult :=
  let result := {| cx_schema := RECLAIM_RESULT_SCHEMA; cx_outcome := outcome;
                   cx_lease := lease; cx_directive := directive;
                   cx_control_revision := ctl_control_revision control |} in
  let? _ := ReclaimResult_validate result in
  Ok result.

Definition recovery_directive (q : ReclaimRequest) (directive_id : Uuid) (expired : RunLease)
    (control : RunControl) (r : BudgetReservation) (checkpoint : Uuid * N * ContentDigest)
    (now : DateTime) (digest : ControlDigest) : RecoveryDirective :=
  {| rd_schema := DIRECTIVE_SCHEMA; rd_directive_id := directive_id;
     rd_workspace_id := cq_workspace_id q; rd_run_id := cq_run_id q;
     rd_classification := PreDispatchRecoverable; rd_source_lease_id := ls_lease_id expired;
     rd_source_reservation_id := br_reservation_id r; rd_source_budget_id := br_budget_id r;
     rd_source_idempotency_key := br_idempotency_key r;
     rd_source_request_digest := br_request_digest r; rd_checkpoint_id := checkpoint.1.1;
     rd_checkpoint_sequence := checkpoint.1.2; rd_checkpoint_digest := checkpoint.2;
     rd_source_fence_epoch := ls_fence_epoch expired;
     rd_source_control_revision := ctl_control_revision control;
     rd_intent_digest := br_intent_digest r; rd_replay := br_replay r;
     rd_required_budget_disposition := NoDisposition; rd_created_at := now;
     rd_directive_digest := digest |}.

(** The expired lease had reserved budget and not dispatched. *)
Definition recover_reservation (q : ReclaimRequest) (control : RunControl) (expired : RunLease)
    (r : BudgetReservation) (checkpoint : Uuid * N * ContentDigest) (now : DateTime)
    : tx (result StoreError.t ReclaimResult) :=
  stop StoreError.Corrupt
    when negb (bool_decide (br_state r = ReservationState.Reserved))
         || is_some (ctl_active_dispatch_reservation_id control);
  let! budget := load_budget (br_budget_id r) in
  let! released := release_reservation r budget now in
  let '(r, _) := released in
  let! directive_id := operator_uuid store in
  let directive := recovery_directive q directive_id expired control r checkpoint now in
  let! digest := lift (digest_or_invalid (directive_digest_of (directive zero_control))) in
  let directive := directive digest in
  let! _ := insert_recovery_directive directive in
  let control := set_recovery directive control in
  let! run := load_agent_run_exact (cq_run_id q) in
  stop StoreError.NotActionable when RunStatus.is_terminal (run_status run);
  let! _ := fail_run run now in
  let! replacement := lift (replacement_lease q now) in
  let! _ := insert_lease replacement in
  let! control := advance control (ls_fence_epoch replacement) now in
  let! _ := append_budget_event store control expired (br_reservation_id r) (br_intent_digest r)
              AuditEventKind.BudgetReleased AuditOutcome.Accepted now in
  let! _ := append_recovery_started store expired r directive now in
  let! _ := append_reclaim_event store replacement (ls_lease_id expired)
              (Some (br_reservation_id r)) (Some directive) now in
  ret (reclaim_result ReclaimOutcome.PreDispatchRecovered (Some replacement) (Some directive)
         control).

(** The directive that an earlier recovery left, if it has not been used. *)
Definition existing_directive (q : ReclaimRequest) (control : RunControl) (run : AgentRun)
    (checkpoint : Uuid * N * ContentDigest) : tx (option RecoveryDirective) :=
  match ctl_recovery_directive_id control, ctl_recovery_directive_digest control,
        run_status run with
  | Some id, Some digest, RunStatus.Failed =>
      let! directive := load_recovery_directive id in
      let! source := load_reservation (rd_source_reservation_id directive) in
      let! consumed := query (λ d, Ok (length (resume_events (cq_run_id q) id d))) in
      stop StoreError.Corrupt
        when negb (bool_decide (rd_directive_digest directive = digest))
             || negb (bool_decide (rd_workspace_id directive = cq_workspace_id q))
             || negb (bool_decide (rd_run_id directive = cq_run_id q))
             || negb (bool_decide ((rd_checkpoint_id directive, rd_checkpoint_sequence directive,
                                    rd_checkpoint_digest directive) = checkpoint))
             || source_differs source directive
             || negb (bool_decide (br_lease_id source = rd_source_lease_id directive))
             || negb (consumed =? 0)%nat;
      ret (Some directive)
  | None, None, (RunStatus.Queued | RunStatus.Running | RunStatus.WaitingForInput) => ret None
  | None, None, _ => throw StoreError.NotActionable
  | _, _, _ => throw StoreError.Corrupt
  end.

(** The expired lease had nothing open. *)
Definition reclaim_idle (q : ReclaimRequest) (control : RunControl) (expired : RunLease)
    (checkpoint : Uuid * N * ContentDigest) (now : DateTime)
    : tx (result StoreError.t ReclaimResult) :=
  let! run := load_agent_run_exact (cq_run_id q) in
  let! directive := existing_directive q control run checkpoint in
  let! replacement := lift (replacement_lease q now) in
  let! _ := insert_lease replacement in
  let! control := advance control (ls_fence_epoch replacement) now in
  let! _ := append_reclaim_event store replacement (ls_lease_id expired)
              (rd_source_reservation_id <$> directive) directive now in
  ret (reclaim_result (if is_some directive then ReclaimOutcome.RecoverableReclaimed
                       else ReclaimOutcome.IdleReclaimed) (Some replacement) directive control).

Definition reclaim (q : ReclaimRequest) : tx ReclaimResult :=
  stop StoreError.Invalid
    when negb (bool_decide (cq_schema q = "proof.operator.reclaim-request/v1"))
         || not_all_v7 [cq_workspace_id q; cq_run_id q; cq_expired_lease_id q;
                        cq_new_lease_id q; cq_owner_instance_id q; cq_new_process_epoch_id q;
                        cq_checkpoint_id q]
         || (cq_expected_fence_epoch q =? 0)%N
         || (MAX_SAFE_INTEGER <? cq_expected_fence_epoch q)%N
         || (MAX_SAFE_INTEGER <? cq_expected_control_revision q)%N
         || (MAX_SAFE_INTEGER <? cq_checkpoint_sequence q)%N;
  transaction (
    let! now := lift (operator_now store) in
    let! control := load_control (cq_run_id q) in
    let! expired := load_lease (cq_expired_lease_id q) in
    let! checkpoint := load_latest_checkpoint_identity (cq_run_id q) in
    stop StoreError.StaleFence
      when negb (bool_decide (ctl_workspace_id control = cq_workspace_id q))
           || negb (ctl_control_revision control =? cq_expected_control_revision q)%N
           || negb (bool_decide (ls_workspace_id expired = cq_workspace_id q))
           || negb (bool_decide (ls_run_id expired = cq_run_id q))
           || negb (ls_fence_epoch expired =? cq_expected_fence_epoch q)%N
           || negb (bool_decide (ls_state expired = LeaseState.Active))
           || (now <? ls_expires_at expired)%Z
           || negb (bool_decide (checkpoint = (cq_checkpoint_id q, cq_checkpoint_sequence q,
                                               cq_checkpoint_digest q)));
    let! active := query (λ d, Ok (length (active_leases (cq_run_id q) d))) in
    stop StoreError.Corrupt when negb (active =? 1)%nat;
    let! open := query (λ d, Ok (open_reservations (cq_run_id q) d)) in
    stop StoreError.Corrupt when (1 <? length open)%nat;
    let! expired := lift (end_lease expired now) in
    let! _ := update_lease expired in
    match head open with
    | Some first =>
        let! id := lift (uuid_column (br_reservation_id first)) in
        let! r := load_reservation id in
        if bool_decide (br_state r = ReservationState.Dispatching) then
          let! settled := apply_forfeit control expired r now in
          let '(_, _, control) := settled in
          ret (reclaim_result ReclaimOutcome.AmbiguousForfeited None None control)
        else recover_reservation q control expired r checkpoint now
    | None => reclaim_idle q control expired checkpoint now
    end).

End operations.
