(* ===== verification/RuntimeCommitOp.v ===== *)
(** * Committing a result

    The prepared execution of [operator/prepared.rs], its binding
    ([PreparedExecutionBinding::from_prepared] of [operator/store.rs]) and
    [commit_runtime_barrier] of [operator_store.rs]: a dispatched reservation is settled
    with the usage that was reported, together with the proof, the run, the step, the
    checkpoint, the events, the evaluation, the approval and the replay of the result.
    Everything that is written after the checks is inside a savepoint ([candidate]): when
    it fails, or when the prepared execution does not match its dispatch, the reservation
    is forfeited instead. *)

From S2P Require Import Prelude RustStr Externals Delegation Json Canonical Serialized Evidence.
From S2P Require Import Approval OperatorCommon StrictDigest Agent AgentRun ExecutionStore Durable.
From S2P Require Import AuditChain Custody RuntimeStore ReplayStore RuntimeOps.
From stdpp Require Import options.

(** ** Text *)

(** [s.split_once(sep)], the part before the separator. *)
Fixpoint before_first (sep s : string) : option string :=
  match strip_prefix sep s with
  | Some _ => Some ""
  | None =>
      match s with
      | EmptyString => None
      | String c s' => String c <$> before_first sep s'
      end
  end.

(** [s.rsplit(sep).next()] *)
Fixpoint after_last (sep s : string) : option string :=
  match s with
  | EmptyString => strip_prefix sep s
  | String _ s' =>
      match after_last sep s' with
      | Some rest => Some rest
      | None => strip_prefix sep s
      end
  end.

Definition last_segment (sep s : string) : string := default s (after_last sep s).

(** ** Prepared executions *)

Record PreparedApprovalBundle := {
  bundle_request : SignedApprovalRequest;
  bundle_binding : ApprovalBinding;
}.

Inductive PreparedReplayTransition : Type :=
| NoTransition
| Complete (claim : ExecutionReplayClaim).

Definition transition_claim (t : PreparedReplayTransition) : option ExecutionReplayClaim :=
  match t with NoTransition => None | Complete claim => Some claim end.

Record PreparedGovernedExecution := {
  ge_output : json;
  ge_execution_context_id : Uuid;
  ge_context : ExecutionContext;
  ge_proof : Proof_;
  ge_run_after : AgentRun;
  ge_step_after : AgentRunStep;
  ge_checkpoint : option AgentCheckpoint;
  ge_events : list AgentRunEvent;
  ge_evaluation : option AgentRunEvaluation;
  ge_approval : option PreparedApprovalBundle;
  ge_handler_mutation : PreparedHandlerMutation;
  ge_replay : PreparedReplayTransition;
  ge_usage : PreparedUsage;
}.

Section prepared.
Context `{Externals} `{OperatorExternals}.

Notation uuid7 := strict_uuid_v7_serialize.
Notation safe := strict_safe_integer_serialize.
Notation utc := strict_utc_serialize.

Definition plain (v : json) : option json := Some v.
Definition strings (l : list string) : json := JArray (map JString l).
Definition or_null (v : option json) : json := default JNull v.

Definition scope_value (s : DelegationScope) : json :=
  json_object
    (opt_field "allowed_operations" (strings <$> allowed_operations s)
     ++ opt_field "allowed_domains" (strings <$> allowed_domains s)
     ++ opt_field "resource_scope" (JString <$> scope_resource_scope s)).

Definition delegation_value (d : Delegation) : json :=
  json_object
    [("id", uuid_value (delegation_id d)); ("issuer", uuid_value (issuer d));
     ("recipient", uuid_value (recipient d));
     ("allowed_actions", strings (allowed_actions d));
     ("resource_scope", strings (resource_scope d)); ("scope", scope_value (scope d));
     ("valid_from", utc_value (valid_from d)); ("valid_until", utc_value (valid_until d));
     ("revoked", JBool (revoked d))].

Definition chain_value (c : DelegationChain) : json :=
  json_object [("root", uuid_value (chain_root c));
               ("grants", JArray (map delegation_value (grants c)))].

Definition principal_kind_wire (k : PrincipalKind) : string :=
  match k with Human => "human" | Agent => "agent" | Service => "service" end.

Definition context_value (c : ExecutionContext) : json :=
  json_object
    [("actor", uuid_value (ctx_actor c));
     ("principal_kind", or_null (JString ∘ principal_kind_wire <$> ctx_principal_kind c));
     ("delegation_id", or_null (uuid_value <$> ctx_delegation_id c));
     ("delegation_chain", or_null (chain_value <$> ctx_delegation_chain c));
     ("workspace_path", JString (ctx_workspace_path c));
     ("timestamp", utc_value (ctx_timestamp c))].

Definition evaluation_outcome_wire (o : AgentEvaluationOutcome) : string :=
  match o with EvaluationPassed => "passed" | EvaluationFailed => "failed" end.

Definition evaluation_value (e : AgentRunEvaluation) : json :=
  json_object
    ([("id", uuid_value (eval_id e)); ("run_id", uuid_value (eval_run_id e));
      ("evaluator", JString (eval_evaluator e));
      ("outcome", JString (evaluation_outcome_wire (eval_outcome e)))]
     ++ opt_field "score_bps" ((λ n, JNumber (PosInt n)) <$> eval_score_bps e)
     ++ [("metrics", eval_metrics e)]
     ++ opt_field "summary" (JString <$> eval_summary e)
     ++ [("created_at", utc_value (eval_created_at e))]).

Definition review_classification_wire (c : ReviewFieldClassification) : string :=
  match c with
  | Identifier => "identifier" | Public => "public" | Secret => "secret"
  | Sensitive => "sensitive"
  end.

Definition review_field_value (f : ReviewField) : json :=
  json_object
    [("name", JString (rf_name f));
     ("classification", JString (review_classification_wire (rf_classification f)));
     ("display_value", JString (rf_display_value f));
     ("input_digest", ContentDigest_serialize (rf_input_digest f))].

Definition consequence_classification_wire (c : ConsequenceClassification) : string :=
  match c with
  | ExternalEffect => "external_effect" | GovernedWrite => "governed_write"
  | ProviderCall => "provider_call" | ToolCall => "tool_call"
  end.

Definition consequence_value (c : PendingConsequence) : option json :=
  strict_object
    [("classification", text (consequence_classification_wire (pc_classification c)));
     ("summary", text (pc_summary c));
     ("consequence_digest", control_value (pc_consequence_digest c))].

Definition approval_binding_value (b : ApprovalBinding) : option json :=
  strict_object
    [("schema", text (ab_schema b));
     ("approval_request_id", uuid7 (ab_approval_request_id b));
     ("workspace_id", uuid7 (ab_workspace_id b)); ("run_id", uuid7 (ab_run_id b));
     ("step_id", uuid7 (ab_step_id b)); ("checkpoint_id", uuid7 (ab_checkpoint_id b));
     ("checkpoint_sequence", safe (ab_checkpoint_sequence b));
     ("checkpoint_digest", content_value (ab_checkpoint_digest b));
     ("required_human_id", uuid7 (ab_required_human_id b));
     ("input_digest", content_value (ab_input_digest b));
     ("review_fields", plain (JArray (map review_field_value (ab_review_fields b))));
     ("consequence", consequence_value (ab_consequence b));
     ("argument_digest", control_value (ab_argument_digest b));
     ("consequence_digest", control_value (ab_consequence_digest b));
     ("created_at", utc (ab_created_at b));
     ("binding_digest", control_value (ab_binding_digest b))].

Definition bundle_value (b : PreparedApprovalBundle) : option json :=
  strict_object [("request", plain (to_value (bundle_request b)));
                 ("binding", approval_binding_value (bundle_binding b))].

Definition claim_value (c : ExecutionReplayClaim) : option json :=
  strict_object
    [("key", strict_object [("operation", text (rk_operation (rc_key c)));
                            ("version", text (rk_version (rc_key c)));
                            ("idempotency_key", uuid7 (rk_idempotency_key (rc_key c)))]);
     ("input_digest", content_value (rc_input_digest c));
     ("claim_token", uuid7 (rc_claim_token c));
     ("claimed_by", strict_principal_id_serialize (rc_claimed_by c));
     ("claimed_at", utc (rc_claimed_at c))].

Definition transition_value (t : PreparedReplayTransition) : option json :=
  match t with
  | NoTransition => Some JNull
  | Complete claim =>
      strict_object [("schema", text "proof.operator.prepared-replay-completion/v1");
                     ("claim", claim_value claim)]
  end.

(** The serialization of [PreparedUsage], which has no strict fields. *)
Definition prepared_usage_value (u : PreparedUsage) : json :=
  json_object
    [("schema", JString (pu_schema u));
     ("boundary_kind", JString (boundary_wire (pu_boundary_kind u)));
     ("boundary_calls", JNumber (PosInt (pu_boundary_calls u)));
     ("adapter", JString (pu_adapter u)); ("model", or_null (JString <$> pu_model u));
     ("steps", JNumber (PosInt (pu_steps u))); ("tokens", JNumber (PosInt (pu_tokens u)));
     ("cost_microusd", JNumber (PosInt (pu_cost_microusd u)));
     ("tool_dispatches", JNumber (PosInt (pu_tool_dispatches u)));
     ("input_digest", ContentDigest_serialize (pu_input_digest u));
     ("output_digest", ContentDigest_serialize (pu_output_digest u))].

Definition prepared_value (p : PreparedGovernedExecution) : option json :=
  strict_object
    [("output", plain (ge_output p));
     ("execution_context_id", uuid7 (ge_execution_context_id p));
     ("context", plain (context_value (ge_context p)));
     ("proof", plain (to_value (ge_proof p)));
     ("run_after", plain (run_value (ge_run_after p)));
     ("step_after", plain (step_value (ge_step_after p)));
     ("checkpoint", plain (or_null (checkpoint_value <$> ge_checkpoint p)));
     ("events", plain (JArray (map run_event_value (ge_events p))));
     ("evaluation", plain (or_null (evaluation_value <$> ge_evaluation p)));
     ("approval", nullable bundle_value (ge_approval p));
     ("handler_mutation", text "no_effect"); ("replay", transition_value (ge_replay p));
     ("usage", plain (prepared_usage_value (ge_usage p)))].

Definition payload_digest (p : PreparedGovernedExecution) : option ControlDigest :=
  control_digest_value "Proof-Operator-Prepared-Execution-v1" (prepared_value p).

(** The first and the last sequence of the events, 0 when there is none. *)
Definition event_range (events : list AgentRunEvent) : N * N :=
  (from_option ev_sequence 0%N (head events), from_option ev_sequence 0%N (last events)).

Definition result_body (p : PreparedGovernedExecution) (operation : string)
    (digest : ContentDigest) : PreparedRuntimeResultBody :=
  let proof := body (ge_proof p) in
  {| rr_schema := RESULT_SCHEMA; rr_usage := from_sealed (ge_usage p);
     rr_output_digest := pb_output_digest proof;
     rr_proof := {| pf_proof_id := pb_id proof; pf_actor_id := pb_actor proof;
                    pf_operation := operation; pf_proof_digest := digest |};
     rr_run_revision := run_revision (ge_run_after p);
     rr_step_revision := step_revision (ge_step_after p);
     rr_checkpoint_id := cp_id <$> ge_checkpoint p;
     rr_checkpoint_sequence := cp_sequence <$> ge_checkpoint p;
     rr_checkpoint_digest := cp_state_digest <$> ge_checkpoint p;
     rr_first_event_sequence := (event_range (ge_events p)).1;
     rr_last_event_sequence := (event_range (ge_events p)).2 |}.

Definition evidence {A} (o : option A) : result ExecutionError.t A :=
  ok_or o (ExecutionError.EvidenceFailed unwritable_error).

Definition from_prepared (p : PreparedGovernedExecution)
    (replay_binding_digest : option ControlDigest)
    : result ExecutionError.t PreparedExecutionBinding :=
  bail evidence_failed "prepared replay binding presence does not match replay transition"
    when negb (eqb (is_some (transition_claim (ge_replay p))) (is_some replay_binding_digest));
  let? operation := ok_or (before_first "::" (pb_operation (body (ge_proof p))))
                      (evidence_failed "prepared proof operation is not version-qualified") in
  let? digest := map_err (λ _, evidence_failed unwritable_error)
                   (proof_digest (ge_proof p)) in
  let result := result_body p operation digest in
  let? result_digest := evidence (result_digest_of result) in
  let? payload := evidence (payload_digest p) in
  let binding := {| xb_schema := EXECUTION_BINDING_SCHEMA; xb_payload_digest := payload;
                    xb_replay_binding_digest := replay_binding_digest;
                    xb_execution_context_id := ge_execution_context_id p;
                    xb_handler_mutation := NoEffect; xb_result := result;
                    xb_result_digest := result_digest |} in
  let? _ := PreparedExecutionBinding_validate binding in
  Ok binding.

End prepared.

(** ** Rows of a result *)

Section rows_of_result.
Context `{Externals} `{OperatorExternals}.

Definition persist_runtime_context_and_proof (p : PreparedGovernedExecution) : tx () :=
  let context := ge_context p in
  let proof := ge_proof p in
  stop StoreError.Invalid
    when negb (bool_decide (ctx_actor context = pb_actor (body proof)))
         || negb (bool_decide (ctx_timestamp context = pb_timestamp (body proof)));
  let! principal := call_map_err (λ _, StoreError.Invalid)
                      (load_principal_record (pb_actor (body proof))) in
  stop StoreError.Invalid
    when negb (bool_decide (pr_kind principal = Agent))
         || is_err (Proof_verify proof (pr_public_key principal));
  let! _ := sql (λ d, negb (present (db_contexts d) (ge_execution_context_id p)))
    (λ d, with_contexts (<[ge_execution_context_id p :=
       {| row_actor := ctx_actor context; row_delegation_id := ctx_delegation_id context;
          row_workspace_path := ctx_workspace_path context;
          row_timestamp := ctx_timestamp context |}]> (db_contexts d)) d) in
  let! _ := lift (json_column (Some (to_value proof))) in
  sql (λ d, negb (present (db_proofs d) (pb_id (body proof))))
    (λ d, with_proofs (<[pb_id (body proof) :=
       {| row_version := last_segment "::" (pb_operation (body proof));
          row_proof := proof |}]> (db_proofs d)) d).

Definition persist_runtime_checkpoint (c : AgentCheckpoint) (expected_run_id : Uuid)
    (expected_sequence : N) : tx () :=
  let! canonical := lift (invalid (canonicalize (cp_state c))) in
  stop StoreError.Invalid
    when negb (bool_decide (cp_run_id c = expected_run_id))
         || negb (cp_sequence c =? expected_sequence)%N
         || negb (bool_decide (cp_state_digest c = digest AgentCheckpointKind canonical));
  let! _ := lift (json_column (Some (checkpoint_value c))) in
  sql (λ d, negb (present (db_checkpoints d) (cp_id c))
            && present (db_runs d) (cp_run_id c)
            && no_other (db_checkpoints d) (cp_id c) (λ c',
                 bool_decide (cp_run_id c' = cp_run_id c)
                 && (cp_sequence c' =? cp_sequence c)%N))
      (λ d, with_checkpoints (<[cp_id c := c]> (db_checkpoints d)) d).

(** [COALESCE(MAX(sequence), -1) + 1] *)
Definition next_event_sequence (run : Uuid) (d : Db) : N :=
  foldr N.max 0%N (map (λ e, ev_sequence e + 1)%N
    (filter (λ e, ev_run_id e = run) (rows (db_run_events d)))).

Fixpoint persist_events_from (events : list AgentRunEvent) (run : Uuid) (expected : N) : tx () :=
  match events with
  | [] => ret tt
  | e :: events' =>
      let! canonical := lift (invalid (canonicalize (ev_data e))) in
      stop StoreError.Invalid
        when negb (bool_decide (ev_run_id e = run)) || negb (ev_sequence e =? expected)%N
             || negb (bool_decide (ev_data_digest e = digest AgentEventKind canonical));
      let! _ := lift (json_column (Some (run_event_value e))) in
      let! _ := sql (λ d, negb (present (db_run_events d) (ev_id e))
                          && present (db_runs d) (ev_run_id e)
                          && no_other (db_run_events d) (ev_id e) (λ e',
                               bool_decide (ev_run_id e' = ev_run_id e)
                               && (ev_sequence e' =? ev_sequence e)%N))
                    (λ d, with_run_events (<[ev_id e := e]> (db_run_events d)) d) in
      persist_events_from events' run (expected + 1)
  end.

Definition persist_runtime_events (events : list AgentRunEvent) (run : Uuid) : tx () :=
  let! expected := query (λ d, Ok (next_event_sequence run d)) in
  persist_events_from events run expected.

Definition persist_runtime_evaluation (e : AgentRunEvaluation) (run : AgentRun) : tx () :=
  stop StoreError.Invalid
    when negb (bool_decide (eval_run_id e = run_id run))
         || negb (RunStatus.is_terminal (run_status run))
         || is_blank (eval_evaluator e)
         || is_some_and (eval_score_bps e) (λ score, 10000 <? score)%N
         || is_err (canonicalize (eval_metrics e));
  let! _ := lift (json_column (Some (evaluation_value e))) in
  sql (λ d, negb (present (db_evaluations d) (eval_id e)) && present (db_runs d) (eval_run_id e))
      (λ d, with_evaluations (<[eval_id e := e]> (db_evaluations d)) d).

Definition load_operator_human_id : tx Uuid :=
  let! id := query (λ d, ok_or (db_human d) StoreError.Unavailable) in
  lift (uuid_column id).

Definition APPROVAL_BINDING_SCHEMA : string := "proof-operator-approval-binding/v1".

(** The clauses of [operator_approval_bindings]; no validator has checked the schema. *)
Definition approval_admissible (b : ApprovalBinding) (d : Db) : bool :=
  bool_decide (ab_schema b = APPROVAL_BINDING_SCHEMA)
  && negb (present (db_approvals d) (ab_approval_request_id b))
  && no_other (db_approvals d) (ab_approval_request_id b) (λ b',
       bool_decide (ab_step_id b' = ab_step_id b)
       || bool_decide (ab_binding_digest b' = ab_binding_digest b))
  && present (db_approval_requests d) (ab_approval_request_id b)
  && bool_decide (db_workspace d = Some (ab_workspace_id b))
  && present (db_controls d) (ab_run_id b) && present (db_steps d) (ab_step_id b)
  && present (db_checkpoints d) (ab_checkpoint_id b)
  && present (db_principals d) (ab_required_human_id b).

Definition persist_runtime_approval (approval : PreparedApprovalBundle) (run : AgentRun)
    (step : AgentRunStep) (checkpoint : Uuid * N * ContentDigest) : tx () :=
  let request := bundle_request approval in
  let binding := bundle_binding approval in
  let id := ar_id (sr_body request) in
  let! requester := load_principal_record (ar_requested_by (sr_body request)) in
  let! _ := lift (invalid (SignedApprovalRequest_verify request requester)) in
  stop StoreError.Invalid
    when negb (bool_decide (run_status run = RunStatus.WaitingForInput))
         || negb (bool_decide (step_status step = StepStatus.WaitingForApproval))
         || negb (bool_decide (step_approval_request_id step = Some id))
         || negb (bool_decide (ab_approval_request_id binding = id));
  let! control := load_control (run_id run) in
  stop StoreError.Invalid
    when negb (bool_decide (ab_workspace_id binding = ctl_workspace_id control))
         || negb (bool_decide (ab_run_id binding = run_id run))
         || negb (bool_decide (ab_step_id binding = step_id step))
         || negb (bool_decide ((ab_checkpoint_id binding, ab_checkpoint_sequence binding,
                                ab_checkpoint_digest binding) = checkpoint))
         || negb (bool_decide (ab_input_digest binding = ar_input_digest (sr_body request)));
  let! human := load_operator_human_id in
  stop StoreError.Invalid when negb (bool_decide (ab_required_human_id binding = human));
  let! _ := lift (json_column (Some (to_value request))) in
  let! _ := sql (λ d, negb (present (db_approval_requests d) id))
                (λ d, with_approval_requests (<[id := request]> (db_approval_requests d)) d) in
  let! _ := lift (json_column (approval_binding_value binding)) in
  sql (approval_admissible binding)
      (λ d, with_approvals (<[ab_approval_request_id binding := binding]> (db_approvals d)) d).

(** The claim that preceded the dispatch becomes completed. *)
Definition complete_bound_replay (binding : option ReplayClaimBinding)
    (p : PreparedGovernedExecution) : tx () :=
  match binding with
  | None =>
      stop StoreError.Invalid when is_some (transition_claim (ge_replay p));
      ret tt
  | Some binding =>
      let! claim := lift (ok_or (transition_claim (ge_replay p)) StoreError.Invalid) in
      stop StoreError.Invalid
        when negb (bool_decide (rc_key claim = binding_key binding))
             || negb (bool_decide (rc_input_digest claim = rb_input_digest binding))
             || negb (bool_decide (rc_claimed_by claim = rb_claimed_by binding));
      let! row := query (λ d, ok_or (db_replays d !! binding_key binding) StoreError.Corrupt) in
      stop StoreError.Invalid
        when match row_state row with ReplayClaimed => false | _ => true end
             || negb (bool_decide (row_claim_token row = rc_claim_token claim))
             || negb (bool_decide (row_input_digest row = rb_input_digest binding))
             || negb (bool_decide (row_claimed_by row = rb_claimed_by binding));
      let! _ := lift (invalid (canonicalize (ge_output p))) in
      let proof := ge_proof p in
      let! _ := lift (json_column (Some (to_value proof))) in
      sql (λ d, no_other (db_replays d) (binding_key binding) (λ r,
                  match row_state r with
                  | ReplayCompleted _ _ proof_id _ context_id =>
                      bool_decide (proof_id = pb_id (body proof))
                      || bool_decide (context_id = ge_execution_context_id p)
                  | _ => false
                  end)
                && present (db_proofs d) (pb_id (body proof))
                && present (db_contexts d) (ge_execution_context_id p))
          (λ d, with_replays (<[binding_key binding :=
             {| row_input_digest := row_input_digest row;
                row_state := ReplayCompleted (pb_timestamp (body proof)) (ge_output p)
                               (pb_id (body proof)) proof (ge_execution_context_id p);
                row_claim_token := row_claim_token row;
                row_claimed_by := row_claimed_by row;
                row_claimed_at := row_claimed_at row |}]> (db_replays d)) d)
  end.

Definition append_commit_events (store : option OperatorStoreContext) (control : RunControl)
    (lease : RunLease) (r : BudgetReservation) (proof : Proof_) (now : DateTime) : tx () :=
  let! digest := lift (corrupt (proof_digest proof)) in
  let reference := {| pf_proof_id := pb_id (body proof); pf_actor_id := pb_actor (body proof);
                      pf_operation := in_operation (br_intent r);
                      pf_proof_digest := digest |} in
  let! event_id := operator_uuid store in
  let! _ := append_audit_event (event_base (ctl_workspace_id control) event_id
    AuditEventKind.BudgetCommitted AuditOutcome.Accepted now
    (budget_fields control lease (br_reservation_id r) (br_intent_digest r)
       (br_permit_id r) (br_call_digest r))) in
  let! event_id := operator_uuid store in
  append_audit_event (event_base (ctl_workspace_id control) event_id
    AuditEventKind.RuntimeResultCommitted AuditOutcome.Accepted now
    (dispatch_fields control lease r None (Some reference))).

End rows_of_result.

(** ** The commit *)

Section commit.
Context `{Externals} `{OperatorExternals}.
Context (store : option OperatorStoreContext).

(** [SAVEPOINT], with [ROLLBACK TO] when the body fails. *)
Definition candidate {A} (c : tx A) : tx (result StoreError.t A) := λ s,
  match c s with
  | (Ok a, s') => (Ok (Ok a), s')
  | (Err e, s') => (Ok (Err e), {| tx_db := tx_db s; tx_uuids := tx_uuids s' |})
  | (Panic, s') => (Panic, s')
  end.

(** The elapsed milliseconds, rounded up; none when the clock went back. *)
Definition elapsed_ms (started now : DateTime) : option N :=
  let elapsed := (now - started)%Z in
  let floor := (elapsed / 1000000)%Z in
  if (elapsed <? 0)%Z then None
  else checked_add u64_max (Z.to_N floor) (if (floor * 1000000 <? elapsed)%Z then 1 else 0)%N.

Definition charge_of (p : PreparedGovernedExecution) (duration : option N) : BudgetAmounts :=
  {| steps := pu_steps (ge_usage p); tokens := pu_tokens (ge_usage p);
     duration_ms := default 0%N duration; cost_microusd := pu_cost_microusd (ge_usage p);
     tool_dispatches := pu_tool_dispatches (ge_usage p) |}.

(** What a commit has read before it decides. *)
Record Loaded := {
  ld_control : RunControl;
  ld_lease : RunLease;
  ld_reservation : BudgetReservation;
  ld_run : AgentRun;
  ld_step : AgentRunStep;
  ld_projection : RunProjection;
  ld_checkpoint : Uuid * N * ContentDigest;
  ld_budget : BudgetAccount;
}.

Definition dispatch_current (permit : DispatchPermit) (l : Loaded) : bool :=
  bool_decide (bl_budget_id (ba_policy (ld_budget l)) = br_budget_id (ld_reservation l))
  && bool_decide (bl_workspace_id (ba_policy (ld_budget l)) = ctl_workspace_id (ld_control l))
  && (bl_deadline_at (ba_policy (ld_budget l)) =? dp_budget_deadline_at permit)%Z
  && bool_decide (dp_process_epoch_id permit = ls_process_epoch_id (ld_lease l))
  && bool_decide (dp_lease_id permit = ls_lease_id (ld_lease l))
  && (dp_fence_epoch permit =? ls_fence_epoch (ld_lease l))%N
  && bool_decide (dp_run_id permit = run_id (ld_run l))
  && bool_decide (run_status (ld_run l) = RunStatus.Running)
  && bool_decide (step_status (ld_step l) = StepStatus.Running)
  && bool_decide (pj_workspace_id (ld_projection l) = ctl_workspace_id (ld_control l))
  && (pj_source_run_revision (ld_projection l) =? run_revision (ld_run l))%N
  && (pj_source_control_revision (ld_projection l) =? ctl_control_revision (ld_control l))%N
  && (pj_fence_epoch (ld_projection l) =? ls_fence_epoch (ld_lease l))%N
  && bool_decide (pj_attention (ld_projection l) = AttentionState.Running)
  && bool_decide (ld_checkpoint l = projection_identity (ld_projection l)).

Definition usage_matches (p : PreparedGovernedExecution) (intent : DispatchIntent) : bool :=
  bool_decide (pu_boundary_kind (ge_usage p) = in_kind intent)
  && bool_decide (pu_adapter (ge_usage p) = in_adapter intent)
  && bool_decide (pu_model (ge_usage p) = in_model intent)
  && (pu_steps (ge_usage p) =? 1)%N.

(** The run after the result: the same run, one revision on when it is one-shot. *)
Definition run_follows (after run : AgentRun) : bool :=
  bool_decide (run_id after = run_id run) && bool_decide (run_actor after = run_actor run)
  && bool_decide (run_agent_id after = run_agent_id run)
  && bool_decide (run_mode after = run_mode run) && bool_decide (run_goal after = run_goal run)
  && (run_created_at after =? run_created_at run)%Z
  && match run_mode run with
     | OneShot => bool_decide (checked_add u64_max (run_revision run) 1 = Some (run_revision after))
     | Session => (run_revision after =? run_revision run)%N
     end.

Definition step_follows (after step : AgentRunStep) : bool :=
  bool_decide (step_id after = step_id step) && bool_decide (step_run_id after = step_run_id step)
  && (step_ordinal after =? step_ordinal step)%N && (step_attempt after =? step_attempt step)%N
  && bool_decide (step_retry_of after = step_retry_of step)
  && bool_decide (step_operation after = step_operation step)
  && bool_decide (step_version after = step_version step)
  && bool_decide (step_input_digest after = step_input_digest step)
  && (step_created_at after =? step_created_at step)%Z
  && bool_decide (checked_add u64_max (step_revision step) 1 = Some (step_revision after)).

Definition proof_matches (p : PreparedGovernedExecution) (run : AgentRun)
    (intent : DispatchIntent) : bool :=
  let proof := body (ge_proof p) in
  bool_decide (pb_actor proof = run_actor run)
  && bool_decide (pb_operation proof = in_operation intent +:+ "::" +:+ in_version intent)
  && bool_decide (pb_input_digest proof = pu_input_digest (ge_usage p))
  && bool_decide (pb_output_digest proof = pu_output_digest (ge_usage p))
  && match canonicalize (ge_output p) with
     | Ok canonical => bool_decide (digest OperationOutput canonical = pb_output_digest proof)
     | _ => false
     end.

Definition binding_valid (q : RuntimeCommitRequest) (p : PreparedGovernedExecution)
    (catalog : OperatorSchemaCatalog) (l : Loaded) (duration : option N) : bool :=
  let r := ld_reservation l in
  is_ok (PreparedExecutionBinding_validate (mq_prepared q))
  && match from_prepared p (rb_binding_digest <$> br_replay r) with
     | Ok expected => bool_decide (expected = mq_prepared q)
     | _ => false
     end
  && prepared_matches_dispatch (mq_custody q) (mq_prepared q)
  && is_some duration
  && fits_within (charge_of p duration) (br_reserved r)
  && validate_output catalog (in_operation (br_intent r)) (in_version (br_intent r)) (ge_output p)
  && dispatch_current (mq_permit q) l
  && usage_matches p (br_intent r)
  && run_follows (ge_run_after p) (ld_run l)
  && step_follows (ge_step_after p) (ld_step l)
  && proof_matches p (ld_run l) (br_intent r).

Definition runtime_commit_of (q : RuntimeCommitRequest) (l : Loaded) (charged : BudgetAmounts)
    (now : DateTime) : RuntimeCommit :=
  {| rtc_schema := COMMIT_SCHEMA; rtc_permit := mq_permit q;
     rtc_expected_run_revision := run_revision (ld_run l);
     rtc_expected_step_revision := step_revision (ld_step l);
     rtc_expected_checkpoint_id := pj_checkpoint_id (ld_projection l);
     rtc_expected_checkpoint_sequence := pj_checkpoint_sequence (ld_projection l);
     rtc_expected_checkpoint_digest := pj_checkpoint_digest (ld_projection l);
     rtc_actual_charge := charged;
     rtc_prepared_execution_digest := xb_payload_digest (mq_prepared q);
     rtc_result_digest := xb_result_digest (mq_prepared q); rtc_committed_at := now |}.

Definition commit_reservation (q : RuntimeCommitRequest) (l : Loaded) (charged : BudgetAmounts)
    (now : DateTime) : BudgetReservation :=
  let r := ld_reservation l in
  set_reservation ReservationState.Committed charged (br_permit_id r)
    (br_dispatch_token_digest r) (br_call_digest r)
    (Some (xb_payload_digest (mq_prepared q))) (Some (xb_result_digest (mq_prepared q)))
    (Some (mq_prepared q)) (Some (runtime_commit_of q l charged now))
    (br_dispatch_started_at r) (Some now) r.

(** The body of the savepoint. *)
Definition persist_result (q : RuntimeCommitRequest) (p : PreparedGovernedExecution) (l : Loaded)
    (charged : BudgetAmounts) (now : DateTime) : tx RuntimeCommitResult :=
  let run_after := ge_run_after p in
  let next_step := ge_step_after p in
  let! _ := persist_runtime_context_and_proof p in
  let! _ := update_agent_run_exact run_after (run_revision (ld_run l)) in
  let! _ := update_agent_step_exact next_step (step_revision (ld_step l)) in
  let! _ :=
    match ge_checkpoint p with
    | Some c =>
        let! sequence := lift (ok_or (checked_add u64_max
                                  (pj_checkpoint_sequence (ld_projection l)) 1)
                                StoreError.Corrupt) in
        persist_runtime_checkpoint c (run_id run_after) sequence
    | None => ret tt
    end in
  let! _ := persist_runtime_events (ge_events p) (run_id run_after) in
  let! _ :=
    match ge_evaluation p with
    | Some evaluation => persist_runtime_evaluation evaluation run_after
    | None => ret tt
    end in
  let checkpoint := from_option identity (projection_identity (ld_projection l))
                      (ge_checkpoint p) in
  let! _ :=
    match ge_approval p with
    | Some approval => persist_runtime_approval approval run_after next_step checkpoint
    | None => ret tt
    end in
  let! _ := complete_bound_replay (br_replay (ld_reservation l)) p in
  let budget := ld_budget l in
  let! reserved := lift (subtract_amounts (ba_reserved budget)
                           (br_reserved (ld_reservation l))) in
  let! committed := lift (add_amounts (ba_committed budget) charged) in
  let! revision := lift (ok_or (next_safe (ba_revision budget)) StoreError.Corrupt) in
  let budget := set_budget revision reserved committed now budget in
  let! _ := lift (invalid (RuntimeCommit_validate (runtime_commit_of q l charged now))) in
  let r := commit_reservation q l charged now in
  let! _ := update_budget budget in
  let! _ := update_reservation r in
  let! control := advance store (set_active None (ld_control l))
                    (ls_fence_epoch (ld_lease l)) now in
  let! _ := append_commit_events store control (ld_lease l) r (ge_proof p) now in
  let result := {| mx_schema := COMMIT_RESULT_SCHEMA; mx_run_revision := run_revision run_after;
                   mx_step_revision := step_revision next_step;
                   mx_control_revision := ctl_control_revision control;
                   mx_budget_revision := ba_revision budget; mx_charged := charged;
                   mx_proof := rr_proof (xb_result (mq_prepared q)) |} in
  let! _ := lift (RuntimeCommitResult_validate result) in
  ret result.

(** The reservation was committed before: the same request gets the same result. *)
Definition committed_again (q : RuntimeCommitRequest) (r : BudgetReservation)
    : tx (result StoreError.t RuntimeCommitResult) :=
  let! commit := lift (ok_or (br_runtime_commit r) StoreError.Corrupt) in
  let! stored := lift (ok_or (br_prepared_binding r) StoreError.Corrupt) in
  stop StoreError.Conflict
    when negb (bool_decide (stored = mq_prepared q))
         || negb (bool_decide (rtc_permit commit = mq_permit q));
  let! control := load_control (br_run_id r) in
  let! budget := load_budget (br_budget_id r) in
  let result := {| mx_schema := COMMIT_RESULT_SCHEMA;
                   mx_run_revision := rr_run_revision (xb_result stored);
                   mx_step_revision := rr_step_revision (xb_result stored);
                   mx_control_revision := ctl_control_revision control;
                   mx_budget_revision := ba_revision budget; mx_charged := br_charged r;
                   mx_proof := rr_proof (xb_result stored) |} in
  ret (let? _ := RuntimeCommitResult_validate result in Ok result).

(** The rows that the decision depends on. *)
Definition load_commit (control : RunControl) (lease : RunLease) (r : BudgetReservation)
    (p : PreparedGovernedExecution) : tx Loaded :=
  let! run := load_agent_run_exact (br_run_id r) in
  let! step := load_agent_step_exact
                 (from_option rb_step_id (step_id (ge_step_after p)) (br_replay r)) in
  let! projection := load_latest_projection_exact (run_id run) in
  let! checkpoint := load_latest_checkpoint_identity (run_id run) in
  let! budget := load_budget (br_budget_id r) in
  ret {| ld_control := control; ld_lease := lease; ld_reservation := r; ld_run := run;
         ld_step := step; ld_projection := projection; ld_checkpoint := checkpoint;
         ld_budget := budget |}.

(** Commits the forfeit and returns [e]. *)
Definition forfeit_with (control : RunControl) (lease : RunLease) (r : BudgetReservation)
    (now : DateTime) (e : StoreError.t) : tx (result StoreError.t RuntimeCommitResult) :=
  let! _ := apply_forfeit store control lease r now in
  ret (Err e).

Definition settle_dispatched (q : RuntimeCommitRequest) (p : PreparedGovernedExecution)
    (r : BudgetReservation) : tx (result StoreError.t RuntimeCommitResult) :=
  let! now := lift (operator_now store) in
  let! held := settlement_authority (mq_authority q) (mq_permit q) r now in
  let '(control, lease) := held in
  let! started := lift (ok_or (br_dispatch_started_at r) StoreError.Corrupt) in
  let duration := elapsed_ms started now in
  let charged := charge_of p duration in
  let! l := load_commit control lease r p in
  let! context := lift (operator_context store) in
  if negb (binding_valid q p (oc_catalog context) l duration)
  then forfeit_with control lease r now StoreError.Invalid
  else
    let! persisted := candidate (persist_result q p l charged now) in
    match persisted with
    | Ok result => commit result
    | Err e => forfeit_with control lease r now e
    | Panic => lift Panic
    end.

Definition commit_runtime (q : RuntimeCommitRequest) (p : PreparedGovernedExecution)
    : tx RuntimeCommitResult :=
  stop StoreError.Invalid
    when negb (bool_decide (mq_schema q = "proof.operator.runtime-commit-request/v1"));
  transaction (
    let! r := dispatched_reservation (mq_permit q) (mq_custody q) in
    if bool_decide (br_state r = ReservationState.Committed) then committed_again q r
    else
      stop StoreError.NotActionable
        when negb (bool_decide (br_state r = ReservationState.Dispatching));
      settle_dispatched q p r).

Definition commit_runtime_barrier (q : RuntimeCommitRequest) (p : PreparedGovernedExecution)
    : tx RuntimeCommitResult :=
  if negb (prepared_matches_dispatch (mq_custody q) (mq_prepared q))
  then forfeit_commit store q
  else commit_runtime q p.

End commit.

(** ** Requests *)

(** A call of the store, as one of its clients makes it. *)
Inductive runtime_op : Type :=
| RtClaim (q : LeaseClaimRequest)
| RtRenew (q : LeaseRenewRequest)
| RtRelease (q : LeaseReleaseRequest)
| RtReserve (q : BudgetReserveRequest)
| RtSettle (q : BudgetSettlementRequest)
| RtBegin (q : BeginDispatchRequest)
| RtCommit (q : RuntimeCommitRequest) (p : PreparedGovernedExecution)
| RtFail (q : RuntimeFailureRequest)
| RtReclaim (q : ReclaimRequest).

Section runs.
Context `{Externals} `{OperatorExternals}.

Definition runtime_step (store : option OperatorStoreContext) (op : runtime_op) (s : Tx) : Tx :=
  match op with
  | RtClaim q => (claim_run_lease store q s).2
  | RtRenew q => (renew_run_lease store q s).2
  | RtRelease q => (release_run_lease store q s).2
  | RtReserve q => (reserve_aggregate_budget store q s).2
  | RtSettle q => (settle_budget_reservation store q s).2
  | RtBegin q => (begin_dispatch store q s).2
  | RtCommit q p => (commit_runtime_barrier store q p s).2
  | RtFail q => (forfeit_failure store q s).2
  | RtReclaim q => (reclaim store q s).2
  end.

(** Calls one after the other, each with the clock of its time: the connection is behind
    a mutex and every call is one immediate transaction. *)
Definition runtime_run (calls : list (option OperatorStoreContext * runtime_op)) (s : Tx) : Tx :=
  foldl (λ s call, runtime_step call.1 call.2 s) s calls.

End runs.
