(* ===== verification/OperatorCommand.v ===== *)
(** * Operator commands

    The commands of [operator/durable.rs]: an operator decides an approval, cancels a
    run, resumes a run or revokes a session.  A command carries the identity of its
    session ([CommandBinding]) and the revisions it expects; the envelope adds the time
    and the digest of the command, and the receipt says what became of it.  The requests
    and the results of the command store and of the signer are those of
    [operator/store.rs].

    [command_digest_binds] says that the digest of a command determines the command, and
    [receipt_digest_binds] the same of a receipt. *)

From S2P Require Import Prelude RustStr Externals Json Canonical Serialized Evidence Approval.
From S2P Require Import OperatorCommon StrictDigest Durable AuditChain OperatorAuth RuntimeStore.
From stdpp Require Import options.

(** ** Commands *)

Record CommandBinding := {
  cmd_command_id : Uuid;
  cmd_idempotency_key : Uuid;
  cmd_workspace_id : Uuid;
  cmd_server_instance_id : Uuid;
  cmd_session_id : Uuid;
  cmd_human_id : Uuid;
  cmd_auth_epoch : N;
  cmd_session_authority_digest : ControlDigest;
  cmd_policy_revision : N;
}.

Module DecisionOutcome.
Inductive t : Type := Approved | Denied.

Definition wire (o : t) : string :=
  match o with Approved => "approved" | Denied => "denied" end.
End DecisionOutcome.

Record ApprovalDecisionCommand := {
  adc_schema : string;
  adc_binding : CommandBinding;
  adc_approval_request_id : Uuid;
  adc_run_id : Uuid;
  adc_step_id : Uuid;
  adc_outcome : DecisionOutcome.t;
  adc_expected_request_digest : ContentDigest;
  adc_expected_run_revision : N;
  adc_expected_step_revision : N;
  adc_expected_control_revision : N;
  adc_expected_checkpoint_id : Uuid;
  adc_expected_checkpoint_sequence : N;
  adc_expected_checkpoint_digest : ContentDigest;
  adc_expected_fence_epoch : N;
}.

Record RunCancelCommand := {
  rcc_schema : string;
  rcc_binding : CommandBinding;
  rcc_run_id : Uuid;
  rcc_expected_run_revision : N;
  rcc_expected_control_revision : N;
  rcc_expected_fence_epoch : N;
}.

Record RunResumeCommand := {
  rrc_schema : string;
  rrc_binding : CommandBinding;
  rrc_run_id : Uuid;
  rrc_step_id : Uuid;
  rrc_approval_request_id : option Uuid;
  rrc_decision_digest : option ContentDigest;
  rrc_recovery_directive_id : option Uuid;
  rrc_recovery_directive_digest : option ControlDigest;
  rrc_expected_run_revision : N;
  rrc_expected_step_revision : N;
  rrc_expected_control_revision : N;
  rrc_expected_checkpoint_id : Uuid;
  rrc_expected_checkpoint_sequence : N;
  rrc_expected_checkpoint_digest : ContentDigest;
  rrc_expected_fence_epoch : N;
}.

Record SessionRevokeRequest := { srr_schema : string; srr_binding : CommandBinding }.

Module OperatorCommand.
Inductive t : Type :=
| ApprovalDecision (value : ApprovalDecisionCommand)
| RunCancel (value : RunCancelCommand)
| RunResume (value : RunResumeCommand)
| SessionRevoke (value : SessionRevokeRequest).

Definition binding (c : t) : CommandBinding :=
  match c with
  | ApprovalDecision v => adc_binding v
  | RunCancel v => rcc_binding v
  | RunResume v => rrc_binding v
  | SessionRevoke v => srr_binding v
  end.
End OperatorCommand.

Module CommandOutcome.
Inductive t : Type := AlreadyTerminal | Applied.

#[global] Instance t_eq_dec : EqDecision t.
Proof. solve_decision. Defined.

Definition wire (o : t) : string :=
  match o with AlreadyTerminal => "already_terminal" | Applied => "applied" end.
End CommandOutcome.

Record CommandEnvelope := {
  cev_schema : string;
  cev_command : OperatorCommand.t;
  cev_request_digest : ControlDigest;
  cev_required_capabilities : list Capability;
  cev_requested_at : DateTime;
}.

Record CommandReceipt := {
  rcp_schema : string;
  rcp_receipt_id : Uuid;
  rcp_command_id : Uuid;
  rcp_idempotency_key : Uuid;
  rcp_kind : CommandKind.t;
  rcp_outcome : CommandOutcome.t;
  rcp_request_digest : ControlDigest;
  rcp_workspace_id : Uuid;
  rcp_human_id : Uuid;
  rcp_target_run_id : option Uuid;
  rcp_approval_request_id : option Uuid;
  rcp_observed_run_revision : option N;
  rcp_resulting_run_revision : option N;
  rcp_resulting_step_revision : option N;
  rcp_resulting_control_revision : option N;
  rcp_resulting_fence_epoch : option N;
  rcp_decision_id : option Uuid;
  rcp_decision_digest : option ContentDigest;
  rcp_proof : option ProofReference;
  rcp_audit_event_id : Uuid;
  rcp_audit_sequence : N;
  rcp_audit_digest : ControlDigest;
  rcp_completed_at : DateTime;
  rcp_receipt_digest : ControlDigest;
}.

Inductive AppliedCommandOutcome : Type := AppliedOnly.

Module OperatorProofOperation.
Inductive t : Type := ApprovalDecide | RunCancel | RunResume | SessionRevoke.

#[global] Instance t_eq_dec : EqDecision t.
Proof. solve_decision. Defined.

Definition wire (o : t) : string :=
  match o with
  | ApprovalDecide => "operator.approval_decide" | RunCancel => "operator.run_cancel"
  | RunResume => "operator.run_resume" | SessionRevoke => "operator.session_revoke"
  end.
End OperatorProofOperation.

Record ControlTransitionOutcome := {
  cto_schema : string;
  cto_command_id : Uuid;
  cto_kind : CommandKind.t;
  cto_outcome : AppliedCommandOutcome;
  cto_proof_operation : OperatorProofOperation.t;
  cto_target_run_id : option Uuid;
  cto_approval_request_id : option Uuid;
  cto_resulting_run_revision : option N;
  cto_resulting_step_revision : option N;
  cto_resulting_control_revision : option N;
  cto_resulting_fence_epoch : option N;
  cto_decision_digest : option ContentDigest;
  cto_completed_at : DateTime;
}.

#[export] Instance CommandBinding_eq_dec : EqDecision CommandBinding.
Proof. solve_decision. Defined.
#[export] Instance DecisionOutcome_eq_dec : EqDecision DecisionOutcome.t.
Proof. solve_decision. Defined.
#[export] Instance ApprovalDecisionCommand_eq_dec : EqDecision ApprovalDecisionCommand.
Proof. solve_decision. Defined.
#[export] Instance RunCancelCommand_eq_dec : EqDecision RunCancelCommand.
Proof. solve_decision. Defined.
#[export] Instance RunResumeCommand_eq_dec : EqDecision RunResumeCommand.
Proof. solve_decision. Defined.
#[export] Instance SessionRevokeRequest_eq_dec : EqDecision SessionRevokeRequest.
Proof. solve_decision. Defined.
#[export] Instance OperatorCommand_eq_dec : EqDecision OperatorCommand.t.
Proof. solve_decision. Defined.

(** ** Requests of the store and of the signer ([operator/store.rs]) *)

Module OperatorMutationRoute.
Inductive t : Type := ApprovalDecide | RunCancel | RunResume | SessionRevoke.

#[global] Instance t_eq_dec : EqDecision t.
Proof. solve_decision. Defined.
End OperatorMutationRoute.

Record OperatorMutationScope := {
  oms_schema : string;
  oms_route : OperatorMutationRoute.t;
  oms_session_authority : SessionAuthorityBinding;
  oms_session_authority_digest : ControlDigest;
  oms_policy_revision : N;
  oms_required_capabilities : list Capability;
}.

Record CommandExecutionRequest := {
  cer_schema : string;
  cer_scope : OperatorMutationScope;
  cer_command : OperatorCommand.t;
}.

Module CommandResultOutcome.
Inductive t : Type := AlreadyTerminal | Applied | ExactReplay.
End CommandResultOutcome.

Record CommandResult := {
  crs_schema : string;
  crs_outcome : CommandResultOutcome.t;
  crs_receipt : CommandReceipt;
}.

Record ApprovalSigningRequest := {
  asr_schema : string;
  asr_command_id : Uuid;
  asr_decision_id : Uuid;
  asr_authenticated_human_id : Uuid;
  asr_approval_binding : ApprovalBinding;
  asr_signed_request_digest : ContentDigest;
  asr_outcome : DecisionOutcome.t;
  asr_validated_at : DateTime;
}.

Record SignedDecisionResult := {
  sdr_schema : string;
  sdr_decision_digest : ContentDigest;
  sdr_signature : string;
}.

Record OperatorProofSigningRequest := {
  psr_schema : string;
  psr_agent_id : Uuid;
  psr_command : CommandEnvelope;
  psr_command_digest : ControlDigest;
  psr_input_digest : ContentDigest;
  psr_output_digest : ContentDigest;
  psr_proof_id : Uuid;
  psr_timestamp : DateTime;
  psr_outcome : ControlTransitionOutcome;
}.

Inductive OperatorSignerError : Type :=
| IdentityMismatch | KeyLoadFailed | SigningFailed | VerificationFailed.

(** The trait [OperatorSigner].  One command calls each method at most once, so a
    function gives every answer a signer can make during it. *)
Record OperatorSigner := {
  sign_approval : ApprovalSigningRequest → result OperatorSignerError SignedDecisionResult;
  sign_operator_proof : OperatorProofSigningRequest → result OperatorSignerError Proof_;
}.

(** ** Written forms *)

Section values.
Context `{Externals} `{OperatorExternals}.

Notation uuid7 := strict_uuid_v7_serialize.
Notation opt_uuid7 := strict_optional_uuid_v7_serialize.
Notation safe := strict_safe_integer_serialize.
Notation opt_safe := strict_optional_safe_integer_serialize.
Notation utc := strict_utc_serialize.

Definition binding_value (b : CommandBinding) : option json :=
  strict_object
    [("command_id", uuid7 (cmd_command_id b));
     ("idempotency_key", uuid7 (cmd_idempotency_key b));
     ("workspace_id", uuid7 (cmd_workspace_id b));
     ("server_instance_id", uuid7 (cmd_server_instance_id b));
     ("session_id", uuid7 (cmd_session_id b)); ("human_id", uuid7 (cmd_human_id b));
     ("auth_epoch", safe (cmd_auth_epoch b));
     ("session_authority_digest", control_value (cmd_session_authority_digest b));
     ("policy_revision", safe (cmd_policy_revision b))].

Definition approval_decision_fields (c : ApprovalDecisionCommand)
    : list (string * option json) :=
  [("schema", text (adc_schema c)); ("binding", binding_value (adc_binding c));
   ("approval_request_id", uuid7 (adc_approval_request_id c));
   ("run_id", uuid7 (adc_run_id c)); ("step_id", uuid7 (adc_step_id c));
   ("outcome", text (DecisionOutcome.wire (adc_outcome c)));
   ("expected_request_digest", content_value (adc_expected_request_digest c));
   ("expected_run_revision", safe (adc_expected_run_revision c));
   ("expected_step_revision", safe (adc_expected_step_revision c));
   ("expected_control_revision", safe (adc_expected_control_revision c));
   ("expected_checkpoint_id", uuid7 (adc_expected_checkpoint_id c));
   ("expected_checkpoint_sequence", safe (adc_expected_checkpoint_sequence c));
   ("expected_checkpoint_digest", content_value (adc_expected_checkpoint_digest c));
   ("expected_fence_epoch", safe (adc_expected_fence_epoch c))].

Definition run_cancel_fields (c : RunCancelCommand) : list (string * option json) :=
  [("schema", text (rcc_schema c)); ("binding", binding_value (rcc_binding c));
   ("run_id", uuid7 (rcc_run_id c));
   ("expected_run_revision", safe (rcc_expected_run_revision c));
   ("expected_control_revision", safe (rcc_expected_control_revision c));
   ("expected_fence_epoch", safe (rcc_expected_fence_epoch c))].

Definition run_resume_fields (c : RunResumeCommand) : list (string * option json) :=
  [("schema", text (rrc_schema c)); ("binding", binding_value (rrc_binding c));
   ("run_id", uuid7 (rrc_run_id c)); ("step_id", uuid7 (rrc_step_id c));
   ("approval_request_id", opt_uuid7 (rrc_approval_request_id c));
   ("decision_digest", nullable content_value (rrc_decision_digest c));
   ("recovery_directive_id", opt_uuid7 (rrc_recovery_directive_id c));
   ("recovery_directive_digest", nullable control_value (rrc_recovery_directive_digest c));
   ("expected_run_revision", safe (rrc_expected_run_revision c));
   ("expected_step_revision", safe (rrc_expected_step_revision c));
   ("expected_control_revision", safe (rrc_expected_control_revision c));
   ("expected_checkpoint_id", uuid7 (rrc_expected_checkpoint_id c));
   ("expected_checkpoint_sequence", safe (rrc_expected_checkpoint_sequence c));
   ("expected_checkpoint_digest", content_value (rrc_expected_checkpoint_digest c));
   ("expected_fence_epoch", safe (rrc_expected_fence_epoch c))].

Definition session_revoke_fields (c : SessionRevokeRequest) : list (string * option json) :=
  [("schema", text (srr_schema c)); ("binding", binding_value (srr_binding c))].

(** The variants are written without a tag. *)
Definition command_fields (c : OperatorCommand.t) : list (string * option json) :=
  match c with
  | OperatorCommand.ApprovalDecision v => approval_decision_fields v
  | OperatorCommand.RunCancel v => run_cancel_fields v
  | OperatorCommand.RunResume v => run_resume_fields v
  | OperatorCommand.SessionRevoke v => session_revoke_fields v
  end.

Definition command_value (c : OperatorCommand.t) : option json :=
  strict_object (command_fields c).

Definition envelope_value (e : CommandEnvelope) : option json :=
  strict_object
    [("schema", text (cev_schema e)); ("command", command_value (cev_command e));
     ("request_digest", control_value (cev_request_digest e));
     ("required_capabilities",
        Some (JArray (map (λ c, JString (capability_wire c)) (cev_required_capabilities e))));
     ("requested_at", utc (cev_requested_at e))].

Definition receipt_fields (r : CommandReceipt) : list (string * option json) :=
  [("schema", text (rcp_schema r)); ("receipt_id", uuid7 (rcp_receipt_id r));
   ("command_id", uuid7 (rcp_command_id r));
   ("idempotency_key", uuid7 (rcp_idempotency_key r));
   ("kind", text (CommandKind.wire (rcp_kind r)));
   ("outcome", text (CommandOutcome.wire (rcp_outcome r)));
   ("request_digest", control_value (rcp_request_digest r));
   ("workspace_id", uuid7 (rcp_workspace_id r)); ("human_id", uuid7 (rcp_human_id r));
   ("target_run_id", opt_uuid7 (rcp_target_run_id r));
   ("approval_request_id", opt_uuid7 (rcp_approval_request_id r));
   ("observed_run_revision", opt_safe (rcp_observed_run_revision r));
   ("resulting_run_revision", opt_safe (rcp_resulting_run_revision r));
   ("resulting_step_revision", opt_safe (rcp_resulting_step_revision r));
   ("resulting_control_revision", opt_safe (rcp_resulting_control_revision r));
   ("resulting_fence_epoch", opt_safe (rcp_resulting_fence_epoch r));
   ("decision_id", opt_uuid7 (rcp_decision_id r));
   ("decision_digest", nullable content_value (rcp_decision_digest r));
   ("proof", nullable proof_reference_value (rcp_proof r));
   ("audit_event_id", uuid7 (rcp_audit_event_id r));
   ("audit_sequence", safe (rcp_audit_sequence r));
   ("audit_digest", control_value (rcp_audit_digest r));
   ("completed_at", utc (rcp_completed_at r));
   ("receipt_digest", control_value (rcp_receipt_digest r))].

Definition receipt_value (r : CommandReceipt) : option json := strict_object (receipt_fields r).

Definition transition_value (o : ControlTransitionOutcome) : option json :=
  strict_object
    [("schema", text (cto_schema o)); ("command_id", uuid7 (cto_command_id o));
     ("kind", text (CommandKind.wire (cto_kind o))); ("outcome", text "applied");
     ("proof_operation", text (OperatorProofOperation.wire (cto_proof_operation o)));
     ("target_run_id", opt_uuid7 (cto_target_run_id o));
     ("approval_request_id", opt_uuid7 (cto_approval_request_id o));
     ("resulting_run_revision", opt_safe (cto_resulting_run_revision o));
     ("resulting_step_revision", opt_safe (cto_resulting_step_revision o));
     ("resulting_control_revision", opt_safe (cto_resulting_control_revision o));
     ("resulting_fence_epoch", opt_safe (cto_resulting_fence_epoch o));
     ("decision_digest", nullable content_value (cto_decision_digest o));
     ("completed_at", utc (cto_completed_at o))].

(** ** Validators *)

Definition APPROVAL_DECISION_SCHEMA : string := "proof.operator.command.approval-decision/v1".
Definition RUN_CANCEL_SCHEMA : string := "proof.operator.command.run-cancel/v1".
Definition RUN_RESUME_SCHEMA : string := "proof.operator.command.run-resume/v1".
Definition SESSION_REVOKE_SCHEMA : string := "proof.operator.command.session-revoke/v1".
Definition COMMAND_ENVELOPE_SCHEMA : string := "proof.operator.command-envelope/v1".
Definition COMMAND_RECEIPT_SCHEMA : string := "proof.operator.command-receipt/v1".
Definition TRANSITION_SCHEMA : string := "proof.operator.control-transition-outcome/v1".

Definition CommandBinding_validate (b : CommandBinding) : checked :=
  bail ValidationError.InvalidUuid
    when not_all_v7 [cmd_command_id b; cmd_idempotency_key b; cmd_workspace_id b;
                     cmd_server_instance_id b; cmd_session_id b; cmd_human_id b];
  bail ValidationError.InvalidRevision
    when negb (cmd_auth_epoch b =? 1)%N || negb (cmd_policy_revision b =? 1)%N;
  Ok ().

Definition ApprovalDecisionCommand_validate (c : ApprovalDecisionCommand) : checked :=
  bail ValidationError.InvalidRevision
    when negb (bool_decide (adc_schema c = APPROVAL_DECISION_SCHEMA))
         || (adc_expected_fence_epoch c =? 0)%N;
  CommandBinding_validate (adc_binding c).

Definition RunCancelCommand_validate (c : RunCancelCommand) : checked :=
  bail ValidationError.InvalidRevision
    when negb (bool_decide (rcc_schema c = RUN_CANCEL_SCHEMA))
         || (rcc_expected_fence_epoch c =? 0)%N;
  CommandBinding_validate (rcc_binding c).

Definition RunResumeCommand_validate (c : RunResumeCommand) : checked :=
  bail ValidationError.InvalidRevision
    when negb (bool_decide (rrc_schema c = RUN_RESUME_SCHEMA))
         || (rrc_expected_fence_epoch c =? 0)%N;
  let? _ := CommandBinding_validate (rrc_binding c) in
  let approval := is_some (rrc_approval_request_id c) && is_some (rrc_decision_digest c)
                  && is_none (rrc_recovery_directive_id c)
                  && is_none (rrc_recovery_directive_digest c) in
  let recovery := is_none (rrc_approval_request_id c) && is_none (rrc_decision_digest c)
                  && is_some (rrc_recovery_directive_id c)
                  && is_some (rrc_recovery_directive_digest c) in
  bail ValidationError.InvalidBranch when eqb approval recovery;
  Ok ().

Definition receipt_branch (r : CommandReceipt) : bool :=
  let applied := bool_decide (rcp_outcome r = CommandOutcome.Applied) in
  let proof operation := bool_decide (pf_operation <$> rcp_proof r = Some operation) in
  let run_base := is_some (rcp_target_run_id r) && is_some (rcp_observed_run_revision r)
                  && is_some (rcp_resulting_run_revision r)
                  && is_some (rcp_resulting_control_revision r)
                  && is_some (rcp_resulting_fence_epoch r) in
  match rcp_kind r with
  | CommandKind.ApprovalDecide =>
      applied && run_base && is_some (rcp_approval_request_id r)
      && is_some (rcp_resulting_step_revision r) && is_some (rcp_decision_id r)
      && proof "operator.approval_decide"
  | CommandKind.RunCancel =>
      run_base && is_none (rcp_approval_request_id r)
      && is_none (rcp_resulting_step_revision r) && is_none (rcp_decision_id r)
      && (negb applied || proof "operator.run_cancel")
      && (applied || bool_decide (rcp_resulting_run_revision r = rcp_observed_run_revision r))
  | CommandKind.RunResume =>
      applied && run_base && is_some (rcp_resulting_step_revision r)
      && eqb (is_some (rcp_approval_request_id r)) (is_some (rcp_decision_id r))
      && proof "operator.run_resume"
  | CommandKind.SessionRevoke =>
      applied && is_none (rcp_target_run_id r) && is_none (rcp_approval_request_id r)
      && is_none (rcp_observed_run_revision r) && is_none (rcp_resulting_run_revision r)
      && is_none (rcp_resulting_step_revision r) && is_none (rcp_resulting_control_revision r)
      && is_none (rcp_resulting_fence_epoch r) && is_none (rcp_decision_id r)
      && proof "operator.session_revoke"
  end.

Definition receipt_digest_of (r : CommandReceipt) : option ControlDigest :=
  digest_without_field "Proof-Operator-Command-Receipt-v1" (receipt_value r) "receipt_digest".

Definition unsafe_revision (revisions : list (option N)) : bool :=
  existsb (λ o, is_some_and o (λ revision, MAX_SAFE_INTEGER <? revision)%N) revisions.

Definition CommandReceipt_validate (r : CommandReceipt) : checked :=
  bail ValidationError.InvalidRevision
    when negb (bool_decide (rcp_schema r = COMMAND_RECEIPT_SCHEMA))
         || (rcp_audit_sequence r =? 0)%N || (MAX_SAFE_INTEGER <? rcp_audit_sequence r)%N
         || not_all_v7 [rcp_receipt_id r; rcp_command_id r; rcp_idempotency_key r;
                        rcp_workspace_id r; rcp_human_id r; rcp_audit_event_id r]
         || any_not_v7 [rcp_target_run_id r; rcp_approval_request_id r; rcp_decision_id r]
         || unsafe_revision [rcp_observed_run_revision r; rcp_resulting_run_revision r;
                             rcp_resulting_step_revision r; rcp_resulting_control_revision r;
                             rcp_resulting_fence_epoch r];
  bail ValidationError.InvalidBranch
    when negb (eqb (bool_decide (rcp_outcome r = CommandOutcome.Applied))
                   (is_some (rcp_proof r)));
  bail ValidationError.InvalidBranch
    when negb (eqb (is_some (rcp_decision_id r)) (is_some (rcp_decision_digest r)));
  bail ValidationError.InvalidBranch when negb (receipt_branch r);
  let? digest := ok_or (receipt_digest_of r) ValidationError.InvalidSchema in
  bail ValidationError.InvalidSchema when negb (bool_decide (rcp_receipt_digest r = digest));
  Ok ().

Definition transition_branch (o : ControlTransitionOutcome) : bool :=
  let operation p := bool_decide (cto_proof_operation o = p) in
  let all_run := is_some (cto_target_run_id o) && is_some (cto_resulting_run_revision o)
                 && is_some (cto_resulting_control_revision o)
                 && is_some (cto_resulting_fence_epoch o) in
  match cto_kind o with
  | CommandKind.ApprovalDecide =>
      operation OperatorProofOperation.ApprovalDecide && all_run
      && is_some (cto_approval_request_id o) && is_some (cto_resulting_step_revision o)
      && is_some (cto_decision_digest o)
  | CommandKind.RunCancel =>
      operation OperatorProofOperation.RunCancel && all_run
      && is_none (cto_approval_request_id o) && is_none (cto_resulting_step_revision o)
      && is_none (cto_decision_digest o)
  | CommandKind.RunResume =>
      operation OperatorProofOperation.RunResume && all_run
      && is_some (cto_resulting_step_revision o)
      && eqb (is_some (cto_approval_request_id o)) (is_some (cto_decision_digest o))
  | CommandKind.SessionRevoke =>
      operation OperatorProofOperation.SessionRevoke && is_none (cto_target_run_id o)
      && is_none (cto_approval_request_id o) && is_none (cto_resulting_run_revision o)
      && is_none (cto_resulting_step_revision o) && is_none (cto_resulting_control_revision o)
      && is_none (cto_resulting_fence_epoch o) && is_none (cto_decision_digest o)
  end.

Definition ControlTransitionOutcome_validate (o : ControlTransitionOutcome) : checked :=
  bail ValidationError.InvalidRevision
    when negb (bool_decide (cto_schema o = TRANSITION_SCHEMA))
         || negb (uuid_is_v7 (cto_command_id o))
         || any_not_v7 [cto_target_run_id o; cto_approval_request_id o]
         || unsafe_revision [cto_resulting_run_revision o; cto_resulting_step_revision o;
                             cto_resulting_control_revision o; cto_resulting_fence_epoch o];
  bail ValidationError.InvalidBranch when negb (transition_branch o);
  Ok ().

(** [control_digest_serialized("Proof-Operator-Command-v1", command)] *)
Definition command_digest_of (c : OperatorCommand.t) : option ControlDigest :=
  control_digest_value "Proof-Operator-Command-v1" (command_value c).

End values.

(** ** What a digest says *)

#[export] Instance DecisionOutcome_wire_inj : Inj (=) (=) DecisionOutcome.wire.
Proof. by intros [] []. Qed.
#[export] Instance CommandOutcome_wire_inj : Inj (=) (=) CommandOutcome.wire.
Proof. by intros [] []. Qed.

(** The schema that a command of its kind carries. *)
Definition command_schema (c : OperatorCommand.t) : string :=
  match c with
  | OperatorCommand.ApprovalDecision v => adc_schema v
  | OperatorCommand.RunCancel v => rcc_schema v
  | OperatorCommand.RunResume v => rrc_schema v
  | OperatorCommand.SessionRevoke v => srr_schema v
  end.
Definition expected_schema (c : OperatorCommand.t) : string :=
  match c with
  | OperatorCommand.ApprovalDecision _ => APPROVAL_DECISION_SCHEMA
  | OperatorCommand.RunCancel _ => RUN_CANCEL_SCHEMA
  | OperatorCommand.RunResume _ => RUN_RESUME_SCHEMA
  | OperatorCommand.SessionRevoke _ => SESSION_REVOKE_SCHEMA
  end.

Section digests.
Context `{HL : ExternalsLaws} `{OperatorExternals}.

#[export] Instance binding_faithful : Faithful binding_value.
Proof using HL.
  split.
  - intros [] [] S E. apply strict_object_inj in E as [W G]; [|done]. written_inv W.
    strict_field G "command_id". strict_field G "idempotency_key". strict_field G "workspace_id".
    strict_field G "server_instance_id". strict_field G "session_id". strict_field G "human_id".
    strict_field G "auth_epoch". strict_field G "session_authority_digest".
    strict_field G "policy_revision". cbn in *. by subst.
  - intros p v. apply strict_object_exact. exact_fields_tac.
  - intros p. unfold binding_value, strict_object. by destruct (strict_fields _).
Qed.

Lemma command_exact c : exact_fields (command_fields c).
Proof using HL.
  destruct c; cbn [command_fields];
    unfold approval_decision_fields, run_cancel_fields, run_resume_fields, session_revoke_fields;
    exact_fields_tac.
Qed.

Lemma command_written_binds c1 c2 :
  command_schema c1 = expected_schema c1 → command_schema c2 = expected_schema c2 →
  written (command_fields c1) →
  (∀ k, strict_get k (command_fields c1) = strict_get k (command_fields c2)) → c1 = c2.
Proof using HL.
  intros S1 S2 W G.
  assert (command_schema c1 = command_schema c2) as S.
  { specialize (G "schema"). destruct c1, c2; cbn in G; by injection G. }
  destruct c1 as [[]|[]|[]|[]], c2 as [[]|[]|[]|[]];
    cbn [command_schema expected_schema adc_schema rcc_schema rrc_schema srr_schema] in *;
    try (rewrite S1, S2 in S; discriminate S); f_equal;
    unfold command_fields, approval_decision_fields, run_cancel_fields, run_resume_fields,
      session_revoke_fields in W, G;
    written_inv W; strict_field G "binding".
  - strict_field G "approval_request_id". strict_field G "run_id". strict_field G "step_id".
    strict_field G "outcome". strict_field G "expected_request_digest".
    strict_field G "expected_run_revision". strict_field G "expected_step_revision".
    strict_field G "expected_control_revision". strict_field G "expected_checkpoint_id".
    strict_field G "expected_checkpoint_sequence". strict_field G "expected_checkpoint_digest".
    strict_field G "expected_fence_epoch". cbn in *.
    repeat match goal with F : _ = _ |- _ => first [apply (inj _) in F|progress subst] end. done.
  - strict_field G "run_id". strict_field G "expected_run_revision".
    strict_field G "expected_control_revision". strict_field G "expected_fence_epoch".
    cbn in *. by subst.
  - strict_field G "run_id". strict_field G "step_id". strict_field G "approval_request_id".
    strict_field G "decision_digest". strict_field G "recovery_directive_id".
    strict_field G "recovery_directive_digest". strict_field G "expected_run_revision".
    strict_field G "expected_step_revision". strict_field G "expected_control_revision".
    strict_field G "expected_checkpoint_id". strict_field G "expected_checkpoint_sequence".
    strict_field G "expected_checkpoint_digest". strict_field G "expected_fence_epoch".
    cbn in *. by subst.
  - cbn in *. by subst.
Qed.

(** Commands of their schemas are determined by their digests. *)
Lemma command_digest_binds c1 c2 d :
  command_schema c1 = expected_schema c1 → command_schema c2 = expected_schema c2 →
  command_digest_of c1 = Some d → command_digest_of c2 = Some d →
  c1 = c2 ∨ collides (control_message "Proof-Operator-Command-v1" (command_value c1))
              (control_message "Proof-Operator-Command-v1" (command_value c2)).
Proof using HL.
  unfold command_digest_of, command_value. intros S1 S2 D1 D2.
  edestruct (control_digest_value_inj "Proof-Operator-Command-v1") as [E|];
    [| |exact D1|exact D2| |by right].
  1-2: intros v; apply strict_object_exact, command_exact.
  left. apply strict_object_inj in E as [W G].
  - by apply command_written_binds.
  - destruct (strict_object (command_fields c1)); [done|discriminate D1].
Qed.

Lemma receipt_exact r : exact_fields (receipt_fields r).
Proof using HL. unfold receipt_fields. exact_fields_tac. Qed.

(** A receipt is determined by its digest. *)
Lemma receipt_digest_binds r1 r2 d :
  receipt_digest_of r1 = Some d → receipt_digest_of r2 = Some d →
  rcp_receipt_digest r1 = rcp_receipt_digest r2 →
  r1 = r2
  ∨ collides
      (message_without_field "Proof-Operator-Command-Receipt-v1" (receipt_value r1)
         "receipt_digest")
      (message_without_field "Proof-Operator-Command-Receipt-v1" (receipt_value r2)
         "receipt_digest").
Proof using HL.
  intros E1 E2 Ed.
  destruct (digest_without_field_binds _ _ _ _ _ (receipt_exact r1) (receipt_exact r2) E1 E2)
    as [[W G]|]; [left|by right].
  destruct r1, r2. unfold receipt_fields in *. written_inv W.
  strict_field G "schema". strict_field G "receipt_id". strict_field G "command_id".
  strict_field G "idempotency_key". strict_field G "kind". strict_field G "outcome".
  strict_field G "request_digest". strict_field G "workspace_id". strict_field G "human_id".
  strict_field G "target_run_id". strict_field G "approval_request_id".
  strict_field G "observed_run_revision". strict_field G "resulting_run_revision".
  strict_field G "resulting_step_revision". strict_field G "resulting_control_revision".
  strict_field G "resulting_fence_epoch". strict_field G "decision_id".
  strict_field G "decision_digest". strict_field G "proof". strict_field G "audit_event_id".
  strict_field G "audit_sequence". strict_field G "audit_digest". strict_field G "completed_at".
  cbn in *. repeat match goal with F : _ = _ |- _ => first [apply (inj _) in F|progress subst] end.
  done.
Qed.

End digests.
