(* ===== verification/CommandStore.v ===== *)
(** * Executing operator commands

    [execute_operator_command] and [register_governed_run] of
    [crates/proof-storage/src/sqlite/operator_store.rs], with the functions that read and
    write the rows they need.  Beside the tables of [RuntimeStore] they use the enrolled
    workspace, the commands, their receipts and the approval decisions ([CommandDb]).
    [tables] runs code of [RuntimeStore] on these tables.

    A command is executed once.  The same command under the same idempotency key gets the
    receipt that was stored, and another command under that key is refused and recorded.
    A new command is checked against the revisions it expects, written, applied, proved by
    the signer, recorded in the audit chain and receipted, in one transaction. *)

From S2P Require Import Prelude RustStr Externals Json Canonical Serialized Evidence Approval.
From S2P Require Import OperatorCommon StrictDigest Agent AgentRun ExecutionStore Durable AuditChain.
From S2P Require Import OperatorAuth Custody Base64 RuntimeStore ReplayStore RuntimeOps RuntimeCommitOp.
From S2P Require Import OperatorCommand.
From stdpp Require Import options.

(** ** Tables *)

(** [cd_workspace] is [binding_json] of the single row of [operator_workspaces]. *)
Record CommandDb := {
  cd_db : Db;
  cd_workspace : option OperatorWorkspace;
  cd_commands : gmap N CommandEnvelope;
  cd_receipts : gmap N CommandReceipt;
  cd_decisions : gmap N SignedApprovalDecision;
}.

Record CommandTx := { ct_db : CommandDb; ct_uuids : list Uuid }.

Notation ctx := (call CommandTx StoreError.t).

Definition with_db (d : Db) (x : CommandDb) : CommandDb :=
  {| cd_db := d; cd_workspace := cd_workspace x; cd_commands := cd_commands x;
     cd_receipts := cd_receipts x; cd_decisions := cd_decisions x |}.
Definition with_commands (t : gmap N CommandEnvelope) (x : CommandDb) : CommandDb :=
  {| cd_db := cd_db x; cd_workspace := cd_workspace x; cd_commands := t;
     cd_receipts := cd_receipts x; cd_decisions := cd_decisions x |}.
Definition with_receipts (t : gmap N CommandReceipt) (x : CommandDb) : CommandDb :=
  {| cd_db := cd_db x; cd_workspace := cd_workspace x; cd_commands := cd_commands x;
     cd_receipts := t; cd_decisions := cd_decisions x |}.
Definition with_decisions (t : gmap N SignedApprovalDecision) (x : CommandDb) : CommandDb :=
  {| cd_db := cd_db x; cd_workspace := cd_workspace x; cd_commands := cd_commands x;
     cd_receipts := cd_receipts x; cd_decisions := t |}.

(** Code that uses the tables of [RuntimeStore] only. *)
Definition tables {A} (c : tx A) : ctx A := λ s,
  let '(r, t) := c {| tx_db := cd_db (ct_db s); tx_uuids := ct_uuids s |} in
  (r, {| ct_db := with_db (tx_db t) (ct_db s); ct_uuids := tx_uuids t |}).

Definition select {A} (f : CommandDb → result StoreError.t A) : ctx A := λ s, (f (ct_db s), s).

(** A statement on the tables of this file. *)
Definition insert_into (admissible : CommandDb → bool) (effect : CommandDb → CommandDb) : ctx () :=
  λ s, if admissible (ct_db s)
       then (Ok (), {| ct_db := effect (ct_db s); ct_uuids := ct_uuids s |})
       else (Err StoreError.Unavailable, s).

(** An error rolls the tables back; [Ok (Err e)] commits and returns [e]. *)
Definition command_transaction {A} (body : ctx (result StoreError.t A)) : ctx A := λ s,
  match body s with
  | (Ok r, s') => (r, s')
  | (Err e, s') => (Err e, {| ct_db := ct_db s; ct_uuids := ct_uuids s' |})
  | (Panic, s') => (Panic, {| ct_db := ct_db s; ct_uuids := ct_uuids s' |})
  end.

(** ** What a command asks for *)

Record CommandShape := {
  sh_kind : CommandKind.t;
  sh_route : OperatorMutationRoute.t;
  sh_mutation_capability : option Capability;
  sh_target_run_id : option Uuid;
  sh_target_step_id : option Uuid;
  sh_approval_request_id : option Uuid;
  sh_expected_run_revision : option N;
  sh_expected_step_revision : option N;
  sh_expected_control_revision : option N;
  sh_expected_checkpoint_id : option Uuid;
  sh_expected_checkpoint_sequence : option N;
  sh_expected_checkpoint_digest : option ContentDigest;
  sh_expected_fence_epoch : option N;
  sh_recovery_directive_id : option Uuid;
  sh_recovery_directive_digest : option ControlDigest;
  sh_decision_digest : option ContentDigest;
}.

Definition command_shape (command : OperatorCommand.t) : CommandShape :=
  match command with
  | OperatorCommand.ApprovalDecision v =>
      {| sh_kind := CommandKind.ApprovalDecide;
         sh_route := OperatorMutationRoute.ApprovalDecide;
         sh_mutation_capability := Some ApprovalDecide;
         sh_target_run_id := Some (adc_run_id v); sh_target_step_id := Some (adc_step_id v);
         sh_approval_request_id := Some (adc_approval_request_id v);
         sh_expected_run_revision := Some (adc_expected_run_revision v);
         sh_expected_step_revision := Some (adc_expected_step_revision v);
         sh_expected_control_revision := Some (adc_expected_control_revision v);
         sh_expected_checkpoint_id := Some (adc_expected_checkpoint_id v);
         sh_expected_checkpoint_sequence := Some (adc_expected_checkpoint_sequence v);
         sh_expected_checkpoint_digest := Some (adc_expected_checkpoint_digest v);
         sh_expected_fence_epoch := Some (adc_expected_fence_epoch v);
         sh_recovery_directive_id := None; sh_recovery_directive_digest := None;
         sh_decision_digest := None |}
  | OperatorCommand.RunCancel v =>
      {| sh_kind := CommandKind.RunCancel; sh_route := OperatorMutationRoute.RunCancel;
         sh_mutation_capability := Some OperatorCommon.RunCancel;
         sh_target_run_id := Some (rcc_run_id v); sh_target_step_id := None;
         sh_approval_request_id := None;
         sh_expected_run_revision := Some (rcc_expected_run_revision v);
         sh_expected_step_revision := None;
         sh_expected_control_revision := Some (rcc_expected_control_revision v);
         sh_expected_checkpoint_id := None; sh_expected_checkpoint_sequence := None;
         sh_expected_checkpoint_digest := None;
         sh_expected_fence_epoch := Some (rcc_expected_fence_epoch v);
         sh_recovery_directive_id := None; sh_recovery_directive_digest := None;
         sh_decision_digest := None |}
  | OperatorCommand.RunResume v =>
      {| sh_kind := CommandKind.RunResume; sh_route := OperatorMutationRoute.RunResume;
         sh_mutation_capability := Some OperatorCommon.RunResume;
         sh_target_run_id := Some (rrc_run_id v); sh_target_step_id := Some (rrc_step_id v);
         sh_approval_request_id := rrc_approval_request_id v;
         sh_expected_run_revision := Some (rrc_expected_run_revision v);
         sh_expected_step_revision := Some (rrc_expected_step_revision v);
         sh_expected_control_revision := Some (rrc_expected_control_revision v);
         sh_expected_checkpoint_id := Some (rrc_expected_checkpoint_id v);
         sh_expected_checkpoint_sequence := Some (rrc_expected_checkpoint_sequence v);
         sh_expected_checkpoint_digest := Some (rrc_expected_checkpoint_digest v);
         sh_expected_fence_epoch := Some (rrc_expected_fence_epoch v);
         sh_recovery_directive_id := rrc_recovery_directive_id v;
         sh_recovery_directive_digest := rrc_recovery_directive_digest v;
         sh_decision_digest := rrc_decision_digest v |}
  | OperatorCommand.SessionRevoke _ =>
      {| sh_kind := CommandKind.SessionRevoke;
         sh_route := OperatorMutationRoute.SessionRevoke;
         sh_mutation_capability := None; sh_target_run_id := None;
         sh_target_step_id := None; sh_approval_request_id := None;
         sh_expected_run_revision := None; sh_expected_step_revision := None;
         sh_expected_control_revision := None; sh_expected_checkpoint_id := None;
         sh_expected_checkpoint_sequence := None; sh_expected_checkpoint_digest := None;
         sh_expected_fence_epoch := None; sh_recovery_directive_id := None;
         sh_recovery_directive_digest := None; sh_decision_digest := None |}
  end.

(** [applied_shape.decision_digest = Some(digest)] *)
Definition with_decision (digest : ContentDigest) (s : CommandShape) : CommandShape :=
  {| sh_kind := sh_kind s; sh_route := sh_route s;
     sh_mutation_capability := sh_mutation_capability s;
     sh_target_run_id := sh_target_run_id s; sh_target_step_id := sh_target_step_id s;
     sh_approval_request_id := sh_approval_request_id s;
     sh_expected_run_revision := sh_expected_run_revision s;
     sh_expected_step_revision := sh_expected_step_revision s;
     sh_expected_control_revision := sh_expected_control_revision s;
     sh_expected_checkpoint_id := sh_expected_checkpoint_id s;
     sh_expected_checkpoint_sequence := sh_expected_checkpoint_sequence s;
     sh_expected_checkpoint_digest := sh_expected_checkpoint_digest s;
     sh_expected_fence_epoch := sh_expected_fence_epoch s;
     sh_recovery_directive_id := sh_recovery_directive_id s;
     sh_recovery_directive_digest := sh_recovery_directive_digest s;
     sh_decision_digest := Some digest |}.

Definition expected_command_capabilities (kind : CommandKind.t) : list Capability :=
  match kind with
  | CommandKind.ApprovalDecide => [ApprovalDecide; ApprovalRead]
  | CommandKind.RunCancel => [OperatorCommon.RunCancel; RunRead]
  | CommandKind.RunResume => [RunRead; OperatorCommon.RunResume]
  | CommandKind.SessionRevoke => []
  end.

Definition command_kind (command : OperatorCommand.t) : CommandKind.t :=
  match command with
  | OperatorCommand.ApprovalDecision _ => CommandKind.ApprovalDecide
  | OperatorCommand.RunCancel _ => CommandKind.RunCancel
  | OperatorCommand.RunResume _ => CommandKind.RunResume
  | OperatorCommand.SessionRevoke _ => CommandKind.SessionRevoke
  end.

(** [event.human_id = ..] and the other assignments. *)
Definition populate_command_event (e : AuditEvent) (envelope : CommandEnvelope)
    (shape : CommandShape) (applied : bool) (proof : option ProofReference) : AuditEvent :=
  let binding := OperatorCommand.binding (cev_command envelope) in
  let resume {A} (new old : option A) :=
    if bool_decide (sh_kind shape = CommandKind.RunResume) then new else old in
  let revoked {A} (new : A) (old : option A) :=
    if applied && bool_decide (sh_kind shape = CommandKind.SessionRevoke)
    then Some new else old in
  {| ae_schema := ae_schema e; ae_workspace_id := ae_workspace_id e;
     ae_event_id := ae_event_id e; ae_sequence := ae_sequence e; ae_kind := ae_kind e;
     ae_outcome := ae_outcome e; ae_previous_digest := ae_previous_digest e;
     ae_event_digest := ae_event_digest e; ae_human_id := Some (cmd_human_id binding);
     ae_session_id := Some (cmd_session_id binding); ae_challenge_id := ae_challenge_id e;
     ae_challenge_digest := ae_challenge_digest e;
     ae_session_authority_digest := Some (cmd_session_authority_digest binding);
     ae_related_session_id := ae_related_session_id e;
     ae_server_instance_id :=
       revoked (cmd_server_instance_id binding) (ae_server_instance_id e);
     ae_run_id := sh_target_run_id shape;
     ae_approval_request_id := sh_approval_request_id shape;
     ae_command_id := Some (cmd_command_id binding); ae_command_kind := Some (sh_kind shape);
     ae_budget_id := ae_budget_id e; ae_reservation_id := ae_reservation_id e;
     ae_lease_id := ae_lease_id e; ae_source_lease_id := ae_source_lease_id e;
     ae_process_epoch_id := ae_process_epoch_id e; ae_permit_id := ae_permit_id e;
     ae_recovery_directive_id :=
       resume (sh_recovery_directive_id shape) (ae_recovery_directive_id e);
     ae_fence_epoch := ae_fence_epoch e;
     ae_auth_epoch := revoked (cmd_auth_epoch binding) (ae_auth_epoch e);
     ae_policy_revision := revoked (cmd_policy_revision binding) (ae_policy_revision e);
     ae_intent_digest := ae_intent_digest e; ae_call_digest := ae_call_digest e;
     ae_decision_digest := resume (sh_decision_digest shape) (ae_decision_digest e);
     ae_recovery_directive_digest :=
       resume (sh_recovery_directive_digest shape) (ae_recovery_directive_digest e);
     ae_failure_scope := ae_failure_scope e; ae_proof := proof;
     ae_occurred_at := ae_occurred_at e |}.

(** [control.last_command_id = Some(id)], with the recovery fields of the record. *)
Definition set_last_command (id : Uuid) (directive : option Uuid)
    (directive_digest : option ControlDigest) (c : RunControl) : RunControl :=
  {| ctl_schema := ctl_schema c; ctl_run_id := ctl_run_id c;
     ctl_workspace_id := ctl_workspace_id c; ctl_budget_id := ctl_budget_id c;
     ctl_control_revision := ctl_control_revision c;
     ctl_active_dispatch_reservation_id := ctl_active_dispatch_reservation_id c;
     ctl_recovery_directive_id := directive;
     ctl_recovery_directive_digest := directive_digest;
     ctl_last_command_id := Some id; ctl_created_at := ctl_created_at c;
     ctl_updated_at := ctl_updated_at c; ctl_binding_digest := ctl_binding_digest c |}.

Section commands.
Context `{Externals} `{OperatorExternals}.
Context (store : option OperatorStoreContext).

(** ** Rows *)

Definition load_workspace_transaction : ctx OperatorWorkspace :=
  let! workspace := select (λ x, ok_or (cd_workspace x) StoreError.Unavailable) in
  let! _ := lift (corrupt (OperatorWorkspace_validate workspace)) in
  ret workspace.

Definition command_request_digest (command : OperatorCommand.t)
    : result StoreError.t ControlDigest :=
  ok_or (command_digest_of command) StoreError.Invalid.

Definition validate_command (command : OperatorCommand.t) (e : StoreError.t)
    : result StoreError.t () :=
  match command with
  | OperatorCommand.ApprovalDecision v => map_err (λ _, e) (ApprovalDecisionCommand_validate v)
  | OperatorCommand.RunCancel v => map_err (λ _, e) (RunCancelCommand_validate v)
  | OperatorCommand.RunResume v => map_err (λ _, e) (RunResumeCommand_validate v)
  | OperatorCommand.SessionRevoke v =>
      bail StoreError.Invalid when negb (bool_decide (srr_schema v = SESSION_REVOKE_SCHEMA));
      map_err (λ _, e) (CommandBinding_validate (srr_binding v))
  end.

Definition validate_operator_command (command : OperatorCommand.t) : result StoreError.t () :=
  validate_command command StoreError.Corrupt.

Definition lacks (expected : list Capability) (set : CapabilitySet) : bool :=
  existsb (λ c, negb (CapabilitySet_contains set c)) expected.

Definition validate_command_scope (request : CommandExecutionRequest)
    : ctx (CommandShape * OperatorWorkspace) :=
  let scope := cer_scope request in
  stop StoreError.Invalid
    when negb (bool_decide (cer_schema request = "proof.operator.command-execution-request/v1"))
         || negb (bool_decide (oms_schema scope = "proof.operator.mutation-scope/v1"));
  let! _ := lift (validate_command (cer_command request) StoreError.Invalid) in
  let authority := oms_session_authority scope in
  let! _ := lift (invalid (SessionAuthorityBinding_validate authority)) in
  let shape := command_shape (cer_command request) in
  let binding := OperatorCommand.binding (cer_command request) in
  let! authority_digest := lift (ok_or (control_digest_value
      "Proof-Operator-Session-Authority-v1" (authority_value authority)) StoreError.Invalid) in
  let expected := expected_command_capabilities (sh_kind shape) in
  stop StoreError.Invalid
    when negb (bool_decide (oms_route scope = sh_route shape))
         || negb (bool_decide (oms_required_capabilities scope = expected))
         || negb (bool_decide (oms_session_authority_digest scope = authority_digest))
         || negb (oms_policy_revision scope =? sa_policy_revision authority)%N
         || negb (bool_decide (cmd_workspace_id binding = sa_workspace_id authority))
         || negb (bool_decide (cmd_server_instance_id binding = sa_server_instance_id authority))
         || negb (bool_decide (cmd_session_id binding = sa_session_id authority))
         || negb (bool_decide (cmd_human_id binding = sa_human_id authority))
         || negb (cmd_auth_epoch binding =? sa_auth_epoch authority)%N
         || negb (cmd_policy_revision binding =? sa_policy_revision authority)%N
         || negb (bool_decide (cmd_session_authority_digest binding = authority_digest))
         || lacks expected (sa_granted_capabilities authority);
  let! workspace := load_workspace_transaction in
  stop StoreError.Invalid
    when negb (bool_decide (ow_workspace_id workspace = cmd_workspace_id binding))
         || negb (bool_decide (pn_principal_id (ow_human workspace) = cmd_human_id binding))
         || negb (ow_auth_epoch workspace =? cmd_auth_epoch binding)%N
         || negb (ow_policy_revision workspace =? cmd_policy_revision binding)%N
         || lacks expected (ow_capabilities workspace);
  ret (shape, workspace).

Definition command_content_digest (kind : ArtifactKind) (value : option json)
    : result StoreError.t ContentDigest :=
  let? canonical := ok_or (canonical_text value) StoreError.Invalid in
  Ok (digest kind canonical).

(** [UNIQUE (workspace_id, human_id, idempotency_key)] *)
Definition same_key (a b : CommandBinding) : bool :=
  bool_decide (cmd_workspace_id a = cmd_workspace_id b)
  && bool_decide (cmd_human_id a = cmd_human_id b)
  && bool_decide (cmd_idempotency_key a = cmd_idempotency_key b).

(** The clauses of [operator_commands]. *)
Definition command_admissible (envelope : CommandEnvelope) (shape : CommandShape)
    (x : CommandDb) : bool :=
  let binding := OperatorCommand.binding (cev_command envelope) in
  let d := cd_db x in
  negb (present (cd_commands x) (cmd_command_id binding))
  && no_other (cd_commands x) (cmd_command_id binding) (λ e,
       same_key (OperatorCommand.binding (cev_command e)) binding
       || bool_decide (cev_request_digest e = cev_request_digest envelope))
  && bool_decide (db_workspace d = Some (cmd_workspace_id binding))
  && present (db_principals d) (cmd_human_id binding)
  && present_opt (db_controls d) (sh_target_run_id shape)
  && present_opt (db_steps d) (sh_target_step_id shape)
  && present_opt (db_approval_requests d) (sh_approval_request_id shape)
  && present_opt (db_checkpoints d) (sh_expected_checkpoint_id shape)
  && present_opt (db_directives d) (sh_recovery_directive_id shape).

Definition insert_command_envelope (envelope : CommandEnvelope) (shape : CommandShape) : ctx () :=
  stop StoreError.Invalid
    when unsafe_revision [sh_expected_run_revision shape; sh_expected_step_revision shape;
                          sh_expected_control_revision shape;
                          sh_expected_checkpoint_sequence shape;
                          sh_expected_fence_epoch shape];
  let! _ := lift (json_column (envelope_value envelope)) in
  insert_into (command_admissible envelope shape)
    (λ x, with_commands
            (<[cmd_command_id (OperatorCommand.binding (cev_command envelope)) := envelope]>
               (cd_commands x)) x).

(** [s.strip_suffix(suffix)] *)
Fixpoint strip_text (suffix s : string) : option string :=
  if String.eqb s suffix then Some EmptyString
  else match s with
       | EmptyString => None
       | String c s' => String c <$> strip_text suffix s'
       end.

Definition persist_command_proof (proof : Proof_) (workspace : OperatorWorkspace)
    (expected_operation : string) (expected_id : Uuid)
    (input_digest output_digest : ContentDigest) (now : DateTime) : tx ProofReference :=
  let agent_id := pn_principal_id (ow_agent workspace) in
  let! principal := load_principal_record agent_id in
  let b := body proof in
  stop StoreError.Unavailable
    when negb (bool_decide (pr_kind principal = Agent))
         || negb (bool_decide (pb_id b = expected_id))
         || negb (bool_decide (pb_actor b = agent_id))
         || is_some (pb_delegation_id b)
         || negb (bool_decide (pb_operation b = expected_operation))
         || negb (bool_decide (pb_input_digest b = input_digest))
         || negb (bool_decide (pb_output_digest b = output_digest))
         || negb (bool_decide (pb_timestamp b = now))
         || is_some (pb_expires_at b)
         || is_err (Proof_verify proof (pr_public_key principal));
  let! _ := lift (json_column (Some (to_value proof))) in
  let! _ := sql (λ d, negb (present (db_proofs d) (pb_id b)) && present (db_principals d) (pb_actor b))
              (λ d, with_proofs (<[pb_id b := {| row_version := "v1"; row_proof := proof |}]>
                                   (db_proofs d)) d) in
  let! digest := lift (map_err (λ _, StoreError.Unavailable) (proof_digest proof)) in
  ret {| pf_proof_id := pb_id b; pf_actor_id := agent_id;
         pf_operation := default expected_operation (strip_text "::v1" expected_operation);
         pf_proof_digest := digest |}.

(** The clauses of [operator_command_receipts]. *)
Definition receipt_admissible (r : CommandReceipt) (x : CommandDb) : bool :=
  let d := cd_db x in
  negb (present (cd_receipts x) (rcp_receipt_id r))
  && no_other (cd_receipts x) (rcp_receipt_id r) (λ r',
       bool_decide (rcp_command_id r' = rcp_command_id r)
       || bool_decide (rcp_receipt_digest r' = rcp_receipt_digest r))
  && bool_decide (db_workspace d = Some (rcp_workspace_id r))
  && present (cd_commands x) (rcp_command_id r)
  && present_opt (cd_decisions x) (rcp_decision_id r)
  && present_opt (db_proofs d) (pf_proof_id <$> rcp_proof r)
  && existsb (λ e, bool_decide (ae_workspace_id e = rcp_workspace_id r)
                   && (ae_sequence e =? rcp_audit_sequence r)%N) (db_events d).

Definition insert_command_receipt (r : CommandReceipt) : ctx () :=
  let! _ := lift (corrupt (CommandReceipt_validate r)) in
  let! _ := lift (json_column (receipt_value r)) in
  insert_into (receipt_admissible r)
    (λ x, with_receipts (<[rcp_receipt_id r := r]> (cd_receipts x)) x).

Definition set_receipt_digest (digest : ControlDigest) (r : CommandReceipt) : CommandReceipt :=
  {| rcp_schema := rcp_schema r; rcp_receipt_id := rcp_receipt_id r;
     rcp_command_id := rcp_command_id r; rcp_idempotency_key := rcp_idempotency_key r;
     rcp_kind := rcp_kind r; rcp_outcome := rcp_outcome r;
     rcp_request_digest := rcp_request_digest r; rcp_workspace_id := rcp_workspace_id r;
     rcp_human_id := rcp_human_id r; rcp_target_run_id := rcp_target_run_id r;
     rcp_approval_request_id := rcp_approval_request_id r;
     rcp_observed_run_revision := rcp_observed_run_revision r;
     rcp_resulting_run_revision := rcp_resulting_run_revision r;
     rcp_resulting_step_revision := rcp_resulting_step_revision r;
     rcp_resulting_control_revision := rcp_resulting_control_revision r;
     rcp_resulting_fence_epoch := rcp_resulting_fence_epoch r;
     rcp_decision_id := rcp_decision_id r; rcp_decision_digest := rcp_decision_digest r;
     rcp_proof := rcp_proof r; rcp_audit_event_id := rcp_audit_event_id r;
     rcp_audit_sequence := rcp_audit_sequence r; rcp_audit_digest := rcp_audit_digest r;
     rcp_completed_at := rcp_completed_at r; rcp_receipt_digest := digest |}.

Definition finalize_receipt (r : CommandReceipt) : result StoreError.t CommandReceipt :=
  let? digest := digest_or_invalid (receipt_digest_of r) in
  let r := set_receipt_digest digest r in
  let? _ := corrupt (CommandReceipt_validate r) in
  Ok r.

(** ** Base64 without padding *)

Definition base64url_digit (byte : ascii) : option N :=
  let n := N_of_ascii byte in
  if (65 <=? n)%N && (n <=? 90)%N then Some (n - 65)%N
  else if (97 <=? n)%N && (n <=? 122)%N then Some (n - 97 + 26)%N
  else if (48 <=? n)%N && (n <=? 57)%N then Some (n - 48 + 52)%N
  else if (n =? 45)%N then Some 62%N
  else if (n =? 95)%N then Some 63%N
  else None.

(** [saturating_sub] *)
Definition low_mask (bits : N) : N := (N.shiftl 1 bits - 1)%N.

(** The loop over the bytes: the bytes put out, the accumulator and its size in bits. *)
Fixpoint decode_digits (value : string) (accumulator bits : N) : option (string * N * N) :=
  match value with
  | EmptyString => Some (EmptyString, accumulator, bits)
  | String byte rest =>
      digit ← base64url_digit byte;
      let accumulator := N.lor (N.land (N.shiftl accumulator 6) 4294967295) digit in
      let bits := (bits + 6)%N in
      if (8 <=? bits)%N then
        let bits := (bits - 8)%N in
        let byte := ascii_of_N (N.land (N.shiftr accumulator bits) 255) in
        '(output, accumulator, bits) ←
          decode_digits rest (N.land accumulator (low_mask bits)) bits;
        Some (String byte output, accumulator, bits)
      else decode_digits rest accumulator bits
  end.

Definition decode_base64url (value : string) : result StoreError.t string :=
  bail StoreError.Unavailable
    when bool_decide (value = EmptyString) || existsb (λ c, bool_decide (c = "="%char))
                                       (String.list_ascii_of_string value);
  let? decoded := ok_or (decode_digits value 0 0) StoreError.Unavailable in
  let '(output, accumulator, bits) := decoded in
  bail StoreError.Unavailable
    when (6 <=? bits)%N || negb (accumulator =? 0)%N
         || negb (bool_decide (base64url output = value));
  Ok output.

(** ** Parts of a command *)

Definition proof_operation_text (kind : CommandKind.t) : string :=
  match kind with
  | CommandKind.ApprovalDecide => "operator.approval_decide::v1"
  | CommandKind.RunCancel => "operator.run_cancel::v1"
  | CommandKind.RunResume => "operator.run_resume::v1"
  | CommandKind.SessionRevoke => "operator.session_revoke::v1"
  end.

Definition sign_command_transition (signer : OperatorSigner) (workspace : OperatorWorkspace)
    (envelope : CommandEnvelope) (outcome : ControlTransitionOutcome) (now : DateTime)
    : tx ProofReference :=
  let! _ := lift (corrupt (ControlTransitionOutcome_validate outcome)) in
  let! input_digest := lift (command_content_digest OperationInput (envelope_value envelope)) in
  let! output_digest := lift (command_content_digest OperationOutput (transition_value outcome)) in
  let! proof_id := operator_uuid store in
  let request :=
    {| psr_schema := "proof.operator.proof-signing-request/v1";
       psr_agent_id := pn_principal_id (ow_agent workspace); psr_command := envelope;
       psr_command_digest := cev_request_digest envelope; psr_input_digest := input_digest;
       psr_output_digest := output_digest; psr_proof_id := proof_id; psr_timestamp := now;
       psr_outcome := outcome |} in
  let! proof := lift (map_err (λ _, StoreError.Unavailable) (sign_operator_proof signer request)) in
  persist_command_proof proof workspace (proof_operation_text (command_kind (cev_command envelope)))
    proof_id input_digest output_digest now.

(** [UNIQUE (run_id, fence_epoch)] *)
Definition lease_at (run : Uuid) (fence_epoch : N) (d : Db) : option Uuid :=
  head (map fst (filter (λ kl, ls_run_id kl.2 = run ∧ ls_fence_epoch kl.2 = fence_epoch)
                   (map_to_list (db_leases d)))).

Definition load_command_lease (run : Uuid) (fence_epoch : N) (now : DateTime)
    (require_active : bool) : tx RunLease :=
  stop StoreError.Invalid when (MAX_SAFE_INTEGER <? fence_epoch)%N;
  let! id := query (λ d, ok_or (lease_at run fence_epoch d) StoreError.StaleFence) in
  let! id := lift (uuid_column id) in
  let! lease := load_lease id in
  stop StoreError.StaleFence
    when require_active && (negb (bool_decide (ls_state lease = LeaseState.Active))
                            || (ls_expires_at lease <=? now)%Z);
  ret lease.

(** [PendingConsequenceBody] *)
Definition consequence_body_value (c : PendingConsequence) : option json :=
  strict_object
    [("classification", text (consequence_classification_wire (pc_classification c)));
     ("summary", text (pc_summary c))].

Definition validate_decision (binding : ApprovalBinding) (request : SignedApprovalRequest)
    (decision : SignedApprovalDecision) : tx () :=
  let! human := load_principal_record (ad_decided_by (sd_body decision)) in
  let! _ := lift (corrupt (SignedApprovalDecision_verify decision human)) in
  stop StoreError.Corrupt
    when negb (bool_decide (ad_request_id (sd_body decision) = ar_id (sr_body request)));
  let! request_digest := lift (corrupt (SignedApprovalRequest_digest request)) in
  stop StoreError.Corrupt
    when negb (bool_decide (ad_request_digest (sd_body decision) = request_digest))
         || negb (bool_decide (ad_decided_by (sd_body decision) = ab_required_human_id binding));
  ret tt.

Definition validate_approval_record (binding : ApprovalBinding) (request : SignedApprovalRequest)
    (decision : option SignedApprovalDecision) : tx () :=
  let! argument_digest := lift (ok_or (control_digest_value "Proof-Operator-Approval-Argument-v1"
      (Some (JArray (map review_field_value (ab_review_fields binding))))) StoreError.Corrupt) in
  let! consequence_digest := lift (ok_or (control_digest_value
      "Proof-Operator-Approval-Consequence-v1"
      (consequence_body_value (ab_consequence binding))) StoreError.Corrupt) in
  let! binding_digest := lift (digest_or_invalid (digest_without_field
      "Proof-Operator-Approval-Binding-v1" (approval_binding_value binding) "binding_digest")) in
  stop StoreError.Corrupt
    when negb (bool_decide (ab_schema binding = APPROVAL_BINDING_SCHEMA))
         || not_all_v7 [ab_approval_request_id binding; ab_workspace_id binding;
                        ab_run_id binding; ab_step_id binding; ab_checkpoint_id binding;
                        ab_required_human_id binding]
         || negb (bool_decide (ab_approval_request_id binding = ar_id (sr_body request)))
         || negb (bool_decide (ab_input_digest binding = ar_input_digest (sr_body request)))
         || negb (bool_decide (ab_argument_digest binding = argument_digest))
         || negb (bool_decide (ab_consequence_digest binding = consequence_digest))
         || negb (bool_decide (pc_consequence_digest (ab_consequence binding)
                               = consequence_digest))
         || negb (bool_decide (ab_binding_digest binding = binding_digest));
  let! requester := load_principal_record (ar_requested_by (sr_body request)) in
  let! _ := lift (corrupt (SignedApprovalRequest_verify request requester)) in
  match decision with
  | None => ret tt
  | Some decision => validate_decision binding request decision
  end.

(** [LEFT JOIN approval_decisions], with [request_id] unique. *)
Definition decision_for (request : Uuid) (x : CommandDb) : option SignedApprovalDecision :=
  head (filter (λ d, ad_request_id (sd_body d) = request) (rows (cd_decisions x))).

Definition load_approval_bundle (request_id : Uuid)
    : ctx (ApprovalBinding * SignedApprovalRequest * option SignedApprovalDecision) :=
  let! row := select (λ x, ok_or (
      binding ← db_approvals (cd_db x) !! request_id;
      request ← db_approval_requests (cd_db x) !! request_id;
      Some (binding, request, decision_for request_id x)) StoreError.NotFound) in
  let '(binding, request, decision) := row in
  let! _ := tables (validate_approval_record binding request decision) in
  ret row.

(** [append_audit_event] fills in the event it is given: the event of the result is the
    one that was stored. *)
Definition record_event (event : AuditEvent) : tx AuditEvent :=
  let! _ := append_audit_event event in
  query (λ d, ok_or (last (db_events d)) StoreError.Unavailable).

(** The event of a command, with the fields of the lease where it has them. *)
Definition append_command_event (envelope : CommandEnvelope) (shape : CommandShape)
    (kind : AuditEventKind.t) (outcome : AuditOutcome.t) (fields : EventFields)
    (applied : bool) (proof : option ProofReference) (now : DateTime) : tx AuditEvent :=
  let workspace := cmd_workspace_id (OperatorCommand.binding (cev_command envelope)) in
  let! event_id := operator_uuid store in
  record_event (populate_command_event (event_base workspace event_id kind outcome now fields)
                  envelope shape applied proof).

(** The fields of a receipt that differ between commands. *)
Record ReceiptFields := {
  rf_target_run_id : option Uuid;
  rf_approval_request_id : option Uuid;
  rf_observed_run_revision : option N;
  rf_resulting_run_revision : option N;
  rf_resulting_step_revision : option N;
  rf_resulting_control_revision : option N;
  rf_resulting_fence_epoch : option N;
  rf_decision_id : option Uuid;
  rf_decision_digest : option ContentDigest;
}.

Definition receipt_of (envelope : CommandEnvelope) (receipt_id : Uuid)
    (outcome : CommandOutcome.t) (f : ReceiptFields) (proof : option ProofReference)
    (event : AuditEvent) (now : DateTime) : CommandReceipt :=
  let binding := OperatorCommand.binding (cev_command envelope) in
  {| rcp_schema := COMMAND_RECEIPT_SCHEMA; rcp_receipt_id := receipt_id;
     rcp_command_id := cmd_command_id binding;
     rcp_idempotency_key := cmd_idempotency_key binding;
     rcp_kind := command_kind (cev_command envelope); rcp_outcome := outcome;
     rcp_request_digest := cev_request_digest envelope;
     rcp_workspace_id := cmd_workspace_id binding; rcp_human_id := cmd_human_id binding;
     rcp_target_run_id := rf_target_run_id f;
     rcp_approval_request_id := rf_approval_request_id f;
     rcp_observed_run_revision := rf_observed_run_revision f;
     rcp_resulting_run_revision := rf_resulting_run_revision f;
     rcp_resulting_step_revision := rf_resulting_step_revision f;
     rcp_resulting_control_revision := rf_resulting_control_revision f;
     rcp_resulting_fence_epoch := rf_resulting_fence_epoch f;
     rcp_decision_id := rf_decision_id f; rcp_decision_digest := rf_decision_digest f;
     rcp_proof := proof; rcp_audit_event_id := ae_event_id event;
     rcp_audit_sequence := ae_sequence event; rcp_audit_digest := ae_event_digest event;
     rcp_completed_at := now; rcp_receipt_digest := zero_control |}.

Definition RESULT_SCHEMA : string := "proof.operator.command-result/v1".

Definition command_result (outcome : CommandResultOutcome.t) (receipt : CommandReceipt)
    : CommandResult :=
  {| crs_schema := RESULT_SCHEMA; crs_outcome := outcome; crs_receipt := receipt |}.

(** The end of every command: the receipt is sealed and stored. *)
Definition finish (envelope : CommandEnvelope) (outcome : CommandOutcome.t) (f : ReceiptFields)
    (proof : option ProofReference) (event : AuditEvent) (now : DateTime)
    : ctx (result StoreError.t CommandResult) :=
  let! receipt_id := tables (operator_uuid store) in
  let! receipt := lift (finalize_receipt
                          (receipt_of envelope receipt_id outcome f proof event now)) in
  let! _ := insert_command_receipt receipt in
  ret (Ok (command_result
             match outcome with
             | CommandOutcome.AlreadyTerminal => CommandResultOutcome.AlreadyTerminal
             | CommandOutcome.Applied => CommandResultOutcome.Applied
             end receipt)).

(** What was applied, with the fields that differ between commands. *)
Definition transition_of (envelope : CommandEnvelope) (operation : OperatorProofOperation.t)
    (f : ReceiptFields) (now : DateTime) : ControlTransitionOutcome :=
  {| cto_schema := TRANSITION_SCHEMA;
     cto_command_id := cmd_command_id (OperatorCommand.binding (cev_command envelope));
     cto_kind := command_kind (cev_command envelope); cto_outcome := AppliedOnly;
     cto_proof_operation := operation; cto_target_run_id := rf_target_run_id f;
     cto_approval_request_id := rf_approval_request_id f;
     cto_resulting_run_revision := rf_resulting_run_revision f;
     cto_resulting_step_revision := rf_resulting_step_revision f;
     cto_resulting_control_revision := rf_resulting_control_revision f;
     cto_resulting_fence_epoch := rf_resulting_fence_epoch f;
     cto_decision_digest := rf_decision_digest f; cto_completed_at := now |}.

(** The end of an applied command: it is proved, recorded and receipted.  [completion] is
    what is recorded before the event of the command. *)
Definition conclude (signer : OperatorSigner) (workspace : OperatorWorkspace)
    (envelope : CommandEnvelope) (shape : CommandShape) (operation : OperatorProofOperation.t)
    (kind : AuditEventKind.t) (fields : EventFields) (completion : tx ()) (f : ReceiptFields)
    (now : DateTime) : ctx (result StoreError.t CommandResult) :=
  let! proof := tables (sign_command_transition signer workspace envelope
                          (transition_of envelope operation f now) now) in
  let! _ := tables completion in
  let! event := tables (append_command_event envelope shape kind AuditOutcome.Accepted fields
                          true (Some proof) now) in
  finish envelope CommandOutcome.Applied f (Some proof) event now.

(** ** Deciding an approval *)

Definition expired_approval_event (workspace event_id run request : Uuid) (now : DateTime)
    : AuditEvent :=
  {| ae_schema := AUDIT_EVENT_SCHEMA; ae_workspace_id := workspace; ae_event_id := event_id;
     ae_sequence := 1; ae_kind := AuditEventKind.ApprovalExpired;
     ae_outcome := AuditOutcome.Expired; ae_previous_digest := None;
     ae_event_digest := zero_control; ae_human_id := None; ae_session_id := None;
     ae_challenge_id := None; ae_challenge_digest := None;
     ae_session_authority_digest := None; ae_related_session_id := None;
     ae_server_instance_id := None; ae_run_id := Some run;
     ae_approval_request_id := Some request; ae_command_id := None; ae_command_kind := None;
     ae_budget_id := None; ae_reservation_id := None; ae_lease_id := None;
     ae_source_lease_id := None; ae_process_epoch_id := None; ae_permit_id := None;
     ae_recovery_directive_id := None; ae_fence_epoch := None; ae_auth_epoch := None;
     ae_policy_revision := None; ae_intent_digest := None; ae_call_digest := None;
     ae_decision_digest := None; ae_recovery_directive_digest := None;
     ae_failure_scope := None; ae_proof := None; ae_occurred_at := now |}.

Definition expired_approval (command : ApprovalDecisionCommand) (now : DateTime) : tx () :=
  let! event_id := operator_uuid store in
  append_audit_event (expired_approval_event (cmd_workspace_id (adc_binding command)) event_id
                        (adc_run_id command) (adc_approval_request_id command) now).

(** The signer's decision, and that the human of the command signed it. *)
Definition signed_decision (signer : OperatorSigner) (command : ApprovalDecisionCommand)
    (approval : ApprovalBinding) (decision_id : Uuid) (now : DateTime)
    : tx (SignedDecisionResult * SignedApprovalDecision) :=
  let binding := adc_binding command in
  let! signed := lift (map_err (λ _, StoreError.Unavailable) (sign_approval signer
    {| asr_schema := "proof.operator.approval-signing-request/v1";
       asr_command_id := cmd_command_id binding; asr_decision_id := decision_id;
       asr_authenticated_human_id := cmd_human_id binding; asr_approval_binding := approval;
       asr_signed_request_digest := adc_expected_request_digest command;
       asr_outcome := adc_outcome command; asr_validated_at := now |})) in
  stop StoreError.Unavailable
    when negb (bool_decide (sdr_schema signed = "proof.operator.signed-decision-result/v1"));
  let! signature := lift (decode_base64url (sdr_signature signed)) in
  let decision :=
    {| sd_body :=
         {| ad_id := decision_id; ad_request_id := adc_approval_request_id command;
            ad_request_digest := adc_expected_request_digest command;
            ad_outcome := match adc_outcome command with
                          | DecisionOutcome.Approved => Approved
                          | DecisionOutcome.Denied => Denied
                          end;
            ad_decided_by := cmd_human_id binding; ad_decided_at := now; ad_reason := None |};
       sd_signature := signature |} in
  let! human := load_principal_record (cmd_human_id binding) in
  let! decision_digest := lift (map_err (λ _, StoreError.Unavailable)
                                  (SignedApprovalDecision_digest decision)) in
  stop StoreError.Unavailable
    when negb (bool_decide (decision_digest = sdr_decision_digest signed))
         || is_err (SignedApprovalDecision_verify decision human);
  ret (signed, decision).

(** The clauses of [approval_decisions]. *)
Definition decision_admissible (d : SignedApprovalDecision) (x : CommandDb) : bool :=
  negb (present (cd_decisions x) (ad_id (sd_body d)))
  && no_other (cd_decisions x) (ad_id (sd_body d)) (λ d',
       bool_decide (ad_request_id (sd_body d') = ad_request_id (sd_body d)))
  && present (db_approval_requests (cd_db x)) (ad_request_id (sd_body d))
  && present (db_principals (cd_db x)) (ad_decided_by (sd_body d)).

Definition insert_decision (d : SignedApprovalDecision) : ctx () :=
  let! _ := lift (json_column (Some (to_value d))) in
  insert_into (decision_admissible d)
    (λ x, with_decisions (<[ad_id (sd_body d) := d]> (cd_decisions x)) x).

Definition decide_approval (signer : OperatorSigner) (workspace : OperatorWorkspace)
    (envelope : CommandEnvelope) (shape : CommandShape) (command : ApprovalDecisionCommand)
    (now : DateTime) : ctx (result StoreError.t CommandResult) :=
  let binding := adc_binding command in
  let request_id := adc_approval_request_id command in
  let! control := tables (load_control (adc_run_id command)) in
  let! run := tables (load_agent_run_exact (adc_run_id command)) in
  let! step := tables (load_agent_step_exact (adc_step_id command)) in
  let! checkpoint := tables (load_latest_checkpoint_identity (adc_run_id command)) in
  let! bundle := load_approval_bundle request_id in
  let '(approval, request, existing) := bundle in
  let! _ := tables (load_command_lease (adc_run_id command) (adc_expected_fence_epoch command)
                      now true) in
  if (ar_expires_at (sr_body request) <=? now)%Z then
    let! _ := tables (expired_approval command now) in
    ret (Err StoreError.NotActionable)
  else
    stop StoreError.NotActionable
      when is_some existing
           || negb (bool_decide (run_status run = RunStatus.WaitingForInput))
           || negb (bool_decide (step_status step = StepStatus.WaitingForApproval))
           || negb (bool_decide (step_approval_request_id step = Some request_id))
           || negb (bool_decide (ab_run_id approval = run_id run))
           || negb (bool_decide (ab_step_id approval = step_id step))
           || negb (bool_decide (ab_required_human_id approval = cmd_human_id binding));
    let! request_digest := lift (corrupt (SignedApprovalRequest_digest request)) in
    stop StoreError.NotActionable
      when negb (bool_decide (request_digest = adc_expected_request_digest command))
           || negb (run_revision run =? adc_expected_run_revision command)%N
           || negb (step_revision step =? adc_expected_step_revision command)%N
           || negb (ctl_control_revision control =? adc_expected_control_revision command)%N
           || negb (bool_decide (checkpoint
                = (adc_expected_checkpoint_id command, adc_expected_checkpoint_sequence command,
                   adc_expected_checkpoint_digest command)));
    let! _ := insert_command_envelope envelope shape in
    let! decision_id := tables (operator_uuid store) in
    let! answer := tables (signed_decision signer command approval decision_id now) in
    let '(signed, decision) := answer in
    let! _ := insert_decision decision in
    let control := set_last_command (cmd_command_id binding) (ctl_recovery_directive_id control)
                     (ctl_recovery_directive_digest control) control in
    let! control := tables (advance store control (adc_expected_fence_epoch command) now) in
    conclude signer workspace envelope (with_decision (sdr_decision_digest signed) shape)
      OperatorProofOperation.ApprovalDecide AuditEventKind.ApprovalDecided no_fields (ret tt)
      {| rf_target_run_id := Some (run_id run); rf_approval_request_id := Some request_id;
         rf_observed_run_revision := Some (run_revision run);
         rf_resulting_run_revision := Some (run_revision run);
         rf_resulting_step_revision := Some (step_revision step);
         rf_resulting_control_revision := Some (ctl_control_revision control);
         rf_resulting_fence_epoch := Some (adc_expected_fence_epoch command);
         rf_decision_id := Some decision_id;
         rf_decision_digest := Some (sdr_decision_digest signed) |} now.

(** ** Cancelling a run *)

(** [state='reserved'] *)
Definition reserved_of (run : Uuid) (d : Db) : option Uuid :=
  head (map fst (filter (λ kr, br_run_id kr.2 = run ∧ br_state kr.2 = ReservationState.Reserved)
                   (map_to_list (db_reservations d)))).

Definition release_reserved (control : RunControl) (lease : RunLease) (run : Uuid)
    (now : DateTime) : tx () :=
  let! reserved := query (λ d, Ok (reserved_of run d)) in
  match reserved with
  | None => ret tt
  | Some id =>
      let! id := lift (uuid_column id) in
      let! r := load_reservation id in
      let! budget := load_budget (br_budget_id r) in
      let! released := release_reservation r budget now in
      let '(r, _) := released in
      append_budget_event store control lease (br_reservation_id r) (br_intent_digest r)
        AuditEventKind.BudgetReleased AuditOutcome.Accepted now
  end.

(** [run.cancel(now)] and its row. *)
Definition cancel_row (run : AgentRun) (now : DateTime) : tx AgentRun :=
  let '(r, cancelled) := run_cancel now run in
  let! _ := lift (corrupt r) in
  let! _ := update_agent_run_exact cancelled (run_revision run) in
  ret cancelled.

Definition cancel_run (signer : OperatorSigner) (workspace : OperatorWorkspace)
    (envelope : CommandEnvelope) (shape : CommandShape) (command : RunCancelCommand)
    (now : DateTime) : ctx (result StoreError.t CommandResult) :=
  let! control := tables (load_control (rcc_run_id command)) in
  let! run := tables (load_agent_run_exact (rcc_run_id command)) in
  let! lease := tables (load_command_lease (rcc_run_id command) (rcc_expected_fence_epoch command)
                          now (negb (RunStatus.is_terminal (run_status run)))) in
  stop StoreError.StaleRevision
    when negb (run_revision run =? rcc_expected_run_revision command)%N
         || negb (ctl_control_revision control =? rcc_expected_control_revision command)%N;
  stop StoreError.NotActionable when is_some (ctl_active_dispatch_reservation_id control);
  let! _ := insert_command_envelope envelope shape in
  let fields revision control :=
    {| rf_target_run_id := Some (run_id run); rf_approval_request_id := None;
       rf_observed_run_revision := Some (run_revision run);
       rf_resulting_run_revision := Some revision; rf_resulting_step_revision := None;
       rf_resulting_control_revision := Some (ctl_control_revision control);
       rf_resulting_fence_epoch := Some (ls_fence_epoch lease); rf_decision_id := None;
       rf_decision_digest := None |} in
  if RunStatus.is_terminal (run_status run) then
    let! event := tables (append_command_event envelope shape AuditEventKind.CommandRejected
                            AuditOutcome.Rejected no_fields false None now) in
    finish envelope CommandOutcome.AlreadyTerminal (fields (run_revision run) control) None
      event now
  else
    let! _ := tables (release_reserved control lease (run_id run) now) in
    let! cancelled := tables (cancel_row run now) in
    let control := set_last_command (cmd_command_id (rcc_binding command))
                     (ctl_recovery_directive_id control) (ctl_recovery_directive_digest control)
                     control in
    let! control := tables (advance store control (ls_fence_epoch lease) now) in
    conclude signer workspace envelope shape OperatorProofOperation.RunCancel
      AuditEventKind.RunCancelled no_fields (ret tt) (fields (run_revision cancelled) control)
      now.

(** ** Resuming a run *)

(** How a run resumes: the new rows, the decision that allows it or the directive it
    recovers with. *)
Record Resumption := {
  re_run : AgentRun;
  re_step_revision : N;
  re_decision_id : option Uuid;
  re_recovery : option RecoveryDirective;
}.

Definition resume_with_approval (command : RunResumeCommand) (run : AgentRun)
    (step : AgentRunStep) (request_id : Uuid) (now : DateTime) : ctx Resumption :=
  let! bundle := load_approval_bundle request_id in
  let '(approval, request, decision) := bundle in
  let! decision := lift (ok_or decision StoreError.NotActionable) in
  let! decision_digest := lift (corrupt (SignedApprovalDecision_digest decision)) in
  stop StoreError.NotActionable
    when negb (bool_decide (run_status run = RunStatus.WaitingForInput))
         || negb (bool_decide (step_status step = StepStatus.WaitingForApproval))
         || negb (bool_decide (step_approval_request_id step = Some request_id))
         || negb (bool_decide (ab_run_id approval = run_id run))
         || negb (bool_decide (ab_step_id approval = step_id step))
         || (ar_expires_at (sr_body request) <? ad_decided_at (sd_body decision))%Z
         || negb (bool_decide (rrc_decision_digest command = Some decision_digest));
  let '((r, run'), (t, step')) :=
    match ad_outcome (sd_body decision) with
    | Approved => (run_resume now run, step_resume_from_approval now step)
    | Denied => (run_fail now run, AgentRun.step_fail "approval denied" now step)
    end in
  let! _ := lift (corrupt r) in
  let! _ := lift (corrupt t) in
  let! _ := tables (update_agent_step_exact step' (step_revision step)) in
  ret {| re_run := run'; re_step_revision := step_revision step';
         re_decision_id := Some (ad_id (sd_body decision)); re_recovery := None |}.

Definition resume_with_recovery (command : RunResumeCommand) (control : RunControl)
    (run : AgentRun) (step : AgentRunStep) (checkpoint : Uuid * N * ContentDigest)
    (directive_id : Uuid) (now : DateTime) : tx Resumption :=
  let! directive := load_recovery_directive directive_id in
  let! consumed := query (λ d, Ok (length (resume_events (run_id run) directive_id d))) in
  stop StoreError.NotActionable
    when negb (bool_decide (run_status run = RunStatus.Failed))
         || negb (bool_decide (rd_run_id directive = run_id run))
         || negb (bool_decide ((rd_checkpoint_id directive, rd_checkpoint_sequence directive,
                                rd_checkpoint_digest directive) = checkpoint))
         || negb (bool_decide (ctl_recovery_directive_id control = Some directive_id))
         || negb (bool_decide (ctl_recovery_directive_digest control
                               = Some (rd_directive_digest directive)))
         || negb (bool_decide (rrc_recovery_directive_digest command
                               = Some (rd_directive_digest directive)))
         || negb (consumed =? 0)%nat;
  let '(r, run') := run_resume now run in
  let! _ := lift (corrupt r) in
  ret {| re_run := run'; re_step_revision := step_revision step; re_decision_id := None;
         re_recovery := Some directive |}.

Definition recovery_completed (workspace : Uuid) (run : Uuid) (lease : RunLease)
    (recovery : option RecoveryDirective) (now : DateTime) : tx () :=
  match recovery with
  | None => ret tt
  | Some directive =>
      let! event_id := operator_uuid store in
      append_audit_event (event_base workspace event_id AuditEventKind.RecoveryCompleted
        AuditOutcome.Accepted now
        {| ef_server_instance_id := Some (ls_owner_instance_id lease); ef_run_id := Some run;
           ef_budget_id := None; ef_reservation_id := Some (rd_source_reservation_id directive);
           ef_lease_id := Some (ls_lease_id lease);
           ef_source_lease_id := Some (rd_source_lease_id directive);
           ef_process_epoch_id := Some (ls_process_epoch_id lease); ef_permit_id := None;
           ef_recovery_directive_id := Some (rd_directive_id directive);
           ef_fence_epoch := Some (ls_fence_epoch lease);
           ef_intent_digest := Some (rd_intent_digest directive); ef_call_digest := None;
           ef_recovery_directive_digest := Some (rd_directive_digest directive);
           ef_failure_scope := None; ef_proof := None |})
  end.

(** [event.lease_id], [event.process_epoch_id] and [event.fence_epoch] of a recovery. *)
Definition resumed_fields (lease : RunLease) (recovery : option RecoveryDirective) : EventFields :=
  match recovery with
  | None => no_fields
  | Some _ =>
      {| ef_server_instance_id := None; ef_run_id := None; ef_budget_id := None;
         ef_reservation_id := None; ef_lease_id := Some (ls_lease_id lease);
         ef_source_lease_id := None;
         ef_process_epoch_id := Some (ls_process_epoch_id lease); ef_permit_id := None;
         ef_recovery_directive_id := None; ef_fence_epoch := Some (ls_fence_epoch lease);
         ef_intent_digest := None; ef_call_digest := None;
         ef_recovery_directive_digest := None; ef_failure_scope := None; ef_proof := None |}
  end.

Definition resume_run (signer : OperatorSigner) (workspace : OperatorWorkspace)
    (envelope : CommandEnvelope) (shape : CommandShape) (command : RunResumeCommand)
    (now : DateTime) : ctx (result StoreError.t CommandResult) :=
  let binding := rrc_binding command in
  let! control := tables (load_control (rrc_run_id command)) in
  let! run := tables (load_agent_run_exact (rrc_run_id command)) in
  let! step := tables (load_agent_step_exact (rrc_step_id command)) in
  let! checkpoint := tables (load_latest_checkpoint_identity (rrc_run_id command)) in
  let! lease := tables (load_command_lease (rrc_run_id command)
                          (rrc_expected_fence_epoch command) now true) in
  stop StoreError.StaleRevision
    when negb (run_revision run =? rrc_expected_run_revision command)%N
         || negb (step_revision step =? rrc_expected_step_revision command)%N
         || negb (ctl_control_revision control =? rrc_expected_control_revision command)%N
         || negb (bool_decide (checkpoint
              = (rrc_expected_checkpoint_id command, rrc_expected_checkpoint_sequence command,
                 rrc_expected_checkpoint_digest command)))
         || is_some (ctl_active_dispatch_reservation_id control);
  let! resumption :=
    match rrc_approval_request_id command, rrc_recovery_directive_id command with
    | Some request_id, None => resume_with_approval command run step request_id now
    | None, Some directive_id =>
        tables (resume_with_recovery command control run step checkpoint directive_id now)
    | _, _ => throw StoreError.Invalid
    end in
  let recovery := re_recovery resumption in
  let control :=
    match recovery with
    | Some _ => set_last_command (cmd_command_id binding) None None control
    | None => set_last_command (cmd_command_id binding) (ctl_recovery_directive_id control)
                (ctl_recovery_directive_digest control) control
    end in
  let! _ := insert_command_envelope envelope shape in
  let! _ := tables (update_agent_run_exact (re_run resumption) (run_revision run)) in
  let! control := tables (advance store control (ls_fence_epoch lease) now) in
  conclude signer workspace envelope shape OperatorProofOperation.RunResume
    AuditEventKind.RunResumed (resumed_fields lease recovery)
    (recovery_completed (cmd_workspace_id binding) (run_id run) lease recovery now)
    {| rf_target_run_id := Some (run_id run);
       rf_approval_request_id := rrc_approval_request_id command;
       rf_observed_run_revision := Some (run_revision run);
       rf_resulting_run_revision := Some (run_revision (re_run resumption));
       rf_resulting_step_revision := Some (re_step_revision resumption);
       rf_resulting_control_revision := Some (ctl_control_revision control);
       rf_resulting_fence_epoch := Some (ls_fence_epoch lease);
       rf_decision_id := re_decision_id resumption;
       rf_decision_digest := rrc_decision_digest command |} now.

(** ** Revoking a session *)

Definition revoke_session (signer : OperatorSigner) (workspace : OperatorWorkspace)
    (envelope : CommandEnvelope) (shape : CommandShape) (now : DateTime)
    : ctx (result StoreError.t CommandResult) :=
  let! _ := insert_command_envelope envelope shape in
  conclude signer workspace envelope shape OperatorProofOperation.SessionRevoke
    AuditEventKind.SessionRevoked no_fields (ret tt)
    {| rf_target_run_id := None; rf_approval_request_id := None;
       rf_observed_run_revision := None; rf_resulting_run_revision := None;
       rf_resulting_step_revision := None; rf_resulting_control_revision := None;
       rf_resulting_fence_epoch := None; rf_decision_id := None; rf_decision_digest := None |}
    now.

(** ** Executing a command *)

(** The command stored under the key of [binding], with its receipt. *)
Definition stored_command (binding : CommandBinding) (x : CommandDb)
    : option (CommandEnvelope * Uuid * CommandReceipt) :=
  head (envelope ← filter (λ e, same_key (OperatorCommand.binding (cev_command e)) binding = true)
                     (rows (cd_commands x));
        kr ← filter (λ kr, rcp_command_id kr.2
                           = cmd_command_id (OperatorCommand.binding (cev_command envelope)))
               (map_to_list (cd_receipts x));
        [(envelope, kr.1, kr.2)]).

Definition validate_command_receipt_binding (receipt : CommandReceipt)
    (envelope : CommandEnvelope) (receipt_id : Uuid) : result StoreError.t () :=
  let? _ := corrupt (CommandReceipt_validate receipt) in
  let? _ := validate_operator_command (cev_command envelope) in
  let binding := OperatorCommand.binding (cev_command envelope) in
  let? expected_digest := ok_or (command_digest_of (cev_command envelope)) StoreError.Corrupt in
  bail StoreError.Corrupt
    when negb (bool_decide (cev_schema envelope = COMMAND_ENVELOPE_SCHEMA))
         || negb (bool_decide (cev_request_digest envelope = expected_digest))
         || negb (bool_decide (rcp_request_digest receipt = expected_digest))
         || negb (bool_decide (rcp_receipt_id receipt = receipt_id))
         || negb (bool_decide (rcp_command_id receipt = cmd_command_id binding))
         || negb (bool_decide (rcp_idempotency_key receipt = cmd_idempotency_key binding))
         || negb (bool_decide (rcp_workspace_id receipt = cmd_workspace_id binding))
         || negb (bool_decide (rcp_human_id receipt = cmd_human_id binding))
         || negb (bool_decide (rcp_kind receipt = command_kind (cev_command envelope)));
  Ok ().

Definition envelope_of (command : OperatorCommand.t) (request_digest : ControlDigest)
    (now : DateTime) : CommandEnvelope :=
  {| cev_schema := COMMAND_ENVELOPE_SCHEMA; cev_command := command;
     cev_request_digest := request_digest;
     cev_required_capabilities := expected_command_capabilities (command_kind command);
     cev_requested_at := now |}.

(** The key has been used: the same command gets its receipt, another is refused. *)
Definition execute_again (request : CommandExecutionRequest) (shape : CommandShape)
    (request_digest : ControlDigest) (envelope : CommandEnvelope) (receipt_id : Uuid)
    (receipt : CommandReceipt) : ctx (result StoreError.t CommandResult) :=
  if bool_decide (cev_request_digest envelope = request_digest) then
    stop StoreError.Corrupt
      when negb (bool_decide (cev_command envelope = cer_command request))
           || (MAX_SAFE_INTEGER <? rcp_audit_sequence receipt)%N;
    let! receipt_id := lift (uuid_column receipt_id) in
    let! _ := lift (validate_command_receipt_binding receipt envelope receipt_id) in
    ret (Ok (command_result CommandResultOutcome.ExactReplay receipt))
  else
    let! now := lift (operator_now store) in
    let! _ := tables (append_command_event (envelope_of (cer_command request) request_digest now)
                        shape AuditEventKind.CommandConflict AuditOutcome.Conflict no_fields
                        false None now) in
    ret (Err StoreError.Conflict).

Definition execute_new (signer : OperatorSigner) (request : CommandExecutionRequest)
    (shape : CommandShape) (workspace : OperatorWorkspace) (request_digest : ControlDigest)
    : ctx (result StoreError.t CommandResult) :=
  let! now := lift (operator_now store) in
  stop StoreError.NotActionable
    when (sa_absolute_expires_at (oms_session_authority (cer_scope request)) <=? now)%Z;
  let envelope := envelope_of (cer_command request) request_digest now in
  match cer_command request with
  | OperatorCommand.ApprovalDecision command =>
      decide_approval signer workspace envelope shape command now
  | OperatorCommand.RunCancel command => cancel_run signer workspace envelope shape command now
  | OperatorCommand.RunResume command => resume_run signer workspace envelope shape command now
  | OperatorCommand.SessionRevoke _ => revoke_session signer workspace envelope shape now
  end.

Definition execute_operator_command (request : CommandExecutionRequest) (signer : OperatorSigner)
    : ctx CommandResult :=
  let! _ := lift (operator_context store) in
  command_transaction (
    let! scope := validate_command_scope request in
    let '(shape, workspace) := scope in
    let! request_digest := lift (command_request_digest (cer_command request)) in
    let! existing := select (λ x, Ok (stored_command
                               (OperatorCommand.binding (cer_command request)) x)) in
    match existing with
    | Some (envelope, receipt_id, receipt) =>
        execute_again request shape request_digest envelope receipt_id receipt
    | None => execute_new signer request shape workspace request_digest
    end).

End commands.

(** ** Registering a run *)

Record InitialRunProjectionInput := {
  ip_schema : string;
  ip_workspace_id : Uuid;
  ip_run_id : Uuid;
  ip_source_run_revision : N;
  ip_checkpoint_id : Uuid;
  ip_checkpoint_sequence : N;
  ip_checkpoint_digest : ContentDigest;
  ip_run_status : RunStatus.t;
}.

Record RegisterGovernedRunRequest := {
  rg_schema : string;
  rg_workspace_id : Uuid;
  rg_run_id : Uuid;
  rg_budget_id : Uuid;
  rg_initial_projection : InitialRunProjectionInput;
}.

Inductive CreationOutcome : Type := Created | ExactExisting.

Record RegisterGovernedRunResult := {
  rgx_schema : string;
  rgx_outcome : CreationOutcome;
  rgx_run_id : Uuid;
  rgx_control_revision : N;
  rgx_run_control : RunControl;
  rgx_initial_projection : RunProjection;
}.

Section registration.
Context `{Externals} `{OperatorExternals}.
Context (store : option OperatorStoreContext).

Definition validate_register_request (q : RegisterGovernedRunRequest) : result StoreError.t () :=
  let p := rg_initial_projection q in
  bail StoreError.Invalid
    when negb (bool_decide (rg_schema q = "proof.operator.register-governed-run-request/v1"))
         || negb (bool_decide (ip_schema p = "proof.operator.initial-run-projection-input/v1"))
         || not_all_v7 [rg_workspace_id q; rg_run_id q; rg_budget_id q; ip_workspace_id p;
                        ip_run_id p; ip_checkpoint_id p]
         || negb (bool_decide (rg_workspace_id q = ip_workspace_id p))
         || negb (bool_decide (rg_run_id q = ip_run_id p))
         || (MAX_SAFE_INTEGER <? ip_source_run_revision p)%N
         || (MAX_SAFE_INTEGER <? ip_checkpoint_sequence p)%N;
  Ok ().

(** [ORDER BY p.projection_sequence ASC LIMIT 1] *)
Definition first_projection (run : Uuid) (d : Db) : option RunProjection :=
  best (λ a b, pj_projection_sequence a <? pj_projection_sequence b)%N
    (filter (λ p, pj_run_id p = run) (db_projections d)).

Definition registered (run : Uuid) (d : Db) : option (RunControl * RunProjection) :=
  control ← db_controls d !! run;
  projection ← first_projection run d;
  Some (control, projection).

Definition registration_differs (q : RegisterGovernedRunRequest) (control : RunControl)
    (p : RunProjection) : bool :=
  let i := rg_initial_projection q in
  negb (bool_decide (ctl_run_id control = rg_run_id q))
  || negb (bool_decide (ctl_workspace_id control = rg_workspace_id q))
  || negb (bool_decide (ctl_budget_id control = rg_budget_id q))
  || negb (bool_decide (pj_run_id p = rg_run_id q))
  || negb (bool_decide (pj_workspace_id p = rg_workspace_id q))
  || negb (pj_source_run_revision p =? ip_source_run_revision i)%N
  || negb (bool_decide (pj_checkpoint_id p = ip_checkpoint_id i))
  || negb (pj_checkpoint_sequence p =? ip_checkpoint_sequence i)%N
  || negb (bool_decide (pj_checkpoint_digest p = ip_checkpoint_digest i))
  || negb (bool_decide (pj_run_status p = ip_run_status i)).

Definition initial_control (q : RegisterGovernedRunRequest) (now : DateTime)
    (digest : ControlDigest) : RunControl :=
  {| ctl_schema := CONTROL_SCHEMA; ctl_run_id := rg_run_id q;
     ctl_workspace_id := rg_workspace_id q; ctl_budget_id := rg_budget_id q;
     ctl_control_revision := 0; ctl_active_dispatch_reservation_id := None;
     ctl_recovery_directive_id := None; ctl_recovery_directive_digest := None;
     ctl_last_command_id := None; ctl_created_at := now; ctl_updated_at := now;
     ctl_binding_digest := digest |}.

Definition initial_projection (q : RegisterGovernedRunRequest) (run : AgentRun)
    (projection_id : Uuid) (sequence : N) (now : DateTime) (digest : ControlDigest)
    : RunProjection :=
  let i := rg_initial_projection q in
  {| pj_schema := PROJECTION_SCHEMA; pj_projection_id := projection_id;
     pj_projection_sequence := sequence; pj_projection_revision := 0;
     pj_workspace_id := rg_workspace_id q; pj_run_id := rg_run_id q;
     pj_source_run_revision := run_revision run; pj_source_control_revision := 0;
     pj_checkpoint_id := ip_checkpoint_id i;
     pj_checkpoint_sequence := ip_checkpoint_sequence i;
     pj_checkpoint_digest := ip_checkpoint_digest i; pj_fence_epoch := 0;
     pj_run_status := run_status run; pj_attention := AttentionState.Running;
     pj_required_human_id := None; pj_approval_request_id := None;
     pj_recovery_directive_id := None; pj_recovery_directive_digest := None;
     pj_projected_at := now; pj_snapshot_digest := digest |}.

(** The clauses of [operator_run_control]. *)
Definition control_admissible (c : RunControl) (d : Db) : bool :=
  negb (present (db_controls d) (ctl_run_id c))
  && no_other (db_controls d) (ctl_run_id c)
       (λ c', bool_decide (ctl_binding_digest c' = ctl_binding_digest c))
  && present (db_runs d) (ctl_run_id c)
  && bool_decide (db_workspace d = Some (ctl_workspace_id c))
  && present (db_budgets d) (ctl_budget_id c).

Definition insert_run_control (c : RunControl) : tx () :=
  let! _ := lift (json_column (control_record_value c)) in
  sql (control_admissible c)
      (λ d, with_controls (<[ctl_run_id c := c]> (db_controls d)) d).

Definition register_result (outcome : CreationOutcome) (run : Uuid) (control : RunControl)
    (projection : RunProjection) : RegisterGovernedRunResult :=
  {| rgx_schema := "proof.operator.register-governed-run-result/v1"; rgx_outcome := outcome;
     rgx_run_id := run; rgx_control_revision := ctl_control_revision control;
     rgx_run_control := control; rgx_initial_projection := projection |}.

Definition register_new (q : RegisterGovernedRunRequest)
    : tx (result StoreError.t RegisterGovernedRunResult) :=
  let i := rg_initial_projection q in
  let! run := query (λ d, ok_or (db_runs d !! rg_run_id q) StoreError.NotFound) in
  let! checkpoint := query (λ d, ok_or (
      c ← db_checkpoints d !! ip_checkpoint_id i;
      if bool_decide (cp_run_id c = rg_run_id q)
         && (cp_sequence c =? ip_checkpoint_sequence i)%N then Some c else None)
      StoreError.NotFound) in
  stop StoreError.Invalid
    when negb (bool_decide (run_id run = rg_run_id q))
         || negb (run_revision run =? ip_source_run_revision i)%N
         || negb (bool_decide (run_status run = ip_run_status i))
         || match run_status run with
            | RunStatus.Queued | RunStatus.Running => false
            | _ => true
            end
         || negb (bool_decide (cp_state_digest checkpoint = ip_checkpoint_digest i));
  let! workspace := query (λ d, ok_or (db_workspace d) StoreError.Unavailable) in
  stop StoreError.Invalid when negb (bool_decide (workspace = rg_workspace_id q));
  let! budget := query (λ d, Ok (is_some_and (db_budgets d !! rg_budget_id q)
      (λ b, bool_decide (bl_workspace_id (ba_policy b) = rg_workspace_id q)))) in
  stop StoreError.Invalid when negb budget;
  let! now := lift (operator_now store) in
  let! digest := lift (digest_or_invalid
                         (control_digest_of (initial_control q now zero_control))) in
  let control := initial_control q now digest in
  let! _ := lift (invalid (RunControl_validate control)) in
  let! projection_id := operator_uuid store in
  let! sequence := query (λ d, Ok (foldr N.max 0%N (map pj_projection_sequence
                             (db_projections d)) + 1)%N) in
  stop StoreError.Corrupt when (MAX_SAFE_INTEGER <? sequence)%N;
  let! digest := lift (digest_or_invalid (snapshot_digest_of
                   (initial_projection q run projection_id sequence now zero_control))) in
  let projection := initial_projection q run projection_id sequence now digest in
  let! _ := lift (invalid (RunProjection_validate projection)) in
  let! _ := insert_run_control control in
  let! _ := insert_projection projection in
  ret (Ok (register_result Created (rg_run_id q) control projection)).

Definition register_governed_run (q : RegisterGovernedRunRequest) : tx RegisterGovernedRunResult :=
  let! _ := lift (operator_context store) in
  let! _ := lift (validate_register_request q) in
  transaction (
    let! existing := query (λ d, Ok (registered (rg_run_id q) d)) in
    match existing with
    | Some (control, projection) =>
        stop StoreError.Conflict when registration_differs q control projection;
        ret (Ok (register_result ExactExisting (rg_run_id q) control projection))
    | None => register_new q
    end).

End registration.
