(* ===== verification/Base64Decode.v ===== *)
(** * The reader of signatures

    [decode_base64url] reads the signature that a signer returns for an approval
    decision: it shifts six bits per character into a 32-bit accumulator and takes bytes
    off its top.  [decode_base64url_exact] shows that it reads exactly the texts of the
    encoder [base64url], so that a signature has one text. *)

From S2P Require Import Prelude RustStr Externals Json OperatorCommon Base64 RuntimeStore CommandStore.
From stdpp Require Import options.

Lemma digit_letter (n : N) : (n < 64)%N → base64url_digit (letter n) = Some n.
Proof.
  intros L. assert (forallb (λ k, bool_decide (base64url_digit (letter (N.of_nat k))
    = Some (N.of_nat k))) (seq 0 64) = true) as T by by vm_compute.
  rewrite forallb_forall in T. specialize (T (N.to_nat n)).
  rewrite N2Nat.id in T. apply (bool_decide_eq_true_1 _), T, in_seq. lia.
Qed.

Lemma digit_sextet bits shift :
  base64url_digit (sextet bits shift) = Some ((bits / 2 ^ shift) mod 64)%N.
Proof.
  unfold sextet. rewrite N.shiftr_div_pow2. change 63%N with (N.ones 6).
  rewrite N.land_ones. apply digit_letter. by apply N.mod_lt.
Qed.

(** The accumulator takes a digit. *)
Lemma shift_in acc digit :
  (acc < 64)%N → (digit < 64)%N →
  N.lor (N.land (N.shiftl acc 6) 4294967295) digit = (acc * 64 + digit)%N.
Proof.
  intros A D. change 4294967295%N with (N.ones 32). rewrite N.land_ones, N.shiftl_mul_pow2.
  change (2 ^ 6)%N with 64%N. change (2 ^ 32)%N with 4294967296%N.
  rewrite N.mod_small by lia. change 64%N with (2 ^ 6)%N at 1. rewrite <- N.shiftl_mul_pow2.
  rewrite <- N.lxor_lor, <- N.add_nocarry_lxor; [rewrite N.shiftl_mul_pow2; reflexivity|..];
    apply N.bits_inj; intros i; rewrite N.land_spec, N.bits_0;
    (destruct (N.ltb_spec i 6) as [Hi|Hi]; [by rewrite N.shiftl_spec_low|]);
    (replace (N.testbit digit i) with false; [apply andb_false_r|]); symmetry;
    (destruct (N.eq_dec digit 0%N) as [->|]; [apply N.bits_0|]);
    apply N.bits_above_log2, N.log2_lt_pow2; try lia;
    (eapply N.lt_le_trans; [exact D|]); change 64%N with (2 ^ 6)%N; by apply N.pow_le_mono_r.
Qed.

(** One character that completes no byte, and one that does. *)
Lemma decode_first bits shift rest :
  decode_digits (String (sextet bits shift) rest) 0 0
  = decode_digits rest ((bits / 2 ^ shift) mod 64)%N 6.
Proof.
  cbn [decode_digits]. rewrite digit_sextet. cbn [mbind option_bind].
  rewrite shift_in; [done|lia|by apply N.mod_lt].
Qed.

Lemma decode_next bits shift rest acc n :
  (acc < 64)%N → (n = 6 ∨ n = 4 ∨ n = 2)%N →
  let total := (acc * 64 + (bits / 2 ^ shift) mod 64)%N in
  decode_digits (String (sextet bits shift) rest) acc n
  = '(output, accumulator, over) ← decode_digits rest (total mod 2 ^ (n - 2)) (n - 2);
    Some (String (ascii_of_N ((total / 2 ^ (n - 2)) mod 256)) output, accumulator, over).
Proof.
  intros A L total. cbn [decode_digits]. rewrite digit_sextet. cbn [mbind option_bind].
  rewrite shift_in by (done || by apply N.mod_lt). fold total.
  assert (8 <=? n + 6 = true)%N as -> by (apply N.leb_le; lia).
  replace (n + 6 - 8)%N with (n - 2)%N by lia.
  rewrite N.shiftr_div_pow2. change 255%N with (N.ones 8). rewrite N.land_ones.
  unfold low_mask. rewrite N.shiftl_1_l, N.sub_1_r, <- N.ones_equiv, N.land_ones. done.
Qed.

(** The sextets of three bytes. *)
Lemma sextets a b c :
  let bits := bits24 a b c in
  ((bits / 2 ^ 18) mod 64 = N_of_ascii a / 4)%N
  ∧ ((bits / 2 ^ 12) mod 64 = (N_of_ascii a mod 4) * 16 + N_of_ascii b / 16)%N
  ∧ ((bits / 2 ^ 6) mod 64 = (N_of_ascii b mod 16) * 4 + N_of_ascii c / 64)%N
  ∧ ((bits / 2 ^ 0) mod 64 = N_of_ascii c mod 64)%N.
Proof.
  intros bits. unfold bits. rewrite bits24_sum.
  pose proof (byte_lt a). pose proof (byte_lt b). pose proof (byte_lt c).
  change (2 ^ 18)%N with 262144%N. change (2 ^ 12)%N with 4096%N. change (2 ^ 6)%N with 64%N.
  change (2 ^ 0)%N with 1%N. split_and!; div_lia.
Qed.

Lemma byte_of (a : ascii) n : (n mod 256)%N = N_of_ascii a → ascii_of_N (n mod 256) = a.
Proof. intros ->. apply ascii_N_embedding. Qed.

(** The bytes of a group: [over] is the rest of the text with what is left of the
    accumulator. *)
Lemma decode_one a b c rest :
  decode_digits (String (sextet (bits24 a b c) 18) (String (sextet (bits24 a b c) 12) rest)) 0 0
  = '(output, accumulator, over) ← decode_digits rest (N_of_ascii b / 16) 4;
    Some (String a output, accumulator, over).
Proof.
  destruct (sextets a b c) as (E1 & E2 & _). pose proof (byte_lt a). pose proof (byte_lt b).
  rewrite decode_first, decode_next by (rewrite ?E1; (by auto) || div_lia).
  rewrite E1, E2. change (6 - 2)%N with 4%N. change (2 ^ 4)%N with 16%N.
  rewrite (byte_of a) by div_lia.
  replace ((N_of_ascii a / 4 * 64 + (N_of_ascii a mod 4 * 16 + N_of_ascii b / 16)) mod 16)%N
    with (N_of_ascii b / 16)%N by div_lia. done.
Qed.

Lemma decode_two a b c rest :
  decode_digits (String (sextet (bits24 a b c) 6) rest) (N_of_ascii b / 16) 4
  = '(output, accumulator, over) ← decode_digits rest (N_of_ascii c / 64) 2;
    Some (String b output, accumulator, over).
Proof.
  destruct (sextets a b c) as (_ & _ & E3 & _). pose proof (byte_lt b). pose proof (byte_lt c).
  rewrite decode_next by ((by auto) || div_lia).
  rewrite E3. change (4 - 2)%N with 2%N. change (2 ^ 2)%N with 4%N.
  rewrite (byte_of b) by div_lia.
  replace ((N_of_ascii b / 16 * 64 + (N_of_ascii b mod 16 * 4 + N_of_ascii c / 64)) mod 4)%N
    with (N_of_ascii c / 64)%N by div_lia. done.
Qed.

Lemma decode_three a b c rest :
  decode_digits (String (sextet (bits24 a b c) 0) rest) (N_of_ascii c / 64) 2
  = '(output, accumulator, over) ← decode_digits rest 0 0;
    Some (String c output, accumulator, over).
Proof.
  destruct (sextets a b c) as (_ & _ & _ & E4). pose proof (byte_lt c).
  rewrite decode_next by ((by auto) || div_lia).
  rewrite E4. change (2 - 2)%N with 0%N. change (2 ^ 0)%N with 1%N.
  rewrite (byte_of c) by div_lia. rewrite N.mod_1_r. done.
Qed.

(** The accumulator ends empty, with the bits of an incomplete byte at most. *)
Lemma decode_encoded bytes :
  ∃ over, decode_digits (base64url bytes) 0 0 = Some (bytes, 0%N, over) ∧ (over < 6)%N.
Proof.
  induction bytes as [bytes IH] using (well_founded_induction (Wf_nat.well_founded_ltof _ String.length)).
  destruct bytes as [|a [|b [|c rest]]]; cbn [base64url].
  - by exists 0%N.
  - rewrite decode_one. cbn. by exists 4%N.
  - rewrite decode_one, decode_two. cbn. by exists 2%N.
  - rewrite decode_one, decode_two, decode_three.
    destruct (IH rest) as (over & E & L); [unfold Wf_nat.ltof; cbn [String.length]; lia|].
    rewrite E. by exists over.
Qed.

Lemma no_padding bytes :
  existsb (λ c, bool_decide (c = "="%char)) (String.list_ascii_of_string (base64url bytes)) = false.
Proof.
  apply not_true_iff_false. rewrite existsb_exists. intros (c & I & E).
  apply bool_decide_eq_true_1 in E as ->. apply list_elem_of_In in I.
  destruct (base64url_roundtrip bytes) as (_ & _ & F). rewrite Forall_forall in F.
  destruct (F _ I) as [n X]. discriminate X.
Qed.

(** C38: [decode_base64url] reads exactly what the encoder writes.  It returns [bytes] for
    a text if and only if the text is the encoding of [bytes] and not empty: every
    signature is read back, padding, foreign characters, a dangling character and bits
    that no byte uses are refused, and no two texts give the same bytes. *)
Theorem decode_base64url_exact (text bytes : string) :
  decode_base64url text = Ok bytes ↔ text = base64url bytes ∧ bytes ≠ EmptyString.
Proof.
  unfold decode_base64url. split.
  - intros E. apply bail_Ok in E as [G E]. apply rbind_Ok in E as ([[o acc] over] & D & E).
    apply bail_Ok in E as [C E]. injection E as <-. res_inv. split; [done|]. by intros ->.
  - intros [-> N]. assert (base64url bytes ≠ EmptyString) as N'.
    { destruct bytes as [|a [|b [|c rest]]]; [done|discriminate..]. }
    rewrite bool_decide_false, no_padding by done. cbn [orb].
    destruct (decode_encoded bytes) as (over & -> & L). cbn [ok_or rbind].
    apply N.leb_gt in L. rewrite L, bool_decide_true by done. done.
Qed.
