(* ===== verification/RuntimeProofs.v ===== *)
(** * Invariants of the runtime store

    What every operation of [RuntimeOps] and [RuntimeCommitOp] keeps.  [moves R c] says
    that the code [c] relates the tables before and after by the preorder [R], whatever
    it returns; operations are analysed call by call, and every one of them is a sequence
    of [write]s ([runtime_step_writes]).  An invariant is then proved for one write:

    - the audit events form one chain that ends in the stored head, and the append-only
      tables only grow ([audit_chain_maintained]);
    - a run has at most one active lease and no two leases with one fence epoch
      ([leases_inv], which [RuntimeLeases] builds on). *)

From S2P Require Import Prelude RustStr Externals Json Canonical Serialized Evidence Approval.
From S2P Require Import OperatorCommon StrictDigest Agent AgentRun ExecutionStore Durable AuditChain Custody.
From S2P Require Import RuntimeStore ReplayStore RuntimeOps RuntimeCommitOp.
From stdpp Require Import options.

(** ** Calls and preorders *)

Definition moves (R : relation Db) {A E} (c : call Tx E A) : Prop :=
  ∀ s, R (tx_db s) (tx_db (c s).2).

#[local] Set Default Proof Using "All".

Section moves.
Context (R : relation Db) `{!PreOrder R}.

Lemma moves_ret {A E} (a : A) : moves R (ret (E := E) a).
Proof. intros s. reflexivity. Qed.
Lemma moves_throw {A E} (e : E) : moves R (throw (A := A) e).
Proof. intros s. reflexivity. Qed.
Lemma moves_lift {A E} (r : result E A) : moves R (lift r).
Proof. intros s. reflexivity. Qed.
Lemma moves_query {A} (f : Db → result StoreError.t A) : moves R (query f).
Proof. intros s. reflexivity. Qed.
Lemma moves_uuid store : moves R (operator_uuid store).
Proof. intros s. unfold operator_uuid. destruct store, (tx_uuids s); reflexivity. Qed.
Lemma moves_cbind {A B E} (c : call Tx E A) (k : A → call Tx E B) :
  moves R c → (∀ a, moves R (k a)) → moves R (cbind c k).
Proof.
  intros Hc Hk s. unfold cbind. specialize (Hc s). destruct (c s) as [[a|e|] s']; cbn in *; try done.
  etransitivity; [done|apply Hk].
Qed.
Lemma moves_map_err {A E F} (f : E → F) (c : call Tx E A) : moves R c → moves R (call_map_err f c).
Proof. intros Hc s. apply Hc. Qed.
Lemma moves_sql admissible effect :
  (∀ d, admissible d = true → R d (effect d)) → moves R (sql admissible effect).
Proof.
  intros Hs s. unfold sql. destruct (admissible (tx_db s)) eqn:E; [by apply Hs|reflexivity].
Qed.
Lemma moves_transaction {A} (body : tx (result StoreError.t A)) :
  moves R body → moves R (transaction body).
Proof.
  intros Hb s. specialize (Hb s). unfold transaction.
  destruct (body s) as [[r|e|] s']; cbn in *; [done|reflexivity..].
Qed.

Lemma moves_candidate {A} (c : tx A) : moves R c → moves R (candidate c).
Proof.
  intros Hc s. specialize (Hc s). unfold candidate.
  destruct (c s) as [[a|e|] s']; cbn in *; [done|reflexivity|done].
Qed.

(** The same at one state, where the results of the guards are known. *)
Definition moves_at {A E} (c : call Tx E A) (s : Tx) : Prop := R (tx_db s) (tx_db (c s).2).

Lemma at_lift {A B E} (r : result E A) (k : A → call Tx E B) s :
  (∀ a, r = Ok a → moves_at (k a) s) → moves_at (cbind (lift r) k) s.
Proof. unfold moves_at, cbind, lift. destruct r; cbn; intros Hk; [by apply Hk|reflexivity..]. Qed.
Lemma at_query {A B} (f : Db → result StoreError.t A) (k : A → tx B) s :
  (∀ a, f (tx_db s) = Ok a → moves_at (k a) s) → moves_at (cbind (query f) k) s.
Proof.
  unfold moves_at, cbind, query. destruct (f (tx_db s)); cbn; intros Hk;
    [by apply Hk|reflexivity..].
Qed.
Lemma at_stop {A E} (b : bool) (e : E) (k : call Tx E A) s :
  (b = false → moves_at k s) → moves_at (if b then throw e else k) s.
Proof. unfold moves_at. destruct b; intros Hk; [reflexivity|by apply Hk]. Qed.
Lemma at_sql admissible effect s :
  (admissible (tx_db s) = true → R (tx_db s) (effect (tx_db s))) →
  moves_at (sql admissible effect) s.
Proof. unfold moves_at, sql. destruct (admissible (tx_db s)); intros Hs; [by apply Hs|reflexivity]. Qed.
Lemma at_sql_then {B} admissible effect (k : () → tx B) s :
  (admissible (tx_db s) = true → R (tx_db s) (effect (tx_db s))) →
  moves R (k tt) → moves_at (cbind (sql admissible effect) k) s.
Proof.
  unfold moves_at, cbind, sql. destruct (admissible (tx_db s)); intros Hs Hk; [|reflexivity].
  cbn. etransitivity; [by apply Hs|apply (Hk {| tx_db := _; tx_uuids := _ |})].
Qed.
Lemma at_call {A B E} (c : call Tx E A) (k : A → call Tx E B) s :
  moves R c → (∀ a, moves R (k a)) → moves_at (cbind c k) s.
Proof. intros Hc Hk. by apply moves_cbind. Qed.
Lemma at_ret {A E} (a : A) s : moves_at (ret (E := E) a) s.
Proof. unfold moves_at. reflexivity. Qed.
Lemma at_throw {A E} (e : E) s : moves_at (throw (A := A) e) s.
Proof. unfold moves_at. reflexivity. Qed.

End moves.

(** Runs through the guards of a primitive, keeping what they have checked. *)
Ltac at_tac :=
  intros s;
  match goal with |- ?R (tx_db s) (tx_db (?c s).2) => change (moves_at R c s) end;
  repeat (cbv zeta; lazymatch goal with
  | |- moves_at _ (cbind (lift _) _) _ => apply at_lift; [exact _|intros ? ?]
  | |- moves_at _ (cbind (query _) _) _ => apply at_query; [exact _|intros ? ?]
  | |- moves_at _ (if _ then throw _ else _) _ => apply at_stop; [exact _|intros ?]
  | |- moves_at _ (sql _ _) _ => apply at_sql; [exact _|intros ?]
  | |- moves_at _ (ret _) _ => apply at_ret; exact _
  | |- moves_at _ (throw _) _ => apply at_throw; exact _
  | |- moves_at _ (match ?x with _ => _ end) _ => destruct x eqn:?
  end); unfold corrupt, invalid in *; res_inv.

(** Applies the lemmas above to the structure of a call, and leaves the statements. *)
Ltac moves_step :=
  lazymatch goal with
  | |- moves _ (ret _) => apply moves_ret; exact _
  | |- moves _ (throw _) => apply moves_throw; exact _
  | |- moves _ (lift _) => apply moves_lift; exact _
  | |- moves _ (query _) => apply moves_query; exact _
  | |- moves _ (operator_uuid _) => apply moves_uuid; exact _
  | |- moves _ (cbind _ _) => apply moves_cbind; [exact _| |intros ?]
  | |- moves _ (call_map_err _ _) => apply moves_map_err; [exact _|]
  | |- moves _ (transaction _) => apply moves_transaction; [exact _|]
  | |- moves _ (candidate _) => apply moves_candidate; [exact _|]
  | |- moves _ (sql _ _) => apply moves_sql; [exact _|intros ? ?]
  | |- moves _ (if ?b then _ else _) => destruct b
  | |- moves _ (match ?x with _ => _ end) => destruct x
  | |- moves _ (let '_ := ?x in _) => destruct x
  end.

(** Code that leaves the tables as they are. *)
Notation reads := (moves eq).

Lemma moves_reads (R : relation Db) `{!PreOrder R} {A E} (c : call Tx E A) : reads c → moves R c.
Proof. intros Hc s. by rewrite <- (Hc s). Qed.

Create HintDb reads discriminated.
Create HintDb moves discriminated.
Ltac moves_tac :=
  repeat (cbv zeta;
    first [ solve [eauto 2 with moves]
          | solve [apply moves_reads; [exact _|eauto 2 with reads]]
          | moves_step ]).

(** ** Loads *)

Section loads.
Context `{Externals} `{OperatorExternals}.
Context (id : Uuid).

Lemma reads_control : reads (load_control id).
Proof. unfold load_control. moves_tac. Qed.
Lemma reads_lease : reads (load_lease id).
Proof. unfold load_lease. moves_tac. Qed.
Lemma reads_budget : reads (load_budget id).
Proof. unfold load_budget. moves_tac. Qed.
Lemma reads_reservation : reads (load_reservation id).
Proof. unfold load_reservation. moves_tac. Qed.
Lemma reads_run : reads (load_agent_run_exact id).
Proof. unfold load_agent_run_exact. moves_tac. Qed.
Lemma reads_step : reads (load_agent_step_exact id).
Proof. unfold load_agent_step_exact. moves_tac. Qed.
Lemma reads_directive : reads (load_recovery_directive id).
Proof. unfold load_recovery_directive. moves_tac. Qed.
Lemma reads_principal : reads (load_principal_record id).
Proof. unfold load_principal_record. moves_tac. Qed.
Lemma reads_projection : reads (load_latest_projection_exact id).
Proof. unfold load_latest_projection_exact. moves_tac. Qed.
Lemma reads_commit_projection a b : reads (load_commit_projection_exact id a b).
Proof. unfold load_commit_projection_exact. moves_tac. Qed.
Lemma reads_checkpoint run : reads (load_checkpoint_identity_exact id run).
Proof. unfold load_checkpoint_identity_exact. moves_tac. Qed.
Lemma reads_event_range a b : reads (validate_runtime_event_range id a b).
Proof. unfold validate_runtime_event_range. moves_tac. Qed.

End loads.

#[export] Hint Resolve reads_control reads_lease reads_budget reads_reservation reads_run
  reads_step reads_directive reads_principal reads_projection reads_commit_projection
  reads_checkpoint reads_event_range : reads.

Section checks.
Context `{Externals} `{OperatorExternals}.

Lemma reads_latest_step id : reads (load_latest_agent_step id).
Proof. unfold load_latest_agent_step. moves_tac. Qed.
Lemma reads_latest_checkpoint id : reads (load_latest_checkpoint_identity id).
Proof. unfold load_latest_checkpoint_identity. moves_tac. Qed.
Lemma reads_human : reads load_operator_human_id.
Proof. unfold load_operator_human_id. moves_tac. Qed.
Lemma reads_authority a now : reads (validate_authority a now).
Proof. unfold validate_authority. moves_tac. Qed.
Lemma reads_origin b id : reads (load_origin b id).
Proof. unfold load_origin. moves_tac. Qed.
Lemma reads_check_proof b x at_ id proof context : reads (check_proof b x at_ id proof context).
Proof. unfold check_proof. moves_tac. Qed.
#[local] Hint Resolve reads_latest_step reads_latest_checkpoint reads_authority reads_origin
  reads_check_proof : reads.
Lemma reads_check_progress b r x c o p : reads (check_progress b r x c o p).
Proof. unfold check_progress. moves_tac. Qed.
Lemma reads_check_projections b r x c run control :
  reads (check_projections b r x c run control).
Proof. unfold check_projections. moves_tac. Qed.
#[local] Hint Resolve reads_check_progress reads_check_projections : reads.
Lemma reads_verified_replay catalog q : reads (load_verified_replay catalog q).
Proof. unfold load_verified_replay. moves_tac. Qed.
Lemma reads_reserve_replay b i c run cp : reads (check_reserve_replay b i c run cp).
Proof. unfold check_reserve_replay. moves_tac. Qed.
Lemma reads_check_recovery q c run : reads (check_recovery q c run).
Proof. unfold check_recovery. moves_tac. Qed.
Lemma reads_dispatched p c : reads (dispatched_reservation p c).
Proof. unfold dispatched_reservation. moves_tac. Qed.
Lemma reads_settlement a p r now : reads (settlement_authority a p r now).
Proof. unfold settlement_authority. moves_tac. Qed.
Lemma reads_existing_directive q c run cp : reads (existing_directive q c run cp).
Proof. unfold existing_directive. moves_tac. Qed.
Lemma reads_attention run c : reads (attention_of run c).
Proof. unfold attention_of. moves_tac. Qed.
Lemma reads_load_commit c l r p : reads (load_commit c l r p).
Proof. unfold load_commit. moves_tac. Qed.
Lemma reads_committed_again q r : reads (committed_again q r).
Proof. unfold committed_again. moves_tac. Qed.
Lemma reads_exact_existing q c r : reads (exact_existing q c r).
Proof. unfold exact_existing, commit. moves_tac. Qed.

End checks.

#[export] Hint Resolve reads_latest_step reads_latest_checkpoint reads_human reads_authority
  reads_verified_replay reads_reserve_replay reads_check_recovery reads_dispatched
  reads_settlement reads_existing_directive reads_attention reads_load_commit
  reads_committed_again reads_exact_existing : reads.

Lemma present_true {K A} `{Countable K} (m : gmap K A) k :
  present m k = true ↔ is_Some (m !! k).
Proof. unfold present. destruct (m !! k); cbn; naive_solver. Qed.
Lemma present_false {K A} `{Countable K} (m : gmap K A) k :
  present m k = false ↔ m !! k = None.
Proof. unfold present. by destruct (m !! k). Qed.

(** A final statement whose facts are in the context. *)
Ltac write_tac :=
  res_inv;
  repeat match goal with
  | P : present _ _ = true |- _ => apply present_true in P
  | P : present _ _ = false |- _ => apply present_false in P
  end; apply rtc_once; econstructor; done.

(** ** Writes

    One statement of the store, with what its guards have checked: the step relation
    of the tables. *)

Section writes.
Context `{Externals} `{OperatorExternals}.

(** An event that the head of its workspace accepts, and the new head. *)
Record linked (d : Db) (e : AuditEvent) : Prop := {
  linked_workspace : db_workspace d = Some (ae_workspace_id e);
  linked_valid : ∃ n previous, db_heads d !! ae_workspace_id e = Some (n, previous)
                 ∧ validate_chain_link e (n + 1) previous = Ok ();
}.

Definition append_event (e : AuditEvent) (d : Db) : Db :=
  with_heads (<[ae_workspace_id e := (ae_sequence e, Some (ae_event_digest e))]> (db_heads d))
    (with_events (db_events d ++ [e]) d).

Inductive write (d : Db) : Db → Prop :=
| write_control c :
    RunControl_validate c = Ok () → is_Some (db_controls d !! ctl_run_id c) →
    write d (with_controls (<[ctl_run_id c := c]> (db_controls d)) d)
| write_new_control c :
    db_controls d !! ctl_run_id c = None →
    write d (with_controls (<[ctl_run_id c := c]> (db_controls d)) d)
| write_new_lease l :
    db_leases d !! ls_lease_id l = None → lease_unique l d = true →
    write d (with_leases (<[ls_lease_id l := l]> (db_leases d)) d)
| write_lease l :
    RunLease_validate l = Ok () → is_Some (db_leases d !! ls_lease_id l) →
    lease_unique l d = true →
    write d (with_leases (<[ls_lease_id l := l]> (db_leases d)) d)
| write_budget b :
    BudgetAccount_validate b = Ok () →
    write d (with_budgets (<[bl_budget_id (ba_policy b) := b]> (db_budgets d)) d)
| write_reservation r :
    reservation_admissible r d = true →
    write d (with_reservations (<[br_reservation_id r := r]> (db_reservations d)) d)
| write_run r :
    write d (with_runs (<[run_id r := r]> (db_runs d)) d)
| write_step st :
    write d (with_steps (<[step_id st := st]> (db_steps d)) d)
| write_replay k row :
    write d (with_replays (<[k := row]> (db_replays d)) d)
| write_binding k b :
    db_bindings d !! k = None → write d (with_bindings (<[k := b]> (db_bindings d)) d)
| write_directive x :
    db_directives d !! rd_directive_id x = None → RecoveryDirective_validate x = Ok () →
    write d (with_directives (<[rd_directive_id x := x]> (db_directives d)) d)
| write_projection p :
    write d (with_projections (db_projections d ++ [p]) d)
| write_context k row :
    db_contexts d !! k = None → write d (with_contexts (<[k := row]> (db_contexts d)) d)
| write_proof k row :
    db_proofs d !! k = None → write d (with_proofs (<[k := row]> (db_proofs d)) d)
| write_checkpoint c :
    db_checkpoints d !! cp_id c = None →
    write d (with_checkpoints (<[cp_id c := c]> (db_checkpoints d)) d)
| write_run_event e :
    db_run_events d !! ev_id e = None →
    write d (with_run_events (<[ev_id e := e]> (db_run_events d)) d)
| write_evaluation e :
    db_evaluations d !! eval_id e = None →
    write d (with_evaluations (<[eval_id e := e]> (db_evaluations d)) d)
| write_approval_request k q :
    db_approval_requests d !! k = None →
    write d (with_approval_requests (<[k := q]> (db_approval_requests d)) d)
| write_approval b :
    db_approvals d !! ab_approval_request_id b = None →
    write d (with_approvals (<[ab_approval_request_id b := b]> (db_approvals d)) d)
| write_event e :
    linked d e → write d (append_event e d).

Notation writes := (rtc write).

Lemma writes_control c : moves writes (update_run_control c).
Proof. unfold update_run_control. at_tac. write_tac. Qed.
Lemma writes_insert_lease l : moves writes (insert_lease l).
Proof. unfold insert_lease. at_tac. apply rtc_once, write_new_lease; [|done]. by apply present_false. Qed.
Lemma writes_update_lease l : moves writes (update_lease l).
Proof. unfold update_lease. at_tac. write_tac. Qed.
Lemma writes_budget b : moves writes (update_budget b).
Proof. unfold update_budget. at_tac. write_tac. Qed.
Lemma writes_insert_reservation r : moves writes (insert_reservation r).
Proof. unfold insert_reservation. at_tac. write_tac. Qed.
Lemma writes_update_reservation r : moves writes (update_reservation r).
Proof. unfold update_reservation. at_tac. write_tac. Qed.
Lemma writes_run r n : moves writes (update_agent_run_exact r n).
Proof. unfold update_agent_run_exact. at_tac. write_tac. Qed.
Lemma writes_step st n : moves writes (update_agent_step_exact st n).
Proof. unfold update_agent_step_exact. at_tac. write_tac. Qed.
Lemma writes_directive x : moves writes (insert_recovery_directive x).
Proof.
  unfold insert_recovery_directive, directive_admissible. at_tac.
  apply rtc_once, write_directive; [|done]. by apply present_false.
Qed.
Lemma writes_projection p : moves writes (insert_projection p).
Proof. unfold insert_projection. at_tac. write_tac. Qed.
Lemma writes_binding b r now : moves writes (insert_replay_binding b r now).
Proof.
  unfold insert_replay_binding. at_tac. apply rtc_once, write_binding. by apply present_false.
Qed.
Lemma writes_mark_failed b now : moves writes (mark_bound_replay_failed b now).
Proof. unfold mark_bound_replay_failed. at_tac; write_tac. Qed.
Lemma load_completed_outcome_reads row s : (load_completed_outcome row s).2 = s.
Proof.
  unfold load_completed_outcome, cbind, lift, throw, ret.
  destruct (row_state row); [done| |done]. by repeat case_match.
Qed.
Lemma writes_claim c : moves writes (claim_execution_replay_in_transaction c).
Proof.
  unfold claim_execution_replay_in_transaction. apply moves_cbind; [exact _|moves_tac|intros _].
  intros s. destruct (db_replays (tx_db s) !! rc_key c) as [row|].
  - destruct (negb _); [done|]. destruct (row_state row); [done| |done].
    by rewrite load_completed_outcome_reads.
  - match goal with |- ?R (tx_db s) (tx_db (?k s).2) => enough (moves R k) by done end.
    moves_tac. write_tac.
Qed.
Lemma next_safe_Some n m : next_safe n = Some m ↔ (m = n + 1 ∧ m ≤ MAX_SAFE_INTEGER)%N.
Proof.
  unfold next_safe. destruct (checked_add u64_max n 1) as [k|] eqn:E; cbn.
  - apply checked_add_Some in E as [-> ?]. destruct (N.leb_spec (n + 1) MAX_SAFE_INTEGER);
      split; intros X; try discriminate X; [injection X as <-|destruct X as [-> ?]|]; try done; lia.
  - split; [done|]. intros [-> ?]. exfalso.
    rewrite (proj2 (checked_add_Some _ _ _ (n + 1)%N)) in E; [done|].
    split; [done|]. unfold MAX_SAFE_INTEGER, u64_max in *. lia.
Qed.
Lemma writes_event e : moves writes (append_audit_event e).
Proof.
  unfold append_audit_event. at_tac.
  match goal with X : next_safe _ = Some _ |- _ => apply next_safe_Some in X as [X ?]; subst end.
  unfold moves_at, cbind, sql. destruct (event_admissible _ (tx_db s)) eqn:A; [|done].
  apply rtc_once.
  match goal with X : validate_chain_link ?x _ _ = _ |- _ =>
    change (write (tx_db s) (append_event x (tx_db s))) end.
  apply write_event.
  unfold event_admissible in A. res_inv. split; [done|]. eauto.
Qed.

End writes.

#[export] Hint Resolve writes_control writes_insert_lease writes_update_lease writes_budget
  writes_insert_reservation writes_update_reservation writes_run writes_step writes_directive
  writes_projection writes_binding writes_mark_failed writes_claim writes_event : moves.

Section results.
Context `{Externals} `{OperatorExternals}.
Notation writes := (rtc write).

Lemma writes_context_and_proof p : moves writes (persist_runtime_context_and_proof p).
Proof. unfold persist_runtime_context_and_proof. moves_tac; write_tac. Qed.
Lemma writes_checkpoint c run n : moves writes (persist_runtime_checkpoint c run n).
Proof. unfold persist_runtime_checkpoint. moves_tac. write_tac. Qed.
Lemma writes_events_from l run n : moves writes (persist_events_from l run n).
Proof.
  revert n. induction l as [|e l IH]; intros n; cbn [persist_events_from]; moves_tac.
  write_tac.
Qed.
Lemma writes_events l run : moves writes (persist_runtime_events l run).
Proof. unfold persist_runtime_events. moves_tac. apply writes_events_from. Qed.
Lemma writes_evaluation e run : moves writes (persist_runtime_evaluation e run).
Proof. unfold persist_runtime_evaluation. moves_tac. write_tac. Qed.
Lemma writes_approval b run st cp : moves writes (persist_runtime_approval b run st cp).
Proof.
  unfold persist_runtime_approval, approval_admissible. moves_tac; write_tac.
Qed.
Lemma writes_complete_replay b p : moves writes (complete_bound_replay b p).
Proof. unfold complete_bound_replay. moves_tac. write_tac. Qed.

End results.

#[export] Hint Resolve writes_context_and_proof writes_checkpoint writes_events writes_evaluation
  writes_approval writes_complete_replay : moves.

(** ** Operations *)

Section operations.
Context `{Externals} `{OperatorExternals} (store : option OperatorStoreContext).
Notation writes := (rtc write).

Lemma writes_advance c n now : moves writes (advance store c n now).
Proof. unfold advance, append_current_projection. moves_tac. Qed.
Lemma writes_lease_event l k now : moves writes (append_lease_event store l k now).
Proof. unfold append_lease_event. moves_tac. Qed.
Lemma writes_budget_event c l r i k o now :
  moves writes (append_budget_event store c l r i k o now).
Proof. unfold append_budget_event. moves_tac. Qed.
#[local] Hint Resolve writes_advance writes_lease_event writes_budget_event : moves.

Lemma writes_claim_run_lease q : moves writes (claim_run_lease store q).
Proof. unfold claim_run_lease, commit. moves_tac. Qed.
Lemma writes_renew_run_lease q : moves writes (renew_run_lease store q).
Proof. unfold renew_run_lease, commit. moves_tac. Qed.
Lemma writes_release_run_lease q : moves writes (release_run_lease store q).
Proof. unfold release_run_lease, commit. moves_tac. Qed.
Lemma writes_reserve_aggregate_budget q : moves writes (reserve_aggregate_budget store q).
Proof. unfold reserve_aggregate_budget, reject, reserve_now, commit. moves_tac. Qed.
Lemma writes_settle_budget_reservation q : moves writes (settle_budget_reservation store q).
Proof. unfold settle_budget_reservation, reject, commit. moves_tac. Qed.

Lemma writes_release_undispatched c l r b k o now :
  moves writes (release_undispatched store c l r b k o now).
Proof. unfold release_undispatched, release_reservation. moves_tac. Qed.
Lemma writes_dispatch_now q c l r b now : moves writes (dispatch_now store q c l r b now).
Proof. unfold dispatch_now, append_dispatch_event, commit. moves_tac. Qed.
#[local] Hint Resolve writes_release_undispatched writes_dispatch_now : moves.

Lemma writes_begin_dispatch q : moves writes (begin_dispatch store q).
Proof. unfold begin_dispatch, authorize_dispatch, claim_then_dispatch, commit. moves_tac. Qed.

Lemma writes_fail_run run now : moves writes (fail_run run now).
Proof. unfold fail_run. moves_tac. Qed.
#[local] Hint Resolve writes_fail_run : moves.
Lemma writes_forfeit c l r now : moves writes (apply_forfeit store c l r now).
Proof. unfold apply_forfeit, fail_latest_step, append_forfeit_events. moves_tac. Qed.
#[local] Hint Resolve writes_forfeit : moves.

Lemma writes_forfeit_commit q : moves writes (forfeit_commit store q).
Proof. unfold forfeit_commit. moves_tac. Qed.
#[local] Hint Resolve writes_forfeit_commit : moves.
Lemma writes_forfeit_failure q : moves writes (forfeit_failure store q).
Proof. unfold forfeit_failure, commit. moves_tac. Qed.
Lemma writes_reclaim q : moves writes (reclaim store q).
Proof.
  unfold reclaim, recover_reservation, reclaim_idle, release_reservation, append_recovery_started,
    append_reclaim_event. moves_tac.
Qed.
Lemma writes_commit_runtime_barrier q p : moves writes (commit_runtime_barrier store q p).
Proof.
  unfold commit_runtime_barrier, commit_runtime, settle_dispatched, forfeit_with, persist_result,
    append_commit_events, commit. moves_tac.
Qed.

End operations.

(** ** Sequences of calls *)

Section runs.
Context `{Externals} `{OperatorExternals}.

Lemma runtime_step_writes store op s :
  rtc write (tx_db s) (tx_db (runtime_step store op s)).
Proof.
  destruct op; cbn [runtime_step];
    [apply writes_claim_run_lease|apply writes_renew_run_lease|apply writes_release_run_lease
    |apply writes_reserve_aggregate_budget|apply writes_settle_budget_reservation
    |apply writes_begin_dispatch|apply writes_commit_runtime_barrier|apply writes_forfeit_failure
    |apply writes_reclaim].
Qed.

(** A property of the tables that every statement keeps. *)
Lemma runtime_step_inv (P : Db → Prop) (HP : ∀ d d', write d d' → P d → P d') store op s :
  P (tx_db s) → P (tx_db (runtime_step store op s)).
Proof. induction (runtime_step_writes store op s); eauto. Qed.

Lemma runtime_run_inv (P : Db → Prop) (HP : ∀ d d', write d d' → P d → P d') calls s :
  P (tx_db s) → P (tx_db (runtime_run calls s)).
Proof.
  revert s. induction calls as [|[store op] calls IH]; intros s Hs; [done|].
  apply IH. by apply runtime_step_inv.
Qed.

(** ** The audit chain *)

(** The events of the workspace are a chain, and the head row is its end. *)
Definition audit_inv (d : Db) : Prop := ∀ workspace,
  db_workspace d = Some workspace →
  db_heads d !! workspace = Some (N.of_nat (length (db_events d)), last_digest (db_events d))
  ∧ audit_chain (db_events d)
  ∧ Forall (λ e, ae_workspace_id e = workspace) (db_events d).

Lemma write_audit_inv d d' : write d d' → audit_inv d → audit_inv d'.
Proof.
  intros W I. destruct W; try exact I.
  intros w Hw. destruct H1 as [Lw (n & previous & Hh & Hv)]. cbn in Hw |- *.
  rewrite Lw in Hw. injection Hw as <-. destruct (I _ Lw) as (Ih & Ic & Iw).
  rewrite Hh in Ih. injection Ih as -> ->.
  pose proof (validate_chain_link_inv _ _ _ Hv) as (Hs & _). rewrite Hs.
  split_and!.
  - rewrite lookup_insert_eq, length_app. unfold last_digest. rewrite last_snoc. cbn.
    do 2 f_equal. lia.
  - apply audit_chain_snoc. split; [done|]. by rewrite N.add_comm.
  - apply Forall_app. auto.
Qed.

(** What is never changed once written. *)
Record append_only (d d' : Db) : Prop := {
  ao_events : db_events d `prefix_of` db_events d';
  ao_projections : db_projections d `prefix_of` db_projections d';
  ao_directives : db_directives d ⊆ db_directives d';
  ao_bindings : db_bindings d ⊆ db_bindings d';
  ao_proofs : db_proofs d ⊆ db_proofs d';
  ao_contexts : db_contexts d ⊆ db_contexts d';
  ao_checkpoints : db_checkpoints d ⊆ db_checkpoints d';
  ao_run_events : db_run_events d ⊆ db_run_events d';
  ao_evaluations : db_evaluations d ⊆ db_evaluations d';
  ao_approval_requests : db_approval_requests d ⊆ db_approval_requests d';
  ao_approvals : db_approvals d ⊆ db_approvals d';
}.

#[export] Instance append_only_preorder : PreOrder append_only.
Proof. split; [by split|]. intros d1 d2 d3 [] []. split; by etrans. Qed.

Lemma write_append_only d d' : write d d' → append_only d d'.
Proof.
  intros W. destruct W; split; cbn; try done; try (by apply prefix_app_r);
    by apply insert_subseteq.
Qed.

(** Whatever clients call, in whatever order, with whatever clocks and identifiers,
    and whether the calls succeed or fail, the audit events of the store stay one valid
    chain of the enrolled workspace that ends in the stored head, and nothing is
    rewritten: events and projections are only appended, and recovery directives,
    replay bindings, proofs, execution contexts, checkpoints, run events, evaluations,
    approval requests and approval bindings are never changed or removed. *)
Theorem audit_chain_maintained (calls : list (option OperatorStoreContext * runtime_op))
    (s : Tx) (I : audit_inv (tx_db s)) :
  audit_inv (tx_db (runtime_run calls s))
  ∧ append_only (tx_db s) (tx_db (runtime_run calls s)).
Proof.
  split; [by apply runtime_run_inv; [apply write_audit_inv|]|].
  apply (runtime_run_inv (append_only (tx_db s))); [|done].
  intros d d' W A. etrans; [exact A|]. by apply write_append_only.
Qed.

(** ** Leases *)

(** The rows are filed under their identifiers; no two leases of a run have one fence
    epoch or are both active. *)
Record leases_inv (d : Db) : Prop := {
  li_keys : ∀ k l, db_leases d !! k = Some l → ls_lease_id l = k;
  li_unique : ∀ k1 l1 k2 l2, db_leases d !! k1 = Some l1 → db_leases d !! k2 = Some l2 →
    ls_run_id l1 = ls_run_id l2 → k1 ≠ k2 →
    ls_fence_epoch l1 ≠ ls_fence_epoch l2 ∧ ¬ (is_active l1 = true ∧ is_active l2 = true);
}.

Lemma no_other_spec {K A} `{Countable K} (m : gmap K A) k p :
  no_other m k p = true ↔ ∀ k' a, m !! k' = Some a → k' ≠ k → p a = false.
Proof.
  unfold no_other. rewrite forallb_forall. split.
  - intros F k' a L N. apply elem_of_map_to_list in L. apply list_elem_of_In in L.
    specialize (F _ L). cbn in F. rewrite bool_decide_false in F by done. by apply negb_true_iff.
  - intros F [k' a] L. apply list_elem_of_In, elem_of_map_to_list in L. cbn.
    destruct (decide (k' = k)) as [->|N]; [by rewrite bool_decide_true|].
    rewrite (F _ _ L N). by rewrite orb_true_r.
Qed.

Lemma lease_unique_spec l d :
  lease_unique l d = true → ∀ k l', db_leases d !! k = Some l' → k ≠ ls_lease_id l →
  ls_run_id l' = ls_run_id l →
  ls_fence_epoch l' ≠ ls_fence_epoch l ∧ ¬ (is_active l' = true ∧ is_active l = true).
Proof.
  unfold lease_unique. rewrite no_other_spec. intros U k l' L N R. specialize (U _ _ L N).
  rewrite bool_decide_true in U by done. cbn [andb] in U.
  apply orb_false_iff in U as [F A]. apply N.eqb_neq in F. split; [done|].
  intros [X Y]. by rewrite X, Y in A.
Qed.

Lemma insert_leases_inv d l :
  lease_unique l d = true → leases_inv d →
  leases_inv (with_leases (<[ls_lease_id l := l]> (db_leases d)) d).
Proof.
  intros U [K I]. pose proof (lease_unique_spec _ _ U) as S. split; cbn.
  - intros k l'. rewrite lookup_insert_Some. intros [[<- <-]|[_ ?]]; [done|by apply K].
  - intros k1 l1 k2 l2. rewrite !lookup_insert_Some.
    intros [[<- <-]|[N1 L1]] [[<- <-]|[N2 L2]] R N; [done| | |by eapply I].
    + destruct (S k2 l2) as [F A]; [done..|]. split; [congruence|tauto].
    + destruct (S k1 l1) as [F A]; [done..|]. split; [congruence|tauto].
Qed.

Lemma write_leases_inv d d' : write d d' → leases_inv d → leases_inv d'.
Proof. intros W I. destruct W; first [by apply insert_leases_inv|by destruct I; split]. Qed.

End runs.
