(* ===== verification/OperatorAuthAudit.v ===== *)
(** * Sessions in the audit chain

    [append_authority_event] of [operator_store.rs], with the requests of
    [operator/store.rs] that it checks, and the composition of the authority of
    [OperatorAuth] with the store that records it.

    What the authority needs from an audit store is the class [RecordingAudit]; under it
    every challenge and every session that the authority holds is recorded
    ([reach_audited]).  The operator store implements it ([sqlite_recording]), and its
    events stay one chain ([sessions_audited]). *)

From S2P Require Import Prelude RustStr Externals Json Canonical Serialized Evidence.
From S2P Require Import OperatorCommon StrictDigest OperatorEnvironment Durable AuditChain.
From S2P Require Import OperatorAuth OperatorAuthProofs RuntimeStore RuntimeProofs.
From stdpp Require Import options.

(** ** The store's side *)

Section store.
Context `{Externals} `{OperatorExternals}.

(** The optional fields that each kind of event has: human, session, challenge, challenge
    digest, authority digest, related session, epoch and revision. *)
Definition authority_profile (kind : AuthorityEvent.t) : list bool :=
  match kind with
  | AuthorityEvent.SessionChallengeIssued => [true; false; true; true; false; false; true; true]
  | AuthorityEvent.SessionIssued => [true; true; true; true; true; false; true; true]
  | AuthorityEvent.SessionReplaced => [true; true; true; true; true; true; true; true]
  | AuthorityEvent.SessionExpired => [true; true; false; false; true; false; true; true]
  | AuthorityEvent.ControlShutdown =>
      [false; false; false; false; false; false; false; false]
  end.

Definition ControlAuditAppendRequest_validate (r : ControlAuditAppendRequest)
    : result StoreError.t () :=
  bail StoreError.Invalid
    when negb (bool_decide (ca_schema r = APPEND_REQUEST_SCHEMA))
         || negb (uuid_is_v7 (ca_workspace_id r)) || negb (uuid_is_v7 (ca_server_instance_id r))
         || existsb (λ id, is_some_and id (λ id, negb (uuid_is_v7 id)))
              [ca_human_id r; ca_session_id r; ca_challenge_id r; ca_related_session_id r]
         || existsb (λ value, is_some_and value (λ value, (value =? 0)%N
                                                         || (MAX_SAFE_INTEGER <? value)%N))
              [ca_auth_epoch r; ca_policy_revision r];
  bail StoreError.Invalid
    when negb (bool_decide
                 ([is_some (ca_human_id r); is_some (ca_session_id r);
                   is_some (ca_challenge_id r); is_some (ca_challenge_digest r);
                   is_some (ca_session_authority_digest r);
                   is_some (ca_related_session_id r); is_some (ca_auth_epoch r);
                   is_some (ca_policy_revision r)] = authority_profile (ca_kind r)));
  Ok ().

Definition ControlAuditAppendResult_validate (r : ControlAuditAppendResult)
    : result StoreError.t () :=
  bail StoreError.Invalid when negb (bool_decide (cu_schema r = APPEND_RESULT_SCHEMA));
  invalid (validate_chain_link (cu_event r) (ae_sequence (cu_event r))
             (ae_previous_digest (cu_event r))).

(** The fields that [append_authority_event] copies from the request. *)
Definition with_authority (r : ControlAuditAppendRequest) (e : AuditEvent) : AuditEvent :=
  {| ae_schema := ae_schema e; ae_workspace_id := ae_workspace_id e;
     ae_event_id := ae_event_id e; ae_sequence := ae_sequence e; ae_kind := ae_kind e;
     ae_outcome := ae_outcome e; ae_previous_digest := ae_previous_digest e;
     ae_event_digest := ae_event_digest e; ae_human_id := ca_human_id r;
     ae_session_id := ca_session_id r; ae_challenge_id := ca_challenge_id r;
     ae_challenge_digest := ca_challenge_digest r;
     ae_session_authority_digest := ca_session_authority_digest r;
     ae_related_session_id := ca_related_session_id r;
     ae_server_instance_id := Some (ca_server_instance_id r); ae_run_id := ae_run_id e;
     ae_approval_request_id := ae_approval_request_id e; ae_command_id := ae_command_id e;
     ae_command_kind := ae_command_kind e; ae_budget_id := ae_budget_id e;
     ae_reservation_id := ae_reservation_id e; ae_lease_id := ae_lease_id e;
     ae_source_lease_id := ae_source_lease_id e;
     ae_process_epoch_id := ae_process_epoch_id e; ae_permit_id := ae_permit_id e;
     ae_recovery_directive_id := ae_recovery_directive_id e;
     ae_fence_epoch := ae_fence_epoch e; ae_auth_epoch := ca_auth_epoch r;
     ae_policy_revision := ca_policy_revision r; ae_intent_digest := ae_intent_digest e;
     ae_call_digest := ae_call_digest e; ae_decision_digest := ae_decision_digest e;
     ae_recovery_directive_digest := ae_recovery_directive_digest e;
     ae_failure_scope := ae_failure_scope e; ae_proof := ae_proof e;
     ae_occurred_at := ae_occurred_at e |}.

Definition ensure_workspace (workspace_id : Uuid) : tx () :=
  let! d := query Ok in
  stop StoreError.Invalid when negb (bool_decide (db_workspace d = Some workspace_id));
  ret ().

(** [append_audit_event] fills in the event it is given; the result carries that event. *)
Definition sqlite_append_authority_event (store : option OperatorStoreContext)
    (request : ControlAuditAppendRequest) : tx ControlAuditAppendResult :=
  let! _ := lift (operator_context store) in
  let! _ := lift (ControlAuditAppendRequest_validate request) in
  transaction (
    let! _ := ensure_workspace (ca_workspace_id request) in
    let! now := lift (operator_now store) in
    let! event_id := operator_uuid store in
    let event := with_authority request
                   (event_base (ca_workspace_id request) event_id
                      (authority_event_kind (ca_kind request))
                      (authority_event_outcome (ca_kind request)) now no_fields) in
    let! _ := append_audit_event event in
    let! event := query (λ d, ok_or (last (db_events d)) StoreError.Unavailable) in
    ret (Ok {| cu_schema := APPEND_RESULT_SCHEMA; cu_event := event |})).

End store.

(** ** Sessions and the audit store

    What the authority needs from its audit store: an event that was returned is recorded,
    and what is recorded stays recorded, whatever the store and the environment do. *)

Class RecordingAudit {S} (au : OperatorAuthAuthority S)
    (recorded : S → AuditEvent → Prop) : Prop := {
  recorded_append request w result w' :
    append_authority_event (oa_audit au) request w = (Ok result, w') →
    recorded w' (cu_event result);
  append_keeps request w e :
    recorded w e → recorded (append_authority_event (oa_audit au) request w).2 e;
  now_keeps w e : recorded w e → recorded (env_trusted_utc_now (oa_environment au) w).2 e;
  tick_keeps w e : recorded w e → recorded (env_monotonic_millis (oa_environment au) w).2 e;
  random_keeps purpose n w e :
    recorded w e → recorded (env_fill_random (oa_environment au) purpose n w).2 e;
  uuid_keeps w e : recorded w e → recorded (env_new_uuid_v7 (oa_environment au) w).2 e;
}.

#[local] Set Default Proof Using "All".

Section audited.
Context {S : Type} `{Externals} `{OperatorExternals} `{AuthExternals}.
Context (au : OperatorAuthAuthority S) (recorded : S → AuditEvent → Prop).
Context `{!RecordingAudit au recorded}.
Implicit Types (g : Guarded S) (w : S) (st : AuthState).

Definition keeps_records {E A} (c : call S E A) : Prop :=
  ∀ w e, recorded w e → recorded (c w).2 e.

(** Callbacks and other users of the world do not remove events. *)
Definition append_only_call (c : auth_call (S := S)) : Prop :=
  match c with
  | CAuthorize _ _ callback | CRevoke _ callback => ∀ a, keeps_records (callback a)
  | CWorld f => ∀ w e, recorded w e → recorded (f w) e
  | _ => True
  end.

Definition challenge_recorded w (c : SessionChallenge) : Prop :=
  ∃ e digest,
    recorded w e ∧ ae_kind e = AuditEventKind.SessionChallengeIssued
    ∧ ae_human_id e = Some (ap_human_id (oa_policy au))
    ∧ ae_challenge_id e = Some (ch_challenge_id c)
    ∧ challenge_signed_bytes_digest c = Ok digest ∧ ae_challenge_digest e = Some digest.

Definition session_recorded w (a : AuthorizedSession) : Prop :=
  ∃ e canonical,
    recorded w e
    ∧ (ae_kind e = AuditEventKind.SessionIssued ∨ ae_kind e = AuditEventKind.SessionReplaced)
    ∧ ae_human_id e = Some (az_human_id a) ∧ ae_session_id e = Some (az_session_id a)
    ∧ canonical_text (authority_value (authority_binding a)) = Some canonical
    ∧ ae_session_authority_digest e = Some (control_digest AUTHORITY_DOMAIN canonical)
    ∧ az_authority_digest a = control_digest AUTHORITY_DOMAIN canonical.

Definition audited w st : Prop :=
  (∀ p, st_pending st = Some p → challenge_recorded w (pe_challenge p))
  ∧ (∀ a, st_session st = Some a → session_recorded w (av_authority a)).

Lemma audited_world w w' st :
  (∀ e, recorded w e → recorded w' e) → audited w st → audited w' st.
Proof.
  intros G [AP AS]. split.
  - intros p Hp. destruct (AP p Hp) as (e & d & R & rest). exists e, d. auto.
  - intros a Ha. destruct (AS a Ha) as (e & d & R & rest). exists e, d. auto.
Qed.

Lemma audited_default w : audited w AuthState_default.
Proof. split; done. Qed.

Definition keeps {E A} (c : call (Guarded S) E A) : Prop :=
  ∀ w st, audited w st →
    ends c (λ _ g', gd_poisoned g' = false ∧ audited (gd_world g') (gd_state g'))
      (λ _ g', audited (gd_world g') (gd_state g')) (guard w st).

Lemma keeps_cbind {E A B} (c : call _ E A) (k : A → call _ E B) :
  keeps c → (∀ a, keeps (k a)) → keeps (cbind c k).
Proof.
  intros Kc Kk w st I. apply ends_cbind. eapply ends_mono; [by apply Kc| |done].
  intros a [w' st' p] [P A']. cbn in P. subst p. by apply Kk.
Qed.
Lemma keeps_ret {E A} (a : A) : keeps (ret (E := E) a).
Proof. intros w st I. by apply ends_ret. Qed.
Lemma keeps_stop {E A} (b : bool) (e : E) (c : call _ E A) : keeps c → keeps (if b then throw e else c).
Proof. intros K w st I. apply ends_stop; [done|]. intros _. by apply K. Qed.
Lemma keeps_lift {E A} (r : result E A) : keeps (lift r).
Proof. intros w st I. by apply ends_lift. Qed.
Lemma keeps_read {E} : keeps (read_state (E := E)).
Proof. intros w st I. by apply ends_read. Qed.
Lemma keeps_update {E} f : (∀ w st, audited w st → audited w (f st)) → keeps (update_state (E := E) f).
Proof. intros K w st I. apply ends_update. split; [done|]. by apply K. Qed.
Lemma keeps_clear {A} : keeps (clear_unavailable (A := A)).
Proof. intros w st I. apply ends_clear, audited_default. Qed.
Lemma keeps_map_err {E F A} (f : E → F) (c : call _ E A) : keeps c → keeps (call_map_err f c).
Proof. intros K w st I. apply ends_map_err. by apply K. Qed.

Lemma keeps_outside {E A} (c : call S E A) : keeps_records c → keeps (outside c).
Proof.
  intros K w st I. assert (A' : audited (c w).2 st) by (eapply audited_world; [apply K|done]).
  apply ends_outside; intros; match goal with X : _ = (_, _) |- _ => rewrite X in A' end; done.
Qed.
Lemma keeps_attempt_outside {E F A} (c : call S E A) :
  keeps_records c → keeps (attempt (F := F) (outside c)).
Proof.
  intros K w st I. assert (A' : audited (c w).2 st) by (eapply audited_world; [apply K|done]).
  unfold ends, attempt, outside. cbn. by destruct (c w).
Qed.
Lemma keeps_or_clear {E A} (c : call S E A) : keeps_records c → keeps (or_clear c).
Proof.
  intros K w st I. assert (A' : audited (c w).2 st) by (eapply audited_world; [apply K|done]).
  apply ends_or_clear; intros; try apply audited_default;
    match goal with X : _ = (_, _) |- _ => rewrite X in A' end; done.
Qed.
Lemma keeps_ok_or_clear {E A B} (r : result E A) (k : A → call _ _ B) :
  (∀ a, r = Ok a → keeps (k a)) → keeps (cbind (ok_or_clear r) k).
Proof.
  intros K w st I. apply ends_cbind, ends_ok_or_clear; [|apply audited_default|done].
  intros a Ea. by apply K.
Qed.
Lemma keeps_some_or_clear {A B} (o : option A) (k : A → call _ _ B) :
  (∀ a, o = Some a → keeps (k a)) → keeps (cbind (some_or_clear o) k).
Proof. intros K. apply keeps_ok_or_clear. intros a Ea%ok_or_Ok. by apply K. Qed.

Lemma keeps_audit request : keeps_records (append_audit au request).
Proof.
  intros w e R. unfold append_audit, cbind, call_map_err.
  pose proof (append_keeps request w e R) as A.
  destruct (append_authority_event _ _ w) as [[result|err|] w']; cbn in *; [|done..].
  by destruct (negb _).
Qed.

(** An appended event, and the update that relies on it. *)
Lemma keeps_audit_then {B} request (f : AuthState → AuthState) (k : () → call _ _ B) :
  (∀ w st e, audited w st → recorded w e →
     ae_kind e = authority_event_kind (ca_kind request) →
     ae_human_id e = ca_human_id request → ae_session_id e = ca_session_id request →
     ae_challenge_id e = ca_challenge_id request →
     ae_challenge_digest e = ca_challenge_digest request →
     ae_session_authority_digest e = ca_session_authority_digest request →
     audited w (f st)) →
  (∀ a, keeps (k a)) →
  keeps (cbind (or_clear (append_audit au request)) (λ _, cbind (update_state f) k)).
Proof.
  intros U K w st I. apply ends_cbind.
  assert (A' : audited (append_audit au request w).2 st)
    by (eapply audited_world; [apply keeps_audit|done]).
  apply ends_or_clear; intros; try apply audited_default;
    match goal with X : _ = (_, _) |- _ => rewrite X in A'; rename X into Ea end; [|done].
  apply ends_cbind, ends_update, K. unfold append_audit in Ea. call_inv.
  match goal with X : append_authority_event _ _ _ = _ |- _ =>
    apply recorded_append in X; rename X into R end.
  match goal with M : audit_result_matches _ _ = true |- _ =>
    unfold audit_result_matches in M end. res_inv. eauto.
Qed.

Ltac keeps_step :=
  lazymatch goal with
  | |- keeps (cbind (ok_or_clear _) _) => apply keeps_ok_or_clear; intros ? ?
  | |- keeps (cbind (some_or_clear _) _) => apply keeps_some_or_clear; intros ? ?
  | |- keeps (cbind (or_clear (append_audit _ _)) _) => fail
  | |- keeps (cbind _ _) => apply keeps_cbind; [|intros ?]
  | |- keeps (or_clear _) => apply keeps_or_clear
  | |- keeps (ret _) => apply keeps_ret
  | |- keeps (lift _) => apply keeps_lift
  | |- keeps read_state => apply keeps_read
  | |- keeps clear_unavailable => apply keeps_clear
  | |- keeps (if _ then throw _ else _) => apply keeps_stop
  | |- keeps (call_map_err _ _) => apply keeps_map_err
  | |- keeps (update_state _) => apply keeps_update; intros ? ? HA
  | |- keeps_records (env_trusted_utc_now _) => intros ? ?; apply now_keeps
  | |- keeps_records (env_monotonic_millis _) => intros ? ?; apply tick_keeps
  | |- keeps_records (env_fill_random _ _ _) => intros ? ?; apply random_keeps
  | |- keeps_records (env_new_uuid_v7 _) => intros ? ?; apply uuid_keeps
  | |- keeps_records (append_audit _ _) => apply keeps_audit
  end.
Ltac keeps_tac := repeat (cbv zeta; keeps_step).

Lemma audited_less w st pending session :
  audited w st →
  (pending = st_pending st ∨ pending = None) → (session = st_session st ∨ session = None) →
  audited w {| st_pending := pending; st_session := session |}.
Proof. intros [AP AS] [->| ->] [->| ->]; split; cbn; try done; auto. Qed.

Lemma keeps_new_id : keeps (new_id au).
Proof. unfold new_id. keeps_tac. destruct (uuid_is_v7 _); keeps_tac. Qed.

(** A locked call on an authority that is not poisoned. *)
Definition audited_guard g : Prop := gd_poisoned g = false → audited (gd_world g) (gd_state g).

Lemma keeps_locked {E A} (u : E) (body : call (Guarded S) E A) g :
  keeps body → audited_guard g → audited_guard (locked u body g).2.
Proof.
  intros K I. unfold locked. destruct (gd_poisoned g) eqn:P; [done|].
  destruct g as [w st p]. cbn in P. subst p. specialize (K w st (I eq_refl)).
  unfold ends, guard in K. destruct (body _) as [[a|e|] g']; cbn in *; [|by intros _|done].
  by intros _; apply K.
Qed.

Lemma keeps_issue request g : audited_guard g → audited_guard (issue_challenge au request g).2.
Proof.
  intros I. unfold issue_challenge. destruct (_ || _); [done|]. unfold cbind at 1, lift.
  destruct (intersect_capabilities _ _ _ _) as [granted|e|]; [|done..].
  apply keeps_locked; [|done]. keeps_tac; try apply keeps_new_id.
  { destruct (is_some_and _ _); [|done]. apply (audited_less _ _ _ _ HA); auto. }
  apply keeps_audit_then; [|intros; keeps_tac].
  intros w st e [AP AS] R K Hh _ Hc Hd _. split; [|done].
  intros p [= <-]. eexists e, _. split; [done|]. split; [done|].
  split; [done|]. split; [done|]. split; [done|]. done.
Qed.

Lemma keeps_attest a g : audited_guard g → audited_guard (submit_attestation au a g).2.
Proof.
  intros I. apply keeps_locked; [|done]. keeps_tac.
  match goal with |- context [is_err ?r] => destruct (is_err r) end; keeps_tac.
  - apply (audited_less _ _ _ _ HA); auto.
  - destruct HA as [AP AS]. split; [|done]. cbn. destruct (st_pending _) as [p|]; [|done].
    intros ? [= <-]. by apply (AP p).
Qed.

Lemma keeps_exchange request g : audited_guard g → audited_guard (exchange au request g).2.
Proof.
  intros I. apply keeps_locked; [|done]. keeps_tac.
  { apply (audited_less _ _ _ _ HA); auto. }
  unfold open_session. keeps_tac; try apply keeps_new_id.
  apply keeps_audit_then; [|intros; keeps_tac].
  intros w st e [AP AS] R K Hh Hs _ _ Ha. split; [done|].
  intros p [= <-]. eexists e, _. cbn.
  split; [done|]. split; [|split; [done|split; [done|split; [done|split; done]]]].
  rewrite K. cbn. destruct (is_some _); auto.
Qed.

Lemma keeps_authenticate header_values required :
  keeps (authenticate_locked au header_values required).
Proof.
  unfold authenticate_locked, expire_session. keeps_tac.
  destruct (st_session _); [|keeps_tac]. destruct (session_expired _ _); keeps_tac.
  apply (audited_less _ _ _ _ HA); auto.
Qed.

Lemma keeps_step_call c g :
  append_only_call c → audited_guard g → audited_guard (auth_step au c g).2.
Proof.
  intros AO I. destruct c as [request|a|id|request|h r k|h k| |f]; cbn [auth_step].
  - pose proof (keeps_issue request g I). by destruct (issue_challenge _ _ _).
  - pose proof (keeps_attest a g I). by destruct (submit_attestation _ _ _).
  - cbn. apply keeps_locked; [|done]. keeps_tac. apply (audited_less _ _ _ _ HA); auto.
  - pose proof (keeps_exchange request g I). by destruct (exchange _ _ _).
  - assert (K : audited_guard (authorize au h r k g).2).
    { assert (audited_guard (authorize_inner au h r k g).2).
      { apply keeps_locked; [|done]. unfold as_auth. keeps_tac; [apply keeps_authenticate|].
        case_match. keeps_tac; [by apply keeps_outside, AO|].
        destruct (st_session _) as [b|] eqn:Eb; [|done]. case_decide; [|done].
        destruct HA as [AP AS]. split; [done|]. intros ? [= <-]. by apply (AS b). }
      destruct r as [r|]; cbn; [|done]. unfold authorize_with. by destruct (negb _). }
    by destruct (authorize _ _ _ _ _).
  - assert (K : audited_guard (revoke_with au h k g).2).
    { apply keeps_locked; [|done]. unfold as_auth. keeps_tac; [apply keeps_authenticate|..].
      - by apply keeps_attempt_outside, AO.
      - case_match; keeps_tac; [apply (audited_less _ _ _ _ HA); auto|apply audited_default|].
        intros w st A. by apply ends_throw. }
    by destruct (revoke_with _ _ _ _).
  - cbn. apply keeps_locked; [|done]. apply keeps_cbind; [|intros ?]; keeps_tac. apply audited_default.
  - intros P. cbn in *. eapply audited_world; [by apply AO|]. by apply I.
Qed.

Lemma reach_audited w outs g :
  auth_reach au append_only_call w outs g → gd_poisoned g = false →
  audited (gd_world g) (gd_state g).
Proof.
  intros R. enough (audited_guard g) by auto.
  induction R; [intros _; apply audited_default|by apply keeps_step_call].
Qed.

End audited.

(** ** The world after a call

    The authority changes the world only through its environment, its audit store and the
    callbacks: a preorder that those respect is respected by every call. *)

Section world.
Context {S : Type} `{Externals} `{OperatorExternals} `{AuthExternals}.
Context (au : OperatorAuthAuthority S) (R : relation S) `{!PreOrder R}.

Definition world_moves {E A} (c : call S E A) : Prop := ∀ w, R w (c w).2.

Record world_laws : Prop := {
  wl_append request : world_moves (append_authority_event (oa_audit au) request);
  wl_now : world_moves (env_trusted_utc_now (oa_environment au));
  wl_tick : world_moves (env_monotonic_millis (oa_environment au));
  wl_random purpose n : world_moves (env_fill_random (oa_environment au) purpose n);
  wl_uuid : world_moves (env_new_uuid_v7 (oa_environment au));
}.

Definition world_call (c : auth_call (S := S)) : Prop :=
  match c with
  | CAuthorize _ _ callback | CRevoke _ callback => ∀ a, world_moves (callback a)
  | CWorld f => ∀ w, R w (f w)
  | _ => True
  end.

Definition carries {E A} (c : call (Guarded S) E A) : Prop :=
  ∀ g, R (gd_world g) (gd_world (c g).2).

Lemma carries_cbind {E A B} (c : call _ E A) (k : A → call _ E B) :
  carries c → (∀ a, carries (k a)) → carries (cbind c k).
Proof.
  intros Kc Kk g. unfold cbind. specialize (Kc g). destruct (c g) as [[a|e|] g']; cbn in *; try done.
  etransitivity; [done|apply Kk].
Qed.
Lemma carries_pure {E A} (c : call _ E A) : (∀ g, gd_world (c g).2 = gd_world g) → carries c.
Proof. intros K g. by rewrite K. Qed.
Lemma carries_map_err {E F A} (f : E → F) (c : call _ E A) : carries c → carries (call_map_err f c).
Proof. intros K g. apply K. Qed.
Lemma carries_attempt {E F A} (c : call _ E A) : carries c → carries (attempt (F := F) c).
Proof. intros K g. apply K. Qed.
Lemma carries_outside {E A} (c : call S E A) : world_moves c → carries (outside c).
Proof. intros K g. unfold outside. specialize (K (gd_world g)). by destruct (c _). Qed.
Lemma carries_locked {E A} (u : E) (body : call (Guarded S) E A) : carries body → carries (locked u body).
Proof.
  intros K g. specialize (K g). unfold locked. destruct (gd_poisoned g); [reflexivity|].
  by destruct (body g) as [[] ?].
Qed.
Lemma carries_ok_or_clear {E A} (r : result E A) : carries (ok_or_clear r).
Proof. apply carries_pure. by destruct r. Qed.
Lemma carries_or_clear {E A} (c : call S E A) : world_moves c → carries (or_clear c).
Proof.
  intros K. apply carries_cbind; [by apply carries_attempt, carries_outside|].
  intros r. apply carries_ok_or_clear.
Qed.

Ltac carries_step :=
  lazymatch goal with
  | |- carries (locked _ _) => apply carries_locked
  | |- carries (cbind _ _) => apply carries_cbind; [|intros ?]
  | |- carries (or_clear _) => apply carries_or_clear
  | |- carries (ok_or_clear _) => apply carries_ok_or_clear
  | |- carries (some_or_clear _) => apply carries_ok_or_clear
  | |- carries (call_map_err _ _) => apply carries_map_err
  | |- carries (attempt _) => apply carries_attempt
  | |- carries (outside _) => apply carries_outside
  | |- carries (if ?b then _ else _) => destruct b
  | |- carries (match ?x with _ => _ end) => destruct x
  | |- carries (let '_ := ?x in _) => destruct x
  | |- carries _ => by apply carries_pure
  end.
Ltac carries_tac := repeat (cbv zeta; carries_step).

Lemma step_carries c g :
  world_laws → world_call c → R (gd_world g) (gd_world (auth_step au c g).2).
Proof.
  intros [La Ln Lt Lr Lu] AO.
  assert (LA : ∀ request, world_moves (append_audit au request)).
  { intros request w. unfold append_audit, cbind, call_map_err. specialize (La request w).
    destruct (append_authority_event _ _ w) as [[] ?]; cbn in *; [by destruct (negb _)|done..]. }
  assert (LI : carries (new_id au)) by (unfold new_id; carries_tac; done).
  assert (LU : ∀ h r, carries (authenticate_locked au h r))
    by (intros; unfold authenticate_locked, expire_session; carries_tac; auto).
  destruct c as [request|a|id|request|h r k|h k| |f]; cbn [auth_step].
  - assert (K : carries (issue_challenge au request)) by (unfold issue_challenge; carries_tac; auto).
    specialize (K g). by destruct (issue_challenge _ _ _).
  - assert (K : carries (submit_attestation au a)) by (unfold submit_attestation; carries_tac; auto).
    specialize (K g). by destruct (submit_attestation _ _ _).
  - assert (K : carries (consume_failed_challenge (S := S) id))
      by (unfold consume_failed_challenge; carries_tac; auto). apply K.
  - assert (K : carries (exchange au request))
      by (unfold exchange, open_session; carries_tac; auto).
    specialize (K g). by destruct (exchange _ _ _).
  - assert (K : carries (authorize au h r k)).
    { unfold authorize, authorize_with, authorize_any_with, authorize_inner, as_auth.
      carries_tac; auto; apply AO. }
    specialize (K g). by destruct (authorize _ _ _ _ _).
  - assert (K : carries (revoke_with au h k)).
    { unfold revoke_with, as_auth. carries_tac; auto; apply AO. }
    specialize (K g). by destruct (revoke_with _ _ _ _).
  - assert (K : carries (invalidate_for_shutdown au))
      by (unfold invalidate_for_shutdown; carries_tac; auto). apply K.
  - apply AO.
Qed.

Lemma reach_carries w outs g :
  world_laws → auth_reach au world_call w outs g → R w (gd_world g).
Proof.
  intros L. induction 1; [reflexivity|]. etransitivity; [done|]. by apply step_carries.
Qed.

End world.

(** ** The authority over the operator store *)

#[global] Arguments sqlite_append_authority_event : simpl never.

Section sqlite.
Context {C : Type} `{Externals} `{OperatorExternals} `{AuthExternals}.

(** The world is the state of the environment and the store; the store reads the clock of
    the environment. *)
Definition beside {E A} (c : call C E A) : call (C * Tx) E A := λ w,
  let '(r, c') := c w.1 in (r, (c', w.2)).

Definition sqlite_environment (environment : OperatorControlEnvironment C)
    : OperatorControlEnvironment (C * Tx) :=
  {| env_trusted_utc_now := beside (env_trusted_utc_now environment);
     env_monotonic_millis := beside (env_monotonic_millis environment);
     env_fill_random purpose n := beside (env_fill_random environment purpose n);
     env_new_uuid_v7 := beside (env_new_uuid_v7 environment) |}.

Definition sqlite_audit (context : C → option OperatorStoreContext)
    : OperatorAuthorityAuditStore (C * Tx) :=
  {| append_authority_event request w :=
       let '(r, s) := sqlite_append_authority_event (context w.1) request w.2 in
       (r, (w.1, s)) |}.

Definition sqlite_authority (policy : AuthPolicy) (environment : OperatorControlEnvironment C)
    (context : C → option OperatorStoreContext) : OperatorAuthAuthority (C * Tx) :=
  {| oa_policy := policy; oa_environment := sqlite_environment environment;
     oa_audit := sqlite_audit context |}.

(** Statements of the store relate its tables before and after. *)
Definition store_writes : relation (C * Tx) := λ w w', rtc write (tx_db w.2) (tx_db w'.2).

#[local] Instance store_writes_preorder : PreOrder store_writes.
Proof. split; [intros w; apply rtc_refl|]. intros w1 w2 w3. unfold store_writes. apply transitivity. Qed.

Definition recorded_in (w : C * Tx) (e : AuditEvent) : Prop := e ∈ db_events (tx_db w.2).

Lemma writes_append_authority store request :
  moves (rtc write) (sqlite_append_authority_event store request).
Proof. unfold sqlite_append_authority_event, ensure_workspace. moves_tac. Qed.

Lemma store_writes_recorded w w' e : store_writes w w' → recorded_in w e → recorded_in w' e.
Proof.
  unfold store_writes, recorded_in. intros W. induction W as [|d1 d2 d3 W _ IH]; [done|].
  intros I. apply IH. apply write_append_only, ao_events in W as [l ->].
  by apply elem_of_app; left.
Qed.

Lemma sqlite_laws policy environment context :
  world_laws (sqlite_authority policy environment context) store_writes.
Proof.
  split.
  1: { intros request [c s]. unfold store_writes. cbn.
       pose proof (writes_append_authority (context c) request s) as W.
       by destruct (sqlite_append_authority_event _ _ _). }
  all: intros; intros [c s]; unfold store_writes; cbn; unfold beside; cbn.
  - by destruct (env_trusted_utc_now environment c).
  - by destruct (env_monotonic_millis environment c).
  - by destruct (env_fill_random environment _ _ c).
  - by destruct (env_new_uuid_v7 environment c).
Qed.

#[export] Instance sqlite_recording policy environment context :
  RecordingAudit (sqlite_authority policy environment context) recorded_in.
Proof.
  pose proof (sqlite_laws policy environment context) as L.
  split; [|intros; eapply store_writes_recorded; [apply L|done]..].
  intros request [c s] result w'. cbn.
  destruct (sqlite_append_authority_event _ _ s) as [r s'] eqn:E. intros [= -> <-].
  unfold sqlite_append_authority_event in E. unfold recorded_in. call_inv. cbn.
  match goal with X : transaction _ _ = _ |- _ => rename X into T end.
  unfold transaction in T. destruct (cbind _ _ _) as [[r|e|] s1] eqn:B; [|done..].
  injection T as -> <-. call_inv.
  match goal with X : query _ _ = _ |- _ => unfold query in X; injection X as X; subst end.
  match goal with X : ok_or _ _ = Ok _ |- _ => apply ok_or_Ok, last_Some in X as [l ->] end.
  apply elem_of_app. right. by apply list_elem_of_singleton.
Qed.

(** The other users of the store make calls of the runtime interface. *)
Definition store_call : auth_call (S := C * Tx) → Prop := world_call store_writes.

Lemma store_call_append_only c : store_call c → append_only_call recorded_in c.
Proof.
  destruct c; try done; cbn.
  - intros W a w e. apply store_writes_recorded, W.
  - intros W a w e. apply store_writes_recorded, W.
  - intros W w e. apply store_writes_recorded, W.
Qed.

(** C27: Sessions are audited.  The authority over the operator store, for every sequence of
    its calls, interleaved with statements of the runtime operations: the audit events
    stay one valid chain that only grows; and unless the authority is poisoned, the
    challenge and the session that it holds are in that chain, the challenge with the
    digest that the human signs and the session with the digest of its authority
    binding. *)
Theorem sessions_audited (policy : AuthPolicy) (environment : OperatorControlEnvironment C)
    (context : C → option OperatorStoreContext) (w : C * Tx) (outs : list outcome)
    (g : Guarded (C * Tx)) (I : audit_inv (tx_db w.2))
    (R : auth_reach (sqlite_authority policy environment context) store_call w outs g) :
  audit_inv (tx_db (gd_world g).2)
  ∧ append_only (tx_db w.2) (tx_db (gd_world g).2)
  ∧ (gd_poisoned g = false →
     audited (sqlite_authority policy environment context) recorded_in
       (gd_world g) (gd_state g)).
Proof.
  assert (W : rtc write (tx_db w.2) (tx_db (gd_world g).2))
    by exact (reach_carries _ store_writes w outs g (sqlite_laws _ _ _) R).
  split; [|split].
  - clear R. induction W; eauto using write_audit_inv.
  - clear R I. induction W as [|d1 d2 d3 W _ IH]; [done|].
    etransitivity; [by apply write_append_only|done].
  - eapply reach_audited; [apply _|]. by eapply reach_mono; [apply store_call_append_only|].
Qed.

End sqlite.
