(* ===== verification/OperatorAuthSample.v ===== *)
(** * A session of the operator authority

    A workspace with one enrolled human, whose authority records in the operator store,
    over the concrete externals of [OperatorSample]: a challenge is issued and signed,
    exchanged for a session, and the session authorizes a call ([session_flow]).  The
    witnesses of the theorems on operator authentication compute on it. *)

From S2P Require Import Prelude RustStr Externals Json Canonical Evidence OperatorCommon StrictDigest.
From S2P Require Import ExecutionStore OperatorEnvironment Durable AuditChain OperatorAuth OperatorAuthProofs OperatorSample.
From S2P Require Import Base64 RuntimeStore RuntimeProofs OperatorAuthAudit OperatorAuthFailure.
From stdpp Require Import options.

Module OperatorAuthSample.
Import OperatorSample.

#[local] Existing Instance clock.

#[local] Instance keys64 : OperatorExternals :=
  {| base64url_decode := base64url_read; base64url_encode := base64url;
     json_from_str := λ _, None; unwritable_error := "unwritable" |}.

#[local] Instance auth_externals : AuthExternals :=
  {| auth_sha256 := hash; utc_checked_add := λ t d, Some (t + d)%Z |}.

Definition human_key : string := Sample.take_pad 32 "human".

Definition some_capabilities : CapabilitySet :=
  {| capabilities := [ApprovalRead; RunRead] |}.

Definition auth_policy : AuthPolicy :=
  {| ap_workspace_id := 1; ap_workspace_fingerprint := zero_control;
     ap_server_instance_id := 5; ap_human_id := 2; ap_human_public_key := human_key;
     ap_human_public_key_fingerprint := public_key_fingerprint human_key;
     ap_auth_epoch := 1; ap_policy_revision := 1; ap_origin := "http://127.0.0.1:8080";
     ap_enrolled_capabilities := some_capabilities;
     ap_workspace_capabilities := some_capabilities;
     ap_supported_capabilities := CapabilitySet_all |}.

Lemma policy_valid : AuthPolicy_validate auth_policy = Ok ().
Proof. vm_compute. reflexivity. Qed.

(** The state of the environment: the seconds that have passed and the next identifier. *)
Definition environment : OperatorControlEnvironment (N * N) :=
  {| env_trusted_utc_now := λ c, (Ok (second (Z.of_N c.1)), c);
     env_monotonic_millis := λ c, (Ok (1000 * c.1)%N, c);
     env_fill_random := λ _ n c, (Ok (Sample.take_pad n "random"), c);
     env_new_uuid_v7 := λ c, (Ok c.2, (c.1, c.2 + 1)%N) |}.

Definition empty_catalog : OperatorSchemaCatalog :=
  {| sc_binding := {| cb_schema := "catalog"; cb_entries := [] |}; sc_operations := ∅ |}.

Definition context (c : N * N) : option OperatorStoreContext :=
  Some {| oc_now := Some (second (Z.of_N c.1)); oc_catalog := empty_catalog |}.

Definition human : Principal :=
  principal_from_keypair
    {| kp_principal_id := 2; kp_kind := Human; kp_created_at := second 0;
       kp_signing_key := human_key |}.

Definition tables : Db :=
  {| db_workspace := Some 1%N; db_human := Some 2%N; db_principals := {[2%N := human]};
     db_budgets := ∅; db_controls := ∅; db_leases := ∅; db_reservations := ∅;
     db_directives := ∅; db_approval_requests := ∅; db_approvals := ∅;
     db_projections := []; db_heads := {[1%N := (0%N, None)]}; db_events := [];
     db_runs := ∅; db_steps := ∅; db_checkpoints := ∅; db_run_events := ∅;
     db_evaluations := ∅; db_replays := ∅; db_bindings := ∅; db_proofs := ∅;
     db_contexts := ∅ |}.

Definition world : N * N * Tx :=
  ((0%N, 50%N), {| tx_db := tables; tx_uuids := N.of_nat <$> seq 100 10 |}).

Definition authority : OperatorAuthAuthority (N * N * Tx) :=
  sqlite_authority auth_policy environment context.

(** ** The calls *)

Definition nonce : string := Sample.take_pad 32 "nonce".

Definition issue_request : ChallengeIssueRequest :=
  {| cr_schema := "proof.operator.session.challenge-issue-request/v1";
     cr_client_nonce_digest := client_nonce_digest nonce;
     cr_requested_capabilities := some_capabilities |}.

(** The challenge that this environment gives. *)
Definition challenge : SessionChallenge :=
  new_challenge authority issue_request some_capabilities 50
    (Sample.take_pad 32 "random") (second 0) (second 120).

Definition attestation : SessionAttestation :=
  let bytes := match challenge_signing_bytes challenge with Ok b => b | _ => EmptyString end in
  {| at_schema := "proof.operator.session.attestation/v1"; at_challenge := challenge;
     at_signature_algorithm := "ed25519";
     at_signature := base64url (ed25519_sign human_key bytes);
     at_signed_bytes_digest := {| control_bytes := blake3 bytes |} |}.

Definition exchange_request : SessionExchangeRequest :=
  {| xr_schema := "proof.operator.session.exchange-request/v1"; xr_challenge_id := 50;
     xr_client_nonce := encode_hex nonce |}.

Definition tick (seconds : N) (w : N * N * Tx) : N * N * Tx :=
  ((w.1.1 + seconds, w.1.2)%N, w.2).

Definition required : CapabilitySet := {| capabilities := [RunRead] |}.
Definition header : string := encode_hex (Sample.take_pad 32 "random").

Definition sign_calls : list (auth_call (S := N * N * Tx)) :=
  [CIssue issue_request; CWorld (tick 10); CAttest attestation; CWorld (tick 10)].
Definition session_calls : list (auth_call (S := N * N * Tx)) :=
  sign_calls ++ [CExchange exchange_request; CWorld (tick 200)].
Definition use : auth_call (S := N * N * Tx) :=
  CAuthorize [header] (Some required) (λ _, ret ()).

Fixpoint auth_run {S} (au : OperatorAuthAuthority S) (calls : list (auth_call (S := S)))
    (outs : list (outcome)) (g : Guarded S) : list outcome * Guarded S :=
  match calls with
  | [] => (outs, g)
  | c :: calls => auth_run au calls (outs ++ [(auth_step au c g).1]) (auth_step au c g).2
  end.

Lemma run_reach {S} (au : OperatorAuthAuthority S) allowed w calls outs g :
  Forall allowed calls → auth_reach au allowed w outs g →
  auth_reach au allowed w (auth_run au calls outs g).1 (auth_run au calls outs g).2.
Proof.
  revert outs g. induction calls as [|c calls IH]; intros outs g F R; [done|].
  apply Forall_cons in F as [Fc F]. apply IH; [done|]. by constructor.
Qed.

Definition after (calls : list (auth_call (S := N * N * Tx)))
    : list outcome * Guarded (N * N * Tx) :=
  auth_run authority calls [] (guarded_new world).

Lemma after_reach calls :
  Forall store_call calls → auth_reach authority store_call world (after calls).1 (after calls).2.
Proof. intros F. apply run_reach; [done|constructor]. Qed.

Lemma session_calls_store : Forall store_call session_calls.
Proof. repeat constructor; intros w; apply rtc_refl. Qed.

(** Which kind of outcome it is. *)
Definition opening (o : outcome) : option (N * SessionExchangeRequest * SessionExchangeResponse) :=
  match o with Opened t x r => Some (t, x, r) | _ => None end.
Definition running (o : outcome) : option AuthorizedSession :=
  match o with Ran _ _ _ a _ => Some a | _ => None end.

(** The whole flow: the exchange opens a session and the session authorizes the call. *)
Lemma session_flow :
  is_some (opening (auth_step authority (CExchange exchange_request) (after sign_calls).2).1)
  && is_some (running (auth_step authority use (after session_calls).2).1) = true.
Proof. vm_compute. reflexivity. Qed.

(** ** Witnesses *)

Lemma sign_calls_store : Forall store_call sign_calls.
Proof. repeat constructor; intros w; apply rtc_refl. Qed.

Lemma session_needs_attestation_witness :
  ∃ c issued a request r,
    attested_in auth_policy c issued a (after sign_calls).1
    ∧ (xs_issued_at r < ch_expires_at c)%Z
    ∧ xr_challenge_id request = ch_challenge_id c
    ∧ xs_granted_capabilities r = ch_granted_capabilities c.
Proof.
  pose proof session_flow as F. apply andb_true_iff in F as [F _].
  destruct (auth_step authority (CExchange exchange_request) (after sign_calls).2)
    as [o g'] eqn:E. destruct o as [| |t x r| | |]; try discriminate F.
  destruct (session_needs_attestation authority store_call world (after sign_calls).1
              (after sign_calls).2 (CExchange exchange_request) t x r g'
              (after_reach sign_calls sign_calls_store) E)
    as (c & issued & a & A & _ & U & I & _ & G & _).
  exists c, issued, a, x, r. auto.
Defined.

(** The same authority when the audit store does not answer: the exchange of the signed
    challenge opens nothing and the challenge is lost. *)
Definition unrecorded : OperatorAuthAuthority (N * N * Tx) :=
  {| oa_policy := auth_policy; oa_environment := oa_environment authority;
     oa_audit := {| append_authority_event := λ _, throw StoreError.Unavailable |} |}.

Lemma auth_fails_closed_witness :
  let g := (after sign_calls).2 in
  is_some (st_pending (gd_state g)) = true
  ∧ gd_state (auth_step unrecorded (CExchange exchange_request) g).2 = AuthState_default.
Proof.
  cbv zeta. split; [vm_compute; reflexivity|].
  destruct (auth_fails_closed unrecorded (CExchange exchange_request) (after sign_calls).2)
    as (F & L & _).
  destruct F as [A|A]; [vm_compute; reflexivity..| |vm_compute in A; discriminate A].
  apply L; [vm_compute; reflexivity|exact A].
Defined.

Lemma session_authorizes_witness :
  ∃ x request r o1 opened_at o2,
    (after session_calls).1 = o1 ++ Opened opened_at request r :: o2
    ∧ az_session_id x = xs_session_id r.
Proof.
  pose proof session_flow as F. apply andb_true_iff in F as [_ F].
  destruct (auth_step authority use (after session_calls).2) as [o g'] eqn:E.
  destruct o as [| | |t h c x b| |]; try discriminate F.
  destruct (session_authorizes authority store_call world (after session_calls).1
              (after session_calls).2 use t h c x b g'
              (after_reach session_calls session_calls_store) E)
    as (o1 & t0 & request & r & o2 & token & Eo & _ & Hs & _).
  exists x, request, r, o1, t0, o2. auto.
Defined.

Lemma tables_chain : audit_inv tables.
Proof. intros w [= <-]. by split_and!. Qed.

Lemma sessions_audited_witness :
  audit_inv (tx_db (gd_world (after session_calls).2).2)
  ∧ append_only tables (tx_db (gd_world (after session_calls).2).2).
Proof.
  destruct (sessions_audited auth_policy environment context world (after session_calls).1
              (after session_calls).2 tables_chain
              (after_reach session_calls session_calls_store)) as (A & B & _).
  exact (conj A B).
Defined.

End OperatorAuthSample.
