(* ===== verification/RuntimeWp.v ===== *)
(** * Postconditions of transactions

    [wp c Q d]: when [c] runs on the tables [d] and returns a value, [Q] holds of the
    value and the new tables.  A call that fails inside a transaction leaves nothing
    behind, so this is what the theorems about the tables need ([transaction_wp]).  The
    loads give what they have read and checked, and the classes [IgnoresAudit],
    [IgnoresRun] and [IgnoresResult] say which tables a relation does not compare, so
    that the code which only writes those needs no analysis. *)

From S2P Require Import Prelude RustStr Externals Json Canonical Serialized Evidence Approval.
From S2P Require Import OperatorCommon StrictDigest Agent AgentRun ExecutionStore Durable AuditChain Custody.
From S2P Require Import RuntimeStore ReplayStore RuntimeOps RuntimeCommitOp RuntimeProofs.
From stdpp Require Import options.

#[local] Set Default Proof Using "All".

Definition wp {A E} (c : call Tx E A) (Q : A → Db → Prop) (d : Db) : Prop :=
  ∀ s a s', tx_db s = d → c s = (Ok a, s') → Q a (tx_db s').

Section rules.
Context {E : Type}.

Lemma wp_ret {A} (a : A) Q d : Q a d → wp (ret (E := E) a) Q d.
Proof. intros X s b s' <- [= <- <-]. done. Qed.
Lemma wp_throw {A} (e : E) Q d : wp (throw (A := A) e) Q d.
Proof. intros s b s' _ [=]. Qed.
Lemma wp_lift {A} (r : result E A) Q d : (∀ a, r = Ok a → Q a d) → wp (lift r) Q d.
Proof. intros X s b s' <- [= Y <-]. by apply X. Qed.
Lemma wp_bind {A B} (c : call Tx E A) (k : A → call Tx E B) Q d :
  wp c (λ a, wp (k a) Q) d → wp (cbind c k) Q d.
Proof.
  intros X s b s' Hd Y. unfold cbind in Y. destruct (c s) as [[a|e|] s1] eqn:Z; try done.
  exact (X s a s1 Hd Z s1 b s' eq_refl Y).
Qed.
Lemma wp_map_err {A F} (f : E → F) (c : call Tx E A) Q d :
  wp c Q d → wp (call_map_err f c) Q d.
Proof.
  intros X s b s' Hd Y. unfold call_map_err in Y.
  destruct (c s) as [[a|e|] s1] eqn:Z; try done. injection Y as <- <-. by apply (X s a s1).
Qed.
Lemma wp_mono {A} (c : call Tx E A) (P Q : A → Db → Prop) d :
  wp c P d → (∀ a d', P a d' → Q a d') → wp c Q d.
Proof. intros X Y s a s' Hd Z. apply Y. by eapply X. Qed.
Lemma wp_moves {A} (R : relation Db) (c : call Tx E A) (Q : A → Db → Prop) d :
  moves R c → (∀ a d', R d d' → Q a d') → wp c Q d.
Proof. intros X Y s a s' <- Z. apply Y. specialize (X s). by rewrite Z in X. Qed.
Lemma wp_reads {A} (c : call Tx E A) (Q : A → Db → Prop) d :
  reads c → (∀ a, Q a d) → wp c Q d.
Proof. intros X Y. apply (wp_moves eq); [done|]. by intros a d' <-. Qed.

(** A call that only moves the tables by [R], since [d0]. *)
Lemma wp_skip {A B} (R : relation Db) `{!PreOrder R} (c : call Tx E A) (k : A → call Tx E B) Q d0 d :
  R d0 d → moves R c → (∀ a d', R d0 d' → wp (k a) Q d') → wp (cbind c k) Q d.
Proof.
  intros S M X. apply wp_bind, (wp_moves R); [done|]. intros a d' Y. apply X.
  exact (transitivity S Y).
Qed.

End rules.

Lemma wp_query {A} (f : Db → result StoreError.t A) Q d :
  (∀ a, f d = Ok a → Q a d) → wp (query f) Q d.
Proof. intros X s b s' <- [= Y <-]. by apply X. Qed.
Lemma wp_sql admissible effect (Q : () → Db → Prop) d :
  (admissible d = true → Q tt (effect d)) → wp (sql admissible effect) Q d.
Proof.
  intros X s [] s' <- Y. unfold sql in Y. destruct (admissible (tx_db s)); [|done].
  injection Y as <-. by apply X.
Qed.
Lemma wp_uuid store (Q : Uuid → Db → Prop) d : (∀ id, Q id d) → wp (operator_uuid store) Q d.
Proof. intros X. apply wp_reads; [|done]. apply moves_uuid, _. Qed.
Lemma wp_candidate {A} (c : tx A) (Q : result StoreError.t A → Db → Prop) d :
  wp c (λ a, Q (Ok a)) d → (∀ e, Q (Err e) d) → wp (candidate c) Q d.
Proof.
  intros X Y s a s' Hd Z. unfold candidate in Z.
  destruct (c s) as [[b|e|] s1] eqn:W; try done; injection Z as <- <-.
  - by apply (X s b s1).
  - cbn. rewrite Hd. apply Y.
Qed.

(** What a transaction may do to the tables. *)
Lemma transaction_wp {A} (R : relation Db) `{!Reflexive R} (body : tx (result StoreError.t A)) s :
  wp body (λ _, R (tx_db s)) (tx_db s) → R (tx_db s) (tx_db (transaction body s).2).
Proof.
  intros X. unfold transaction. destruct (body s) as [[r|e|] s'] eqn:Y; cbn; [|done..].
  by apply (X s r s').
Qed.

(** The guards before a transaction. *)
Ltac transaction_tac :=
  match goal with |- ?R (tx_db ?s) (tx_db (?c ?s).2) => change (moves_at R c s) end;
  repeat lazymatch goal with
  | |- moves_at _ (cbind (lift _) _) _ => apply at_lift; [exact _|intros ? ?]
  | |- moves_at _ (if _ then throw _ else _) _ => apply at_stop; [exact _|intros ?]
  end;
  unfold moves_at; apply transaction_wp; [exact _|].

(** A transaction that cannot reach its end returns no value. *)
Lemma transaction_refused {A} (body : tx (result StoreError.t A)) s :
  wp body (λ _ _, False) (tx_db s) →
  tx_db (transaction body s).2 = tx_db s ∧ ∀ a, (transaction body s).1 ≠ Ok a.
Proof.
  intros X. unfold transaction. destruct (body s) as [[r|e|] s'] eqn:Y; [|done..].
  by destruct (X s r s').
Qed.

(** ** Loads *)

Section loads.
Context `{Externals} `{OperatorExternals}.

Ltac load_tac X :=
  apply wp_bind, wp_query; intros ? ?; apply wp_bind, wp_lift; intros [] ?;
  unfold corrupt in *; case_match; [apply wp_throw|]; res_inv; by apply wp_ret, X.

Lemma wp_load_control run (Q : RunControl → Db → Prop) d :
  (∀ c, db_controls d !! run = Some c → ctl_run_id c = run → RunControl_validate c = Ok () → Q c d) →
  wp (load_control run) Q d.
Proof. intros X. unfold load_control. load_tac X. Qed.
Lemma wp_load_lease id (Q : RunLease → Db → Prop) d :
  (∀ l, db_leases d !! id = Some l → ls_lease_id l = id → RunLease_validate l = Ok () → Q l d) →
  wp (load_lease id) Q d.
Proof. intros X. unfold load_lease. load_tac X. Qed.
Lemma wp_load_budget id (Q : BudgetAccount → Db → Prop) d :
  (∀ b, db_budgets d !! id = Some b → bl_budget_id (ba_policy b) = id →
        BudgetAccount_validate b = Ok () → Q b d) →
  wp (load_budget id) Q d.
Proof. intros X. unfold load_budget. load_tac X. Qed.
Lemma wp_load_reservation id (Q : BudgetReservation → Db → Prop) d :
  (∀ r, db_reservations d !! id = Some r → br_reservation_id r = id →
        BudgetReservation_validate r = Ok () → Q r d) →
  wp (load_reservation id) Q d.
Proof. intros X. unfold load_reservation. load_tac X. Qed.

(** What a validated authority is. *)
Record authorized (a : LeaseAuthority) (now : DateTime) (d : Db) (c : RunControl)
    (l : RunLease) : Prop := {
  au_control : db_controls d !! la_run_id a = Some c;
  au_run : ctl_run_id c = la_run_id a;
  au_workspace : ctl_workspace_id c = la_workspace_id a;
  au_revision : ctl_control_revision c = la_expected_control_revision a;
  au_lease : db_leases d !! la_lease_id a = Some l;
  au_lease_id : ls_lease_id l = la_lease_id a;
  au_lease_run : ls_run_id l = la_run_id a;
  au_fence : ls_fence_epoch l = la_fence_epoch a;
  au_active : ls_state l = LeaseState.Active;
  au_current : (now < ls_expires_at l)%Z;
  au_token : verifies_lease_token_digest a (ls_lease_token_digest l) = true;
}.

Lemma wp_authority a now (Q : RunControl * RunLease → Db → Prop) d :
  (∀ c l, authorized a now d c l → Q (c, l) d) → wp (validate_authority a now) Q d.
Proof.
  intros X. unfold validate_authority. case_match; [apply wp_throw|].
  apply wp_bind, wp_query. intros stored L. case_match eqn:T; [apply wp_throw|].
  apply wp_bind, wp_load_control. intros c Lc Rc Vc.
  apply wp_bind, wp_load_lease. intros l Ll Il Vl.
  case_match eqn:G; [apply wp_throw|]. apply wp_ret, X. res_inv.
  repeat match goal with
  | P : (_ =? _)%N = true |- _ => apply N.eqb_eq in P
  | P : (_ <=? _)%Z = false |- _ => apply Z.leb_gt in P
  end.
  rewrite L in Ll. injection Ll as ->. by split.
Qed.

Lemma validate_authority_Ok a now s x s' :
  validate_authority a now s = (Ok x, s') → authorized a now (tx_db s) x.1 x.2.
Proof.
  exact (wp_authority a now (λ x _, authorized a now (tx_db s) x.1 x.2) (tx_db s)
           (λ c l A, A) s x s' eq_refl).
Qed.

End loads.

(** Runs through a call; calls that have lemmas are left to the caller. *)
Ltac wp_step :=
  lazymatch goal with
  | |- wp (cbind _ _) _ _ => apply wp_bind
  | |- wp (ret _) _ _ => apply wp_ret
  | |- wp (throw _) _ _ => apply wp_throw
  | |- wp (lift _) _ _ => apply wp_lift; intros ? ?
  | |- wp (query _) _ _ => apply wp_query; intros ? ?
  | |- wp (sql _ _) _ _ => apply wp_sql; intros ?
  | |- wp (operator_uuid _) _ _ => apply wp_uuid; intros ?
  | |- wp (call_map_err _ _) _ _ => apply wp_map_err
  | |- wp (candidate _) _ _ => apply wp_candidate; [|intros ?]
  | |- wp (validate_authority _ _) _ _ => apply wp_authority; intros ? ? ?
  | |- wp (load_control _) _ _ => apply wp_load_control; intros ? ? ? ?
  | |- wp (load_lease _) _ _ => apply wp_load_lease; intros ? ? ? ?
  | |- wp (load_budget _) _ _ => apply wp_load_budget; intros ? ? ? ?
  | |- wp (load_reservation _) _ _ => apply wp_load_reservation; intros ? ? ? ?
  | |- wp (if ?b then throw _ else _) _ _ => destruct b eqn:?; [apply wp_throw|]
  | |- wp (if ?b then _ else _) _ _ => destruct b eqn:?
  | |- wp (match ?x with _ => _ end) _ _ => destruct x eqn:?
  end.
Ltac wp_tac :=
  repeat (cbv beta zeta;
          first [wp_step|apply wp_reads; [solve [eauto 2 with reads]|intros ?]]).

(** What a commit has loaded. *)
Record loaded `{Externals} `{OperatorExternals} (c : RunControl) (l : RunLease) (r : BudgetReservation)
    (d : Db) (x : Loaded) : Prop := {
  lo_control : ld_control x = c;
  lo_lease : ld_lease x = l;
  lo_reservation : ld_reservation x = r;
  lo_budget : db_budgets d !! br_budget_id r = Some (ld_budget x);
  lo_budget_id : bl_budget_id (ba_policy (ld_budget x)) = br_budget_id r;
  lo_budget_valid : BudgetAccount_validate (ld_budget x) = Ok ();
}.

Lemma wp_load_commit `{Externals} `{OperatorExternals} c l r p (Q : Loaded → Db → Prop) d :
  (∀ x, loaded c l r d x → Q x d) → wp (load_commit c l r p) Q d.
Proof. intros X. unfold load_commit. wp_tac. apply X. by split. Qed.

Lemma wp_settlement_authority `{Externals} `{OperatorExternals} a p r now
    (Q : RunControl * RunLease → Db → Prop) d :
  (∀ c l, authorized a now d c l → Q (c, l) d) → wp (settlement_authority a p r now) Q d.
Proof. intros X. unfold settlement_authority. wp_tac. by apply X. Qed.

(** ** Frames

    A relation that ignores what is only appended ([IgnoresAudit]), one that ignores
    all tables which the end of every operation writes ([IgnoresRun]), and one that
    ignores the tables of results, with ([IgnoresResult]) or without ([IgnoresRecords])
    the runs themselves. *)

Class IgnoresAudit (R : relation Db) : Prop := {
  ir_preorder :: PreOrder R;
  ir_projections t d : R d (with_projections t d);
  ir_events t d : R d (with_events t d);
  ir_heads t d : R d (with_heads t d);
}.

Class IgnoresRun (R : relation Db) : Prop := {
  ir_audit :: IgnoresAudit R;
  ir_controls t d : R d (with_controls t d);
}.

Class IgnoresRecords (R : relation Db) : Prop := {
  is_steps t d : R d (with_steps t d);
  is_replays t d : R d (with_replays t d);
  is_bindings t d : R d (with_bindings t d);
  is_directives t d : R d (with_directives t d);
  is_contexts t d : R d (with_contexts t d);
  is_proofs t d : R d (with_proofs t d);
  is_checkpoints t d : R d (with_checkpoints t d);
  is_run_events t d : R d (with_run_events t d);
  is_evaluations t d : R d (with_evaluations t d);
  is_approval_requests t d : R d (with_approval_requests t d);
  is_approvals t d : R d (with_approvals t d);
}.

Class IgnoresResult (R : relation Db) : Prop := {
  is_records :: IgnoresRecords R;
  is_runs t d : R d (with_runs t d);
}.

#[export] Hint Extern 0 (IgnoresAudit _) => exact _ : moves.
#[export] Hint Extern 0 (IgnoresRun _) => exact _ : moves.
#[export] Hint Extern 0 (IgnoresRecords _) => exact _ : moves.
#[export] Hint Extern 0 (IgnoresResult _) => exact _ : moves.

(** The statements that [moves_tac] leaves. *)
Ltac ignore_tac :=
  moves_tac;
  first [ apply ir_controls | apply ir_projections | apply ir_events | apply ir_heads
        | apply is_runs | apply is_steps | apply is_replays | apply is_bindings
        | apply is_directives | apply is_contexts | apply is_proofs | apply is_checkpoints
        | apply is_run_events | apply is_evaluations | apply is_approval_requests
        | apply is_approvals ].

Section audit.
Context `{Externals} `{OperatorExternals} (R : relation Db) `{!IgnoresAudit R}.

Lemma ignores_projection p : moves R (insert_projection p).
Proof. unfold insert_projection. ignore_tac. Qed.
Lemma ignores_event e : moves R (append_audit_event e).
Proof. unfold append_audit_event. ignore_tac. Qed.
#[local] Hint Resolve ignores_projection ignores_event : moves.
Lemma ignores_current_projection store c n now :
  moves R (append_current_projection store c n now).
Proof. unfold append_current_projection. moves_tac. Qed.
Lemma ignores_lease_event store l k now : moves R (append_lease_event store l k now).
Proof. unfold append_lease_event. moves_tac. Qed.
Lemma ignores_budget_event store c l r i k o now :
  moves R (append_budget_event store c l r i k o now).
Proof. unfold append_budget_event. moves_tac. Qed.
Lemma ignores_dispatch_event store c l r now : moves R (append_dispatch_event store c l r now).
Proof. unfold append_dispatch_event. moves_tac. Qed.
Lemma ignores_forfeit_events store c l r now : moves R (append_forfeit_events store c l r now).
Proof. unfold append_forfeit_events. moves_tac. Qed.
Lemma ignores_commit_events store c l r p now : moves R (append_commit_events store c l r p now).
Proof. unfold append_commit_events. moves_tac. Qed.
Lemma ignores_reject {A} store c l r i now e : moves R (reject (A := A) store c l r i now e).
Proof. unfold reject, append_budget_event. moves_tac. Qed.

End audit.

#[export] Hint Resolve ignores_projection ignores_event ignores_current_projection
  ignores_lease_event ignores_budget_event ignores_dispatch_event ignores_forfeit_events
  ignores_commit_events ignores_reject : moves.

Section tail.
Context `{Externals} `{OperatorExternals} (R : relation Db) `{!IgnoresRun R}.

Lemma ignores_control c : moves R (update_run_control c).
Proof. unfold update_run_control. ignore_tac. Qed.
#[local] Hint Resolve ignores_control : moves.
Lemma ignores_advance store c n now : moves R (advance store c n now).
Proof. unfold advance. moves_tac. Qed.

End tail.

#[export] Hint Resolve ignores_control ignores_advance : moves.

Section records.
Context `{Externals} `{OperatorExternals} (R : relation Db) `{!IgnoresAudit R, !IgnoresRecords R}.

Lemma ignores_step r n : moves R (update_agent_step_exact r n).
Proof. unfold update_agent_step_exact. ignore_tac. Qed.
Lemma ignores_binding b r now : moves R (insert_replay_binding b r now).
Proof. unfold insert_replay_binding. ignore_tac. Qed.
Lemma ignores_mark_failed b now : moves R (mark_bound_replay_failed b now).
Proof. unfold mark_bound_replay_failed. ignore_tac. Qed.
Lemma ignores_directive x : moves R (insert_recovery_directive x).
Proof. unfold insert_recovery_directive. ignore_tac. Qed.
Lemma ignores_claim c : moves R (claim_execution_replay_in_transaction c).
Proof.
  unfold claim_execution_replay_in_transaction. apply moves_cbind; [exact _|moves_tac|intros _].
  intros s. destruct (db_replays (tx_db s) !! rc_key c) as [row|].
  - destruct (negb _); [done|]. destruct (row_state row); [done| |done].
    by rewrite load_completed_outcome_reads.
  - match goal with |- R (tx_db s) (tx_db (?k s).2) => enough (moves R k) by done end.
    ignore_tac.
Qed.
#[local] Hint Resolve ignores_step : moves.
Lemma ignores_fail_step run now : moves R (fail_latest_step run now).
Proof. unfold fail_latest_step. moves_tac. Qed.
Lemma ignores_context_and_proof p : moves R (persist_runtime_context_and_proof p).
Proof. unfold persist_runtime_context_and_proof. ignore_tac. Qed.
Lemma ignores_checkpoint c run n : moves R (persist_runtime_checkpoint c run n).
Proof. unfold persist_runtime_checkpoint. ignore_tac. Qed.
Lemma ignores_run_events l run : moves R (persist_runtime_events l run).
Proof.
  unfold persist_runtime_events. moves_tac.
  match goal with |- context [persist_events_from _ _ ?n] => generalize n end.
  induction l as [|e l IH]; intros n; cbn [persist_events_from]; ignore_tac.
Qed.
Lemma ignores_evaluation e run : moves R (persist_runtime_evaluation e run).
Proof. unfold persist_runtime_evaluation. ignore_tac. Qed.
Lemma ignores_approval b run st cp : moves R (persist_runtime_approval b run st cp).
Proof. unfold persist_runtime_approval. ignore_tac. Qed.
Lemma ignores_complete_replay b p : moves R (complete_bound_replay b p).
Proof. unfold complete_bound_replay. ignore_tac. Qed.

End records.

Section result.
Context `{Externals} `{OperatorExternals} (R : relation Db) `{!IgnoresAudit R, !IgnoresResult R}.

Lemma ignores_run r n : moves R (update_agent_run_exact r n).
Proof. unfold update_agent_run_exact. ignore_tac. Qed.
#[local] Hint Resolve ignores_run : moves.
Lemma ignores_fail_run run now : moves R (fail_run run now).
Proof. unfold fail_run. moves_tac. Qed.

End result.

#[export] Hint Resolve ignores_run ignores_step ignores_binding ignores_mark_failed
  ignores_directive ignores_claim ignores_fail_run ignores_fail_step ignores_context_and_proof
  ignores_checkpoint ignores_run_events ignores_evaluation ignores_approval
  ignores_complete_replay : moves.
