(* ===== verification/RuntimeLeases.v ===== *)
(** * Leases of the runtime store

    A lease is a fencing token: [superseded_authority_refused] shows that once a run has
    a lease with a higher fence epoch, an authority with a lower one is refused for ever,
    whatever is called.  [reclaim_always_refused] shows that an expired lease can never
    be reclaimed, and [expired_lease_stuck] that a run whose lease has expired can never
    be used again. *)

From S2P Require Import Prelude RustStr Externals Json Canonical Serialized Evidence Approval.
From S2P Require Import OperatorCommon StrictDigest Agent AgentRun ExecutionStore Durable AuditChain Custody.
From S2P Require Import RuntimeStore ReplayStore RuntimeOps RuntimeCommitOp RuntimeProofs RuntimeWp.
From stdpp Require Import options.

#[local] Set Default Proof Using "All".

(** ** Reclaiming *)

Section reclaim.
Context `{Externals} `{OperatorExternals}.

(** A lease that has expired cannot be ended: its release would be after its expiry. *)
Lemma end_expired_lease_invalid l now l' :
  (ls_expires_at l ≤ now)%Z → end_lease l now = Ok l' → RunLease_validate l' ≠ Ok ().
Proof.
  intros E X V. unfold end_lease, seal_lease in X. res_inv.
  unfold RunLease_validate in V.
  cbn [set_lease ls_released_at ls_expires_at is_some_and] in V. res_inv.
  match goal with P : (_ <=? _)%Z = false |- _ => apply Z.leb_gt in P end. lia.
Qed.

Lemma wp_update_lease l (Q : () → Db → Prop) d :
  (RunLease_validate l = Ok () → is_Some (db_leases d !! ls_lease_id l) →
   lease_unique l d = true →
   Q tt (with_leases (<[ls_lease_id l := l]> (db_leases d)) d)) →
  wp (update_lease l) Q d.
Proof.
  intros X. unfold update_lease, corrupt. wp_tac. res_inv. apply X; [done| |done].
  by apply present_true.
Qed.

Lemma reclaim_refused store q s :
  tx_db (reclaim store q s).2 = tx_db s ∧ ∀ x, (reclaim store q s).1 ≠ Ok x.
Proof.
  unfold reclaim. case_match; [done|]. apply transaction_refused.
  wp_tac. apply wp_update_lease. intros V. exfalso. revert V.
  eapply end_expired_lease_invalid; [|done]. res_inv.
  match goal with P : (_ <? _)%Z = false |- _ => by apply Z.ltb_ge in P end.
Qed.

End reclaim.

(** ** Fencing *)

Definition same_leases : relation Db := λ d d', db_leases d' = db_leases d.

#[export] Instance same_leases_preorder : PreOrder same_leases.
Proof. split; [done|]. intros a b c E F. unfold same_leases in *. congruence. Qed.
#[export] Instance same_leases_run : IgnoresRun same_leases.
Proof. by repeat split; try exact _. Qed.
#[export] Instance same_leases_result : IgnoresResult same_leases.
Proof. split; by try split. Qed.

(** Code that writes no lease. *)
Section no_lease.
Context `{Externals} `{OperatorExternals}.

Lemma same_leases_budget b : moves same_leases (update_budget b).
Proof. unfold update_budget. moves_tac. done. Qed.
Lemma same_leases_insert_reservation r : moves same_leases (insert_reservation r).
Proof. unfold insert_reservation. moves_tac. done. Qed.
Lemma same_leases_update_reservation r : moves same_leases (update_reservation r).
Proof. unfold update_reservation. moves_tac. done. Qed.
#[local] Hint Resolve same_leases_budget same_leases_insert_reservation
  same_leases_update_reservation : moves.
Lemma same_leases_release store c l r b k o now :
  moves same_leases (release_undispatched store c l r b k o now).
Proof. unfold release_undispatched, release_reservation. moves_tac. Qed.
Lemma same_leases_dispatch store q c l r b now :
  moves same_leases (dispatch_now store q c l r b now).
Proof. unfold dispatch_now, commit. moves_tac. Qed.
Lemma same_leases_forfeit store c l r now : moves same_leases (apply_forfeit store c l r now).
Proof. unfold apply_forfeit. moves_tac. Qed.
#[local] Hint Resolve same_leases_release same_leases_dispatch same_leases_forfeit : moves.

Lemma same_leases_reserve store q : moves same_leases (reserve_aggregate_budget store q).
Proof. unfold reserve_aggregate_budget, reserve_now, commit. moves_tac. Qed.
Lemma same_leases_settle store q : moves same_leases (settle_budget_reservation store q).
Proof. unfold settle_budget_reservation, commit. moves_tac. Qed.
Lemma same_leases_begin store q : moves same_leases (begin_dispatch store q).
Proof. unfold begin_dispatch, authorize_dispatch, claim_then_dispatch, commit. moves_tac. Qed.
Lemma same_leases_failure store q : moves same_leases (forfeit_failure store q).
Proof. unfold forfeit_failure, commit. moves_tac. Qed.
Lemma same_leases_commit store q p : moves same_leases (commit_runtime_barrier store q p).
Proof.
  unfold commit_runtime_barrier, forfeit_commit, commit_runtime, settle_dispatched, forfeit_with,
    persist_result, commit. moves_tac.
Qed.

End no_lease.

(** The rows are consistent, and an active lease has the highest fence epoch of its run. *)
Record fence_inv (d : Db) : Prop := {
  fi_leases : leases_inv d;
  fi_highest : ∀ k l k' l', db_leases d !! k = Some l → db_leases d !! k' = Some l' →
    ls_run_id l' = ls_run_id l → is_active l = true → (ls_fence_epoch l' ≤ ls_fence_epoch l)%N;
}.

(** Leases are never removed and keep their run and their fence epoch. *)
Definition lease_kept (l l' : RunLease) : Prop :=
  ls_run_id l' = ls_run_id l ∧ ls_fence_epoch l' = ls_fence_epoch l.

Definition fence_step (d d' : Db) : Prop :=
  fence_inv d → fence_inv d' ∧
  ∀ k l, db_leases d !! k = Some l → ∃ l', db_leases d' !! k = Some l' ∧ lease_kept l l'.

#[export] Instance fence_step_preorder : PreOrder fence_step.
Proof.
  split; [intros d I; split; [done|]; intros k l L; by exists l|].
  intros d1 d2 d3 S1 S2 I. destruct (S1 I) as [I2 K1], (S2 I2) as [I3 K2]. split; [done|].
  intros k l L. destruct (K1 _ _ L) as (l2 & L2 & R2 & F2), (K2 _ _ L2) as (l3 & L3 & R3 & F3).
  exists l3. split; [done|]. split; congruence.
Qed.

Lemma same_leases_fence_step d d' : same_leases d d' → fence_step d d'.
Proof.
  unfold same_leases. intros E [[K U] Hi]. split; [|rewrite E; intros k l L; by exists l].
  split; [split|]; rewrite E; done.
Qed.

Section fence.
Context `{Externals} `{OperatorExternals}.

Lemma rows_elem {K A} `{Countable K} (m : gmap K A) a : a ∈ rows m ↔ ∃ k, m !! k = Some a.
Proof.
  unfold rows. rewrite list_elem_of_fmap. split.
  - intros ([k b] & -> & E). exists k. by apply elem_of_map_to_list.
  - intros (k & E). exists (k, a). split; [done|]. by apply elem_of_map_to_list.
Qed.

Lemma active_leases_nil run d k l :
  length (active_leases run d) = 0 → db_leases d !! k = Some l → ls_run_id l = run →
  is_active l = false.
Proof.
  intros N L R. apply length_zero_iff_nil in N. unfold is_active. apply bool_decide_false. intros A.
  assert (X : l ∈ active_leases run d).
  { apply list_elem_of_filter. split; [done|]. apply rows_elem. by exists k. }
  rewrite N in X. by apply elem_of_nil in X.
Qed.

Lemma max_fence_above run d k l :
  db_leases d !! k = Some l → ls_run_id l = run → (ls_fence_epoch l ≤ max_fence run d)%N.
Proof.
  intros L R. unfold max_fence.
  assert (X : ls_fence_epoch l ∈
    map ls_fence_epoch (filter (λ l, ls_run_id l = run) (rows (db_leases d)))).
  { apply list_elem_of_fmap. exists l. split; [done|]. apply list_elem_of_filter.
    split; [done|]. apply rows_elem. by exists k. }
  induction X as [n ns|n m ns X IH]; cbn [foldr]; lia.
Qed.

(** A lease with a fence epoch above all others of its run, when none is active. *)
Lemma fence_step_new d l :
  db_leases d !! ls_lease_id l = None → lease_unique l d = true →
  (∀ k l', db_leases d !! k = Some l' → ls_run_id l' = ls_run_id l →
           is_active l' = false ∧ (ls_fence_epoch l' < ls_fence_epoch l)%N) →
  fence_step d (with_leases (<[ls_lease_id l := l]> (db_leases d)) d).
Proof.
  intros N U S [I Hi]. split; [split; [by apply insert_leases_inv|]|]; cbn.
  - intros k l1 k' l2. rewrite !lookup_insert_Some.
    intros [[<- <-]|[_ L1]] [[<- <-]|[_ L2]] R A; [done| | |by eapply Hi].
    + destruct (S _ _ L2 R). lia.
    + destruct (S _ _ L1 (eq_sym R)). congruence.
  - intros k l' L. exists l'. split; [|done]. rewrite lookup_insert_ne; congruence.
Qed.

(** A change of a lease that keeps its run and its fence epoch, and does not activate
    it. *)
Lemma fence_step_update d l0 l :
  db_leases d !! ls_lease_id l = Some l0 → lease_unique l d = true → lease_kept l0 l →
  (is_active l = true → is_active l0 = true) →
  fence_step d (with_leases (<[ls_lease_id l := l]> (db_leases d)) d).
Proof.
  intros L0 U [R0 F0] A0 [I Hi]. split; [split; [by apply insert_leases_inv|]|]; cbn.
  - intros k l1 k' l2. rewrite !lookup_insert_Some.
    intros [[<- <-]|[_ L1]] [[<- <-]|[_ L2]] R A; [done| | |by eapply Hi].
    + rewrite F0. eapply Hi; [exact L0|exact L2|congruence|auto].
    + rewrite F0. eapply Hi; [exact L1|exact L0|congruence|auto].
  - intros k l' L. destruct (decide (k = ls_lease_id l)) as [->|N].
    + exists l. rewrite lookup_insert_eq. split; [done|]. rewrite L0 in L. by injection L as <-.
    + exists l'. by rewrite lookup_insert_ne.
Qed.

Lemma wp_insert_lease l (Q : () → Db → Prop) d :
  (db_leases d !! ls_lease_id l = None → lease_unique l d = true →
   Q tt (with_leases (<[ls_lease_id l := l]> (db_leases d)) d)) →
  wp (insert_lease l) Q d.
Proof. intros X. unfold insert_lease. wp_tac. res_inv. apply X; [by apply present_false|done]. Qed.

Lemma fresh_lease_inv w run id owner epoch token fence now l :
  fresh_lease w run id owner epoch token fence now = Ok l →
  ls_run_id l = run ∧ ls_lease_id l = id ∧ ls_fence_epoch l = fence.
Proof. unfold fresh_lease, seal_lease. intros E. by res_inv. Qed.

Lemma seal_lease_inv l l' :
  seal_lease l = Ok l' →
  ls_lease_id l' = ls_lease_id l ∧ lease_kept l l' ∧ ls_state l' = ls_state l.
Proof. unfold seal_lease. intros E. by res_inv. Qed.

(** The calls after the lease has been written. *)
Lemma wp_fence_tail {A} (c : tx A) d0 d :
  moves same_leases c → fence_step d0 d → wp c (λ _, fence_step d0) d.
Proof.
  intros M X. apply (wp_moves same_leases); [done|]. intros _ d' Y.
  etrans; [done|]. by apply same_leases_fence_step.
Qed.

Lemma claim_fence_step store q s : fence_step (tx_db s) (tx_db (claim_run_lease store q s).2).
Proof.
  unfold claim_run_lease. transaction_tac. wp_tac. apply wp_insert_lease. intros N U.
  apply wp_fence_tail; [unfold commit; moves_tac|]. apply fence_step_new; [done..|]. intros k l' L R.
  res_inv. subst. match goal with P : fresh_lease _ _ _ _ _ _ _ _ = _ |- _ =>
    apply fresh_lease_inv in P as (Rn & _ & Fn) end.
  rewrite Fn. rewrite Rn in R.
  match goal with P : (_ =? _)%nat = true, Q : (_ =? _)%N = true |- _ =>
    apply Nat.eqb_eq in P; apply N.eqb_eq in Q; rewrite <- Q end.
  split; [by eapply active_leases_nil|]. pose proof (max_fence_above _ _ _ _ L R). lia.
Qed.

(** A call that holds an authority changes its lease. *)
Lemma authorized_fence_step a now d c l0 l :
  authorized a now d c l0 → ls_lease_id l = ls_lease_id l0 → lease_kept l0 l →
  lease_unique l d = true →
  fence_step d (with_leases (<[ls_lease_id l := l]> (db_leases d)) d).
Proof.
  intros A Hid Hk U. apply (fence_step_update d l0); [|done..|].
  - rewrite Hid, (au_lease_id _ _ _ _ _ A). apply (au_lease _ _ _ _ _ A).
  - intros _. apply bool_decide_true, (au_active _ _ _ _ _ A).
Qed.

Lemma renew_fence_step store q s : fence_step (tx_db s) (tx_db (renew_run_lease store q s).2).
Proof.
  unfold renew_run_lease. transaction_tac. wp_tac. apply wp_update_lease. intros _ _ U.
  apply wp_fence_tail; [unfold commit; moves_tac|].
  match goal with P : seal_lease _ = _ |- _ => apply seal_lease_inv in P as (Hid & Hk & _) end.
  by eapply authorized_fence_step.
Qed.

Lemma end_lease_inv l now l' :
  end_lease l now = Ok l' →
  ls_lease_id l' = ls_lease_id l ∧ lease_kept l l' ∧ ls_state l' = LeaseState.Released.
Proof. unfold end_lease, seal_lease. intros E. by res_inv. Qed.

Lemma release_fence_step store q s : fence_step (tx_db s) (tx_db (release_run_lease store q s).2).
Proof.
  unfold release_run_lease. transaction_tac. wp_tac. apply wp_update_lease. intros _ _ U.
  apply wp_fence_tail; [unfold commit; moves_tac|].
  match goal with P : end_lease _ _ = _ |- _ => apply end_lease_inv in P as (Hid & Hk & _) end.
  by eapply authorized_fence_step.
Qed.

Lemma runtime_step_fence store op s :
  fence_step (tx_db s) (tx_db (runtime_step store op s)).
Proof.
  destruct op; cbn [runtime_step];
    [apply claim_fence_step|apply renew_fence_step|apply release_fence_step|
     apply same_leases_fence_step..|].
  - apply same_leases_reserve.
  - apply same_leases_settle.
  - apply same_leases_begin.
  - apply same_leases_commit.
  - apply same_leases_failure.
  - by rewrite (proj1 (reclaim_refused store q s)).
Qed.

Lemma runtime_run_fence calls s : fence_step (tx_db s) (tx_db (runtime_run calls s)).
Proof.
  revert s. induction calls as [|[store op] calls IH]; intros s; [done|].
  etrans; [apply (runtime_step_fence store op)|apply IH].
Qed.

(** C5: leases are fencing tokens.  From consistent lease tables, whatever clients call,
    in whatever order and with whatever clocks, a run has at most one active lease, no
    two of its leases share a fence epoch, an active lease has the highest one
    ([fence_inv]), and an authority below the fence epoch of any lease that the run ever
    had is refused from then on: a process that was paused and superseded can no longer
    act on the run. *)
Theorem superseded_authority_refused (calls : list (option OperatorStoreContext * runtime_op))
    (s : Tx) (I : fence_inv (tx_db s)) (a : LeaseAuthority) (now : DateTime) (k : Uuid)
    (l : RunLease) (L : db_leases (tx_db s) !! k = Some l) (R : ls_run_id l = la_run_id a)
    (F : (la_fence_epoch a < ls_fence_epoch l)%N) :
  fence_inv (tx_db (runtime_run calls s))
  ∧ ∀ held, (validate_authority a now (runtime_run calls s)).1 ≠ Ok held.
Proof.
  destruct (runtime_run_fence calls s I) as [I' K]. split; [done|]. intros [c l'] E.
  destruct (K _ _ L) as (l2 & L2 & R2 & F2).
  destruct (validate_authority a now (runtime_run calls s)) as [r s'] eqn:V. cbn in E. subst r.
  apply validate_authority_Ok in V. destruct V as [_ _ _ _ Ll _ Rl Fl Al _ _].
  cbn [fst snd] in *.
  pose proof (fi_highest _ I' _ _ _ _ Ll L2) as X. rewrite Fl, F2, R2, R, Rl in X.
  specialize (X eq_refl). unfold is_active in X. rewrite bool_decide_true in X by done.
  specialize (X eq_refl). lia.
Qed.

End fence.

(** ** Expired leases *)

Section stuck.
Context `{Externals} `{OperatorExternals}.
Context (lid : Uuid) (l : RunLease).
Notation run := (ls_run_id l).

(** The lease and the control record of its run are as before. *)
Definition run_kept (d d' : Db) : Prop :=
  db_leases d' !! lid = db_leases d !! lid ∧ db_controls d' !! run = db_controls d !! run.

#[export] Instance run_kept_preorder : PreOrder run_kept.
Proof. split; [done|]. intros a b c [] []. split; congruence. Qed.
#[export] Instance run_kept_audit : IgnoresAudit run_kept.
Proof. by split; try exact _. Qed.
#[export] Instance run_kept_result : IgnoresResult run_kept.
Proof. split; by try split. Qed.

Lemma run_kept_leases d k l' : k ≠ lid → run_kept d (with_leases (<[k := l']> (db_leases d)) d).
Proof. intros N. split; [|done]. cbn. by rewrite lookup_insert_ne. Qed.

Lemma run_kept_advance store c n now :
  ctl_run_id c ≠ run → moves run_kept (advance store c n now).
Proof.
  intros N. unfold advance. at_tac. apply at_call; [exact _| |intros _; moves_tac].
  match goal with P : bump_control _ _ = _ |- _ => unfold bump_control in P; res_inv end.
  unfold update_run_control. moves_tac. split; [done|]. cbn. by rewrite lookup_insert_ne.
Qed.
#[local] Hint Resolve run_kept_advance : moves.

Lemma run_kept_budget b : moves run_kept (update_budget b).
Proof. unfold update_budget. moves_tac. done. Qed.
Lemma run_kept_insert_reservation r : moves run_kept (insert_reservation r).
Proof. unfold insert_reservation. moves_tac. done. Qed.
Lemma run_kept_update_reservation r : moves run_kept (update_reservation r).
Proof. unfold update_reservation. moves_tac. done. Qed.
#[local] Hint Resolve run_kept_budget run_kept_insert_reservation
  run_kept_update_reservation : moves.
Lemma run_kept_release store c l' r b k o now : ctl_run_id c ≠ run →
  moves run_kept (release_undispatched store c l' r b k o now).
Proof. intros N. unfold release_undispatched, release_reservation. moves_tac. Qed.
Lemma run_kept_dispatch store q c l' r b now : ctl_run_id c ≠ run →
  moves run_kept (dispatch_now store q c l' r b now).
Proof. intros N. unfold dispatch_now, commit. moves_tac. Qed.
Lemma run_kept_forfeit store c l' r now : ctl_run_id c ≠ run →
  moves run_kept (apply_forfeit store c l' r now).
Proof. intros N. unfold apply_forfeit. moves_tac. Qed.
#[local] Hint Resolve run_kept_release run_kept_dispatch run_kept_forfeit : moves.

(** The lease of the run is active and has expired. *)
Record stuck (d : Db) (now : DateTime) : Prop := {
  st_inv : leases_inv d;
  st_lease : db_leases d !! lid = Some l;
  st_active : ls_state l = LeaseState.Active;
  st_expired : (ls_expires_at l ≤ now)%Z;
}.

(** No authority for the run is accepted. *)
Lemma stuck_authority d now a c l' :
  stuck d now → authorized a now d c l' →
  la_lease_id a ≠ lid ∧ la_run_id a ≠ run ∧ ctl_run_id c ≠ run.
Proof.
  intros [[K U] L A E] [Lc Rc _ _ Ll Il Rl _ Al Cl _].
  assert (N : la_lease_id a ≠ lid).
  { intros X. rewrite X, L in Ll. injection Ll as <-. lia. }
  assert (M : la_run_id a ≠ run).
  { intros X. destruct (U _ _ _ _ Ll L) as [_ B]; [congruence|done|].
    apply B. by unfold is_active; rewrite !bool_decide_true. }
  split_and!; congruence.
Qed.

(** The rest of a call, for another run. *)
Lemma wp_kept_tail {A} (c : tx A) d0 d :
  moves run_kept c → run_kept d0 d → wp c (λ _, run_kept d0) d.
Proof. intros M X. apply (wp_moves run_kept); [done|]. intros _ d' Y. by etrans. Qed.

Context (store : option OperatorStoreContext) (s : Tx).
Hypothesis S : ∀ now, operator_now store = Ok now → stuck (tx_db s) now.

(** After an authority has been accepted, the run is another one. *)
Ltac authority_tac :=
  lazymatch goal with
  | |- wp (cbind (lift (operator_now _)) _) _ _ =>
      apply wp_bind, wp_lift; intros ? ?; cbv beta; authority_tac
  | |- wp (cbind (validate_authority _ _) _) _ _ => apply wp_bind, wp_authority; intros ? ? ?
  | |- wp (cbind (settlement_authority _ _ _ _) _) _ _ =>
      apply wp_bind, wp_settlement_authority; intros ? ? ?
  end.
Ltac other_run_tac :=
  authority_tac; cbv beta iota;
  match goal with A : authorized _ _ _ _ _, N : operator_now _ = Ok _ |- _ =>
    destruct (stuck_authority _ _ _ _ _ (S _ N) A) as (? & ? & ?) end.

Lemma stuck_claim q : run_kept (tx_db s) (tx_db (claim_run_lease store q s).2).
Proof.
  unfold claim_run_lease. transaction_tac. wp_tac. apply wp_insert_lease. intros N U.
  destruct (S _ ltac:(eassumption)) as [I L A E]. res_inv. subst.
  match goal with P : fresh_lease _ _ _ _ _ _ _ _ = _ |- _ =>
    apply fresh_lease_inv in P as (Rn & _ & Fn) end.
  match goal with P : (_ =? _)%nat = true |- _ => apply Nat.eqb_eq in P end.
  assert (M : lq_run_id q ≠ run).
  { intros X. apply (active_leases_nil _ _ _ _ ltac:(eassumption)) in L; [|done].
    unfold is_active in L. by rewrite bool_decide_true in L. }
  apply wp_kept_tail; [|apply run_kept_leases; congruence].
  unfold commit. moves_tac. apply run_kept_advance. congruence.
Qed.

Lemma stuck_renew q : run_kept (tx_db s) (tx_db (renew_run_lease store q s).2).
Proof.
  unfold renew_run_lease. transaction_tac. other_run_tac. wp_tac. apply wp_update_lease.
  intros _ _ _. apply wp_kept_tail; [unfold commit; moves_tac|]. apply run_kept_leases.
  match goal with P : seal_lease _ = _ |- _ => apply seal_lease_inv in P as (-> & _) end.
  cbn. by match goal with A : authorized _ _ _ _ _ |- _ => rewrite (au_lease_id _ _ _ _ _ A) end.
Qed.

Lemma stuck_release q : run_kept (tx_db s) (tx_db (release_run_lease store q s).2).
Proof.
  unfold release_run_lease. transaction_tac. other_run_tac. wp_tac. apply wp_update_lease.
  intros _ _ _. apply wp_kept_tail; [unfold commit; moves_tac|]. apply run_kept_leases.
  match goal with P : end_lease _ _ = _ |- _ => apply end_lease_inv in P as (-> & _) end.
  by match goal with A : authorized _ _ _ _ _ |- _ => rewrite (au_lease_id _ _ _ _ _ A) end.
Qed.

Lemma stuck_reserve q : run_kept (tx_db s) (tx_db (reserve_aggregate_budget store q s).2).
Proof.
  unfold reserve_aggregate_budget. transaction_tac. other_run_tac.
  apply wp_kept_tail; [|done]. unfold reserve_now, commit. moves_tac.
Qed.

Lemma stuck_settle q : run_kept (tx_db s) (tx_db (settle_budget_reservation store q s).2).
Proof.
  unfold settle_budget_reservation. transaction_tac. other_run_tac.
  apply wp_kept_tail; [|done]. unfold commit. moves_tac.
Qed.

Lemma stuck_begin q : run_kept (tx_db s) (tx_db (begin_dispatch store q s).2).
Proof.
  unfold begin_dispatch. transaction_tac. other_run_tac.
  apply wp_kept_tail; [|done]. unfold authorize_dispatch, claim_then_dispatch, commit. moves_tac.
Qed.

Lemma stuck_forfeit_commit q : run_kept (tx_db s) (tx_db (forfeit_commit store q s).2).
Proof.
  unfold forfeit_commit. transaction_tac.
  apply wp_bind, wp_reads; [eauto 2 with reads|intros r]. cbv beta.
  case_match; [apply wp_throw|]. other_run_tac. apply wp_kept_tail; [|done]. moves_tac.
Qed.

Lemma stuck_commit q p : run_kept (tx_db s) (tx_db (commit_runtime_barrier store q p s).2).
Proof.
  unfold commit_runtime_barrier. case_match; [apply stuck_forfeit_commit|].
  unfold commit_runtime. transaction_tac.
  apply wp_bind, wp_reads; [eauto 2 with reads|intros r]. cbv beta.
  case_match; [by apply wp_kept_tail; [moves_tac|]|].
  case_match; [apply wp_throw|]. unfold settle_dispatched. other_run_tac.
  apply wp_bind, wp_lift. intros ? _. cbv zeta. apply wp_bind, wp_load_commit.
  intros x [<- <- _ _ _ _]. apply wp_kept_tail; [|done].
  unfold forfeit_with, persist_result, commit. moves_tac.
Qed.

Lemma stuck_failure q : run_kept (tx_db s) (tx_db (forfeit_failure store q s).2).
Proof.
  unfold forfeit_failure. cbv zeta. transaction_tac.
  apply wp_bind, wp_reads; [eauto 2 with reads|intros r]. cbv beta.
  case_match; [by apply wp_kept_tail; [unfold commit; moves_tac|]|].
  case_match; [apply wp_throw|]. other_run_tac. apply wp_kept_tail; [|done]. moves_tac.
Qed.

Lemma stuck_step op : run_kept (tx_db s) (tx_db (runtime_step store op s)).
Proof.
  destruct op; cbn [runtime_step];
    [apply stuck_claim|apply stuck_renew|apply stuck_release|apply stuck_reserve
    |apply stuck_settle|apply stuck_begin|apply stuck_commit|apply stuck_failure|].
  by rewrite (proj1 (reclaim_refused store q s)).
Qed.

End stuck.

Section verdicts.
Context `{Externals} `{OperatorExternals}.

(** C28: [reclaim_run], the only operation that ends a lease it does not hold, never
    succeeds: for every request and every state of the store it returns no result and
    leaves the tables as they are.  It accepts only a lease that has expired, stamps
    [released_at] with the current time, and then writes the lease through
    [update_lease], whose validation refuses a release at or after the expiry. *)
Theorem reclaim_always_refused (store : option OperatorStoreContext) (q : ReclaimRequest)
    (s : Tx) :
  tx_db (reclaim store q s).2 = tx_db s ∧ ∀ x, (reclaim store q s).1 ≠ Ok x.
Proof. apply reclaim_refused. Qed.

(** C29: a run whose lease has expired while active is lost.  From consistent lease
    tables, once the clock has passed the expiry, no sequence of calls of the runtime
    interface changes that lease or the control record of the run again: the lease can neither be
    renewed, released nor reclaimed, no other lease can be claimed for the run, and
    nothing can be reserved, dispatched, committed, settled or forfeited for it. *)
Theorem expired_lease_stuck (lid : Uuid) (l : RunLease) (s : Tx)
    (I : leases_inv (tx_db s)) (L : db_leases (tx_db s) !! lid = Some l)
    (A : ls_state l = LeaseState.Active)
    (calls : list (option OperatorStoreContext * runtime_op))
    (T : Forall (λ call, ∀ now, operator_now call.1 = Ok now → (ls_expires_at l ≤ now)%Z) calls) :
  run_kept lid l (tx_db s) (tx_db (runtime_run calls s)).
Proof.
  revert s I L. induction T as [|[store op] calls T _ IH]; intros s I L; [done|].
  assert (K : run_kept lid l (tx_db s) (tx_db (runtime_step store op s))).
  { apply stuck_step. intros now Hn. split; auto. }
  etrans; [exact K|]. apply IH; [|by rewrite (proj1 K)].
  by apply (runtime_step_inv leases_inv write_leases_inv).
Qed.

End verdicts.
