(* ===== verification/RuntimeLedger.v ===== *)
(** * The budget ledger

    An abstract ledger says what the budget operations promise: a reservation holds an
    amount within the limits of its budget, and is settled once, for nothing or for at
    most what it holds ([ledger_step]).  [runtime_refines_ledger] shows that the store
    implements it: the reservations are such a ledger, and the two totals that each
    account keeps, through checked and wrapping additions and subtractions on 64-bit
    integers, are the sums over its reservations. *)

From S2P Require Import Prelude RustStr Externals Json Canonical Serialized Evidence Approval.
From S2P Require Import OperatorCommon StrictDigest Agent AgentRun ExecutionStore Durable AuditChain Custody.
From S2P Require Import RuntimeStore ReplayStore RuntimeOps RuntimeCommitOp RuntimeProofs RuntimeWp.
From S2P Require Import RuntimeLeases.
From stdpp Require Import options.

#[local] Set Default Proof Using "All".

(** ** The abstract ledger *)

(** What a reservation has taken from its budget. *)
Inductive holding : Type :=
| Held (amount : BudgetAmounts)
| Spent (amount : BudgetAmounts).

(** Reservation to budget and holding. *)
Notation ledger := (gmap N (Uuid * holding)).

Definition zero_amounts : BudgetAmounts := BudgetAmounts_default.

Definition held_part (budget : Uuid) (e : Uuid * holding) : BudgetAmounts :=
  match e with
  | (b, Held a) => if decide (b = budget) then a else zero_amounts
  | _ => zero_amounts
  end.
Definition spent_part (budget : Uuid) (e : Uuid * holding) : BudgetAmounts :=
  match e with
  | (b, Spent a) => if decide (b = budget) then a else zero_amounts
  | _ => zero_amounts
  end.

Definition total (f : Uuid * holding → BudgetAmounts) (L : ledger) : BudgetAmounts :=
  map_fold (λ _ e, plus_amounts (f e)) zero_amounts L.
Definition held (L : ledger) (budget : Uuid) : BudgetAmounts := total (held_part budget) L.
Definition spent (L : ledger) (budget : Uuid) : BudgetAmounts := total (spent_part budget) L.

(** The promise: [limits] are the limits of the budgets. *)
Inductive ledger_step (limits : gmap N BudgetAmounts) (L : ledger) : ledger → Prop :=
| step_hold id budget amount limit :
    L !! id = None → limits !! budget = Some limit →
    fits_within (plus_amounts (plus_amounts (held L budget) amount) (spent L budget)) limit
      = true →
    ledger_step limits L (<[id := (budget, Held amount)]> L)
| step_settle id budget amount charge :
    L !! id = Some (budget, Held amount) → fits_within charge amount = true →
    ledger_step limits L (<[id := (budget, Spent charge)]> L).

(** ** Sums *)

Lemma plus_amounts_comm a b : plus_amounts a b = plus_amounts b a.
Proof. apply amounts_eq; cbn; lia. Qed.
Lemma plus_amounts_assoc a b c :
  plus_amounts a (plus_amounts b c) = plus_amounts (plus_amounts a b) c.
Proof. apply amounts_eq; cbn; lia. Qed.
Lemma plus_amounts_zero a : plus_amounts zero_amounts a = a.
Proof. by destruct a. Qed.
Lemma plus_amounts_cancel a b c : plus_amounts a b = plus_amounts a c → b = c.
Proof. destruct a, b, c. cbn. unfold plus_amounts; cbn. intros [= ?????]. f_equal; lia. Qed.

Lemma total_insert f L id e :
  L !! id = None → total f (<[id := e]> L) = plus_amounts (f e) (total f L).
Proof.
  intros N. unfold total. rewrite map_fold_insert_L; [done| |done].
  intros _ _ e1 e2 a _ _ _. rewrite !plus_amounts_assoc. f_equal. apply plus_amounts_comm.
Qed.

Lemma total_update f L id e0 e :
  L !! id = Some e0 →
  plus_amounts (f e0) (total f (<[id := e]> L)) = plus_amounts (f e) (total f L).
Proof.
  intros E. rewrite <- (insert_delete_id L id e0) at 2 by done.
  rewrite <- insert_delete_eq, !total_insert by apply lookup_delete_eq.
  rewrite !plus_amounts_assoc. f_equal. apply plus_amounts_comm.
Qed.

(** Every budget stays within its limits. *)
Definition within_limits (limits : gmap N BudgetAmounts) (L : ledger) : Prop :=
  ∀ budget limit, limits !! budget = Some limit →
  fits_within (plus_amounts (held L budget) (spent L budget)) limit = true.

(** Equations and comparisons of amounts, by component. *)
Ltac amounts_tac :=
  repeat match goal with
  | E : @eq BudgetAmounts _ _ |- _ =>
      pose proof (f_equal steps E); pose proof (f_equal tokens E);
      pose proof (f_equal duration_ms E); pose proof (f_equal cost_microusd E);
      pose proof (f_equal tool_dispatches E); clear E
  | E : fits_within _ _ = true |- _ => apply fits_within_le in E
  | |- fits_within _ _ = true => apply fits_within_le
  | |- @eq BudgetAmounts _ _ => apply amounts_eq
  end;
  cbn [plus_amounts steps tokens duration_ms cost_microusd tool_dispatches zero_amounts
       BudgetAmounts_default] in *; lia.

Lemma ledger_step_within limits L L' :
  ledger_step limits L L' → within_limits limits L → within_limits limits L'.
Proof.
  intros W I b limit Hl. specialize (I b limit Hl).
  destruct W as [id b' a limit' N Hl' F|id b' a c E F]; unfold held, spent in *.
  - rewrite !total_insert by done. cbn [held_part spent_part].
    destruct (decide (b' = b)) as [->|]; [|by rewrite !plus_amounts_zero].
    rewrite Hl in Hl'. injection Hl' as <-. amounts_tac.
  - pose proof (total_update (held_part b) L id _ (b', Spent c) E) as Eh.
    pose proof (total_update (spent_part b) L id _ (b', Spent c) E) as Es.
    cbn [held_part spent_part] in Eh, Es. destruct (decide (b' = b)); amounts_tac.
Qed.

(** ** The tables as a ledger *)

Definition holding_of (r : BudgetReservation) : Uuid * holding :=
  (br_budget_id r, if is_open r then Held (br_reserved r) else Spent (br_charged r)).
Definition ledger_of (d : Db) : ledger := holding_of <$> db_reservations d.
Definition limits_of (d : Db) : gmap N BudgetAmounts :=
  (λ a, bl_limits (ba_policy a)) <$> db_budgets d.

(** The rows are filed under their identifiers, and the totals of each account are the
    sums over its reservations. *)
Record books_inv (d : Db) : Prop := {
  bk_ids : ∀ id r, db_reservations d !! id = Some r → br_reservation_id r = id;
  bk_totals : ∀ b a, db_budgets d !! b = Some a →
    ba_reserved a = held (ledger_of d) b ∧ ba_committed a = spent (ledger_of d) b;
}.

(** What an operation does to consistent tables. *)
Definition books_step (d d' : Db) : Prop :=
  books_inv d →
  books_inv d' ∧ limits_of d' = limits_of d
  ∧ rtc (ledger_step (limits_of d)) (ledger_of d) (ledger_of d').

#[export] Instance books_step_preorder : PreOrder books_step.
Proof.
  split; [by intros d I|]. intros d1 d2 d3 S1 S2 I.
  destruct (S1 I) as (I2 & E2 & R2), (S2 I2) as (I3 & E3 & R3). rewrite E2 in R3.
  split_and!; [done|congruence|by etrans].
Qed.

(** Tables with the same accounts and reservations. *)
Definition same_books (d d' : Db) : Prop :=
  db_budgets d' = db_budgets d ∧ db_reservations d' = db_reservations d.

#[export] Instance same_books_preorder : PreOrder same_books.
Proof. split; [done|]. intros a b c [] []. split; congruence. Qed.
#[export] Instance same_books_run : IgnoresRun same_books.
Proof. split; [split; [exact _|done..]|done]. Qed.
#[export] Instance same_books_result : IgnoresResult same_books.
Proof. split; by try split. Qed.

Lemma same_books_step d d' : same_books d d' → books_step d d'.
Proof.
  intros [B R] [Ids T]. unfold limits_of, ledger_of in *. rewrite B, R.
  split_and!; [|done..]. split; unfold ledger_of; by rewrite ?B, ?R.
Qed.

(** The tables after a reservation [r] and the account [a] have been written. *)
Definition write_books (r : BudgetReservation) (a : BudgetAccount) (d : Db) : Db :=
  with_budgets (<[bl_budget_id (ba_policy a) := a]> (db_budgets d))
    (with_reservations (<[br_reservation_id r := r]> (db_reservations d)) d).

Lemma ledger_of_write r a d :
  ledger_of (write_books r a d) = <[br_reservation_id r := holding_of r]> (ledger_of d).
Proof. apply fmap_insert. Qed.

Lemma limits_of_write r a a0 d :
  db_budgets d !! bl_budget_id (ba_policy a) = Some a0 → ba_policy a = ba_policy a0 →
  limits_of (write_books r a d) = limits_of d.
Proof.
  intros L P. unfold limits_of. cbn. rewrite fmap_insert. apply insert_id.
  rewrite lookup_fmap, L. cbn. by rewrite P.
Qed.

(** A write that moves the totals of the account the way it moves the reservation. *)
Lemma write_books_inv r a a0 d :
  books_inv d → db_budgets d !! bl_budget_id (ba_policy a) = Some a0 →
  br_budget_id r = bl_budget_id (ba_policy a) →
  ba_reserved a = held (<[br_reservation_id r := holding_of r]> (ledger_of d)) (br_budget_id r) →
  ba_committed a = spent (<[br_reservation_id r := holding_of r]> (ledger_of d)) (br_budget_id r) →
  (∀ b, b ≠ br_budget_id r →
     held (<[br_reservation_id r := holding_of r]> (ledger_of d)) b = held (ledger_of d) b
     ∧ spent (<[br_reservation_id r := holding_of r]> (ledger_of d)) b = spent (ledger_of d) b) →
  books_inv (write_books r a d).
Proof.
  intros [Ids T] La Hb Er Ec Other. split.
  - intros id r'. cbn. rewrite lookup_insert_Some. intros [[<- <-]|[_ L]]; [done|by apply Ids].
  - intros b a'. rewrite ledger_of_write. cbn. rewrite lookup_insert_Some.
    intros [[<- <-]|[N L]]; [by rewrite <- Hb|].
    destruct (Other b) as [-> ->]; [congruence|]. by apply T.
Qed.

Section steps.
Context `{Externals} `{OperatorExternals}.

Lemma ledger_of_lookup d id r :
  db_reservations d !! id = Some r → ledger_of d !! id = Some (holding_of r).
Proof. intros L. unfold ledger_of. by rewrite lookup_fmap, L. Qed.

(** A new reservation. *)
Lemma books_hold r a a0 d :
  db_reservations d !! br_reservation_id r = None → is_open r = true →
  db_budgets d !! br_budget_id r = Some a0 → bl_budget_id (ba_policy a0) = br_budget_id r →
  ba_policy a = ba_policy a0 → ba_reserved a = plus_amounts (ba_reserved a0) (br_reserved r) →
  ba_committed a = ba_committed a0 → BudgetAccount_validate a = Ok () →
  books_step d (write_books r a d).
Proof.
  intros N O La Hb P Er Ec V I. pose proof (bk_totals _ I _ _ La) as [Tr Tc].
  assert (Nl : ledger_of d !! br_reservation_id r = None).
  { unfold ledger_of. by rewrite lookup_fmap, N. }
  assert (Hr : holding_of r = (br_budget_id r, Held (br_reserved r))).
  { unfold holding_of. by rewrite O. }
  assert (La' : db_budgets d !! bl_budget_id (ba_policy a) = Some a0) by by rewrite P, Hb.
  split_and!.
  - apply (write_books_inv r a a0); rewrite ?Hr; [done..|by rewrite P| | |].
    + rewrite Er, Tr. unfold held. rewrite total_insert by done. cbn [held_part].
      rewrite decide_True by done. apply plus_amounts_comm.
    + rewrite Ec, Tc. unfold spent. rewrite total_insert by done. cbn [spent_part].
      by rewrite plus_amounts_zero.
    + intros b Nb. unfold held, spent. rewrite !total_insert by done. cbn [held_part spent_part].
      rewrite decide_False by done. by rewrite !plus_amounts_zero.
  - by eapply limits_of_write.
  - rewrite ledger_of_write, Hr. apply rtc_once. eapply step_hold; [done| |].
    + unfold limits_of. by rewrite lookup_fmap, La.
    + apply BudgetAccount_validate_inv in V as (_ & _ & _ & F).
      by rewrite Er, Ec, Tr, Tc, P in F.
Qed.

(** An open reservation that is settled for [br_charged r]. *)
Lemma books_settle r0 r a a0 d :
  db_reservations d !! br_reservation_id r = Some r0 → is_open r0 = true → is_open r = false →
  br_budget_id r = br_budget_id r0 → fits_within (br_charged r) (br_reserved r0) = true →
  db_budgets d !! br_budget_id r = Some a0 → bl_budget_id (ba_policy a0) = br_budget_id r →
  ba_policy a = ba_policy a0 → plus_amounts (br_reserved r0) (ba_reserved a) = ba_reserved a0 →
  ba_committed a = plus_amounts (ba_committed a0) (br_charged r) →
  books_step d (write_books r a d).
Proof.
  intros L O0 O B F La Hb P Er Ec I. pose proof (bk_totals _ I _ _ La) as [Tr Tc].
  apply ledger_of_lookup in L. unfold holding_of in L. rewrite O0, <- B in L.
  assert (Hr : holding_of r = (br_budget_id r, Spent (br_charged r))).
  { unfold holding_of. by rewrite O. }
  assert (La' : db_budgets d !! bl_budget_id (ba_policy a) = Some a0) by by rewrite P, Hb.
  split_and!.
  - apply (write_books_inv r a a0); rewrite ?Hr; [done..|by rewrite P| | |].
    + pose proof (total_update (held_part (br_budget_id r)) _ _ _
        (br_budget_id r, Spent (br_charged r)) L) as E. cbn [held_part] in E.
      rewrite decide_True, plus_amounts_zero in E by done.
      apply (plus_amounts_cancel (br_reserved r0)). unfold held in *. congruence.
    + pose proof (total_update (spent_part (br_budget_id r)) _ _ _
        (br_budget_id r, Spent (br_charged r)) L) as E. cbn [spent_part] in E.
      rewrite decide_True, plus_amounts_zero in E by done. unfold spent in *.
      rewrite E, Ec, Tc. apply plus_amounts_comm.
    + intros b Nb. unfold held, spent.
      pose proof (total_update (held_part b) _ _ _ (br_budget_id r, Spent (br_charged r)) L) as Eh.
      pose proof (total_update (spent_part b) _ _ _ (br_budget_id r, Spent (br_charged r)) L) as Es.
      cbn [held_part spent_part] in Eh, Es. rewrite decide_False in Eh, Es by done.
      by rewrite !plus_amounts_zero in Eh, Es.
  - by eapply limits_of_write.
  - rewrite ledger_of_write, Hr. apply rtc_once. by eapply step_settle.
Qed.

(** An open reservation that stays open. *)
Lemma books_dispatch r0 r d :
  db_reservations d !! br_reservation_id r = Some r0 → holding_of r = holding_of r0 →
  books_step d (with_reservations (<[br_reservation_id r := r]> (db_reservations d)) d).
Proof.
  intros L E [Ids T].
  assert (X : ledger_of (with_reservations (<[br_reservation_id r := r]> (db_reservations d)) d)
              = ledger_of d).
  { unfold ledger_of. cbn. rewrite fmap_insert, E. apply insert_id. by apply ledger_of_lookup. }
  split_and!; [split|done|by rewrite X].
  - intros id r'. cbn. rewrite lookup_insert_Some. intros [[<- <-]|[_ L']]; [done|by apply Ids].
  - intros b a La. rewrite X. by apply T.
Qed.

(** ** Calls *)

Lemma wp_update_reservation r (Q : () → Db → Prop) d :
  (BudgetReservation_validate r = Ok () →
   Q tt (with_reservations (<[br_reservation_id r := r]> (db_reservations d)) d)) →
  wp (update_reservation r) Q d.
Proof. intros X. unfold update_reservation, corrupt. wp_tac. res_inv. by apply X. Qed.
Lemma wp_insert_reservation r (Q : () → Db → Prop) d :
  (db_reservations d !! br_reservation_id r = None →
   Q tt (with_reservations (<[br_reservation_id r := r]> (db_reservations d)) d)) →
  wp (insert_reservation r) Q d.
Proof. intros X. unfold insert_reservation. wp_tac. res_inv. apply X. by apply present_false. Qed.
Lemma wp_update_budget b (Q : () → Db → Prop) d :
  (BudgetAccount_validate b = Ok () →
   Q tt (with_budgets (<[bl_budget_id (ba_policy b) := b]> (db_budgets d)) d)) →
  wp (update_budget b) Q d.
Proof. intros X. unfold update_budget, corrupt. wp_tac. res_inv. by apply X. Qed.

(** The calls after the books have been written. *)
Lemma wp_books_tail {A} (c : tx A) d0 d :
  moves same_books c → books_step d0 d → wp c (λ _, books_step d0) d.
Proof.
  intros M X. apply (wp_moves same_books); [done|]. intros _ d' Y.
  etrans; [done|]. by apply same_books_step.
Qed.

Lemma subtract_amounts_Ok a b c : subtract_amounts a b = Ok c → plus_amounts b c = a.
Proof.
  unfold subtract_amounts. intros E. res_inv.
  repeat match goal with P : checked_sub _ _ = Some _ |- _ =>
    unfold checked_sub in P; case_bool_decide; [injection P as <-|done] end.
  apply amounts_eq; cbn; lia.
Qed.
Lemma add_amounts_Ok a b c : add_amounts a b = Ok c → c = plus_amounts a b.
Proof.
  unfold add_amounts, corrupt. intros E. res_inv.
  by match goal with P : checked_add_amounts _ _ = _ |- _ =>
    apply checked_add_amounts_Ok in P as [-> _] end.
Qed.

End steps.

(** Both writes, in either order. *)
Ltac fold_books :=
  match goal with
  | |- books_step ?d (with_budgets (<[_ := ?a]> _) (with_reservations (<[_ := ?r]> _) ?d)) =>
      change (books_step d (write_books r a d))
  | |- books_step ?d (with_reservations (<[_ := ?r]> _) (with_budgets (<[_ := ?a]> _) ?d)) =>
      change (books_step d (write_books r a d))
  end.

Section operations.
Context `{Externals} `{OperatorExternals}.

Lemma validate_branch r : BudgetReservation_validate r = Ok () → branch_valid r = true.
Proof.
  unfold BudgetReservation_validate. intros E.
  apply rbind_Ok in E as (? & _ & E). apply bail_Ok in E as [_ E].
  apply rbind_Ok in E as (? & _ & E). apply bail_Ok in E as [_ E].
  apply bail_Ok in E as [B E]. by res_inv.
Qed.

Lemma reserve_now_books store q c l b now d :
  db_budgets d !! ctl_budget_id c = Some b → bl_budget_id (ba_policy b) = ctl_budget_id c →
  wp (reserve_now store q c l b now) (λ _, books_step d) d.
Proof.
  intros L B. unfold reserve_now, commit. wp_tac. apply wp_insert_reservation. intros N.
  wp_tac. apply wp_update_budget. intros V. apply wp_books_tail; [moves_tac|].
  match goal with P : add_amounts _ _ = _ |- _ => apply add_amounts_Ok in P; subst end.
  fold_books. by eapply (books_hold _ _ b).
Qed.

(** A reservation that goes back to its budget. *)
Lemma release_books r0 now b0 b d :
  db_reservations d !! br_reservation_id r0 = Some r0 → br_state r0 = ReservationState.Reserved →
  db_budgets d !! br_budget_id r0 = Some b0 → bl_budget_id (ba_policy b0) = br_budget_id r0 →
  ba_policy b = ba_policy b0 → subtract_amounts (ba_reserved b0) (br_reserved r0) = Ok (ba_reserved b) →
  ba_committed b = ba_committed b0 →
  BudgetReservation_validate (settle_as ReservationState.Released (br_charged r0) now r0) = Ok () →
  books_step d (write_books (settle_as ReservationState.Released (br_charged r0) now r0) b d).
Proof.
  intros L St La B P Er Ec V. apply validate_branch, branch_valid_inv in V. cbn in V.
  destruct V as (Z & _). eapply (books_settle r0 _ _ b0); cbn; try done.
  - unfold is_open. by rewrite St.
  - rewrite Z. amounts_tac.
  - by apply subtract_amounts_Ok.
  - rewrite Z. amounts_tac.
Qed.

(** A reservation and its account, as they are stored. *)
Record stored (r : BudgetReservation) (b : BudgetAccount) (d : Db) : Prop := {
  so_reservation : db_reservations d !! br_reservation_id r = Some r;
  so_budget : db_budgets d !! br_budget_id r = Some b;
  so_budget_id : bl_budget_id (ba_policy b) = br_budget_id r;
}.

Lemma stored_same r b d d' : same_books d d' → stored r b d → stored r b d'.
Proof. intros [B R] [L La Hb]. split; [by rewrite R|by rewrite B|done]. Qed.

Lemma release_undispatched_books store c l r b k o now d0 d :
  stored r b d → same_books d0 d →
  wp (release_undispatched store c l r b k o now) (λ _, books_step d0) d.
Proof.
  intros [L La Hb] S. unfold release_undispatched, release_reservation. wp_tac.
  apply wp_update_reservation. intros V. wp_tac. apply wp_update_budget. intros _.
  apply wp_ret. cbv beta iota. apply wp_books_tail; [moves_tac|]. etrans; [by apply same_books_step|]. fold_books.
  res_inv. by eapply release_books.
Qed.

Lemma dispatch_now_books store q c l r b b' now d0 d :
  stored r b' d → br_state r = ReservationState.Reserved → same_books d0 d →
  wp (dispatch_now store q c l r b now) (λ _, books_step d0) d.
Proof.
  intros [L _ _] St S. unfold dispatch_now, commit. wp_tac. apply wp_update_reservation.
  intros _. apply wp_books_tail; [moves_tac|]. etrans; [by apply same_books_step|].
  apply (books_dispatch r); [done|]. unfold holding_of, is_open. by rewrite St.
Qed.

(** The end of a forfeit and of a commit writes the account first. *)
Lemma forfeit_books store c l r now d :
  db_reservations d !! br_reservation_id r = Some r →
  br_state r = ReservationState.Dispatching →
  wp (apply_forfeit store c l r now) (λ _, books_step d) d.
Proof.
  intros L St. unfold apply_forfeit. wp_tac. apply wp_update_budget. intros _.
  apply wp_bind, wp_update_reservation. intros _. apply wp_books_tail; [moves_tac|]. fold_books.
  match goal with P : subtract_amounts _ _ = _, Q : add_amounts _ _ = _ |- _ =>
    apply subtract_amounts_Ok in P; apply add_amounts_Ok in Q end.
  eapply (books_settle r); cbn; try done.
  - unfold is_open. by rewrite St.
  - apply fits_within_refl.
Qed.

Lemma persist_books store q p x charged now d :
  stored (ld_reservation x) (ld_budget x) d →
  br_state (ld_reservation x) = ReservationState.Dispatching →
  fits_within charged (br_reserved (ld_reservation x)) = true →
  wp (persist_result store q p x charged now) (λ _, books_step d) d.
Proof.
  intros S St F. unfold persist_result. cbv zeta. assert (same_books d d) as E by done.
  do 8 (apply (wp_skip same_books _ _ _ d _ E); [moves_tac|clear E; intros _ ? E]).
  assert (S' := stored_same _ _ _ _ E S). clear S. destruct S' as [L La Hb].
  wp_tac. apply wp_update_budget. intros _. apply wp_bind, wp_update_reservation. intros _.
  apply wp_books_tail; [moves_tac|]. etrans; [by apply same_books_step|]. fold_books.
  match goal with P : subtract_amounts _ _ = _, Q : add_amounts _ _ = _ |- _ =>
    apply subtract_amounts_Ok in P; apply add_amounts_Ok in Q end.
  eapply (books_settle (ld_reservation x)); cbn; try done.
  unfold is_open. by rewrite St.
Qed.

Lemma dispatched_stored p c (Q : BudgetReservation → Db → Prop) d :
  (∀ r, db_reservations d !! br_reservation_id r = Some r → Q r d) →
  wp (dispatched_reservation p c) Q d.
Proof. intros X. unfold dispatched_reservation. wp_tac. apply X. congruence. Qed.

Context (store : option OperatorStoreContext).

Ltac untouched := first [done|by apply wp_books_tail; [unfold commit; moves_tac|]].

Lemma reserve_books q s : books_step (tx_db s) (tx_db (reserve_aggregate_budget store q s).2).
Proof.
  unfold reserve_aggregate_budget. transaction_tac. wp_tac; try untouched.
  by apply reserve_now_books.
Qed.

Lemma settle_books q s : books_step (tx_db s) (tx_db (settle_budget_reservation store q s).2).
Proof.
  unfold settle_budget_reservation. transaction_tac. wp_tac; [untouched|].
  apply wp_update_reservation. intros V. wp_tac. apply wp_update_budget. intros _.
  apply wp_books_tail; [unfold commit; moves_tac|]. fold_books. res_inv.
  by eapply release_books; try congruence.
Qed.

(** A release, and then a result. *)
Lemma release_then_books {A} c l r b k o now (f : RunControl → result StoreError.t A) d0 d :
  stored r b d → same_books d0 d →
  wp (let! control := release_undispatched store c l r b k o now in ret (f control))
    (λ _, books_step d0) d.
Proof.
  intros S E. eapply wp_bind, wp_mono; [by eapply release_undispatched_books|].
  intros x d' B. by apply wp_ret.
Qed.

Lemma authorize_books q catalog c l r b now d :
  stored r b d → br_state r = ReservationState.Reserved →
  wp (authorize_dispatch store q catalog c l r b now) (λ _, books_step d) d.
Proof.
  intros S St. unfold authorize_dispatch, claim_then_dispatch, commit.
  case_match; [by apply release_then_books|].
  destruct (bq_replay q) as [binding|]; [|by eapply dispatch_now_books].
  apply wp_bind, wp_lift. intros token _. cbv zeta.
  apply (wp_skip same_books _ _ _ d); [done|moves_tac|]. intros claimed d1 S1.
  assert (stored r b d1) as S1' by by eapply stored_same.
  destruct claimed; try (by apply release_then_books).
  - apply (wp_skip same_books _ _ _ d); [done|moves_tac|]. intros _ d2 S2.
    eapply dispatch_now_books; [|done..]. by eapply stored_same.
  - apply wp_bind, wp_reads; [eauto 2 with reads|]. intros completion.
    by apply release_then_books.
Qed.

Lemma begin_books q s : books_step (tx_db s) (tx_db (begin_dispatch store q s).2).
Proof.
  unfold begin_dispatch. transaction_tac. wp_tac; res_inv.
  - eapply wp_mono; [eapply release_undispatched_books; [|done]; split; congruence|].
    intros x d' B. by apply wp_ret.
  - apply authorize_books; [split|]; congruence.
  - apply authorize_books; [split|]; congruence.
Qed.

Lemma failure_books q s : books_step (tx_db s) (tx_db (forfeit_failure store q s).2).
Proof.
  unfold forfeit_failure. cbv zeta. transaction_tac. apply wp_bind, dispatched_stored.
  intros r L. cbv beta. case_match eqn:F; [untouched|]. case_match eqn:D; [apply wp_throw|].
  apply wp_bind, wp_lift. intros now _. apply wp_bind, wp_settlement_authority. intros c l _.
  res_inv. eapply wp_bind, wp_mono; [by apply forfeit_books|].
  intros [[run b] c'] d' B. by apply wp_ret.
Qed.

Lemma forfeit_commit_books q s : books_step (tx_db s) (tx_db (forfeit_commit store q s).2).
Proof.
  unfold forfeit_commit. transaction_tac. apply wp_bind, dispatched_stored.
  intros r L. cbv beta. case_match eqn:D; [apply wp_throw|].
  apply wp_bind, wp_lift. intros now _. apply wp_bind, wp_settlement_authority. intros c l _.
  res_inv. eapply wp_bind, wp_mono; [by apply forfeit_books|]. intros x d' B. by apply wp_ret.
Qed.

Lemma commit_books q p s : books_step (tx_db s) (tx_db (commit_runtime_barrier store q p s).2).
Proof.
  unfold commit_runtime_barrier. case_match; [apply forfeit_commit_books|].
  unfold commit_runtime. transaction_tac. apply wp_bind, dispatched_stored.
  intros r L. cbv beta. case_match eqn:F; [untouched|]. case_match eqn:D; [apply wp_throw|].
  unfold settle_dispatched, forfeit_with, commit. res_inv.
  apply wp_bind, wp_lift. intros now _. apply wp_bind, wp_settlement_authority. intros c l _.
  apply wp_bind, wp_lift. intros started _. cbv zeta. apply wp_bind, wp_load_commit.
  intros x [<- <- <- Lb Hb _]. apply wp_bind, wp_lift. intros context _.
  destruct (binding_valid _ _ _ _ _) eqn:V; cbn [negb].
  - apply wp_bind, wp_candidate.
    + eapply wp_mono; [apply persist_books; [by split|done|]|].
      * unfold binding_valid in V. by res_inv.
      * intros y d' B. by apply wp_ret.
    + intros e. eapply wp_bind, wp_mono; [by apply forfeit_books|].
      intros y d' B. by apply wp_ret.
  - eapply wp_bind, wp_mono; [by apply forfeit_books|]. intros y d' B. by apply wp_ret.
Qed.

End operations.

Section refinement.
Context `{Externals} `{OperatorExternals}.

Lemma same_books_insert_lease l : moves same_books (insert_lease l).
Proof. unfold insert_lease. moves_tac. done. Qed.
Lemma same_books_update_lease l : moves same_books (update_lease l).
Proof. unfold update_lease. moves_tac. done. Qed.
#[local] Hint Resolve same_books_insert_lease same_books_update_lease : moves.

Lemma runtime_step_books store op s : books_step (tx_db s) (tx_db (runtime_step store op s)).
Proof.
  destruct op; cbn [runtime_step].
  - apply same_books_step. revert s. change (moves same_books (claim_run_lease store q)).
    unfold claim_run_lease, commit. moves_tac.
  - apply same_books_step. revert s. change (moves same_books (renew_run_lease store q)).
    unfold renew_run_lease, commit. moves_tac.
  - apply same_books_step. revert s. change (moves same_books (release_run_lease store q)).
    unfold release_run_lease, commit. moves_tac.
  - apply reserve_books.
  - apply settle_books.
  - apply begin_books.
  - apply commit_books.
  - apply failure_books.
  - by rewrite (proj1 (reclaim_refused store q s)).
Qed.

Lemma runtime_run_books calls s : books_step (tx_db s) (tx_db (runtime_run calls s)).
Proof.
  revert s. induction calls as [|[store op] calls IH]; intros s; [done|].
  etrans; [apply (runtime_step_books store op)|apply IH].
Qed.

(** C3: the store implements the budget ledger.  From consistent accounts within their
    limits, every sequence of calls is a sequence of steps of the abstract ledger: a
    reservation holds at most what the limits of its budget leave, and is settled once,
    for at most what it holds, and never changes again.  The totals that the accounts
    keep stay exactly the sums over the reservations, nothing is lost or counted twice on
    any path (release, commit, forfeit, replay, rollback to the savepoint), the limits
    are never changed, and what is reserved and committed never exceeds them. *)
Theorem runtime_refines_ledger (calls : list (option OperatorStoreContext * runtime_op))
    (s : Tx) (I : books_inv (tx_db s)) (W : within_limits (limits_of (tx_db s)) (ledger_of (tx_db s))) :
  let d := tx_db (runtime_run calls s) in
  books_inv d
  ∧ limits_of d = limits_of (tx_db s)
  ∧ rtc (ledger_step (limits_of (tx_db s))) (ledger_of (tx_db s)) (ledger_of d)
  ∧ ∀ b a, db_budgets d !! b = Some a →
      fits_within (plus_amounts (ba_reserved a) (ba_committed a)) (bl_limits (ba_policy a)) = true.
Proof.
  intros d. destruct (runtime_run_books calls s I) as (I' & E & R). fold d in I', E, R.
  split_and!; [done..|]. intros b a L. destruct (bk_totals _ I' _ _ L) as [-> ->].
  assert (W' : within_limits (limits_of (tx_db s)) (ledger_of d)).
  { clear -R W. induction R; [done|]. eauto using ledger_step_within. }
  apply W'. rewrite <- E. unfold limits_of. by rewrite lookup_fmap, L.
Qed.

End refinement.
