(* ===== verification/RuntimeResults.v ===== *)
(** * Results of the runtime store

    What the operations return.  [begin_dispatch_results] shows that a dispatch result
    passes its own validator, but for one branch; [verified_replay_sound] what stands
    behind a replayed result; [approval_never_committed] that a result which waits for
    an approval cannot be committed. *)

From S2P Require Import Prelude RustStr Externals Json Canonical Serialized Evidence Approval.
From S2P Require Import OperatorCommon StrictDigest Agent AgentRun ExecutionStore Durable AuditChain Custody.
From S2P Require Import Base64 RuntimeStore ReplayStore RuntimeOps RuntimeCommitOp RuntimeProofs.
From S2P Require Import RuntimeWp EngineTotal.
From stdpp Require Import options.

#[local] Set Default Proof Using "All".

(** ** Values of calls *)

(** What holds of the value that a call returns. *)
Definition returns {A E} (P : A → Prop) (c : call Tx E A) (s : Tx) : Prop :=
  match (c s).1 with Ok a => P a | _ => True end.

Lemma returns_lift {A B E} P (r : result E A) (k : A → call Tx E B) s :
  (∀ a, r = Ok a → returns P (k a) s) → returns P (cbind (lift r) k) s.
Proof. unfold returns, cbind, lift. destruct r; intros X; [by apply X|done..]. Qed.
Lemma returns_stop {A E} P (b : bool) (e : E) (k : call Tx E A) s :
  (b = false → returns P k s) → returns P (if b then throw e else k) s.
Proof. destruct b; [done|auto]. Qed.
Lemma returns_transaction {A} P (body : tx (result StoreError.t A)) s :
  wp body (λ r _, match r with Ok a => P a | _ => True end) (tx_db s) →
  returns P (transaction body) s.
Proof.
  intros X. unfold returns, transaction. destruct (body s) as [[r|e|] s'] eqn:Y; cbn; try done.
  by apply (X s r s').
Qed.

Lemma returns_wp {A} P (c : tx A) s : wp c (λ a _, P a) (tx_db s) → returns P c s.
Proof.
  intros X. unfold returns. destruct (c s) as [[a|e|] s'] eqn:Y; cbn; try done. by apply (X s a s').
Qed.

(** The guards before a transaction. *)
Ltac returns_tac :=
  repeat lazymatch goal with
  | |- returns _ (cbind (lift _) _) _ => apply returns_lift; intros ? ?
  | |- returns _ (if _ then throw _ else _) _ => apply returns_stop; intros ?
  end; apply returns_transaction.

(** ** Approvals *)

Section approvals.
Context `{Externals} `{OperatorExternals}.

Definition same_requests : relation Db := λ d d',
  db_approval_requests d' = db_approval_requests d.

#[export] Instance same_requests_preorder : PreOrder same_requests.
Proof. split; [done|]. intros a b c E F. unfold same_requests in *. congruence. Qed.

Lemma same_requests_checkpoint c run n : moves same_requests (persist_runtime_checkpoint c run n).
Proof. unfold persist_runtime_checkpoint. by moves_tac. Qed.
Lemma same_requests_events l run : moves same_requests (persist_runtime_events l run).
Proof.
  unfold persist_runtime_events. moves_tac.
  match goal with |- context [persist_events_from _ _ ?n] => generalize n end.
  induction l as [|e l IH]; intros n; cbn [persist_events_from]; by moves_tac.
Qed.
Lemma same_requests_evaluation e run : moves same_requests (persist_runtime_evaluation e run).
Proof. unfold persist_runtime_evaluation. by moves_tac. Qed.
#[local] Hint Resolve same_requests_checkpoint same_requests_events same_requests_evaluation
  : moves.

(** Code whose effect does not matter. *)
Lemma wp_any {A} (c : tx A) (Q : A → Db → Prop) d : (∀ a d', Q a d') → wp c Q d.
Proof. intros X s a s' _ _. apply X. Qed.

(** The step names an approval request that is stored. *)
Lemma wp_update_step st n (Q : () → Db → Prop) d :
  (∀ d', present_opt (db_approval_requests d') (step_approval_request_id st) = true →
         Q tt d') →
  wp (update_agent_step_exact st n) Q d.
Proof. intros X. unfold update_agent_step_exact. wp_tac. res_inv. by apply X. Qed.

(** The request of an approval must be new, and the step must name it. *)
Lemma wp_persist_approval b run st cp (Q : () → Db → Prop) d :
  present_opt (db_approval_requests d) (step_approval_request_id st) = true →
  wp (persist_runtime_approval b run st cp) Q d.
Proof.
  intros P. unfold persist_runtime_approval. wp_tac. exfalso. res_inv.
  match goal with E : step_approval_request_id st = Some _ |- _ => rewrite E in P end.
  cbn in P. congruence.
Qed.

Lemma persist_no_approval store q p x charged now d :
  wp (persist_result store q p x charged now) (λ _ _, ge_approval p = None) d.
Proof.
  unfold persist_result. cbv zeta.
  apply wp_bind, wp_any. intros _ d1.
  apply wp_bind, wp_any. intros _ d2.
  apply wp_bind, wp_update_step. intros d3 P3.
  apply wp_bind, (wp_moves same_requests); [moves_tac|intros _ d4 E4].
  apply wp_bind, (wp_moves same_requests); [moves_tac|intros _ d5 E5].
  apply wp_bind, (wp_moves same_requests); [moves_tac|intros _ d6 E6].
  apply wp_bind. destruct (ge_approval p) as [b|].
  - apply wp_persist_approval. unfold same_requests in *. by rewrite E6, E5, E4.
  - apply wp_ret. intros s a s' _ _. done.
Qed.

Lemma settle_no_approval store q p r d :
  wp (settle_dispatched store q p r)
    (λ x _, match x with Ok _ => ge_approval p = None | _ => True end) d.
Proof.
  assert (F : ∀ c l now e d', wp (forfeit_with store c l r now e)
    (λ x _, match x with Ok _ => ge_approval p = None | _ => True end) d').
  { intros. apply wp_bind, wp_any. intros. by apply wp_ret. }
  unfold settle_dispatched. wp_tac; [apply F| |apply F].
  eapply wp_mono; [apply persist_no_approval|]. intros x d' E. by apply wp_ret.
Qed.

(** A result that asks for an approval is never committed.  When
    [commit_runtime_barrier] returns a result, the prepared execution carries no
    approval, unless the reservation had been committed before the call: the step is
    written before the approval request it refers to, so that its foreign key fails, and
    if the request is there already, inserting it fails.  Either way the savepoint is
    rolled back and the whole reservation is forfeited. *)
Theorem approval_never_committed (store : option OperatorStoreContext)
    (q : RuntimeCommitRequest) (p : PreparedGovernedExecution) (s : Tx) :
  returns (λ _, ge_approval p = None ∨
    ∃ r, db_reservations (tx_db s) !! dp_reservation_id (mq_permit q) = Some r
         ∧ br_state r = ReservationState.Committed)
    (commit_runtime_barrier store q p) s.
Proof.
  unfold commit_runtime_barrier. case_match; [|unfold commit_runtime].
  - unfold forfeit_commit. returns_tac. wp_tac. apply wp_any. intros. by apply wp_ret.
  - returns_tac. apply wp_bind. unfold dispatched_reservation. wp_tac.
    + res_inv. case_match; [|done..]. right. eauto.
    + eapply wp_mono; [apply settle_no_approval|]. intros x d'. case_match; auto.
Qed.

End approvals.

(** ** Replays *)

Section replays.
Context `{Externals} `{OperatorExternals}.

(** The rows behind a replayed result. *)
Record Origin := {
  og_row : ReplayRow;
  og_binding : ReplayBindingRow;
  og_completed_at : DateTime;
  og_output : json;
  og_proof_id : Uuid;
  og_proof : Proof_;
  og_context_id : Uuid;
  og_reservation : BudgetReservation;
  og_principal : Principal;
  og_step : AgentRunStep;
}.

(** The claim is completed and bound to the same claim binding, the reservation that it
    came from is committed for that binding, the proof is stored, signed by the agent
    that claimed the key and about this operation, version, input and output, the output
    passes its schema, and the step still carries the output and the proof. *)
Record replay_verified (catalog : OperatorSchemaCatalog) (binding : ReplayClaimBinding)
    (d : Db) (c : ReplayCompletionBinding) (o : Origin) : Prop := {
  rv_row : db_replays d !! binding_key binding = Some (og_row o);
  rv_state : row_state (og_row o) =
    ReplayCompleted (og_completed_at o) (og_output o) (og_proof_id o) (og_proof o)
      (og_context_id o);
  rv_input : row_input_digest (og_row o) = rb_input_digest binding;
  rv_binding_row : db_bindings d !! binding_key binding = Some (og_binding o);
  rv_binding : bind_binding (og_binding o) = binding;
  rv_reservation :
    db_reservations d !! bind_origin_reservation_id (og_binding o) = Some (og_reservation o);
  rv_committed : br_state (og_reservation o) = ReservationState.Committed;
  rv_replay : br_replay (og_reservation o) = Some binding;
  rv_stored : row_proof <$> db_proofs d !! og_proof_id o = Some (og_proof o);
  rv_principal : db_principals d !! pb_actor (body (og_proof o)) = Some (og_principal o);
  rv_agent : pr_kind (og_principal o) = Agent;
  rv_signed : Proof_verify (og_proof o) (pr_public_key (og_principal o)) = Ok ();
  rv_actor : pb_actor (body (og_proof o)) = rb_claimed_by binding;
  rv_operation : pb_operation (body (og_proof o))
                 = rb_operation binding +:+ "::" +:+ rb_version binding;
  rv_input_digest : pb_input_digest (body (og_proof o)) = rb_input_digest binding;
  rv_canonical : canonicalize (og_output o) = Ok (rcb_canonical_output_json c);
  rv_output_digest :
    pb_output_digest (body (og_proof o)) = digest OperationOutput (rcb_canonical_output_json c);
  rv_schema :
    validate_output catalog (rb_operation binding) (rb_version binding) (og_output o) = true;
  rv_step : db_steps d !! rb_step_id binding = Some (og_step o);
  rv_step_output : step_output (og_step o) = Some (og_output o);
  rv_step_proof : step_proof (og_step o) = Some (og_proof o);
  rv_completion : ReplayCompletionBinding_validate c = Ok ();
  rv_completion_binding : rcb_replay_binding_digest c = rb_binding_digest binding;
  rv_completion_proof : pe_signature (rcb_proof c) = base64url (signature (og_proof o));
}.

Lemma wp_load_origin b id (Q : _ → Db → Prop) d :
  (∀ r x m, db_reservations d !! id = Some r → br_state r = ReservationState.Committed →
            br_replay r = Some b → Q (r, x, m) d) →
  wp (load_origin b id) Q d.
Proof.
  intros X. unfold load_origin, uuid_column. wp_tac. res_inv. by apply X.
Qed.

Lemma Proof_verify_Ok proof key : is_err (Proof_verify proof key) = false →
  Proof_verify proof key = Ok ().
Proof.
  assert (Proof_verify proof key ≠ Panic) as N.
  { unfold Proof_verify, signing_payload, canonicalize_serialized, verify.
    apply rbind_not_Panic; [auto with rust|]. intros. apply map_err_not_Panic. by case_match. }
  by destruct (Proof_verify proof key) as [[]| |].
Qed.

Lemma wp_check_proof b x at_ id proof context (Q : () → Db → Prop) d :
  (∀ pr, row_proof <$> db_proofs d !! id = Some proof →
         db_principals d !! pb_actor (body proof) = Some pr → pr_kind pr = Agent →
         Proof_verify proof (pr_public_key pr) = Ok () →
         pb_actor (body proof) = rb_claimed_by b →
         pb_operation (body proof) = rb_operation b +:+ "::" +:+ rb_version b →
         pb_input_digest (body proof) = rb_input_digest b → Q tt d) →
  wp (check_proof b x at_ id proof context) Q d.
Proof.
  intros X. unfold check_proof, load_principal_record, uuid_column. wp_tac. res_inv.
  cbn [pr_kind pr_public_key] in *. eapply X; try done; [|by apply Proof_verify_Ok].
  by match goal with P : db_proofs d !! _ = _ |- _ => rewrite P end.
Qed.

Lemma wp_check_progress b r x m output proof (Q : _ → Db → Prop) d :
  (∀ run st c, db_steps d !! rb_step_id b = Some st → step_output st = Some output →
               step_proof st = Some proof → Q (run, st, c) d) →
  wp (check_progress b r x m output proof) Q d.
Proof.
  intros X. unfold check_progress, load_agent_step_exact. wp_tac. res_inv. by apply X.
Qed.

Lemma replay_completion_digest c :
  ReplayCompletionBinding_validate c = Ok () →
  rcb_output_digest c = digest OperationOutput (rcb_canonical_output_json c).
Proof. unfold ReplayCompletionBinding_validate. intros E. res_inv. congruence. Qed.

Lemma wp_verified_replay catalog q (Q : option ReplayCompletionBinding → Db → Prop) d :
  (∀ c o, replay_verified catalog (lk_binding q) d c o → Q (Some c) d) →
  (joined (binding_key (lk_binding q)) d = None → Q None d) →
  (∀ e b, joined (binding_key (lk_binding q)) d = Some (e, b) →
     (∀ t v i p c, row_state e ≠ ReplayCompleted t v i p c) → Q None d) →
  wp (load_verified_replay catalog q) Q d.
Proof.
  intros X Y Z. unfold load_verified_replay.
  apply wp_bind, wp_lift. intros _ _. apply wp_bind, wp_query. intros row [= J].
  destruct row as [[e b]|]; [|by apply wp_ret, Y].
  destruct (row_state e) as [|t v i p c|t f] eqn:S;
    [by apply wp_ret, (Z e b); [|congruence]| |by apply wp_ret, (Z e b); [|congruence]].
  cbv zeta. do 4 wp_step. apply wp_bind, wp_load_origin. intros r x m Lr Cr Rr. do 3 wp_step.
  apply wp_bind, wp_check_proof. intros pr Lp Lpr Kp Vp Ap Op Ip.
  apply wp_bind, wp_check_progress. intros run st control Ls So Sp.
  apply wp_bind, wp_reads; [apply reads_check_projections|intros _].
  apply wp_bind, wp_reads; [eauto 2 with reads|intros _]. do 2 wp_step. unfold corrupt in *.
  pose (o := {| og_row := e; og_binding := b; og_completed_at := t; og_output := v;
    og_proof_id := i; og_proof := p; og_context_id := c; og_reservation := r;
    og_principal := pr; og_step := st |}).
  unfold joined in J. simplify_option_eq. res_inv. apply wp_ret, (X _ o).
  match goal with V : ReplayCompletionBinding_validate ?y = _ |- _ =>
    pose proof (replay_completion_digest y V) end.
  match goal with B : bind_binding _ = lk_binding q |- _ => rewrite B in * end.
  split; try done. subst o. cbn [og_proof_id og_proof].
  by match goal with P : db_proofs d !! _ = _ |- _ => rewrite P end.
Qed.

(** C18: what [load_verified_replay] returns is a genuine earlier result.  It changes
    nothing, and when it returns a completion, the rows of the store show it
    ([replay_verified]): the key was claimed for this very binding and completed, the
    reservation of that dispatch was committed, and the returned output is the one whose
    digest the stored proof carries, with a signature that verifies under the public key
    of the agent that claimed the key. *)
Theorem verified_replay_sound (catalog : OperatorSchemaCatalog) (q : ReplayLookupRequest)
    (s : Tx) :
  tx_db (load_verified_replay catalog q s).2 = tx_db s
  ∧ returns (λ o, match o with
                  | Some c => ∃ rows, replay_verified catalog (lk_binding q) (tx_db s) c rows
                  | None => True
                  end) (load_verified_replay catalog q) s.
Proof.
  split; [symmetry; apply reads_verified_replay|]. apply returns_wp, wp_verified_replay; [|done..].
  intros c rows V. by exists rows.
Qed.

End replays.

(** ** Dispatch results *)

Section dispatch.
Context `{Externals} `{OperatorExternals} (store : option OperatorStoreContext).

Lemma bump_control_safe c now c' :
  bump_control c now = Ok c' → (MAX_SAFE_INTEGER <? ctl_control_revision c')%N = false.
Proof.
  unfold bump_control. intros E. res_inv. cbn. apply N.ltb_ge.
  match goal with P : next_safe _ = Some _ |- _ => by apply next_safe_Some in P as [_ ?] end.
Qed.

Lemma wp_advance c n now (Q : RunControl → Db → Prop) d :
  (∀ c' d', (MAX_SAFE_INTEGER <? ctl_control_revision c')%N = false → Q c' d') →
  wp (advance store c n now) Q d.
Proof.
  intros X. unfold advance. wp_step. wp_step. apply wp_bind, wp_any. intros _ d1.
  apply wp_bind, wp_any. intros _ d2. apply wp_ret, X. by eapply bump_control_safe.
Qed.

Lemma wp_release_undispatched c l r b k o now (Q : RunControl → Db → Prop) d :
  (∀ c' d', (MAX_SAFE_INTEGER <? ctl_control_revision c')%N = false → Q c' d') →
  wp (release_undispatched store c l r b k o now) Q d.
Proof.
  intros X. unfold release_undispatched. apply wp_bind, wp_any. intros [r' b'] d1.
  apply wp_bind, wp_advance. intros c' d2 S. apply wp_bind, wp_any. intros _ d3.
  by apply wp_ret, X.
Qed.

(** A completed key that no operator binding belongs to. *)
Definition unbound_replay (q : BeginDispatchRequest) (d : Db) : Prop :=
  ∃ binding row t v i p c,
    bq_replay q = Some binding ∧ db_replays d !! binding_key binding = Some row
    ∧ row_state row = ReplayCompleted t v i p c ∧ joined (binding_key binding) d = None.

Definition result_sound (q : BeginDispatchRequest) (d : Db) (x : DispatchResult) : Prop :=
  DispatchResult_validate x = Ok () ∨
  dx_outcome x = DispatchOutcome.ExactReplay ∧ dx_replay_completion x = None
  ∧ DispatchResult_validate x = Err StoreError.Invalid ∧ unbound_replay q d.

Lemma dispatch_result_valid outcome permit completion c :
  (MAX_SAFE_INTEGER <? ctl_control_revision c)%N = false →
  match outcome with
  | DispatchOutcome.DispatchAuthorized =>
      ∃ p, permit = Some p ∧ DispatchPermit_validate p = Ok () ∧ completion = None
  | DispatchOutcome.ExactReplay =>
      permit = None ∧ ∃ y, completion = Some y ∧ ReplayCompletionBinding_validate y = Ok ()
  | _ => permit = None ∧ completion = None
  end →
  DispatchResult_validate (dispatch_result outcome permit completion c) = Ok ().
Proof.
  intros S B. unfold DispatchResult_validate, dispatch_result.
  cbn [dx_schema dx_control_revision dx_outcome dx_permit dx_replay_completion].
  rewrite bool_decide_true, S by done. cbn [negb orb].
  destruct outcome; [destruct B as (p & -> & V & ->)|destruct B as (-> & y & -> & V)
    |destruct B as [-> ->]..]; cbn [is_some_and is_none is_some negb andb]; by rewrite ?V.
Qed.

Notation post q d := (λ r _, match r with Ok x => result_sound q d x | _ => True end).

Lemma dispatch_now_sound q c l r b now d0 d : wp (dispatch_now store q c l r b now) (post q d0) d.
Proof.
  unfold dispatch_now, commit. do 4 (cbv beta zeta; wp_step). unfold invalid in *. res_inv.
  apply wp_bind, wp_any. intros _ d1. apply wp_bind, wp_advance. intros c' d2 S.
  apply wp_bind, wp_any. intros _ d3. apply wp_ret. left. apply dispatch_result_valid; [done|].
  by eexists.
Qed.

(** A completed key leaves the tables as they are. *)
Lemma wp_claim claim (Q : ClaimResult.t → Db → Prop) d :
  (∀ x d', match x with
           | ClaimResult.Completed _ => d' = d ∧ ∃ row t v i p c,
               db_replays d !! rc_key claim = Some row ∧ row_state row = ReplayCompleted t v i p c
           | _ => True
           end → Q x d') →
  wp (claim_execution_replay_in_transaction claim) Q d.
Proof.
  intros X. unfold claim_execution_replay_in_transaction. apply wp_bind, wp_lift. intros _ _.
  intros s x s' <- E. apply X. destruct x as [|o| | | |]; try done.
  destruct (db_replays (tx_db s) !! rc_key claim) as [row|] eqn:L.
  - destruct (negb _); [done|]. destruct (row_state row) eqn:S; [done| |done].
    pose proof (load_completed_outcome_reads row s) as Y. rewrite E in Y. cbn in Y. subst s'.
    split; [done|]. eauto 10.
  - unfold cbind, call_map_err, sql, ret in E. by destruct (no_other _ _ _).
Qed.

Lemma refused_sound q c l r b k o out now d0 d :
  match out with
  | DispatchOutcome.DispatchAuthorized | DispatchOutcome.ExactReplay => False
  | _ => True
  end →
  wp (let! control := release_undispatched store c l r b k o now in
      commit (dispatch_result out None None control)) (post q d0) d.
Proof.
  intros Ho. apply wp_bind, wp_release_undispatched. intros c' d2 S. apply wp_ret.
  left. apply dispatch_result_valid; [done|]. by destruct out.
Qed.

Lemma claim_then_dispatch_sound q catalog c l r b now binding token d :
  bq_replay q = Some binding →
  wp (claim_then_dispatch store q catalog c l r b now binding token) (post q d) d.
Proof.
  intros Eq. unfold claim_then_dispatch, commit. cbv zeta.
  apply wp_bind, wp_map_err, wp_claim. intros x d1 Hx.
  destruct x as [|o| | | |]; try by apply refused_sound.
  - apply wp_bind, wp_any. intros _ d2. apply dispatch_now_sound.
  - destruct Hx as (-> & row & t & v & i & p & cx & L & S).
    apply wp_bind, wp_verified_replay; cbn [lookup_of lk_binding].
    + intros y rows V. apply wp_bind, wp_release_undispatched. intros c' d2 Sf. apply wp_ret.
      left. apply dispatch_result_valid; [done|]. split; [done|]. exists y.
      by destruct V.
    + intros J. apply wp_bind, wp_release_undispatched. intros c' d2 Sf. apply wp_ret. right.
      split_and!; [done..| |by eexists binding, row, t, v, i, p, cx].
      unfold DispatchResult_validate. cbn. by rewrite bool_decide_true, Sf.
    + intros e b' J N. unfold joined in J. simplify_option_eq. by destruct (N t v i p cx).
Qed.

Lemma authorize_dispatch_sound q catalog c l r b now d :
  wp (authorize_dispatch store q catalog c l r b now) (post q d) d.
Proof.
  unfold authorize_dispatch. case_match.
  - apply wp_bind, wp_any. intros _ d1. by apply wp_ret.
  - destruct (bq_replay q) as [binding|] eqn:E; [|apply dispatch_now_sound].
    wp_step. wp_step. by apply claim_then_dispatch_sound.
Qed.

Lemma wp_verified_valid catalog q (Q : option ReplayCompletionBinding → Db → Prop) d :
  (∀ o, match o with Some y => ReplayCompletionBinding_validate y = Ok () | None => True end →
        Q o d) →
  wp (load_verified_replay catalog q) Q d.
Proof.
  intros X. apply wp_verified_replay; [|by intros; apply X..].
  intros c rows V. apply X. by destruct V.
Qed.

(** What [begin_dispatch] returns passes [DispatchResult::validate], the check that
    its caller makes: a permit that is valid, a verified replay, or a refusal.  There is
    exactly one exception: a key that was completed outside of the operator store, so
    that no replay binding belongs to it, is answered with an exact replay without a
    completion, which the caller has to reject as invalid, after the reservation has
    been released. *)
Theorem begin_dispatch_results (q : BeginDispatchRequest) (s : Tx) :
  returns (result_sound q (tx_db s)) (begin_dispatch store q) s.
Proof.
  unfold begin_dispatch. returns_tac.
  repeat (cbv beta zeta; first [apply wp_verified_valid; intros ? ?|wp_step
                               |apply wp_reads; [solve [eauto 2 with reads]|intros ?]]);
    try apply authorize_dispatch_sound.
  apply wp_release_undispatched. intros c' d' S. apply wp_ret. left.
  apply dispatch_result_valid; [done|]. split; [done|]. eauto.
Qed.

End dispatch.
