(* ===== verification/ControlStore.v ===== *)
(** * The whole control store

    Everything that changes the operator tables: the calls of the runtime store, of the
    authority audit store, the registration of runs and the commands of the operator, in
    any order ([control_run]).  [cwp] and [steps] are the postconditions of code inside
    the transaction of a command, and [control_invariants] says that no sequence of calls
    breaks the audit chain, the fencing of leases, the books of the budgets or the
    command tables' being append-only. *)

From S2P Require Import Prelude RustStr Externals Json Canonical Serialized Evidence Approval.
From S2P Require Import OperatorCommon StrictDigest Agent AgentRun ExecutionStore Durable AuditChain.
From S2P Require Import OperatorAuth Custody RuntimeStore ReplayStore RuntimeOps RuntimeCommitOp.
From S2P Require Import OperatorCommand CommandStore RuntimeProofs OperatorAuthAudit RuntimeWp.
From S2P Require Import RuntimeLeases RuntimeLedger.
From stdpp Require Import options.

#[local] Set Default Proof Using "All".

(** ** Calls *)

Inductive control_op : Type :=
| CtRuntime (op : runtime_op)
| CtAuthority (q : ControlAuditAppendRequest)
| CtRegister (q : RegisterGovernedRunRequest)
| CtCommand (q : CommandExecutionRequest) (signer : OperatorSigner).

Section runs.
Context `{Externals} `{OperatorExternals}.

(** A call of another part of the store. *)
Definition on_tables (f : Tx → Tx) (s : CommandTx) : CommandTx :=
  let t := f {| tx_db := cd_db (ct_db s); tx_uuids := ct_uuids s |} in
  {| ct_db := with_db (tx_db t) (ct_db s); ct_uuids := tx_uuids t |}.

Definition control_step (store : option OperatorStoreContext) (op : control_op) (s : CommandTx)
    : CommandTx :=
  match op with
  | CtRuntime op => on_tables (runtime_step store op) s
  | CtAuthority q => on_tables (λ t, (sqlite_append_authority_event store q t).2) s
  | CtRegister q => on_tables (λ t, (register_governed_run store q t).2) s
  | CtCommand q signer => (execute_operator_command store q signer s).2
  end.

(** Calls one after the other, each with the clock of its time. *)
Definition control_run (calls : list (option OperatorStoreContext * control_op)) (s : CommandTx)
    : CommandTx :=
  foldl (λ s call, control_step call.1 call.2 s) s calls.

End runs.

(** ** Postconditions *)

Definition cwp {A E} (c : call CommandTx E A) (Q : A → CommandDb → Prop) (x : CommandDb) : Prop :=
  ∀ s a s', ct_db s = x → c s = (Ok a, s') → Q a (ct_db s').

Section rules.
Context {E : Type}.

Lemma cwp_ret {A} (a : A) Q x : Q a x → cwp (ret (E := E) a) Q x.
Proof. intros X s b s' <- [= <- <-]. done. Qed.
Lemma cwp_throw {A} (e : E) Q x : cwp (throw (A := A) e) Q x.
Proof. intros s b s' _ [=]. Qed.
Lemma cwp_lift {A} (r : result E A) Q x : (∀ a, r = Ok a → Q a x) → cwp (lift r) Q x.
Proof. intros X s b s' <- [= Y <-]. by apply X. Qed.
Lemma cwp_bind {A B} (c : call CommandTx E A) (k : A → call CommandTx E B) Q x :
  cwp c (λ a, cwp (k a) Q) x → cwp (cbind c k) Q x.
Proof.
  intros X s b s' Hd Y. unfold cbind in Y. destruct (c s) as [[a|e|] s1] eqn:Z; try done.
  exact (X s a s1 Hd Z s1 b s' eq_refl Y).
Qed.
Lemma cwp_mono {A} (c : call CommandTx E A) (P Q : A → CommandDb → Prop) x :
  cwp c P x → (∀ a y, P a y → Q a y) → cwp c Q x.
Proof. intros X Y s a s' Hd Z. apply Y. by eapply X. Qed.

End rules.

Lemma cwp_select {A} (f : CommandDb → result StoreError.t A) Q x :
  (∀ a, f x = Ok a → Q a x) → cwp (select f) Q x.
Proof. intros X s b s' <- [= Y <-]. by apply X. Qed.
Lemma cwp_insert admissible effect (Q : () → CommandDb → Prop) x :
  (admissible x = true → Q tt (effect x)) → cwp (insert_into admissible effect) Q x.
Proof.
  intros X s [] s' <- Y. unfold insert_into in Y. destruct (admissible (ct_db s)); [|done].
  injection Y as <-. by apply X.
Qed.
Lemma cwp_tables {A} (c : tx A) (Q : A → CommandDb → Prop) x :
  wp c (λ a d, Q a (with_db d x)) (cd_db x) → cwp (tables c) Q x.
Proof.
  intros X s a s' <- Y. unfold tables in Y.
  destruct (c {| tx_db := cd_db (ct_db s); tx_uuids := ct_uuids s |}) as [r t] eqn:Z.
  injection Y as -> <-. exact (X {| tx_db := cd_db (ct_db s); tx_uuids := ct_uuids s |} _ _ eq_refl Z).
Qed.

(** What a transaction may do to the tables. *)
Lemma command_transaction_wp {A} (R : relation CommandDb) `{!Reflexive R}
    (body : ctx (result StoreError.t A)) s :
  cwp body (λ _, R (ct_db s)) (ct_db s) → R (ct_db s) (ct_db (command_transaction body s).2).
Proof.
  intros X. unfold command_transaction. destruct (body s) as [[r|e|] s'] eqn:Y; cbn; [|done..].
  by apply (X s r s').
Qed.

Ltac cwp_step :=
  lazymatch goal with
  | |- cwp (cbind _ _) _ _ => apply cwp_bind
  | |- cwp (ret _) _ _ => apply cwp_ret
  | |- cwp (throw _) _ _ => apply cwp_throw
  | |- cwp (lift _) _ _ => apply cwp_lift; intros ? ?
  | |- cwp (select _) _ _ => apply cwp_select; intros ? ?
  | |- cwp (insert_into _ _) _ _ => apply cwp_insert; intros ?
  | |- cwp (if ?b then throw _ else _) _ _ => destruct b eqn:?; [apply cwp_throw|]
  | |- cwp (if ?b then _ else _) _ _ => destruct b eqn:?
  | |- cwp (match ?x with _ => _ end) _ _ => destruct x eqn:?
  end.

(** Code whose tables are related by [R] when it returns. *)
Definition steps (R : relation CommandDb) {A} (c : ctx A) : Prop := ∀ x, cwp c (λ _, R x) x.

Section steps.
Context (R : relation CommandDb) `{!PreOrder R}.

Lemma steps_ret {A} (a : A) : steps R (ret a).
Proof. intros x. apply cwp_ret. reflexivity. Qed.
Lemma steps_throw {A} (e : StoreError.t) : steps R (throw (A := A) e).
Proof. intros x. apply cwp_throw. Qed.
Lemma steps_lift {A} (r : result StoreError.t A) : steps R (lift r).
Proof. intros x. apply cwp_lift. intros. reflexivity. Qed.
Lemma steps_select {A} (f : CommandDb → result StoreError.t A) : steps R (select f).
Proof. intros x. apply cwp_select. intros. reflexivity. Qed.
Lemma steps_cbind {A B} (c : ctx A) (k : A → ctx B) :
  steps R c → (∀ a, steps R (k a)) → steps R (cbind c k).
Proof.
  intros Hc Hk x. apply cwp_bind. eapply cwp_mono; [apply Hc|]. intros a y Y.
  eapply cwp_mono; [apply Hk|]. intros b z Z. exact (transitivity Y Z).
Qed.
Lemma steps_insert admissible effect :
  (∀ x, admissible x = true → R x (effect x)) → steps R (insert_into admissible effect).
Proof. intros X x. apply cwp_insert. auto. Qed.
Lemma steps_tables {A} (c : tx A) :
  (∀ x, wp c (λ _ d, R x (with_db d x)) (cd_db x)) → steps R (tables c).
Proof. intros X x. apply cwp_tables, X. Qed.

End steps.

Create HintDb steps discriminated.
Ltac steps_step :=
  lazymatch goal with
  | |- steps _ (ret _) => apply steps_ret; exact _
  | |- steps _ (throw _) => apply steps_throw; exact _
  | |- steps _ (lift _) => apply steps_lift; exact _
  | |- steps _ (select _) => apply steps_select; exact _
  | |- steps _ (cbind _ _) => apply steps_cbind; [exact _| |intros ?]
  | |- steps _ (insert_into _ _) => apply steps_insert; [exact _|intros ? ?]
  | |- steps _ (if ?b then _ else _) => destruct b
  | |- steps _ (match ?x with _ => _ end) => destruct x
  end.
Ltac steps_tac := repeat (cbv zeta; first [solve [eauto 2 with steps]|steps_step]).

(** ** The tables of the runtime store *)

(** A relation on the tables of [RuntimeStore]. *)
Definition on_db (R : relation Db) : relation CommandDb := λ x y, R (cd_db x) (cd_db y).

#[export] Instance on_db_preorder (R : relation Db) `{!PreOrder R} : PreOrder (on_db R).
Proof. split; [intros x; unfold on_db; reflexivity|]. intros x y z. apply (transitivity (R := R)). Qed.

Section reads.
Context `{Externals} `{OperatorExternals} (store : option OperatorStoreContext).

Lemma reads_command_lease run n now b : reads (load_command_lease run n now b).
Proof. unfold load_command_lease. moves_tac. Qed.
Lemma reads_approval_record b q d : reads (validate_approval_record b q d).
Proof. unfold validate_approval_record, validate_decision. moves_tac. Qed.
Lemma reads_signed_decision signer c a id now : reads (signed_decision signer c a id now).
Proof. unfold signed_decision. moves_tac. Qed.
Lemma reads_resume_recovery c ctl run st cp id now :
  reads (resume_with_recovery c ctl run st cp id now).
Proof. unfold resume_with_recovery. moves_tac. Qed.

End reads.

#[export] Hint Resolve reads_command_lease reads_approval_record reads_signed_decision
  reads_resume_recovery : reads.

(** A relation that the statements of a command keep, apart from the update of the run. *)
Class CommandTail `{Externals} `{OperatorExternals} (store : option OperatorStoreContext)
    (R : relation Db) : Prop := {
  cf_preorder :: PreOrder R;
  cf_advance c n now : moves R (advance store c n now);
  cf_step r n : moves R (update_agent_step_exact r n);
  cf_event e : moves R (append_audit_event e);
  cf_proof k row d :
    db_proofs d !! k = None → R d (with_proofs (<[k := row]> (db_proofs d)) d);
  cf_release c l run now d : wp (release_reserved store c l run now) (λ _, R d) d;
}.

Class CommandFrame `{Externals} `{OperatorExternals} (store : option OperatorStoreContext)
    (R : relation Db) : Prop := {
  cf_tail :: CommandTail store R;
  cf_run r n : moves R (update_agent_run_exact r n);
}.

Section tail.
Context `{Externals} `{OperatorExternals} (store : option OperatorStoreContext).
Context (R : relation Db) `{!CommandTail store R}.

Lemma steps_moves {A} (c : tx A) : moves R c → steps (on_db R) (tables c).
Proof. intros M. apply steps_tables; [exact _|]. intros x. by apply (wp_moves R). Qed.
Lemma steps_reads {A} (c : tx A) : reads c → steps (on_db R) (tables c).
Proof. intros M. apply steps_moves, moves_reads; [exact _|done]. Qed.
Lemma steps_uuid : steps (on_db R) (tables (operator_uuid store)).
Proof. apply steps_moves, moves_uuid, _. Qed.
Lemma steps_command_event e sh k o f b p now :
  steps (on_db R) (tables (append_command_event store e sh k o f b p now)).
Proof.
  apply steps_moves. unfold append_command_event, record_event. moves_tac. apply (cf_event (store := store)).
Qed.
Lemma steps_sign signer w e o now :
  steps (on_db R) (tables (sign_command_transition store signer w e o now)).
Proof.
  apply steps_moves. unfold sign_command_transition, persist_command_proof. moves_tac.
  res_inv. apply (cf_proof (store := store)). by apply present_false.
Qed.
#[local] Hint Resolve steps_uuid steps_command_event steps_sign : steps.

Lemma steps_command e sh : steps (on_db R) (insert_command_envelope e sh).
Proof. unfold insert_command_envelope. steps_tac. unfold on_db. reflexivity. Qed.
Lemma steps_receipt r : steps (on_db R) (insert_command_receipt r).
Proof. unfold insert_command_receipt. steps_tac. unfold on_db. reflexivity. Qed.
Lemma steps_decision d : steps (on_db R) (insert_decision d).
Proof. unfold insert_decision. steps_tac. unfold on_db. reflexivity. Qed.
#[local] Hint Resolve steps_command steps_receipt steps_decision : steps.

Lemma steps_finish e o f p ev now : steps (on_db R) (finish store e o f p ev now).
Proof. unfold finish. steps_tac. Qed.
#[local] Hint Resolve steps_finish : steps.
Lemma steps_conclude signer w e sh op k f (done_ : tx ()) rf now :
  moves R done_ → steps (on_db R) (conclude store signer w e sh op k f done_ rf now).
Proof. intros D. unfold conclude. steps_tac. by apply steps_moves. Qed.
Lemma steps_bundle id : steps (on_db R) (load_approval_bundle id).
Proof. unfold load_approval_bundle. steps_tac. apply steps_reads. eauto with reads. Qed.
#[local] Hint Resolve steps_bundle : steps.
#[local] Hint Extern 2 (steps _ (tables _)) => solve [apply steps_reads; eauto 2 with reads] : steps.

Lemma steps_advance c n now : steps (on_db R) (tables (advance store c n now)).
Proof. apply steps_moves, cf_advance. Qed.
Lemma steps_step r n : steps (on_db R) (tables (update_agent_step_exact r n)).
Proof. apply steps_moves, (cf_step (store := store)). Qed.
Lemma steps_release c l run now : steps (on_db R) (tables (release_reserved store c l run now)).
Proof. apply steps_tables; [exact _|]. intros x. apply cf_release. Qed.
#[local] Hint Resolve steps_advance steps_step steps_release : steps.

Lemma steps_decide signer w e sh c now :
  steps (on_db R) (decide_approval store signer w e sh c now).
Proof.
  unfold decide_approval. steps_tac.
  - apply steps_moves. unfold expired_approval. moves_tac. apply (cf_event (store := store)).
  - apply steps_conclude. moves_tac.
Qed.
Lemma steps_revoke signer w e sh now : steps (on_db R) (revoke_session store signer w e sh now).
Proof. unfold revoke_session. steps_tac. apply steps_conclude. moves_tac. Qed.
Lemma steps_resume_approval c run st id now :
  steps (on_db R) (resume_with_approval c run st id now).
Proof. unfold resume_with_approval. steps_tac. Qed.
Lemma moves_recovery_completed w run l o now :
  moves R (recovery_completed store w run l o now).
Proof. unfold recovery_completed. moves_tac. apply (cf_event (store := store)). Qed.
Lemma steps_again q sh digest e id r : steps (on_db R) (execute_again store q sh digest e id r).
Proof. unfold execute_again. steps_tac. Qed.
Lemma steps_scope q : steps (on_db R) (validate_command_scope q).
Proof. unfold validate_command_scope, load_workspace_transaction. steps_tac. Qed.

End tail.

#[export] Hint Extern 0 (CommandTail _ _) => exact _ : steps.
#[export] Hint Extern 2 (steps (on_db _) (tables _)) =>
  solve [eapply steps_reads; [exact _|eauto 2 with reads]] : steps.
#[export] Hint Resolve steps_uuid steps_command_event steps_sign steps_command steps_receipt
  steps_decision steps_finish steps_bundle steps_advance steps_step steps_release steps_decide
  steps_revoke steps_resume_approval steps_again steps_scope : steps.

Section frame.
Context `{Externals} `{OperatorExternals} (store : option OperatorStoreContext).
Context (R : relation Db) `{!CommandFrame store R}.

Lemma steps_run r n : steps (on_db R) (tables (update_agent_run_exact r n)).
Proof. apply (steps_moves store); [exact _|]. apply (cf_run (store := store)). Qed.
#[local] Hint Resolve steps_run : steps.

Lemma steps_cancel signer w e sh c now : steps (on_db R) (cancel_run store signer w e sh c now).
Proof.
  unfold cancel_run. steps_tac.
  - apply (steps_moves store); [exact _|]. unfold cancel_row. moves_tac. apply (cf_run (store := store)).
  - apply steps_conclude; [exact _|]. moves_tac.
Qed.
Lemma steps_resume signer w e sh c now : steps (on_db R) (resume_run store signer w e sh c now).
Proof.
  unfold resume_run. steps_tac. apply steps_conclude; [exact _|].
  by apply moves_recovery_completed, _.
Qed.
#[local] Hint Resolve steps_cancel steps_resume : steps.

(** A command, whether it succeeds or fails. *)
Lemma command_frame q signer s :
  R (cd_db (ct_db s)) (cd_db (ct_db (execute_operator_command store q signer s).2)).
Proof.
  unfold execute_operator_command, cbind at 1, lift at 1.
  destruct (operator_context store); [|done..]. cbv iota.
  apply (command_transaction_wp (on_db R)).
  match goal with |- cwp ?c _ _ => enough (steps (on_db R) c) as X by apply X end.
  unfold execute_new. steps_tac.
Qed.

End frame.

(** ** Three frames *)

Section instances.
Context `{Externals} `{OperatorExternals} (store : option OperatorStoreContext).

Lemma moves_mono (R S : relation Db) {A E} (c : call Tx E A) :
  (∀ d d', R d d' → S d d') → moves R c → moves S c.
Proof. intros X M s. apply X, M. Qed.

Lemma writes_release c l run now : moves (rtc write) (release_reserved store c l run now).
Proof. unfold release_reserved, release_reservation, append_budget_event. moves_tac. Qed.

#[export] Instance frame_writes : CommandFrame store (rtc write).
Proof.
  split; [split; [exact _|..]|].
  - apply writes_advance.
  - apply writes_step.
  - apply writes_event.
  - intros k row d N. by apply rtc_once, write_proof.
  - intros c l run now d. by apply (wp_moves (rtc write)); [apply writes_release|].
  - apply writes_run.
Qed.

#[export] Instance frame_leases : CommandFrame store same_leases.
Proof.
  split; [split; [exact _|..]|]; try (intros; moves_tac; done).
  intros c l run now d. apply (wp_moves same_leases); [|done].
  unfold release_reserved, release_reservation, update_reservation, update_budget. moves_tac; done.
Qed.

Lemma release_reserved_books c l run now d :
  wp (release_reserved store c l run now) (λ _, books_step d) d.
Proof.
  unfold release_reserved, release_reservation. wp_tac; [|done].
  apply wp_update_reservation. intros V. wp_tac. apply wp_update_budget. intros _.
  apply wp_ret. cbv beta iota. apply wp_books_tail; [moves_tac|]. fold_books.
  res_inv. by eapply release_books; try congruence.
Qed.

#[export] Instance frame_books : CommandFrame store books_step.
Proof.
  split; [split; [exact _|..]|]; try (intros; apply (moves_mono same_books); [apply same_books_step|];
                             moves_tac; done).
  - intros k row d _. by apply same_books_step.
  - apply release_reserved_books.
Qed.

End instances.

(** ** The other calls *)

Section others.
Context `{Externals} `{OperatorExternals} (store : option OperatorStoreContext).

Lemma writes_authority q : moves (rtc write) (sqlite_append_authority_event store q).
Proof. unfold sqlite_append_authority_event, ensure_workspace. moves_tac. Qed.
Lemma writes_insert_control c : moves (rtc write) (insert_run_control c).
Proof.
  unfold insert_run_control, control_admissible. moves_tac. res_inv.
  apply rtc_once, write_new_control. by apply present_false.
Qed.
#[local] Hint Resolve writes_insert_control : moves.
Lemma writes_register q : moves (rtc write) (register_governed_run store q).
Proof. unfold register_governed_run, register_new. moves_tac. Qed.

Section ignored.
Context (R : relation Db) `{!IgnoresRun R}.

Lemma ignores_authority q : moves R (sqlite_append_authority_event store q).
Proof. unfold sqlite_append_authority_event, ensure_workspace. moves_tac. Qed.
Lemma ignores_insert_control c : moves R (insert_run_control c).
Proof. unfold insert_run_control. ignore_tac. Qed.
#[local] Hint Resolve ignores_insert_control : moves.
Lemma ignores_register q : moves R (register_governed_run store q).
Proof. unfold register_governed_run, register_new. moves_tac. Qed.

End ignored.

End others.

(** ** Command tables *)

(** Rows of the command tables are never changed or removed. *)
Record command_grows (x y : CommandDb) : Prop := {
  cg_workspace : cd_workspace y = cd_workspace x;
  cg_commands : cd_commands x ⊆ cd_commands y;
  cg_receipts : cd_receipts x ⊆ cd_receipts y;
  cg_decisions : cd_decisions x ⊆ cd_decisions y;
}.

#[export] Instance command_grows_preorder : PreOrder command_grows.
Proof. split; [by split|]. intros x y z [] []. split; [congruence|by etrans..]. Qed.

Section grows.
Context `{Externals} `{OperatorExternals} (store : option OperatorStoreContext).

Lemma grows_tables {A} (c : tx A) : steps command_grows (tables c).
Proof. apply steps_tables; [exact _|]. intros x s a s' _ _. by split. Qed.
#[local] Hint Resolve grows_tables : steps.

Ltac grows_tac := steps_tac; res_inv; split; cbn; try done; apply insert_subseteq; by apply present_false.

Lemma grows_command e sh : steps command_grows (insert_command_envelope e sh).
Proof. unfold insert_command_envelope, command_admissible. grows_tac. Qed.
Lemma grows_receipt r : steps command_grows (insert_command_receipt r).
Proof. unfold insert_command_receipt, receipt_admissible. grows_tac. Qed.
Lemma grows_decision d : steps command_grows (insert_decision d).
Proof. unfold insert_decision, decision_admissible. grows_tac. Qed.
#[local] Hint Resolve grows_command grows_receipt grows_decision : steps.
Lemma grows_bundle id : steps command_grows (load_approval_bundle id).
Proof. unfold load_approval_bundle. steps_tac. Qed.
#[local] Hint Resolve grows_bundle : steps.
Lemma grows_conclude signer w e sh op k f (done_ : tx ()) rf now :
  steps command_grows (conclude store signer w e sh op k f done_ rf now).
Proof. unfold conclude, finish. steps_tac. Qed.
#[local] Hint Resolve grows_conclude : steps.

Lemma grows_new signer q sh w digest : steps command_grows (execute_new store signer q sh w digest).
Proof.
  unfold execute_new, decide_approval, cancel_run, finish, resume_run, resume_with_approval,
    revoke_session. steps_tac.
Qed.
#[local] Hint Resolve grows_new : steps.

Lemma command_grows_step q signer s :
  command_grows (ct_db s) (ct_db (execute_operator_command store q signer s).2).
Proof.
  unfold execute_operator_command, cbind at 1, lift at 1.
  destruct (operator_context store); [|done..]. cbv iota.
  apply command_transaction_wp; [exact _|].
  match goal with |- cwp ?c _ _ => enough (steps command_grows c) as X by apply X end.
  unfold validate_command_scope, load_workspace_transaction, execute_again. steps_tac.
Qed.

Lemma control_step_grows op s : command_grows (ct_db s) (ct_db (control_step store op s)).
Proof. destruct op; [by split..|apply command_grows_step]. Qed.

End grows.

(** ** Sequences of calls *)

Section sequences.
Context `{Externals} `{OperatorExternals}.

Lemma control_run_grows calls s : command_grows (ct_db s) (ct_db (control_run calls s)).
Proof.
  revert s. induction calls as [|[store op] calls IH]; intros s; [done|].
  etrans; [apply (control_step_grows store op)|apply IH].
Qed.

Lemma control_step_writes store op s :
  rtc write (cd_db (ct_db s)) (cd_db (ct_db (control_step store op s))).
Proof.
  destruct op; cbn [control_step on_tables with_db ct_db cd_db].
  - apply (runtime_step_writes store op {| tx_db := _; tx_uuids := _ |}).
  - apply (writes_authority store q {| tx_db := _; tx_uuids := _ |}).
  - apply (writes_register store q {| tx_db := _; tx_uuids := _ |}).
  - apply command_frame, _.
Qed.

Lemma control_step_fence store op s :
  fence_step (cd_db (ct_db s)) (cd_db (ct_db (control_step store op s))).
Proof.
  destruct op; cbn [control_step on_tables with_db ct_db cd_db].
  - apply (runtime_step_fence store op {| tx_db := _; tx_uuids := _ |}).
  - apply same_leases_fence_step, (ignores_authority store _ q {| tx_db := _; tx_uuids := _ |}).
  - apply same_leases_fence_step, (ignores_register store _ q {| tx_db := _; tx_uuids := _ |}).
  - apply same_leases_fence_step, command_frame, _.
Qed.

Lemma control_step_books store op s :
  books_step (cd_db (ct_db s)) (cd_db (ct_db (control_step store op s))).
Proof.
  destruct op; cbn [control_step on_tables with_db ct_db cd_db].
  - apply (runtime_step_books store op {| tx_db := _; tx_uuids := _ |}).
  - apply same_books_step, (ignores_authority store _ q {| tx_db := _; tx_uuids := _ |}).
  - apply same_books_step, (ignores_register store _ q {| tx_db := _; tx_uuids := _ |}).
  - apply command_frame, _.
Qed.

(** A relation that every call keeps. *)
Lemma control_run_rel (R : relation Db) `{!PreOrder R} :
  (∀ store op s, R (cd_db (ct_db s)) (cd_db (ct_db (control_step store op s)))) →
  ∀ calls s, R (cd_db (ct_db s)) (cd_db (ct_db (control_run calls s))).
Proof.
  intros X calls. induction calls as [|[store op] calls IH]; intros s; [done|].
  etrans; [apply (X store op)|apply IH].
Qed.

Lemma writes_inv (P : Db → Prop) d d' :
  (∀ a b, write a b → P a → P b) → rtc write d d' → P d → P d'.
Proof. intros X W. induction W; eauto. Qed.

(** The tables that the calls start from. *)
Record control_inv (d : Db) : Prop := {
  ci_audit : audit_inv d;
  ci_fence : fence_inv d;
  ci_books : books_inv d;
  ci_limits : within_limits (limits_of d) (ledger_of d);
}.

(** C8: the control store as a whole.  Whatever runtimes, sessions and operators call, in
    whatever order, with whatever clocks, identifiers and signers, and whether the calls
    succeed or fail: the audit events stay one valid chain, a run has at most one active
    lease and it is the newest one, every account is the sum of its reservations and
    within its limits, nothing that is append-only is rewritten, the enrolled workspace
    does not change, and no command, receipt or decision is changed or removed. *)
Theorem control_invariants (calls : list (option OperatorStoreContext * control_op))
    (s : CommandTx) (I : control_inv (cd_db (ct_db s))) :
  let s' := control_run calls s in
  control_inv (cd_db (ct_db s'))
  ∧ append_only (cd_db (ct_db s)) (cd_db (ct_db s'))
  ∧ rtc (ledger_step (limits_of (cd_db (ct_db s)))) (ledger_of (cd_db (ct_db s)))
      (ledger_of (cd_db (ct_db s')))
  ∧ command_grows (ct_db s) (ct_db s').
Proof.
  intros s'. destruct I as [A F B L].
  pose proof (control_run_rel (rtc write) control_step_writes calls s) as W.
  destruct (control_run_rel fence_step control_step_fence calls s F) as [F' _].
  destruct (control_run_rel books_step control_step_books calls s B) as (B' & E & Lg).
  fold s' in W, F', B', E, Lg. split_and!; [split| | |].
  - by eapply writes_inv; [apply write_audit_inv|..].
  - done.
  - done.
  - rewrite E. clear -Lg L. induction Lg; [done|]. eauto using ledger_step_within.
  - eapply writes_inv; [|exact W|reflexivity]. intros a b Wab X. etrans; [exact X|].
    by apply write_append_only.
  - done.
  - apply control_run_grows.
Qed.

End sequences.
