(* ===== verification/CommandProofs.v ===== *)
(** * What becomes of a command

    [command_exactly_once]: a command is applied once, and whoever sends it again gets
    the receipt of that one time.  [command_authorized]: a command that is applied was
    sent by the enrolled human in a session that had not expired and held the
    capabilities of the command, and is proved by the agent of the workspace and recorded
    in the audit chain.  [approval_decision_refused]: no approval decision is ever
    applied, because the event that records it is refused by the audit chain. *)

From S2P Require Import Prelude RustStr Externals Json Canonical Serialized Evidence Approval.
From S2P Require Import OperatorCommon StrictDigest Agent AgentRun ExecutionStore Durable AuditChain.
From S2P Require Import OperatorAuth Custody RuntimeStore ReplayStore RuntimeOps RuntimeCommitOp.
From S2P Require Import OperatorCommand CommandStore RuntimeProofs OperatorAuthAudit RuntimeWp.
From S2P Require Import RuntimeResults ControlStore.
From stdpp Require Import options.

#[local] Set Default Proof Using "All".

Notation command_binding e := (OperatorCommand.binding (cev_command e)).
Notation command_id e := (cmd_command_id (command_binding e)).

(** ** The command tables during a command *)

Definition same_commands (x y : CommandDb) : Prop :=
  cd_commands y = cd_commands x ∧ cd_receipts y = cd_receipts x.

#[export] Instance same_commands_preorder : PreOrder same_commands.
Proof. split; [done|]. intros x y z [] []. split; congruence. Qed.

(** No command has the identifier or the key of [e]. *)
Definition fresh_command (e : CommandEnvelope) (x : CommandDb) : Prop :=
  cd_commands x !! command_id e = None
  ∧ ∀ k e', cd_commands x !! k = Some e' → same_key (command_binding e') (command_binding e) = false.

(** [e] has been written since [x]. *)
Definition entered (e : CommandEnvelope) (x y : CommandDb) : Prop :=
  fresh_command e x ∧ cd_commands y = <[command_id e := e]> (cd_commands x)
  ∧ cd_receipts y = cd_receipts x.

(** A fact about the command tables. *)
Class Stable (P : CommandDb → Prop) : Prop :=
  stable y z : same_commands y z → P y → P z.

#[export] Instance same_commands_stable x : Stable (same_commands x).
Proof. intros y z S X. by etrans. Qed.
#[export] Instance entered_stable e x : Stable (entered e x).
Proof. intros y z [S1 S2] (F & C & R). split_and!; [done|congruence..]. Qed.

Lemma cwp_skip {A B} (c : ctx A) (k : A → ctx B) Q (P : CommandDb → Prop) `{!Stable P} y :
  P y → steps same_commands c → (∀ a z, P z → cwp (k a) Q z) → cwp (cbind c k) Q y.
Proof.
  intros Py S X. apply cwp_bind. eapply cwp_mono; [apply S|]. intros a z Z. apply X.
  exact (stable _ _ Z Py).
Qed.

Section same.
Context `{Externals} `{OperatorExternals}.

Lemma same_tables {A} (c : tx A) : steps same_commands (tables c).
Proof. apply steps_tables; [exact _|]. intros x s a s' _ _. by split. Qed.
#[local] Hint Resolve same_tables : steps.
Lemma same_decision d : steps same_commands (insert_decision d).
Proof. unfold insert_decision. steps_tac. by split. Qed.
Lemma same_bundle id : steps same_commands (load_approval_bundle id).
Proof. unfold load_approval_bundle. steps_tac. Qed.
#[local] Hint Resolve same_decision same_bundle : steps.
Lemma same_resume_approval c run st id now :
  steps same_commands (resume_with_approval c run st id now).
Proof. unfold resume_with_approval. steps_tac. Qed.

End same.

#[export] Hint Resolve same_tables same_decision same_bundle same_resume_approval : steps.

(** ** Receipts *)

Section receipts.
Context `{Externals} `{OperatorExternals}.

(** What a receipt says of the command [e]. *)
Record receipt_for (e : CommandEnvelope) (r : CommandReceipt) : Prop := {
  fr_valid : CommandReceipt_validate r = Ok ();
  fr_command : rcp_command_id r = command_id e;
  fr_key : rcp_idempotency_key r = cmd_idempotency_key (command_binding e);
  fr_workspace : rcp_workspace_id r = cmd_workspace_id (command_binding e);
  fr_human : rcp_human_id r = cmd_human_id (command_binding e);
  fr_kind : rcp_kind r = command_kind (cev_command e);
  fr_digest : rcp_request_digest r = cev_request_digest e;
}.

(** The receipt [r] has been written since [x]. *)
Record receipted (r : CommandReceipt) (x y : CommandDb) : Prop := {
  rd_table : cd_receipts y = <[rcp_receipt_id r := r]> (cd_receipts x);
  rd_fresh : cd_receipts x !! rcp_receipt_id r = None;
  rd_other : ∀ k r', cd_receipts x !! k = Some r' → rcp_command_id r' ≠ rcp_command_id r;
}.

Lemma cwp_insert_command e sh (Q : () → CommandDb → Prop) x y :
  same_commands x y → (∀ z, entered e x z → cd_db z = cd_db y → Q tt z) →
  cwp (insert_command_envelope e sh) Q y.
Proof.
  intros [S1 S2] X. unfold insert_command_envelope. repeat cwp_step. apply X; [|done].
  unfold command_admissible in *. res_inv.
  match goal with N : no_other _ _ _ = true, P : present _ _ = false |- _ =>
    apply present_false in P; rewrite no_other_spec in N; rename N into U; rename P into F end.
  split; [|by cbn; rewrite S1]. split; [by rewrite <- S1|]. rewrite <- S1. intros k e' L.
  destruct (decide (k = command_id e)) as [->|Hk]; [congruence|].
  specialize (U _ _ L Hk). by apply orb_false_iff in U as [? _].
Qed.

Lemma cwp_insert_receipt r (Q : () → CommandDb → Prop) y :
  (CommandReceipt_validate r = Ok () → ∀ z, receipted r y z → cd_commands z = cd_commands y →
   cd_db z = cd_db y → Q tt z) →
  cwp (insert_command_receipt r) Q y.
Proof.
  intros X. unfold insert_command_receipt. repeat cwp_step. unfold corrupt in *. res_inv.
  apply X; try done. unfold receipt_admissible in *. res_inv.
  match goal with N : no_other _ _ _ = true, P : present _ _ = false |- _ =>
    apply present_false in P; rewrite no_other_spec in N; rename N into U; rename P into F end.
  split; [done..|]. intros k r' L. destruct (decide (k = rcp_receipt_id r)) as [->|Hk]; [congruence|].
  specialize (U _ _ L Hk). apply orb_false_iff in U as [U _].
  by apply bool_decide_eq_false in U.
Qed.

(** The end of a command. *)
Record executed (e : CommandEnvelope) (x : CommandDb) (r : CommandReceipt) (y : CommandDb)
    : Prop := {
  ex_fresh : fresh_command e x;
  ex_commands : cd_commands y = <[command_id e := e]> (cd_commands x);
  ex_receipt : receipted r x y;
  ex_for : receipt_for e r;
}.

Definition outcome_of (o : CommandOutcome.t) : CommandResultOutcome.t :=
  match o with
  | CommandOutcome.AlreadyTerminal => CommandResultOutcome.AlreadyTerminal
  | CommandOutcome.Applied => CommandResultOutcome.Applied
  end.

Lemma cwp_finish store e o f p ev now (Q : _ → CommandDb → Prop) x y :
  entered e x y →
  (∀ r z, executed e x r z → cd_db z = cd_db y → rcp_outcome r = o → rcp_proof r = p →
     rcp_audit_event_id r = ae_event_id ev → rcp_audit_sequence r = ae_sequence ev →
     rcp_audit_digest r = ae_event_digest ev → rcp_target_run_id r = rf_target_run_id f →
     Q (Ok (command_result (outcome_of o) r)) z) →
  cwp (finish store e o f p ev now) Q y.
Proof.
  intros (F & C & R) X. unfold finish. apply cwp_bind, cwp_tables, wp_uuid. intros id.
  apply cwp_bind, cwp_lift. intros r E. unfold finalize_receipt in E. res_inv.
  apply cwp_bind, cwp_insert_receipt. intros V z Z Cz Dz. apply cwp_ret, X; try done.
  destruct Z as [T N O]. cbn in *. rewrite R in *.
  split; [done|by rewrite Cz, C|by split|by split].
Qed.

End receipts.

(** ** Proofs and events *)

Section applied.
Context `{Externals} `{OperatorExternals}.

(** The agent of the workspace has signed that the command was executed. *)
Record proved (w : OperatorWorkspace) (e : CommandEnvelope) (now : DateTime)
    (p : ProofReference) (d : Db) : Prop := {
  pv_proof : ∃ row agent canonical,
    db_proofs d !! pf_proof_id p = Some row
    ∧ db_principals d !! pn_principal_id (ow_agent w) = Some agent
    ∧ pr_kind agent = Agent
    ∧ Proof_verify (row_proof row) (pr_public_key agent) = Ok ()
    ∧ pb_actor (body (row_proof row)) = pn_principal_id (ow_agent w)
    ∧ pb_operation (body (row_proof row)) = proof_operation_text (command_kind (cev_command e))
    ∧ canonical_text (envelope_value e) = Some canonical
    ∧ pb_input_digest (body (row_proof row)) = digest OperationInput canonical
    ∧ pb_timestamp (body (row_proof row)) = now;
}.

(** Proofs and principals stay. *)
Definition keeps_proofs (d d' : Db) : Prop :=
  db_principals d' = db_principals d ∧ db_proofs d ⊆ db_proofs d'.

#[export] Instance keeps_proofs_preorder : PreOrder keeps_proofs.
Proof. split; [by split|]. intros a b c [] []. split; [congruence|by etrans]. Qed.
#[export] Instance keeps_proofs_audit : IgnoresAudit keeps_proofs.
Proof. by split; [exact _|..]. Qed.

Lemma proved_kept w e now p d d' : keeps_proofs d d' → proved w e now p d → proved w e now p d'.
Proof.
  intros [P S] [(row & agent & c & L & La & rest)]. split. exists row, agent, c.
  split; [by eapply lookup_weaken|]. by rewrite P.
Qed.

Lemma wp_principal id (Q : Principal → Db → Prop) d :
  (∀ p, db_principals d !! id = Some p →
     Q {| pr_id := pr_id p; pr_kind := pr_kind p; pr_public_key := pr_public_key p;
          pr_created_at := 0 |} d) →
  wp (load_principal_record id) Q d.
Proof. intros X. unfold load_principal_record, uuid_column. wp_tac. res_inv. by apply X. Qed.

Lemma wp_persist_proof proof w op id i o now (Q : ProofReference → Db → Prop) d :
  (∀ p agent,
     db_principals d !! pn_principal_id (ow_agent w) = Some agent → pr_kind agent = Agent →
     Proof_verify proof (pr_public_key agent) = Ok () →
     pb_actor (body proof) = pn_principal_id (ow_agent w) → pb_operation (body proof) = op →
     pb_input_digest (body proof) = i → pb_timestamp (body proof) = now →
     db_proofs d !! pf_proof_id p = None →
     Q p (with_proofs (<[pf_proof_id p := {| row_version := "v1"; row_proof := proof |}]>
                         (db_proofs d)) d)) →
  wp (persist_command_proof proof w op id i o now) Q d.
Proof.
  intros X. unfold persist_command_proof. apply wp_bind, wp_principal. intros agent La. wp_tac.
  res_inv. cbn [pr_kind pr_public_key] in *. eapply X; try done.
  - by apply Proof_verify_Ok.
  - cbn. by apply present_false.
Qed.

Lemma wp_sign store signer w e o now (Q : ProofReference → Db → Prop) d :
  (∀ p d', proved w e now p d' → keeps_proofs d d' → Q p d') →
  wp (sign_command_transition store signer w e o now) Q d.
Proof.
  intros X. unfold sign_command_transition, command_content_digest. wp_tac.
  unfold corrupt in *. res_inv. apply wp_persist_proof. intros p agent La Ka V Ac Op In Ts N.
  apply X; [|split; [done|by apply insert_subseteq]]. split. do 3 eexists.
  split_and!; [apply lookup_insert_eq|done..].
Qed.

(** The event that [append_audit_event] has stored. *)
Lemma wp_record e (Q : AuditEvent → Db → Prop) d :
  (∀ n previous digest,
     let ev := link_event n previous digest e in
     validate_chain_link ev n previous = Ok () → Q ev (append_event ev d)) →
  wp (record_event e) Q d.
Proof.
  intros X. unfold record_event, append_audit_event. wp_tac. unfold invalid in *. res_inv.
  cbn [db_events with_heads with_events] in *. rewrite last_snoc in *.
  match goal with L : Some _ = Some _ |- _ => injection L as <- end.
  match goal with V : validate_chain_link _ _ _ = Ok _ |- _ => by apply (X _ _ _ V) end.
Qed.

(** An applied command has a proof, and an event that names both. *)
Record applied (w : OperatorWorkspace) (e : CommandEnvelope) (sh : CommandShape)
    (k : AuditEventKind.t) (f : EventFields) (now : DateTime) (r : CommandReceipt) (d : Db)
    : Prop := {
  ap_outcome : rcp_outcome r = CommandOutcome.Applied;
  ap_proved : ∃ p ev id n previous digest,
    rcp_proof r = Some p ∧ proved w e now p d ∧ last (db_events d) = Some ev
    ∧ ev = link_event n previous digest
             (populate_command_event
                (event_base (cmd_workspace_id (command_binding e)) id k AuditOutcome.Accepted
                   now f) e sh true (Some p))
    ∧ validate_chain_link ev n previous = Ok ()
    ∧ rcp_audit_event_id r = ae_event_id ev ∧ rcp_audit_sequence r = ae_sequence ev
    ∧ rcp_audit_digest r = ae_event_digest ev;
}.

Lemma cwp_conclude store signer w e sh op k f (completion : tx ()) rf now
    (Q : _ → CommandDb → Prop) x y :
  entered e x y → moves keeps_proofs completion →
  (∀ r z, executed e x r z → applied w e sh k f now r (cd_db z) →
     rcp_target_run_id r = rf_target_run_id rf →
     Q (Ok (command_result CommandResultOutcome.Applied r)) z) →
  cwp (conclude store signer w e sh op k f completion rf now) Q y.
Proof.
  intros Y M X. unfold conclude. apply cwp_bind, cwp_tables, wp_sign. intros p d1 P _.
  apply cwp_bind, cwp_tables, (wp_moves keeps_proofs); [done|]. intros [] d2 K.
  apply cwp_bind, cwp_tables. unfold append_command_event. apply wp_bind, wp_uuid. intros id.
  apply wp_record. intros n previous digest ev V.
  eapply cwp_finish; [by eapply entered_stable, Y|]. cbn [outcome_of cd_db with_db].
  intros r z Ez Dz Ro Rp Rid Rs Rd Rt. apply X; [done| |done]. rewrite Dz. split; [done|].
  exists p, ev, id, n, previous, digest. split_and!; try done.
  - apply (proved_kept _ _ _ _ d2); [by split|]. by eapply proved_kept.
  - unfold append_event. cbn. by rewrite last_snoc.
Qed.

(** ** New commands *)

Definition applied_event (k : CommandKind.t) : AuditEventKind.t :=
  match k with
  | CommandKind.ApprovalDecide => AuditEventKind.ApprovalDecided
  | CommandKind.RunCancel => AuditEventKind.RunCancelled
  | CommandKind.RunResume => AuditEventKind.RunResumed
  | CommandKind.SessionRevoke => AuditEventKind.SessionRevoked
  end.

(** A command ends with a receipt, and one that was applied with its proof and event. *)
Definition new_post (w : OperatorWorkspace) (e : CommandEnvelope) (now : DateTime)
    (x : CommandDb) (res : result StoreError.t CommandResult) (y : CommandDb) : Prop :=
  match res with
  | Ok cr =>
      executed e x (crs_receipt cr) y
      ∧ crs_outcome cr = outcome_of (rcp_outcome (crs_receipt cr))
      ∧ (rcp_outcome (crs_receipt cr) = CommandOutcome.Applied →
         ∃ sh f, sh_kind sh = command_kind (cev_command e)
           ∧ applied w e sh (applied_event (command_kind (cev_command e))) f now (crs_receipt cr)
               (cd_db y))
  | Err _ => same_commands x y
  | Panic => False
  end.

Lemma new_post_applied w e sh k f now x r y :
  sh_kind sh = command_kind (cev_command e) → k = applied_event (command_kind (cev_command e)) →
  executed e x r y → applied w e sh k f now r (cd_db y) →
  new_post w e now x (Ok (command_result CommandResultOutcome.Applied r)) y.
Proof.
  intros K -> E A. split; [done|]. cbn. rewrite (ap_outcome _ _ _ _ _ _ _ _ A). split; [done|].
  intros _. by exists sh, f.
Qed.

Ltac skip_tac :=
  repeat (cbv beta zeta; first
    [ lazymatch goal with
      | |- cwp (if ?b then throw _ else _) _ _ => destruct b eqn:?; [apply cwp_throw|]
      | |- cwp (if ?b then _ else _) _ _ => destruct b eqn:?
      | |- cwp (match ?x with _ => _ end) _ _ => destruct x eqn:?
      | |- cwp (cbind (lift _) _) _ _ => apply cwp_bind, cwp_lift; intros ? ?
      | |- cwp (cbind (throw _) _) _ _ => apply cwp_bind, cwp_throw
      end
    | lazymatch goal with |- cwp (cbind _ _) _ _ => idtac end;
      eapply cwp_skip; [ |eassumption|solve [steps_tac]|]; [exact _|];
      match goal with S : same_commands _ _ |- _ => clear S | S : entered _ _ _ |- _ => clear S end;
      intros ? ? ? ]).

Ltac enter_tac :=
  apply cwp_bind; eapply cwp_insert_command; [eassumption|];
  match goal with S : same_commands _ _ |- _ => clear S end; intros ? ? _.

Lemma decide_post store signer w e c now x :
  cev_command e = OperatorCommand.ApprovalDecision c →
  cwp (decide_approval store signer w e (command_shape (cev_command e)) c now)
    (new_post w e now x) x.
Proof.
  intros Ec. assert (same_commands x x) as S by done. unfold decide_approval. skip_tac.
  - by apply cwp_ret.
  - enter_tac. skip_tac. eapply cwp_conclude; [eassumption|moves_tac|]. intros r0 y0 Ey A _.
    eapply new_post_applied; [| |done|exact A]; by rewrite Ec.
Qed.

Lemma cancel_post store signer w e c now x :
  cev_command e = OperatorCommand.RunCancel c →
  cwp (cancel_run store signer w e (command_shape (cev_command e)) c now) (new_post w e now x) x.
Proof.
  intros Ec. assert (same_commands x x) as S by done. unfold cancel_run. skip_tac. enter_tac.
  skip_tac.
  - eapply cwp_finish; [eassumption|]. intros r y Ey Dy Ro _ _ _ _ _. split; [done|].
    cbn [crs_receipt command_result crs_outcome]. rewrite Ro. by split.
  - eapply cwp_conclude; [eassumption|moves_tac|]. intros r y Ey A _.
    eapply new_post_applied; [| |done|exact A]; by rewrite Ec.
Qed.

Lemma resume_post store signer w e c now x :
  cev_command e = OperatorCommand.RunResume c →
  cwp (resume_run store signer w e (command_shape (cev_command e)) c now) (new_post w e now x) x.
Proof.
  intros Ec. assert (same_commands x x) as S by done. unfold resume_run. skip_tac; enter_tac;
    skip_tac; (eapply cwp_conclude; [eassumption| |]).
  all: try (unfold recovery_completed; moves_tac).
  all: intros r y Ey A _; eapply new_post_applied; [| |done|exact A]; by rewrite Ec.
Qed.

Lemma revoke_post store signer w e c now x :
  cev_command e = OperatorCommand.SessionRevoke c →
  cwp (revoke_session store signer w e (command_shape (cev_command e)) now) (new_post w e now x) x.
Proof.
  intros Ec. assert (same_commands x x) as S by done. unfold revoke_session. enter_tac.
  eapply cwp_conclude; [eassumption|moves_tac|]. intros r y Ey A _.
  eapply new_post_applied; [| |done|exact A]; by rewrite Ec.
Qed.

Lemma execute_new_post store signer q w digest x :
  cwp (execute_new store signer q (command_shape (cer_command q)) w digest)
    (λ res y, ∃ now, operator_now store = Ok now
       ∧ (now < sa_absolute_expires_at (oms_session_authority (cer_scope q)))%Z
       ∧ new_post w (envelope_of (cer_command q) digest now) now x res y) x.
Proof.
  unfold execute_new. apply cwp_bind, cwp_lift. intros now En.
  destruct (_ <=? now)%Z eqn:Ex; [apply cwp_throw|]. apply Z.leb_gt in Ex. cbv zeta.
  eapply cwp_mono with (P := new_post w (envelope_of (cer_command q) digest now) now x).
  - destruct (cer_command q) as [c|c|c|c].
    + by apply decide_post.
    + by apply cancel_post.
    + by apply resume_post.
    + by eapply revoke_post.
  - intros res y N. by exists now.
Qed.

(** ** The command tables *)

(** What is checked before a command is written. *)
Record checked_command (e : CommandEnvelope) : Prop := {
  cc_schema : cev_schema e = COMMAND_ENVELOPE_SCHEMA;
  cc_digest : command_digest_of (cev_command e) = Some (cev_request_digest e);
  cc_valid : validate_operator_command (cev_command e) = Ok ();
}.

(** Commands are filed under their identifiers and no two have one key; every command has
    exactly one receipt. *)
Record commands_inv (x : CommandDb) : Prop := {
  cq_keys : ∀ k e, cd_commands x !! k = Some e → command_id e = k;
  cq_unique : ∀ k1 e1 k2 e2, cd_commands x !! k1 = Some e1 → cd_commands x !! k2 = Some e2 →
    same_key (command_binding e1) (command_binding e2) = true → k1 = k2;
  cq_checked : ∀ k e, cd_commands x !! k = Some e → checked_command e;
  cq_receipts : ∀ k e, cd_commands x !! k = Some e →
    ∃ r, cd_receipts x !! rcp_receipt_id r = Some r ∧ receipt_for e r;
  cq_single : ∀ i r j q, cd_receipts x !! i = Some r → cd_receipts x !! j = Some q →
    rcp_command_id r = rcp_command_id q → i = j;
}.

Lemma same_key_sym a b : same_key a b = same_key b a.
Proof. unfold same_key. repeat f_equal; apply bool_decide_ext; naive_solver. Qed.

Lemma same_commands_inv x y : same_commands x y → commands_inv x → commands_inv y.
Proof. intros [C R] []. split; rewrite ?C, ?R; done. Qed.

Lemma executed_inv e x r y :
  executed e x r y → checked_command e → commands_inv x → commands_inv y.
Proof.
  intros [[F U] C [T N O] Rf] Ch [K Q V P S]. split; rewrite ?C, ?T.
  - intros k e' [[<- <-]|[_ L]]%lookup_insert_Some; [done|by apply K].
  - intros k1 e1 k2 e2 [[<- <-]|[_ L1]]%lookup_insert_Some [[<- <-]|[_ L2]]%lookup_insert_Some X;
      [done| | |by eapply Q].
    + rewrite same_key_sym, (U _ _ L2) in X. done.
    + by rewrite (U _ _ L1) in X.
  - intros k e' [[<- <-]|[_ L]]%lookup_insert_Some; [done|by eapply V].
  - intros k e' [[<- <-]|[_ L]]%lookup_insert_Some.
    + exists r. by rewrite lookup_insert_eq.
    + destruct (P _ _ L) as (r' & L' & Fr). exists r'. split; [|done].
      rewrite lookup_insert_ne; [done|]. intros E. congruence.
  - intros i r1 j r2 [[<- <-]|[_ L1]]%lookup_insert_Some [[<- <-]|[_ L2]]%lookup_insert_Some X;
      [done| | |by eapply S].
    + by destruct (O _ _ L2).
    + by destruct (O _ _ L1).
Qed.

(** ** The scope of a command *)

(** Code that reads the workspace only. *)
Definition asks {A} (c : ctx A) : Prop := ∀ s s',
  cd_workspace (ct_db s') = cd_workspace (ct_db s) → (c s').1 = (c s).1 ∧ (c s).2 = s.

Lemma asks_lift {A} (r : result StoreError.t A) : asks (lift r).
Proof. by intros s s' _. Qed.
Lemma asks_ret {A} (a : A) : asks (ret a).
Proof. by intros s s' _. Qed.
Lemma asks_stop {A} (b : bool) e (c : ctx A) : asks c → asks (if b then throw e else c).
Proof. intros X. by destruct b. Qed.
Lemma asks_workspace : asks (select (λ x, ok_or (cd_workspace x) StoreError.Unavailable)).
Proof. intros s s' W. cbn. by rewrite W. Qed.
Lemma asks_cbind {A B} (c : ctx A) (k : A → ctx B) :
  asks c → (∀ a, asks (k a)) → asks (cbind c k).
Proof.
  intros X Y s s' W. destruct (X s s' W) as [E1 E2]. destruct (X s' s' eq_refl) as [_ E3].
  unfold cbind. destruct (c s) as [r t], (c s') as [r' t']. cbn in *. subst t t' r'.
  destruct r as [a|e|]; [by apply Y|done..].
Qed.

Lemma asks_scope q : asks (validate_command_scope q).
Proof.
  unfold validate_command_scope, load_workspace_transaction. cbv zeta.
  repeat first [apply asks_lift|apply asks_ret|apply asks_workspace|apply asks_stop
               |apply asks_cbind; [|intros ?]].
Qed.

(** What the scope of a command guarantees. *)
Record in_scope (q : CommandExecutionRequest) (w : OperatorWorkspace) (x : CommandDb) : Prop := {
  sc_workspace : cd_workspace x = Some w;
  sc_enrolled : OperatorWorkspace_validate w = Ok ();
  sc_command : validate_command (cer_command q) StoreError.Invalid = Ok ();
  sc_session : SessionAuthorityBinding_validate (oms_session_authority (cer_scope q)) = Ok ();
  sc_bound :
    let b := OperatorCommand.binding (cer_command q) in
    let a := oms_session_authority (cer_scope q) in
    cmd_workspace_id b = ow_workspace_id w ∧ cmd_human_id b = pn_principal_id (ow_human w)
    ∧ sa_workspace_id a = cmd_workspace_id b ∧ sa_human_id a = cmd_human_id b
    ∧ sa_session_id a = cmd_session_id b
    ∧ control_digest_value "Proof-Operator-Session-Authority-v1" (authority_value a)
      = Some (cmd_session_authority_digest b);
  sc_capable : ∀ c, c ∈ expected_command_capabilities (command_kind (cer_command q)) →
    CapabilitySet_contains (sa_granted_capabilities (oms_session_authority (cer_scope q))) c = true
    ∧ CapabilitySet_contains (ow_capabilities w) c = true;
}.

Lemma shape_kind c : sh_kind (command_shape c) = command_kind c.
Proof. by destruct c. Qed.

Lemma lacks_false expected set c :
  lacks expected set = false → c ∈ expected → CapabilitySet_contains set c = true.
Proof.
  unfold lacks. intros L I.
  destruct (CapabilitySet_contains set c) eqn:E; [done|]. exfalso.
  assert (existsb (λ c, negb (CapabilitySet_contains set c)) expected = true) as X.
  { apply existsb_exists. exists c. rewrite E. split; [by apply list_elem_of_In|done]. }
  congruence.
Qed.

Lemma cwp_scope q (Q : CommandShape * OperatorWorkspace → CommandDb → Prop) x :
  (∀ w, in_scope q w x → Q (command_shape (cer_command q), w) x) →
  cwp (validate_command_scope q) Q x.
Proof.
  intros X. unfold validate_command_scope, load_workspace_transaction. cbv zeta.
  repeat cwp_step. unfold corrupt, invalid in *. res_inv. apply X. split; try done.
  intros c Hc. rewrite <- shape_kind in Hc. split; by eapply lacks_false.
Qed.

Lemma validate_again c e e' : validate_command c e = Ok () → validate_command c e' = Ok ().
Proof.
  destruct c; cbn [validate_command]; unfold map_err; repeat case_match; naive_solver.
Qed.

Lemma envelope_checked q w x digest now :
  in_scope q w x → command_digest_of (cer_command q) = Some digest →
  checked_command (envelope_of (cer_command q) digest now).
Proof. intros S D. split; [done..|]. by eapply validate_again, sc_command. Qed.

(** ** Executing *)

Definition execute_body (store : option OperatorStoreContext) (q : CommandExecutionRequest)
    (signer : OperatorSigner) : ctx (result StoreError.t CommandResult) :=
  let! scope := validate_command_scope q in
  let '(shape, workspace) := scope in
  let! request_digest := lift (command_request_digest (cer_command q)) in
  let! existing := select (λ x, Ok (stored_command
                             (OperatorCommand.binding (cer_command q)) x)) in
  match existing with
  | Some (envelope, receipt_id, receipt) =>
      execute_again store q shape request_digest envelope receipt_id receipt
  | None => execute_new store signer q shape workspace request_digest
  end.

(** A command that was stored before, or a new one. *)
Inductive execution (store : option OperatorStoreContext) (q : CommandExecutionRequest)
    (x : CommandDb) (y : CommandDb) : result StoreError.t CommandResult → Prop :=
| executed_again e r :
    stored_command (OperatorCommand.binding (cer_command q)) x = Some (e, rcp_receipt_id r, r) →
    cev_command e = cer_command q → y = x →
    execution store q x y (Ok (command_result CommandResultOutcome.ExactReplay r))
| execution_refused error :
    same_commands x y → execution store q x y (Err error)
| executed_new w digest now res :
    in_scope q w x → command_digest_of (cer_command q) = Some digest →
    operator_now store = Ok now →
    (now < sa_absolute_expires_at (oms_session_authority (cer_scope q)))%Z →
    new_post w (envelope_of (cer_command q) digest now) now x (Ok res) y →
    execution store q x y (Ok res).

Lemma stored_receipt_id binding x e i r :
  commands_inv x → stored_command binding x = Some (e, i, r) →
  cd_commands x !! command_id e = Some e ∧ same_key (command_binding e) binding = true
  ∧ cd_receipts x !! i = Some r ∧ i = rcp_receipt_id r ∧ rcp_command_id r = command_id e.
Proof.
  intros I S. unfold stored_command in S. apply head_Some_elem_of in S.
  apply list_elem_of_bind in S as (e' & S & E'). apply list_elem_of_filter in E' as [K E'].
  apply list_elem_of_bind in S as ([i' r'] & S & R'). apply list_elem_of_filter in R' as [C R'].
  cbn in *. apply list_elem_of_singleton in S. injection S as -> -> ->.
  apply elem_of_map_to_list in R'. unfold rows in E'. apply list_elem_of_fmap in E' as ([k e0] & -> & L).
  apply elem_of_map_to_list in L. cbn in *.
  pose proof (cq_keys _ I _ _ L) as Hk. destruct (cq_receipts _ I _ _ L) as (r1 & L1 & F1).
  assert (i' = rcp_receipt_id r1) as -> by (eapply (cq_single _ I); eauto; rewrite C; symmetry; apply F1).
  rewrite R' in L1. injection L1 as <-. split_and!; [by rewrite Hk|done..].
Qed.

Lemma head_only {A} (l : list A) a : a ∈ l → (∀ b, b ∈ l → b = a) → head l = Some a.
Proof. intros I U. destruct l as [|b l]; [by apply not_elem_of_nil in I|]. cbn. f_equal. apply U. left. Qed.

Lemma stored_command_found binding x e r :
  commands_inv x → cd_commands x !! command_id e = Some e →
  same_key (command_binding e) binding = true → cd_receipts x !! rcp_receipt_id r = Some r →
  rcp_command_id r = command_id e → stored_command binding x = Some (e, rcp_receipt_id r, r).
Proof.
  intros I L K Lr C. unfold stored_command. apply head_only.
  - apply list_elem_of_bind. exists e. split.
    + apply list_elem_of_bind. exists (rcp_receipt_id r, r). split; [by left|].
      apply list_elem_of_filter. split; [done|]. by apply elem_of_map_to_list.
    + apply list_elem_of_filter. split; [done|]. apply list_elem_of_fmap.
      exists (command_id e, e). split; [done|]. by apply elem_of_map_to_list.
  - intros [[e' i'] r'] S.
    apply list_elem_of_bind in S as (e1 & S & E'). apply list_elem_of_filter in E' as [K' E'].
    apply list_elem_of_bind in S as ([i1 r1] & S & R'). apply list_elem_of_filter in R' as [C' R'].
    cbn in *. apply list_elem_of_singleton in S. injection S as -> -> ->.
    apply elem_of_map_to_list in R'. apply list_elem_of_fmap in E' as ([k e0] & -> & L').
    apply elem_of_map_to_list in L'. cbn in *.
    assert (k = command_id e) as ->.
    { eapply (cq_unique _ I); [exact L'|exact L|]. clear -K K'. unfold same_key in *. res_inv.
      rewrite !bool_decide_true by congruence. done. }
    rewrite L in L'. injection L' as <-.
    assert (i1 = rcp_receipt_id r) as -> by (eapply (cq_single _ I); eauto; congruence).
    rewrite Lr in R'. by injection R' as <-.
Qed.

Lemma execute_body_post store q signer x :
  commands_inv x → cwp (execute_body store q signer) (λ res y, execution store q x y res) x.
Proof.
  intros I. unfold execute_body. apply cwp_bind, cwp_scope. intros w Sc.
  apply cwp_bind, cwp_lift. intros digest D. apply ok_or_Ok in D.
  apply cwp_bind, cwp_select. intros existing [= <-].
  destruct (stored_command _ x) as [[[e i] r]|] eqn:St.
  - destruct (stored_receipt_id _ _ _ _ _ I St) as (Le & K & Lr & -> & C). unfold execute_again.
    case_match eqn:Ed.
    + case_match eqn:G; [apply cwp_throw|]. res_inv. apply cwp_bind, cwp_lift. intros i Hi.
      apply cwp_bind, cwp_lift. intros [] V. apply cwp_ret. by eapply executed_again.
    + apply cwp_bind, cwp_lift. intros now _. apply cwp_bind.
      eapply cwp_mono; [apply (same_tables (append_command_event _ _ _ _ _ _ _ _ _) x)|].
      intros ev y S. by apply cwp_ret, execution_refused.
  - eapply cwp_mono; [apply execute_new_post|]. intros res y (now & En & Ex & P).
    destruct res as [res|error|].
    + by eapply executed_new.
    + by apply execution_refused.
    + done.
Qed.

Lemma execute_spec store q signer s :
  execute_operator_command store q signer s
  = (let! _ := lift (operator_context store) in
     command_transaction (execute_body store q signer)) s.
Proof. done. Qed.

Lemma command_Ok store q signer s res s' :
  commands_inv (ct_db s) → execute_operator_command store q signer s = (Ok res, s') →
  execution store q (ct_db s) (ct_db s') (Ok res).
Proof.
  intros I E. rewrite execute_spec in E. unfold cbind, lift in E.
  destruct (operator_context store) as [context| |]; [|done..]. unfold command_transaction in E.
  destruct (execute_body store q signer s) as [[r|e|] s1] eqn:B; [|done..]. injection E as -> ->.
  by apply (execute_body_post store q signer _ I s (Ok res) s').
Qed.

Lemma execution_inv store q x y res :
  commands_inv x → execution store q x y res → commands_inv y.
Proof.
  intros I X. destruct X as [e r St Ec ->|error S|w digest now res Sc D En Ex P]; [done| |].
  - by eapply same_commands_inv.
  - destruct P as (E & _). eapply executed_inv; [exact E| |done]. by eapply envelope_checked.
Qed.

Definition keeps_commands (x y : CommandDb) : Prop := commands_inv x → commands_inv y.
#[local] Instance keeps_commands_reflexive : Reflexive keeps_commands.
Proof. by intros x I. Qed.

Lemma command_inv store q signer s :
  commands_inv (ct_db s) → commands_inv (ct_db (execute_operator_command store q signer s).2).
Proof.
  intros I. rewrite execute_spec. unfold cbind, lift.
  destruct (operator_context store) as [context| |]; [|done..].
  revert I. apply (command_transaction_wp keeps_commands).
  intros s0 r s1 Es B Is. rewrite <- Es in *.
  eapply execution_inv; [exact Is|]. by apply (execute_body_post store q signer _ Is s0 r s1).
Qed.

Lemma control_run_commands calls s :
  commands_inv (ct_db s) → commands_inv (ct_db (control_run calls s)).
Proof.
  revert s. induction calls as [|[store op] calls IH]; intros s I; [done|]. apply IH. cbn [fst snd].
  destruct op; [by eapply same_commands_inv, I..|by apply command_inv].
Qed.

(** A command that has been executed is in the tables, with the receipt it returned. *)
Lemma execution_stored store q x y res :
  commands_inv x → execution store q x y (Ok res) →
  ∃ e, cd_commands y !! command_id e = Some e ∧ cev_command e = cer_command q
    ∧ cd_receipts y !! rcp_receipt_id (crs_receipt res) = Some (crs_receipt res)
    ∧ rcp_command_id (crs_receipt res) = command_id e.
Proof.
  intros I X. inversion X as [e r St Ec Ey| |w digest now res0 Sc D En Ex P]; subst.
  - destruct (stored_receipt_id _ _ _ _ _ I St) as (Le & _ & Lr & _ & C). by exists e.
  - destruct P as (E & _). eexists (envelope_of _ _ _). destruct E as [F C [T _ _] Rf].
    rewrite C, T, !lookup_insert_eq. split_and!; [done..|apply Rf].
Qed.

Lemma execute_scope store q signer s res s' :
  execute_operator_command store q signer s = (Ok res, s') →
  ∃ w, (validate_command_scope q s).1 = Ok (command_shape (cer_command q), w).
Proof.
  intros E. rewrite execute_spec in E. unfold cbind, lift in E.
  destruct (operator_context store) as [context| |]; [|done..].
  unfold command_transaction, execute_body, cbind at 1 in E.
  destruct (validate_command_scope q s) as [[[sh w]|e|] s1] eqn:V; [|done..]. exists w. cbn.
  by apply (cwp_scope q (λ a _, Ok (E := StoreError.t) a = Ok (command_shape (cer_command q), a.2)) (ct_db s)
           (λ _ _, eq_refl) s (sh, w) s1 eq_refl V).
Qed.

Lemma stored_receipt_for x e r :
  commands_inv x → cd_commands x !! command_id e = Some e →
  cd_receipts x !! rcp_receipt_id r = Some r → rcp_command_id r = command_id e →
  receipt_for e r.
Proof.
  intros I L Lr C. destruct (cq_receipts _ I _ _ L) as (r1 & L1 & F1).
  assert (rcp_receipt_id r = rcp_receipt_id r1) as E
    by (eapply (cq_single _ I); eauto; rewrite C; symmetry; apply F1).
  rewrite E, L1 in Lr. by injection Lr as <-.
Qed.

Lemma receipt_wf r : CommandReceipt_validate r = Ok () →
  uuid_is_v7 (rcp_receipt_id r) = true ∧ (MAX_SAFE_INTEGER <? rcp_audit_sequence r)%N = false.
Proof.
  unfold CommandReceipt_validate, not_all_v7. intros V. apply bail_Ok in V as [V _]. res_inv.
  cbn [forallb] in *. res_inv. done.
Qed.

Lemma receipt_binding_valid e r :
  receipt_for e r → checked_command e →
  validate_command_receipt_binding r e (rcp_receipt_id r) = Ok ().
Proof.
  intros [V C K W Hh Kd D] [Sc Dg Vd]. unfold validate_command_receipt_binding.
  rewrite V. cbn [corrupt map_err rbind]. rewrite Vd. cbn [rbind]. rewrite Dg. cbn [ok_or rbind].
  rewrite Sc, C, K, W, Hh, Kd, D, !bool_decide_true by done. done.
Qed.

(** The tables of the store but the audit chain. *)
Definition audit_only (x y : CommandDb) : Prop :=
  y = with_db (with_heads (db_heads (cd_db y)) (with_events (db_events (cd_db y)) (cd_db x))) x.

#[export] Instance audit_only_preorder : PreOrder audit_only.
Proof.
  split; [by intros [[]]|]. intros [[]] [[]] [[]] X Y.
  unfold audit_only, with_db, with_heads, with_events in *. cbn in *. by simplify_eq.
Qed.

Lemma audit_only_event e sh k o f b p now store :
  steps audit_only (tables (append_command_event store e sh k o f b p now)).
Proof.
  apply steps_tables; [exact _|]. intros x. unfold append_command_event.
  apply wp_bind, wp_uuid. intros id. apply wp_record. intros n previous digest ev V.
  by destruct x as [[]].
Qed.

(** The key of a stored command is taken. *)
Lemma execute_conflict store q signer x e r :
  commands_inv x → stored_command (OperatorCommand.binding (cer_command q)) x
                   = Some (e, rcp_receipt_id r, r) →
  cev_command e ≠ cer_command q →
  cwp (execute_body store q signer) (λ res y, (∀ cr, res ≠ Ok cr) ∧ audit_only x y) x.
Proof.
  intros I St N. unfold execute_body. apply cwp_bind, cwp_scope. intros w Sc.
  apply cwp_bind, cwp_lift. intros digest D. apply cwp_bind, cwp_select. intros existing [= <-].
  rewrite St. unfold execute_again. case_match.
  - rewrite (bool_decide_false _ N). apply cwp_throw.
  - apply cwp_bind, cwp_lift. intros now _. apply cwp_bind.
    eapply cwp_mono; [apply audit_only_event|]. intros ev y A. by apply cwp_ret.
Qed.

Lemma execute_refused store q signer s (R : relation CommandDb) `{!Reflexive R} :
  cwp (execute_body store q signer) (λ res y, (∀ cr, res ≠ Ok cr) ∧ R (ct_db s) y) (ct_db s) →
  (∀ res, (execute_operator_command store q signer s).1 ≠ Ok res)
  ∧ R (ct_db s) (ct_db (execute_operator_command store q signer s).2).
Proof.
  intros X. rewrite execute_spec. unfold cbind, lift.
  destruct (operator_context store) as [context| |]; [|by split..]. unfold command_transaction.
  destruct (execute_body store q signer s) as [[r|e|] s1] eqn:B; [|by split..].
  exact (X s r s1 eq_refl B).
Qed.

(** A command in scope that is stored. *)
Lemma execute_replays context q signer s w e r :
  (validate_command_scope q s).1 = Ok (command_shape (cer_command q), w) →
  commands_inv (ct_db s) → cd_commands (ct_db s) !! command_id e = Some e →
  cd_receipts (ct_db s) !! rcp_receipt_id r = Some r → rcp_command_id r = command_id e →
  cev_command e = cer_command q →
  stored_command (OperatorCommand.binding (cer_command q)) (ct_db s)
  = Some (e, rcp_receipt_id r, r) →
  execute_operator_command (Some context) q signer s
  = (Ok (command_result CommandResultOutcome.ExactReplay r), s).
Proof.
  intros Sc I L Lr C Ec St. rewrite execute_spec. unfold execute_body, command_transaction, cbind.
  cbn [lift operator_context ok_or]. destruct (asks_scope q s s eq_refl) as [_ S2].
  destruct (validate_command_scope q s) as [r0 s0]. cbn in Sc, S2. subst r0 s0.
  pose proof (cq_checked _ I _ _ L) as Ch. pose proof (stored_receipt_for _ _ _ I L Lr C) as F.
  destruct (receipt_wf _ (fr_valid _ _ F)) as [V7 Sq].
  unfold command_request_digest. rewrite <- Ec, (cc_digest _ Ch). cbn [ok_or lift select].
  rewrite Ec, St. unfold execute_again. rewrite bool_decide_true, Ec, bool_decide_true, Sq by done.
  cbn [negb orb]. unfold uuid_column. rewrite V7. cbn [negb lift cbind].
  unfold cbind, lift. by rewrite receipt_binding_valid.
Qed.

(** C2: a command is executed exactly once.  Once a command has returned a receipt, then
    after whatever else happens to the store, sending the same command again, with any
    clock and any signer, returns that receipt and changes nothing, and any other command
    under the same idempotency key is refused and changes nothing but the audit chain,
    where the attempt is recorded. *)
Theorem command_exactly_once (store : option OperatorStoreContext)
    (q : CommandExecutionRequest) (signer : OperatorSigner) (s s' : CommandTx)
    (res : CommandResult) (I : commands_inv (ct_db s))
    (E : execute_operator_command store q signer s = (Ok res, s'))
    (calls : list (option OperatorStoreContext * control_op)) (context : OperatorStoreContext)
    (signer2 : OperatorSigner) :
  let s2 := control_run calls s' in
  execute_operator_command (Some context) q signer2 s2
  = (Ok (command_result CommandResultOutcome.ExactReplay (crs_receipt res)), s2)
  ∧ ∀ q2, same_key (OperatorCommand.binding (cer_command q2))
            (OperatorCommand.binding (cer_command q)) = true →
    cer_command q2 ≠ cer_command q →
    (∀ res2, (execute_operator_command (Some context) q2 signer2 s2).1 ≠ Ok res2)
    ∧ audit_only (ct_db s2)
        (ct_db (execute_operator_command (Some context) q2 signer2 s2).2).
Proof.
  intros s2. pose proof (command_Ok _ _ _ _ _ _ I E) as X.
  pose proof (execution_inv _ _ _ _ _ I X) as I'.
  pose proof (control_run_commands calls s' I') as I2. fold s2 in I2.
  destruct (execution_stored _ _ _ _ _ I X) as (e & Le & Ec & Lr & C).
  destruct (control_run_grows calls s') as [W2 G1 G2 _]. fold s2 in W2, G1, G2.
  pose proof (lookup_weaken _ _ _ _ Le G1) as Le2. pose proof (lookup_weaken _ _ _ _ Lr G2) as Lr2.
  assert (∀ b, same_key (command_binding e) b = true → stored_command b (ct_db s2)
            = Some (e, rcp_receipt_id (crs_receipt res), crs_receipt res)) as St
    by (intros b K; by apply stored_command_found).
  split.
  - destruct (execute_scope _ _ _ _ _ _ E) as [w Sc].
    assert (cd_workspace (ct_db s2) = cd_workspace (ct_db s)) as W.
    { rewrite W2. pose proof (command_grows_step store q signer s) as G. rewrite E in G. apply G. }
    destruct (asks_scope q s s2 W) as [S1 _]. rewrite Sc in S1.
    eapply execute_replays; try done. rewrite <- Ec. apply St. unfold same_key.
    by rewrite !bool_decide_true.
  - intros q2 K N. apply (execute_refused _ _ _ _ audit_only).
    eapply execute_conflict; [done|apply St|congruence]. by rewrite Ec, same_key_sym.
Qed.

(** C7: commands need authority, and leave evidence.  A command that is executed (and not
    just answered with its receipt) was sent for the enrolled human of the enrolled
    workspace, in a session of theirs that the command names by its digest, that has not
    expired and that, like the workspace, has every capability of the command.  When it
    was applied, the receipt names a stored proof that the agent of the workspace signed
    over this command at this time, and the last event of the audit chain, which names
    the command, the human, the session and the proof. *)
Theorem command_authorized (store : option OperatorStoreContext) (q : CommandExecutionRequest)
    (signer : OperatorSigner) (s s' : CommandTx) (res : CommandResult)
    (I : commands_inv (ct_db s))
    (E : execute_operator_command store q signer s = (Ok res, s'))
    (N : crs_outcome res ≠ CommandResultOutcome.ExactReplay) :
  let b := OperatorCommand.binding (cer_command q) in
  let r := crs_receipt res in
  let d' := cd_db (ct_db s') in
  ∃ w digest now, in_scope q w (ct_db s)
    ∧ operator_now store = Ok now
    ∧ (now < sa_absolute_expires_at (oms_session_authority (cer_scope q)))%Z
    ∧ command_digest_of (cer_command q) = Some digest
    ∧ receipt_for (envelope_of (cer_command q) digest now) r
    ∧ (rcp_outcome r = CommandOutcome.Applied →
       ∃ p ev, rcp_proof r = Some p
         ∧ proved w (envelope_of (cer_command q) digest now) now p d'
         ∧ last (db_events d') = Some ev
         ∧ rcp_audit_sequence r = ae_sequence ev ∧ rcp_audit_digest r = ae_event_digest ev
         ∧ ae_kind ev = applied_event (command_kind (cer_command q))
         ∧ ae_command_id ev = Some (cmd_command_id b) ∧ ae_human_id ev = Some (cmd_human_id b)
         ∧ ae_session_id ev = Some (cmd_session_id b)
         ∧ ae_session_authority_digest ev = Some (cmd_session_authority_digest b)
         ∧ ae_proof ev = Some p).
Proof.
  intros b r d'. pose proof (command_Ok _ _ _ _ _ _ I E) as X.
  inversion X as [e r0 St Ec Ey Er| |w digest now res0 Sc D En Ex P]; subst; [done|].
  destruct P as (Ed & _ & A). exists w, digest, now. split_and!; try done; [apply Ed|].
  intros Ap. destruct (A Ap) as (sh & f & K & [_ (p & ev & id & n & previous & dg & Rp & Pv & L & -> & _ & _ & Rs & Rd)]).
  exists p. eexists. by split_and!.
Qed.

(** ** Approval decisions *)

(** The event of an approval decision does not say what was decided, and the chain refuses
    it. *)
Lemma decided_event_invalid ev n previous :
  ae_kind ev = AuditEventKind.ApprovalDecided → ae_decision_digest ev = None →
  validate_chain_link ev n previous ≠ Ok ().
Proof.
  intros K D V. unfold validate_chain_link in V.
  assert (profile ev (profile_mask ev) = true) as P by (clear -V; res_inv; done).
  pose proof (proj1 (profile_mask_exact ev) 21%N) as B.
  replace (nth (N.to_nat 21) (presence ev) false) with (is_some (ae_decision_digest ev)) in B by done.
  rewrite D in B. unfold profile in P. rewrite K in P. clear -P B. res_inv.
  match goal with X : (_ =? _)%N = true |- _ => apply N.eqb_eq in X; rewrite X in B end.
  discriminate B.
Qed.

Definition same_decisions (x y : CommandDb) : Prop :=
  cd_commands y = cd_commands x ∧ cd_receipts y = cd_receipts x ∧ cd_decisions y = cd_decisions x.

#[export] Instance same_decisions_preorder : PreOrder same_decisions.
Proof. split; [done|]. intros x y z (? & ? & ?) (? & ? & ?). split_and!; congruence. Qed.

Lemma decisions_tables {A} (c : tx A) : steps same_decisions (tables c).
Proof. apply steps_tables; [exact _|]. intros x s a s' _ _. by split. Qed.
#[local] Hint Resolve decisions_tables : steps.
Lemma decisions_bundle id : steps same_decisions (load_approval_bundle id).
Proof. unfold load_approval_bundle. steps_tac. Qed.
#[local] Hint Resolve decisions_bundle : steps.

Lemma cwp_skip_rel {A B} (R : relation CommandDb) `{!PreOrder R} (c : ctx A) (k : A → ctx B) Q x y :
  R x y → steps R c → (∀ a z, R x z → cwp (k a) Q z) → cwp (cbind c k) Q y.
Proof.
  intros Y S X. apply cwp_bind. eapply cwp_mono; [apply S|]. intros a z Z. apply X.
  exact (transitivity Y Z).
Qed.

Lemma cwp_and {A} (c : ctx A) (P Q : A → CommandDb → Prop) x :
  cwp c P x → cwp c Q x → cwp c (λ a y, P a y ∧ Q a y) x.
Proof. intros X Y s a s' Es E. split; [by eapply X|by eapply Y]. Qed.

(** What is committed when a decision is refused: an event. *)
Lemma decide_errors store signer w e c now x :
  cwp (decide_approval store signer w e (command_shape (cev_command e)) c now)
    (λ res y, ∀ error, res = Err error → same_decisions x y) x.
Proof.
  assert (same_decisions x x) as S by done. unfold decide_approval. cbv zeta.
  do 4 (eapply (cwp_skip_rel same_decisions); [exact S|solve [steps_tac]|]; clear S; intros ? ? S).
  eapply (cwp_skip_rel same_decisions); [exact S|solve [steps_tac]|]. clear S.
  intros [[approval request] existing] ? S.
  eapply (cwp_skip_rel same_decisions); [exact S|solve [steps_tac]|]. clear S. intros ? y S.
  case_match.
  - eapply (cwp_skip_rel same_decisions); [exact S|solve [steps_tac]|]. intros ? ? S'. by apply cwp_ret.
  - assert (same_commands x y) as S' by (split; apply S). clear S. skip_tac. enter_tac. skip_tac.
    by eapply cwp_conclude; [eassumption|moves_tac|].
Qed.

Lemma decide_never_applied w e c now x cr y :
  cev_command e = OperatorCommand.ApprovalDecision c → ¬ new_post w e now x (Ok cr) y.
Proof.
  intros Ec (Ed & _ & A). pose proof (ex_for _ _ _ _ Ed) as F.
  assert (rcp_outcome (crs_receipt cr) = CommandOutcome.Applied) as Ap.
  { pose proof (fr_valid _ _ F) as V. pose proof (fr_kind _ _ F) as K. rewrite Ec in K. cbn in K.
    unfold CommandReceipt_validate in V. apply bail_Ok in V as [_ V]. apply bail_Ok in V as [_ V].
    apply bail_Ok in V as [_ V]. apply bail_Ok in V as [B _]. unfold receipt_branch in B.
    rewrite K in B. clear -B. res_inv. done. }
  destruct (A Ap) as (sh & f & K & [_ (p & ev & id & n & previous & dg & _ & _ & _ & Ee & V & _)]).
  rewrite Ec in K, Ee. revert V. apply decided_event_invalid; subst ev; [done|].
  cbn [ae_decision_digest link_event populate_command_event]. by rewrite K.
Qed.

Lemma decide_refused store signer w e c now x :
  cev_command e = OperatorCommand.ApprovalDecision c →
  cwp (decide_approval store signer w e (command_shape (cev_command e)) c now)
    (λ res y, (∀ cr, res ≠ Ok cr) ∧ same_decisions x y) x.
Proof.
  intros Ec. eapply cwp_mono; [apply cwp_and; [by eapply decide_post|by eapply decide_errors]|].
  intros [cr|error|] y [P D]; [by eapply decide_never_applied in P| |done]. split; [done|by eapply D].
Qed.

(** No approval decision has been executed. *)
Definition undecided (x : CommandDb) : Prop :=
  ∀ k e, cd_commands x !! k = Some e → command_kind (cev_command e) ≠ CommandKind.ApprovalDecide.

Lemma same_undecided x y : cd_commands y = cd_commands x → undecided x → undecided y.
Proof. intros C U. unfold undecided. by rewrite C. Qed.

(** The commands that do not decide write no decision. *)
Definition kept_decisions (x y : CommandDb) : Prop := cd_decisions y = cd_decisions x.

#[local] Instance kept_decisions_preorder : PreOrder kept_decisions.
Proof. split; [done|]. unfold kept_decisions. intros x y z. congruence. Qed.

Lemma kept_tables {A} (c : tx A) : steps kept_decisions (tables c).
Proof. apply steps_tables; [exact _|]. by intros x s a s' _ _. Qed.
Lemma kept_command e sh : steps kept_decisions (insert_command_envelope e sh).
Proof. unfold insert_command_envelope. steps_tac. done. Qed.
Lemma kept_receipt r : steps kept_decisions (insert_command_receipt r).
Proof. unfold insert_command_receipt. steps_tac. done. Qed.
#[local] Hint Resolve kept_tables kept_command kept_receipt : steps.
Lemma kept_conclude store signer w e sh op k f (done_ : tx ()) rf now :
  steps kept_decisions (conclude store signer w e sh op k f done_ rf now).
Proof. unfold conclude, finish. steps_tac. Qed.
#[local] Hint Resolve kept_conclude : steps.

Lemma new_undecided store signer q w digest x :
  undecided x →
  cwp (execute_new store signer q (command_shape (cer_command q)) w digest)
    (λ res y, undecided y ∧ cd_decisions y = cd_decisions x
       ∧ (command_kind (cer_command q) = CommandKind.ApprovalDecide → ∀ cr, res ≠ Ok cr)) x.
Proof.
  intros U. unfold execute_new. apply cwp_bind, cwp_lift. intros now En.
  destruct (_ <=? now)%Z; [apply cwp_throw|]. cbv zeta.
  set (e := envelope_of (cer_command q) digest now).
  assert (∀ c : ctx (result StoreError.t CommandResult),
    command_kind (cer_command q) ≠ CommandKind.ApprovalDecide → steps kept_decisions c →
    cwp c (new_post w e now x) x →
    cwp c (λ res y, undecided y ∧ cd_decisions y = cd_decisions x
       ∧ (command_kind (cer_command q) = CommandKind.ApprovalDecide → ∀ cr, res ≠ Ok cr)) x) as Other.
  { intros c K S P. eapply cwp_mono; [apply cwp_and; [exact P|apply S]|].
    intros [cr|error|] y [N D]; [|by split; [by eapply same_undecided, U; apply N|]|done].
    split; [|done]. destruct N as ([_ C _ _] & _). intros k e'. rewrite C.
    intros [[<- <-]|[_ L]]%lookup_insert_Some; [done|by eapply U]. }
  destruct (cer_command q) as [c|c|c|c] eqn:Ec; subst e.
  - eapply cwp_mono; [by apply (decide_refused _ _ _ (envelope_of (OperatorCommand.ApprovalDecision c) digest now))|].
    intros res y [N (C & _ & D)]. split_and!; [by eapply same_undecided|done..].
  - apply Other; [done| |by apply (cancel_post _ _ _ (envelope_of (OperatorCommand.RunCancel c) digest now))].
    unfold cancel_run, finish. steps_tac.
  - apply Other; [done| |by apply (resume_post _ _ _ (envelope_of (OperatorCommand.RunResume c) digest now))].
    unfold resume_run, resume_with_approval, load_approval_bundle. steps_tac.
  - apply Other; [done| |by apply (revoke_post _ _ _ (envelope_of (OperatorCommand.SessionRevoke c) digest now) c)].
    unfold revoke_session. steps_tac.
Qed.

Lemma body_undecided store q signer x :
  commands_inv x → undecided x →
  cwp (execute_body store q signer)
    (λ res y, undecided y ∧ cd_decisions y = cd_decisions x
       ∧ (command_kind (cer_command q) = CommandKind.ApprovalDecide → ∀ cr, res ≠ Ok cr)) x.
Proof.
  intros I U. destruct (stored_command (OperatorCommand.binding (cer_command q)) x)
    as [[[e i] r]|] eqn:St.
  - destruct (stored_receipt_id _ _ _ _ _ I St) as (Le & _ & _ & -> & _).
    destruct (decide (cev_command e = cer_command q)) as [Ec|N].
    + unfold execute_body. apply cwp_bind, cwp_scope. intros w Sc.
      apply cwp_bind, cwp_lift. intros digest D. apply cwp_bind, cwp_select. intros existing [= <-].
      rewrite St. eapply cwp_mono with (P := λ _, same_decisions x).
      * match goal with |- cwp ?c _ _ => enough (steps same_decisions c) as X by apply X end.
        unfold execute_again. steps_tac.
      * intros res y (C & _ & Dc). split_and!; [by eapply same_undecided|done|].
        rewrite <- Ec. intros K. by destruct (U _ _ Le).
    + eapply cwp_mono; [by eapply execute_conflict|]. intros res y [Nr ->]. by split_and!.
  - unfold execute_body. apply cwp_bind, cwp_scope. intros w Sc.
    apply cwp_bind, cwp_lift. intros digest D. apply cwp_bind, cwp_select. intros existing [= <-].
    rewrite St. by apply new_undecided.
Qed.

Definition keeps_undecided (x y : CommandDb) : Prop :=
  commands_inv x → undecided x → undecided y ∧ cd_decisions y = cd_decisions x.
#[local] Instance keeps_undecided_reflexive : Reflexive keeps_undecided.
Proof. by intros x I U. Qed.

Lemma command_undecided store q signer s :
  keeps_undecided (ct_db s) (ct_db (execute_operator_command store q signer s).2).
Proof.
  rewrite execute_spec. unfold cbind, lift.
  destruct (operator_context store) as [context| |]; [|done..].
  apply (command_transaction_wp keeps_undecided). intros s0 r s1 Es B I U. rewrite <- Es in *.
  destruct (body_undecided store q signer _ I U s0 r s1 eq_refl B) as (U' & D & _). by split.
Qed.

Lemma control_run_undecided calls s :
  commands_inv (ct_db s) → undecided (ct_db s) →
  undecided (ct_db (control_run calls s))
  ∧ cd_decisions (ct_db (control_run calls s)) = cd_decisions (ct_db s).
Proof.
  revert s. induction calls as [|[store op] calls IH]; intros s I U; [done|].
  assert (commands_inv (ct_db (control_step store op s))) as I'
    by (destruct op; [by eapply same_commands_inv, I..|by apply command_inv]).
  assert (undecided (ct_db (control_step store op s))
          ∧ cd_decisions (ct_db (control_step store op s)) = cd_decisions (ct_db s)) as [U' D']
    by (destruct op; [done..|by apply command_undecided]).
  destruct (IH _ I' U') as [U2 D2]. cbn [control_run foldl fst snd]. split; [done|].
  unfold control_run in D2. congruence.
Qed.

(** C30: no approval is ever decided through the store.  From tables in which no approval
    decision has been executed, after whatever calls, the command that approves or denies
    a pending approval returns no receipt, and no decision is stored: the audit event
    that it appends, [ApprovalDecided], leaves the decision digest out
    ([populate_command_event] sets it for [RunResume] only) while [validate_chain_link]
    requires it, so that the transaction is rolled back every time. *)
Theorem approval_decision_refused (calls : list (option OperatorStoreContext * control_op))
    (s : CommandTx) (I : commands_inv (ct_db s)) (U : undecided (ct_db s))
    (store : option OperatorStoreContext) (q : CommandExecutionRequest) (signer : OperatorSigner)
    (K : command_kind (cer_command q) = CommandKind.ApprovalDecide) :
  let s' := control_run calls s in
  (∀ res, (execute_operator_command store q signer s').1 ≠ Ok res)
  ∧ cd_decisions (ct_db (execute_operator_command store q signer s').2) = cd_decisions (ct_db s)
  ∧ undecided (ct_db (execute_operator_command store q signer s').2).
Proof.
  intros s'. destruct (control_run_undecided calls s I U) as [U' D'].
  pose proof (control_run_commands calls s I) as I'. fold s' in U', D', I'.
  destruct (command_undecided store q signer s' I' U') as [U2 D2].
  split_and!; [|congruence|done].
  refine (proj1 (execute_refused store q signer s' kept_decisions _)).
  eapply cwp_mono; [by apply body_undecided|]. intros res y (_ & D & X). split; [by apply X|done].
Qed.

End applied.
