(* ===== verification/FinishedRuns.v ===== *)
(** * Finished runs

    [finished_run_final]: a run that has succeeded or has been cancelled stays as it is,
    whatever runtimes and operators call afterwards, and no further dispatch is
    authorized and no further budget is reserved for it.  The proof follows the three
    places that write a run: the commit of a result, the forfeit and the commands. *)

From S2P Require Import Prelude RustStr Externals Json Canonical Serialized Evidence Approval.
From S2P Require Import OperatorCommon StrictDigest Agent AgentRun ExecutionStore Durable AuditChain.
From S2P Require Import OperatorAuth Custody RuntimeStore ReplayStore RuntimeOps RuntimeCommitOp.
From S2P Require Import OperatorCommand CommandStore RuntimeProofs OperatorAuthAudit RuntimeWp.
From S2P Require Import RuntimeLeases RuntimeLedger RuntimeResults ControlStore CommandProofs.
From stdpp Require Import options.

#[local] Set Default Proof Using "All".

Definition finished (r : AgentRun) : bool :=
  match run_status r with
  | RunStatus.Succeeded | RunStatus.Cancelled => true
  | _ => false
  end.

(** The rows of finished runs are kept. *)
Definition final (d d' : Db) : Prop := ∀ k r,
  db_runs d !! k = Some r → finished r = true → db_runs d' !! k = Some r.

#[export] Instance final_preorder : PreOrder final.
Proof. split; [by intros d k r|]. intros a b c X Y k r L F. apply Y; [by apply X|done]. Qed.

Definition same_runs (d d' : Db) : Prop := db_runs d' = db_runs d.

#[export] Instance same_runs_preorder : PreOrder same_runs.
Proof. split; [done|]. intros a b c E F. unfold same_runs in *. congruence. Qed.
#[export] Instance same_runs_run : IgnoresRun same_runs.
Proof. by repeat split; try exact _. Qed.
#[export] Instance same_runs_records : IgnoresRecords same_runs.
Proof. by split. Qed.

Lemma same_runs_final d d' : same_runs d d' → final d d'.
Proof. intros E k r. by rewrite E. Qed.

(** A run that is not finished is updated. *)
Lemma update_final r r0 d0 d :
  same_runs d0 d → db_runs d0 !! run_id r = Some r0 → finished r0 = false →
  final d0 (with_runs (<[run_id r := r]> (db_runs d)) d).
Proof.
  intros E L N k q Lq F. cbn. rewrite E, lookup_insert_ne; [done|]. intros <-.
  rewrite L in Lq. injection Lq as ->. by rewrite N in F.
Qed.

Section runtime.
Context `{Externals} `{OperatorExternals}.

Lemma wp_load_run id (Q : AgentRun → Db → Prop) d :
  (∀ r, db_runs d !! id = Some r → run_id r = id → Q r d) → wp (load_agent_run_exact id) Q d.
Proof. intros X. unfold load_agent_run_exact. wp_tac. res_inv. by apply X. Qed.

Lemma wp_update_run r n (Q : () → Db → Prop) d :
  Q tt (with_runs (<[run_id r := r]> (db_runs d)) d) → wp (update_agent_run_exact r n) Q d.
Proof. intros X. unfold update_agent_run_exact. wp_tac. by apply X. Qed.

Lemma wp_final_tail {A} (c : tx A) d0 d :
  moves same_runs c → final d0 d → wp c (λ _, final d0) d.
Proof.
  intros M X. apply (wp_moves same_runs); [done|]. intros _ d' Y.
  etrans; [exact X|]. by apply same_runs_final.
Qed.

Lemma same_runs_insert_lease l : moves same_runs (insert_lease l).
Proof. unfold insert_lease. moves_tac. done. Qed.
Lemma same_runs_update_lease l : moves same_runs (update_lease l).
Proof. unfold update_lease. moves_tac. done. Qed.
Lemma same_runs_budget b : moves same_runs (update_budget b).
Proof. unfold update_budget. moves_tac. done. Qed.
Lemma same_runs_insert_reservation r : moves same_runs (insert_reservation r).
Proof. unfold insert_reservation. moves_tac. done. Qed.
Lemma same_runs_update_reservation r : moves same_runs (update_reservation r).
Proof. unfold update_reservation. moves_tac. done. Qed.
#[local] Hint Resolve same_runs_insert_lease same_runs_update_lease same_runs_budget
  same_runs_insert_reservation same_runs_update_reservation : moves.

(** A transition keeps the identifier, and starts from a run that is not finished. *)
Lemma transition_id next now r : run_id (run_transition next now r).2 = run_id r.
Proof. unfold run_transition. by case_match. Qed.

Lemma fail_run_final run now d0 d :
  same_runs d0 d → db_runs d0 !! run_id run = Some run →
  wp (fail_run run now) (λ _, final d0) d.
Proof.
  intros E L. unfold fail_run. case_match eqn:T; [by apply wp_ret, same_runs_final|].
  destruct (run_fail now run) as [r failed] eqn:F. apply wp_bind, wp_lift. intros _ _.
  apply wp_bind, wp_update_run, wp_ret.
  assert (run_id failed = run_id run) as I
    by (rewrite <- (transition_id RunStatus.Failed now run); unfold run_fail in F; by rewrite F).
  apply (update_final _ run); [done|by rewrite I|].
  unfold finished. by destruct (run_status run).
Qed.

Lemma forfeit_final store c l r now d : wp (apply_forfeit store c l r now) (λ _, final d) d.
Proof.
  unfold apply_forfeit. wp_tac. apply (wp_moves same_runs); [moves_tac|]. intros _ d1 E1.
  do 2 (eapply (wp_skip same_runs); [exact E1|moves_tac|]; clear E1; intros _ ? E1).
  apply wp_bind, wp_load_run. intros run L I. eapply wp_bind, wp_mono.
  - eapply (fail_run_final run); [exact E1|]. by rewrite <- E1, I.
  - intros run' d2 X. apply wp_final_tail; [moves_tac|done].
Qed.

(** The run that a commit has loaded. *)
Lemma wp_load_commit_run c l r p (Q : Loaded → Db → Prop) d :
  (∀ x, db_runs d !! run_id (ld_run x) = Some (ld_run x) → Q x d) →
  wp (load_commit c l r p) Q d.
Proof.
  intros X. unfold load_commit. apply wp_bind, wp_load_run. intros run L I. wp_tac.
  apply X. cbn. by rewrite I.
Qed.

Lemma persist_final store q p x charged now d :
  db_runs d !! run_id (ld_run x) = Some (ld_run x) → finished (ld_run x) = false →
  run_id (ge_run_after p) = run_id (ld_run x) →
  wp (persist_result store q p x charged now) (λ _, final d) d.
Proof.
  intros L F I. unfold persist_result. cbv zeta.
  apply (wp_skip same_runs _ _ _ d); [done|moves_tac|]. intros _ d1 E.
  apply wp_bind, wp_update_run. apply wp_final_tail; [moves_tac|].
  apply (update_final _ (ld_run x)); [done|by rewrite I|done].
Qed.

Context (store : option OperatorStoreContext).

(** A forfeit, and then a result. *)
Lemma forfeit_then_final {A B} c l r now (k : AgentRun * BudgetAccount * RunControl → tx (result A B)) d :
  (∀ x, reads (k x)) →
  wp (let! x := apply_forfeit store c l r now in k x) (λ _, final d) d.
Proof.
  intros K. eapply wp_bind, wp_mono; [apply forfeit_final|]. intros x d' X.
  by apply wp_reads.
Qed.

Lemma failure_final q s : final (tx_db s) (tx_db (forfeit_failure store q s).2).
Proof.
  unfold forfeit_failure. cbv zeta. transaction_tac. unfold commit.
  apply wp_bind, dispatched_stored. intros r L. cbv beta.
  case_match; [apply wp_final_tail; [moves_tac|done]|]. case_match; [apply wp_throw|].
  apply wp_bind, wp_lift. intros now _. apply wp_bind, wp_settlement_authority. intros c l _.
  apply forfeit_then_final. intros [[run b] c']. moves_tac.
Qed.

Lemma commit_final q p s : final (tx_db s) (tx_db (commit_runtime_barrier store q p s).2).
Proof.
  unfold commit_runtime_barrier. case_match.
  - unfold forfeit_commit. transaction_tac. apply wp_bind, dispatched_stored. intros r L.
    cbv beta. case_match; [apply wp_throw|]. apply wp_bind, wp_lift. intros now _.
    apply wp_bind, wp_settlement_authority. intros c l _. apply forfeit_then_final.
    intros x. moves_tac.
  - unfold commit_runtime. transaction_tac. apply wp_bind, dispatched_stored. intros r L.
    cbv beta. case_match; [apply wp_final_tail; [moves_tac|done]|].
    case_match; [apply wp_throw|]. unfold settle_dispatched, forfeit_with, commit.
    apply wp_bind, wp_lift. intros now _. apply wp_bind, wp_settlement_authority. intros c l _.
    apply wp_bind, wp_lift. intros started _. cbv zeta. apply wp_bind, wp_load_commit_run.
    intros x Lx. apply wp_bind, wp_lift. intros context _.
    destruct (binding_valid _ _ _ _ _) eqn:V; cbn [negb];
      [|apply forfeit_then_final; intros y; moves_tac].
    apply wp_bind, wp_candidate; [|intros e; apply forfeit_then_final; intros y; moves_tac].
    eapply wp_mono; [apply persist_final; [done|..]|].
    + unfold binding_valid, dispatch_current in V. res_inv. unfold finished.
      by match goal with P : run_status _ = RunStatus.Running |- _ => rewrite P end.
    + unfold binding_valid, run_follows in V. by res_inv.
    + intros y d' B. by apply wp_ret.
Qed.

Lemma runtime_step_final op s : final (tx_db s) (tx_db (runtime_step store op s)).
Proof.
  destruct op; cbn [runtime_step]; try (by apply same_runs_final; revert s;
    match goal with |- ∀ s, same_runs _ (tx_db (?c s).2) => change (moves same_runs c) end;
    unfold claim_run_lease, renew_run_lease, release_run_lease, reserve_aggregate_budget,
      reserve_now, settle_budget_reservation, begin_dispatch, authorize_dispatch,
      claim_then_dispatch, dispatch_now, release_undispatched, release_reservation, commit;
    moves_tac).
  - apply commit_final.
  - apply failure_final.
  - by rewrite (proj1 (reclaim_refused store q s)).
Qed.

End runtime.

(** ** Commands *)

Section commands.
Context `{Externals} `{OperatorExternals} (store : option OperatorStoreContext).

#[export] Instance tail_runs : CommandTail store same_runs.
Proof.
  split; [exact _|..]; try (intros; moves_tac; done).
  intros c l run now d. apply (wp_moves same_runs); [|done].
  unfold release_reserved, release_reservation, update_reservation, update_budget. moves_tac; done.
Qed.

Lemma cwp_final_tail {A} (c : ctx A) x y :
  steps (on_db same_runs) c → on_db final x y → cwp c (λ _, on_db final x) y.
Proof.
  intros S X. eapply cwp_mono; [apply S|]. intros a z Z.
  exact (transitivity X (same_runs_final _ _ Z)).
Qed.

Lemma cwp_final_update r r0 n (k : () → ctx (result StoreError.t CommandResult)) x y :
  on_db same_runs x y → db_runs (cd_db x) !! run_id r = Some r0 → finished r0 = false →
  (∀ u, steps (on_db same_runs) (k u)) →
  cwp (cbind (tables (update_agent_run_exact r n)) k) (λ _, on_db final x) y.
Proof.
  intros E L F K. apply cwp_bind, cwp_tables, wp_update_run. apply cwp_final_tail; [apply K|].
  by apply (update_final _ r0).
Qed.

(** Skips a call that writes no run. *)
Ltac keep_tac E :=
  eapply (cwp_skip_rel (on_db same_runs)); [exact E|solve [steps_tac]|]; clear E; intros ? ? E.

Lemma resume_id now run : run_id (run_resume now run).2 = run_id run.
Proof. unfold run_resume. repeat case_match; rewrite ?transition_id; done. Qed.

(** What a resumption has found: the run was not finished. *)
Definition resumes (run : AgentRun) (x : CommandDb) (re : Resumption) (z : CommandDb) : Prop :=
  on_db same_runs x z ∧ finished run = false ∧ run_id (re_run re) = run_id run.

Lemma resume_approval_final c run st id now x y :
  on_db same_runs x y → cwp (resume_with_approval c run st id now) (resumes run x) y.
Proof.
  intros E. unfold resume_with_approval. keep_tac E.
  match goal with |- context [let (_, _) := ?b in _] => destruct b as [[approval request] decision] end.
  cbv beta iota. apply cwp_bind, cwp_lift. intros d _. apply cwp_bind, cwp_lift. intros digest _.
  cwp_step.
  match goal with |- cwp (let '(_, _) := ?m in _) _ _ =>
    destruct m as [[r run'] [t step']] eqn:M end.
  apply cwp_bind, cwp_lift. intros _ _. apply cwp_bind, cwp_lift. intros _ _. keep_tac E.
  apply cwp_ret. split_and!; [done|..].
  - res_inv. unfold finished. by match goal with P : run_status run = _ |- _ => rewrite P end.
  - cbn. destruct (ad_outcome (sd_body d)); injection M as M _.
    + rewrite <- (resume_id now run), M. done.
    + unfold run_fail in M. by rewrite <- (transition_id RunStatus.Failed now run), M.
Qed.

Lemma resume_recovery_final c ctl run st cp id now x y :
  on_db same_runs x y →
  cwp (tables (resume_with_recovery c ctl run st cp id now)) (resumes run x) y.
Proof.
  intros E. apply cwp_tables. unfold resume_with_recovery. apply wp_bind, wp_reads.
  { eauto 2 with reads. }
  intros directive. apply wp_bind, wp_query. intros consumed _. wp_step.
  destruct (run_resume now run) as [r run'] eqn:M. apply wp_bind, wp_lift. intros _ _.
  apply wp_ret. split_and!; [done|..].
  - res_inv. unfold finished. by match goal with P : run_status run = _ |- _ => rewrite P end.
  - cbn. by rewrite <- (resume_id now run), M.
Qed.

Lemma resume_final signer w e sh c now x :
  cwp (resume_run store signer w e sh c now) (λ _, on_db final x) x.
Proof.
  assert (on_db same_runs x x) as E by reflexivity. unfold resume_run. cbv zeta. keep_tac E.
  apply cwp_bind, cwp_tables, wp_load_run. intros run L I.
  match goal with |- cwp _ _ ?z => assert (on_db same_runs x z) as E1 by exact E end.
  rewrite E in L. clear E. do 3 keep_tac E1. cwp_step.
  apply cwp_bind, (cwp_mono _ (resumes run x)).
  - repeat case_match; try apply cwp_throw; [by apply resume_approval_final|].
    by apply resume_recovery_final.
  - intros re y' (E & F & Ir). keep_tac E.
    apply (cwp_final_update _ run); [done|by rewrite Ir, I|done|]. intros u. steps_tac.
    apply steps_conclude; [exact _|]. by apply moves_recovery_completed, _.
Qed.

Lemma cancel_final signer w e sh c now x :
  cwp (cancel_run store signer w e sh c now) (λ _, on_db final x) x.
Proof.
  assert (on_db same_runs x x) as E by reflexivity. unfold cancel_run. cbv zeta. keep_tac E.
  apply cwp_bind, cwp_tables, wp_load_run. intros run L I.
  match goal with |- cwp _ _ ?z => assert (on_db same_runs x z) as E1 by exact E end.
  rewrite E in L. clear E. keep_tac E1. do 2 cwp_step. keep_tac E1.
  destruct (RunStatus.is_terminal (run_status run)) eqn:T.
  - apply cwp_final_tail; [steps_tac|by apply same_runs_final].
  - keep_tac E1. unfold cancel_row. destruct (run_cancel now run) as [r cancelled] eqn:M.
    apply cwp_bind, cwp_tables, wp_bind, wp_lift. intros _ _. apply wp_bind, wp_update_run, wp_ret.
    apply cwp_final_tail; [steps_tac; apply steps_conclude; [exact _|moves_tac]|].
    apply (update_final _ run); [exact E1| |unfold finished; by destruct (run_status run)].
    rewrite <- I in L. rewrite <- L. f_equal.
    rewrite <- (transition_id RunStatus.Cancelled now run). unfold run_cancel in M. by rewrite M.
Qed.

Lemma command_final q signer s :
  final (cd_db (ct_db s)) (cd_db (ct_db (execute_operator_command store q signer s).2)).
Proof.
  unfold execute_operator_command, cbind at 1, lift at 1.
  destruct (operator_context store); [|done..]. cbv iota.
  apply (command_transaction_wp (on_db final)).
  set (x := ct_db s). assert (on_db same_runs x x) as E by reflexivity.
  keep_tac E. match goal with |- cwp (let '(_, _) := ?b in _) _ _ => destruct b as [shape w] end.
  cbv beta iota. apply cwp_bind, cwp_lift. intros digest _. apply cwp_bind, cwp_select.
  intros stored _. destruct stored as [[[e id] r]|].
  - apply cwp_final_tail; [steps_tac|by apply same_runs_final].
  - unfold execute_new. apply cwp_bind, cwp_lift. intros now _. cwp_step. cbv zeta.
    eapply (cwp_mono _ (λ _, on_db final z)).
    + destruct (cer_command q); [|apply cancel_final|apply resume_final|];
        (apply cwp_final_tail; [steps_tac|reflexivity]).
    + intros res y F. exact (transitivity (same_runs_final _ _ E) F).
Qed.

End commands.

(** ** What is refused *)

Section refused.
Context `{Externals} `{OperatorExternals}.

(** A permit is for the run of the control record. *)
Definition permits (run : Uuid) (x : result StoreError.t DispatchResult) : Prop :=
  match x with
  | Ok x => ∀ p, dx_permit x = Some p → dp_run_id p = run
  | _ => True
  end.

Lemma dispatch_now_permits store q c l r b now d :
  wp (dispatch_now store q c l r b now) (λ x _, permits (ctl_run_id c) x) d.
Proof.
  unfold dispatch_now, commit. do 4 (cbv beta zeta; wp_step).
  do 3 (apply wp_bind, wp_any; intros ? ?). apply wp_ret. intros p [= <-]. done.
Qed.

Lemma authorize_permits store q catalog c l r b now d :
  wp (authorize_dispatch store q catalog c l r b now) (λ x _, permits (ctl_run_id c) x) d.
Proof.
  unfold authorize_dispatch. case_match; [apply wp_bind, wp_any; intros; by apply wp_ret|].
  destruct (bq_replay q); [|apply dispatch_now_permits]. wp_step. wp_step.
  unfold claim_then_dispatch, commit. cbv zeta. apply wp_bind, wp_any. intros claimed d1.
  destruct claimed; apply wp_bind, wp_any; intros; try (by apply wp_ret).
  - apply dispatch_now_permits.
  - apply wp_bind, wp_any. intros. by apply wp_ret.
Qed.

(** A dispatch is authorized for a running run only. *)
Lemma begin_running store q s :
  returns (λ x, ∀ p, dx_permit x = Some p →
             ∃ r, db_runs (tx_db s) !! dp_run_id p = Some r ∧ run_status r = RunStatus.Running)
    (begin_dispatch store q) s.
Proof.
  assert (X : ∀ run x, (∃ r, db_runs (tx_db s) !! run = Some r ∧ run_status r = RunStatus.Running) →
     permits run x → match x with
       | Ok x => ∀ p, dx_permit x = Some p → ∃ r, db_runs (tx_db s) !! dp_run_id p = Some r
                                                ∧ run_status r = RunStatus.Running
       | _ => True end).
  { intros run [x| |] R P; [|done..]. intros p Ep. by rewrite (P p Ep). }
  unfold begin_dispatch. returns_tac.
  apply wp_bind, wp_lift. intros now _. apply wp_bind, wp_authority. intros c l _.
  apply wp_bind, wp_load_reservation. intros r _ _ _. wp_step.
  apply wp_bind, wp_load_budget. intros b _ _ _. apply wp_bind, wp_query. intros open _.
  apply wp_bind, wp_load_run. intros run L _. apply wp_bind, wp_query. intros pj _.
  apply wp_bind, wp_reads; [eauto 2 with reads|]. intros cp.
  apply wp_bind, wp_reads; [moves_tac|]. intros st. wp_step.
  assert (∃ r, db_runs (tx_db s) !! ctl_run_id c = Some r ∧ run_status r = RunStatus.Running) as R.
  { res_inv. by exists run. }
  destruct (bq_replay q) as [binding|].
  - wp_step. apply wp_bind, wp_reads; [eauto 2 with reads|]. intros [y|].
    + apply wp_bind, wp_any. intros. by apply wp_ret.
    + eapply wp_mono; [apply authorize_permits|]. intros x d'. by apply X.
  - wp_step. eapply wp_mono; [apply authorize_permits|]. intros x d'. by apply X.
Qed.

(** Budget is reserved for a running run only. *)
Lemma reserve_running store q s :
  returns (λ x, rx_outcome x = ReserveOutcome.Reserved →
             ∃ r, db_runs (tx_db s) !! br_run_id (rx_reservation x) = Some r
                  ∧ run_status r = RunStatus.Running)
    (reserve_aggregate_budget store q) s.
Proof.
  unfold reserve_aggregate_budget. returns_tac.
  apply wp_bind, wp_lift. intros now _. apply wp_bind, wp_authority. intros c l _.
  apply wp_bind, wp_query. intros existing _. destruct existing as [r|].
  { unfold exact_existing, commit. wp_tac. done. }
  apply wp_bind, wp_query. intros open _. case_match.
  { unfold reject. apply wp_bind, wp_any. intros. by apply wp_ret. }
  apply wp_bind, wp_load_run. intros run L _. wp_step. apply wp_bind, wp_query. intros pj _.
  apply wp_bind, wp_lift. intros _ _. wp_step.
  apply wp_bind, wp_reads; [eauto 2 with reads|]. intros cp. wp_step.
  do 2 (apply wp_bind, wp_reads; [eauto 2 with reads|]; intros ?).
  apply wp_bind, wp_load_budget. intros b _ _ _. case_match.
  { unfold reject. apply wp_bind, wp_any. intros. by apply wp_ret. }
  unfold reserve_now, commit. apply wp_bind, wp_lift. intros digest _. cbv zeta.
  apply wp_bind, wp_lift. intros _ _. apply wp_bind, wp_any. intros _ d1.
  apply wp_bind, wp_lift. intros reserved _. do 3 (apply wp_bind, wp_any; intros ? ?).
  apply wp_ret. intros _. cbn. res_inv. by exists run.
Qed.

Lemma control_step_final store op s :
  final (cd_db (ct_db s)) (cd_db (ct_db (control_step store op s))).
Proof.
  destruct op; cbn [control_step on_tables with_db ct_db cd_db].
  - apply (runtime_step_final store op {| tx_db := _; tx_uuids := _ |}).
  - apply same_runs_final, (ignores_authority store _ q {| tx_db := _; tx_uuids := _ |}).
  - apply same_runs_final, (ignores_register store _ q {| tx_db := _; tx_uuids := _ |}).
  - apply command_final.
Qed.

(** The tables that the runtime sees. *)
Definition runtime_tables (s : CommandTx) : Tx :=
  {| tx_db := cd_db (ct_db s); tx_uuids := ct_uuids s |}.

(** C11: the end of a run is final.  Once a run has succeeded or has been cancelled, then
    after whatever runtimes, sessions and operators call its row is the same, no
    dispatch is authorized for it and no budget is reserved for it.  So a cancellation
    holds even against a runtime that still has the lease of the run. *)
Theorem finished_run_final (calls : list (option OperatorStoreContext * control_op))
    (s : CommandTx) (run : Uuid) (r : AgentRun)
    (L : db_runs (cd_db (ct_db s)) !! run = Some r) (F : finished r = true) :
  let s' := control_run calls s in
  db_runs (cd_db (ct_db s')) !! run = Some r
  ∧ (∀ store q, returns (λ x, ∀ p, dx_permit x = Some p → dp_run_id p ≠ run)
                  (begin_dispatch store q) (runtime_tables s'))
  ∧ (∀ store q, returns (λ x, rx_outcome x = ReserveOutcome.Reserved →
                              br_run_id (rx_reservation x) ≠ run)
                  (reserve_aggregate_budget store q) (runtime_tables s')).
Proof.
  intros s'. pose proof (control_run_rel final control_step_final calls s run r L F) as L'.
  fold s' in L'. split; [done|].
  assert (N : ∀ r', db_runs (tx_db (runtime_tables s')) !! run = Some r' →
                    run_status r' ≠ RunStatus.Running).
  { intros r' X. cbn in X. rewrite L' in X. injection X as <-. unfold finished in F.
    by destruct (run_status r). }
  split; intros store q.
  - pose proof (begin_running store q (runtime_tables s')) as B. unfold returns in *.
    case_match; [|done..]. intros p Ep <-. destruct (B p Ep) as (r' & X & Y). by eapply N.
  - pose proof (reserve_running store q (runtime_tables s')) as B. unfold returns in *.
    case_match; [|done..]. intros O E. destruct (B O) as (r' & X & Y). rewrite E in X. by eapply N.
Qed.

End refused.
