(* ===== verification/GovernedEngine.v ===== *)
(** * Governed execution

    The prepared path of [crates/proof-kernel/src/executor/engine.rs]:
    [execute_evidenced_unpersisted], which runs one permit-authorized handler without a
    store call and returns the result to commit, with the registration of governed
    handlers.  The state of a call is what the code reaches through shared references:
    the environment (the trait [OperatorControlEnvironment], a record of calls on its own
    state), the two sets of consumed permits and tokens, the custody that the plan's
    authorization borrows, and the world the handler acts on.

    The call is in two parts: [enter], every check up to and including the consumption of
    the permit, and [finish], the handler and the evidence of its result.

    [governed_effect_once] is the safety property of the consumed sets,
    [governed_result_sound] what a returned result is evidence of, and
    [governed_result_accepted] the composition with the store: a result of this path
    fails none of the checks of [commit_runtime] that concern the result itself. *)

From S2P Require Import Prelude RustStr Externals Delegation Json Canonical Serialized Evidence.
From S2P Require Import OperatorCommon StrictDigest Registry Approval AgentRun ExecutionStore CanonicalNumber.
From S2P Require Import OperatorEnvironment Engine EngineProofs Durable Custody RuntimeStore RuntimeCommitOp.
From stdpp Require Import options.

Inductive GovernedEffectPolicy : Type := Ineligible | NoDurableOrExternalEffect.

#[export] Instance GovernedEffectPolicy_eq_dec : EqDecision GovernedEffectPolicy.
Proof. solve_decision. Defined.

(** The handler trait with its governed methods. *)
Record GovernedHandler (W : Type) := {
  gh_handler : OperationHandler W;
  gh_governed_effect_policy_for : string → GovernedEffectPolicy;
  gh_execute_governed_versioned :
    string → json → ExecutionContext → call W ExecutionError.t PreparedHandlerOutput;
}.

Arguments gh_handler {W}.
Arguments gh_governed_effect_policy_for {W}.
Arguments gh_execute_governed_versioned {W}.

(** The provided methods of the trait: a handler that was not written for governed
    execution. *)
Definition default_governed {W} (h : OperationHandler W) : GovernedHandler W :=
  {| gh_handler := h; gh_governed_effect_policy_for := λ _, Ineligible;
     gh_execute_governed_versioned := λ _ _ _,
       throw (handler_failed "handler is ineligible for governed execution") |}.

Record GovernedEngine (S W C : Type) := {
  gv_engine : ExecutionEngine S W;
  gv_governed_handlers : gmap (string * string) (RegisteredGovernedAdapter * GovernedHandler W);
  gv_environment : option (OperatorControlEnvironment C);
  gv_catalog : option OperatorSchemaCatalog;
}.

Arguments gv_engine {S W C}.
Arguments gv_governed_handlers {S W C}.
Arguments gv_environment {S W C}.
Arguments gv_catalog {S W C}.

Record GovernedState (W C : Type) := {
  gs_environment : C;
  gs_permits : gset Uuid;
  gs_tokens : gset ControlDigest;
  gs_custody : DispatchTokenCustody;
  gs_world : W;
}.

Arguments gs_environment {W C}.
Arguments gs_permits {W C}.
Arguments gs_tokens {W C}.
Arguments gs_custody {W C}.
Arguments gs_world {W C}.

(** The plan without its authorization, of which [plan_alive] is the liveness flag of the
    lease. *)
Record GovernedExecutionPlan := {
  plan_alive : bool;
  plan_intent : DispatchIntent;
  plan_run_before : AgentRun;
  plan_step_before : AgentRunStep;
  plan_checkpoint_tail : option AgentCheckpointTail;
  plan_replay_claim : option ExecutionReplayClaim;
}.

(** What the first part of a call gives the second. *)
Record Entered (W : Type) := {
  en_registered : RegisteredGovernedAdapter;
  en_handler : GovernedHandler W;
  en_catalog : OperatorSchemaCatalog;
  en_input_digest : ContentDigest;
  en_context_id : Uuid;
  en_proof_id : Uuid;
  en_boundary_now : DateTime;
}.

Arguments en_registered {W}.
Arguments en_handler {W}.
Arguments en_catalog {W}.
Arguments en_input_digest {W}.
Arguments en_context_id {W}.
Arguments en_proof_id {W}.
Arguments en_boundary_now {W}.

(** ** Construction and registration *)

Section registration.
Context {S W C : Type}.
Implicit Types e : GovernedEngine S W C.

Definition governed_new (engine : ExecutionEngine S W) : GovernedEngine S W C :=
  {| gv_engine := engine; gv_governed_handlers := ∅; gv_environment := None;
     gv_catalog := None |}.

Definition with_operator_control (environment : OperatorControlEnvironment C)
    (catalog : OperatorSchemaCatalog) e : GovernedEngine S W C :=
  {| gv_engine := gv_engine e; gv_governed_handlers := gv_governed_handlers e;
     gv_environment := Some environment; gv_catalog := Some catalog |}.

(** [address] is where the registration's seal is allocated. *)
Definition register_governed_handler (address : N) (registration : GovernedAdapterRegistration)
    (factory : GovernedAdapterReporter → GovernedHandler W)
    : call (GovernedEngine S W C) ExecutionError.t () := λ e,
  let '(reporter, registered) := mint address registration in
  let handler := factory reporter in
  if negb (bool_decide (h_operation (gh_handler handler) = seal_operation registered))
     || negb (bool_decide (gh_governed_effect_policy_for handler (seal_version registered)
                           = NoDurableOrExternalEffect))
     || is_none (find (e_registry (gv_engine e)) (seal_operation registered)
                   (seal_version registered))
  then (Err (handler_failed "governed handler registration does not match its adapter"), e)
  else (Ok (),
    {| gv_engine := register_handler (gh_handler handler) (gv_engine e);
       gv_governed_handlers :=
         <[(seal_operation registered, seal_version registered) := (registered, handler)]>
           (gv_governed_handlers e);
       gv_environment := gv_environment e; gv_catalog := gv_catalog e |}).

End registration.

Definition validate_input (catalog : OperatorSchemaCatalog) (operation version : string)
    (value : json) : bool :=
  match sc_operations catalog !! (operation, version) with
  | Some validators => co_input validators value
  | None => false
  end.

(** ** Entering the boundary *)

Section governed.
Context {S W C : Type} `{Externals} `{OperatorExternals}.
Implicit Types (e : GovernedEngine S W C) (context : ExecutionContext).
Implicit Types (plan : GovernedExecutionPlan).

Notation governed := (call (GovernedState W C) ExecutionError.t).

Definition ask {A} (c : call C OperatorEnvironmentError A) (f : string → ExecutionError.t)
    : governed A := λ s,
  let '(r, environment) := c (gs_environment s) in
  (map_err (λ error, f (environment_error_text error)) r,
   {| gs_environment := environment; gs_permits := gs_permits s; gs_tokens := gs_tokens s;
      gs_custody := gs_custody s; gs_world := gs_world s |}).

Definition on_custody {A} (c : call DispatchTokenCustody ExecutionError.t A) : governed A := λ s,
  let '(r, custody) := c (gs_custody s) in
  (r, {| gs_environment := gs_environment s; gs_permits := gs_permits s;
         gs_tokens := gs_tokens s; gs_custody := custody; gs_world := gs_world s |}).

Definition on_handler {A} (c : call W ExecutionError.t A) : governed A := λ s,
  let '(r, world) := c (gs_world s) in
  (r, {| gs_environment := gs_environment s; gs_permits := gs_permits s;
         gs_tokens := gs_tokens s; gs_custody := gs_custody s; gs_world := world |}).

(** The accessors of [DispatchAuthorization]. *)
Definition authorized_permit : governed DispatchPermit := λ s,
  (expect (dt_permit (gs_custody s)), s).

Definition authorized_begin : governed DispatchBeginBinding := λ s,
  (expect (dt_begin (gs_custody s)), s).

Definition check_delegation (operation domain : string) context (now : DateTime)
    : result ExecutionError.t () :=
  match ctx_delegation_id context, ctx_delegation_chain context with
  | None, None => Ok ()
  | Some id, Some chain =>
      let? _ := map_err ExecutionError.Delegation (validate chain (ctx_actor context) now) in
      bail ExecutionError.ScopeViolation
        when negb (bool_decide (delegation_id <$> last (grants chain) = Some id))
             || existsb (λ grant, negb (scope_allows_operation (scope grant) operation domain))
                  (grants chain);
      Ok ()
  | _, _ => Err (ExecutionError.Delegation EmptyChain)
  end.

Definition admit_context e (entry : RegistryEntry) (operation : string) context plan
    (trusted_now : DateTime) : result ExecutionError.t () :=
  bail ExecutionError.Sunset when bool_decide (re_status entry = Sunset);
  bail ExecutionError.HumanOnly
    when bool_decide (re_governance entry = HumanOnly)
         && negb (bool_decide (ctx_principal_kind context = Some Human));
  bail handler_failed "governed actor mismatch"
    when negb (bool_decide (ctx_actor context = run_actor (plan_run_before plan)))
         || negb (bool_decide (ctx_actor context = kp_principal_id (e_keypair (gv_engine e))));
  check_delegation operation (re_domain entry) context trusted_now.

Definition ineligible (handler : GovernedHandler W) (registered : RegisteredGovernedAdapter)
    (operation version : string) plan : bool :=
  negb (bool_decide (h_operation (gh_handler handler) = operation))
  || negb (bool_decide (gh_governed_effect_policy_for handler version
                        = NoDurableOrExternalEffect))
  || negb (matches_intent registered (plan_intent plan)).

(** The run and the step that the plan starts from. *)
Definition rows_startable plan (trusted_now : DateTime) : bool :=
  let run := plan_run_before plan in
  let step := plan_step_before plan in
  bool_decide (run_status run = RunStatus.Running)
  && bool_decide (step_status step = StepStatus.Running)
  && is_none (run_completed_at run) && is_none (step_approval_request_id step)
  && is_none (step_output step) && is_none (step_proof step) && is_none (step_error step)
  && is_none (step_completed_at step)
  && (run_revision run <=? MAX_SAFE_INTEGER)%N && (step_revision step <=? MAX_SAFE_INTEGER)%N
  && uuid_is_v7 (run_id run) && uuid_is_v7 (step_id step)
  && negb (any_not_v7 [step_retry_of step])
  && (run_created_at run <=? run_updated_at run)%Z
  && (step_created_at step <=? step_updated_at step)%Z
  && (run_updated_at run <=? trusted_now)%Z && (step_updated_at step <=? trusted_now)%Z
  && is_some_and (step_started_at step) (λ started,
       (step_created_at step <=? started)%Z && (started <=? trusted_now)%Z).

Definition plan_matches (operation version : string) (input_digest : ContentDigest)
    (argument_digest intent_digest call_digest : ControlDigest) (intent : DispatchIntent)
    (permit : DispatchPermit) plan (trusted_now : DateTime) : bool :=
  let run := plan_run_before plan in
  let step := plan_step_before plan in
  bool_decide (intent = plan_intent plan)
  && bool_decide (in_operation (plan_intent plan) = operation)
  && bool_decide (in_version (plan_intent plan) = version)
  && bool_decide (in_argument_digest (plan_intent plan) = argument_digest)
  && bool_decide (dp_run_id permit = run_id run)
  && bool_decide (step_run_id step = run_id run)
  && bool_decide (step_operation step = operation) && bool_decide (step_version step = version)
  && bool_decide (step_input_digest step = input_digest)
  && rows_startable plan trusted_now
  && is_ok (DispatchPermit_validate permit)
  && bool_decide (dp_intent_digest permit = intent_digest)
  && bool_decide (dp_call_digest permit = call_digest)
  && (dp_authorized_at permit <=? trusted_now)%Z
  && (run_updated_at run <=? dp_authorized_at permit)%Z
  && (step_updated_at step <=? dp_authorized_at permit)%Z.

Definition check_replay (handler : GovernedHandler W) (operation version : string)
    (input_digest : ContentDigest) context plan (permit : DispatchPermit)
    (begin : DispatchBeginBinding) (checkpoint : AgentCheckpointTail) (trusted_now : DateTime)
    : result ExecutionError.t () :=
  match h_idempotency_policy_for (gh_handler handler) version with
  | NoReplay =>
      bail handler_failed "non-replay execution carried replay authority"
        when is_some (plan_replay_claim plan) || is_some (bb_replay begin)
             || is_some (bb_replay_claim_token begin)
             || is_some (dp_replay_binding_digest permit);
      Ok ()
  | RequiredUuidV7ExactReplay =>
      let mismatch := handler_failed "replay claim does not match governed execution" in
      let? claim := ok_or (plan_replay_claim plan)
                      (handler_failed "required replay claim is missing") in
      let? binding := ok_or (bb_replay begin)
                        (handler_failed "required replay binding is missing") in
      let? _ := map_err (λ _, handler_failed "replay binding is invalid")
                  (ReplayClaimBinding_validate binding) in
      bail mismatch
        when negb (bool_decide (rb_workspace_id binding = bb_workspace_id begin))
             || negb (bool_decide (rb_run_id binding = run_id (plan_run_before plan)))
             || negb (bool_decide (rb_step_id binding = step_id (plan_step_before plan)))
             || negb (bool_decide (rb_checkpoint_id binding = tail_checkpoint_id checkpoint))
             || negb (rb_checkpoint_sequence binding =? tail_sequence checkpoint)%N
             || negb (bool_decide (rb_checkpoint_digest binding = tail_state_digest checkpoint))
             || negb (bool_decide (rb_operation binding = operation))
             || negb (bool_decide (rb_version binding = version))
             || negb (bool_decide (rb_idempotency_key binding
                                   = rk_idempotency_key (rc_key claim)))
             || negb (bool_decide (rb_input_digest binding = input_digest))
             || negb (bool_decide (rb_claimed_by binding = ctx_actor context));
      let? recomputed := ok_or (recomputed_binding_digest binding)
                           (handler_failed "replay binding digest is invalid") in
      bail mismatch
        when negb (bool_decide (recomputed = rb_binding_digest binding))
             || negb (bool_decide (rk_operation (rc_key claim) = operation))
             || negb (bool_decide (rk_version (rc_key claim) = version))
             || negb (bool_decide (rc_input_digest claim = input_digest))
             || negb (bool_decide (rc_claimed_by claim = ctx_actor context))
             || negb (bool_decide (bb_replay_claim_token begin = Some (rc_claim_token claim)))
             || negb (uuid_is_v7 (rk_idempotency_key (rc_key claim)))
             || negb (uuid_is_v7 (rc_claim_token claim))
             || (trusted_now <? rc_claimed_at claim)%Z
             || negb (bool_decide (dp_replay_binding_digest permit
                                   = Some (rb_binding_digest binding)));
      Ok ()
  end.

(** Marks the permit and its token as consumed, under both locks. *)
Definition consume_permit (permit : DispatchPermit) : governed () := λ s,
  if bool_decide (dp_permit_id permit ∈ gs_permits s)
     || bool_decide (dp_dispatch_token_digest permit ∈ gs_tokens s)
  then (Err (handler_failed "dispatch permit was already consumed"), s)
  else (Ok (),
    {| gs_environment := gs_environment s;
       gs_permits := {[dp_permit_id permit]} ∪ gs_permits s;
       gs_tokens := {[dp_dispatch_token_digest permit]} ∪ gs_tokens s;
       gs_custody := gs_custody s; gs_world := gs_world s |}).

Definition evidence_error (error : CanonicalizationError) : ExecutionError.t :=
  evidence_failed (CanonicalizationError_to_string error).

Definition enter e (operation version : string) (input : json) context plan
    : governed (Entered W) :=
  let! entry := lift (ok_or (find (e_registry (gv_engine e)) operation version)
                        (ExecutionError.OperationNotFound operation version)) in
  let! environment := lift (ok_or (gv_environment e)
                        (evidence_failed "operator environment is not configured")) in
  let! catalog := lift (ok_or (gv_catalog e)
                    (evidence_failed "operator schema catalog is not configured")) in
  let! trusted_now := ask (env_trusted_utc_now environment) evidence_failed in
  let! _ := lift (admit_context e entry operation context plan trusted_now) in
  stop evidence_failed "governed input failed schema validation"
    when negb (validate_input catalog operation version input);
  let! canonical := lift (map_err evidence_error (canonicalize input)) in
  let input_digest := digest OperationInput canonical in
  let argument_digest := control_digest "Proof-Operator-Dispatch-Argument-v1" canonical in
  let! found := lift (ok_or (gv_governed_handlers e !! (operation, version))
                  (handler_failed "handler has no governed adapter registration")) in
  let '(registered, handler) := found in
  stop handler_failed "handler is ineligible for governed execution"
    when ineligible handler registered operation version plan;
  let! _ := lift (map_err (λ _, handler_failed "dispatch intent is invalid")
                    (DispatchIntent_validate (plan_intent plan))) in
  let! permit := authorized_permit in
  let! begin := authorized_begin in
  let! intent_digest := lift (ok_or (intent_digest_of (plan_intent plan))
                          (evidence_failed unwritable_error)) in
  let! call_digest := lift (ok_or (call_digest_of (plan_intent plan))
                        (evidence_failed unwritable_error)) in
  stop handler_failed "governed execution plan does not match its permit"
    when negb (plan_matches operation version input_digest argument_digest intent_digest
                 call_digest (bb_intent begin) permit plan trusted_now);
  let! checkpoint := lift (ok_or (plan_checkpoint_tail plan)
                       (handler_failed "governed execution requires a checkpoint tail")) in
  stop handler_failed "governed checkpoint is invalid"
    when negb (uuid_is_v7 (tail_checkpoint_id checkpoint));
  let! _ := lift (check_replay handler operation version input_digest context plan permit begin
                    checkpoint trusted_now) in
  let! context_id := ask (env_new_uuid_v7 environment) evidence_failed in
  let! proof_id := ask (env_new_uuid_v7 environment) evidence_failed in
  stop evidence_failed "operator environment returned a non-UUIDv7 identifier"
    when negb (uuid_is_v7 context_id) || negb (uuid_is_v7 proof_id);
  let! boundary_now := ask (env_trusted_utc_now environment) handler_failed in
  let! monotonic_now := ask (env_monotonic_millis environment) handler_failed in
  stop handler_failed "governed execution chronology is invalid"
    when (boundary_now <? trusted_now)%Z || (boundary_now <? ctx_timestamp context)%Z;
  stop handler_failed "governed handler registration changed before boundary entry"
    when ineligible handler registered operation version plan;
  let! _ := consume_permit permit in
  let! _ := on_custody (consume_effect (plan_alive plan) boundary_now monotonic_now) in
  ret {| en_registered := registered; en_handler := handler; en_catalog := catalog;
         en_input_digest := input_digest; en_context_id := context_id; en_proof_id := proof_id;
         en_boundary_now := boundary_now |}.

(** ** The handler and its evidence *)

(** The result of a method of a run or a step on a copy of it. *)
Definition after {A} (c : call A AgentRunError.t ()) (a : A) : result ExecutionError.t A :=
  let '(r, a') := c a in
  let? _ := map_err (λ error, handler_failed (AgentRunError.to_string error)) r in
  Ok a'.

Definition at_timestamp context (now : DateTime) : ExecutionContext :=
  {| ctx_actor := ctx_actor context; ctx_principal_kind := ctx_principal_kind context;
     ctx_delegation_id := ctx_delegation_id context;
     ctx_delegation_chain := ctx_delegation_chain context;
     ctx_workspace_path := ctx_workspace_path context; ctx_timestamp := now |}.

(** The result of a handler's output. *)
Definition prepare e (operation version : string) context plan (x : Entered W)
    (handled : PreparedHandlerOutput) : result ExecutionError.t PreparedGovernedExecution :=
  let now := en_boundary_now x in
  let output := ho_output handled in
  bail handler_failed "governed handler returned an effectful mutation"
    when negb (bool_decide (ho_mutation handled = NoEffect));
  bail evidence_failed "governed output failed schema validation"
    when negb (validate_output (en_catalog x) operation version output);
  let? canonical := map_err evidence_error (canonicalize output) in
  let output_digest := digest OperationOutput canonical in
  let? usage := from_report (plan_intent plan) (en_registered x) (ho_boundary_usage handled)
                  (en_input_digest x) output_digest in
  let? proof := map_err (λ error, evidence_failed (ProofError_to_string error))
                  (Proof_sign (Proof_new (en_proof_id x) (ctx_actor context)
                                 (ctx_delegation_id context) (operation +:+ "::" +:+ version)
                                 (en_input_digest x) output_digest now)
                     (e_keypair (gv_engine e))) in
  let? step_after := after (step_succeed output proof now) (plan_step_before plan) in
  let run := plan_run_before plan in
  let? run_after := if bool_decide (run_mode run = OneShot) then after (run_succeed now) run
                    else Ok run in
  Ok {| ge_output := output; ge_execution_context_id := en_context_id x;
        ge_context := at_timestamp context now; ge_proof := proof; ge_run_after := run_after;
        ge_step_after := step_after; ge_checkpoint := None; ge_events := [];
        ge_evaluation := None; ge_approval := None; ge_handler_mutation := NoEffect;
        ge_replay := from_option Complete NoTransition (plan_replay_claim plan);
        ge_usage := usage |}.

Definition finish e (operation version : string) (input : json) context plan (x : Entered W)
    : governed PreparedGovernedExecution :=
  let! handled := on_handler
    (gh_execute_governed_versioned (en_handler x) version input context) in
  lift (prepare e operation version context plan x handled).

Definition execute_evidenced_unpersisted e (operation version : string) (input : json) context
    plan : governed PreparedGovernedExecution :=
  let! x := enter e operation version input context plan in
  finish e operation version input context plan x.

End governed.

(** ** What a call that entered the boundary has established *)

Section entered.
Context {S W C : Type} `{Externals} `{OperatorExternals}.
Implicit Types (e : GovernedEngine S W C) (context : ExecutionContext).
Implicit Types (plan : GovernedExecutionPlan) (s : GovernedState W C).

(** The custody after its effect is consumed. *)
Definition consumed (c : DispatchTokenCustody) : DispatchTokenCustody :=
  {| dt_token := dt_token c; dt_begin := dt_begin c; dt_permit := dt_permit c;
     dt_monotonic_deadline := dt_monotonic_deadline c;
     dt_authorization_state := dt_authorization_state c; dt_effect_state := 1;
     dt_settlement_state := dt_settlement_state c |}.

Record entered e (operation version : string) (input : json) context plan s
    (permit : DispatchPermit) (begin : DispatchBeginBinding) (now : DateTime)
    (x : Entered W) s' : Prop := {
  et_catalog : gv_catalog e = Some (en_catalog x);
  et_admitted : ∃ entry, find (e_registry (gv_engine e)) operation version = Some entry
                  ∧ admit_context e entry operation context plan now = Ok ();
  et_input : ∃ canonical, canonicalize input = Ok canonical
               ∧ en_input_digest x = digest OperationInput canonical;
  et_handler : gv_governed_handlers e !! (operation, version)
               = Some (en_registered x, en_handler x);
  et_eligible : ineligible (en_handler x) (en_registered x) operation version plan = false;
  et_intent : DispatchIntent_validate (plan_intent plan) = Ok ();
  et_permit : dt_permit (gs_custody s) = Some permit;
  et_begin : dt_begin (gs_custody s) = Some begin;
  et_plan : ∃ argument_digest intent_digest call_digest,
      plan_matches operation version (en_input_digest x) argument_digest intent_digest
        call_digest (bb_intent begin) permit plan now = true;
  et_replay : ∃ checkpoint, plan_checkpoint_tail plan = Some checkpoint
      ∧ check_replay (en_handler x) operation version (en_input_digest x) context plan permit
          begin checkpoint now = Ok ();
  et_context_id : uuid_is_v7 (en_context_id x) = true;
  et_proof_id : uuid_is_v7 (en_proof_id x) = true;
  et_now : (now ≤ en_boundary_now x)%Z;
  et_timestamp : (ctx_timestamp context ≤ en_boundary_now x)%Z;
  et_deadline : (en_boundary_now x < dp_budget_deadline_at permit)%Z;
  et_alive : plan_alive plan = true;
  et_fresh : dp_permit_id permit ∉ gs_permits s;
  et_fresh_token : dp_dispatch_token_digest permit ∉ gs_tokens s;
  et_permits : gs_permits s' = {[dp_permit_id permit]} ∪ gs_permits s;
  et_tokens : gs_tokens s' = {[dp_dispatch_token_digest permit]} ∪ gs_tokens s;
  et_world : gs_world s' = gs_world s;
  et_effect : dt_effect_state (gs_custody s) = 0%N;
  et_custody : gs_custody s' = consumed (gs_custody s);
}.

Definition set_environment (environment : C) s : GovernedState W C :=
  {| gs_environment := environment; gs_permits := gs_permits s; gs_tokens := gs_tokens s;
     gs_custody := gs_custody s; gs_world := gs_world s |}.

Lemma ask_Ok {A} (c : call C OperatorEnvironmentError A) f s a s' :
  ask c f s = (Ok a, s') → ∃ environment, s' = set_environment environment s.
Proof. unfold ask. destruct (c _) as [[] environment]; intros [= <- <-]; eauto. Qed.

Lemma authorized_permit_Ok s p s' :
  authorized_permit s = (Ok p, s') → dt_permit (gs_custody s) = Some p ∧ s' = s.
Proof. unfold authorized_permit. intros [= E <-]. by apply expect_Ok in E. Qed.

Lemma authorized_begin_Ok s b s' :
  authorized_begin s = (Ok b, s') → dt_begin (gs_custody s) = Some b ∧ s' = s.
Proof. unfold authorized_begin. intros [= E <-]. by apply expect_Ok in E. Qed.

Lemma consume_permit_Ok permit s u s' :
  consume_permit permit s = (Ok u, s') →
  dp_permit_id permit ∉ gs_permits s ∧ dp_dispatch_token_digest permit ∉ gs_tokens s
  ∧ s' = {| gs_environment := gs_environment s;
            gs_permits := {[dp_permit_id permit]} ∪ gs_permits s;
            gs_tokens := {[dp_dispatch_token_digest permit]} ∪ gs_tokens s;
            gs_custody := gs_custody s; gs_world := gs_world s |}.
Proof.
  unfold consume_permit. do 2 case_bool_decide; cbn [orb]; try done. intros [= _ <-]. done.
Qed.

Lemma consume_effect_Ok alive now monotonic c u c' :
  consume_effect alive now monotonic c = (Ok u, c') →
  alive = true ∧ dt_effect_state c = 0%N ∧ c' = consumed c
  ∧ ∃ permit, dt_permit c = Some permit ∧ (now < dp_budget_deadline_at permit)%Z.
Proof.
  unfold consume_effect. intros E. call_inv.
  match goal with E : context [exchange_0_1 ?n] |- _ =>
    unfold exchange_0_1 in E; destruct (n =? 0)%N eqn:Z; simplify_eq end.
  apply N.eqb_eq in Z. split_and!; try done. eexists. split; [done|]. lia.
Qed.

Lemma on_custody_Ok {A} (c : call DispatchTokenCustody ExecutionError.t A) s a s' :
  on_custody c s = (Ok a, s') →
  ∃ custody, c (gs_custody s) = (Ok a, custody)
    ∧ s' = {| gs_environment := gs_environment s; gs_permits := gs_permits s;
              gs_tokens := gs_tokens s; gs_custody := custody; gs_world := gs_world s |}.
Proof. unfold on_custody. destruct (c _) as [r custody]. intros [= -> <-]. eauto. Qed.

Ltac governed_step :=
  match goal with
  | E : ask _ _ _ = (Ok _, _) |- _ => apply ask_Ok in E as [? ->]
  | E : authorized_permit _ = (Ok _, _) |- _ => apply authorized_permit_Ok in E as [? ->]
  | E : authorized_begin _ = (Ok _, _) |- _ => apply authorized_begin_Ok in E as [? ->]
  | E : consume_permit _ _ = (Ok _, _) |- _ => apply consume_permit_Ok in E as (? & ? & ->)
  | E : on_custody _ _ = (Ok _, _) |- _ => apply on_custody_Ok in E as (? & E & ->)
  | E : consume_effect _ _ _ _ = (Ok _, _) |- _ =>
      apply consume_effect_Ok in E as (? & ? & -> & ? & ? & ?)
  | E : (let '(_, _) := ?p in _) _ = (Ok _, _) |- _ => destruct p
  end.

Lemma enter_Ok e operation version input context plan s x s' :
  enter e operation version input context plan s = (Ok x, s') →
  ∃ permit begin now, entered e operation version input context plan s permit begin now x s'.
Proof.
  unfold enter. intros E. repeat (call_inv; governed_step). call_inv.
  cbn [gs_custody gs_permits gs_tokens gs_world gs_environment set_environment] in *.
  simplify_eq. do 3 eexists. split; cbn [en_catalog en_input_digest en_registered en_handler
    en_context_id en_proof_id en_boundary_now]; eauto; lia.
Qed.

End entered.

(** ** One effect per permit *)

Section once.
Context {S W C : Type} `{Externals} `{OperatorExternals}.
Implicit Types (e : GovernedEngine S W C) (s : GovernedState W C).

Notation governed := (call (GovernedState W C) ExecutionError.t).

(** The consumed sets only grow. *)
Definition grows s s' : Prop := gs_permits s ⊆ gs_permits s' ∧ gs_tokens s ⊆ gs_tokens s'.

(** What every outcome of a call guarantees: the sets grow, and the world is as before. *)
Definition outside s s' : Prop := grows s s' ∧ gs_world s' = gs_world s.

#[local] Instance outside_preorder : PreOrder outside.
Proof.
  split.
  - by intros s.
  - intros s1 s2 s3 [[? ?] E1] [[? ?] E2]. split; [split; set_solver|congruence].
Qed.

Definition stays_outside {A} (c : governed A) : Prop := ∀ s, outside s (c s).2.

Lemma outside_bind {A B} (c : governed A) (k : A → governed B) :
  stays_outside c → (∀ a, stays_outside (k a)) → stays_outside (cbind c k).
Proof.
  intros Hc Hk s. unfold cbind. specialize (Hc s). destruct (c s) as [[a|error|] s1]; try done.
  etransitivity; [exact Hc|apply Hk].
Qed.

Lemma outside_stop {A} (b : bool) error (k : governed A) :
  stays_outside k → stays_outside (if b then throw error else k).
Proof. intros Hk. by destruct b. Qed.

Lemma outside_ask {A} (c : call C OperatorEnvironmentError A) f : stays_outside (ask (W := W) c f).
Proof. intros s. unfold ask. by destruct (c _). Qed.

Lemma outside_on_custody {A} (c : call DispatchTokenCustody ExecutionError.t A) :
  stays_outside (on_custody c).
Proof. intros s. unfold on_custody. by destruct (c _). Qed.

Lemma outside_consume_permit permit : stays_outside (consume_permit permit).
Proof.
  intros s. unfold consume_permit. destruct (_ || _); [done|].
  split; [|done]. split; cbn; set_solver.
Qed.

Lemma enter_outside e operation version input context plan :
  stays_outside (enter e operation version input context plan).
Proof.
  unfold enter. repeat first
    [ apply outside_bind; [|intros ?] | apply outside_stop | apply outside_ask
    | apply outside_on_custody | apply outside_consume_permit | by intros s
    | case_match ].
Qed.

Lemma finish_grows e operation version input context plan x s :
  grows s (finish e operation version input context plan x s).2.
Proof.
  unfold finish, cbind, on_handler, lift. destruct (gh_execute_governed_versioned _ _ _ _ _) as [[] w];
    by split.
Qed.

Lemma execute_grows e operation version input context plan s :
  grows s (execute_evidenced_unpersisted e operation version input context plan s).2.
Proof.
  unfold execute_evidenced_unpersisted, cbind.
  destruct (enter_outside e operation version input context plan s) as [[? ?] _].
  destruct (enter _ _ _ _ _ _ s) as [[x|error|] s1]; cbn [snd] in *; [|done..].
  destruct (finish_grows e operation version input context plan x s1). split; set_solver.
Qed.

(** A call on the engine; its plan borrows the custody [gq_custody].  Handlers may be
    registered between calls, so each call names the engine as it is then. *)
Record governed_request := {
  gq_engine : GovernedEngine S W C;
  gq_operation : string;
  gq_version : string;
  gq_input : json;
  gq_context : ExecutionContext;
  gq_plan : GovernedExecutionPlan;
  gq_custody : DispatchTokenCustody;
}.

Definition with_custody (c : DispatchTokenCustody) s : GovernedState W C :=
  {| gs_environment := gs_environment s; gs_permits := gs_permits s; gs_tokens := gs_tokens s;
     gs_custody := c; gs_world := gs_world s |}.

Definition governed_enter (q : governed_request) : governed (Entered W) :=
  enter (gq_engine q) (gq_operation q) (gq_version q) (gq_input q) (gq_context q) (gq_plan q).

Definition governed_execute (q : governed_request) : governed PreparedGovernedExecution :=
  execute_evidenced_unpersisted (gq_engine q) (gq_operation q) (gq_version q) (gq_input q)
    (gq_context q) (gq_plan q).

(** The permits of the calls that reach their handler. *)
Fixpoint handled (requests : list governed_request) s : list DispatchPermit :=
  match requests with
  | [] => []
  | q :: requests' =>
      let s0 := with_custody (gq_custody q) s in
      match (governed_enter q s0).1, dt_permit (gq_custody q) with
      | Ok _, Some permit => [permit]
      | _, _ => []
      end ++ handled requests' (governed_execute q s0).2
  end.

Lemma handled_fresh requests s :
  Forall (λ p, dp_permit_id p ∉ gs_permits s ∧ dp_dispatch_token_digest p ∉ gs_tokens s)
    (handled requests s)
  ∧ NoDup (dp_permit_id <$> handled requests s)
  ∧ NoDup (dp_dispatch_token_digest <$> handled requests s).
Proof.
  revert s. induction requests as [|q requests IH]; intros s; cbn [handled].
  { split_and!; constructor. }
  set (s0 := with_custody (gq_custody q) s).
  destruct (IH (governed_execute q s0).2) as (Hf & Hp & Ht). clear IH.
  destruct (execute_grows (gq_engine q) (gq_operation q) (gq_version q) (gq_input q)
              (gq_context q) (gq_plan q) s0) as [Gp Gt].
  fold (governed_execute q) in Gp, Gt.
  assert (Forall (λ p, dp_permit_id p ∉ gs_permits s ∧ dp_dispatch_token_digest p ∉ gs_tokens s)
            (handled requests (governed_execute q s0).2)) as Hf'.
  { eapply Forall_impl; [exact Hf|]. cbn. intros p [? ?]. subst s0; cbn in *; set_solver. }
  destruct (governed_enter q s0) as [[x|error|] s1] eqn:E; [|by cbn..].
  destruct (enter_Ok _ _ _ _ _ _ _ _ _ E) as (permit & begin & now & En).
  pose proof (et_permit _ _ _ _ _ _ _ _ _ _ _ _ En) as Ep. cbn in Ep.
  assert (grows s1 (governed_execute q s0).2) as [Gp1 Gt1].
  { unfold governed_execute, execute_evidenced_unpersisted, cbind.
    unfold governed_enter in E. rewrite E. apply finish_grows. }
  destruct En as [_ _ _ _ _ _ _ _ _ _ _ _ _ _ _ _ F Ft P T _ _ _].
  cbn [fst]. rewrite Ep. cbn [app fmap list_fmap].
  split_and!; [by constructor| |].
  - constructor; [|done]. intros (p & Heq & Hin)%list_elem_of_fmap.
    rewrite Forall_forall in Hf. apply Hf in Hin as [Hin _]. apply Hin, Gp1. rewrite P. set_solver.
  - constructor; [|done]. intros (p & Heq & Hin)%list_elem_of_fmap.
    rewrite Forall_forall in Hf. apply Hf in Hin as [_ Hin]. apply Hin, Gt1. rewrite T. set_solver.
Qed.

(** C9: a permit has at most one effect in the life of an engine.  Over any sequence of
    governed calls, with any plans and custodies, handlers and clocks, the permits of the
    calls that reach their handler are pairwise different, and so are their dispatch
    tokens; a call that does not reach its handler leaves the world as it was. *)
Theorem governed_effect_once (requests : list governed_request) s :
  NoDup (dp_permit_id <$> handled requests s)
  ∧ NoDup (dp_dispatch_token_digest <$> handled requests s)
  ∧ ∀ q s0, is_ok (governed_enter q s0).1 = false →
      gs_world (governed_execute q s0).2 = gs_world s0.
Proof.
  destruct (handled_fresh requests s) as (_ & Hp & Ht). split_and!; [done..|].
  intros q s0 F. unfold governed_execute, execute_evidenced_unpersisted, cbind.
  destruct (enter_outside (gq_engine q) (gq_operation q) (gq_version q) (gq_input q)
              (gq_context q) (gq_plan q) s0) as [_ Ew].
  unfold governed_enter in F. by destruct (enter _ _ _ _ _ _ s0) as [[x|error|] s1].
Qed.

End once.

(** ** What a returned result is *)

Section results.
Context {S W C : Type} `{Externals} `{OperatorExternals} {HL : ExternalsLaws}.
Implicit Types (e : GovernedEngine S W C) (context : ExecutionContext).
Implicit Types (plan : GovernedExecutionPlan) (s : GovernedState W C).
Implicit Types p : PreparedGovernedExecution.

(** The signed evidence of an input and an output. *)
Record evidences e (operation version : string) (input : json) context p : Prop := {
  ev_verifies :
    Proof_verify (ge_proof p) (pr_public_key (principal_from_keypair (e_keypair (gv_engine e))))
    = Ok ();
  ev_operation : pb_operation (body (ge_proof p)) = operation +:+ "::" +:+ version;
  ev_actor : pb_actor (body (ge_proof p)) = ctx_actor context;
  ev_delegation : pb_delegation_id (body (ge_proof p)) = ctx_delegation_id context;
  ev_input : ∃ canonical, canonicalize input = Ok canonical
               ∧ pb_input_digest (body (ge_proof p)) = digest OperationInput canonical;
  ev_output : ∃ canonical, canonicalize (ge_output p) = Ok canonical
                ∧ pb_output_digest (body (ge_proof p)) = digest OperationOutput canonical;
  ev_context : ge_context p = at_timestamp context (pb_timestamp (body (ge_proof p)));
  ev_ids : uuid_is_v7 (ge_execution_context_id p) = true
           ∧ uuid_is_v7 (pb_id (body (ge_proof p))) = true;
}.

(** The usage of one boundary call within the ceiling of the intent. *)
Record usage_within (intent : DispatchIntent) p : Prop := {
  uw_kind : pu_boundary_kind (ge_usage p) = in_kind intent;
  uw_adapter : pu_adapter (ge_usage p) = in_adapter intent;
  uw_model : pu_model (ge_usage p) = in_model intent;
  uw_one_step : pu_steps (ge_usage p) = 1%N;
  uw_steps : (1 ≤ steps (in_ceiling intent))%N;
  uw_tokens : (pu_tokens (ge_usage p) ≤ tokens (in_ceiling intent))%N;
  uw_cost : (pu_cost_microusd (ge_usage p) ≤ cost_microusd (in_ceiling intent))%N;
  uw_tools : (pu_tool_dispatches (ge_usage p) ≤ tool_dispatches (in_ceiling intent))%N;
  uw_input : pu_input_digest (ge_usage p) = pb_input_digest (body (ge_proof p));
  uw_output : pu_output_digest (ge_usage p) = pb_output_digest (body (ge_proof p));
}.

(** The rows after the result: the step succeeded with the output and its proof, and a
    one-shot run with it. *)
Record rows_follow plan p : Prop := {
  rf_run : run_follows (ge_run_after p) (plan_run_before plan) = true;
  rf_step : step_follows (ge_step_after p) (plan_step_before plan) = true;
  rf_run_status : run_status (ge_run_after p)
    = match run_mode (plan_run_before plan) with
      | OneShot => RunStatus.Succeeded | Session => RunStatus.Running
      end;
  rf_step_status : step_status (ge_step_after p) = StepStatus.Succeeded;
  rf_step_output : step_output (ge_step_after p) = Some (ge_output p);
  rf_step_proof : step_proof (ge_step_after p) = Some (ge_proof p);
}.

(** The replay claim that the result completes is that of the permit. *)
Definition replay_carried plan (begin : DispatchBeginBinding) (permit : DispatchPermit) p
    : Prop :=
  transition_claim (ge_replay p) = plan_replay_claim plan
  ∧ rb_binding_digest <$> bb_replay begin = dp_replay_binding_digest permit
  ∧ is_some (plan_replay_claim plan) = is_some (dp_replay_binding_digest permit).

Lemma after_Ok {A} (c : call A AgentRunError.t ()) (a a' : A) :
  after c a = Ok a' → c a = (Ok (), a').
Proof. unfold after. destruct (c a) as [r a1]. intros E. by res_inv. Qed.

Lemma run_succeed_follows now (r r' : AgentRun) :
  run_succeed now r = (Ok (), r') → (run_revision r ≤ MAX_SAFE_INTEGER)%N →
  run_mode r = OneShot →
  run_follows r' r = true ∧ run_status r' = RunStatus.Succeeded.
Proof.
  unfold run_succeed, run_transition. intros E Hr M.
  destruct (negb _); simplify_eq. split; [|done]. unfold run_follows.
  cbn [run_id run_actor run_agent_id run_mode run_goal run_created_at run_revision].
  rewrite M, wrapping_add_small by (unfold MAX_SAFE_INTEGER, u64_max in *; lia).
  rewrite !bool_decide_true; try done; [by rewrite Z.eqb_refl|].
  apply checked_add_Some. unfold MAX_SAFE_INTEGER, u64_max in *. lia.
Qed.

Lemma step_succeed_follows output proof now (r r' : AgentRunStep) :
  step_succeed output proof now r = (Ok (), r') → (step_revision r ≤ MAX_SAFE_INTEGER)%N →
  step_follows r' r = true ∧ step_status r' = StepStatus.Succeeded
  ∧ step_output r' = Some output ∧ step_proof r' = Some proof.
Proof.
  unfold step_succeed, step_transition, step_assign. intros E Hr. call_inv.
  match goal with E : (if negb ?b then _ else _) = _ |- _ => destruct b; simplify_eq/= end.
  split_and!; [|done..]. unfold step_follows.
  cbn [step_id step_run_id step_ordinal step_attempt step_retry_of step_operation step_version
    step_input_digest step_created_at step_revision].
  rewrite wrapping_add_small by (unfold MAX_SAFE_INTEGER, u64_max in *; lia).
  rewrite !bool_decide_true, !N.eqb_refl; try done; [by rewrite Z.eqb_refl|].
  apply checked_add_Some. unfold MAX_SAFE_INTEGER, u64_max in *. lia.
Qed.

Lemma run_follows_refl (r : AgentRun) : run_mode r = Session → run_follows r r = true.
Proof.
  intros M. unfold run_follows. rewrite M, !bool_decide_true, Z.eqb_refl, N.eqb_refl by done.
  done.
Qed.

Lemma run_after_follows now (r r' : AgentRun) :
  (if bool_decide (run_mode r = OneShot) then after (run_succeed now) r else Ok r) = Ok r' →
  run_status r = RunStatus.Running → (run_revision r ≤ MAX_SAFE_INTEGER)%N →
  run_follows r' r = true
  ∧ run_status r' = match run_mode r with
                    | OneShot => RunStatus.Succeeded | Session => RunStatus.Running
                    end.
Proof.
  intros E St Hr. case_bool_decide as M.
  - rewrite M. apply after_Ok in E. by apply run_succeed_follows in E.
  - injection E as <-. destruct (run_mode r) eqn:Md; [done|]. split; [by apply run_follows_refl|done].
Qed.

(** A plan that matches starts from running rows with safe revisions. *)
Lemma plan_matches_rows operation version input_digest a i c intent permit plan now :
  plan_matches operation version input_digest a i c intent permit plan now = true →
  run_status (plan_run_before plan) = RunStatus.Running
  ∧ (run_revision (plan_run_before plan) ≤ MAX_SAFE_INTEGER)%N
  ∧ (step_revision (plan_step_before plan) ≤ MAX_SAFE_INTEGER)%N
  ∧ intent = plan_intent plan
  ∧ in_operation (plan_intent plan) = operation ∧ in_version (plan_intent plan) = version
  ∧ (dp_authorized_at permit ≤ now)%Z.
Proof.
  unfold plan_matches, rows_startable. intros M. res_inv.
  repeat match goal with E : (_ <=? _)%N = true |- _ => apply N.leb_le in E
                       | E : (_ <=? _)%Z = true |- _ => apply Z.leb_le in E end.
  by split_and!.
Qed.

Lemma prepare_Ok e operation version context plan x handled p :
  prepare e operation version context plan x handled = Ok p →
  run_status (plan_run_before plan) = RunStatus.Running →
  (run_revision (plan_run_before plan) ≤ MAX_SAFE_INTEGER)%N →
  (step_revision (plan_step_before plan) ≤ MAX_SAFE_INTEGER)%N →
  rows_follow plan p ∧ usage_within (plan_intent plan) p
  ∧ validate_output (en_catalog x) operation version (ge_output p) = true
  ∧ pb_timestamp (body (ge_proof p)) = en_boundary_now x
  ∧ pb_input_digest (body (ge_proof p)) = en_input_digest x
  ∧ transition_claim (ge_replay p) = plan_replay_claim plan
  ∧ ge_events p = [] ∧ ge_approval p = None
  ∧ (∀ input, (∃ canonical, canonicalize input = Ok canonical
                 ∧ en_input_digest x = digest OperationInput canonical) →
     uuid_is_v7 (en_context_id x) = true → uuid_is_v7 (en_proof_id x) = true →
     evidences e operation version input context p).
Proof using HL.
  unfold prepare. intros E St Rr Rs. res_inv.
  match goal with E : Proof_sign _ _ = Ok _ |- _ =>
    apply (Proof_sign_Ok (HL := HL)) in E as (Eb & Ek & Ev) end.
  match goal with E : after (step_succeed _ _ _) _ = Ok _ |- _ =>
    apply after_Ok, step_succeed_follows in E as (Fs & Ss & So & Sp); [|done] end.
  cbn [ge_output ge_execution_context_id ge_context ge_proof ge_run_after ge_step_after
    ge_events ge_approval ge_replay ge_usage]. rewrite Eb. cbn [body Proof_new pb_timestamp
    pb_input_digest pb_output_digest pb_operation pb_actor pb_delegation_id pb_id].
  split_and!; try done.
  - match goal with E : (if _ then _ else _) = Ok _ |- _ =>
      apply run_after_follows in E as [Fr Sr]; [by split|done..] end.
  - match goal with E : from_report _ _ _ _ _ = Ok _ |- _ => unfold from_report in E end.
    res_inv. repeat match goal with E : (_ <? _)%N = false |- _ => apply N.ltb_ge in E end.
    split; cbn [ge_usage ge_proof pu_boundary_kind pu_adapter pu_model pu_steps pu_tokens
      pu_cost_microusd pu_tool_dispatches pu_input_digest pu_output_digest]; rewrite ?Eb;
      try done; lia.
  - by destruct (plan_replay_claim plan).
  - intros input Hi Hc Hp. split; cbn [ge_output ge_execution_context_id ge_context ge_proof];
      rewrite ?Eb; eauto.
Qed.

Lemma check_replay_carried handler operation version input_digest context plan permit begin
    checkpoint now :
  check_replay (W := W) handler operation version input_digest context plan permit begin
    checkpoint now = Ok () →
  rb_binding_digest <$> bb_replay begin = dp_replay_binding_digest permit
  ∧ is_some (plan_replay_claim plan) = is_some (dp_replay_binding_digest permit).
Proof.
  unfold check_replay. destruct (h_idempotency_policy_for _ _); intros E; res_inv.
  - destruct (plan_replay_claim plan), (bb_replay begin), (dp_replay_binding_digest permit);
      done.
  - repeat match goal with E : ?o = Some _ |- _ => rewrite E; clear E end. done.
Qed.

(** The shape of every successful call. *)
Record governed_result e (operation version : string) (input : json) context plan s
    (permit : DispatchPermit) (begin : DispatchBeginBinding) p s' : Prop := {
  gr_permit : dt_permit (gs_custody s) = Some permit;
  gr_begin : dt_begin (gs_custody s) = Some begin;
  gr_intent : bb_intent begin = plan_intent plan;
  gr_valid_intent : DispatchIntent_validate (plan_intent plan) = Ok ();
  gr_names : in_operation (plan_intent plan) = operation
             ∧ in_version (plan_intent plan) = version;
  gr_actor : ctx_actor context = run_actor (plan_run_before plan);
  gr_unused : dp_permit_id permit ∉ gs_permits s;
  gr_used : dp_permit_id permit ∈ gs_permits s';
  gr_custody : gs_custody s' = consumed (gs_custody s);
  gr_time : (dp_authorized_at permit ≤ pb_timestamp (body (ge_proof p))
             < dp_budget_deadline_at permit)%Z;
  gr_evidence : evidences e operation version input context p;
  gr_usage : usage_within (plan_intent plan) p;
  gr_rows : rows_follow plan p;
  gr_replay : replay_carried plan begin permit p;
  gr_output : ∃ catalog, gv_catalog e = Some catalog
                ∧ validate_output catalog operation version (ge_output p) = true;
  gr_no_approval : ge_approval p = None;
}.

Lemma execute_Ok e operation version input context plan s p s' :
  execute_evidenced_unpersisted e operation version input context plan s = (Ok p, s') →
  ∃ permit begin,
    governed_result e operation version input context plan s permit begin p s'.
Proof using HL.
  unfold execute_evidenced_unpersisted, finish. intros E. call_inv.
  match goal with E : enter _ _ _ _ _ _ _ = _ |- _ =>
    apply enter_Ok in E as (permit & begin & now & En) end.
  match goal with E : on_handler _ _ = (Ok ?h, _) |- _ =>
    unfold on_handler in E; destruct (gh_execute_governed_versioned _ _ _ _ _) as [r w];
    injection E as -> <- end.
  destruct (et_plan _ _ _ _ _ _ _ _ _ _ _ _ En) as (a & i & c & M).
  apply plan_matches_rows in M as (St & Rr & Rs & Hi & Ho & Hv & Ha).
  destruct (et_replay _ _ _ _ _ _ _ _ _ _ _ _ En) as (cp & _ & Rp).
  apply check_replay_carried in Rp as [Rd Rc].
  destruct (et_admitted _ _ _ _ _ _ _ _ _ _ _ _ En) as (entry & _ & Ad).
  unfold admit_context in Ad. res_inv.
  match goal with E : prepare _ _ _ _ _ _ _ = Ok _ |- _ =>
    apply prepare_Ok in E as (Fo & Us & Vo & Ts & Id & Tc & _ & Ap & Ev); [|done..] end.
  destruct En. exists permit, begin. split; cbn [gs_permits gs_custody]; eauto.
  - rewrite et_permits0. set_solver.
  - rewrite Ts. lia.
  - by split_and!.
Qed.

(** C21: what a governed result is evidence of.  A call that returns a result ran under the
    permit and for the intent bound in its custody, whose permit was unused and is now
    used; the result carries a proof that verifies under the engine's key and names the
    operation, the version, the actor and the digests of the input and of the output, at
    a time between the authorization and the budget deadline; its output passed the
    catalog's schema; its usage is within the ceiling of the intent; the step and, when
    it is one-shot, the run follow as succeeded by exactly one revision; and it completes
    a replay claim exactly when the permit binds one. *)
Theorem governed_result_sound e operation version input context plan s p s'
    (E : execute_evidenced_unpersisted e operation version input context plan s = (Ok p, s')) :
  ∃ permit begin,
    governed_result e operation version input context plan s permit begin p s'.
Proof using HL. by apply execute_Ok. Qed.

End results.

(** ** Committing a governed result *)

Lemma before_first_operation (name rest : string) :
  contains_byte ":" name = false → before_first "::" (name +:+ "::" +:+ rest) = Some name.
Proof.
  unfold contains_byte. rewrite negb_false_iff.
  induction name as [|c name IH]; [done|]. cbn [all_bytes]. intros [Hc Hn]%andb_true_iff.
  apply negb_true_iff, bool_decide_eq_false in Hc.
  change ((String c name) +:+ "::" +:+ rest) with (String c (name +:+ "::" +:+ rest)).
  cbn [before_first strip_prefix]. rewrite decide_False by congruence. by rewrite IH.
Qed.

Lemma operation_no_colon (name : string) :
  valid_operation_name name = true → contains_byte ":" name = false.
Proof.
  intros (_ & domain & action & -> & Hd & Ha)%valid_operation_name_grammar.
  unfold contains_byte. apply negb_false_iff. unfold valid_lower_identifier in *. res_inv.
  rewrite !all_bytes_app. cbn [all_bytes].
  assert (∀ d, is_lower_ident_byte d = true → negb (bool_decide (":"%char = d)) = true) as A.
  { intros d Hd. apply negb_true_iff, bool_decide_eq_false. by intros <-. }
  by rewrite !(all_bytes_mono is_lower_ident_byte) by done.
Qed.

Section commit.
Context {S W C : Type} `{Externals} `{OperatorExternals} {HL : ExternalsLaws}.
Implicit Types (e : GovernedEngine S W C) (p : PreparedGovernedExecution).

(** The rows that a plan was made from, as the commit finds them. *)
Record plan_rows plan (begin : DispatchBeginBinding) (l : Loaded) : Prop := {
  pr_run : ld_run l = plan_run_before plan;
  pr_step : ld_step l = plan_step_before plan;
  pr_intent : br_intent (ld_reservation l) = plan_intent plan;
  pr_replay : br_replay (ld_reservation l) = bb_replay begin;
  pr_reserved : br_reserved (ld_reservation l) = in_ceiling (plan_intent plan);
}.

Lemma from_prepared_Ok p digest x :
  from_prepared p digest = Ok x →
  PreparedExecutionBinding_validate x = Ok () ∧ xb_replay_binding_digest x = digest
  ∧ ∃ operation d, before_first "::" (pb_operation (body (ge_proof p))) = Some operation
      ∧ xb_result x = result_body p operation d.
Proof. unfold from_prepared, evidence. intros E. res_inv. split_and!; eauto. Qed.

Lemma governed_matches_dispatch e operation version input context plan s permit begin p s' c x :
  governed_result e operation version input context plan s permit begin p s' →
  dt_permit c = Some permit → dt_begin c = Some begin →
  from_prepared p (dp_replay_binding_digest permit) = Ok x →
  prepared_matches_dispatch c x = true.
Proof.
  intros R Hp Hb (V & D & name & d & Hn & Hr)%from_prepared_Ok.
  destruct (gr_usage _ _ _ _ _ _ _ _ _ _ _ R) as [].
  destruct (gr_names _ _ _ _ _ _ _ _ _ _ _ R) as [No Nv].
  pose proof (gr_intent _ _ _ _ _ _ _ _ _ _ _ R) as Hi.
  pose proof (gr_valid_intent _ _ _ _ _ _ _ _ _ _ _ R) as Vi.
  unfold DispatchIntent_validate in Vi. res_inv.
  rewrite (ev_operation _ _ _ _ _ _ (gr_evidence _ _ _ _ _ _ _ _ _ _ _ R)) in Hn.
  rewrite before_first_operation in Hn by (by apply operation_no_colon). injection Hn as <-.
  unfold prepared_matches_dispatch. rewrite Hp, Hb, V, D, Hr, Hi.
  cbn [result_body rr_usage rr_proof pf_operation from_sealed ur_boundary_kind ur_adapter
    ur_model ur_steps ur_tokens ur_cost_microusd ur_tool_dispatches is_ok].
  rewrite !bool_decide_true by done. cbn [andb]. rewrite !andb_true_iff, !N.leb_le. lia.
Qed.

Lemma governed_usage_matches intent p :
  usage_within intent p → usage_matches p intent = true.
Proof.
  intros []. unfold usage_matches. rewrite !bool_decide_true, uw_one_step0 by done. done.
Qed.

Lemma governed_charge_fits intent p (duration : option N) :
  usage_within intent p →
  fits_within (charge_of p duration) (in_ceiling intent)
  = (default 0 duration <=? duration_ms (in_ceiling intent))%N.
Proof.
  intros []. apply eq_bool_prop_intro. rewrite !Is_true_true, fits_within_le, N.leb_le.
  unfold charge_of. cbn [steps tokens duration_ms cost_microusd tool_dispatches]. lia.
Qed.

Lemma governed_proof_matches e operation version input context plan s permit begin p s' :
  governed_result e operation version input context plan s permit begin p s' →
  proof_matches p (plan_run_before plan) (plan_intent plan) = true.
Proof.
  intros R. destruct (gr_evidence _ _ _ _ _ _ _ _ _ _ _ R), (gr_usage _ _ _ _ _ _ _ _ _ _ _ R).
  pose proof (gr_actor _ _ _ _ _ _ _ _ _ _ _ R).
  destruct (gr_names _ _ _ _ _ _ _ _ _ _ _ R) as [No Nv]. rewrite <- No, <- Nv in ev_operation0.
  destruct ev_output0 as (canonical & Ec & Ed).
  unfold proof_matches. rewrite Ec, !bool_decide_true by congruence. done.
Qed.

Lemma into_commit_request_Ok a x c q c' :
  into_commit_request a x c = (Ok q, c') →
  mq_prepared q = x ∧ dt_permit (mq_custody q) = dt_permit c
  ∧ dt_begin (mq_custody q) = dt_begin c ∧ Some (mq_permit q) = dt_permit c.
Proof.
  unfold into_commit_request, consume_settlement. intros E. call_inv.
  match goal with E : context [exchange_0_1 ?n] |- _ =>
    destruct (exchange_0_1 n); simplify_eq end.
  match goal with E : dt_permit c = Some _ |- _ => cbn in *; rewrite E in *; simplify_eq/= end.
  done.
Qed.

(** C12: the binding of a governed result is accepted by the store.  Let a governed call
    return a result for a plan, let its custody turn into a commit request for that result,
    and let the commit find the rows the plan was made from and a reservation for the
    plan's intent.  Then the result matches its dispatch, and the store's decision
    [binding_valid] only depends on the elapsed time, which must be defined and within
    the reserved duration, and on the dispatch being current: none of the other
    conditions of [binding_valid] can fail.  What the commit checks and writes after this
    decision is not part of the statement. *)
Theorem governed_result_accepted e operation version input context plan s p s' permit begin
    prepared authority q c catalog l (duration : option N)
    (E : execute_evidenced_unpersisted e operation version input context plan s = (Ok p, s'))
    (P : dt_permit (gs_custody s) = Some permit) (B : dt_begin (gs_custody s) = Some begin)
    (F : from_prepared p (dp_replay_binding_digest permit) = Ok prepared)
    (Q : into_commit_request authority prepared (gs_custody s') = (Ok q, c))
    (K : gv_catalog e = Some catalog) (L : plan_rows plan begin l) :
  prepared_matches_dispatch (mq_custody q) (mq_prepared q) = true
  ∧ binding_valid q p catalog l duration
    = is_some duration
      && (default 0%N duration <=? duration_ms (in_ceiling (plan_intent plan)))%N
      && dispatch_current permit l.
Proof using HL.
  apply execute_Ok in E as (permit' & begin' & R).
  pose proof (gr_permit _ _ _ _ _ _ _ _ _ _ _ R). pose proof (gr_begin _ _ _ _ _ _ _ _ _ _ _ R).
  simplify_eq. apply into_commit_request_Ok in Q as (Qx & Qp & Qb & Qm).
  rewrite (gr_custody _ _ _ _ _ _ _ _ _ _ _ R) in Qp, Qb, Qm. cbn in Qp, Qb, Qm.
  assert (prepared_matches_dispatch (mq_custody q) (mq_prepared q) = true) as M.
  { rewrite Qx. eapply governed_matches_dispatch; [exact R|congruence|congruence|exact F]. }
  split; [exact M|]. destruct L as [Lr Ls Li Lp Lc]. rewrite P in Qm. injection Qm as Qm.
  destruct (gr_replay _ _ _ _ _ _ _ _ _ _ _ R) as (_ & Rd & _).
  destruct (gr_output _ _ _ _ _ _ _ _ _ _ _ R) as (catalog' & K' & Vo).
  rewrite K in K'. injection K' as <-.
  unfold binding_valid. rewrite Lr, Ls, Li, Lp, Lc, Rd, F, Qx.
  destruct (gr_names _ _ _ _ _ _ _ _ _ _ _ R) as [<- <-].
  rewrite (governed_proof_matches _ _ _ _ _ _ _ _ _ _ _ R), Vo.
  rewrite (governed_usage_matches _ _ (gr_usage _ _ _ _ _ _ _ _ _ _ _ R)).
  rewrite (governed_charge_fits _ _ duration (gr_usage _ _ _ _ _ _ _ _ _ _ _ R)).
  rewrite (rf_run _ _ (gr_rows _ _ _ _ _ _ _ _ _ _ _ R)).
  rewrite (rf_step _ _ (gr_rows _ _ _ _ _ _ _ _ _ _ _ R)).
  destruct (from_prepared_Ok _ _ _ F) as (V & _). rewrite Qx in M. rewrite V, M.
  rewrite bool_decide_true by done. cbn [is_ok andb]. by rewrite Qm, !andb_true_r.
Qed.

End commit.
