(* ===== verification/RuntimeSample.v ===== *)
(** * A run of the runtime store

    A workspace with one agent, one budget and one run, over the concrete externals of
    [OperatorSample], and the calls that take the run from a lease to a committed result:
    claim, reserve, begin, the governed execution, commit.  Every call succeeds
    ([dispatch_commits]).  The witnesses of the theorems about the runtime store and the
    governed engine compute on these tables. *)

From S2P Require Import Prelude RustStr Externals Json Canonical Evidence OperatorCommon StrictDigest.
From S2P Require Import Registry AgentRun ExecutionStore OperatorEnvironment Engine Durable AuditChain OperatorSample Custody.
From S2P Require Import RuntimeStore ReplayStore RuntimeOps RuntimeCommitOp RuntimeProofs RuntimeWp.
From S2P Require Import RuntimeLeases RuntimeLedger GovernedEngine.
From stdpp Require Import options.

Module RuntimeSample.
Import OperatorSample.

#[local] Existing Instance clock.
#[local] Existing Instance keys.

(** ** The tables *)

Definition agent_key : Keypair :=
  {| kp_principal_id := 3; kp_kind := Agent; kp_created_at := second 0;
     kp_signing_key := "agent" |}.

Definition limits : BudgetAmounts := amounts 10000.

Definition budget_policy (digest : ControlDigest) : BudgetPolicy :=
  {| bl_schema := POLICY_SCHEMA; bl_budget_id := 11; bl_workspace_id := 1;
     bl_limits := limits; bl_deadline_at := second 50; bl_limits_digest := digest |}.

Definition budget : BudgetAccount :=
  {| ba_schema := ACCOUNT_SCHEMA;
     ba_policy := budget_policy (or_zero (digest_without_field "Proof-Operator-Budget-Limits-v1"
                                            (policy_value (budget_policy zero_control))
                                            "limits_digest"));
     ba_revision := 0; ba_state := AccountState.Active; ba_reserved := amounts 0;
     ba_committed := amounts 0; ba_created_at := second 0; ba_updated_at := second 0 |}.

Definition unsealed_control (digest : ControlDigest) : RunControl :=
  {| ctl_schema := CONTROL_SCHEMA; ctl_run_id := 20; ctl_workspace_id := 1; ctl_budget_id := 11;
     ctl_control_revision := 0; ctl_active_dispatch_reservation_id := None;
     ctl_recovery_directive_id := None; ctl_recovery_directive_digest := None;
     ctl_last_command_id := None; ctl_created_at := second 0; ctl_updated_at := second 0;
     ctl_binding_digest := digest |}.

Definition control : RunControl :=
  unsealed_control (or_zero (control_digest_of (unsealed_control zero_control))).

Definition input : json := JObject [("to", JString "ada")].
Definition output : json := JObject [("sent", JBool true)].

Definition digest_of_json (k : ArtifactKind) (v : json) : ContentDigest :=
  match canonicalize v with Ok s => digest k s | _ => zero_digest end.

Definition run : AgentRun :=
  {| run_id := 20; run_actor := 3; run_agent_id := None; run_mode := OneShot; run_goal := "send";
     run_status := RunStatus.Running; run_retry_count := 0; run_revision := 1;
     run_created_at := second 0; run_updated_at := second 0; run_completed_at := None |}.

Definition step : AgentRunStep :=
  {| step_id := 21; step_run_id := 20; step_ordinal := 0; step_attempt := 1;
     step_retry_of := None; step_operation := "mail.send"; step_version := "v1";
     step_input_digest := digest_of_json OperationInput input;
     step_status := StepStatus.Running; step_approval_request_id := None; step_output := None;
     step_proof := None; step_error := None; step_revision := 1; step_created_at := second 0;
     step_updated_at := second 0; step_started_at := Some (second 0);
     step_completed_at := None |}.

Definition checkpoint : AgentCheckpoint :=
  {| cp_id := 22; cp_run_id := 20; cp_sequence := 0; cp_state := JObject [];
     cp_state_digest := digest_of_json AgentCheckpointKind (JObject []);
     cp_created_at := second 0 |}.

Definition unsealed_projection (digest : ControlDigest) : RunProjection :=
  {| pj_schema := PROJECTION_SCHEMA; pj_projection_id := 23; pj_projection_sequence := 1;
     pj_projection_revision := 0; pj_workspace_id := 1; pj_run_id := 20;
     pj_source_run_revision := 1; pj_source_control_revision := 0; pj_checkpoint_id := 22;
     pj_checkpoint_sequence := 0; pj_checkpoint_digest := cp_state_digest checkpoint;
     pj_fence_epoch := 0; pj_run_status := RunStatus.Running;
     pj_attention := AttentionState.Running; pj_required_human_id := None;
     pj_approval_request_id := None; pj_recovery_directive_id := None;
     pj_recovery_directive_digest := None; pj_projected_at := second 0;
     pj_snapshot_digest := digest |}.

Definition projection : RunProjection :=
  unsealed_projection (or_zero (snapshot_digest_of (unsealed_projection zero_control))).

Definition tables : Db :=
  {| db_workspace := Some 1%N; db_human := Some 2%N;
     db_principals := {[3%N := principal_from_keypair agent_key]};
     db_budgets := {[11%N := budget]}; db_controls := {[20%N := control]}; db_leases := ∅;
     db_reservations := ∅; db_directives := ∅; db_approval_requests := ∅; db_approvals := ∅;
     db_projections := [projection]; db_heads := {[1%N := (0%N, None)]}; db_events := [];
     db_runs := {[20%N := run]}; db_steps := {[21%N := step]};
     db_checkpoints := {[22%N := checkpoint]}; db_run_events := ∅; db_evaluations := ∅;
     db_replays := ∅; db_bindings := ∅; db_proofs := ∅; db_contexts := ∅ |}.

(** The store starts with these tables and draws the identifiers from 100 on. *)
Definition opened : Tx := {| tx_db := tables; tx_uuids := N.of_nat <$> seq 100 40 |}.

Definition zero_artifact : ArtifactDigest :=
  {| artifact_bytes := String.string_of_list_ascii (replicate 32 "000"%char) |}.

Definition catalog : OperatorSchemaCatalog :=
  {| sc_binding := {| cb_schema := "catalog";
       cb_entries := [{| ce_operation := "mail.send"; ce_version := "v1";
                         ce_registry_entry_path := "mail/send.yaml";
                         ce_registry_entry_sha256 := zero_artifact;
                         ce_input_schema_path := "mail/input.json";
                         ce_input_schema_sha256 := zero_artifact;
                         ce_output_schema_path := "mail/output.json";
                         ce_output_schema_sha256 := zero_artifact |}] |};
     sc_operations := {[("mail.send", "v1") :=
                          {| co_input := λ _, true; co_output := λ _, true |}]} |}.

Definition at_second (n : Z) : option OperatorStoreContext :=
  Some {| oc_now := Some (second n); oc_catalog := catalog |}.

(** ** The engine *)

Definition intent : DispatchIntent :=
  {| in_schema := INTENT_SCHEMA; in_kind := Tool; in_adapter := "mailer"; in_model := None;
     in_operation := "mail.send"; in_version := "v1";
     in_argument_digest :=
       control_digest "Proof-Operator-Dispatch-Argument-v1"
         (match canonicalize input with Ok s => s | _ => "" end);
     in_ceiling := {| steps := 1; tokens := 0; duration_ms := 5000; cost_microusd := 0;
                      tool_dispatches := 1 |} |}.

Definition registration : GovernedAdapterRegistration :=
  {| gr_operation := "mail.send"; gr_version := "v1"; gr_kind := Tool; gr_adapter := "mailer";
     gr_model := None |}.

(** A handler that counts its calls. *)
Definition mailer (reporter : GovernedAdapterReporter) : GovernedHandler nat :=
  {| gh_handler := {| h_operation := "mail.send"; h_idempotency_policy_for := λ _, NoReplay;
                      h_execute_versioned := λ _ _ _ n, (Ok output, S n) |};
     gh_governed_effect_policy_for := λ _, NoDurableOrExternalEffect;
     gh_execute_governed_versioned := λ _ _ _ n, (tool_output reporter output, S n) |}.

(** An environment at one instant; its state is the next identifier. *)
Definition environment (n : Z) (millis : N) : OperatorControlEnvironment N :=
  {| env_trusted_utc_now := λ id, (Ok (second n), id);
     env_monotonic_millis := λ id, (Ok millis, id);
     env_fill_random := λ _ n id, (Ok (Sample.take_pad n EmptyString), id);
     env_new_uuid_v7 := λ id, (Ok id, (id + 1)%N) |}.

Definition engine : GovernedEngine () nat N :=
  (register_governed_handler 1 registration mailer
     (with_operator_control (environment 8 200) catalog
        (governed_new (new_with_keypair
           (registry_of [sample_entry "mail.send" "v1" AgentExecutable Active]) agent_key)))).2.

Definition context : ExecutionContext :=
  {| ctx_actor := 3; ctx_principal_kind := Some Agent; ctx_delegation_id := None;
     ctx_delegation_chain := None; ctx_workspace_path := "/workspace";
     ctx_timestamp := second 7 |}.

Definition plan : GovernedExecutionPlan :=
  {| plan_alive := true; plan_intent := intent; plan_run_before := run;
     plan_step_before := step; plan_checkpoint_tail := Some (tail_of checkpoint);
     plan_replay_claim := None |}.

Definition execution (custody : DispatchTokenCustody)
    : result ExecutionError.t PreparedGovernedExecution * GovernedState nat N :=
  execute_evidenced_unpersisted engine "mail.send" "v1" input context plan
    {| gs_environment := 200%N; gs_permits := ∅; gs_tokens := ∅; gs_custody := custody;
       gs_world := 0 |}.

(** ** The calls *)

(** Goes on with the result of a call that succeeded. *)
Definition then_ {E A S B} (p : result E A * S) (k : A → S → option B) : option B :=
  match p with (Ok a, s) => k a s | _ => None end.

Definition lease_claim : LeaseClaimBinding :=
  {| lb_workspace_id := 1; lb_run_id := 20; lb_lease_id := 30; lb_owner_instance_id := 5;
     lb_process_epoch_id := 6; lb_expected_fence_epoch := 0; lb_expected_control_revision := 0 |}.

(** A lease: its custody and the tables. *)
Definition leased : option (LeaseTokenCustody * Tx) :=
  then_ (claim_request lease_claim (LeaseTokenCustody_new "lease-token")) (λ q custody,
  then_ (claim_run_lease (at_second 5) q opened) (λ result s,
  then_ (bind_claim_result result custody) (λ _ custody,
  Some (custody, s)))).

Definition reserve_request (authority : LeaseAuthority) : BudgetReserveRequest :=
  {| rq_schema := "proof.operator.budget-reserve-request/v1"; rq_authority := authority;
     rq_reservation_id := 40; rq_idempotency_key := 41; rq_intent := intent;
     rq_intent_digest := or_zero (intent_digest_of intent); rq_replay := None;
     rq_recovery := None |}.

(** A dispatch: the custody of its token, with the effect authorized. *)
Definition dispatched : option (LeaseTokenCustody * DispatchTokenCustody * Tx) :=
  '(lease, s) ← leased;
  then_ (authority lease 1, s) (λ a s,
  then_ (reserve_aggregate_budget (at_second 6) (reserve_request a) s) (λ _ s,
  then_ (authority lease 2, s) (λ a s,
  then_ (begin_request a 40 intent (or_zero (intent_digest_of intent)) None None
           (or_zero (call_digest_of intent)) (DispatchTokenCustody_new "dispatch-token"))
    (λ q custody,
  then_ (begin_dispatch (at_second 7) q s) (λ result s,
  then_ (bind_permit result {| trusted_utc_now := Ok (second 7); monotonic_millis := Ok 100%N |}
           custody) (λ _ custody,
  then_ (authorization custody) (λ _ custody,
  Some (lease, custody, s)))))))).

(** The commit of the execution: its request and the tables after it. *)
Definition committed
    : option (PreparedGovernedExecution * RuntimeCommitRequest * RuntimeCommitResult * Tx) :=
  '(lease, custody, s) ← dispatched;
  then_ (execution custody) (λ p after,
  then_ (from_prepared p None, s) (λ prepared s,
  then_ (authority lease 3, s) (λ a s,
  then_ (into_commit_request a prepared (gs_custody after)) (λ q _,
  then_ (commit_runtime_barrier (at_second 9) q p s) (λ result s,
  Some (p, q, result, s)))))).

Definition settled : BudgetAmounts :=
  {| steps := 1; tokens := 0; duration_ms := 2000; cost_microusd := 0; tool_dispatches := 1 |}.

(** The whole path succeeds: from the lease to the committed result, whose charge is the
    one step, the one tool dispatch and the two seconds that have passed, in four
    revisions of the control record and five audit events. *)
Lemma dispatch_commits :
  (λ x, let '(p, _, result, s) := x in
        (ge_output p, mx_charged result, mx_control_revision result,
         length (db_events (tx_db s)), run_status <$> db_runs (tx_db s) !! 20%N)) <$> committed
  = Some (output, settled, 4%N, 5, Some RunStatus.Succeeded).
Proof. vm_cast_no_check (eq_refl (Some (output, settled, 4%N, 5, Some RunStatus.Succeeded))). Qed.

(** ** Witnesses: the store *)

Definition authority_at (revision : N) : LeaseAuthority :=
  {| la_schema := LEASE_AUTHORITY_SCHEMA; la_workspace_id := 1; la_run_id := 20;
     la_lease_id := 30; la_owner_instance_id := 5; la_process_epoch_id := 6;
     la_fence_epoch := 1; la_expected_control_revision := revision;
     la_lease_token := "lease-token" |}.

Definition claim_call (lease_id fence revision : N) : runtime_op :=
  RtClaim {| lq_schema := "proof.operator.lease-claim-request/v1"; lq_workspace_id := 1;
             lq_run_id := 20; lq_lease_id := lease_id; lq_owner_instance_id := 5;
             lq_process_epoch_id := 6; lq_lease_token := "lease-token";
             lq_expected_fence_epoch := fence; lq_expected_control_revision := revision |}.

Definition begin_call : runtime_op :=
  RtBegin {| bq_schema := "proof.operator.begin-dispatch-request/v1";
             bq_authority := authority_at 2; bq_reservation_id := 40;
             bq_dispatch_token := "dispatch-token"; bq_intent := intent;
             bq_intent_digest := or_zero (intent_digest_of intent); bq_replay := None;
             bq_replay_claim_token := None; bq_call_digest := or_zero (call_digest_of intent) |}.

Definition commit_calls : list (option OperatorStoreContext * runtime_op) :=
  from_option (λ x, [(at_second 9, RtCommit x.1.1.2 x.1.1.1)]) [] committed.

Definition calls : list (option OperatorStoreContext * runtime_op) :=
  [(at_second 5, claim_call 30 0 0); (at_second 6, RtReserve (reserve_request (authority_at 1)));
   (at_second 7, begin_call)] ++ commit_calls.

(** These calls leave the five events, and the charge in the account. *)
Lemma calls_commit :
  let d := tx_db (runtime_run calls opened) in
  (length (db_events d), ba_committed <$> db_budgets d !! 11%N) = (5, Some settled).
Proof. vm_cast_no_check (eq_refl (5, Some settled)). Qed.

Lemma audit_chain_maintained_witness :
  audit_inv (tx_db (runtime_run calls opened))
  ∧ append_only (tx_db opened) (tx_db (runtime_run calls opened)).
Proof.
  apply (audit_chain_maintained calls opened). intros workspace [= <-].
  split_and!; [reflexivity|exact I|constructor].
Defined.

Lemma runtime_refines_ledger_witness :
  let d := tx_db (runtime_run calls opened) in
  books_inv d
  ∧ limits_of d = limits_of (tx_db opened)
  ∧ rtc (ledger_step (limits_of (tx_db opened))) (ledger_of (tx_db opened)) (ledger_of d)
  ∧ ∀ b a, db_budgets d !! b = Some a →
      fits_within (plus_amounts (ba_reserved a) (ba_committed a)) (bl_limits (ba_policy a)) = true.
Proof.
  apply (runtime_refines_ledger calls opened).
  - split; [intros id r L; discriminate L|].
    intros b a L. cbn [tx_db opened tables db_budgets] in L.
    apply lookup_singleton_Some in L as [<- <-]. split; reflexivity.
  - intros b l L. unfold limits_of in L. cbn [tx_db opened tables db_budgets] in L.
    rewrite map_fmap_singleton in L. apply lookup_singleton_Some in L as [<- <-]. reflexivity.
Defined.

(** The lease of the run after the first call. *)
Definition leased_tables : Tx := runtime_run (take 1 calls) opened.

Lemma no_leases_fence : fence_inv tables.
Proof. split; [split|..]; intros; discriminate. Qed.

Lemma leased_fence : fence_inv (tx_db leased_tables).
Proof. exact (proj1 (runtime_run_fence (take 1 calls) opened no_leases_fence)). Qed.

Lemma leased_lease :
  (λ l, (ls_run_id l, ls_fence_epoch l, ls_state l, ls_expires_at l))
    <$> db_leases (tx_db leased_tables) !! 30%N
  = Some (20%N, 1%N, LeaseState.Active, second 35).
Proof. vm_compute. reflexivity. Qed.

(** An authority from before the first lease. *)
Definition stale_authority : LeaseAuthority :=
  {| la_schema := LEASE_AUTHORITY_SCHEMA; la_workspace_id := 1; la_run_id := 20;
     la_lease_id := 29; la_owner_instance_id := 5; la_process_epoch_id := 6;
     la_fence_epoch := 0; la_expected_control_revision := 1; la_lease_token := "lease-token" |}.

Lemma superseded_authority_refused_witness :
  fence_inv (tx_db (runtime_run (drop 1 calls) leased_tables))
  ∧ ∀ held, (validate_authority stale_authority (second 9)
               (runtime_run (drop 1 calls) leased_tables)).1 ≠ Ok held.
Proof.
  pose proof leased_lease as F.
  destruct (db_leases (tx_db leased_tables) !! 30%N) as [l|] eqn:L; [|discriminate F].
  injection F as R F _ _.
  apply (superseded_authority_refused (drop 1 calls) leased_tables leased_fence stale_authority
           (second 9) 30%N l L); [exact R|rewrite F; reflexivity].
Defined.

Definition reclaim_call : runtime_op :=
  RtReclaim {| cq_schema := "proof.operator.reclaim-request/v1"; cq_workspace_id := 1;
               cq_run_id := 20; cq_expired_lease_id := 30; cq_expected_fence_epoch := 1;
               cq_expected_control_revision := 1; cq_new_lease_id := 31;
               cq_owner_instance_id := 5; cq_new_process_epoch_id := 7;
               cq_new_lease_token := "other-token"; cq_checkpoint_id := 22;
               cq_checkpoint_sequence := 0; cq_checkpoint_digest := cp_state_digest checkpoint |}.

(** After the expiry: another claim, a renewal and a reclaim. *)
Definition late_calls : list (option OperatorStoreContext * runtime_op) :=
  [(at_second 40, claim_call 31 1 1);
   (at_second 41, RtRenew {| lr_schema := "proof.operator.lease-renew-request/v1";
                             lr_authority := authority_at 1 |});
   (at_second 42, reclaim_call)].

Lemma expired_lease_stuck_witness :
  ∃ l, db_leases (tx_db leased_tables) !! 30%N = Some l
    ∧ run_kept 30%N l (tx_db leased_tables) (tx_db (runtime_run late_calls leased_tables)).
Proof.
  pose proof leased_lease as F.
  destruct (db_leases (tx_db leased_tables) !! 30%N) as [l|] eqn:L; [|discriminate F].
  injection F as _ _ A X. exists l. split; [reflexivity|].
  apply (expired_lease_stuck 30%N l leased_tables (fi_leases _ leased_fence) L A late_calls).
  rewrite X. repeat constructor; intros now [= <-]; discriminate.
Defined.

(** ** Witnesses: the engine *)

(** What the handler reports. *)
Definition report : PreparedBoundaryUsage :=
  {| pb_seal := (mint 1 registration).1; pb_boundary_kind := Tool; pb_tokens := 0;
     pb_cost_microusd := 0; pb_tool_dispatches := 1 |}.

Lemma from_report_sealed_witness :
  ∃ usage, from_report intent (mint 1 registration).2 report (step_input_digest step) zero_digest
           = Ok usage
    ∧ PreparedUsageRecord_validate (from_sealed usage) = Ok ().
Proof.
  assert (X : is_ok (from_report intent (mint 1 registration).2 report (step_input_digest step)
                       zero_digest) = true) by (vm_compute; reflexivity).
  assert (V : DispatchIntent_validate intent = Ok ()) by (vm_compute; reflexivity).
  destruct (from_report _ _ _ _ _) as [usage|e|] eqn:E; [|discriminate X..].
  exists usage. split; [reflexivity|].
  apply (from_report_sealed intent (mint 1 registration).2 report (step_input_digest step)
           zero_digest usage V E).
Defined.

(** The authorized custody of the dispatch. *)
Definition custody : DispatchTokenCustody :=
  from_option (λ x, x.1.2) (DispatchTokenCustody_new "") dispatched.

Definition before : GovernedState nat N :=
  {| gs_environment := 200%N; gs_permits := ∅; gs_tokens := ∅; gs_custody := custody;
     gs_world := 0 |}.

Lemma executes : is_ok (execution custody).1 = true.
Proof. vm_compute. reflexivity. Qed.

Lemma governed_result_sound_witness :
  ∃ p after permit begin, execution custody = (Ok p, after)
    ∧ governed_result engine "mail.send" "v1" input context plan before permit begin p after.
Proof.
  pose proof executes as X. destruct (execution custody) as [[p|e|] after] eqn:E;
    [|discriminate X..].
  destruct (@governed_result_sound _ _ _ clock keys clock_laws engine "mail.send" "v1" input
              context plan before p after E) as (permit & begin & R).
  exists p, after, permit, begin. split; [reflexivity|exact R].
Defined.

(** The rows that the commit finds. *)
Definition lease_row (digest : ControlDigest) : RunLease :=
  {| ls_schema := LEASE_SCHEMA; ls_run_id := 20; ls_workspace_id := 1; ls_lease_id := 30;
     ls_owner_instance_id := 5; ls_process_epoch_id := 6;
     ls_lease_token_digest := lease_token_digest "lease-token"; ls_fence_epoch := 1;
     ls_revision := 0; ls_state := LeaseState.Active; ls_acquired_at := second 5;
     ls_renewed_at := second 5; ls_expires_at := second 35; ls_released_at := None;
     ls_lease_digest := digest |}.

Definition loaded_rows : Loaded :=
  let lease := lease_row (or_zero (lease_digest_of (lease_row zero_control))) in
  {| ld_control := control; ld_lease := lease;
     ld_reservation := fresh_reservation (reserve_request (authority_at 1)) control lease
                         zero_control (second 6);
     ld_run := run; ld_step := step; ld_projection := projection;
     ld_checkpoint := identity checkpoint; ld_budget := budget |}.

(** The permit and the begin binding of the custody, and the commit request. *)
Definition held_permit : option DispatchPermit := dt_permit custody.
Definition held_begin : option DispatchBeginBinding := dt_begin custody.

Lemma held : is_some held_permit && is_some held_begin = true
  ∧ (dp_replay_binding_digest <$> held_permit) = Some None
  ∧ (bb_replay <$> held_begin) = Some None.
Proof. vm_compute. repeat split. Qed.

Definition request
    : option (PreparedExecutionBinding * RuntimeCommitRequest * DispatchTokenCustody) :=
  then_ (execution custody) (λ p after,
  then_ (from_prepared p None, ()) (λ prepared _,
  then_ (into_commit_request (authority_at 3) prepared (gs_custody after)) (λ q c,
  Some (prepared, q, c)))).

Lemma requested : is_some request = true.
Proof. vm_compute. reflexivity. Qed.

Lemma then_Some {E A S B} (p : result E A * S) (k : A → S → option B) :
  is_some (then_ p k) = true → ∃ a s, p = (Ok a, s) ∧ is_some (k a s) = true.
Proof. destruct p as [[a| |] s]; cbn; try done. eauto. Qed.

Lemma governed_result_accepted_witness :
  ∃ permit p q, prepared_matches_dispatch (mq_custody q) (mq_prepared q) = true
    ∧ binding_valid q p catalog loaded_rows (Some 2000%N) = dispatch_current permit loaded_rows.
Proof.
  destruct held as (H1 & H2 & H3). unfold held_permit, held_begin in *.
  destruct (dt_permit custody) as [permit|] eqn:P; [|discriminate H1].
  destruct (dt_begin custody) as [begin|] eqn:B; [|discriminate H1].
  injection H2 as H2. injection H3 as H3.
  destruct (then_Some _ _ requested) as (p & after & E & X1).
  destruct (then_Some _ _ X1) as (prepared & [] & [= F] & X2).
  destruct (then_Some _ _ X2) as (q & c & Q & _).
  exists permit, p, q. rewrite <- H2 in F.
  assert (K : gv_catalog engine = Some catalog) by reflexivity.
  assert (L : plan_rows plan begin loaded_rows) by (split; try reflexivity; rewrite H3; reflexivity).
  destruct (@governed_result_accepted _ _ _ clock keys clock_laws engine "mail.send" "v1" input
              context plan before p after permit begin prepared (authority_at 3) q c catalog
              loaded_rows (Some 2000%N) E P B F Q K L) as [M V].
  split; [exact M|]. rewrite V. reflexivity.
Defined.

End RuntimeSample.
