(* ===== verification/CommandSample.v ===== *)
(** * Commands of an operator

    The workspace of [RuntimeSample] with its human enrolled: the run is registered, a
    runtime leases it, and the human cancels it in a session of theirs.  Every call
    succeeds ([cancel_applies]).  The witnesses of the theorems on the control store and
    on commands compute on these tables. *)

From S2P Require Import Prelude RustStr Externals Json Canonical Evidence OperatorCommon StrictDigest.
From S2P Require Import Approval Agent AgentRun ExecutionStore Durable AuditChain OperatorAuth OperatorSample Base64.
From S2P Require Import RuntimeStore RuntimeOps RuntimeCommitOp OperatorCommand CommandStore RuntimeProofs RuntimeWp.
From S2P Require Import RuntimeLeases RuntimeLedger ControlStore CommandProofs FinishedRuns RuntimeSample.
From stdpp Require Import options.

Module CommandSample.
Import OperatorSample.

#[local] Existing Instance clock.
#[local] Existing Instance keys.

(** ** The workspace *)

Definition principal (id : Uuid) (kind : PrincipalKind) (key : string) : PrincipalBinding :=
  {| pn_principal_id := id; pn_kind := kind; pn_public_key := key;
     pn_public_key_fingerprint := control_digest "Proof-Operator-Public-Key-v1" key |}.

Definition descriptor (n : N) : DescriptorIdentity := {| device := 1; inode := n |}.

Definition agent_public : string := "agent-public-key-of-32-character".
Definition human_public : string := "human-public-key-of-32-character".

Definition fingerprint : WorkspaceFingerprintInput :=
  {| fp_schema := FINGERPRINT_SCHEMA; fp_workspace_id := 1; fp_proof_directory := descriptor 1;
     fp_control_lock := descriptor 2; fp_agent_key_file := descriptor 3;
     fp_human_key_file := descriptor 4; fp_agent_id := 3; fp_human_id := 2;
     fp_agent_public_key := agent_public; fp_human_public_key := human_public |}.

Definition unsealed_workspace (digest : ControlDigest) : OperatorWorkspace :=
  {| ow_schema := WORKSPACE_SCHEMA; ow_workspace_id := 1; ow_database_name := "storage.db";
     ow_fingerprint_input := fingerprint;
     ow_workspace_fingerprint :=
       or_zero (control_digest_value "Proof-Operator-Workspace-v1"
                  (fingerprint_value fingerprint));
     ow_schema_catalog_digest := zero_control; ow_agent := principal 3 Agent agent_public;
     ow_human := principal 2 Human human_public; ow_auth_epoch := 1; ow_policy_revision := 1;
     ow_capabilities := CapabilitySet_all; ow_created_at := second 0;
     ow_updated_at := second 0; ow_binding_digest := digest |}.

Definition workspace : OperatorWorkspace :=
  unsealed_workspace (or_zero (digest_without_field "Proof-Operator-Workspace-Binding-v1"
                                 (workspace_value (unsealed_workspace zero_control))
                                 "binding_digest")).

Definition human_key : Keypair :=
  {| kp_principal_id := 2; kp_kind := Human; kp_created_at := second 0;
     kp_signing_key := "human" |}.

(** The run is not registered yet. *)
Definition tables : Db :=
  {| db_workspace := Some 1%N; db_human := Some 2%N;
     db_principals := {[3%N := principal_from_keypair RuntimeSample.agent_key;
                        2%N := principal_from_keypair human_key]};
     db_budgets := {[11%N := RuntimeSample.budget]}; db_controls := ∅; db_leases := ∅;
     db_reservations := ∅; db_directives := ∅; db_approval_requests := ∅; db_approvals := ∅;
     db_projections := []; db_heads := {[1%N := (0%N, None)]}; db_events := [];
     db_runs := {[20%N := RuntimeSample.run]}; db_steps := {[21%N := RuntimeSample.step]};
     db_checkpoints := {[22%N := RuntimeSample.checkpoint]}; db_run_events := ∅;
     db_evaluations := ∅; db_replays := ∅; db_bindings := ∅; db_proofs := ∅;
     db_contexts := ∅ |}.

Definition opened : CommandTx :=
  {| ct_db := {| cd_db := tables; cd_workspace := Some workspace; cd_commands := ∅;
                 cd_receipts := ∅; cd_decisions := ∅ |};
     ct_uuids := N.of_nat <$> seq 100 40 |}.

(** ** The calls *)

Definition registration : RegisterGovernedRunRequest :=
  {| rg_schema := "proof.operator.register-governed-run-request/v1"; rg_workspace_id := 1;
     rg_run_id := 20; rg_budget_id := 11;
     rg_initial_projection :=
       {| ip_schema := "proof.operator.initial-run-projection-input/v1"; ip_workspace_id := 1;
          ip_run_id := 20; ip_source_run_revision := 1; ip_checkpoint_id := 22;
          ip_checkpoint_sequence := 0;
          ip_checkpoint_digest := cp_state_digest RuntimeSample.checkpoint;
          ip_run_status := RunStatus.Running |} |}.

(** The run is registered and leased. *)
Definition first_calls : list (option OperatorStoreContext * control_op) :=
  [(RuntimeSample.at_second 4, CtRegister registration);
   (RuntimeSample.at_second 5, CtRuntime (RuntimeSample.claim_call 30 0 0))].

Definition session : SessionAuthorityBinding :=
  {| sa_schema := SESSION_AUTHORITY_SCHEMA; sa_session_id := 60; sa_workspace_id := 1;
     sa_server_instance_id := 5; sa_human_id := 2; sa_auth_epoch := 1; sa_policy_revision := 1;
     sa_origin := "http://127.0.0.1:8080"; sa_granted_capabilities := CapabilitySet_all;
     sa_issued_at := second 1; sa_absolute_expires_at := second 1000 |}.

Definition session_digest : ControlDigest :=
  or_zero (control_digest_value "Proof-Operator-Session-Authority-v1"
             (authority_value session)).

Definition binding (id key : Uuid) : CommandBinding :=
  {| cmd_command_id := id; cmd_idempotency_key := key; cmd_workspace_id := 1;
     cmd_server_instance_id := 5; cmd_session_id := 60; cmd_human_id := 2; cmd_auth_epoch := 1;
     cmd_session_authority_digest := session_digest; cmd_policy_revision := 1 |}.

Definition scope (route : OperatorMutationRoute.t) (kind : CommandKind.t)
    : OperatorMutationScope :=
  {| oms_schema := "proof.operator.mutation-scope/v1"; oms_route := route;
     oms_session_authority := session; oms_session_authority_digest := session_digest;
     oms_policy_revision := 1; oms_required_capabilities := expected_command_capabilities kind |}.

Definition cancel (id key : Uuid) : CommandExecutionRequest :=
  {| cer_schema := "proof.operator.command-execution-request/v1";
     cer_scope := scope OperatorMutationRoute.RunCancel CommandKind.RunCancel;
     cer_command := OperatorCommand.RunCancel
       {| rcc_schema := RUN_CANCEL_SCHEMA; rcc_binding := binding id key; rcc_run_id := 20;
          rcc_expected_run_revision := 1; rcc_expected_control_revision := 1;
          rcc_expected_fence_epoch := 1 |} |}.

(** The signer holds the key of the agent. *)
Definition signer : OperatorSigner :=
  {| sign_approval := λ _, Err IdentityMismatch;
     sign_operator_proof := λ q,
       match Proof_sign
         {| body := {| pb_id := psr_proof_id q; pb_actor := psr_agent_id q;
                       pb_delegation_id := None;
                       pb_operation := proof_operation_text (command_kind (cev_command (psr_command q)));
                       pb_input_digest := psr_input_digest q;
                       pb_output_digest := psr_output_digest q;
                       pb_timestamp := psr_timestamp q; pb_expires_at := None |};
            signature := EmptyString |} RuntimeSample.agent_key with
       | Ok p => Ok p
       | _ => Err SigningFailed
       end |}.

Definition leased : CommandTx := control_run first_calls opened.

Definition executes : result StoreError.t CommandResult * CommandTx :=
  execute_operator_command (RuntimeSample.at_second 6) (cancel 70 71) signer leased.

Lemma executes_spec :
  executes
  = execute_operator_command (RuntimeSample.at_second 6) (cancel 70 71) signer leased.
Proof. unfold executes. reflexivity. Qed.

(** The command is applied: the run is cancelled, and there is one command, one receipt,
    one proof and an audit event for the lease and one for the command. *)
Lemma cancel_applies :
  match executes with
  | (Ok res, s) =>
      (crs_outcome res, size (cd_commands (ct_db s)), size (cd_receipts (ct_db s)),
       size (db_proofs (cd_db (ct_db s))), length (db_events (cd_db (ct_db s))),
       run_status <$> db_runs (cd_db (ct_db s)) !! 20%N)
  | (_, s) => (CommandResultOutcome.ExactReplay, 0, 0, 0, 0, None)
  end = (CommandResultOutcome.Applied, 1, 1, 1, 2, Some RunStatus.Cancelled).
Proof. vm_compute. reflexivity. Qed.

(** ** Witnesses *)

(** The fields of a command that was executed. *)
Definition applied_result (r : result StoreError.t CommandResult) : bool :=
  match r with
  | Ok res => match crs_outcome res with CommandResultOutcome.ExactReplay => false | _ => true end
  | _ => false
  end.

Lemma executed : applied_result executes.1 = true.
Proof. vm_compute. reflexivity. Qed.

Lemma opened_control : control_inv tables.
Proof.
  split.
  - intros workspace [= <-]. split_and!; [reflexivity|exact I|constructor].
  - split; [split|..]; intros; discriminate.
  - split; [intros id r L; discriminate L|]. intros b a L. cbn [tables db_budgets] in L.
    apply lookup_singleton_Some in L as [<- <-]. split; reflexivity.
  - intros b l L. unfold limits_of in L. cbn [tables db_budgets] in L.
    rewrite map_fmap_singleton in L. apply lookup_singleton_Some in L as [<- <-]. reflexivity.
Qed.

Lemma opened_commands : commands_inv (ct_db opened).
Proof. split; intros; discriminate. Qed.

Lemma leased_commands : commands_inv (ct_db leased).
Proof. apply control_run_commands, opened_commands. Qed.

Definition cancel_calls : list (option OperatorStoreContext * control_op) :=
  first_calls ++ [(RuntimeSample.at_second 6, CtCommand (cancel 70 71) signer)].

Lemma control_invariants_witness :
  control_inv (cd_db (ct_db (control_run cancel_calls opened)))
  ∧ append_only tables (cd_db (ct_db (control_run cancel_calls opened))).
Proof.
  destruct (control_invariants cancel_calls opened opened_control) as (A & B & _).
  exact (conj A B).
Defined.

(** The same command again, at any later time, is answered with the receipt. *)
Lemma command_exactly_once_witness :
  ∃ res s', executes = (Ok res, s')
    ∧ ∀ context, execute_operator_command (Some context) (cancel 70 71) signer s'
        = (Ok (command_result CommandResultOutcome.ExactReplay (crs_receipt res)), s').
Proof.
  pose proof executed as X. destruct executes as [[res|e|] s'] eqn:E; [|discriminate X..].
  exists res, s'. split; [reflexivity|]. intros context. rewrite executes_spec in E.
  destruct (command_exactly_once (RuntimeSample.at_second 6) (cancel 70 71) signer leased s' res
              leased_commands E [] context signer) as [R _].
  exact R.
Defined.

Lemma command_authorized_witness :
  ∃ w, in_scope (cancel 70 71) w (ct_db leased).
Proof.
  pose proof executed as X. destruct executes as [[res|e|] s'] eqn:E; [|discriminate X..].
  rewrite executes_spec in E.
  destruct (command_authorized (RuntimeSample.at_second 6) (cancel 70 71) signer leased s' res
              leased_commands E) as (w & _ & _ & S & _).
  - intros Y. cbn [fst applied_result] in X. rewrite Y in X. discriminate X.
  - exact (ex_intro _ w S).
Defined.

Lemma cancelled_row : finished <$> db_runs (cd_db (ct_db executes.2)) !! 20%N = Some true.
Proof. vm_compute. reflexivity. Qed.

(** The runtime still holds the lease and tries to reserve budget. *)
Definition late_calls : list (option OperatorStoreContext * control_op) :=
  [(RuntimeSample.at_second 8,
    CtRuntime (RtReserve (RuntimeSample.reserve_request (RuntimeSample.authority_at 2))))].

Lemma finished_run_final_witness :
  ∃ r, db_runs (cd_db (ct_db executes.2)) !! 20%N = Some r
    ∧ db_runs (cd_db (ct_db (control_run late_calls executes.2))) !! 20%N = Some r.
Proof.
  pose proof cancelled_row as X.
  destruct (db_runs (cd_db (ct_db executes.2)) !! 20%N) as [r|] eqn:L; [|discriminate X].
  injection X as F. exists r. split; [reflexivity|].
  exact (proj1 (finished_run_final late_calls executes.2 20%N r L F)).
Defined.

(** ** A pending approval *)

(** The request that the run waits for. *)
Definition request : SignedApprovalRequest :=
  match SignedApprovalRequest_create "mail.send" "v1" RuntimeSample.input (second 1)
          (second 30) RuntimeSample.agent_key 80 with
  | Ok r => r
  | _ => {| sr_body := {| ar_id := 80; ar_operation := EmptyString; ar_version := EmptyString;
                          ar_input_digest := zero_digest; ar_requested_by := 3;
                          ar_requested_at := second 1; ar_expires_at := second 30 |};
            sr_signature := EmptyString |}
  end.

Definition request_digest : ContentDigest :=
  match SignedApprovalRequest_digest request with Ok d => d | _ => zero_digest end.

Definition unsealed_consequence (digest : ControlDigest) : PendingConsequence :=
  {| pc_classification := ExternalEffect; pc_summary := "sends a mail";
     pc_consequence_digest := digest |}.

Definition consequence_digest : ControlDigest :=
  or_zero (control_digest_value "Proof-Operator-Approval-Consequence-v1"
             (consequence_body_value (unsealed_consequence zero_control))).

Definition unsealed_approval (digest : ControlDigest) : ApprovalBinding :=
  {| ab_schema := APPROVAL_BINDING_SCHEMA; ab_approval_request_id := 80; ab_workspace_id := 1;
     ab_run_id := 20; ab_step_id := 21; ab_checkpoint_id := 22; ab_checkpoint_sequence := 0;
     ab_checkpoint_digest := cp_state_digest RuntimeSample.checkpoint;
     ab_required_human_id := 2; ab_input_digest := ar_input_digest (sr_body request);
     ab_review_fields := []; ab_consequence := unsealed_consequence consequence_digest;
     ab_argument_digest :=
       or_zero (control_digest_value "Proof-Operator-Approval-Argument-v1" (Some (JArray [])));
     ab_consequence_digest := consequence_digest; ab_created_at := second 1;
     ab_binding_digest := digest |}.

Definition approval : ApprovalBinding :=
  unsealed_approval (or_zero (digest_without_field "Proof-Operator-Approval-Binding-v1"
                                (approval_binding_value (unsealed_approval zero_control))
                                "binding_digest")).

Definition waiting_run : AgentRun :=
  {| run_id := 20; run_actor := 3; run_agent_id := None; run_mode := OneShot; run_goal := "send";
     run_status := RunStatus.WaitingForInput; run_retry_count := 0; run_revision := 2;
     run_created_at := second 0; run_updated_at := second 6; run_completed_at := None |}.

Definition waiting_step : AgentRunStep :=
  {| step_id := 21; step_run_id := 20; step_ordinal := 0; step_attempt := 1;
     step_retry_of := None; step_operation := "mail.send"; step_version := "v1";
     step_input_digest := ar_input_digest (sr_body request);
     step_status := StepStatus.WaitingForApproval; step_approval_request_id := Some 80%N;
     step_output := None; step_proof := None; step_error := None; step_revision := 2;
     step_created_at := second 0; step_updated_at := second 6;
     step_started_at := Some (second 0); step_completed_at := None |}.

(** The run waits for the approval. *)
Definition waiting (s : CommandTx) : CommandTx :=
  {| ct_db := with_db (with_runs {[20%N := waiting_run]}
                (with_steps {[21%N := waiting_step]}
                (with_approvals {[80%N := approval]}
                (with_approval_requests {[80%N := request]} (cd_db (ct_db s)))))) (ct_db s);
     ct_uuids := ct_uuids s |}.

Definition pending : CommandTx := waiting leased.

Lemma waiting_commands s : same_commands (ct_db s) (ct_db (waiting s)).
Proof. split; reflexivity. Qed.

Lemma waiting_undecided s : cd_commands (ct_db s) = ∅ → undecided (ct_db (waiting s)).
Proof. intros E k e L. cbn in L. rewrite E in L. discriminate L. Qed.

Lemma leased_empty : cd_commands (ct_db leased) = ∅.
Proof. apply map_size_empty_inv. vm_compute. reflexivity. Qed.

(** The human approves it. *)
Definition approve : CommandExecutionRequest :=
  {| cer_schema := "proof.operator.command-execution-request/v1";
     cer_scope := scope OperatorMutationRoute.ApprovalDecide CommandKind.ApprovalDecide;
     cer_command := OperatorCommand.ApprovalDecision
       {| adc_schema := APPROVAL_DECISION_SCHEMA; adc_binding := binding 72 73;
          adc_approval_request_id := 80; adc_run_id := 20; adc_step_id := 21;
          adc_outcome := DecisionOutcome.Approved;
          adc_expected_request_digest := request_digest; adc_expected_run_revision := 2;
          adc_expected_step_revision := 2; adc_expected_control_revision := 1;
          adc_expected_checkpoint_id := 22; adc_expected_checkpoint_sequence := 0;
          adc_expected_checkpoint_digest := cp_state_digest RuntimeSample.checkpoint;
          adc_expected_fence_epoch := 1 |} |}.

(** The signer holds the key of the human too. *)
Definition human_signer : OperatorSigner :=
  {| sign_approval := λ q,
       match SignedApprovalDecision_create request Approved None (asr_validated_at q) human_key
               (asr_decision_id q) with
       | Ok d => Ok {| sdr_schema := "proof.operator.signed-decision-result/v1";
                       sdr_decision_digest :=
                         match SignedApprovalDecision_digest d with
                         | Ok digest => digest
                         | _ => zero_digest
                         end;
                       sdr_signature := base64url (sd_signature d) |}
       | _ => Err SigningFailed
       end;
     sign_operator_proof := sign_operator_proof signer |}.

(** Every check of the decision passes up to the audit event, the last of the four
    identifiers that it draws, which the chain refuses. *)
Lemma decision_reaches_audit :
  let '(r, s) := execute_operator_command (RuntimeSample.at_second 7) approve human_signer
                   pending in
  (r, length (ct_uuids pending) - length (ct_uuids s)) = (Err StoreError.Invalid, 4).
Proof. vm_compute. reflexivity. Qed.

Lemma approval_decision_refused_witness :
  let s := control_run [] pending in
  let outcome := execute_operator_command (RuntimeSample.at_second 7) approve human_signer s in
  (∀ res, outcome.1 ≠ Ok res) ∧ cd_decisions (ct_db outcome.2) = cd_decisions (ct_db pending)
  ∧ undecided (ct_db outcome.2).
Proof.
  refine (approval_decision_refused [] pending _ (waiting_undecided leased leased_empty)
            (RuntimeSample.at_second 7) approve human_signer eq_refl).
  exact (same_commands_inv _ _ (waiting_commands leased) leased_commands).
Defined.

End CommandSample.
